(* ===== verification/_CoqProject ===== *)
-Q . S2P
Prelude.v
Regex.v
GoLib.v
Numbers.v
Types.v
Scores.v
Paths.v
Measurement.v
Evaluation.v
Validate.v
ValidateProofs.v
EvaluationProofs.v
Sha256.v
GoJson.v
Canonical.v
Documents.v
Results.v
ResultsProofs.v
Frontier.v
Artifacts.v
Hidden.v
Store.v
Adjudication.v
AdjudicationProofs.v
LedgerProofs.v
Signatures.v
Checkpoint.v
CheckpointProofs.v
ArtifactsProofs.v
HiddenProofs.v
History.v
Platform.v
Preparation.v
Suites.v
Runners.v
Editorial.v
Intake.v
Submissions.v
Fleet.v
FleetSteps.v
FleetResults.v
RunnersProofs.v
IntakeProofs.v
Snapshots.v
SnapshotProofs.v
Lifecycle.v
Worker.v
Sources.v
Review.v
ContractProofs.v
WorkerProofs.v
Host.v
Wheels.v
Inventory.v
InventoryProofs.v
Executor.v
ExecutorProofs.v
Builder.v
BuilderProofs.v
Daemon.v
DaemonProofs.v
LifecycleProofs.v
System.v
SystemProofs.v
ReviewProofs.v
PreparationProofs.v
HistoryProofs.v
Witness.v
WitnessProofs.v
Publication.v
PublicationProofs.v
Samples.v
AuditSamples.v
ArtifactSamples.v
RunnerSamples.v
IntakeSamples.v
LifecycleSamples.v
ExecutorSamples.v
PublicationSamples.v
BuilderSamples.v
