(* ===== verification/Prelude.v ===== *)
(** * A verification of the Science Ladder core

    Science Ladder publishes scientific challenges, accepts submissions, runs them on
    isolated runners, and keeps a public ladder of verified records and milestones.
    Every decision is made from exact arithmetic over canonical documents, every
    document is signed, and the log of decisions is checkpointed and countersigned by
    independent witnesses.  This development models the parts that decide.

    ** The program

    - pkg/protocol is the pure core: documents, artifact trees, scores, contracts, hidden
      suites, signatures.
    - internal/platform is the control plane over PostgreSQL: the door (idempotent
      requests, budgets, frontier tickets, intents, acceptance), the runner service
      (queues, leases, results, preparation builds), the editors, publication, the
      lifecycle of challenges and versions, the job worker with scientific review, the
      adjudication transaction that turns validated submissions into records, claims,
      receipts and audit events, and the publication of the audit log.
    - internal/audit is the transparency layer: checkpoints over the audit log, the
      delegated keys that sign them, and the witness process that countersigns
      (cmd/witness).
    - internal/runner and cmd/runnerd are the host that does the work: it checks itself,
      claims jobs while its authorization lasts, fetches and verifies the inputs of a
      machine, reads its output, signs a receipt, scans what it builds, and keeps every
      result in a spool until the service has acknowledged it.

    A manifest is parsed ([ParseManifest]) and validated ([ValidateManifest]).  A creator
    imports a candidate ([importCandidate]), whose sources the worker resolves
    ([resolveSources]), turns it into a challenge ([createChallenge_begin],
    [createChallenge_commit]) from a pinned snapshot ([fetchSnapshot]), has it built and
    reviewed ([startPreflight], [scientificReviewAttempt]), locks it ([lockChallenge]) and
    publishes it ([publishChallenge]); a later version replaces it ([createVersion_begin],
    [createVersion_commit], [stageMigration], [completeMigration]).  A solver
    obtains a ticket ([createFrontierTicket]), spends it on an intent ([createIntent]),
    and has the prepared artifact accepted ([acceptIntent]).  The submission is queued
    ([queueSubmission]), claimed under a lease ([claimIfAdmitted] on the host,
    [claim_begin] and [claim_finish] on the service), run ([Run]) and reported
    ([persistResult], [deliver_job]), taken back when the lease lapses
    ([recoverRunnerLeases]) or finished by one signed run ([post_result]); a second run
    confirms it ([confirmation_decision], [ConfirmedScore], [ConfirmMeasuredRuns]).
    [adjudicate] finalises submissions in order; its owner may publish one
    ([publishSubmission]); [checkpointTick] seals and signs the audit events that [Build]
    commits to, [publicCheckpoints] serves them, [observeOne] takes them to a witness,
    [Observe] makes its vote durable before it is released, and [witnessReceipt] counts the
    votes with [VerifyQuorum].

    ** Files

    - Prelude: Go results and loops, machine integers, tactics, generic lemmas.
    - Regex, GoLib, Numbers: the parts of Go's standard library the code uses
      (regular expressions by derivatives, UTF-8, path.Clean, hexadecimal, time,
      strconv and math/big text).
    - Types: one record per struct of pkg/protocol, and assignments to the fields of a job.
    - Scores (scores.go), Paths (artifacts.go, validate.go), Measurement (measurement.go),
      Evaluation and EvaluationProofs (evaluation.go, proof.go), Validate and
      ValidateProofs (validate.go, assurance.go, lease.go).
    - Sha256, GoJson (the tokenizer of encoding/json), Canonical and Documents
      (canonical.go).
    - Results and ResultsProofs (the rest of scores.go, evaluation.go and
      measurement.go), Frontier (frontier_claim.go).
    - Artifacts and ArtifactsProofs (artifacts.go), Hidden and HiddenProofs (hidden.go).
    - Store (the tables of migrations/ that adjudication touches, and the audit append
      of server.go), Adjudication (adjudication.go), AdjudicationProofs and LedgerProofs.
    - Signatures (signatures.go with encoding/base64), Checkpoint and
      CheckpointProofs (checkpoint.go), History and HistoryProofs (history.go,
      release.go), Witness and WitnessProofs (witness.go), Publication and
      PublicationProofs (the trust, checkpoints and votes of audit.go, and observe.go of
      cmd/witness).
    - Platform (the other tables and the server's configuration), Preparation and
      PreparationProofs (preparation.go, internal/platform/assurance.go, and the claim
      query), Suites (suites.go), Runners (runners.go, runner_profiles.go, the claim request
      of runner_authorization.go), Editorial (editorial.go, metric_review.go), Intake (mutate
      of server.go, admission.go, frontier_admission.go), Submissions (submissions.go, the
      production gate of audit.go) and IntakeProofs.
    - Snapshots and SnapshotProofs (github.go, github_archive.go), Lifecycle (creation.go,
      versions.go, metric_review.go, the receipt signatures of signing.go), ContractProofs
      and LifecycleProofs (what each lifecycle operation keeps: [goes] and [good]).
    - Worker and WorkerProofs (worker.go, the candidates of creation.go), Sources (the
      addresses, documents and sources of review.go, over the dates of package time), Review
      (the rest of review.go, review_evidence.go) and ReviewProofs.
    - System and SystemProofs: the whole platform as a step relation ([life_step]) over
      its tables and the open claims, with the fleet as the part that handles jobs.
    - Fleet: the operations that touch runner jobs as a step relation, each with its own
      clock, the abstract lease, the invariant ([fleet_ok]) and what one operation may do
      ([advance]); FleetSteps and FleetResults prove [advance] for each operation;
      RunnersProofs draws the theorems.
    - The runner: Host (runtime.go, assets.go and capabilities.go: the configuration of a
      host and the controls it checks), Wheels (the snapshots and wheel locks of builder.go),
      Inventory and InventoryProofs (scanner.go), Executor and ExecutorProofs (runtime.go and
      local.go: the inputs, output, receipt and teardown of a run), Builder and BuilderProofs
      (builder.go, prepare.go, conformance.go: the build of a challenge with its disks,
      fixture runs and probes, the preparation of an artifact, and their receipt), Daemon and DaemonProofs
      (admission.go, authorization.go and spool.go of the daemon, and the renewal of
      runner_authorization.go).
    - Samples, AuditSamples, ArtifactSamples, RunnerSamples, IntakeSamples,
      LifecycleSamples, ExecutorSamples, PublicationSamples, BuilderSamples: concrete
      documents, databases, keys and runs on which the theorems with hypotheses are
      instantiated.

    A definition has the name of the Go function or type it translates; a loop body or
    a block of a long function is a definition of its own, named after what it checks.
    A Go function returning [(T, error)] is a function to [result T] whose error
    carries the message of the source.  A run-time panic (nil dereference, index out of
    range) is an error of its own.

    ** Theorems

    - Exactness: ticks are in bijection with integers, normalisation rounds against
      the solver by less than one tick, confirmation returns the worse of two scores
      within tolerance, the median interval is the tightest with the requested
      coverage, summaries and achievements are decided by exact rationals.
    - Documents: [checkJSON] is total and accepts exactly the bounded I-JSON values,
      the YAML subset yields bounded values, accepted paths stay inside their root,
      accepted manifests have strictly improving milestones, leases cover the declared
      schedule; a snapshot holds exactly the selected blobs of its Git tree; artifact trees
      bind their files, archives and directories agree, sealed suites open again and bind
      their job.
    - Adjudication: it terminates, finalises in sequence order, refines the abstract
      ladder of LedgerProofs, gives a milestone to its first qualifier for ever, keeps
      the best unbeaten, extends the audit chain by one event per submission, and
      releases each capacity reservation once.
    - Runners, over all interleavings: the service implements the abstract lease, no
      lease is granted twice under one fence, the tables stay well-formed, results are
      permanent, a superseded run never commits, and a submission is valid only after two
      agreeing runs of its artifact, on independent hosts where the policy says so.
    - The host: a run launches exactly the inputs that were signed and pinned
      ([launched_inputs_exact]), its console is read as one frame ([parseGuestOutput_exact]),
      and the service accepts the receipt of every run it leased ([run_receipt_accepted]).
      A wheel tree is what its lock pins ([lockedWheelFiles_exact]); a scan passes exactly
      when nothing is unknown ([scan_pass_exact]), and the service accepts what it passes
      ([passing_scan_accepted]).  Work is only started that the authorization outlives
      ([admission_covers_lease]), and a renewal succeeds ([renewal_refreshes]).  A result
      survives kills and crashes until it is acknowledged ([persisted_result_survives]) and
      is delivered by the next start ([restart_delivers]).
    - Preparation: the service accepts the receipt of every preparation that a host
      finishes, whether the build passed or failed ([prepared_receipt_accepted]); an accepted
      preflight rests on distinct signed repeated runs, and the outputs of an accepted build
      were uploaded and verified.  The claim query is no laxer than the checks of
      pkg/protocol.
    - The door: a mutation runs once per key, budgets are charged once and hold, tickets
      keep their budgets and are spent once, acceptance numbers submissions 1..n without
      gap or repetition against reserved capacity, publication follows finalisation, and
      nothing outside the runner service decides an outcome.
    - The lifecycle, over all interleavings of the platform: it implements the fleet system
      ([platform_runs_fleet]), only a version with a signed lock that commits to its present
      contents is open for solvers ([open_intake_is_locked]), a lock never changes
      ([lock_immutable]), and a migration transfers exactly the free milestones its signed
      evidence covers ([completeMigration_exact]).
    - The worker: a waiting job is served after the jobs ahead of it ([queue_serves]),
      attempts are bounded and ended jobs final ([job_attempts_bounded]).
    - Review: a review passes only when nothing holds it back ([conclude_review_exact]), the
      reviewer sees only fit files of the pinned snapshot ([selectReviewEvidence_safe]),
      quotations are sought in visible text ([visibleSourceText_exact]) of documents from
      public addresses ([dial_public]).
    - Transparency: envelopes bind type and payload, signing and verifying are inverse,
      Merkle roots and event chains bind their contents up to a collision among the
      hashed inputs, a quorum is two operators with two keys, revocations are
      permanent and bind the trust a platform starts with ([loadTrust_chain]), past
      membership cannot be rewritten, and a witness never votes on two chains across failed
      writes, restarts and power loss.
    - Publication, over all interleavings of appends, seals, signatures and votes: the
      published checkpoints partition the log and each is built on exactly the events its
      interval reads ([published_log_ok]), a witness accepts what is served
      ([served_validates]) and stays on the platform's log ([witness_follows]), the worker is
      never stuck on a log of its own ([seal_progress]), and a row marked verified was signed
      by two operators ([verified_two_operators]).
    - Defects stated as theorems: a line break inside a base64 payload text makes a
      witness journal unloadable ([broken_payload_unloadable]); a sealed suite object near
      the size limit cannot be opened ([encrypt_limit_exceeds_open]); the claim query
      ignores an omitted asset domain ([claim_query_ignores_domain]); a voided submission
      can be queued again ([queue_reopens_voided]); a fixture that does not parse passes on the
      host with any declared score, and the service refuses it ([unparsed_score_refused]);
      LifecycleSamples has those of editorial
      decisions ([rejected_version_publishes], [rereview_lifts_rejection],
      [rejected_migration_stays_pending], [season_restores_withdrawn]) and of the attempts
      limit ([exhausted_review_is_final], [cut_error_is_not_recorded]).

    ** Parameters

    Code outside the repository is a class: [UnicodeLib] (normalisation, folding),
    [UrlLib] (net/url), [JsonCanonicalizer] (RFC 8785), [JsonType] (the reflection
    codec of encoding/json for one type), [YamlLib] (yaml.v3), [Crypto] and [Pki]
    (ECDSA, x509, PEM), [Aead] and [Curve] (AES-GCM, X25519), [SecretSealer] and
    [ObjectStore] (key custody and object storage, which the server reaches by interfaces),
    [GitHub] and [Rsa] (the GitHub API and the signature of its app tokens), [SourceNet],
    [HtmlLib] and [ReviewProvider] (requests to source servers, html.Parse, and the review
    provider with the decoder of its answer), [Columns] (what PostgreSQL gives back of a
    document and an instant), [HostOS], [Machine], [Workspace] and [WheelLib] (the files,
    the virtual machine, the scratch directory and the zip reader of a host), [Outcomes]
    (the results of the spool's system calls),
    [Env] (the clock and random identifiers; each step of [step] has its own).  Laws are
    hypotheses of the theorems that need them (for instance [JournalCodec]: a marshalled
    record is one line and keeps an ASCII payload; [TreeCodec], [MaterialCodec],
    [SpoolCodec], [AeadLaws] and [CurveLaws] likewise).  SHA-256, base64, the JSON tokenizer
    and the regular expressions are modelled, not assumed; collision freedom is always
    relative to the listed inputs.

    ** Fuel

    [checkJSON] runs with fuel 40003: each call counts one of at most 20000 nodes and
    each loop iteration one call ([checkJSON_exact] proves it never runs out).
    [adjudicate] has one step per stored submission and one more
    ([adjudicate_terminates]).  [merkle_tree] has one per leaf, and each split leaves
    two shorter lists.  Decimal printing has one per bit.  The loops over an HTML tree
    ([text_loop], [date_loop]) have one per node, which [visibleSourceText_exact] proves
    enough.

    ** Not modelled

    The handlers are modelled from their decoded request to their commit: HTTP, TLS,
    cookies and sessions are not, nor are the upload and reveal of suites, the read-only
    queries, storage and key custody clients, the commands and the web client.  Of the
    runner, the local mode of the command line, the program inside the guest, its broker, the
    probes of the native profile and the image builder are not: they drive external programs
    and kernel interfaces.  The database
    is modelled by its tables and the constraints a statement can violate; a transaction is
    one step, and a failed one changes nothing, which is what the row locks and advisory
    locks of the source provide ([claim_begin] and [claim_finish] are two transactions, and
    so are [seal_checkpoint] and [sign_checkpoint], as in the source). *)

From stdpp Require Export prelude strings gmap.
From Stdlib Require Export ZArith Lia.

Global Open Scope Z_scope.

Declare Scope go_scope.
Delimit Scope go_scope with go.

(** * Results: a Go function returning [(T, error)] *)

(** The second component of a Go [(value, err)] pair decides; the error is kept
    as its message, so that two rejections of the source remain distinct. *)
Inductive result (A : Type) : Type :=
| Ok (a : A)
| Err (e : string).
Arguments Ok {A} a.
Arguments Err {A} e.

#[export] Instance result_eq_dec {A} `{EqDecision A} : EqDecision (result A).
Proof. solve_decision. Defined.

#[export] Instance Ok_inj {A} : Inj (=) (=) (@Ok A).
Proof. by injection 1. Qed.

Definition is_ok {A} (r : result A) : bool :=
  match r with Ok _ => true | Err _ => false end.

Definition is_err {A} (r : result A) : bool := negb (is_ok r).

(** [x, err := c; if err != nil { return err }; k] *)
Notation "'let!' x := c 'in' k" :=
  (match c with Ok x => k | Err e => Err e end)
  (at level 200, x name, c at level 100, k at level 200, right associativity,
   format "'[v' 'let!'  x  :=  c  'in' '/' k ']'") : go_scope.

(** [x, err := c; if err != nil { return errors.New(msg) }; k] *)
Notation "'let!' x := c 'or' m 'in' k" :=
  (match c with Ok x => k | Err _ => Err m end)
  (at level 200, x name, c at level 100, m at level 100, k at level 200,
   right associativity,
   format "'[v' 'let!'  x  :=  c  'or'  m  'in' '/' k ']'") : go_scope.

(** String comparison, [a == b] and [a != b] of the source. *)
Notation "a ==s b" := (String.eqb a b) (at level 70, no associativity) : go_scope.
Notation "a !=s b" := (negb (String.eqb a b)) (at level 70, no associativity) : go_scope.

Global Open Scope go_scope.

(** * Loops *)

(** [for _, x := range l { if err := f(x); err != nil { return err } }] *)
Fixpoint for_each {A} (f : A → result unit) (l : list A) : result unit :=
  match l with
  | [] => Ok tt
  | x :: l => let! _ := f x in for_each f l
  end.

(** The same loop threading a value, e.g. a [seen] set. *)
Fixpoint foldM {S A} (f : S → A → result S) (s : S) (l : list A) : result S :=
  match l with
  | [] => Ok s
  | x :: l => let! s' := f s x in foldM f s' l
  end.

(** The same loop with the index of each element, starting at [i]. *)
Fixpoint for_each_i {A} (f : nat → A → result unit) (i : nat) (l : list A) : result unit :=
  match l with
  | [] => Ok tt
  | x :: l => let! _ := f i x in for_each_i f (S i) l
  end.

(** * Machine integers *)

(** Two's-complement reduction to Go's [int]/[int64]. *)
Definition wrap64 (z : Z) : Z := (z + 2 ^ 63) mod 2 ^ 64 - 2 ^ 63.
Definition int64_range (z : Z) : Prop := - 2 ^ 63 ≤ z < 2 ^ 63.
Definition int64_max : Z := 2 ^ 63 - 1.

(** * Automation *)

Create HintDb golib.

(** Boolean guards of the source into propositions. *)
Ltac bool_prop :=
  repeat match goal with
  | H : (_ || _) = false |- _ => apply orb_false_iff in H as [? ?]
  | H : (_ && _) = true |- _ => apply andb_true_iff in H as [? ?]
  | H : negb _ = false |- _ => apply negb_false_iff in H
  | H : negb _ = true |- _ => apply negb_true_iff in H
  | H : String.eqb _ _ = true |- _ => apply String.eqb_eq in H
  | H : String.eqb _ _ = false |- _ => apply String.eqb_neq in H
  | H : (_ <? _) = true |- _ => apply Z.ltb_lt in H
  | H : (_ <? _) = false |- _ => apply Z.ltb_ge in H
  | H : (_ <=? _) = true |- _ => apply Z.leb_le in H
  | H : (_ <=? _) = false |- _ => apply Z.leb_gt in H
  | H : (_ >? _) = true |- _ => rewrite Z.gtb_ltb in H
  | H : (_ >? _) = false |- _ => rewrite Z.gtb_ltb in H
  | H : (_ >=? _) = true |- _ => rewrite Z.geb_leb in H
  | H : (_ >=? _) = false |- _ => rewrite Z.geb_leb in H
  | H : (_ =? _) = true |- _ => apply Z.eqb_eq in H
  | H : (_ =? _) = false |- _ => apply Z.eqb_neq in H
  | H : bool_decide _ = true |- _ => apply bool_decide_eq_true in H
  | H : bool_decide _ = false |- _ => apply bool_decide_eq_false in H
  end.

(** Opens one guard of a chain [if bad then Err _ else ...] or one
    [let!] of a hypothesis [H : ... = Ok _]. *)
Ltac ok_step H :=
  lazymatch type of H with
  | (if ?b then Err _ else _) = Ok _ =>
      let E := fresh "G" in destruct b eqn:E; [discriminate H|]
  | (if ?b then _ else Err _) = Ok _ =>
      let E := fresh "G" in destruct b eqn:E; [|discriminate H]
  | match ?c with Ok _ => _ | Err _ => Err _ end = Ok _ =>
      let x := fresh "r" in let E := fresh "E" in
      destruct c as [x|?] eqn:E; [|discriminate H]
  | match ?c with Some _ => _ | None => Err _ end = Ok _ =>
      let x := fresh "r" in let E := fresh "E" in
      destruct c as [x|] eqn:E; [|discriminate H]
  end.
Ltac ok_steps H := repeat ok_step H.

(** * Generic lemmas *)

Lemma for_each_ok {A} (f : A → result unit) (l : list A) :
  for_each f l = Ok tt ↔ Forall (λ x, f x = Ok tt) l.
Proof.
  induction l as [|x l IH]; simpl; [naive_solver|].
  rewrite Forall_cons, <-IH. destruct (f x) as [[]|] eqn:?; naive_solver.
Qed.

Lemma for_each_i_ok {A} (f : nat → A → result unit) (l : list A) i :
  for_each_i f i l = Ok tt ↔ ∀ j x, l !! j = Some x → f (i + j)%nat x = Ok tt.
Proof.
  revert i. induction l as [|x l IH]; intros i; simpl.
  { split; [intros _ ? ? ?; set_solver|done]. }
  destruct (f i x) as [[]|e] eqn:E.
  - rewrite IH. split.
    + intros H [|j] y Hj; simplify_eq/=; [by rewrite Nat.add_0_r|].
      replace (i + S j)%nat with (S i + j)%nat by lia. eauto.
    + intros H j y Hj. replace (S i + j)%nat with (i + S j)%nat by lia. by apply H.
  - split; [done|]. intros H. specialize (H O x eq_refl).
    rewrite Nat.add_0_r in H. congruence.
Qed.

Lemma foldM_app {S A} (f : S → A → result S) s l1 l2 :
  foldM f s (l1 ++ l2) = (let! s' := foldM f s l1 in foldM f s' l2).
Proof.
  revert s. induction l1 as [|x l1 IH]; intros s; simpl; [done|].
  destruct (f s x); [apply IH|done].
Qed.

(** An invariant of the threaded value, kept by each successful step. *)
Lemma foldM_ind {S A} (f : S → A → result S) (P : S → Prop) s l s' :
  (∀ s x s', x ∈ l → P s → f s x = Ok s' → P s') →
  P s → foldM f s l = Ok s' → P s'.
Proof.
  revert s. induction l as [|x l IH]; intros s Hstep Hs H; simpl in H; [congruence|].
  ok_step H. eapply IH; [|eapply (Hstep s x); [left|..]; eauto|done].
  intros ? ? ? Hx. apply Hstep. by right.
Qed.

(** What every step checks of its element holds of the whole list. *)
Lemma foldM_Forall {S A} (f : S → A → result S) (P : A → Prop) s l s' :
  (∀ s x s', f s x = Ok s' → P x) → foldM f s l = Ok s' → Forall P l.
Proof.
  intros Hstep. revert s. induction l as [|x l IH]; intros s H; simpl in H; [constructor|].
  ok_step H. constructor; eauto.
Qed.

(** A loop that refuses a key it has already recorded accepts distinct keys only,
    and has recorded exactly them. *)
Lemma foldM_distinct {S A} (f : S → A → result S) (seen : S → gset string)
    (key : A → string) s l s' :
  (∀ s x s', f s x = Ok s' → key x ∉ seen s ∧ seen s' = {[key x]} ∪ seen s) →
  foldM f s l = Ok s' →
  NoDup (key <$> l) ∧ (∀ x, x ∈ l → key x ∉ seen s) ∧
  seen s' = list_to_set (key <$> l) ∪ seen s.
Proof.
  intros Hstep. revert s. induction l as [|x l IH]; intros s H; simpl in H.
  { simplify_eq. split_and!; [constructor|set_solver|set_solver]. }
  ok_step H. destruct (Hstep _ _ _ E) as [Hx Hr].
  destruct (IH _ H) as (Hnd & Hdis & Hs'). rewrite Hr in *. split_and!.
  - simpl. constructor; [|done]. intros (y & Hy & Hyl)%list_elem_of_fmap.
    apply (Hdis y Hyl). rewrite Hy. set_solver.
  - intros y [->|Hy]%elem_of_cons; [done|]. specialize (Hdis y Hy). set_solver.
  - rewrite Hs'. simpl. set_solver.
Qed.

(** ORDER BY key LIMIT 1 over the rows [ok] selects: a first least one. *)
Definition first_least {A} (ok : A → bool) (key : A → Z) (best : option A) (l : list A) : option A :=
  foldl (λ best x, if ok x then
    match best with
    | Some b => if key x <? key b then Some x else best
    | None => Some x
    end else best) best l.

Lemma first_least_spec {A} (ok : A → bool) (key : A → Z) l best :
  match first_least ok key best l with
  | None => best = None ∧ ∀ x, x ∈ l → ok x = false
  | Some y => (best = Some y ∨ y ∈ l ∧ ok y = true) ∧ (∀ b, best = Some b → key y ≤ key b) ∧
      ∀ x, x ∈ l → ok x = true → key y ≤ key x
  end.
Proof.
  revert best. induction l as [|x l IH]; intros best; simpl.
  { destruct best; [split_and!; [by left|by intros ? [= <-]|set_solver]|split; [done|set_solver]]. }
  unfold first_least in *. simpl. destruct (ok x) eqn:Hx.
  - set (best' := match best with Some b => if key x <? key b then Some x else best | None => Some x end).
    assert (∃ z, best' = Some z ∧ key z ≤ key x ∧ (∀ b, best = Some b → key z ≤ key b)
      ∧ (z = x ∨ best = Some z)) as (z & Hz & Hzx & Hzb & Hor).
    { subst best'. destruct best as [b|].
      - destruct (Z.ltb_spec (key x) (key b)); eexists; split_and!; try done; try lia; eauto;
          intros ? [= <-]; lia.
      - exists x. split_and!; eauto; lia || done. }
    specialize (IH best'). destruct (foldl _ best' l) as [y|]; [|destruct IH; congruence].
    destruct IH as (Hy & Hk & Hl). specialize (Hk z Hz). split_and!.
    + destruct Hy as [Hy|[? ?]]; [|right; split; set_solver]. rewrite Hz in Hy. injection Hy as <-.
      destruct Hor as [->|]; [right; split; set_solver|by left].
    + intros b Hb. specialize (Hzb b Hb). lia.
    + intros w [->|Hw]%elem_of_cons Hok; [lia|by apply Hl].
  - specialize (IH best). destruct (foldl _ best l) as [y|].
    + destruct IH as (Hy & Hk & Hl). split_and!; [set_solver|done|].
      intros w [->|Hw]%elem_of_cons Hok; [congruence|by apply Hl].
    + destruct IH as [-> Hl]. split; [done|]. intros w [->|Hw]%elem_of_cons; [done|by apply Hl].
Qed.

Lemma wrap64_range z : int64_range (wrap64 z).
Proof.
  unfold wrap64, int64_range. pose proof (Z.mod_pos_bound (z + 2 ^ 63) (2 ^ 64)). lia.
Qed.

Lemma wrap64_id z : int64_range z → wrap64 z = z.
Proof.
  unfold wrap64, int64_range. intros H. rewrite Z.mod_small; lia.
Qed.
#[export] Hint Resolve wrap64_range : golib.
#[export] Hint Rewrite @wrap64_id using (unfold int64_range; lia) : golib.
