(* ===== verification/Regex.v ===== *)
(** Regular expressions over bytes, for the patterns compiled with
    [regexp.MustCompile] in pkg/protocol.  Every pattern of the source is
    anchored ([^...$]) and uses ASCII classes only, so a Go match over the runes
    of a string is a match of the whole byte sequence.  [matches] is the
    executable matcher (Brzozowski derivatives); [lang] is the language it
    decides, and the patterns are analysed through [lang]. *)

From S2P Require Import Prelude.
From Stdlib Require Import Ascii.

Inductive re : Type :=
| Empty
| Eps
| Chr (p : ascii → bool)
| Cat (r s : re)
| Alt (r s : re)
| Star (r : re).

(** ** The language of an expression *)

Inductive star (L : list ascii → Prop) : list ascii → Prop :=
| star_nil : star L []
| star_app u v : u ≠ [] → L u → star L v → star L (u ++ v).

Fixpoint lang (r : re) (w : list ascii) : Prop :=
  match r with
  | Empty => False
  | Eps => w = []
  | Chr p => ∃ c, w = [c] ∧ p c = true
  | Cat r s => ∃ u v, w = u ++ v ∧ lang r u ∧ lang s v
  | Alt r s => lang r w ∨ lang s w
  | Star r => star (lang r) w
  end.

(** ** The matcher *)

Fixpoint nullable (r : re) : bool :=
  match r with
  | Empty => false
  | Eps => true
  | Chr _ => false
  | Cat r s => nullable r && nullable s
  | Alt r s => nullable r || nullable s
  | Star _ => true
  end.

(** Smart constructors keep the derivatives of counted repetitions small. *)
Definition cat (r s : re) : re :=
  match r with
  | Empty => Empty
  | Eps => s
  | _ => Cat r s
  end.

Definition alt (r s : re) : re :=
  match r, s with
  | Empty, _ => s
  | _, Empty => r
  | _, _ => Alt r s
  end.

Fixpoint deriv (c : ascii) (r : re) : re :=
  match r with
  | Empty | Eps => Empty
  | Chr p => if p c then Eps else Empty
  | Cat r s =>
      if nullable r then alt (cat (deriv c r) s) (deriv c s) else cat (deriv c r) s
  | Alt r s => alt (deriv c r) (deriv c s)
  | Star r' => cat (deriv c r') r
  end.

Fixpoint matches_list (r : re) (w : list ascii) : bool :=
  match w with
  | [] => nullable r
  | c :: w => matches_list (deriv c r) w
  end.

Definition matches (r : re) (s : string) : bool :=
  matches_list r (String.list_ascii_of_string s).

(** ** Derived forms: [r?], [r+], [r{0,n}], [r{n}] *)

Definition Opt (r : re) : re := Alt Eps r.
Definition Plus (r : re) : re := Cat r (Star r).
Fixpoint UpTo (n : nat) (r : re) : re :=
  match n with O => Eps | S n => Alt Eps (Cat r (UpTo n r)) end.
Fixpoint Times (n : nat) (r : re) : re :=
  match n with O => Eps | S n => Cat r (Times n r) end.

(** ** Correctness of the matcher *)

Lemma nullable_lang r : nullable r = true ↔ lang r [].
Proof.
  induction r as [| |p|r IHr s IHs|r IHr s IHs|r IHr]; simpl.
  - naive_solver.
  - naive_solver.
  - naive_solver.
  - rewrite andb_true_iff, IHr, IHs. split.
    + intros [??]. by exists [], [].
    + intros (u & v & Huv & ? & ?). symmetry in Huv. by apply app_eq_nil in Huv as [-> ->].
  - rewrite orb_true_iff. naive_solver.
  - split; [intros _; constructor|done].
Qed.

Lemma lang_cat r s w : lang (cat r s) w ↔ lang (Cat r s) w.
Proof.
  destruct r; simpl; try done.
  - naive_solver.
  - split; [intros ?; by exists [], w|]. by intros (? & ? & -> & -> & ?).
Qed.

Lemma lang_alt r s w : lang (alt r s) w ↔ lang (Alt r s) w.
Proof. destruct r, s; simpl; naive_solver. Qed.

Lemma lang_deriv_cat (L M : list ascii → Prop) c w :
  (∃ u v, c :: w = u ++ v ∧ L u ∧ M v) ↔
  (∃ u v, w = u ++ v ∧ L (c :: u) ∧ M v) ∨ L [] ∧ M (c :: w).
Proof.
  split.
  - intros ([|a u] & v & Heq & ? & ?); simplify_eq/=; [by right|left; eauto].
  - intros [(u & v & -> & ? & ?)|[? ?]]; [by exists (c :: u), v|by exists [], (c :: w)].
Qed.

Lemma lang_deriv c r w : lang (deriv c r) w ↔ lang r (c :: w).
Proof.
  revert w. induction r as [| |p|r IHr s IHs|r IHr s IHs|r IHr]; intros w; simpl.
  - done.
  - naive_solver.
  - destruct (p c) eqn:Hc; simpl; split.
    + intros ->. eauto.
    + intros (? & [= <- ->] & ?). done.
    + done.
    + intros (? & [= <- ->] & ?). congruence.
  - rewrite lang_deriv_cat.
    assert (∀ w, lang (cat (deriv c r) s) w ↔ ∃ u v, w = u ++ v ∧ lang r (c :: u) ∧ lang s v)
      as Hcat.
    { intros w'. rewrite lang_cat. simpl. by setoid_rewrite IHr. }
    destruct (nullable r) eqn:Hn.
    + rewrite lang_alt. simpl. rewrite Hcat, IHs. apply nullable_lang in Hn. naive_solver.
    + rewrite Hcat. rewrite <-not_true_iff_false, nullable_lang in Hn. naive_solver.
  - rewrite lang_alt. simpl. by rewrite IHr, IHs.
  - rewrite lang_cat. simpl. setoid_rewrite IHr. split.
    + intros (u & v & -> & ? & ?). by apply (star_app _ (c :: u) v).
    + intros Hs. inversion Hs as [|[|a u] v ??? Heq]; simplify_eq/=. eauto.
Qed.

Lemma matches_list_lang r w : matches_list r w = true ↔ lang r w.
Proof.
  revert r. induction w as [|c w IH]; intros r; simpl.
  - apply nullable_lang.
  - by rewrite IH, lang_deriv.
Qed.

Lemma matches_lang r s : matches r s = true ↔ lang r (String.list_ascii_of_string s).
Proof. apply matches_list_lang. Qed.

(** ** Languages of the derived forms *)

Lemma star_chr p w : star (lang (Chr p)) w ↔ Forall (λ c, p c = true) w.
Proof.
  split.
  - induction 1 as [|u v ? (c & -> & ?) _ IH]; simpl; [constructor|by constructor].
  - induction 1 as [|c w ?? IH]; [constructor|].
    apply (star_app _ [c] w); [done| |done]. simpl. eauto.
Qed.

Lemma lang_plus_chr p w :
  lang (Plus (Chr p)) w ↔ w ≠ [] ∧ Forall (λ c, p c = true) w.
Proof.
  unfold Plus. change (lang (Cat (Chr p) (Star (Chr p))) w) with
    (∃ u v, w = u ++ v ∧ lang (Chr p) u ∧ star (lang (Chr p)) v).
  setoid_rewrite star_chr. split.
  - intros (? & v & -> & (c & -> & ?) & ?). simpl. split; [done|by constructor].
  - intros [? Hw]. destruct w as [|c w]; [done|]. apply Forall_cons in Hw as [??].
    exists [c], w. simpl. eauto.
Qed.

Lemma lang_upto_chr n p w :
  lang (UpTo n (Chr p)) w ↔ (length w ≤ n)%nat ∧ Forall (λ c, p c = true) w.
Proof.
  revert w. induction n as [|n IH]; intros w; simpl.
  - destruct w; simpl; split; [by split|done|done|intros [??]; lia].
  - split.
    + intros [->|(u & v & -> & (c & -> & ?) & Hv)]; [split; [simpl; lia|constructor]|].
      apply IH in Hv as [??]. simpl. split; [lia|by constructor].
    + intros [Hl Hw]. destruct w as [|c w]; [by left|right].
      apply Forall_cons in Hw as [??]. exists [c], w. simpl in *.
      split; [done|]. split; [eauto|]. apply IH. split; [lia|done].
Qed.
