(* ===== verification/GoLib.v ===== *)
(** The parts of Go's standard library that the modelled packages call: byte
    strings ([strings], [bytes]), UTF-8 decoding ([unicode/utf8]), slash paths
    ([path]), hexadecimal ([encoding/hex]) and instants ([time]).  A Go [string]
    or [[]byte] is a Rocq [string], i.e. a sequence of bytes. *)

From S2P Require Import Prelude.
From Stdlib Require Import Ascii.

Abbreviation Bytes := string (only parsing).
Abbreviation list_of := String.list_ascii_of_string.
Abbreviation string_of := String.string_of_list_ascii.

Definition byte_val (c : ascii) : Z := Z.of_N (N_of_ascii c).
Definition byte_of (z : Z) : ascii := ascii_of_N (Z.to_N z).
Definition bytes_of (s : string) : list Z := map byte_val (list_of s).
Definition of_bytes (l : list Z) : string := string_of (map byte_of l).

(** [len(s)] *)
Definition len (s : string) : Z := Z.of_nat (String.length s).
(** [len(l)] of a slice *)
Definition lenl {A} (l : list A) : Z := Z.of_nat (length l).

(** * strings *)

Fixpoint is_prefix (p l : list ascii) : bool :=
  match p, l with
  | [], _ => true
  | _ :: _, [] => false
  | a :: p, b :: l => Ascii.eqb a b && is_prefix p l
  end.

Definition HasPrefix (s p : string) : bool := is_prefix (list_of p) (list_of s).
Definition HasSuffix (s p : string) : bool :=
  is_prefix (rev (list_of p)) (rev (list_of s)).
Definition TrimSuffix (s p : string) : string :=
  if HasSuffix s p
  then string_of (take (String.length s - String.length p) (list_of s)) else s.
Definition TrimPrefix (s p : string) : string :=
  if HasPrefix s p then string_of (drop (String.length p) (list_of s)) else s.

(** [strings.Contains(s, c)] for a one-byte [c]; also [ContainsRune(s, 0)]. *)
Definition ContainsByte (s : string) (c : ascii) : bool := existsb (Ascii.eqb c) (list_of s).
Definition ContainsAny (s chars : string) : bool :=
  existsb (ContainsByte s) (list_of chars).

(** [strings.Split(s, sep)] for a one-byte separator. *)
Fixpoint split_list (c : ascii) (l : list ascii) : list (list ascii) :=
  match l with
  | [] => [[]]
  | a :: l =>
      if Ascii.eqb a c then [] :: split_list c l
      else match split_list c l with
           | [] => [[a]]
           | w :: ws => (a :: w) :: ws
           end
  end.
Definition Split (s : string) (c : ascii) : list string :=
  map string_of (split_list c (list_of s)).

Fixpoint join_list (c : ascii) (ws : list (list ascii)) : list ascii :=
  match ws with
  | [] => []
  | [w] => w
  | w :: ws => w ++ c :: join_list c ws
  end.

Definition lower_byte (c : ascii) : ascii :=
  if (65 <=? byte_val c) && (byte_val c <=? 90) then byte_of (byte_val c + 32) else c.
(** [bytes.ToLower] on ASCII input. *)
Definition ToLowerASCII (s : string) : string := string_of (map lower_byte (list_of s)).
(** [strings.EqualFold] against an ASCII word without [k] or [s], the only
    ASCII letters whose simple-folding orbit leaves ASCII. *)
Definition EqualFoldASCII (s t : string) : bool := ToLowerASCII s ==s ToLowerASCII t.

(** * unicode/utf8 *)

Definition cont (b : Z) : bool := (128 <=? b) && (b <=? 191).
Definition inr (lo hi b : Z) : bool := (lo <=? b) && (b <=? hi).

(** The accepted second bytes for each lead byte of a three- or four-byte
    sequence (Go's [acceptRanges]). *)
Definition second3 (b0 b1 : Z) : bool :=
  if b0 =? 224 then inr 160 191 b1
  else if b0 =? 237 then inr 128 159 b1
  else inr 225 239 b0 && cont b1.
Definition second4 (b0 b1 : Z) : bool :=
  if b0 =? 240 then inr 144 191 b1
  else if b0 =? 244 then inr 128 143 b1
  else inr 241 243 b0 && cont b1.

(** The segmentation a [range] over a string performs: each rune with the bytes
    it was decoded from.  An invalid byte yields U+FFFD of width one. *)
Fixpoint segments (l : list Z) : list (Z * list Z) :=
  match l with
  | [] => []
  | b0 :: l1 =>
      if b0 <? 128 then (b0, [b0]) :: segments l1
      else match l1 with
      | [] => [(65533, [b0])]
      | b1 :: l2 =>
          if inr 194 223 b0 && cont b1
          then ((b0 - 192) * 64 + (b1 - 128), [b0; b1]) :: segments l2
          else match l2 with
          | [] => (65533, [b0]) :: segments l1
          | b2 :: l3 =>
              if inr 224 239 b0 && second3 b0 b1 && cont b2
              then (((b0 - 224) * 64 + (b1 - 128)) * 64 + (b2 - 128), [b0; b1; b2])
                     :: segments l3
              else match l3 with
              | [] => (65533, [b0]) :: segments l1
              | b3 :: l4 =>
                  if inr 240 244 b0 && second4 b0 b1 && cont b2 && cont b3
                  then ((((b0 - 240) * 64 + (b1 - 128)) * 64 + (b2 - 128)) * 64
                          + (b3 - 128), [b0; b1; b2; b3]) :: segments l4
                  else (65533, [b0]) :: segments l1
              end
          end
      end
  end.

Definition runes (s : string) : list Z := map fst (segments (bytes_of s)).
Definition ValidString (s : string) : bool :=
  forallb (λ '(r, bs), negb ((r =? 65533) && (lenl bs =? 1))) (segments (bytes_of s)).

(** [unicode.IsControl] *)
Definition IsControl (r : Z) : bool := (r <? 32) || inr 127 159 r.
(** [unicode.IsSpace] *)
Definition IsSpace (r : Z) : bool :=
  inr 9 13 r || (r =? 32) || (r =? 133) || (r =? 160) || (r =? 5760) || inr 8192 8202 r
  || (r =? 8232) || (r =? 8233) || (r =? 8239) || (r =? 8287) || (r =? 12288).

Fixpoint drop_while {A} (p : A → bool) (l : list A) : list A :=
  match l with
  | [] => []
  | x :: l' => if p x then drop_while p l' else l
  end.

Definition TrimSpace (s : string) : string :=
  let sp := λ x : Z * list Z, IsSpace x.1 in
  of_bytes (concat (map snd
    (rev (drop_while sp (rev (drop_while sp (segments (bytes_of s)))))))).

(** * path *)

Definition dot : list ascii := ["."%char].
Definition dotdot : list ascii := ["."; "."]%char.

Definition eqb_chars (a b : list ascii) : bool := bool_decide (a = b).

(** One component of [path.Clean]; [st] is the reversed stack of kept
    components. *)
Definition clean_step (rooted : bool) (st : list (list ascii)) (w : list ascii)
    : list (list ascii) :=
  if eqb_chars w [] || eqb_chars w dot then st
  else if eqb_chars w dotdot then
    match st with
    | top :: st' => if eqb_chars top dotdot then w :: st else st'
    | [] => if rooted then [] else [w]
    end
  else w :: st.

Definition clean_components (rooted : bool) (ws : list (list ascii)) : list (list ascii) :=
  rev (foldl (clean_step rooted) [] ws).

Definition IsAbs (p : string) : bool := HasPrefix p "/".

Definition Clean (p : string) : string :=
  let l := list_of p in
  let rooted := IsAbs p in
  let out := join_list "/" (clean_components rooted (split_list "/" l)) in
  if rooted then string_of ("/"%char :: out)
  else if eqb_chars out [] then "." else string_of out.

(** [path.Ext]: the suffix starting at the last dot of the last component. *)
Fixpoint ext_rev (l acc : list ascii) : list ascii :=
  match l with
  | [] => []
  | c :: l =>
      if Ascii.eqb c "/" then []
      else if Ascii.eqb c "." then c :: acc
      else ext_rev l (c :: acc)
  end.
Definition Ext (p : string) : string := string_of (ext_rev (rev (list_of p)) []).

(** * encoding/hex *)

Definition hex_digit (c : ascii) : option Z :=
  let b := byte_val c in
  if inr 48 57 b then Some (b - 48)
  else if inr 97 102 b then Some (b - 87)
  else if inr 65 70 b then Some (b - 55)
  else None.

Fixpoint hex_decode (l : list ascii) : option (list Z) :=
  match l with
  | [] => Some []
  | a :: b :: l =>
      match hex_digit a, hex_digit b, hex_decode l with
      | Some x, Some y, Some r => Some (16 * x + y :: r)
      | _, _, _ => None
      end
  | [_] => None
  end.

Definition hex_char (d : Z) : ascii := if d <? 10 then byte_of (48 + d) else byte_of (87 + d).
Definition hex_encode (l : list Z) : string :=
  string_of (concat (map (λ b, [hex_char (b / 16); hex_char (b mod 16)]) l)).

(** * time *)

(** An instant in nanoseconds since Go's zero time, with the UTC offset (in
    seconds) its location prints with. *)
Record Time := mkTime { t_ns : Z; t_off : Z }.
#[export] Instance Time_eq_dec : EqDecision Time.
Proof. solve_decision. Defined.

Definition IsZero (t : Time) : bool := t_ns t =? 0.
Definition Before (a b : Time) : bool := t_ns a <? t_ns b.
Definition After (a b : Time) : bool := t_ns b <? t_ns a.
Definition TimeEqual (a b : Time) : bool := t_ns a =? t_ns b.
Definition AddNs (t : Time) (d : Z) : Time := mkTime (t_ns t + d) (t_off t).
Definition UTC (t : Time) : Time := mkTime (t_ns t) 0.

Definition Second : Z := 1000000000.
Definition Minute : Z := 60 * Second.
Definition Hour : Z := 60 * Minute.

(** [t.Sub(u)]: saturates at the bounds of [time.Duration]. *)
Definition Sub (t u : Time) : Z :=
  Z.max (- 2 ^ 63) (Z.min int64_max (t_ns t - t_ns u)).
