(* ===== verification/Numbers.v ===== *)
(** Decimal text of integers: [big.Int] [SetString]/[String] and [strconv]
    [ParseInt]/[FormatInt], with the round trips the score and sequence parsers
    rely on. *)

From S2P Require Import Prelude GoLib.
From Stdlib Require Import Ascii.

Definition is_digit (c : ascii) : bool := inr 48 57 (byte_val c).
Definition digit_val (c : ascii) : Z := byte_val c - 48.
Definition digit_char (d : Z) : ascii := byte_of (48 + d).

(** The value of a digit sequence, most significant first. *)
Definition digits_val (l : list ascii) : Z :=
  foldl (λ acc c, 10 * acc + digit_val c) 0 l.

(** The digits of [n >= 0]; [fuel] bounds the number of digits. *)
Fixpoint to_digits (fuel : nat) (n : Z) : list ascii :=
  match fuel with
  | O => []
  | S fuel =>
      if n <? 10 then [digit_char n]
      else to_digits fuel (n / 10) ++ [digit_char (n mod 10)]
  end.

(** Enough fuel: a number of [k] bits has at most [k] decimal digits. *)
Definition digits_fuel (n : Z) : nat := S (Z.to_nat (Z.log2 n)).
Definition nat_digits (n : Z) : list ascii := to_digits (digits_fuel n) n.

(** [String] of a [big.Int] and [strconv.FormatInt(z, 10)]. *)
Definition int_string (z : Z) : string :=
  if z <? 0 then String "-" (string_of (nat_digits (- z)))
  else string_of (nat_digits z).

Definition all_digits (l : list ascii) : bool :=
  negb (eqb_chars l []) && forallb is_digit l.

(** [new(big.Int).SetString(s, 10)]: an optional sign and decimal digits. *)
Definition bigint_of_string (s : string) : option Z :=
  match list_of s with
  | [] => None
  | c :: l =>
      if Ascii.eqb c "-" then if all_digits l then Some (- digits_val l) else None
      else if Ascii.eqb c "+" then if all_digits l then Some (digits_val l) else None
      else if all_digits (c :: l) then Some (digits_val (c :: l)) else None
  end.

(** [strconv.ParseInt(s, 10, 64)] *)
Definition ParseInt64 (s : string) : option Z :=
  match bigint_of_string s with
  | Some z => if (- 2 ^ 63 <=? z) && (z <? 2 ^ 63) then Some z else None
  | None => None
  end.

(** * Canonical digit sequences: no leading zero *)

Definition canonical (l : list ascii) : Prop :=
  Forall (λ c, is_digit c = true) l ∧ l ≠ [] ∧ (hd "1"%char l = "0"%char → length l = 1%nat).

(** The textual form of an integer accepted by the score parser: canonical
    digits, with a minus sign only on a nonzero number. *)
Definition canonical_int (l : list ascii) : Prop :=
  canonical l ∨ ∃ l', l = "-"%char :: l' ∧ canonical l'.

(** * Lemmas *)

Lemma byte_val_of z : 0 ≤ z < 256 → byte_val (byte_of z) = z.
Proof.
  intros H. unfold byte_val, byte_of. rewrite N_ascii_embedding by lia. lia.
Qed.

Lemma byte_of_val c : byte_of (byte_val c) = c.
Proof. unfold byte_val, byte_of. by rewrite N2Z.id, ascii_N_embedding. Qed.

Lemma byte_val_range c : 0 ≤ byte_val c < 256.
Proof. unfold byte_val. pose proof (N_ascii_bounded c). lia. Qed.

Lemma byte_val_inj a b : byte_val a = byte_val b → a = b.
Proof. intros H. by rewrite <-(byte_of_val a), <-(byte_of_val b), H. Qed.

Lemma is_digit_range c : is_digit c = true ↔ 0 ≤ digit_val c ≤ 9.
Proof. unfold is_digit, inr, digit_val. rewrite andb_true_iff, !Z.leb_le. lia. Qed.

Lemma digit_val_char d : 0 ≤ d ≤ 9 → digit_val (digit_char d) = d.
Proof. intros. unfold digit_val, digit_char. rewrite byte_val_of; lia. Qed.

Lemma digit_char_val c : is_digit c = true → digit_char (digit_val c) = c.
Proof.
  intros _. unfold digit_char, digit_val.
  replace (48 + (byte_val c - 48)) with (byte_val c) by lia. apply byte_of_val.
Qed.

Lemma digit_char_is_digit d : 0 ≤ d ≤ 9 → is_digit (digit_char d) = true.
Proof. intros. apply is_digit_range. by rewrite digit_val_char. Qed.
#[export] Hint Resolve digit_char_is_digit : golib.

Lemma digits_val_snoc l c : digits_val (l ++ [c]) = 10 * digits_val l + digit_val c.
Proof. unfold digits_val. by rewrite foldl_app. Qed.

Lemma digits_val_nonneg l : Forall (λ c, is_digit c = true) l → 0 ≤ digits_val l.
Proof.
  induction l as [|c l IH] using rev_ind; [done|].
  rewrite Forall_app, Forall_singleton. intros [? Hc%is_digit_range].
  rewrite digits_val_snoc. specialize (IH ltac:(done)). lia.
Qed.

Lemma all_digits_true l : all_digits l = true ↔ l ≠ [] ∧ Forall (λ c, is_digit c = true) l.
Proof.
  unfold all_digits, eqb_chars. rewrite andb_true_iff, negb_true_iff, bool_decide_eq_false.
  rewrite forallb_forall, Forall_forall. by setoid_rewrite list_elem_of_In.
Qed.

(** Printing then reading gives the number back. *)
Lemma to_digits_spec fuel n :
  0 ≤ n < 2 ^ Z.of_nat fuel →
  digits_val (to_digits fuel n) = n ∧ (0 < n → canonical (to_digits fuel n)) ∧
  (n = 0 → fuel ≠ O → to_digits fuel n = ["0"%char]).
Proof.
  revert n. induction fuel as [|fuel IH]; intros n Hn.
  { simpl in *. assert (n = 0) as -> by lia. split; [done|split; [lia|done]]. }
  rewrite Nat2Z.inj_succ, Z.pow_succ_r in Hn by lia. simpl.
  destruct (Z.ltb_spec n 10).
  - change (digits_val [digit_char n]) with (digit_val (digit_char n)).
    rewrite digit_val_char by lia. split; [done|]. split.
    + intros Hpos. split; [|split; [done|done]].
      constructor; [apply digit_char_is_digit; lia|constructor].
    + intros -> _. done.
  - pose proof (Z.div_mod n 10 ltac:(lia)). pose proof (Z.mod_pos_bound n 10 ltac:(lia)).
    assert (0 < n / 10) by (apply Z.div_str_pos; lia).
    destruct (IH (n / 10)) as (IHv & IHc & _); [lia|].
    rewrite digits_val_snoc, IHv, digit_val_char by lia.
    split; [lia|]. split; [|lia]. intros _.
    destruct (IHc ltac:(done)) as (Hf & Hne & Hz). split; [|split].
    + apply Forall_app. split; [done|]. constructor; [|constructor].
      apply digit_char_is_digit; lia.
    + by destruct (to_digits fuel (n / 10)).
    + destruct (to_digits fuel (n / 10)) as [|c l] eqn:E; [done|]. simpl in Hz |- *.
      intros ->. specialize (Hz eq_refl). destruct l; [|done].
      unfold digits_val in IHv. simpl in IHv.
      change (digit_val "0") with 0 in IHv. lia.
Qed.

Lemma log2_fuel n : 0 ≤ n → n < 2 ^ Z.of_nat (digits_fuel n).
Proof.
  intros Hn. unfold digits_fuel. rewrite Nat2Z.inj_succ, Z2Nat.id by apply Z.log2_nonneg.
  destruct (decide (n = 0)) as [->|]; [done|]. apply Z.log2_spec. lia.
Qed.

Lemma canonical_zero : canonical ["0"%char].
Proof. split; [by constructor|done]. Qed.

Lemma nat_digits_spec n : 0 ≤ n → digits_val (nat_digits n) = n ∧ canonical (nat_digits n).
Proof.
  intros Hn. pose proof (log2_fuel n Hn).
  destruct (to_digits_spec (digits_fuel n) n) as (? & ? & Hz); [lia|].
  split; [done|]. destruct (decide (n = 0)) as [->|]; [|auto with lia].
  unfold nat_digits. rewrite Hz by done. apply canonical_zero.
Qed.

(** A canonical sequence is determined by its value. *)
Lemma canonical_val_inj l1 l2 :
  canonical l1 → canonical l2 → digits_val l1 = digits_val l2 → l1 = l2.
Proof.
  assert (∀ l c, canonical (l ++ [c]) → l = [] ∨ canonical l) as Hinit.
  { intros [|a l] c (Hf & _ & Hz); [by left|right].
    apply Forall_app in Hf as [? _]. split; [done|]. split; [done|].
    simpl in *. intros Ha. specialize (Hz Ha). rewrite length_app in Hz. simpl in Hz. lia. }
  assert (∀ l, canonical l → digits_val l = 0 → l = ["0"%char]) as Hzero.
  { intros l. induction l as [|c l IH] using rev_ind; [intros (_ & ? & _); done|].
    intros Hc. rewrite digits_val_snoc. intros Hv.
    destruct Hc as (Hf & Hne & Hz). apply Forall_app in Hf as [Hl Hc].
    apply Forall_singleton, is_digit_range in Hc. pose proof (digits_val_nonneg l Hl).
    assert (c = "0"%char) as ->.
    { apply byte_val_inj. change (byte_val "0") with 48. unfold digit_val in *. lia. }
    destruct (Hinit l "0"%char) as [->|Hl']; [|done|].
    { split; [apply Forall_app; split; [done|by constructor]|]. by split. }
    specialize (IH Hl' ltac:(lia)). subst l. specialize (Hz eq_refl). done. }
  revert l2. induction l1 as [|c l1 IH] using rev_ind; intros l2 H1 H2 Hv.
  { by destruct H1 as (_ & ? & _). }
  destruct l2 as [|c2 l2 _] using rev_ind; [by destruct H2 as (_ & ? & _)|].
  rewrite !digits_val_snoc in Hv.
  pose proof H1 as (Hf1 & _). pose proof H2 as (Hf2 & _).
  apply Forall_app in Hf1 as [Hf1 Hc1%Forall_singleton%is_digit_range].
  apply Forall_app in Hf2 as [Hf2 Hc2%Forall_singleton%is_digit_range].
  assert (digit_val c = digit_val c2) as Hd by lia.
  assert (c = c2) as -> by (apply byte_val_inj; unfold digit_val in *; lia).
  f_equal. assert (digits_val l1 = digits_val l2) as Hv' by lia.
  destruct (Hinit _ _ H1) as [->|Hi1], (Hinit _ _ H2) as [->|Hi2]; [done|..|auto].
  - rewrite (Hzero l2) in H2 by (done || by rewrite <-Hv').
    destruct H2 as (_ & _ & Hz). by specialize (Hz eq_refl).
  - rewrite (Hzero l1) in H1 by (done || by rewrite Hv').
    destruct H1 as (_ & _ & Hz). by specialize (Hz eq_refl).
Qed.

Lemma list_of_string_of l : list_of (string_of l) = l.
Proof. apply String.list_ascii_of_string_of_list_ascii. Qed.
Lemma string_of_list_of s : string_of (list_of s) = s.
Proof. apply String.string_of_list_ascii_of_string. Qed.
Lemma list_of_inj s t : list_of s = list_of t → s = t.
Proof. intros H. by rewrite <-(string_of_list_of s), <-(string_of_list_of t), H. Qed.
Lemma length_list_of s : length (list_of s) = String.length s.
Proof. induction s; simpl; congruence. Qed.
Lemma list_of_app s t : list_of (s +:+ t) = list_of s ++ list_of t.
Proof.
  induction s as [|c s IH]; [done|].
  change (c :: list_of (s +:+ t) = c :: list_of s ++ list_of t). by rewrite IH.
Qed.
#[export] Hint Rewrite list_of_app list_of_string_of string_of_list_of length_list_of : golib.

Lemma digit_not_sign c : is_digit c = true → c ≠ "-"%char ∧ c ≠ "+"%char.
Proof. intros H. split; intros ->; discriminate H. Qed.

Lemma bigint_of_canonical s :
  canonical (list_of s) → bigint_of_string s = Some (digits_val (list_of s)).
Proof.
  intros (Hf & Hne & _). unfold bigint_of_string.
  destruct (list_of s) as [|c l]; [done|].
  pose proof Hf as [Hc _]%Forall_cons. destruct (digit_not_sign c Hc).
  rewrite !(proj2 (Ascii.eqb_neq _ _)) by done.
  rewrite (proj2 (all_digits_true (c :: l))); done.
Qed.

Lemma bigint_of_negative s l :
  list_of s = "-"%char :: l → canonical l → bigint_of_string s = Some (- digits_val l).
Proof.
  intros Hs (Hf & Hne & _). unfold bigint_of_string. rewrite Hs. simpl.
  by rewrite (proj2 (all_digits_true l)).
Qed.

Lemma int_string_nonneg z : 0 ≤ z → list_of (int_string z) = nat_digits z.
Proof.
  intros. unfold int_string. destruct (Z.ltb_spec z 0); [lia|]. apply list_of_string_of.
Qed.

Lemma int_string_neg z : z < 0 → list_of (int_string z) = "-"%char :: nat_digits (- z).
Proof.
  intros. unfold int_string. destruct (Z.ltb_spec z 0); [|lia]. simpl.
  by rewrite list_of_string_of.
Qed.

(** [SetString] inverts [String]. *)
Lemma bigint_of_int_string z : bigint_of_string (int_string z) = Some z.
Proof.
  destruct (Z.lt_ge_cases z 0) as [Hz|Hz].
  - destruct (nat_digits_spec (- z)) as [Hv Hc]; [lia|].
    erewrite bigint_of_negative by (eauto using int_string_neg). f_equal. lia.
  - destruct (nat_digits_spec z) as [Hv Hc]; [lia|].
    rewrite bigint_of_canonical; rewrite int_string_nonneg by lia; congruence.
Qed.

(** A canonical text is the printed form of its value. *)
Lemma int_string_canonical s z :
  canonical_int (list_of s) → bigint_of_string s = Some z → s ≠ "-0" → int_string z = s.
Proof.
  intros [Hc|(l & Hs & Hc)] Hz Hne0; apply list_of_inj.
  - rewrite bigint_of_canonical in Hz by done. injection Hz as <-.
    pose proof (digits_val_nonneg _ (proj1 Hc)).
    rewrite int_string_nonneg by done.
    destruct (nat_digits_spec (digits_val (list_of s))) as [Hv ?]; [done|].
    by apply canonical_val_inj.
  - erewrite bigint_of_negative in Hz by eauto. injection Hz as <-.
    pose proof (digits_val_nonneg _ (proj1 Hc)).
    destruct (decide (digits_val l = 0)) as [H0|].
    + exfalso. apply Hne0, list_of_inj. rewrite Hs.
      assert (l = ["0"%char]) as ->; [|done].
      apply canonical_val_inj; [exact Hc|apply canonical_zero|exact H0].
    + rewrite int_string_neg by lia. rewrite Hs. f_equal. rewrite Z.opp_involutive.
      destruct (nat_digits_spec (digits_val l)) as [Hv ?]; [done|].
      by apply canonical_val_inj.
Qed.

Lemma int_string_is_canonical z : canonical_int (list_of (int_string z)).
Proof.
  destruct (Z.lt_ge_cases z 0).
  - right. eexists. split; [by apply int_string_neg|]. apply nat_digits_spec. lia.
  - left. rewrite int_string_nonneg by done. by apply nat_digits_spec.
Qed.

Lemma int_string_not_neg_zero z : int_string z ≠ "-0".
Proof.
  intros H. pose proof (bigint_of_int_string z) as Hz. rewrite H in Hz.
  vm_compute in Hz. injection Hz as <-. discriminate H.
Qed.

Lemma int_string_inj y z : int_string y = int_string z → y = z.
Proof.
  intros H. pose proof (bigint_of_int_string y) as Hy.
  rewrite H, bigint_of_int_string in Hy. congruence.
Qed.

(** ** Length of the printed form *)

Lemma digits_val_cons_ge c l :
  Forall (λ c, is_digit c = true) (c :: l) → c ≠ "0"%char →
  10 ^ Z.of_nat (length l) ≤ digits_val (c :: l).
Proof.
  intros Hf Hc. apply Forall_cons in Hf as [Hd Hl].
  induction l as [|a l IH] using rev_ind.
  - apply is_digit_range in Hd. simpl. unfold digits_val. simpl.
    assert (digit_val c ≠ 0); [|lia]. intros E. apply Hc, byte_val_inj.
    unfold digit_val in E. change (byte_val "0") with 48. lia.
  - apply Forall_app in Hl as [Hl Ha]. apply Forall_singleton, is_digit_range in Ha.
    change (c :: l ++ [a]) with ((c :: l) ++ [a]). rewrite digits_val_snoc.
    specialize (IH Hl). rewrite length_app, Nat.add_1_r, Nat2Z.inj_succ, Z.pow_succ_r by lia.
    lia.
Qed.

Lemma canonical_length l m :
  canonical l → 0 < m → digits_val l < 10 ^ m → lenl l ≤ m.
Proof.
  intros (Hf & Hne & Hz) Hm Hv. unfold lenl. destruct l as [|c l]; [done|].
  destruct (decide (c = "0"%char)) as [->|Hc].
  - specialize (Hz eq_refl). simpl in *. lia.
  - pose proof (digits_val_cons_ge c l Hf Hc).
    assert (Z.of_nat (length l) < m); [|simpl; lia].
    apply (Z.pow_lt_mono_r_iff 10); lia.
Qed.

Lemma len_int_string z m : 0 < m → Z.abs z < 10 ^ m → len (int_string z) ≤ m + 1.
Proof.
  intros Hm Hz. unfold len. rewrite <-length_list_of.
  destruct (Z.lt_ge_cases z 0).
  - rewrite int_string_neg by done. destruct (nat_digits_spec (- z)) as [Hv Hc]; [lia|].
    pose proof (canonical_length _ m Hc Hm). unfold lenl in *. simpl. lia.
  - rewrite int_string_nonneg by done. destruct (nat_digits_spec z) as [Hv Hc]; [lia|].
    pose proof (canonical_length _ m Hc Hm). unfold lenl in *. lia.
Qed.

Lemma int_string_chars z c : c ∈ list_of (int_string z) → is_digit c = true ∨ c = "-"%char.
Proof.
  destruct (Z.lt_ge_cases z 0).
  - rewrite int_string_neg by done. destruct (nat_digits_spec (- z)) as [_ [Hf _]]; [lia|].
    rewrite Forall_forall in Hf. set_solver.
  - rewrite int_string_nonneg by done. destruct (nat_digits_spec z) as [_ [Hf _]]; [lia|].
    rewrite Forall_forall in Hf. set_solver.
Qed.
