(* ===== verification/Types.v ===== *)
(** The wire types of pkg/protocol, one record per Go struct with the struct's
    name; a field [F] of struct [S] is the projection [s_F].  A pointer is an
    [option], a slice a [list], a map a [gmap], [int] and [int64] are [Z] (wrapped
    where the code computes with them) and [map[string]any] values are [Json].  The
    assignments to one field of a [RunnerJob], as the handlers make them ([job.F = v] is
    [job_F v job]), are at the end. *)

From S2P Require Import Prelude GoLib.

(** The dynamic values stored in [Receipt.Data] and in audit events: scalars, integers, lists of strings, objects of
    scalars, and a struct by the document it marshals to.  [SOther] is a request value
    that is neither a boolean nor a string; no stored document holds one. *)
Inductive JsonScalar : Type :=
| SBool (b : bool)
| SString (s : string)
| SOther.
Inductive Json : Type :=
| JNull
| JBool (b : bool)
| JString (s : string)
| JInt (n : Z)
| JStrings (l : list string)
| JFields (l : list (string * JsonScalar))
| JDocument (text : string).

Record Source := mkSource {
  source_PublicationDate : string;
  source_Identifier : string;
  source_URL : string;
  source_Title : string;
  source_Evidence : string;
  source_Location : string;
  source_AccessedAt : string
}.

Record Education := mkEducation {
  education_Frontier : string;
  education_Significance : string
}.

Record ExecutorRequirements := mkExecutorRequirements {
  executorRequirements_OS : string;
  executorRequirements_Architecture : string;
  executorRequirements_Accelerator : string;
  executorRequirements_HardwareClass : string;
  executorRequirements_Features : list string
}.

Record MeasurementDefinition := mkMeasurementDefinition {
  measurementDefinition_Name : string;
  measurementDefinition_Type : string;
  measurementDefinition_Unit : string;
  measurementDefinition_Role : string;
  measurementDefinition_Interpretation : string;
  measurementDefinition_Definition : string;
  measurementDefinition_Minimum : string;
  measurementDefinition_Maximum : string
}.

Record MetricRationale := mkMetricRationale {
  metricRationale_Objective : string;
  metricRationale_ImprovementMeaning : string;
  metricRationale_EvidenceURLs : list string;
  metricRationale_PreservedConditions : list string;
  metricRationale_BaselineReason : string;
  metricRationale_MeaningfulDelta : string;
  metricRationale_ProxyAttacks : list string;
  metricRationale_PermittedClaim : string;
  metricRationale_ExcludedClaims : list string
}.

Record StageBudget := mkStageBudget {
  stageBudget_TimeoutSeconds : Z;
  stageBudget_MemoryMB : Z;
  stageBudget_MaxOutputBytes : Z;
  stageBudget_MaxProcesses : Z;
  stageBudget_MaxFileBytes : Z
}.

Record BuildProduct := mkBuildProduct {
  buildProduct_Path : string;
  buildProduct_MaxBytes : Z
}.

Record CandidateProgram := mkCandidateProgram {
  candidateProgram_Build : list string;
  candidateProgram_Run : list string;
  candidateProgram_BuildBudget : StageBudget;
  candidateProgram_RunBudget : StageBudget;
  candidateProgram_MaxRuns : Z;
  candidateProgram_MinRuns : Z;
  candidateProgram_ScratchMB : Z;
  candidateProgram_Products : list BuildProduct
}.

Record MeasurementPolicy := mkMeasurementPolicy {
  measurementPolicy_Estimator : string;
  measurementPolicy_Warmups : Z;
  measurementPolicy_Repetitions : Z;
  measurementPolicy_Order : string;
  measurementPolicy_ConfidencePPM : Z;
  measurementPolicy_MaxRelativeWidth : string;
  measurementPolicy_MinimumSpeedup : string;
  measurementPolicy_BaselineDigest : string;
  measurementPolicy_BaselinePath : string;
  measurementPolicy_BaselineBuild : list string;
  measurementPolicy_BaselineRun : list string;
  measurementPolicy_TimerBoundary : string;
  measurementPolicy_Population : string
}.

Record ProofContract := mkProofContract {
  proofContract_Format : string;
  proofContract_StatementPath : string;
  proofContract_StatementDigest : string;
  proofContract_CertificatePath : string;
  proofContract_AllowedAxioms : list string;
  proofContract_CheckDescription : string
}.

Record EvaluationAsset := mkEvaluationAsset {
  evaluationAsset_Domain : string;
  evaluationAsset_Name : string;
  evaluationAsset_Digest : string;
  evaluationAsset_Size : Z;
  evaluationAsset_Visibility : string;
  evaluationAsset_Purpose : string
}.

Record EvaluationContract := mkEvaluationContract {
  evaluationContract_Version : string;
  evaluationContract_Mode : string;
  evaluationContract_ComparisonID : string;
  evaluationContract_Executor : ExecutorRequirements;
  evaluationContract_Measurements : list MeasurementDefinition;
  evaluationContract_Rationale : MetricRationale;
  evaluationContract_Program : option CandidateProgram;
  evaluationContract_Measurement : option MeasurementPolicy;
  evaluationContract_Proof : option ProofContract;
  evaluationContract_Assets : list EvaluationAsset
}.

Record Metric := mkMetric {
  metric_Name : string;
  metric_Direction : string;
  metric_Unit : string;
  metric_Quantum : string;
  metric_BaselineTicks : string;
  metric_MinimumDeltaTicks : string;
  metric_ToleranceTicks : string;
  metric_DomainMinTicks : string;
  metric_DomainMaxTicks : string
}.

Record MeasurementPredicate := mkMeasurementPredicate {
  measurementPredicate_Measurement : string;
  measurementPredicate_Operator : string;
  measurementPredicate_Value : string
}.

Record Milestone := mkMilestone {
  milestone_Requires : list MeasurementPredicate;
  milestone_ID : string;
  milestone_Title : string;
  milestone_ThresholdTicks : string;
  milestone_Rationale : string
}.

Record SubmissionContract := mkSubmissionContract {
  submissionContract_Format : string;
  submissionContract_AllowedPaths : list string;
  submissionContract_AllowedExtensions : list string;
  submissionContract_MaxBytes : Z;
  submissionContract_MaxFiles : Z;
  submissionContract_License : string
}.

Record Validator := mkValidator {
  validator_Profile : string;
  validator_Entrypoint : list string;
  validator_DependencyLock : string;
  validator_RuntimeImageDigest : string
}.

Record Suite := mkSuite {
  suite_Visibility : string;
  suite_Path : string;
  suite_Commitment : string;
  suite_RevealAt : option Time
}.

Record Resources := mkResources {
  resources_Class : string;
  resources_VCPU : Z;
  resources_MemoryMB : Z;
  resources_TimeoutSeconds : Z;
  resources_MaxOutputBytes : Z
}.

Record Fixture := mkFixture {
  fixture_Name : string;
  fixture_Path : string;
  fixture_ExpectedOutcome : string;
  fixture_ExpectedTicks : string
}.

Record Manifest := mkManifest {
  manifest_Evaluation : option EvaluationContract;
  manifest_VerificationPolicy : string;
  manifest_APIVersion : string;
  manifest_Kind : string;
  manifest_ID : string;
  manifest_CreatedAt : Time;
  manifest_Producer : string;
  manifest_Slug : string;
  manifest_Title : string;
  manifest_Summary : string;
  manifest_ScientificQuestion : string;
  manifest_Evidence : list Source;
  manifest_Impact : string;
  manifest_Limitations : list string;
  manifest_SafetyClassification : string;
  manifest_EconomicMode : string;
  manifest_Metric : Metric;
  manifest_HardGates : list string;
  manifest_Milestones : list Milestone;
  manifest_Deadline : Time;
  manifest_Submission : SubmissionContract;
  manifest_Validator : Validator;
  manifest_Suite : Suite;
  manifest_Resources : Resources;
  manifest_Fixtures : list Fixture
}.

Record Candidate := mkCandidate {
  candidate_Education : option Education;
  candidate_APIVersion : string;
  candidate_Kind : string;
  candidate_ID : string;
  candidate_CreatedAt : Time;
  candidate_Producer : string;
  candidate_PromptVersion : string;
  candidate_Model : string;
  candidate_Disposition : string;
  candidate_Sources : list Source;
  candidate_Uncertainties : list string;
  candidate_RejectedAlternatives : list string;
  candidate_RepositoryPlan : list string;
  candidate_Manifest : option Manifest
}.

Record Lock := mkLock {
  lock_VerificationPolicy : string;
  lock_SuiteDiskDigest : string;
  lock_DeploymentMode : string;
  lock_OfficialAcceptance : bool;
  lock_APIVersion : string;
  lock_Kind : string;
  lock_ID : string;
  lock_CreatedAt : Time;
  lock_Producer : string;
  lock_ManifestDigest : string;
  lock_SourceSnapshotDigest : string;
  lock_ValidatorImageDigest : string;
  lock_ValidatorDiskDigest : string;
  lock_SuiteDigest : string;
  lock_ExecutionProfileDigest : string;
  lock_ReviewDigests : list string;
  lock_EconomicMode : string;
  lock_Manifest : Manifest
}.

Record TimingTrial := mkTimingTrial {
  timingTrial_BaselineNanos : Z;
  timingTrial_CandidateNanos : Z;
  timingTrial_BaselineFirst : bool;
  timingTrial_QualityPassed : bool
}.

Record TimingSummary := mkTimingSummary {
  timingSummary_MedianRatio : string;
  timingSummary_LowerRatio : string;
  timingSummary_UpperRatio : string;
  timingSummary_ConfidencePPM : Z;
  timingSummary_AcceptedTrials : Z;
  timingSummary_Outcome : string;
  timingSummary_PracticalGain : bool
}.

Record TimingEvidence := mkTimingEvidence {
  timingEvidence_BaselineDigest : string;
  timingEvidence_Warmups : list TimingTrial;
  timingEvidence_Trials : list TimingTrial;
  timingEvidence_Summary : TimingSummary
}.

Record ValidatorResult := mkValidatorResult {
  validatorResult_Timing : option TimingEvidence;
  validatorResult_ComparisonID : string;
  validatorResult_Measurements : gmap string string;
  validatorResult_APIVersion : string;
  validatorResult_Kind : string;
  validatorResult_Score : string;
  validatorResult_Gates : gmap string bool
}.

Record ObjectRef := mkObjectRef {
  objectRef_Digest : string;
  objectRef_Size : Z;
  objectRef_URL : string
}.

Record KeyCapsule := mkKeyCapsule {
  keyCapsule_Algorithm : string;
  keyCapsule_EphemeralPublicKey : Bytes;
  keyCapsule_Nonce : Bytes;
  keyCapsule_Ciphertext : Bytes;
  keyCapsule_ContextDigest : string
}.

Record HiddenSuiteGrant := mkHiddenSuiteGrant {
  hiddenSuiteGrant_Source : ObjectRef;
  hiddenSuiteGrant_Commitment : string;
  hiddenSuiteGrant_KeyCapsule : KeyCapsule
}.

Record RunnerJob := mkRunnerJob {
  runnerJob_ParentJobDigest : string;
  runnerJob_VerificationPolicy : string;
  runnerJob_AdvisorySnapshotDigest : string;
  runnerJob_RuntimeInventoryDigest : string;
  runnerJob_HiddenSuite : option HiddenSuiteGrant;
  runnerJob_AcceptanceReceiptDigest : string;
  runnerJob_DeploymentMode : string;
  runnerJob_OfficialAcceptance : bool;
  runnerJob_APIVersion : string;
  runnerJob_Kind : string;
  runnerJob_ID : string;
  runnerJob_CreatedAt : Time;
  runnerJob_Producer : string;
  runnerJob_ExpiresAt : Time;
  runnerJob_Purpose : string;
  runnerJob_SubmissionID : string;
  runnerJob_ChallengeLockDigest : string;
  runnerJob_ArtifactDigest : string;
  runnerJob_SuiteDigest : string;
  runnerJob_ExecutionProfileDigest : string;
  runnerJob_RunnerEpoch : string;
  runnerJob_FencingToken : Z;
  runnerJob_RequiredHostGroup : string;
  runnerJob_ExcludedHostIDs : list string;
  runnerJob_ValidatorDisk : ObjectRef;
  runnerJob_SubmissionDisk : ObjectRef;
  runnerJob_SuiteDisk : ObjectRef;
  runnerJob_ChallengeDisk : ObjectRef;
  runnerJob_Manifest : Manifest;
  runnerJob_SourceSnapshot : option ObjectRef
}.

Record SuiteKeyMaterial := mkSuiteKeyMaterial {
  suiteKeyMaterial_Key : Bytes;
  suiteKeyMaterial_Salt : Bytes;
  suiteKeyMaterial_PlaintextDigest : string;
  suiteKeyMaterial_Commitment : string
}.

Record Signature := mkSignature {
  signature_KeyID : string;
  signature_Sig : string
}.

Record Envelope := mkEnvelope {
  envelope_PayloadType : string;
  envelope_Payload : string;
  envelope_Signatures : list Signature
}.

Record FixtureReport := mkFixtureReport {
  fixtureReport_Stage : string;
  fixtureReport_FreshVMRuns : Z;
  fixtureReport_RunReceipts : list Envelope;
  fixtureReport_Name : string;
  fixtureReport_ExpectedOutcome : string;
  fixtureReport_Outcome : string;
  fixtureReport_ScoreTicks : string;
  fixtureReport_Passed : bool
}.

Record VulnerabilityFinding := mkVulnerabilityFinding {
  vulnerabilityFinding_Disposition : string;
  vulnerabilityFinding_Component : string;
  vulnerabilityFinding_ID : string;
  vulnerabilityFinding_Severity : string;
  vulnerabilityFinding_SourceURL : string
}.

Record VulnerabilityScan := mkVulnerabilityScan {
  vulnerabilityScan_PolicyVersion : string;
  vulnerabilityScan_AdvisorySnapshotDigest : string;
  vulnerabilityScan_RuntimeInventoryDigest : string;
  vulnerabilityScan_SBOMDigest : string;
  vulnerabilityScan_ScannedAt : Time;
  vulnerabilityScan_PackagesChecked : Z;
  vulnerabilityScan_Status : string;
  vulnerabilityScan_Findings : list VulnerabilityFinding
}.

Record BuildReport := mkBuildReport {
  buildReport_FreshVMRuns : Z;
  buildReport_SBOM : option ObjectRef;
  buildReport_VulnerabilityScan : option VulnerabilityScan;
  buildReport_ManifestDigest : string;
  buildReport_SourceSnapshotDigest : string;
  buildReport_ValidatorDiskDigest : string;
  buildReport_RebuiltValidatorDiskDigest : string;
  buildReport_ValidatorImageDigest : string;
  buildReport_SuiteDigest : string;
  buildReport_ExecutionProfileDigest : string;
  buildReport_OfflineRebuild : bool;
  buildReport_Fixtures : list FixtureReport;
  buildReport_HostileCorpusPassed : bool;
  buildReport_ScansPassed : bool;
  buildReport_Passed : bool;
  buildReport_Findings : list string;
  buildReport_ValidatorDisk : option ObjectRef;
  buildReport_ChallengeDisk : option ObjectRef;
  buildReport_SuiteDisk : option ObjectRef;
  buildReport_SubmissionDisk : option ObjectRef
}.

Record RunReceipt := mkRunReceipt {
  runReceipt_ValidatorResult : option ValidatorResult;
  runReceipt_ParentJobDigest : string;
  runReceipt_VerificationPolicy : string;
  runReceipt_AcceptanceReceiptDigest : string;
  runReceipt_DeploymentMode : string;
  runReceipt_OfficialAcceptance : bool;
  runReceipt_APIVersion : string;
  runReceipt_Kind : string;
  runReceipt_ID : string;
  runReceipt_CreatedAt : Time;
  runReceipt_Producer : string;
  runReceipt_JobID : string;
  runReceipt_JobDigest : string;
  runReceipt_ChallengeLockDigest : string;
  runReceipt_ArtifactDigest : string;
  runReceipt_SuiteDigest : string;
  runReceipt_ExecutionProfileDigest : string;
  runReceipt_RunnerEpoch : string;
  runReceipt_FencingToken : Z;
  runReceipt_HostID : string;
  runReceipt_HostGroup : string;
  runReceipt_Official : bool;
  runReceipt_Outcome : string;
  runReceipt_ScoreTicks : string;
  runReceipt_Gates : gmap string bool;
  runReceipt_DurationMillis : Z;
  runReceipt_CleanupAttested : bool;
  runReceipt_BuildReport : option BuildReport
}.

Record Receipt := mkReceipt {
  receipt_VerificationPolicy : string;
  receipt_VerificationStatus : string;
  receipt_DeploymentMode : string;
  receipt_OfficialAcceptance : bool;
  receipt_APIVersion : string;
  receipt_Kind : string;
  receipt_ID : string;
  receipt_CreatedAt : Time;
  receipt_Producer : string;
  receipt_SubjectDigest : string;
  receipt_EconomicMode : string;
  receipt_Data : gmap string Json
}.

Record ExecutorCapabilities := mkExecutorCapabilities {
  executorCapabilities_OS : string;
  executorCapabilities_Architecture : string;
  executorCapabilities_Accelerator : string;
  executorCapabilities_HardwareClass : string;
  executorCapabilities_RuntimeImageDigest : string;
  executorCapabilities_Features : list string;
  executorCapabilities_MaxVCPU : Z;
  executorCapabilities_MaxMemoryMB : Z;
  executorCapabilities_MaxSessionSeconds : Z;
  executorCapabilities_MaxJobSeconds : Z;
  executorCapabilities_Assets : list EvaluationAsset
}.

Record LocalQualification := mkLocalQualification {
  localQualification_ChecksPassed : bool;
  localQualification_ReportDigest : string;
  localQualification_EstimatedScoreTicks : string;
  localQualification_Reason : string
}.

Record FrontierClaim := mkFrontierClaim {
  frontierClaim_APIVersion : string;
  frontierClaim_VersionID : string;
  frontierClaim_LockDigest : string;
  frontierClaim_ArtifactDigest : string;
  frontierClaim_Mode : string;
  frontierClaim_Result : option ValidatorResult;
  frontierClaim_Qualification : option LocalQualification
}.

Record ArtifactEntry := mkArtifactEntry {
  artifactEntry_Path : string;
  artifactEntry_Type : string;
  artifactEntry_Mode : string;
  artifactEntry_Size : Z;
  artifactEntry_Digest : string
}.

Record ArtifactTree := mkArtifactTree {
  artifactTree_Kind : string;
  artifactTree_Version : Z;
  artifactTree_Entries : list ArtifactEntry
}.

(** Struct equality, [==] on the two structs the code compares by value. *)
#[export] Instance EvaluationAsset_eq_dec : EqDecision EvaluationAsset.
Proof. solve_decision. Defined.
#[export] Instance TimingSummary_eq_dec : EqDecision TimingSummary.
Proof. solve_decision. Defined.

(** * Protocol constants *)

Definition APIVersion : string := "science-ladder/v1".
Definition ManifestV2 : string := "science-ladder/v2".
Definition PayloadType : string := "application/vnd.science-ladder.v1+json".
Definition ScoutVersion : string := "1.9.0".
Definition EvaluationVersion : string := "science-ladder/evaluation/v1".
Definition FrontierClaimVersion : string := "science-ladder/frontier-claim/v1".

Definition job_AdvisorySnapshotDigest v (j : RunnerJob) : RunnerJob :=
  mkRunnerJob (runnerJob_ParentJobDigest j) (runnerJob_VerificationPolicy j) v
    (runnerJob_RuntimeInventoryDigest j) (runnerJob_HiddenSuite j)
    (runnerJob_AcceptanceReceiptDigest j) (runnerJob_DeploymentMode j)
    (runnerJob_OfficialAcceptance j) (runnerJob_APIVersion j) (runnerJob_Kind j) (runnerJob_ID j)
    (runnerJob_CreatedAt j) (runnerJob_Producer j) (runnerJob_ExpiresAt j) (runnerJob_Purpose j)
    (runnerJob_SubmissionID j) (runnerJob_ChallengeLockDigest j) (runnerJob_ArtifactDigest j)
    (runnerJob_SuiteDigest j) (runnerJob_ExecutionProfileDigest j) (runnerJob_RunnerEpoch j)
    (runnerJob_FencingToken j) (runnerJob_RequiredHostGroup j) (runnerJob_ExcludedHostIDs j)
    (runnerJob_ValidatorDisk j) (runnerJob_SubmissionDisk j) (runnerJob_SuiteDisk j)
    (runnerJob_ChallengeDisk j) (runnerJob_Manifest j) (runnerJob_SourceSnapshot j).
Definition job_RuntimeInventoryDigest v (j : RunnerJob) : RunnerJob :=
  mkRunnerJob (runnerJob_ParentJobDigest j) (runnerJob_VerificationPolicy j)
    (runnerJob_AdvisorySnapshotDigest j) v (runnerJob_HiddenSuite j)
    (runnerJob_AcceptanceReceiptDigest j) (runnerJob_DeploymentMode j)
    (runnerJob_OfficialAcceptance j) (runnerJob_APIVersion j) (runnerJob_Kind j) (runnerJob_ID j)
    (runnerJob_CreatedAt j) (runnerJob_Producer j) (runnerJob_ExpiresAt j) (runnerJob_Purpose j)
    (runnerJob_SubmissionID j) (runnerJob_ChallengeLockDigest j) (runnerJob_ArtifactDigest j)
    (runnerJob_SuiteDigest j) (runnerJob_ExecutionProfileDigest j) (runnerJob_RunnerEpoch j)
    (runnerJob_FencingToken j) (runnerJob_RequiredHostGroup j) (runnerJob_ExcludedHostIDs j)
    (runnerJob_ValidatorDisk j) (runnerJob_SubmissionDisk j) (runnerJob_SuiteDisk j)
    (runnerJob_ChallengeDisk j) (runnerJob_Manifest j) (runnerJob_SourceSnapshot j).
Definition job_HiddenSuite v (j : RunnerJob) : RunnerJob :=
  mkRunnerJob (runnerJob_ParentJobDigest j) (runnerJob_VerificationPolicy j)
    (runnerJob_AdvisorySnapshotDigest j) (runnerJob_RuntimeInventoryDigest j) v
    (runnerJob_AcceptanceReceiptDigest j) (runnerJob_DeploymentMode j)
    (runnerJob_OfficialAcceptance j) (runnerJob_APIVersion j) (runnerJob_Kind j) (runnerJob_ID j)
    (runnerJob_CreatedAt j) (runnerJob_Producer j) (runnerJob_ExpiresAt j) (runnerJob_Purpose j)
    (runnerJob_SubmissionID j) (runnerJob_ChallengeLockDigest j) (runnerJob_ArtifactDigest j)
    (runnerJob_SuiteDigest j) (runnerJob_ExecutionProfileDigest j) (runnerJob_RunnerEpoch j)
    (runnerJob_FencingToken j) (runnerJob_RequiredHostGroup j) (runnerJob_ExcludedHostIDs j)
    (runnerJob_ValidatorDisk j) (runnerJob_SubmissionDisk j) (runnerJob_SuiteDisk j)
    (runnerJob_ChallengeDisk j) (runnerJob_Manifest j) (runnerJob_SourceSnapshot j).
Definition job_ID v (j : RunnerJob) : RunnerJob :=
  mkRunnerJob (runnerJob_ParentJobDigest j) (runnerJob_VerificationPolicy j)
    (runnerJob_AdvisorySnapshotDigest j) (runnerJob_RuntimeInventoryDigest j)
    (runnerJob_HiddenSuite j) (runnerJob_AcceptanceReceiptDigest j) (runnerJob_DeploymentMode j)
    (runnerJob_OfficialAcceptance j) (runnerJob_APIVersion j) (runnerJob_Kind j) v
    (runnerJob_CreatedAt j) (runnerJob_Producer j) (runnerJob_ExpiresAt j) (runnerJob_Purpose j)
    (runnerJob_SubmissionID j) (runnerJob_ChallengeLockDigest j) (runnerJob_ArtifactDigest j)
    (runnerJob_SuiteDigest j) (runnerJob_ExecutionProfileDigest j) (runnerJob_RunnerEpoch j)
    (runnerJob_FencingToken j) (runnerJob_RequiredHostGroup j) (runnerJob_ExcludedHostIDs j)
    (runnerJob_ValidatorDisk j) (runnerJob_SubmissionDisk j) (runnerJob_SuiteDisk j)
    (runnerJob_ChallengeDisk j) (runnerJob_Manifest j) (runnerJob_SourceSnapshot j).
Definition job_CreatedAt v (j : RunnerJob) : RunnerJob :=
  mkRunnerJob (runnerJob_ParentJobDigest j) (runnerJob_VerificationPolicy j)
    (runnerJob_AdvisorySnapshotDigest j) (runnerJob_RuntimeInventoryDigest j)
    (runnerJob_HiddenSuite j) (runnerJob_AcceptanceReceiptDigest j) (runnerJob_DeploymentMode j)
    (runnerJob_OfficialAcceptance j) (runnerJob_APIVersion j) (runnerJob_Kind j) (runnerJob_ID j)
    v (runnerJob_Producer j) (runnerJob_ExpiresAt j) (runnerJob_Purpose j)
    (runnerJob_SubmissionID j) (runnerJob_ChallengeLockDigest j) (runnerJob_ArtifactDigest j)
    (runnerJob_SuiteDigest j) (runnerJob_ExecutionProfileDigest j) (runnerJob_RunnerEpoch j)
    (runnerJob_FencingToken j) (runnerJob_RequiredHostGroup j) (runnerJob_ExcludedHostIDs j)
    (runnerJob_ValidatorDisk j) (runnerJob_SubmissionDisk j) (runnerJob_SuiteDisk j)
    (runnerJob_ChallengeDisk j) (runnerJob_Manifest j) (runnerJob_SourceSnapshot j).
Definition job_ExpiresAt v (j : RunnerJob) : RunnerJob :=
  mkRunnerJob (runnerJob_ParentJobDigest j) (runnerJob_VerificationPolicy j)
    (runnerJob_AdvisorySnapshotDigest j) (runnerJob_RuntimeInventoryDigest j)
    (runnerJob_HiddenSuite j) (runnerJob_AcceptanceReceiptDigest j) (runnerJob_DeploymentMode j)
    (runnerJob_OfficialAcceptance j) (runnerJob_APIVersion j) (runnerJob_Kind j) (runnerJob_ID j)
    (runnerJob_CreatedAt j) (runnerJob_Producer j) v (runnerJob_Purpose j)
    (runnerJob_SubmissionID j) (runnerJob_ChallengeLockDigest j) (runnerJob_ArtifactDigest j)
    (runnerJob_SuiteDigest j) (runnerJob_ExecutionProfileDigest j) (runnerJob_RunnerEpoch j)
    (runnerJob_FencingToken j) (runnerJob_RequiredHostGroup j) (runnerJob_ExcludedHostIDs j)
    (runnerJob_ValidatorDisk j) (runnerJob_SubmissionDisk j) (runnerJob_SuiteDisk j)
    (runnerJob_ChallengeDisk j) (runnerJob_Manifest j) (runnerJob_SourceSnapshot j).
Definition job_Purpose v (j : RunnerJob) : RunnerJob :=
  mkRunnerJob (runnerJob_ParentJobDigest j) (runnerJob_VerificationPolicy j)
    (runnerJob_AdvisorySnapshotDigest j) (runnerJob_RuntimeInventoryDigest j)
    (runnerJob_HiddenSuite j) (runnerJob_AcceptanceReceiptDigest j) (runnerJob_DeploymentMode j)
    (runnerJob_OfficialAcceptance j) (runnerJob_APIVersion j) (runnerJob_Kind j) (runnerJob_ID j)
    (runnerJob_CreatedAt j) (runnerJob_Producer j) (runnerJob_ExpiresAt j) v
    (runnerJob_SubmissionID j) (runnerJob_ChallengeLockDigest j) (runnerJob_ArtifactDigest j)
    (runnerJob_SuiteDigest j) (runnerJob_ExecutionProfileDigest j) (runnerJob_RunnerEpoch j)
    (runnerJob_FencingToken j) (runnerJob_RequiredHostGroup j) (runnerJob_ExcludedHostIDs j)
    (runnerJob_ValidatorDisk j) (runnerJob_SubmissionDisk j) (runnerJob_SuiteDisk j)
    (runnerJob_ChallengeDisk j) (runnerJob_Manifest j) (runnerJob_SourceSnapshot j).
Definition job_SuiteDigest v (j : RunnerJob) : RunnerJob :=
  mkRunnerJob (runnerJob_ParentJobDigest j) (runnerJob_VerificationPolicy j)
    (runnerJob_AdvisorySnapshotDigest j) (runnerJob_RuntimeInventoryDigest j)
    (runnerJob_HiddenSuite j) (runnerJob_AcceptanceReceiptDigest j) (runnerJob_DeploymentMode j)
    (runnerJob_OfficialAcceptance j) (runnerJob_APIVersion j) (runnerJob_Kind j) (runnerJob_ID j)
    (runnerJob_CreatedAt j) (runnerJob_Producer j) (runnerJob_ExpiresAt j) (runnerJob_Purpose j)
    (runnerJob_SubmissionID j) (runnerJob_ChallengeLockDigest j) (runnerJob_ArtifactDigest j) v
    (runnerJob_ExecutionProfileDigest j) (runnerJob_RunnerEpoch j) (runnerJob_FencingToken j)
    (runnerJob_RequiredHostGroup j) (runnerJob_ExcludedHostIDs j) (runnerJob_ValidatorDisk j)
    (runnerJob_SubmissionDisk j) (runnerJob_SuiteDisk j) (runnerJob_ChallengeDisk j)
    (runnerJob_Manifest j) (runnerJob_SourceSnapshot j).
Definition job_ExecutionProfileDigest v (j : RunnerJob) : RunnerJob :=
  mkRunnerJob (runnerJob_ParentJobDigest j) (runnerJob_VerificationPolicy j)
    (runnerJob_AdvisorySnapshotDigest j) (runnerJob_RuntimeInventoryDigest j)
    (runnerJob_HiddenSuite j) (runnerJob_AcceptanceReceiptDigest j) (runnerJob_DeploymentMode j)
    (runnerJob_OfficialAcceptance j) (runnerJob_APIVersion j) (runnerJob_Kind j) (runnerJob_ID j)
    (runnerJob_CreatedAt j) (runnerJob_Producer j) (runnerJob_ExpiresAt j) (runnerJob_Purpose j)
    (runnerJob_SubmissionID j) (runnerJob_ChallengeLockDigest j) (runnerJob_ArtifactDigest j)
    (runnerJob_SuiteDigest j) v (runnerJob_RunnerEpoch j) (runnerJob_FencingToken j)
    (runnerJob_RequiredHostGroup j) (runnerJob_ExcludedHostIDs j) (runnerJob_ValidatorDisk j)
    (runnerJob_SubmissionDisk j) (runnerJob_SuiteDisk j) (runnerJob_ChallengeDisk j)
    (runnerJob_Manifest j) (runnerJob_SourceSnapshot j).
Definition job_FencingToken v (j : RunnerJob) : RunnerJob :=
  mkRunnerJob (runnerJob_ParentJobDigest j) (runnerJob_VerificationPolicy j)
    (runnerJob_AdvisorySnapshotDigest j) (runnerJob_RuntimeInventoryDigest j)
    (runnerJob_HiddenSuite j) (runnerJob_AcceptanceReceiptDigest j) (runnerJob_DeploymentMode j)
    (runnerJob_OfficialAcceptance j) (runnerJob_APIVersion j) (runnerJob_Kind j) (runnerJob_ID j)
    (runnerJob_CreatedAt j) (runnerJob_Producer j) (runnerJob_ExpiresAt j) (runnerJob_Purpose j)
    (runnerJob_SubmissionID j) (runnerJob_ChallengeLockDigest j) (runnerJob_ArtifactDigest j)
    (runnerJob_SuiteDigest j) (runnerJob_ExecutionProfileDigest j) (runnerJob_RunnerEpoch j) v
    (runnerJob_RequiredHostGroup j) (runnerJob_ExcludedHostIDs j) (runnerJob_ValidatorDisk j)
    (runnerJob_SubmissionDisk j) (runnerJob_SuiteDisk j) (runnerJob_ChallengeDisk j)
    (runnerJob_Manifest j) (runnerJob_SourceSnapshot j).
Definition job_RequiredHostGroup v (j : RunnerJob) : RunnerJob :=
  mkRunnerJob (runnerJob_ParentJobDigest j) (runnerJob_VerificationPolicy j)
    (runnerJob_AdvisorySnapshotDigest j) (runnerJob_RuntimeInventoryDigest j)
    (runnerJob_HiddenSuite j) (runnerJob_AcceptanceReceiptDigest j) (runnerJob_DeploymentMode j)
    (runnerJob_OfficialAcceptance j) (runnerJob_APIVersion j) (runnerJob_Kind j) (runnerJob_ID j)
    (runnerJob_CreatedAt j) (runnerJob_Producer j) (runnerJob_ExpiresAt j) (runnerJob_Purpose j)
    (runnerJob_SubmissionID j) (runnerJob_ChallengeLockDigest j) (runnerJob_ArtifactDigest j)
    (runnerJob_SuiteDigest j) (runnerJob_ExecutionProfileDigest j) (runnerJob_RunnerEpoch j)
    (runnerJob_FencingToken j) v (runnerJob_ExcludedHostIDs j) (runnerJob_ValidatorDisk j)
    (runnerJob_SubmissionDisk j) (runnerJob_SuiteDisk j) (runnerJob_ChallengeDisk j)
    (runnerJob_Manifest j) (runnerJob_SourceSnapshot j).
Definition job_ExcludedHostIDs v (j : RunnerJob) : RunnerJob :=
  mkRunnerJob (runnerJob_ParentJobDigest j) (runnerJob_VerificationPolicy j)
    (runnerJob_AdvisorySnapshotDigest j) (runnerJob_RuntimeInventoryDigest j)
    (runnerJob_HiddenSuite j) (runnerJob_AcceptanceReceiptDigest j) (runnerJob_DeploymentMode j)
    (runnerJob_OfficialAcceptance j) (runnerJob_APIVersion j) (runnerJob_Kind j) (runnerJob_ID j)
    (runnerJob_CreatedAt j) (runnerJob_Producer j) (runnerJob_ExpiresAt j) (runnerJob_Purpose j)
    (runnerJob_SubmissionID j) (runnerJob_ChallengeLockDigest j) (runnerJob_ArtifactDigest j)
    (runnerJob_SuiteDigest j) (runnerJob_ExecutionProfileDigest j) (runnerJob_RunnerEpoch j)
    (runnerJob_FencingToken j) (runnerJob_RequiredHostGroup j) v (runnerJob_ValidatorDisk j)
    (runnerJob_SubmissionDisk j) (runnerJob_SuiteDisk j) (runnerJob_ChallengeDisk j)
    (runnerJob_Manifest j) (runnerJob_SourceSnapshot j).
Definition job_ValidatorDisk v (j : RunnerJob) : RunnerJob :=
  mkRunnerJob (runnerJob_ParentJobDigest j) (runnerJob_VerificationPolicy j)
    (runnerJob_AdvisorySnapshotDigest j) (runnerJob_RuntimeInventoryDigest j)
    (runnerJob_HiddenSuite j) (runnerJob_AcceptanceReceiptDigest j) (runnerJob_DeploymentMode j)
    (runnerJob_OfficialAcceptance j) (runnerJob_APIVersion j) (runnerJob_Kind j) (runnerJob_ID j)
    (runnerJob_CreatedAt j) (runnerJob_Producer j) (runnerJob_ExpiresAt j) (runnerJob_Purpose j)
    (runnerJob_SubmissionID j) (runnerJob_ChallengeLockDigest j) (runnerJob_ArtifactDigest j)
    (runnerJob_SuiteDigest j) (runnerJob_ExecutionProfileDigest j) (runnerJob_RunnerEpoch j)
    (runnerJob_FencingToken j) (runnerJob_RequiredHostGroup j) (runnerJob_ExcludedHostIDs j) v
    (runnerJob_SubmissionDisk j) (runnerJob_SuiteDisk j) (runnerJob_ChallengeDisk j)
    (runnerJob_Manifest j) (runnerJob_SourceSnapshot j).
Definition job_SubmissionDisk v (j : RunnerJob) : RunnerJob :=
  mkRunnerJob (runnerJob_ParentJobDigest j) (runnerJob_VerificationPolicy j)
    (runnerJob_AdvisorySnapshotDigest j) (runnerJob_RuntimeInventoryDigest j)
    (runnerJob_HiddenSuite j) (runnerJob_AcceptanceReceiptDigest j) (runnerJob_DeploymentMode j)
    (runnerJob_OfficialAcceptance j) (runnerJob_APIVersion j) (runnerJob_Kind j) (runnerJob_ID j)
    (runnerJob_CreatedAt j) (runnerJob_Producer j) (runnerJob_ExpiresAt j) (runnerJob_Purpose j)
    (runnerJob_SubmissionID j) (runnerJob_ChallengeLockDigest j) (runnerJob_ArtifactDigest j)
    (runnerJob_SuiteDigest j) (runnerJob_ExecutionProfileDigest j) (runnerJob_RunnerEpoch j)
    (runnerJob_FencingToken j) (runnerJob_RequiredHostGroup j) (runnerJob_ExcludedHostIDs j)
    (runnerJob_ValidatorDisk j) v (runnerJob_SuiteDisk j) (runnerJob_ChallengeDisk j)
    (runnerJob_Manifest j) (runnerJob_SourceSnapshot j).
Definition job_SuiteDisk v (j : RunnerJob) : RunnerJob :=
  mkRunnerJob (runnerJob_ParentJobDigest j) (runnerJob_VerificationPolicy j)
    (runnerJob_AdvisorySnapshotDigest j) (runnerJob_RuntimeInventoryDigest j)
    (runnerJob_HiddenSuite j) (runnerJob_AcceptanceReceiptDigest j) (runnerJob_DeploymentMode j)
    (runnerJob_OfficialAcceptance j) (runnerJob_APIVersion j) (runnerJob_Kind j) (runnerJob_ID j)
    (runnerJob_CreatedAt j) (runnerJob_Producer j) (runnerJob_ExpiresAt j) (runnerJob_Purpose j)
    (runnerJob_SubmissionID j) (runnerJob_ChallengeLockDigest j) (runnerJob_ArtifactDigest j)
    (runnerJob_SuiteDigest j) (runnerJob_ExecutionProfileDigest j) (runnerJob_RunnerEpoch j)
    (runnerJob_FencingToken j) (runnerJob_RequiredHostGroup j) (runnerJob_ExcludedHostIDs j)
    (runnerJob_ValidatorDisk j) (runnerJob_SubmissionDisk j) v (runnerJob_ChallengeDisk j)
    (runnerJob_Manifest j) (runnerJob_SourceSnapshot j).
Definition job_ChallengeDisk v (j : RunnerJob) : RunnerJob :=
  mkRunnerJob (runnerJob_ParentJobDigest j) (runnerJob_VerificationPolicy j)
    (runnerJob_AdvisorySnapshotDigest j) (runnerJob_RuntimeInventoryDigest j)
    (runnerJob_HiddenSuite j) (runnerJob_AcceptanceReceiptDigest j) (runnerJob_DeploymentMode j)
    (runnerJob_OfficialAcceptance j) (runnerJob_APIVersion j) (runnerJob_Kind j) (runnerJob_ID j)
    (runnerJob_CreatedAt j) (runnerJob_Producer j) (runnerJob_ExpiresAt j) (runnerJob_Purpose j)
    (runnerJob_SubmissionID j) (runnerJob_ChallengeLockDigest j) (runnerJob_ArtifactDigest j)
    (runnerJob_SuiteDigest j) (runnerJob_ExecutionProfileDigest j) (runnerJob_RunnerEpoch j)
    (runnerJob_FencingToken j) (runnerJob_RequiredHostGroup j) (runnerJob_ExcludedHostIDs j)
    (runnerJob_ValidatorDisk j) (runnerJob_SubmissionDisk j) (runnerJob_SuiteDisk j) v
    (runnerJob_Manifest j) (runnerJob_SourceSnapshot j).
Definition job_SourceSnapshot v (j : RunnerJob) : RunnerJob :=
  mkRunnerJob (runnerJob_ParentJobDigest j) (runnerJob_VerificationPolicy j)
    (runnerJob_AdvisorySnapshotDigest j) (runnerJob_RuntimeInventoryDigest j)
    (runnerJob_HiddenSuite j) (runnerJob_AcceptanceReceiptDigest j) (runnerJob_DeploymentMode j)
    (runnerJob_OfficialAcceptance j) (runnerJob_APIVersion j) (runnerJob_Kind j) (runnerJob_ID j)
    (runnerJob_CreatedAt j) (runnerJob_Producer j) (runnerJob_ExpiresAt j) (runnerJob_Purpose j)
    (runnerJob_SubmissionID j) (runnerJob_ChallengeLockDigest j) (runnerJob_ArtifactDigest j)
    (runnerJob_SuiteDigest j) (runnerJob_ExecutionProfileDigest j) (runnerJob_RunnerEpoch j)
    (runnerJob_FencingToken j) (runnerJob_RequiredHostGroup j) (runnerJob_ExcludedHostIDs j)
    (runnerJob_ValidatorDisk j) (runnerJob_SubmissionDisk j) (runnerJob_SuiteDisk j)
    (runnerJob_ChallengeDisk j) (runnerJob_Manifest j) v.
