(* ===== verification/Scores.v ===== *)
(** Exact scores: pkg/protocol/scores.go up to [ConfirmScores], and
    [ValidatorOutcome].  Decimals are exact rationals, ranked scores are integer
    ticks carried as canonical decimal text.  ([ValidateResult] needs the typed
    measurements and is in Results.v.) *)

From S2P Require Import Prelude Regex GoLib Numbers Types.
From Stdlib Require Import Ascii QArith Qround.
Open Scope Z_scope.

(** * Patterns *)

Definition is_nonzero_digit (c : ascii) : bool := inr 49 57 (byte_val c).
Definition is_char (a : ascii) : ascii → bool := Ascii.eqb a.

(** [(0|[1-9][0-9]* )] *)
Definition re_natural : re :=
  Alt (Chr (is_char "0")) (Cat (Chr is_nonzero_digit) (Star (Chr is_digit))).

(** [^[+-]?(0|[1-9][0-9]* )(\.[0-9]+)?$] *)
Definition decimalPattern : re :=
  Cat (Opt (Alt (Chr (is_char "+")) (Chr (is_char "-"))))
    (Cat re_natural (Opt (Cat (Chr (is_char ".")) (Plus (Chr is_digit))))).

(** [^-?(0|[1-9][0-9]* )$] *)
Definition ticksPattern : re := Cat (Opt (Chr (is_char "-"))) re_natural.

(** * Decimals *)

(** [strings.TrimLeft(s, cutset)] *)
Definition TrimLeft (s cutset : string) : string :=
  string_of (drop_while (λ c, ContainsByte cutset c) (list_of s)).

(** [strings.IndexByte], [None] for -1. *)
Fixpoint index_list (c : ascii) (l : list ascii) : option nat :=
  match l with
  | [] => None
  | a :: l => if Ascii.eqb a c then Some O else S <$> index_list c l
  end.
Definition IndexByte (s : string) (c : ascii) : option nat := index_list c (list_of s).

(** [strings.ReplaceAll(s, c, "")] for a one-byte [c]. *)
Definition RemoveByte (s : string) (c : ascii) : string :=
  string_of (List.filter (λ a, negb (Ascii.eqb a c)) (list_of s)).

(** [new(big.Rat).SetString] on decimal text: a sign, integer digits and an
    optional fraction.  A [big.Rat] is always reduced. *)
Definition rat_of_string (s : string) : option Q :=
  let neg := HasPrefix s "-" in
  let abs := list_of (TrimLeft s "+-") in
  let '(ip, fp) :=
    match index_list "." abs with
    | Some i => (take i abs, drop (S i) abs)
    | None => (abs, [])
    end in
  if all_digits ip && forallb is_digit fp then
    let n := digits_val (ip ++ fp) in
    Some (Qred (Qmake (if neg then - n else n) (Z.to_pos (10 ^ lenl fp))))
  else None.

Definition Sign (r : Q) : Z := Z.sgn (Qnum r).

Definition decimal (value : string) : result Q :=
  if negb (matches decimalPattern value)
  then Err "score must be a canonical finite decimal string" else
  let abs := TrimLeft value "+-" in
  let digits := RemoveByte abs "." in
  let significant := TrimLeft digits "0" in
  if len significant >? 100 then Err "decimal exceeds 100 significant digits" else
  if match IndexByte abs "." with
     | Some point => len abs - Z.of_nat point - 1 >? 50
     | None => false
     end
  then Err "decimal exceeds 50 fractional digits" else
  match rat_of_string value with
  | Some r =>
      if (Sign r =? 0) && HasPrefix value "-"
      then Err "invalid decimal or negative zero" else Ok r
  | None => Err "invalid decimal or negative zero"
  end.

(** * Ticks *)

Definition ParseTicks (value : string) : result Z :=
  if (len value >? 160) || negb (matches ticksPattern value) || (value ==s "-0")
  then Err "invalid integer ticks" else
  match bigint_of_string value with
  | Some v => Ok v
  | None => Err "invalid ticks"
  end.

(** [x.Cmp(y)]: -1, 0 or 1. *)
Definition Cmp (x y : Z) : Z :=
  match x ?= y with Lt => -1 | Eq => 0 | Gt => 1 end.

Definition CompareTicks (a b : string) : result Z :=
  let! x := ParseTicks a in
  let! y := ParseTicks b in
  Ok (Cmp x y).

(** * Normalisation *)

(** The integer quotient of a reduced ratio, rounded against the solver: down
    when maximising, up when minimising ([QuoRem] truncates toward zero). *)
Definition conservative_ticks (direction : string) (ratio : Q) : Z :=
  let num := Qnum ratio in
  let denom := Zpos (Qden ratio) in
  let quo := Z.quot num denom in
  let remainder := Z.rem num denom in
  if Z.sgn remainder =? 0 then quo else
  let t := if (direction ==s "maximize") && (Sign ratio <? 0) then quo - 1 else quo in
  if (direction ==s "minimize") && (Sign ratio >? 0) then t + 1 else t.

Definition normalizeRationalScore (v : Q) (metric : Metric) : result string :=
  let! q := decimal (metric_Quantum metric) or "quantum must be a positive decimal" in
  if Sign q <=? 0 then Err "quantum must be a positive decimal" else
  if (metric_Direction metric !=s "maximize") && (metric_Direction metric !=s "minimize")
  then Err "unknown metric direction" else
  let ticks := conservative_ticks (metric_Direction metric) (Qred (v / q)) in
  let result := int_string ticks in
  let! _ := ParseTicks result in
  let! _ :=
    (if metric_DomainMinTicks metric ==s "" then Ok tt else
     let! min := ParseTicks (metric_DomainMinTicks metric) or "score below declared domain" in
     if Cmp ticks min <? 0 then Err "score below declared domain" else Ok tt) in
  let! _ :=
    (if metric_DomainMaxTicks metric ==s "" then Ok tt else
     let! max := ParseTicks (metric_DomainMaxTicks metric) or "score above declared domain" in
     if Cmp ticks max >? 0 then Err "score above declared domain" else Ok tt) in
  Ok result.

Definition NormalizeScore (score : string) (metric : Metric) : result string :=
  let! v := decimal score in
  normalizeRationalScore v metric.

Definition Qualifies (score threshold direction : string) : result bool :=
  let! cmp := CompareTicks score threshold in
  if direction ==s "maximize" then Ok (cmp >=? 0)
  else if direction ==s "minimize" then Ok (cmp <=? 0)
  else Err "unknown direction".

(** * Confirmation of two runs *)

Definition ConfirmScores (a b : string) (metric : Metric) : result string :=
  let! x := ParseTicks a in
  let! y := ParseTicks b in
  let! t := ParseTicks (metric_ToleranceTicks metric) or "invalid tolerance" in
  if Z.sgn t <? 0 then Err "invalid tolerance" else
  let delta := Z.abs (x - y) in
  if Cmp delta t >? 0 then Err "nondeterministic scores" else
  if metric_Direction metric ==s "maximize"
  then if Cmp x y <? 0 then Ok a else Ok b
  else if metric_Direction metric ==s "minimize"
  then if Cmp x y >? 0 then Ok a else Ok b
  else Err "unknown direction".

(** Map iteration order does not matter: the loop only asks whether some gate is
    false. *)
Definition ValidatorOutcome (result : ValidatorResult) : string :=
  if existsb (λ '(_, pass), negb pass) (map_to_list (validatorResult_Gates result))
  then "hard_gate_failed" else
  match validatorResult_Timing result with
  | Some t =>
      if timingSummary_Outcome (timingEvidence_Summary t) ==s "inconclusive"
      then "measurement_inconclusive" else "valid"
  | None => "valid"
  end.

(** * Lemmas *)

Lemma lang_natural w : lang re_natural w ↔ canonical w.
Proof.
  unfold re_natural. cbn [lang]. setoid_rewrite star_chr. split.
  - intros [(c & -> & Hc)|(u & v & -> & (c & -> & Hc) & Hv)].
    + apply Ascii.eqb_eq in Hc as <-. apply canonical_zero.
    + assert (is_digit c = true).
      { unfold is_nonzero_digit, is_digit, inr in *. bool_prop. apply andb_true_iff.
        rewrite !Z.leb_le. lia. }
      split; [by constructor|]. split; [done|]. simpl. intros ->. discriminate Hc.
  - intros (Hf & Hne & Hz). destruct w as [|c w]; [done|]. simpl in Hz.
    apply Forall_cons in Hf as [Hc Hw].
    destruct (decide (c = "0"%char)) as [->|Hc0].
    + left. specialize (Hz eq_refl). destruct w; [|done]. by exists "0"%char.
    + right. exists [c], w. split; [done|]. split; [|done].
      exists c. split; [done|]. unfold is_nonzero_digit, is_digit, inr in *. bool_prop.
      apply andb_true_iff. rewrite !Z.leb_le. split; [|done].
      assert (byte_val c ≠ 48) by (intros E; by apply Hc0, byte_val_inj). lia.
Qed.

Lemma lang_ticks w : lang ticksPattern w ↔ canonical_int w.
Proof.
  unfold ticksPattern.
  change (lang (Cat (Opt (Chr (is_char "-"))) re_natural) w) with
    (∃ u v, w = u ++ v ∧ (u = [] ∨ ∃ c, u = [c] ∧ is_char "-" c = true) ∧ lang re_natural v).
  setoid_rewrite lang_natural. unfold canonical_int. split.
  - intros (u & v & -> & [->|(c & -> & Hc)] & Hv); [by left|right].
    apply Ascii.eqb_eq in Hc as <-. eauto.
  - intros [Hw|(l & -> & Hl)]; [by exists [], w; eauto|].
    exists ["-"%char], l. split; [done|]. split; [|done]. right. eauto.
Qed.

(** The accepted tick strings are exactly the printed integers of at most 160
    bytes. *)
Lemma ParseTicks_ok s z : ParseTicks s = Ok z ↔ s = int_string z ∧ len s ≤ 160.
Proof.
  unfold ParseTicks. split.
  - intros H. ok_step H. bool_prop.
    destruct (bigint_of_string s) as [v|] eqn:Ev; [|done]. injection H as <-.
    split; [|done]. symmetry. apply int_string_canonical; [|done|done].
    by apply lang_ticks, matches_lang.
  - intros [Hs Hlen]. rewrite Z.gtb_ltb, (proj2 (Z.ltb_ge _ _)) by lia.
    assert (matches ticksPattern s = true) as ->.
    { apply matches_lang, lang_ticks. rewrite Hs. apply int_string_is_canonical. }
    rewrite (proj2 (String.eqb_neq _ _)) by (rewrite Hs; apply int_string_not_neg_zero).
    simpl. rewrite Hs, bigint_of_int_string. done.
Qed.

Lemma ParseTicks_inj a b x : ParseTicks a = Ok x → ParseTicks b = Ok x → a = b.
Proof. rewrite !ParseTicks_ok. by intros [-> _] [-> _]. Qed.

Lemma ParseTicks_int_string z : len (int_string z) ≤ 160 → ParseTicks (int_string z) = Ok z.
Proof. intros. by apply ParseTicks_ok. Qed.

Lemma Cmp_spec x y : Cmp x y = Z.sgn (x - y).
Proof.
  unfold Cmp. destruct (Z.compare_spec x y); symmetry.
  - subst. by rewrite Z.sub_diag.
  - apply Z.sgn_neg. lia.
  - apply Z.sgn_pos. lia.
Qed.

Lemma Cmp_ltb x y : (Cmp x y <? 0) = (x <? y).
Proof. unfold Cmp, Z.ltb. by destruct (x ?= y). Qed.
Lemma Cmp_gtb x y : (Cmp x y >? 0) = (y <? x).
Proof.
  unfold Cmp. rewrite (Z.compare_antisym y x). unfold Z.ltb. by destruct (y ?= x).
Qed.
Lemma Cmp_geb x y : (Cmp x y >=? 0) = (y <=? x).
Proof.
  unfold Cmp. rewrite (Z.compare_antisym y x). unfold Z.leb. by destruct (y ?= x).
Qed.
Lemma Cmp_leb x y : (Cmp x y <=? 0) = (x <=? y).
Proof. unfold Cmp, Z.leb. by destruct (x ?= y). Qed.
Lemma Cmp_eqb x y : (Cmp x y =? 0) = (x =? y).
Proof. unfold Cmp. rewrite (Z.eqb_compare x y). by destruct (x ?= y). Qed.
#[export] Hint Rewrite Cmp_ltb Cmp_gtb Cmp_geb Cmp_leb Cmp_eqb : golib.

(** ** Rounding *)

Lemma quot_round n d :
  0 < d →
  n / d = (if Z.rem n d =? 0 then Z.quot n d
           else if n <? 0 then Z.quot n d - 1 else Z.quot n d).
Proof.
  intros Hd. pose proof (Z.quot_rem n d ltac:(lia)) as Hqr.
  pose proof (Z.rem_bound_pos n d) as Hp. pose proof (Z.rem_bound_pos_neg n d) as Hn.
  destruct (Z.eqb_spec (Z.rem n d) 0) as [H0|H0].
  - symmetry. apply Z.div_unique with 0; lia.
  - destruct (Z.ltb_spec n 0).
    + symmetry. apply Z.div_unique with (Z.rem n d + d); lia.
    + symmetry. apply Z.div_unique with (Z.rem n d); lia.
Qed.

Lemma conservative_max r : conservative_ticks "maximize" r = Qfloor r.
Proof.
  destruct r as [n d]. unfold conservative_ticks, Sign, Qfloor. cbn [Qnum Qden].
  rewrite quot_round by lia. rewrite String.eqb_refl. simpl.
  destruct (Z.eqb_spec (Z.sgn (Z.rem n (Zpos d))) 0) as [E|E].
  - apply (proj1 (Z.sgn_null_iff _)) in E. by rewrite E.
  - rewrite (proj2 (Z.eqb_neq (Z.rem n (Zpos d)) 0)) by (intros H; by rewrite H in E).
    destruct (Z.ltb_spec n 0), (Z.ltb_spec (Z.sgn n) 0); try lia.
Qed.

Lemma conservative_min r : conservative_ticks "minimize" r = Qceiling r.
Proof.
  destruct r as [n d]. unfold conservative_ticks, Sign, Qceiling, Qfloor. cbn [Qnum Qden Qopp].
  rewrite quot_round by lia. simpl.
  rewrite Z.rem_opp_l, Z.quot_opp_l by lia.
  destruct (Z.eqb_spec (Z.sgn (Z.rem n (Zpos d))) 0) as [E|E].
  - apply (proj1 (Z.sgn_null_iff _)) in E. rewrite E. simpl. lia.
  - rewrite (proj2 (Z.eqb_neq (- Z.rem n (Zpos d)) 0)).
    2: { intros H. apply E. replace (Z.rem n (Zpos d)) with 0 by lia. done. }
    rewrite Z.gtb_ltb.
    destruct (Z.ltb_spec (- n) 0), (Z.ltb_spec 0 (Z.sgn n)); try lia.
Qed.

(** The tick value a rational score stands for under a metric. *)
Definition exact_ticks (direction : string) (v q : Q) : Z :=
  if direction ==s "maximize" then Qfloor (v / q) else Qceiling (v / q).

Lemma conservative_exact direction v q :
  direction = "maximize" ∨ direction = "minimize" →
  conservative_ticks direction (Qred (v / q)) = exact_ticks direction v q.
Proof.
  intros [->| ->]; unfold exact_ticks.
  - rewrite conservative_max. exact (Qfloor_comp _ _ (Qred_correct _)).
  - rewrite conservative_min. exact (Qceiling_comp _ _ (Qred_correct _)).
Qed.

(** A declared bound of the metric's domain, as the loops of the source read it. *)
Definition bound_ok (cmp : Z → Z → Prop) (bound : string) (z : Z) : Prop :=
  bound = "" ∨ ∃ b, ParseTicks bound = Ok b ∧ cmp b z.

Lemma direction_known d :
  (d !=s "maximize") && (d !=s "minimize") = false ↔ d = "maximize" ∨ d = "minimize".
Proof.
  rewrite andb_false_iff, !negb_false_iff, !String.eqb_eq. done.
Qed.

Lemma normalizeRationalScore_ok v metric t :
  normalizeRationalScore v metric = Ok t ↔
  ∃ q z, decimal (metric_Quantum metric) = Ok q ∧ 0 < Sign q ∧
    (metric_Direction metric = "maximize" ∨ metric_Direction metric = "minimize") ∧
    z = exact_ticks (metric_Direction metric) v q ∧ ParseTicks t = Ok z ∧
    bound_ok Z.le (metric_DomainMinTicks metric) z ∧
    bound_ok Z.ge (metric_DomainMaxTicks metric) z.
Proof.
  unfold normalizeRationalScore, bound_ok. split.
  - intros H. do 3 ok_step H. bool_prop. apply direction_known in G0.
    rewrite conservative_exact in H by done.
    exists r, (exact_ticks (metric_Direction metric) v r).
    do 3 ok_step H. injection H as <-.
    assert (r0 = exact_ticks (metric_Direction metric) v r) as ->.
    { apply ParseTicks_ok in E0 as [?%int_string_inj _]. done. }
    repeat (split; [done|]). split.
    + destruct (String.eqb_spec (metric_DomainMinTicks metric) ""); [by left|right].
      do 2 ok_step E1. rewrite Cmp_ltb in *. bool_prop. eauto.
    + destruct (String.eqb_spec (metric_DomainMaxTicks metric) ""); [by left|right].
      do 2 ok_step E2. rewrite Cmp_gtb in *. bool_prop. eexists. split; [done|lia].
  - intros (q & z & -> & Hq & Hdir & -> & Ht & Hlo & Hhi).
    rewrite (proj2 (Z.leb_gt _ _)) by done.
    rewrite (proj2 (direction_known _)) by done.
    rewrite conservative_exact by done.
    pose proof (proj1 (ParseTicks_ok _ _) Ht) as [<- _]. rewrite Ht.
    destruct Hlo as [->|(lo & Elo & ?)], Hhi as [->|(hi & Ehi & ?)]; simpl.
    all: try (destruct (String.eqb_spec (metric_DomainMinTicks metric) "") as [e|_];
      [rewrite e in Elo; discriminate Elo|rewrite Elo, Cmp_ltb, (proj2 (Z.ltb_ge _ _)) by lia]).
    all: try (destruct (String.eqb_spec (metric_DomainMaxTicks metric) "") as [e|_];
      [rewrite e in Ehi; discriminate Ehi|rewrite Ehi, Cmp_gtb, (proj2 (Z.ltb_ge _ _)) by lia]).
    all: done.
Qed.

(** ** Multiplying out the quotient *)

Lemma Qdiv_mul (v q : Q) : (0 < q → v / q * q == v)%Q.
Proof.
  intros Hq. rewrite Qmult_comm. apply Qmult_div_r.
  intros E. rewrite E in Hq. by apply (Qlt_irrefl 0).
Qed.

Section Quotient.
Context (v q : Q) (Hq : (0 < q)%Q).

Lemma Qle_div_iff x : (x <= v / q ↔ x * q <= v)%Q.
Proof. by rewrite <-(Qmult_le_r x (v / q) q Hq), Qdiv_mul. Qed.
Lemma Qlt_div_iff x : (x < v / q ↔ x * q < v)%Q.
Proof. by rewrite <-(Qmult_lt_r x (v / q) q Hq), Qdiv_mul. Qed.
Lemma Qdiv_le_iff x : (v / q <= x ↔ v <= x * q)%Q.
Proof. by rewrite <-(Qmult_le_r (v / q) x q Hq), Qdiv_mul. Qed.
Lemma Qdiv_lt_iff x : (v / q < x ↔ v < x * q)%Q.
Proof. by rewrite <-(Qmult_lt_r (v / q) x q Hq), Qdiv_mul. Qed.
End Quotient.

Lemma Qfloor_iff z x : z = Qfloor x ↔ (inject_Z z <= x ∧ x < inject_Z (z + 1))%Q.
Proof.
  split; [intros ->; split; [apply Qfloor_le|apply Qlt_floor]|].
  intros [Hl Hu]. pose proof (Qfloor_le x). pose proof (Qlt_floor x).
  assert (z < Qfloor x + 1) by (rewrite Zlt_Qlt; eapply Qle_lt_trans; eauto).
  assert (Qfloor x < z + 1) by (rewrite Zlt_Qlt; eapply Qle_lt_trans; eauto). lia.
Qed.

Lemma Qceiling_iff z x : z = Qceiling x ↔ (inject_Z (z - 1) < x ∧ x <= inject_Z z)%Q.
Proof.
  split; [intros ->; split; [apply Qceiling_lt|apply Qle_ceiling]|].
  intros [Hl Hu]. pose proof (Qle_ceiling x). pose proof (Qceiling_lt x).
  assert (z - 1 < Qceiling x) by (rewrite Zlt_Qlt; eapply Qlt_le_trans; eauto).
  assert (Qceiling x - 1 < z) by (rewrite Zlt_Qlt; eapply Qlt_le_trans; eauto). lia.
Qed.

Lemma Sign_pos q : 0 < Sign q ↔ (0 < q)%Q.
Proof.
  unfold Sign, Qlt. cbn [Qnum Qden]. split; lia.
Qed.

(** The interval of exact scores a tick stands for: the tick is the last grid
    point the score has reached. *)
Definition tick_interval (direction : string) (z : Z) (v q : Q) : Prop :=
  (direction = "maximize" ∧ (inject_Z z * q <= v)%Q ∧ (v < inject_Z (z + 1) * q)%Q) ∨
  (direction = "minimize" ∧ (inject_Z (z - 1) * q < v)%Q ∧ (v <= inject_Z z * q)%Q).

Lemma exact_ticks_interval direction v q z :
  (0 < q)%Q →
  (direction = "maximize" ∨ direction = "minimize") ∧ z = exact_ticks direction v q ↔
  tick_interval direction z v q.
Proof.
  intros Hq. unfold exact_ticks, tick_interval.
  rewrite <-Qle_div_iff, <-Qlt_div_iff, <-Qdiv_le_iff, <-Qdiv_lt_iff by done.
  rewrite <-Qfloor_iff, <-Qceiling_iff. split.
  - intros [[->| ->] Hz]; [left|right]; by split.
  - intros [[-> Hz]|[-> Hz]]; (split; [auto|done]).
Qed.

(** * Properties *)

(** Tick strings are in bijection with integers: a string is accepted by
    [ParseTicks] with value [z] exactly when it is the decimal print of [z] and has
    at most 160 bytes; hence [CompareTicks] reports equality exactly on identical
    accepted strings, so the textual comparison of ticks made elsewhere in the
    code ([ticks != run.ScoreTicks]) is a comparison of values. *)
Theorem ticks_canonical_text s z a b :
  (ParseTicks s = Ok z ↔ s = int_string z ∧ len s ≤ 160) ∧
  (CompareTicks a b = Ok 0 ↔ a = b ∧ is_ok (ParseTicks a) = true).
Proof.
  split; [apply ParseTicks_ok|]. unfold CompareTicks.
  destruct (ParseTicks a) as [x|] eqn:Ea; [|naive_solver].
  destruct (ParseTicks b) as [y|] eqn:Eb.
  - split.
    + intros [= H]. apply Z.eqb_eq in H. rewrite Cmp_eqb in H. apply Z.eqb_eq in H as ->.
      split; [by eapply ParseTicks_inj|done].
    + intros [-> _]. assert (y = x) as -> by congruence. f_equal. apply Z.eqb_eq. rewrite Cmp_eqb. apply Z.eqb_refl.
  - split; [done|]. intros [-> _]. congruence.
Qed.

(** C27: a score normalises to tick [t] exactly when the score and the quantum are
    canonical decimals, the quantum is positive, the direction is known and [t] is
    the printed grid point reached by the score: rounded down when maximising, up
    when minimising, so never in the solver's favour, and inside the declared
    domain.  The right-hand side leaves no other reason for a rejection. *)
Theorem NormalizeScore_conservative score metric t :
  NormalizeScore score metric = Ok t ↔
  ∃ v q z, decimal score = Ok v ∧ decimal (metric_Quantum metric) = Ok q ∧ (0 < q)%Q ∧
    ParseTicks t = Ok z ∧ tick_interval (metric_Direction metric) z v q ∧
    bound_ok Z.le (metric_DomainMinTicks metric) z ∧
    bound_ok Z.ge (metric_DomainMaxTicks metric) z.
Proof.
  unfold NormalizeScore. split.
  - intros H. ok_step H.
    apply normalizeRationalScore_ok in H as (q & z & ? & ?%Sign_pos & ? & ? & ? & ? & ?).
    exists r, q, z. rewrite <-exact_ticks_interval by done. naive_solver.
  - intros (v & q & z & -> & Hq & Hpos & Ht & Hi & ? & ?).
    apply normalizeRationalScore_ok. exists q, z.
    apply exact_ticks_interval in Hi as [? ?]; [|done]. rewrite Sign_pos. naive_solver.
Qed.

(** Two runs are confirmed exactly when both scores are ticks no further
    apart than the nonnegative tolerance, and the confirmed score is then the
    worse of the two for the solver, whichever run came first. *)
Theorem ConfirmScores_worst_within_tolerance a b metric c :
  ConfirmScores a b metric = Ok c ↔
  ∃ x y t, ParseTicks a = Ok x ∧ ParseTicks b = Ok y ∧
    ParseTicks (metric_ToleranceTicks metric) = Ok t ∧ 0 ≤ t ∧ Z.abs (x - y) ≤ t ∧
    (metric_Direction metric = "maximize" ∧ c = int_string (Z.min x y) ∨
     metric_Direction metric = "minimize" ∧ c = int_string (Z.max x y)).
Proof.
  unfold ConfirmScores. split.
  - intros H. do 4 ok_step H. bool_prop. ok_step H. rewrite Cmp_gtb in *. bool_prop.
    exists r, r0, r1. apply ParseTicks_ok in E as [-> ?], E0 as [-> ?].
    rewrite Cmp_ltb in H.
    repeat (split; [first [done|lia]|]).
    destruct (String.eqb_spec (metric_Direction metric) "maximize");
      [left|destruct (String.eqb_spec (metric_Direction metric) "minimize"); [right|done]];
      (split; [done|]).
    + destruct (Z.ltb_spec r r0); injection H as <-; f_equal; lia.
    + destruct (Z.ltb_spec r0 r); injection H as <-; f_equal; lia.
  - intros (x & y & t & Ha & Hb & -> & Ht & Hd & Hc). rewrite Ha, Hb.
    rewrite (proj2 (Z.ltb_ge _ _)) by lia.
    rewrite !Cmp_gtb, Cmp_ltb, (proj2 (Z.ltb_ge t _)) by lia.
    apply ParseTicks_ok in Ha as [-> _], Hb as [-> _].
    destruct Hc as [[-> ->]|[-> ->]]; simpl.
    + destruct (Z.ltb_spec x y); do 2 f_equal; lia.
    + destruct (Z.ltb_spec y x); do 2 f_equal; lia.
Qed.
