(* ===== verification/Paths.v ===== *)
(** Names that cross a trust boundary: artifact paths ([ValidatePath] of
    artifacts.go), identifiers and slugs (validate.go), digests
    ([ValidDigest] of canonical.go) and stage commands ([validateStageArgv] of
    evaluation.go).  The main result is that an accepted path cannot leave the
    directory it is resolved in. *)

From S2P Require Import Prelude Regex GoLib Numbers Types.
From Stdlib Require Import Ascii.

(** golang.org/x/text and the case tables of [unicode] are outside the
    repository: normalisation test, case folding, and the lower case of a
    non-ASCII rune. *)
Class UnicodeLib := {
  IsNormalString : string → bool;
  Fold : string → string;
  ToLowerRune : Z → Z
}.

(** * Patterns *)

Definition is_lower (c : ascii) : bool := inr 97 122 (byte_val c).
Definition is_upper (c : ascii) : bool := inr 65 90 (byte_val c).
Definition is_alnum (c : ascii) : bool := is_lower c || is_upper c || is_digit c.
Definition is_slug_char (c : ascii) : bool := is_lower c || is_digit c.

(** [^[a-zA-Z0-9][a-zA-Z0-9._-]{0,127}$] *)
Definition identifierPattern : re :=
  Cat (Chr is_alnum)
    (UpTo 127 (Chr (λ c, is_alnum c || existsb (Ascii.eqb c) ["."; "_"; "-"]%char))).

(** [^[a-z0-9]+(?:-[a-z0-9]+)*$] *)
Definition slugPattern : re :=
  Cat (Plus (Chr is_slug_char))
    (Star (Cat (Chr (Ascii.eqb "-")) (Plus (Chr is_slug_char)))).

(** [^\.[a-z0-9]{1,16}$] *)
Definition extensionPattern : re :=
  Cat (Chr (Ascii.eqb "."))
    (Cat (Chr is_slug_char) (UpTo 15 (Chr is_slug_char))).

(** * Digests *)

Definition ValidDigest (value : string) : bool :=
  if negb (len value =? 71) || negb (HasPrefix value "sha256:") then false else
  match hex_decode (drop 7 (list_of value)) with
  | Some _ => value ==s ToLowerASCII value
  | None => false
  end.

(** * Paths *)

Section Paths.
Context `{UnicodeLib}.

Definition safe_rune (r : Z) : bool := negb (IsControl r || (r =? 58) || (r =? 65533)).

Definition reserved_part (part : string) : bool :=
  EqualFoldASCII part ".git" || HasSuffix part "." || HasSuffix part " ".

Definition ValidatePath (value : string) : result unit :=
  if (value ==s "") || (len value >? 240) || negb (ValidString value)
     || negb (IsNormalString value) || ContainsByte value "\" || HasPrefix value "/"
     || HasSuffix value "/" || (Clean value !=s value) || (value ==s ".")
     || (value ==s "..") || HasPrefix value "../"
  then Err "unsafe artifact path" else
  let! _ := for_each (λ r, if safe_rune r then Ok tt else Err "unsafe path character")
              (runes value) in
  for_each (λ part, if reserved_part part then Err "reserved path component" else Ok tt)
    (Split value "/").
End Paths.

Definition validateStageArgv (argv : list string) : result unit :=
  match argv with
  | [] => Err "stage requires an absolute direct command"
  | cmd :: _ =>
      if (lenl argv >? 64) || negb (IsAbs cmd) || (Clean cmd !=s cmd)
      then Err "stage requires an absolute direct command" else
      for_each (λ s, if (len s >? 4096) || ContainsByte s "000"
                     then Err "invalid stage argument" else Ok tt) argv
  end.

Definition boundedText (s : string) : bool := (len (TrimSpace s) >=? 12) && (len s <=? 8192).

(** * Path resolution *)

(** Where a POSIX path walk starting in directory [dir] (outermost component
    first) ends up, without symbolic links. *)
Definition walk_step (dir : list string) (w : string) : list string :=
  if (w ==s "") || (w ==s ".") then dir
  else if w ==s ".." then removelast dir
  else dir ++ [w].
Definition resolve (dir : list string) (p : string) : list string :=
  foldl walk_step (if HasPrefix p "/" then [] else dir) (Split p "/").

(** * Lemmas *)

Lemma split_list_ne c l : split_list c l ≠ [].
Proof.
  destruct l as [|a l]; simpl; [done|]. destruct (Ascii.eqb a c); [done|].
  by destruct (split_list c l).
Qed.

Lemma split_list_no_sep c l : Forall (λ w, c ∉ w) (split_list c l).
Proof.
  induction l as [|a l IH]; simpl; [by repeat constructor; set_solver|].
  destruct (Ascii.eqb_spec a c); [constructor; [set_solver|done]|].
  destruct (split_list c l) as [|w ws]; [constructor; [set_solver|done]|].
  apply Forall_cons in IH as [??]. constructor; [set_solver|done].
Qed.

Lemma join_split c l : join_list c (split_list c l) = l.
Proof.
  induction l as [|a l IH]; simpl; [done|].
  destruct (Ascii.eqb_spec a c) as [->|].
  - pose proof (split_list_ne c l). destruct (split_list c l); [done|]. by simpl in *; rewrite IH.
  - destruct (split_list c l) as [|w ws] eqn:E; [by destruct (split_list_ne c l)|].
    rewrite <-IH. by destruct ws.
Qed.

Lemma split_list_app_sep c w l :
  c ∉ w → split_list c (w ++ c :: l) = w :: split_list c l.
Proof.
  induction w as [|a w IH]; simpl; intros Hc; [by rewrite Ascii.eqb_refl|].
  rewrite (proj2 (Ascii.eqb_neq a c)) by set_solver. rewrite IH by set_solver. done.
Qed.

Lemma split_list_no c w : c ∉ w → split_list c w = [w].
Proof.
  induction w as [|a w IH]; simpl; intros Hc; [done|].
  rewrite (proj2 (Ascii.eqb_neq a c)) by set_solver. by rewrite IH by set_solver.
Qed.

Lemma split_join c ws :
  ws ≠ [] → Forall (λ w, c ∉ w) ws → split_list c (join_list c ws) = ws.
Proof.
  intros Hne Hf. induction Hf as [|w ws Hw Hf IH]; [done|].
  destruct ws as [|w' ws]; [by apply split_list_no|].
  change (join_list c (w :: w' :: ws)) with (w ++ c :: join_list c (w' :: ws)).
  rewrite split_list_app_sep by done. by rewrite IH.
Qed.

(** ** What [path.Clean] keeps *)

Definition ordinary (w : list ascii) : Prop := w ≠ [] ∧ w ≠ dot ∧ w ≠ dotdot.

Lemma eqb_chars_true a b : eqb_chars a b = true ↔ a = b.
Proof. apply bool_decide_eq_true. Qed.
Lemma eqb_chars_false a b : eqb_chars a b = false ↔ a ≠ b.
Proof. apply bool_decide_eq_false. Qed.

(** The kept components of a relative path: leading ".." then ordinary names. *)
Definition clean_shape (st : list (list ascii)) : Prop :=
  ∃ us k, st = us ++ replicate k dotdot ∧ Forall ordinary us.

Lemma clean_step_shape st w : clean_shape st → clean_shape (clean_step false st w).
Proof.
  intros (us & k & -> & Hus). unfold clean_step.
  destruct (eqb_chars w []) eqn:E1; [by exists us, k|].
  destruct (eqb_chars w dot) eqn:E2; [by exists us, k|]. simpl.
  destruct (eqb_chars w dotdot) eqn:E3.
  - apply eqb_chars_true in E3 as ->. destruct us as [|u us]; simpl.
    + destruct k as [|k]; simpl; [by exists [], 1%nat|].
      by exists [], (S (S k)).
    + apply Forall_cons in Hus as [(_ & _ & Hu) ?].
      rewrite (proj2 (eqb_chars_false _ _)) by done. by exists us, k.
  - apply eqb_chars_false in E1, E2, E3. exists (w :: us), k.
    split; [done|]. by constructor.
Qed.

Lemma clean_components_shape ws :
  ∃ us k, clean_components false ws = replicate k dotdot ++ us ∧ Forall ordinary us.
Proof.
  assert (∀ ws st, clean_shape st → clean_shape (foldl (clean_step false) st ws)) as Hfold.
  { induction ws0 as [|w ws0 IH]; intros st Hst; simpl; [done|].
    by apply IH, clean_step_shape. }
  destruct (Hfold ws []) as (us & k & Heq & Hus); [by exists [], O|].
  exists (rev us), k. unfold clean_components. rewrite Heq, rev_app_distr. split.
  - f_equal. clear. induction k as [|k IH]; simpl; [done|].
    rewrite IH. clear. induction k; simpl; congruence.
  - by apply Forall_rev.
Qed.

Lemma clean_step_subset r st w x : x ∈ clean_step r st w → x ∈ st ∨ x = w.
Proof.
  unfold clean_step. intros Hx.
  repeat case_match; set_solver.
Qed.

Lemma clean_components_subset r ws x : x ∈ clean_components r ws → x ∈ ws.
Proof.
  unfold clean_components. rewrite list_elem_of_In, <-in_rev, <-list_elem_of_In.
  assert (∀ st, x ∈ foldl (clean_step r) st ws → x ∈ st ∨ x ∈ ws) as Hfold.
  { induction ws as [|w ws IH]; intros st Hx; simpl in *; [by left|].
    apply IH in Hx as [Hx|]; [|set_solver]. apply clean_step_subset in Hx. set_solver. }
  intros Hx. apply Hfold in Hx. set_solver.
Qed.

Lemma is_prefix_app p l : is_prefix p (p ++ l) = true.
Proof. induction p; simpl; [done|]. by rewrite Ascii.eqb_refl. Qed.

(** A path that [path.Clean] leaves alone and that is neither rooted, "." nor
    climbing consists of ordinary components only. *)
Lemma clean_fixpoint_ordinary p :
  IsAbs p = false → Clean p = p → p ≠ "." → p ≠ ".." → HasPrefix p "../" = false →
  Forall ordinary (split_list "/" (list_of p)).
Proof.
  intros Habs Hclean Hdot Hdd Hup. unfold Clean in Hclean. rewrite Habs in Hclean.
  set (ws := split_list "/" (list_of p)) in *.
  set (cc := clean_components false ws) in *.
  destruct (eqb_chars (join_list "/" cc) []) eqn:E; [congruence|].
  apply (f_equal list_of) in Hclean. rewrite list_of_string_of in Hclean.
  apply eqb_chars_false in E.
  assert (cc ≠ []) by (intros Hcc; by rewrite Hcc in E).
  assert (Forall (λ w, "/"%char ∉ w) cc) as Hsep.
  { apply Forall_forall. intros w Hw%clean_components_subset.
    by eapply Forall_forall in Hw; [|apply split_list_no_sep]. }
  assert (ws = cc) as Hws.
  { unfold ws. rewrite <-Hclean. by apply split_join. }
  destruct (clean_components_shape ws) as (us & k & Hcc & Hus). fold cc in Hcc.
  destruct k as [|k]; [by rewrite Hws, Hcc|exfalso].
  rewrite Hcc in Hclean. simpl in Hclean.
  destruct (replicate k dotdot ++ us) as [|w ws'].
  - apply Hdd, list_of_inj. by rewrite <-Hclean.
  - unfold HasPrefix in Hup. rewrite <-Hclean in Hup.
    change (is_prefix (list_of "../") (list_of "../" ++ join_list "/" (w :: ws')) = false)
      in Hup.
    by rewrite is_prefix_app in Hup.
Qed.

Lemma ordinary_string w : ordinary w → string_of w ≠ "" ∧ string_of w ≠ "." ∧ string_of w ≠ "..".
Proof.
  intros (?&?&?). split_and!; intros E%(f_equal list_of); by rewrite list_of_string_of in E.
Qed.

Lemma walk_ordinary dir ws :
  Forall ordinary ws → foldl walk_step dir (map string_of ws) = dir ++ map string_of ws.
Proof.
  intros Hws. revert dir. induction Hws as [|w ws Hw _ IH]; intros dir; simpl.
  - by rewrite app_nil_r.
  - destruct (ordinary_string w Hw) as (?&?&?). unfold walk_step at 2.
    rewrite !(proj2 (String.eqb_neq _ _)) by done. simpl. by rewrite IH, <-app_assoc.
Qed.

Section PathTheorems.
Context `{UnicodeLib}.

Lemma ValidatePath_inv p :
  ValidatePath p = Ok tt →
  p ≠ "" ∧ len p ≤ 240 ∧ ValidString p = true ∧ IsNormalString p = true ∧
  ContainsByte p "\" = false ∧ Forall ordinary (split_list "/" (list_of p)) ∧
  IsAbs p = false ∧
  Forall (λ r, safe_rune r = true) (runes p) ∧
  Forall (λ w, reserved_part w = false) (Split p "/").
Proof.
  unfold ValidatePath. intros Hp. ok_step Hp. ok_step Hp. bool_prop.
  destruct r. apply for_each_ok in E, Hp.
  split_and!; try done; try lia.
  - apply clean_fixpoint_ordinary; try done. 
  - eapply Forall_impl; [exact E|]. cbv beta. intros r. by destruct (safe_rune r).
  - eapply Forall_impl; [exact Hp|]. cbv beta. intros w. by destruct (reserved_part w).
Qed.

(** An accepted artifact path stays inside whatever directory it is joined
    to: resolving it appends exactly its components to the directory (no "..",
    ".", empty or absolute step), the components are never ".git" in any case
    and never end in a dot or a space, and the bytes contain no backslash,
    control character or colon. *)
Theorem ValidatePath_confined p dir :
  ValidatePath p = Ok tt →
  resolve dir p = dir ++ Split p "/" ∧
  Forall (λ w, w ≠ "" ∧ w ≠ "." ∧ w ≠ ".." ∧ ToLowerASCII w ≠ ".git" ∧
               HasSuffix w "." = false ∧ HasSuffix w " " = false) (Split p "/") ∧
  ContainsByte p "\" = false ∧ Forall (λ r, IsControl r = false ∧ r ≠ 58) (runes p).
Proof.
  intros Hp. apply ValidatePath_inv in Hp as (_&_&_&_&?&Hord&Habs&Hr&Hres).
  unfold resolve. unfold IsAbs in Habs. rewrite Habs.
  split; [by apply walk_ordinary|]. split; [|split; [done|]].
  - apply Forall_forall. intros w Hw.
    eapply Forall_forall in Hres; [|exact Hw].
    unfold Split in Hw. apply list_elem_of_fmap in Hw as (l & -> & Hl).
    eapply Forall_forall in Hord; [|exact Hl].
    destruct (ordinary_string l Hord) as (?&?&?).
    unfold reserved_part, EqualFoldASCII in Hres. bool_prop. split_and!; try done.
  - eapply Forall_impl; [exact Hr|]. intros r Hsr. unfold safe_rune in Hsr.
    bool_prop. split; [done|lia].
Qed.

End PathTheorems.

(** An instance for evaluation: ASCII only. *)
Module AsciiUnicode.
#[export] Instance ascii_unicode : UnicodeLib := {|
  IsNormalString := forallb (λ c, byte_val c <? 128) ∘ list_of;
  Fold := ToLowerASCII;
  ToLowerRune := id
|}.
End AsciiUnicode.

Lemma ValidatePath_confined_witness :
  resolve ["srv"; "artifacts"] "data/run-1/points.csv" =
  ["srv"; "artifacts"; "data"; "run-1"; "points.csv"].
Proof.
  exact (proj1 (@ValidatePath_confined AsciiUnicode.ascii_unicode "data/run-1/points.csv"
           ["srv"; "artifacts"] eq_refl)).
Defined.
