(* ===== verification/Measurement.v ===== *)
(** Typed measurements and paired timing: [MeasurementNumber] (evaluation.go) and measurement.go
    up to [ValidateTimingEvidence].  The statistical core is [medianIntervalIndex], the
    order-statistic confidence interval of the median; it is proved to be the largest index
    whose exact binomial coverage reaches the requested confidence, and a summary's bounds
    are order statistics around the median. *)

From S2P Require Import Prelude Regex GoLib Numbers Types Scores Paths.
From stdpp Require Import sorting.
From Stdlib Require Import Ascii QArith Lqa.
Open Scope Z_scope.

(** * Exact measurement values *)

Definition MeasurementNumber (value kind : string) : result Q :=
  if kind ==s "integer" then
    let! n := ParseTicks value in Ok (inject_Z n)
  else if kind ==s "decimal" then decimal value
  else if kind ==s "rational" then
    match Split value "/" with
    | [p0; p1] =>
        let! n := ParseTicks p0 in
        let! d := ParseTicks p1 or "rational denominator must be positive" in
        if Z.sgn d <=? 0 then Err "rational denominator must be positive" else
        if negb (Z.gcd n d =? 1) then Err "rational must be reduced" else
        Ok (Qmake n (Z.to_pos d))
    | _ => Err "rational measurement requires reduced numerator/denominator"
    end
  else Err "unknown measurement type".

Definition rationalString (r : Q) : string :=
  int_string (Qnum r) +:+ "/" +:+ int_string (Zpos (Qden r)).

(** [r.Cmp(s)] of two rationals. *)
Definition RatCmp (r s : Q) : Z :=
  match (r ?= s)%Q with Lt => -1 | Eq => 0 | Gt => 1 end.

(** * The confidence interval of the median *)

(** [new(big.Int).Binomial(n, k)]: the product formula, dividing exactly at each
    step. *)
Fixpoint Binomial (n : Z) (k : nat) : Z :=
  match k with
  | O => 1
  | S k' => Binomial n k' * (n - Z.of_nat k') / Z.of_nat (S k')
  end.

(** The loop of [medianIntervalIndex]; [todo] is the number of iterations left. *)
Fixpoint median_loop (n target : Z) (todo k : nat) (sum : Z) (answer : nat) : nat :=
  match todo with
  | O => answer
  | S todo =>
      let sum := sum + Binomial n (k - 1) in
      if sum * 2000000 <=? target
      then median_loop n target todo (S k) sum k
      else answer
  end.

Definition medianIntervalIndex (n confidencePPM : Z) : nat :=
  let denom := Z.shiftl 1 n in
  let target := denom * (1000000 - confidencePPM) in
  median_loop n target (Z.to_nat (Z.quot (n + 1) 2)) 1 0 0.

Section Policy.
Context `{UnicodeLib}.

Definition ValidateMeasurementPolicy (p : MeasurementPolicy) : result unit :=
  if (measurementPolicy_Estimator p !=s "paired-median-ratio")
     || (measurementPolicy_Order p !=s "alternating")
     || (measurementPolicy_Warmups p <? 1) || (measurementPolicy_Warmups p >? 100)
     || (measurementPolicy_Repetitions p <? 9) || (measurementPolicy_Repetitions p >? 255)
     || (measurementPolicy_ConfidencePPM p <? 900000)
     || (measurementPolicy_ConfidencePPM p >? 999999)
  then Err "unsupported or insufficient paired measurement schedule" else
  if is_err (ValidatePath (TrimSuffix (measurementPolicy_BaselinePath p) "/"))
     || negb (HasPrefix (measurementPolicy_BaselinePath p) "baseline/")
     || is_err (validateStageArgv (measurementPolicy_BaselineBuild p))
     || is_err (validateStageArgv (measurementPolicy_BaselineRun p))
  then Err "frozen baseline source path and commands required" else
  if negb (ValidDigest (measurementPolicy_BaselineDigest p))
     || negb (boundedText (measurementPolicy_TimerBoundary p))
     || negb (boundedText (measurementPolicy_Population p))
  then Err "baseline bytes, timer boundary and target population must be frozen" else
  let! width := decimal (measurementPolicy_MaxRelativeWidth p)
    or "relative interval width must be in (0,1]" in
  if (Sign width <=? 0) || (RatCmp width 1 >? 0)
  then Err "relative interval width must be in (0,1]" else
  let! gain := decimal (measurementPolicy_MinimumSpeedup p)
    or "practical speedup must exceed one" in
  if RatCmp gain 1 <=? 0 then Err "practical speedup must exceed one" else
  if (medianIntervalIndex (measurementPolicy_Repetitions p)
        (measurementPolicy_ConfidencePPM p) <? 1)%nat
  then Err "too few trials for the requested median confidence" else Ok tt.

(** * Paired timing *)

(** [86400e9] nanoseconds. *)
Definition maxTrialNanos : Z := 86400000000000.

Definition bad_duration (t : TimingTrial) : bool :=
  (timingTrial_BaselineNanos t <=? 0) || (timingTrial_CandidateNanos t <=? 0)
  || (timingTrial_BaselineNanos t >? maxTrialNanos)
  || (timingTrial_CandidateNanos t >? maxTrialNanos).

(** [t.BaselineFirst != (i%2 == 0)] *)
Definition bad_order (i : nat) (t : TimingTrial) : bool :=
  negb (eqb (timingTrial_BaselineFirst t) (Nat.even i)).

Definition trial_ratio (t : TimingTrial) : Q :=
  Qred (Qmake (timingTrial_BaselineNanos t) (Z.to_pos (timingTrial_CandidateNanos t))).

Definition check_trial (i : nat) (t : TimingTrial) : result unit :=
  if negb (timingTrial_QualityPassed t)
  then Err "quality failure cannot be excluded from measured trials" else
  if bad_duration t then Err "invalid trusted duration" else
  if bad_order i t then Err "measured order differs from locked alternation" else
  Ok tt.

#[export] Instance Qle_decision : RelDecision Qle := λ x y, Z_le_dec _ _.
(** [sort.Slice(ratios, ...)]: the ratios are reduced, so equal ones are
    identical and the sorted slice is unique. *)
Definition sort_ratios (l : list Q) : list Q := merge_sort Qle l.

(** [median]: the middle ratio, or the mean of the two middle ones. *)
Definition median_of (ratios : list Q) : option Q :=
  let n := length ratios in
  match ratios !! (n / 2)%nat with
  | None => None
  | Some mid =>
      if Nat.even n then
        match ratios !! (n / 2 - 1)%nat with
        | Some below => Some (Qred (Qred (mid + below) / 2))
        | None => None
        end
      else Some mid
  end.

(** Indexing outside the slice is a run-time panic. *)
Definition index_panic : string := "panic: index out of range".

(** The errors of the two decimals are discarded; comparing with the nil result
    would panic. *)
Definition nil_panic : string := "panic: nil pointer dereference".

Definition SummarizeTimings (trials : list TimingTrial) (p : MeasurementPolicy)
    : result TimingSummary :=
  let! _ := ValidateMeasurementPolicy p in
  if negb (lenl trials =? measurementPolicy_Repetitions p)
  then Err "missing or extra measured trials" else
  let! _ := for_each_i check_trial 0 trials in
  let ratios := sort_ratios (map trial_ratio trials) in
  let n := length ratios in
  let k := medianIntervalIndex (Z.of_nat n) (measurementPolicy_ConfidencePPM p) in
  match median_of ratios, (if (k =? 0)%nat then None else ratios !! (k - 1)%nat),
        (if (n <? k)%nat then None else ratios !! (n - k)%nat) with
  | Some median, Some lower, Some upper =>
      let width := Qred (Qred (upper - lower) / median) in
      let! maxWidth := decimal (measurementPolicy_MaxRelativeWidth p) or nil_panic in
      let! minimum := decimal (measurementPolicy_MinimumSpeedup p) or nil_panic in
      let wide := RatCmp width maxWidth >? 0 in
      Ok {| timingSummary_MedianRatio := rationalString median;
            timingSummary_LowerRatio := rationalString lower;
            timingSummary_UpperRatio := rationalString upper;
            timingSummary_ConfidencePPM := measurementPolicy_ConfidencePPM p;
            timingSummary_AcceptedTrials := Z.of_nat n;
            timingSummary_Outcome := if wide then "inconclusive" else "valid";
            timingSummary_PracticalGain :=
              if wide then false else RatCmp lower minimum >=? 0 |}
  | _, _, _ => Err index_panic
  end.

Definition check_warmup (i : nat) (t : TimingTrial) : result unit :=
  if negb (timingTrial_QualityPassed t) || bad_duration t || bad_order i t
  then Err "warmup failed or order changed" else Ok tt.

Definition ValidateTimingEvidence (e : TimingEvidence) (p : MeasurementPolicy)
    : result TimingSummary :=
  if (timingEvidence_BaselineDigest e !=s measurementPolicy_BaselineDigest p)
     || negb (lenl (timingEvidence_Warmups e) =? measurementPolicy_Warmups p)
  then Err "baseline or warmup schedule mismatch" else
  let! _ := for_each_i check_warmup 0 (timingEvidence_Warmups e) in
  let! summary := SummarizeTimings (timingEvidence_Trials e) p in
  if bool_decide (summary = timingEvidence_Summary e) then Ok summary
  else Err "reported timing summary differs from raw paired evidence".
End Policy.

(** * Binomial coefficients *)

(** Pascal's triangle. *)
Fixpoint choose (n k : nat) : Z :=
  match n, k with
  | _, O => 1
  | O, S _ => 0
  | S n, S k => choose n k + choose n (S k)
  end.

Lemma choose_0_r n : choose n 0 = 1.
Proof. by destruct n. Qed.

Lemma choose_gt n k : (n < k)%nat → choose n k = 0.
Proof.
  revert k. induction n as [|n IH]; intros [|k] Hk; simpl; try lia.
  rewrite !IH; lia.
Qed.

Lemma choose_absorb n k :
  (Z.of_nat n - Z.of_nat k) * choose n k = Z.of_nat (S k) * choose n (S k).
Proof.
  revert k. induction n as [|n IH]; intros k.
  { destruct k; simpl; lia. }
  destruct k as [|k].
  - pose proof (IH O) as H0. rewrite choose_0_r in H0. cbn [choose].
    rewrite !choose_0_r. lia.
  - pose proof (IH k) as Hk. pose proof (IH (S k)) as HSk. cbn [choose]. nia.
Qed.

Lemma Binomial_choose n k : Binomial (Z.of_nat n) k = choose n k.
Proof.
  induction k as [|k IH]; [by destruct n|]. cbn [Binomial]. rewrite IH.
  rewrite Z.mul_comm, choose_absorb, Z.mul_comm. apply Z.div_mul. lia.
Qed.

(** * Sums *)

(** [f a + f (a+1) + ... + f (a+m-1)] *)
Definition sum_seq (f : nat → Z) (a m : nat) : Z := foldr Z.add 0 (f <$> seq a m).

Lemma sum_seq_S_r f a m : sum_seq f a (S m) = sum_seq f a m + f (a + m)%nat.
Proof.
  unfold sum_seq. rewrite seq_S, fmap_app, foldr_app. simpl.
  generalize (f <$> seq a m). intros l. induction l; simpl; lia.
Qed.

Lemma sum_seq_app f a m m' : sum_seq f a (m + m') = sum_seq f a m + sum_seq f (a + m) m'.
Proof.
  induction m' as [|m' IH].
  - rewrite Nat.add_0_r. unfold sum_seq at 3. simpl. lia.
  - rewrite Nat.add_succ_r, !sum_seq_S_r, IH, Nat.add_assoc. lia.
Qed.

Lemma sum_seq_ext f g a m :
  (∀ i, (a ≤ i < a + m)%nat → f i = g i) → sum_seq f a m = sum_seq g a m.
Proof.
  intros Hfg. induction m as [|m IH]; [done|].
  rewrite !sum_seq_S_r, IH by (intros; apply Hfg; lia). f_equal. apply Hfg. lia.
Qed.

Lemma sum_choose n : sum_seq (choose n) 0 (S n) = 2 ^ Z.of_nat n.
Proof.
  induction n as [|n IH]; [done|].
  assert (∀ m, sum_seq (choose (S n)) 0 (S m) =
               sum_seq (choose n) 0 (S m) + sum_seq (choose n) 0 m) as Hp.
  { induction m as [|m IHm]; [by rewrite !sum_seq_S_r; unfold sum_seq; simpl; rewrite !choose_0_r|].
    rewrite sum_seq_S_r, IHm, !sum_seq_S_r. simpl. lia. }
  rewrite Hp, sum_seq_S_r, IH. simpl. rewrite choose_gt by lia.
  rewrite Nat2Z.inj_succ, Z.pow_succ_r by lia. lia.
Qed.

Lemma choose_diag n : choose n n = 1.
Proof. induction n as [|n IH]; [done|]. simpl. rewrite IH, choose_gt; lia. Qed.

Lemma choose_sym n k : (k ≤ n)%nat → choose n k = choose n (n - k).
Proof.
  revert k. induction n as [|n IH]; intros k Hk; [by replace k with O by lia|].
  destruct k as [|k]; simpl; [by rewrite choose_diag, choose_gt by lia|].
  destruct (decide (k = n)) as [->|].
  - rewrite Nat.sub_diag, choose_diag, choose_gt by lia. done.
  - replace (n - k)%nat with (S (n - S k)) by lia.
    rewrite (IH k), (IH (S k)) by lia.
    replace (n - k)%nat with (S (n - S k)) by lia. lia.
Qed.

(** The two tails of the binomial row are equal. *)
Lemma tail_sym n k :
  (k ≤ S n)%nat → sum_seq (choose n) (S n - k) k = sum_seq (choose n) 0 k.
Proof.
  induction k as [|k IH]; intros Hk; [done|].
  rewrite (sum_seq_S_r _ 0 k). replace (S n - S k)%nat with (n - k)%nat by lia.
  change (S k) with (1 + k)%nat. rewrite sum_seq_app.
  replace (n - k + 1)%nat with (S n - k)%nat by lia. rewrite IH by lia.
  unfold sum_seq at 1. simpl. rewrite (choose_sym n k) by lia. lia.
Qed.

(** * The order-statistic interval *)

(** How many of the [2^n] equally likely sign patterns of [n] trials leave the
    median between the [k]-th smallest and the [k]-th largest value: the number of
    trials below the median is at least [k] and at most [n-k]. *)
Definition coverage (n k : nat) : Z := sum_seq (choose n) k (S n - 2 * k).

Lemma coverage_tail n k :
  (2 * k ≤ S n)%nat → coverage n k = 2 ^ Z.of_nat n - 2 * sum_seq (choose n) 0 k.
Proof.
  intros Hk. rewrite <-sum_choose.
  replace (S n) with (k + ((S n - 2 * k) + k))%nat at 1 by lia.
  rewrite !sum_seq_app. fold (coverage n k). simpl (0 + k)%nat.
  replace (k + (S n - 2 * k))%nat with (S n - k)%nat by lia.
  rewrite tail_sym by lia. unfold coverage. simpl (0 + k)%nat. lia.
Qed.

(** The loop condition at index [k]. *)
Definition median_cond (n : nat) (target : Z) (k : nat) : Prop :=
  sum_seq (choose n) 0 k * 2000000 ≤ target.

Lemma choose_nonneg n k : 0 ≤ choose n k.
Proof. revert k. induction n as [|n IH]; intros [|k]; simpl; try lia. pose proof (IH k). pose proof (IH (S k)). lia. Qed.

Lemma median_cond_mono n target j k :
  (j ≤ k)%nat → median_cond n target k → median_cond n target j.
Proof.
  unfold median_cond. induction 1 as [|k Hjk IH]; [done|].
  rewrite sum_seq_S_r. pose proof (choose_nonneg n (0 + k)). intros. apply IH. lia.
Qed.

Lemma median_loop_spec n target todo k answer :
  (1 ≤ k)%nat → answer = (k - 1)%nat → (1 ≤ answer → median_cond n target answer)%nat →
  let r := median_loop (Z.of_nat n) target todo k (sum_seq (choose n) 0 (k - 1)) answer in
  (answer ≤ r < k + todo)%nat ∧ ((1 ≤ r)%nat → median_cond n target r) ∧
  ((S r < k + todo)%nat → ¬ median_cond n target (S r)).
Proof.
  revert k answer. induction todo as [|todo IH]; intros k answer Hk -> Hans; simpl.
  { split; [lia|]. split; [done|lia]. }
  rewrite Binomial_choose.
  replace (sum_seq (choose n) 0 (k - 1) + choose n (k - 1)) with (sum_seq (choose n) 0 k).
  2: { replace k with (S (k - 1)) at 1 by lia. rewrite sum_seq_S_r. done. }
  destruct (Z.leb_spec (sum_seq (choose n) 0 k * 2000000) target) as [Hc|Hc].
  - specialize (IH (S k) k). replace (S k - 1)%nat with k in IH by lia.
    destruct IH as (? & ? & ?); [lia|done|done|].
    split; [lia|]. split; [done|]. intros. auto with lia.
  - split; [lia|]. split; [done|]. intros _. replace (S (k - 1)) with k by lia.
    unfold median_cond. lia.
Qed.

Lemma medianIntervalIndex_cond n ppm :
  let a := medianIntervalIndex (Z.of_nat n) ppm in
  let target := 2 ^ Z.of_nat n * (1000000 - ppm) in
  (2 * a ≤ S n)%nat ∧ ((1 ≤ a)%nat → median_cond n target a) ∧
  (∀ k, (a < k)%nat → (2 * k ≤ S n)%nat → ¬ median_cond n target k).
Proof.
  unfold medianIntervalIndex. rewrite Z.shiftl_1_l.
  replace (Z.to_nat (Z.quot (Z.of_nat n + 1) 2)) with (S n / 2)%nat.
  2: { rewrite Z.quot_div_nonneg by lia. replace (Z.of_nat n + 1) with (Z.of_nat (S n)) by lia.
       change 2 with (Z.of_nat 2). rewrite <-Nat2Z.inj_div. lia. }
  set (target := 2 ^ Z.of_nat n * (1000000 - ppm)).
  pose proof (median_loop_spec n target (S n / 2) 1 0) as Hl.
  change (sum_seq (choose n) 0 (1 - 1)) with 0 in Hl.
  destruct Hl as (? & ? & Hmax); [lia|done|lia|].
  pose proof (Nat.Div0.mul_div_le (S n) 2).
  split; [lia|]. split; [done|]. intros k Hk Hkn Hc.
  apply Hmax; [|eapply median_cond_mono; [|exact Hc]; lia].
  assert (k ≤ S n / 2)%nat by (apply Nat.div_le_lower_bound; lia). lia.
Qed.

(** The confidence interval of the median is exact and tightest.  For [n]
    trials the returned index [a] stays in the lower half; if it is not zero, the
    interval from the [a]-th smallest to the [a]-th largest ratio covers the
    population median with probability at least [ppm] millionths under the exact
    binomial law; and every larger index of the lower half has strictly less
    coverage than requested. *)
Theorem medianIntervalIndex_exact n ppm :
  let a := medianIntervalIndex (Z.of_nat n) ppm in
  (2 * a ≤ S n)%nat ∧
  ((1 ≤ a)%nat → ppm * 2 ^ Z.of_nat n ≤ 1000000 * coverage n a) ∧
  (∀ k, (a < k)%nat → (2 * k ≤ S n)%nat → 1000000 * coverage n k < ppm * 2 ^ Z.of_nat n).
Proof.
  destruct (medianIntervalIndex_cond n ppm) as (Ha & Hc & Hmax).
  set (a := medianIntervalIndex (Z.of_nat n) ppm) in *. simpl.
  split; [done|]. unfold median_cond in *. split.
  - intros H1. specialize (Hc H1). rewrite coverage_tail by done. lia.
  - intros k Hk Hkn. specialize (Hmax k Hk Hkn). rewrite coverage_tail by done. lia.
Qed.

(** * Printed rationals *)

Definition reduced (r : Q) : Prop := Z.gcd (Qnum r) (Zpos (Qden r)) = 1.

Lemma Qred_reduced r : reduced (Qred r).
Proof. apply gcd_Qred. Qed.

Lemma Qred_bounds r :
  Z.abs (Qnum (Qred r)) ≤ Z.abs (Qnum r) ∧ Zpos (Qden (Qred r)) ≤ Zpos (Qden r).
Proof.
  destruct r as [n d]. unfold Qred. pose proof (Z.ggcd_correct_divisors n (Zpos d)) as Hdiv.
  pose proof (Z.ggcd_gcd n (Zpos d)) as Hg.
  destruct (Z.ggcd n (Zpos d)) as [g [nn dd]]. destruct Hdiv as [Hn Hd].
  cbn [Qnum Qden fst snd] in *.
  assert (0 < g) by (subst g; pose proof (Z.gcd_nonneg n (Zpos d));
    assert (Z.gcd n (Zpos d) ≠ 0) by (intros [_ ?]%Z.gcd_eq_0; lia); lia).
  assert (0 < dd) by nia. rewrite Z2Pos.id by done. split; [|nia].
  rewrite Hn, Z.abs_mul, (Z.abs_eq g) by lia. nia.
Qed.

(** A reduced rational with short operands survives printing and parsing. *)
Lemma rationalString_parse r :
  reduced r → Z.abs (Qnum r) < 10 ^ 100 → Zpos (Qden r) < 10 ^ 100 →
  MeasurementNumber (rationalString r) "rational" = Ok r.
Proof.
  intros Hr Hn Hd. unfold MeasurementNumber. simpl.
  assert (Split (rationalString r) "/" =
          [int_string (Qnum r); int_string (Zpos (Qden r))]) as ->.
  { unfold Split, rationalString.
    rewrite !list_of_app. simpl (list_of "/").
    assert (∀ z, "/"%char ∉ list_of (int_string z)) as Hno.
    { intros z Hin. apply int_string_chars in Hin as [Hd'|Hd']; discriminate Hd'. }
    simpl. rewrite split_list_app_sep, split_list_no by apply Hno.
    simpl. by rewrite !string_of_list_of. }
  pose proof (len_int_string (Qnum r) 100). pose proof (len_int_string (Zpos (Qden r)) 100).
  rewrite !ParseTicks_int_string by lia. unfold reduced in Hr. rewrite Hr.
  destruct r as [n d]. done.
Qed.

(** * Sorted ratios *)

#[export] Instance Qle_total : Total Qle.
Proof. intros x y. destruct (Qlt_le_dec x y); [left; by apply Qlt_le_weak|by right]. Qed.
#[export] Instance Qle_transitive : Transitive Qle.
Proof. intros x y z. apply Qle_trans. Qed.

Lemma sort_ratios_perm l : sort_ratios l ≡ₚ l.
Proof. apply merge_sort_Permutation. Qed.

Lemma sort_ratios_lookup l i j x y :
  sort_ratios l !! i = Some x → sort_ratios l !! j = Some y → (i ≤ j)%nat → (x <= y)%Q.
Proof.
  intros Hi Hj Hij. assert (StronglySorted Qle (sort_ratios l)) as Hs.
  { apply StronglySorted_merge_sort; apply _. }
  destruct (decide (i = j)) as [->|]; [rewrite Hi in Hj; injection Hj as ->; apply Qle_refl|].
  revert i j Hi Hj Hij n. induction Hs as [|a l' Hs IH Hall]; intros i j Hi Hj Hij Hne.
  { by rewrite lookup_nil in Hi. }
  destruct i as [|i], j as [|j]; simpl in *; try lia.
  - injection Hi as ->. rewrite Forall_forall in Hall. apply Hall.
    by eapply list_elem_of_lookup_2.
  - eapply IH; eauto; lia.
Qed.

(** * Comparisons of rationals *)

Lemma RatCmp_pos r s : 0 < RatCmp r s ↔ (s < r)%Q.
Proof. unfold RatCmp. rewrite Qgt_alt. destruct (r ?= s)%Q; naive_solver lia. Qed.
Lemma RatCmp_nonpos r s : RatCmp r s ≤ 0 ↔ (r <= s)%Q.
Proof. unfold RatCmp. rewrite Qle_alt. destruct (r ?= s)%Q; naive_solver lia. Qed.
Lemma RatCmp_neg r s : RatCmp r s < 0 ↔ (r < s)%Q.
Proof. unfold RatCmp. rewrite Qlt_alt. destruct (r ?= s)%Q; naive_solver lia. Qed.
Lemma RatCmp_nonneg r s : 0 ≤ RatCmp r s ↔ (s <= r)%Q.
Proof. unfold RatCmp. rewrite Qge_alt. destruct (r ?= s)%Q; naive_solver lia. Qed.

(** Guards on rationals, after [bool_prop]. *)
Ltac rat_prop :=
  repeat match goal with
  | H : 0 < RatCmp _ _ |- _ => apply RatCmp_pos in H
  | H : RatCmp _ _ <= 0 |- _ => apply RatCmp_nonpos in H
  | H : RatCmp _ _ < 0 |- _ => apply RatCmp_neg in H
  | H : 0 <= RatCmp _ _ |- _ => apply RatCmp_nonneg in H
  | H : 0 < Sign _ |- _ => apply Sign_pos in H
  end.

(** * The timing summary *)

Section Summary.
Context `{UnicodeLib}.

Lemma ValidateMeasurementPolicy_inv p :
  ValidateMeasurementPolicy p = Ok tt →
  9 ≤ measurementPolicy_Repetitions p ≤ 255 ∧
  1 ≤ measurementPolicy_Warmups p ≤ 100 ∧
  900000 ≤ measurementPolicy_ConfidencePPM p ≤ 999999 ∧
  (∃ w, decimal (measurementPolicy_MaxRelativeWidth p) = Ok w ∧ (0 < w <= 1)%Q) ∧
  (∃ g, decimal (measurementPolicy_MinimumSpeedup p) = Ok g ∧ (1 < g)%Q) ∧
  (1 ≤ medianIntervalIndex (measurementPolicy_Repetitions p)
         (measurementPolicy_ConfidencePPM p))%nat.
Proof.
  unfold ValidateMeasurementPolicy. intros Hp. ok_steps Hp. bool_prop.
  rat_prop. apply Nat.ltb_ge in G4. split_and!; try lia; eauto.
Qed.

Lemma check_trial_inv i t :
  check_trial i t = Ok tt →
  timingTrial_QualityPassed t = true ∧
  0 < timingTrial_BaselineNanos t ≤ maxTrialNanos ∧
  0 < timingTrial_CandidateNanos t ≤ maxTrialNanos ∧
  timingTrial_BaselineFirst t = Nat.even i.
Proof.
  unfold check_trial, bad_duration, bad_order. intros Ht. ok_steps Ht. bool_prop.
  apply eqb_prop in G1. split_and!; (done || lia).
Qed.

(** Ratios of accepted trials are positive, reduced and short. *)
Definition trial_bound (r : Q) : Prop :=
  (0 < r)%Q ∧ reduced r ∧ Z.abs (Qnum r) ≤ maxTrialNanos ∧ Zpos (Qden r) ≤ maxTrialNanos.

Lemma trial_ratio_bound i t : check_trial i t = Ok tt → trial_bound (trial_ratio t).
Proof.
  intros Ht. apply check_trial_inv in Ht as (_ & Hb & Hc & _).
  unfold trial_bound, trial_ratio. split.
  - rewrite Qred_correct. unfold Qlt. simpl. lia.
  - split; [apply Qred_reduced|].
    pose proof (Qred_bounds (timingTrial_BaselineNanos t # Z.to_pos (timingTrial_CandidateNanos t)))
      as [Hn Hd]. cbn [Qnum Qden] in Hn, Hd. rewrite Z2Pos.id in Hd by lia. lia.
Qed.

Lemma sorted_trial_bound trials :
  for_each_i check_trial 0 trials = Ok tt →
  Forall trial_bound (sort_ratios (map trial_ratio trials)).
Proof.
  intros Ht. rewrite for_each_i_ok in Ht. rewrite sort_ratios_perm.
  apply Forall_forall. intros r Hr. apply list_elem_of_fmap in Hr as (t & -> & Hin).
  apply list_elem_of_lookup in Hin as [i Hi]. eapply trial_ratio_bound. by apply Ht.
Qed.

Lemma trial_bound_short r :
  trial_bound r → MeasurementNumber (rationalString r) "rational" = Ok r.
Proof.
  intros (_ & ? & ? & ?). apply rationalString_parse; [done|..];
    eapply Z.le_lt_trans; try eassumption; unfold maxTrialNanos; lia.
Qed.

(** The median of a nonempty sorted slice lies between any two order statistics
    symmetric around the middle, and prints back. *)
Lemma median_of_spec l k lower upper :
  let ratios := sort_ratios l in
  Forall trial_bound ratios → (1 ≤ k)%nat → (2 * k ≤ S (length ratios))%nat →
  ratios !! (k - 1)%nat = Some lower → ratios !! (length ratios - k)%nat = Some upper →
  ∃ m, median_of ratios = Some m ∧ (lower <= m)%Q ∧ (m <= upper)%Q ∧
       MeasurementNumber (rationalString m) "rational" = Ok m.
Proof.
  intros ratios Hall Hk1 Hk Hlo Hup. unfold median_of.
  set (n := length ratios) in *.
  pose proof (Nat.div_mod_eq n 2) as Hdm. pose proof (Nat.mod_upper_bound n 2 ltac:(lia)).
  destruct (ratios !! (n / 2)%nat) as [mid|] eqn:Hmid.
  2: { apply lookup_ge_None in Hmid. apply lookup_lt_Some in Hup. fold n in Hmid, Hup. lia. }
  assert (trial_bound mid) as Hbm.
  { eapply Forall_lookup_1 in Hall; [exact Hall|exact Hmid]. }
  destruct (Nat.even n) eqn:Hev.
  - apply Nat.even_spec in Hev as [h Hh].
    assert (n / 2 = h)%nat as Hnh by (rewrite Hh, Nat.mul_comm; apply Nat.div_mul; lia).
    rewrite Hnh in *.
    destruct (ratios !! (h - 1)%nat) as [below|] eqn:Hbelow.
    2: { apply lookup_ge_None in Hbelow. apply lookup_lt_Some in Hmid. lia. }
    assert (trial_bound below) as Hbb.
    { eapply Forall_lookup_1 in Hall; [exact Hall|exact Hbelow]. }
    eexists. split; [done|].
    assert (lower <= below)%Q as H1 by (eapply sort_ratios_lookup; eauto; lia).
    assert (below <= mid)%Q as H2 by (eapply sort_ratios_lookup; eauto; lia).
    assert (mid <= upper)%Q as H3 by (eapply sort_ratios_lookup; eauto; lia).
    assert (Qred (Qred (mid + below) / 2) == (mid + below) * (1 # 2))%Q as HE.
    { rewrite !Qred_correct. unfold Qdiv. reflexivity. }
    split; [rewrite HE; lra|]. split; [rewrite HE; lra|].
    apply rationalString_parse; [apply Qred_reduced|..].
    + pose proof (Qred_bounds (Qred (mid + below) / 2)) as [Hn _].
      pose proof (Qred_bounds (mid + below)) as [Hn' _].
      destruct Hbm as (_&_&?&?), Hbb as (_&_&?&?). unfold maxTrialNanos in *.
      eapply Z.le_lt_trans; [exact Hn|].
      change (Qnum (Qred (mid + below) / 2)) with (Qnum (Qred (mid + below)) * 1).
      rewrite Z.mul_1_r. eapply Z.le_lt_trans; [exact Hn'|]. cbn [Qnum Qplus]. nia.
    + pose proof (Qred_bounds (Qred (mid + below) / 2)) as [_ Hn].
      pose proof (Qred_bounds (mid + below)) as [_ Hn'].
      destruct Hbm as (_&_&?&?), Hbb as (_&_&?&?). unfold maxTrialNanos in *.
      eapply Z.le_lt_trans; [exact Hn|].
      change (Zpos (Qden (Qred (mid + below) / 2))) with (Zpos (Qden (Qred (mid + below)) * 2)).
      change (Zpos (Qden (mid + below))) with (Zpos (Qden mid * Qden below)) in Hn'.
      rewrite Pos2Z.inj_mul in *. nia.
  - exists mid. split; [done|].
    assert (Nat.odd n = true) as [h Hh]%Nat.odd_spec by (by rewrite <-Nat.negb_even, Hev).
    split; [eapply sort_ratios_lookup; eauto; lia|].
    split; [eapply sort_ratios_lookup; eauto; lia|]. by apply trial_bound_short.
Qed.

(** An accepted measured pair at position [i] of the schedule. *)
Definition trial_ok (i : nat) (t : TimingTrial) : Prop :=
  timingTrial_QualityPassed t = true ∧
  0 < timingTrial_BaselineNanos t ≤ maxTrialNanos ∧
  0 < timingTrial_CandidateNanos t ≤ maxTrialNanos ∧
  timingTrial_BaselineFirst t = Nat.even i.

Lemma check_trial_ok i t : check_trial i t = Ok tt ↔ trial_ok i t.
Proof.
  split; [apply check_trial_inv|]. intros (Hq & Hb & Hc & Ho).
  unfold check_trial, bad_duration, bad_order. rewrite Hq, Ho, eqb_reflx. simpl.
  rewrite !Z.gtb_ltb, !(proj2 (Z.leb_gt _ _)), !(proj2 (Z.ltb_ge _ _)) by lia. done.
Qed.

(** What a summary reports of the sorted ratios. *)
Record summary_of (trials : list TimingTrial) (p : MeasurementPolicy) (s : TimingSummary)
    (lower median upper : Q) : Prop := {
  so_lower : sort_ratios (map trial_ratio trials) !!
    (medianIntervalIndex (lenl trials) (measurementPolicy_ConfidencePPM p) - 1)%nat = Some lower;
  so_upper : sort_ratios (map trial_ratio trials) !!
    (length trials - medianIntervalIndex (lenl trials) (measurementPolicy_ConfidencePPM p))%nat
      = Some upper;
  so_order : (0 < lower)%Q ∧ (lower <= median)%Q ∧ (median <= upper)%Q;
  so_lower_text : MeasurementNumber (timingSummary_LowerRatio s) "rational" = Ok lower;
  so_median_text : MeasurementNumber (timingSummary_MedianRatio s) "rational" = Ok median;
  so_upper_text : MeasurementNumber (timingSummary_UpperRatio s) "rational" = Ok upper;
  so_outcome : ∃ w, decimal (measurementPolicy_MaxRelativeWidth p) = Ok w ∧
    (timingSummary_Outcome s = "valid" ∧ ((upper - lower) / median <= w)%Q ∨
     timingSummary_Outcome s = "inconclusive" ∧ (w < (upper - lower) / median)%Q);
  so_gain : timingSummary_PracticalGain s = true ↔
    timingSummary_Outcome s = "valid" ∧
    ∃ g, decimal (measurementPolicy_MinimumSpeedup p) = Ok g ∧ (1 < g)%Q ∧ (g <= lower)%Q
}.

Lemma SummarizeTimings_total trials p :
  ValidateMeasurementPolicy p = Ok tt →
  lenl trials = measurementPolicy_Repetitions p →
  for_each_i check_trial 0 trials = Ok tt →
  ∃ s lower median upper,
    SummarizeTimings trials p = Ok s ∧ summary_of trials p s lower median upper.
Proof.
  intros Hp Hlen Hch. unfold SummarizeTimings. rewrite Hp, Hlen, Z.eqb_refl, Hch. simpl.
  pose proof (ValidateMeasurementPolicy_inv p Hp)
    as (Hreps & _ & _ & (w & Hw & _) & (g & Hg & Hg1) & Hk1).
  pose proof (sorted_trial_bound trials Hch) as Hall.
  set (ratios := sort_ratios (map trial_ratio trials)) in *.
  assert (length ratios = length trials) as Hn.
  { unfold ratios. by rewrite sort_ratios_perm, length_map. }
  rewrite Hn. rewrite <-Hlen in Hk1. fold (lenl trials).
  destruct (medianIntervalIndex_cond (length trials) (measurementPolicy_ConfidencePPM p))
    as (Hk2 & _ & _). fold (lenl trials) in Hk2.
  set (k := medianIntervalIndex (lenl trials) (measurementPolicy_ConfidencePPM p)) in *.
  unfold lenl in Hlen.
  destruct (lookup_lt_is_Some_2 ratios (k - 1)) as [lower Hlo]; [lia|].
  destruct (lookup_lt_is_Some_2 ratios (length trials - k)) as [upper Hup]; [lia|].
  destruct (median_of_spec (map trial_ratio trials) k lower upper)
    as (m & Hm & ? & ? & ?); [done|done|by fold ratios; rewrite Hn|done|by fold ratios; rewrite Hn|].
  fold ratios in Hm. rewrite Hm.
  rewrite (proj2 (Nat.eqb_neq k 0)), (proj2 (Nat.ltb_ge (length trials) k)) by lia.
  rewrite Hlo, Hup, Hw, Hg.
  pose proof (Forall_lookup_1 _ _ _ _ Hall Hlo) as Hbl.
  pose proof (Forall_lookup_1 _ _ _ _ Hall Hup) as Hbu.
  eexists _, lower, m, upper. split; [reflexivity|].
  assert (Qred (Qred (upper - lower) / m) == (upper - lower) / m)%Q as Hwid
    by (by rewrite !Qred_correct).
  split; simpl; try done.
  - split; [apply Hbl|done].
  - by apply trial_bound_short.
  - by apply trial_bound_short.
  - exists w. split; [done|]. destruct (_ >? 0) eqn:Ew; bool_prop; rat_prop.
    + right. by rewrite <-Hwid.
    + left. by rewrite <-Hwid.
  - destruct (_ >? 0) eqn:Ew; [split; [done|by intros [? _]]|].
    split.
    + intros Hge. bool_prop. rat_prop. eauto.
    + intros (_ & g' & Hg' & _ & Hle). rewrite Z.geb_leb. apply Z.leb_le, RatCmp_nonneg.
      by replace g with g' by congruence.
Qed.

Lemma SummarizeTimings_inv trials p s :
  SummarizeTimings trials p = Ok s →
  ValidateMeasurementPolicy p = Ok tt ∧ lenl trials = measurementPolicy_Repetitions p ∧
  for_each_i check_trial 0 trials = Ok tt ∧
  ∃ lower median upper, summary_of trials p s lower median upper.
Proof.
  intros Hs. pose proof Hs as Hinv. unfold SummarizeTimings in Hinv. do 3 ok_step Hinv.
  bool_prop. destruct r, r0. split_and!; try done.
  destruct (SummarizeTimings_total trials p) as (s'&?&?&?&Hs'&?); try done.
  rewrite Hs in Hs'. injection Hs' as <-. eauto.
Qed.

(** Paired timings are summarised exactly when the policy is valid, every
    scheduled pair is present, passed its quality check, has in-range durations
    and respects the alternation; no index of the sorted ratios is out of range.
    The summary then reports, as texts that parse back exactly, the order
    statistics of the confidence interval around the median; it is inconclusive
    exactly when the relative width exceeds the policy, and claims a practical
    gain exactly when it is conclusive and even the lower bound reaches the
    minimum speedup. *)
Theorem SummarizeTimings_correct trials p :
  (is_ok (SummarizeTimings trials p) = true ↔
   ValidateMeasurementPolicy p = Ok tt ∧ lenl trials = measurementPolicy_Repetitions p ∧
   ∀ i t, trials !! i = Some t → trial_ok i t) ∧
  (∀ s, SummarizeTimings trials p = Ok s →
   ∃ lower median upper, summary_of trials p s lower median upper).
Proof.
  assert (∀ l, (for_each_i check_trial 0 l = Ok tt) ↔
    ∀ i t, l !! i = Some t → trial_ok i t) as Hall.
  { intros l. rewrite for_each_i_ok. by setoid_rewrite check_trial_ok. }
  split; [|by intros s (_ & _ & _ & ?)%SummarizeTimings_inv]. split.
  - destruct (SummarizeTimings trials p) as [s|] eqn:Hs; [|done]. intros _.
    apply SummarizeTimings_inv in Hs as (?&?&?&_). by rewrite Hall in *.
  - intros (?&?&?%Hall). by destruct (SummarizeTimings_total trials p) as (?&?&?&?&->&_).
Qed.
End Summary.
