(* ===== verification/Evaluation.v ===== *)
(** Evaluation contracts: evaluation.go (rationale, contract validation, executor
    matching, declared measurements, achievement predicates) and proof.go (build
    products and proof contracts). *)

From S2P Require Import Prelude Regex GoLib Numbers Types Scores Paths Measurement.
From Stdlib Require Import Ascii QArith.
Open Scope Z_scope.

(** A loop body that rejects a key already in [seen] and records it. *)
Definition once (seen : gset string) (key : string) (bad : bool) (msg : string)
    : result (gset string) :=
  if bad || bool_decide (key ∈ seen) then Err msg else Ok ({[key]} ∪ seen).

Lemma once_ok seen key bad msg seen' :
  once seen key bad msg = Ok seen' ↔ bad = false ∧ key ∉ seen ∧ seen' = {[key]} ∪ seen.
Proof.
  unfold once. destruct bad; simpl; [naive_solver|].
  case_bool_decide; naive_solver.
Qed.

Definition member (s : string) (l : list string) : bool := existsb (String.eqb s) l.

(** * The metric rationale *)

Definition ValidateMetricRationale (r : MetricRationale) (sources : list Source) : result unit :=
  let! _ := for_each
    (λ s, if boundedText s then Ok tt else
      Err "metric rationale requires substantive objective, interpretation, baseline, delta and bounded claim")
    [metricRationale_Objective r; metricRationale_ImprovementMeaning r;
     metricRationale_BaselineReason r; metricRationale_MeaningfulDelta r;
     metricRationale_PermittedClaim r] in
  let! _ := for_each
    (λ l, if (lenl l <? 1) || (lenl l >? 32)
          then Err "metric rationale requires preserved conditions, proxy attacks and excluded claims"
          else for_each
            (λ s, if boundedText s then Ok tt else
              Err "metric rationale contains an empty or oversized argument") l)
    [metricRationale_PreservedConditions r; metricRationale_ProxyAttacks r;
     metricRationale_ExcludedClaims r] in
  if (lenl (metricRationale_EvidenceURLs r) <? 1) || (lenl (metricRationale_EvidenceURLs r) >? 30)
  then Err "metric rationale must cite supporting evidence" else
  let! _ := foldM
    (λ seen u, once seen u (negb (existsb (λ s, source_URL s ==s u) sources))
       "metric rationale references absent or duplicate evidence")
    ∅ (metricRationale_EvidenceURLs r) in
  Ok tt.

Section Evaluation.
Context `{UnicodeLib}.

(** * Build products and proof contracts (proof.go) *)

(** [int64(x) << 20] *)
Definition shl20 (x : Z) : Z := wrap64 (Z.shiftl x 20).

Definition product_step (st : gset string * Z) (product : BuildProduct)
    : result (gset string * Z) :=
  let '(seen, total) := st in
  let! seen := once seen (buildProduct_Path product)
    (is_err (ValidatePath (buildProduct_Path product))
     || (buildProduct_MaxBytes product <? 1)
     || (buildProduct_MaxBytes product >? Z.shiftl 16 30))
    "invalid frozen build product" in
  Ok (seen, wrap64 (total + buildProduct_MaxBytes product)).

Definition validateBuildProducts (p : CandidateProgram) : result unit :=
  if lenl (candidateProgram_Products p) >? 64 then Err "too many declared build products" else
  let! st := foldM product_step (∅, 0) (candidateProgram_Products p) in
  if st.2 >? shl20 (candidateProgram_ScratchMB p)
  then Err "build products exceed candidate scratch budget" else Ok tt.

Definition axiom_step (seen : gset string) (name : string) : result (gset string) :=
  once seen name ((name ==s "") || (len name >? 256)
    || ContainsByte name "010" || ContainsByte name "013" || ContainsByte name "000")
    "invalid or repeated allowed axiom".

Definition validateProofContract (e : EvaluationContract) : result unit :=
  let mode := evaluationContract_Mode e in
  match evaluationContract_Proof e with
  | None =>
      if mode !=s "proof" then Ok tt else
      (* the mode is "proof", so only the missing contract is reported *)
      Err "proof requires a frozen statement, certificate and replay description"
  | Some p =>
      if (mode !=s "proof") && (mode !=s "performance")
      then Err "proof contract requires proof or proof-checked performance evaluation" else
      if is_err (ValidatePath (proofContract_StatementPath p))
         || negb (HasPrefix (proofContract_StatementPath p) "statements/")
         || negb (ValidDigest (proofContract_StatementDigest p))
         || is_err (ValidatePath (proofContract_CertificatePath p))
         || (len (TrimSpace (proofContract_CheckDescription p)) <? 20)
         || (len (proofContract_CheckDescription p) >? 8192)
      then Err "proof requires a frozen statement, certificate and replay description" else
      if negb (member (proofContract_Format p) ["drat"; "lean"; "other"])
      then Err "unknown proof format" else
      if (lenl (proofContract_AllowedAxioms p) >? 128)
         || (proofContract_Format p ==s "drat")
            && negb (lenl (proofContract_AllowedAxioms p) =? 0)
      then Err "invalid axiom policy" else
      let! _ := foldM axiom_step ∅ (proofContract_AllowedAxioms p) in
      match evaluationContract_Program e with
      | None => Ok tt
      | Some prog =>
          if existsb (λ product, buildProduct_Path product ==s proofContract_CertificatePath p)
               (candidateProgram_Products prog)
          then Ok tt
          else Err "compiled proof certificate must be a declared sealed product"
      end
  end.

(** * The evaluation contract *)

Definition validateExecutor (r : ExecutorRequirements) : result (gset string) :=
  if negb (member (executorRequirements_OS r) ["linux"; "darwin"])
     || negb (member (executorRequirements_Architecture r) ["amd64"; "arm64"])
  then Err "unsupported executor architecture or OS" else
  if negb (member (executorRequirements_Accelerator r) ["none"; "metal"; "cuda"])
  then Err "unknown accelerator" else
  if (executorRequirements_Accelerator r ==s "metal")
     && ((executorRequirements_OS r !=s "darwin")
         || (executorRequirements_Architecture r !=s "arm64"))
  then Err "Metal requires macOS arm64" else
  if (executorRequirements_Accelerator r ==s "cuda")
     && (executorRequirements_OS r !=s "linux")
  then Err "CUDA requires a Linux executor" else
  if (lenl (executorRequirements_Features r) =? 0)
     || (lenl (executorRequirements_Features r) >? 32)
  then Err "explicit executor capabilities required" else
  let! features := foldM
    (λ seen f, once seen f (negb (matches identifierPattern f))
       "invalid or repeated capability") ∅ (executorRequirements_Features r) in
  if negb (bool_decide ("isolated-checker" ∈ features))
  then Err "isolated checker capability required" else Ok features.

(** One declared measurement; the state is the number of primaries seen and the
    names used. *)
Definition measurement_step (m : Metric) (st : Z * gset string) (d : MeasurementDefinition)
    : result (Z * gset string) :=
  let '(primary, names) := st in
  let! names := once names (measurementDefinition_Name d)
    (negb (matches identifierPattern (measurementDefinition_Name d))
     || (measurementDefinition_Unit d ==s "")
     || negb (boundedText (measurementDefinition_Definition d)))
    "invalid measurement definition" in
  if negb (member (measurementDefinition_Type d) ["integer"; "decimal"; "rational"])
  then Err "unknown measurement type" else
  let! primary :=
    (if measurementDefinition_Role d ==s "primary" then
       if (measurementDefinition_Name d !=s metric_Name m)
          || (measurementDefinition_Unit d !=s metric_Unit m)
       then Err "primary measurement must match ranking metric" else Ok (primary + 1)
     else if member (measurementDefinition_Role d) ["constraint"; "diagnostic"]
     then Ok primary else Err "unknown measurement role") in
  if negb (member (measurementDefinition_Interpretation d)
             ["direct"; "bound"; "proxy"; "search-gradient"])
  then Err "unknown scientific metric interpretation" else
  let! min :=
    (if measurementDefinition_Minimum d ==s "" then Ok None else
     let! x := MeasurementNumber (measurementDefinition_Minimum d)
                 (measurementDefinition_Type d) in Ok (Some x)) in
  let! _ :=
    (if measurementDefinition_Maximum d ==s "" then Ok tt else
     let! max := MeasurementNumber (measurementDefinition_Maximum d)
                   (measurementDefinition_Type d) in
     match min with
     | Some min => if RatCmp min max >? 0 then Err "measurement bounds reversed" else Ok tt
     | None => Ok tt
     end) in
  Ok (primary, names).

Definition validateMeasurementDefinitions (e : EvaluationContract) (m : Metric) : result unit :=
  if (lenl (evaluationContract_Measurements e) =? 0)
     || (lenl (evaluationContract_Measurements e) >? 32)
  then Err "one to thirty-two declared public measurements required" else
  let! st := foldM (measurement_step m) (0, ∅) (evaluationContract_Measurements e) in
  if negb (st.1 =? 1)
  then Err "exactly one primary measurement required; use separate tracks for incomparable objectives"
  else Ok tt.

Definition validateStageBudget (p : CandidateProgram) (resources : Resources) (b : StageBudget)
    : result unit :=
  if (stageBudget_MaxFileBytes b <? 0)
     || (stageBudget_MaxFileBytes b >? shl20 (candidateProgram_ScratchMB p))
  then Err "file budget exceeds bounded candidate work space" else
  if (stageBudget_TimeoutSeconds b <? 1)
     || (stageBudget_TimeoutSeconds b >? resources_TimeoutSeconds resources)
     || (stageBudget_MemoryMB b <? 32)
     || (stageBudget_MemoryMB b >? wrap64 (resources_MemoryMB resources - 256))
     || (stageBudget_MaxOutputBytes b <? 1)
     || (stageBudget_MaxOutputBytes b >? Z.shiftl 1 30)
     || (stageBudget_MaxProcesses b <? 1) || (stageBudget_MaxProcesses b >? 256)
  then Err "stage budget exceeds session envelope" else Ok tt.

Definition validateProgram (e : EvaluationContract) (features : gset string)
    (resources : Resources) : result unit :=
  let mode := evaluationContract_Mode e in
  let program := evaluationContract_Program e in
  let has_program := bool_decide (is_Some program) in
  let! _ :=
    (if (mode ==s "program") || (mode ==s "performance") || (mode ==s "proof") && has_program
     then if negb has_program || negb (bool_decide ("isolated-candidate" ∈ features))
          then Err "program evaluation requires an isolated candidate and frozen program contract"
          else Ok tt
     else if has_program
     then Err "artifact mode cannot silently execute submitted programs" else Ok tt) in
  match program with
  | None => Ok tt
  | Some p =>
      let! _ := validateStageArgv (candidateProgram_Build p) in
      let! _ := validateStageArgv (candidateProgram_Run p) in
      let minimumRuns :=
        if (mode ==s "proof") && (lenl (candidateProgram_Products p) >? 0) then 0 else 1 in
      if (candidateProgram_MaxRuns p <? 1) || (candidateProgram_MaxRuns p >? 10000)
         || (candidateProgram_MinRuns p <? minimumRuns)
         || (candidateProgram_MinRuns p >? candidateProgram_MaxRuns p)
         || (candidateProgram_ScratchMB p <? 16)
         || (candidateProgram_ScratchMB p >? resources_MemoryMB resources)
      then Err "invalid candidate run count or scratch budget" else
      if (lenl (candidateProgram_Products p) >? 0)
         && negb (bool_decide ("sealed-products" ∈ features))
      then Err "build products require an enrolled sealed-products capability" else
      let! _ := validateBuildProducts p in
      for_each (validateStageBudget p resources)
        [candidateProgram_BuildBudget p; candidateProgram_RunBudget p]
  end.

Definition validatePerformance (e : EvaluationContract) (m : Metric) (features : gset string)
    : result unit :=
  if evaluationContract_Mode e ==s "performance" then
    match evaluationContract_Measurement e with
    | None => Err "performance evaluation requires locked hardware and trusted measurement policy"
    | Some policy =>
        if negb (bool_decide ("trusted-timing" ∈ features))
           || (executorRequirements_HardwareClass (evaluationContract_Executor e) ==s "")
        then Err "performance evaluation requires locked hardware and trusted measurement policy" else
        if metric_Direction m !=s "maximize" then Err "paired speedup must be maximized" else
        let! baselineTicks := NormalizeScore "1" m
          or "paired speedup baseline must represent a ratio of exactly one" in
        if baselineTicks !=s metric_BaselineTicks m
        then Err "paired speedup baseline must represent a ratio of exactly one" else
        let! _ := for_each
          (λ d, if (measurementDefinition_Role d ==s "primary")
                   && (measurementDefinition_Type d !=s "rational")
                then Err "paired timing primary is the exact rational lower confidence bound"
                else Ok tt) (evaluationContract_Measurements e) in
        let! _ := ValidateMeasurementPolicy policy in
        match evaluationContract_Program e with
        | None => Err nil_panic
        | Some program =>
            if candidateProgram_MaxRuns program <?
               wrap64 (2 * wrap64 (measurementPolicy_Warmups policy
                                   + measurementPolicy_Repetitions policy))
            then Err "candidate run budget cannot complete paired measurement schedule" else Ok tt
        end
    end
  else if bool_decide (is_Some (evaluationContract_Measurement e))
  then Err "timing policy requires performance mode" else Ok tt.

Definition asset_step (features : gset string) (names : gset string) (a : EvaluationAsset)
    : result (gset string) :=
  let! names := once names (evaluationAsset_Name a)
    (negb (matches identifierPattern (evaluationAsset_Name a))
     || negb (ValidDigest (evaluationAsset_Digest a))
     || (evaluationAsset_Size a <? 1) || (evaluationAsset_Size a >? Z.shiftl 1 40))
    "invalid immutable asset binding" in
  if negb (member (evaluationAsset_Domain a) [""; "candidate"; "checker"])
  then Err "unknown asset execution domain" else
  if (evaluationAsset_Purpose a ==s "toolchain")
     && ((evaluationAsset_Domain a !=s "candidate") || (evaluationAsset_Visibility a !=s "public"))
  then Err "toolchain assets must be isolated candidate-only public inputs" else
  if (evaluationAsset_Domain a ==s "checker") && (evaluationAsset_Purpose a !=s "proof")
  then Err "executable checker assets require reviewed proof-tool purpose" else
  if (evaluationAsset_Domain a !=s "") && negb (bool_decide ("asset-domains" ∈ features))
  then Err "asset domains require an enrolled capability" else
  if negb (member (evaluationAsset_Visibility a) ["public"; "hidden"])
  then Err "asset disclosure policy required" else
  if negb (member (evaluationAsset_Purpose a) ["toolchain"; "weights"; "dataset"; "proof"])
  then Err "unknown asset purpose" else Ok names.

Definition ValidateEvaluation (e : EvaluationContract) (m : Metric) (sources : list Source)
    (resources : Resources) : result unit :=
  if (evaluationContract_Version e !=s EvaluationVersion)
     || negb (matches identifierPattern (evaluationContract_ComparisonID e))
  then Err "unsupported evaluation version or comparison identity" else
  if negb (member (evaluationContract_Mode e) ["artifact"; "proof"; "program"; "performance"])
  then Err "unknown evaluation mode" else
  let! _ := ValidateMetricRationale (evaluationContract_Rationale e) sources in
  let! features := validateExecutor (evaluationContract_Executor e) in
  let! _ := validateMeasurementDefinitions e m in
  let! _ := validateProgram e features resources in
  let! _ := validatePerformance e m features in
  if ((evaluationContract_Mode e ==s "proof")
      || bool_decide (is_Some (evaluationContract_Proof e)))
     && negb (bool_decide ("native-proof-checker" ∈ features))
  then Err "proof evaluation requires a proof-checker capability" else
  if (evaluationContract_Mode e ==s "performance")
     && bool_decide (is_Some (evaluationContract_Proof e))
     && negb (bool_decide ("proof-timing-composition" ∈ features))
  then Err "proof-checked timing requires an enrolled composed pipeline" else
  let! _ := validateProofContract e in
  if lenl (evaluationContract_Assets e) >? 16 then Err "too many immutable assets" else
  let! _ := foldM (asset_step features) ∅ (evaluationContract_Assets e) in
  Ok tt.
End Evaluation.

(** * Matching an executor *)

Definition MatchExecutor (e : EvaluationContract) (resources : Resources) (runtimeDigest : string)
    (c : ExecutorCapabilities) : result unit :=
  let r := evaluationContract_Executor e in
  if (executorRequirements_OS r !=s executorCapabilities_OS c)
     || (executorRequirements_Architecture r !=s executorCapabilities_Architecture c)
     || (executorRequirements_Accelerator r !=s executorCapabilities_Accelerator c)
     || (executorRequirements_HardwareClass r !=s "")
        && (executorRequirements_HardwareClass r !=s executorCapabilities_HardwareClass c)
  then Err "no matching operating system, architecture, accelerator or hardware class" else
  if negb (ValidDigest runtimeDigest)
     || (runtimeDigest !=s executorCapabilities_RuntimeImageDigest c)
  then Err "executor runtime differs from locked toolchain" else
  if (resources_VCPU resources >? executorCapabilities_MaxVCPU c)
     || (resources_MemoryMB resources >? executorCapabilities_MaxMemoryMB c)
     || (resources_TimeoutSeconds resources >? executorCapabilities_MaxSessionSeconds c)
  then Err "executor has insufficient resources" else
  let! _ := for_each
    (λ asset, if existsb (λ available, bool_decide (asset = available))
                   (executorCapabilities_Assets c)
              then Ok tt else Err "executor lacks immutable asset")
    (evaluationContract_Assets e) in
  for_each
    (λ required, if member required (executorCapabilities_Features c)
                 then Ok tt else Err "executor lacks capability")
    (executorRequirements_Features r).

(** * Measurements and achievement predicates *)

Definition check_bound (kind bound : string) (out : Q → bool) (msg : string) : result unit :=
  if bound ==s "" then Ok tt else
  match MeasurementNumber bound kind with
  | Ok b => if out b then Err msg else Ok tt
  | Err _ => Err msg
  end.

Definition check_measurement (values : gmap string string) (d : MeasurementDefinition)
    : result unit :=
  match values !! measurementDefinition_Name d with
  | None => Err "missing measurement"
  | Some v =>
      let! x := MeasurementNumber v (measurementDefinition_Type d) in
      let! _ := check_bound (measurementDefinition_Type d) (measurementDefinition_Minimum d)
        (λ bound, RatCmp x bound <? 0) "measurement below declared domain" in
      check_bound (measurementDefinition_Type d) (measurementDefinition_Maximum d)
        (λ bound, RatCmp x bound >? 0) "measurement above declared domain"
  end.

Definition ValidateMeasurements (values : gmap string string) (e : EvaluationContract)
    : result unit :=
  if negb (Z.of_nat (size values) =? lenl (evaluationContract_Measurements e))
  then Err "missing or undeclared measurement; arbitrary diagnostics are forbidden" else
  for_each (check_measurement values) (evaluationContract_Measurements e).

Definition check_predicate (e : EvaluationContract) (p : MeasurementPredicate) : result unit :=
  if negb (member (measurementPredicate_Operator p) ["eq"; "ge"; "le"])
  then Err "invalid achievement comparison" else
  let! found := foldM
    (λ found d,
       if measurementDefinition_Name d ==s measurementPredicate_Measurement p then
         let! _ := MeasurementNumber (measurementPredicate_Value p)
                     (measurementDefinition_Type d) in Ok true
       else Ok found)
    false (evaluationContract_Measurements e) in
  if found then Ok tt else Err "achievement references undeclared measurement".

Definition ValidatePredicates (predicates : list MeasurementPredicate) (e : EvaluationContract)
    : result unit :=
  if lenl predicates >? 32 then Err "too many achievement predicates" else
  for_each (check_predicate e) predicates.

(** [p.Operator == "eq" && c != 0 || p.Operator == "ge" && c < 0 || ...] *)
Definition violates (op : string) (c : Z) : bool :=
  (op ==s "eq") && negb (c =? 0) || (op ==s "ge") && (c <? 0) || (op ==s "le") && (c >? 0).

(** The errors of the two parses are discarded by the code: after validation they
    cannot occur; a nil rational would panic in [Cmp]. *)
Definition meets_definition (values : gmap string string) (p : MeasurementPredicate)
    (d : MeasurementDefinition) : result bool :=
  if measurementDefinition_Name d ==s measurementPredicate_Measurement p then
    let! x := MeasurementNumber (default "" (values !! measurementDefinition_Name d))
                (measurementDefinition_Type d) or nil_panic in
    let! y := MeasurementNumber (measurementPredicate_Value p)
                (measurementDefinition_Type d) or nil_panic in
    Ok (negb (violates (measurementPredicate_Operator p) (RatCmp x y)))
  else Ok true.

(** Nested loops with an early [return false, nil]. *)
Fixpoint all_true {A} (f : A → result bool) (l : list A) : result bool :=
  match l with
  | [] => Ok true
  | x :: l => let! b := f x in if b then all_true f l else Ok false
  end.

Definition MeetsPredicates (values : gmap string string) (predicates : list MeasurementPredicate)
    (e : EvaluationContract) : result bool :=
  let! _ := ValidateMeasurements values e in
  let! _ := ValidatePredicates predicates e in
  all_true (λ p, all_true (meets_definition values p) (evaluationContract_Measurements e))
    predicates.
