(* ===== verification/Validate.v ===== *)
(** Manifests and candidates: validate.go, the verification policies of
    assurance.go and the job leases of lease.go. *)

From S2P Require Import Prelude Regex GoLib Numbers Types Scores Paths Measurement Evaluation.
From Stdlib Require Import Ascii QArith.
Open Scope Z_scope.

(** net/url: the three fields of a parsed URL the validators read. *)
Class UrlLib := { UrlParse : string → result (string * string * bool) }.

(** * Verification policies (assurance.go) *)

Definition VerificationPlatform : string := "platform".
Definition VerificationIndependent : string := "independent".

Definition ValidVerificationPolicy (policy : string) : bool :=
  (policy ==s VerificationPlatform) || (policy ==s VerificationIndependent).
Definition ManifestVerificationPolicy (m : Manifest) : string :=
  if manifest_VerificationPolicy m ==s "" then VerificationPlatform
  else manifest_VerificationPolicy m.
Definition LockVerificationPolicy (l : Lock) : string :=
  if lock_VerificationPolicy l ==s "" then VerificationIndependent
  else lock_VerificationPolicy l.
Definition JobVerificationPolicy (job : RunnerJob) : string :=
  if runnerJob_VerificationPolicy job ==s "" then VerificationIndependent
  else runnerJob_VerificationPolicy job.

(** * Job leases (lease.go) *)

Definition MaximumJobLease : Z := 18 * Hour.

(** [time.Duration] arithmetic is [int64] arithmetic in nanoseconds. *)
Definition JobLeaseDuration (m : Manifest) (purpose : string) : Z :=
  if manifest_APIVersion m !=s ManifestV2 then 15 * Minute else
  let seconds := wrap64 (resources_TimeoutSeconds (manifest_Resources m) + 60) in
  let seconds :=
    if purpose ==s "preflight"
    then wrap64 (seconds * wrap64 (2 * lenl (manifest_Fixtures m))) else seconds in
  let seconds := if purpose ==s "artifact_prepare" then 300 else seconds in
  let duration := wrap64 (wrap64 (seconds + 600) * Second) in
  let duration := if duration <? 15 * Minute then 15 * Minute else duration in
  if (duration >? MaximumJobLease) || (duration <? 0) then MaximumJobLease else duration.

Definition MatchJobLease (m : Manifest) (purpose : string) (c : ExecutorCapabilities) : bool :=
  let limit := if executorCapabilities_MaxJobSeconds c =? 0 then 900
               else executorCapabilities_MaxJobSeconds c in
  JobLeaseDuration m purpose <=? wrap64 (limit * Second).

(** * Shared pieces of manifests *)

Definition ValidateEducation (e : option Education) : result unit :=
  match e with
  | None => Err "education.frontier and education.significance are required: explain the research frontier and why metric progress matters"
  | Some e =>
      if (TrimSpace (education_Frontier e) ==s "") || (TrimSpace (education_Significance e) ==s "")
      then Err "education.frontier and education.significance are required: explain the research frontier and why metric progress matters" else
      if (len (education_Frontier e) >? 12000) || (len (education_Significance e) >? 12000)
      then Err "each education section must be at most 12,000 bytes" else Ok tt
  end.

Section Validate.
Context `{UnicodeLib} `{UrlLib}.

Definition check_source (source : Source) : result unit :=
  let! u := UrlParse (source_URL source) or "source requires an HTTPS URL" in
  let '(scheme, host, user) := u in
  if (scheme !=s "https") || (host ==s "") || user
  then Err "source requires an HTTPS URL" else
  if (TrimSpace (source_Title source) ==s "") || (TrimSpace (source_Evidence source) ==s "")
     || (TrimSpace (source_Location source) ==s "")
  then Err "source title, evidence and exact location required" else Ok tt.

Definition validateSources (sources : list Source) : result unit :=
  if (lenl sources =? 0) || (lenl sources >? 30)
  then Err "one to thirty evidence sources required" else
  for_each check_source sources.

Definition check_extension (format extension : string) : result unit :=
  if format ==s "source-v2" then
    if (len extension >? 17)
       || (extension !=s "") && negb (matches extensionPattern extension)
    then Err "invalid source extension" else Ok tt
  else if member extension [".json"; ".csv"; ".tsv"; ".txt"; ".dat"; ".npy"; ".bin"]
  then Ok tt else Err "unsupported data artifact extension".

Definition ValidateSubmissionContract (c : SubmissionContract) : result unit :=
  if (submissionContract_Format c !=s "") && (submissionContract_Format c !=s "source-v2")
  then Err "unknown artifact content format" else
  if (submissionContract_MaxBytes c <? 1) || (submissionContract_MaxBytes c >? Z.shiftl 64 20)
     || (submissionContract_MaxFiles c <? 1) || (submissionContract_MaxFiles c >? 4096)
     || (submissionContract_License c ==s "")
     || (lenl (submissionContract_AllowedPaths c) =? 0)
     || (lenl (submissionContract_AllowedPaths c) >? 32)
     || (lenl (submissionContract_AllowedExtensions c) =? 0)
  then Err "invalid submission limits/license/paths" else
  let! _ := for_each (λ p, ValidatePath (TrimSuffix p "/"))
              (submissionContract_AllowedPaths c) in
  for_each (check_extension (submissionContract_Format c))
    (submissionContract_AllowedExtensions c).

(** * The manifest *)

(** Evaluation extensions are tied to the explicit v2 manifest. *)
Definition validateManifestVersion (m : Manifest) : result unit :=
  if manifest_APIVersion m ==s APIVersion then
    if submissionContract_Format (manifest_Submission m) !=s ""
    then Err "versioned source submissions require a v2 manifest" else
    if bool_decide (is_Some (manifest_Evaluation m))
    then Err "evaluation extensions require an explicit v2 manifest" else
    for_each (λ ms, if negb (lenl (milestone_Requires ms) =? 0)
                    then Err "achievement predicates require an explicit v2 manifest"
                    else Ok tt) (manifest_Milestones m)
  else
    match manifest_Evaluation m with
    | None => Err "v2 requires a frozen evaluation contract and scientific metric rationale"
    | Some e =>
        let! _ := ValidateEvaluation e (manifest_Metric m) (manifest_Evidence m)
                    (manifest_Resources m) in
        for_each (λ ms, ValidatePredicates (milestone_Requires ms) e) (manifest_Milestones m)
    end.

(** The three exact quantities of the metric: baseline, minimum delta, tolerance. *)
Definition validateMetric (metric : Metric) : result (Z * Z * Z) :=
  if (metric_Name metric ==s "") || (metric_Unit metric ==s "")
  then Err "metric name and unit required" else
  let! q := decimal (metric_Quantum metric) or "invalid quantum" in
  if Sign q <=? 0 then Err "invalid quantum" else
  if (metric_Direction metric !=s "maximize") && (metric_Direction metric !=s "minimize")
  then Err "metric direction must be maximize or minimize" else
  let! baseline := ParseTicks (metric_BaselineTicks metric) in
  let! minimum := ParseTicks (metric_MinimumDeltaTicks metric)
    or "minimum delta must be positive integer ticks" in
  if Z.sgn minimum <=? 0 then Err "minimum delta must be positive integer ticks" else
  let! tolerance := ParseTicks (metric_ToleranceTicks metric)
    or "tolerance must be nonnegative ticks" in
  if Z.sgn tolerance <? 0 then Err "tolerance must be nonnegative ticks" else
  let! _ := for_each
    (λ bound, if (bound !=s "") && is_err (ParseTicks bound)
              then Err "invalid metric domain" else Ok tt)
    [metric_DomainMinTicks metric; metric_DomainMaxTicks metric] in
  if (metric_DomainMinTicks metric !=s "") && (metric_DomainMaxTicks metric !=s "")
     && (match CompareTicks (metric_DomainMinTicks metric) (metric_DomainMaxTicks metric) with
         | Ok cmp => cmp | Err _ => 0 end >=? 0)
  then Err "metric domain must increase" else
  Ok (baseline, minimum, tolerance).

(** [delta], negated when minimising. *)
Definition improvement (direction : string) (from to : Z) : Z :=
  if direction ==s "minimize" then - (to - from) else to - from.

Definition milestone_step (direction : string) (baseline minimum : Z)
    (st : Z * gset string) (milestone : Milestone) : result (Z * gset string) :=
  let '(previous, ids) := st in
  let! ids := once ids (milestone_ID milestone)
    (negb (matches identifierPattern (milestone_ID milestone))
     || (milestone_Title milestone ==s "") || (milestone_Rationale milestone ==s ""))
    "invalid or duplicate milestone" in
  let! ticks := ParseTicks (milestone_ThresholdTicks milestone) in
  if Z.sgn (improvement direction previous ticks) <=? 0
  then Err "milestone thresholds must strictly improve" else
  if Cmp (improvement direction baseline ticks) minimum <? 0
  then Err "milestone below meaningful delta" else
  Ok (ticks, ids).

Definition validateMilestones (m : Manifest) (baseline minimum : Z) : result unit :=
  if (lenl (manifest_Milestones m) =? 0) || (lenl (manifest_Milestones m) >? 50)
  then Err "one to fifty milestones required" else
  let! _ := foldM (milestone_step (metric_Direction (manifest_Metric m)) baseline minimum)
              (baseline, ∅) (manifest_Milestones m) in
  Ok tt.

Definition validateGates (gates : list string) : result unit :=
  if (lenl gates =? 0) || (lenl gates >? 32)
  then Err "one to thirty-two hard gates required" else
  let! _ := foldM (λ seen gate, once seen gate (negb (matches identifierPattern gate))
                     "invalid or duplicate hard gate") ∅ gates in
  Ok tt.

Definition evaluation_mode (m : Manifest) : string :=
  match manifest_Evaluation m with Some e => evaluationContract_Mode e | None => "" end.

Definition validateValidator (m : Manifest) : result unit :=
  let v := manifest_Validator m in
  let native := (manifest_APIVersion m ==s ManifestV2)
                && (validator_Profile v ==s "native-evaluator-v2") in
  if negb native && (validator_Profile v !=s "artifact-checker-v1")
     || (validator_DependencyLock v ==s "") || negb (ValidDigest (validator_RuntimeImageDigest v))
  then Err "locked, supported runtime profile and dependency lock required" else
  if (submissionContract_Format (manifest_Submission m) ==s "source-v2") && negb native
  then Err "executable source requires the native evaluation profile" else
  if native && ((evaluation_mode m ==s "program") || (evaluation_mode m ==s "performance"))
     && (submissionContract_Format (manifest_Submission m) !=s "source-v2")
  then Err "submitted programs require source-v2 artifact semantics" else
  if bool_decide (is_Some (manifest_Evaluation m)) && (evaluation_mode m !=s "artifact")
     && (validator_Profile v ==s "artifact-checker-v1")
  then Err "proof, program and performance evaluation require a separately enrolled native execution profile" else
  if is_err (ValidatePath (validator_DependencyLock v))
  then Err "dependency lock must be a safe relative source path" else
  match validator_Entrypoint v with
  | python :: checker :: _ =>
      if (lenl (validator_Entrypoint v) >? 16) || (python !=s "/usr/local/bin/python3")
      then Err "validator entrypoint must be a direct Python argv" else
      if negb (HasPrefix checker "/sl/challenge/") || (Clean checker !=s checker)
         || negb (HasSuffix checker ".py")
      then Err "validator entrypoint must name a locked Python checker" else
      for_each (λ arg, if (len arg >? 1024) || ContainsByte arg "000"
                       then Err "invalid argv" else Ok tt) (validator_Entrypoint v)
  | _ => Err "validator entrypoint must be a direct Python argv"
  end.

Definition validateSuite (s : Suite) : result unit :=
  if (suite_Visibility s !=s "public") && (suite_Visibility s !=s "hidden")
  then Err "suite visibility required" else
  if is_err (ValidatePath (TrimSuffix (suite_Path s) "/")) then Err "invalid suite path" else
  if (suite_Visibility s ==s "hidden") && negb (ValidDigest (suite_Commitment s))
  then Err "hidden suite requires precommitment" else Ok tt.

Definition validateResources (m : Manifest) : result unit :=
  let r := manifest_Resources m in
  let v2 := manifest_APIVersion m ==s ManifestV2 in
  if (resources_Class r !=s "cpu-small") && (resources_Class r !=s "cpu-medium")
     && negb (v2 && ((resources_Class r ==s "cpu-large") || (resources_Class r ==s "accelerator")))
  then Err "unsupported resource class" else
  let maxCPU := if v2 then 64 else 4 in
  let maxMemory := if v2 then 524288 else 8192 in
  let maxSeconds := if v2 then 7200 else 600 in
  if (resources_VCPU r <? 1) || (resources_VCPU r >? maxCPU)
     || (resources_MemoryMB r <? 128) || (resources_MemoryMB r >? maxMemory)
     || (resources_TimeoutSeconds r <? 1) || (resources_TimeoutSeconds r >? maxSeconds)
     || (resources_MaxOutputBytes r <? 1024) || (resources_MaxOutputBytes r >? 65536)
  then Err "resource class bounds exceeded" else
  if (lenl (manifest_Fixtures m) <? 4) || (lenl (manifest_Fixtures m) >? 100)
  then Err "at least baseline, valid, invalid and malformed fixtures required" else
  if v2 && (wrap64 (wrap64 (wrap64 (2 * lenl (manifest_Fixtures m))
                            * wrap64 (resources_TimeoutSeconds r + 60)) + 600) >? 18 * 3600)
  then Err "declared preflight schedule exceeds the 18-hour authorization envelope" else Ok tt.

Definition fixture_step (m : Manifest) (names : gset string) (f : Fixture)
    : result (gset string) :=
  let! names := once names (fixture_Name f) (negb (matches identifierPattern (fixture_Name f)))
    "invalid or duplicate fixture" in
  let! _ := ValidatePath (fixture_Path f) in
  let outcome := fixture_ExpectedOutcome f in
  if negb (member outcome ["valid"; "hard_gate_failed"; "invalid_output"; "resource_limit"])
  then Err "unsupported fixture outcome" else
  if (evaluation_mode m ==s "performance") && (fixture_ExpectedTicks f !=s "")
  then Err "measured fixtures use timing evidence, not predeclared exact ticks" else
  let! _ := (if fixture_ExpectedTicks f ==s "" then Ok 0 else
             ParseTicks (fixture_ExpectedTicks f)) in
  if (fixture_Name f ==s "baseline")
     && ((outcome !=s "valid")
         || (evaluation_mode m !=s "performance")
            && (fixture_ExpectedTicks f !=s metric_BaselineTicks (manifest_Metric m)))
  then Err "baseline fixture must declare the valid baseline ticks" else
  if (fixture_Name f ==s "valid") && (outcome !=s "valid")
  then Err "valid fixture must pass" else
  if (fixture_Name f ==s "invalid")
     && (outcome !=s "hard_gate_failed") && (outcome !=s "invalid_output")
  then Err "invalid fixture must fail a hard gate or parsing" else
  if (fixture_Name f ==s "malformed") && (outcome !=s "invalid_output")
  then Err "malformed fixture must fail parsing" else Ok names.

Definition validateFixtures (m : Manifest) : result unit :=
  let! names := foldM (fixture_step m) ∅ (manifest_Fixtures m) in
  for_each (λ required, if bool_decide (required ∈ names) then Ok tt
                        else Err "required fixture missing")
    ["baseline"; "valid"; "invalid"; "malformed"].

Definition ValidateManifest (m : Manifest) : result unit :=
  if negb (ValidVerificationPolicy (ManifestVerificationPolicy m))
  then Err "verification policy must be platform or independent" else
  if (manifest_APIVersion m !=s APIVersion) && (manifest_APIVersion m !=s ManifestV2)
     || (manifest_Kind m !=s "ChallengeManifest")
     || negb (matches identifierPattern (manifest_ID m))
     || (manifest_Producer m ==s "") || IsZero (manifest_CreatedAt m)
  then Err "invalid manifest identity/version" else
  let! _ := validateManifestVersion m in
  if (len (manifest_Slug m) >? 100) || negb (matches slugPattern (manifest_Slug m))
     || (len (manifest_Title m) <? 5) || (len (manifest_Title m) >? 160)
     || (manifest_Summary m ==s "") || (manifest_ScientificQuestion m ==s "")
     || (manifest_Impact m ==s "")
  then Err "scientific question, impact, title, summary and slug required" else
  let! _ := validateSources (manifest_Evidence m) in
  if lenl (manifest_Limitations m) =? 0
  then Err "explicit scientific limitations required" else
  if manifest_EconomicMode m !=s "none"
  then Err "only economicMode none is supported" else
  if (manifest_SafetyClassification m !=s "low-risk-computational")
     && (manifest_SafetyClassification m !=s "review-required")
  then Err "unsupported safety classification" else
  if negb (After (manifest_Deadline m) (manifest_CreatedAt m))
  then Err "deadline must follow creation" else
  let! bmt := validateMetric (manifest_Metric m) in
  let! _ := validateMilestones m bmt.1.1 bmt.1.2 in
  let! _ := validateGates (manifest_HardGates m) in
  let! _ := ValidateSubmissionContract (manifest_Submission m) in
  let! _ := validateValidator m in
  let! _ := validateSuite (manifest_Suite m) in
  let! _ := validateResources m in
  validateFixtures m.

(** * Candidates *)

Definition ValidateCandidate (c : Candidate) : result unit :=
  let v := candidate_PromptVersion c in
  if (candidate_APIVersion c !=s APIVersion) || (candidate_Kind c !=s "ChallengeCandidate")
     || negb (matches identifierPattern (candidate_ID c)) || (candidate_Producer c ==s "")
     || IsZero (candidate_CreatedAt c)
     || negb (member v [ScoutVersion; "1.8.0"; "1.7.0"; "1.6.0"; "1.5.0"; "1.4.0"; "1.3.0";
                        "1.2.0"; "1.1.0"; "1.0.0"])
  then Err "invalid candidate identity/version" else
  if negb (member (candidate_Disposition c) ["viable"; "needs_work"; "rejected"])
  then Err "invalid candidate disposition" else
  let! _ :=
    (if (lenl (candidate_Sources c) >? 0) || (candidate_Disposition c ==s "viable")
     then validateSources (candidate_Sources c) else Ok tt) in
  if (candidate_Disposition c ==s "viable") && negb (bool_decide (is_Some (candidate_Manifest c)))
  then Err "viable candidate requires manifest" else
  if (candidate_Disposition c ==s "rejected") && (lenl (candidate_Uncertainties c) =? 0)
  then Err "rejected candidate requires explicit reasons" else
  let! _ :=
    (if bool_decide (is_Some (candidate_Education c))
        || member v [ScoutVersion; "1.8.0"; "1.7.0"; "1.6.0"; "1.5.0"; "1.4.0"; "1.3.0"]
           && (candidate_Disposition c ==s "viable")
     then ValidateEducation (candidate_Education c) else Ok tt) in
  match candidate_Manifest c with
  | Some m => ValidateManifest m
  | None => Ok tt
  end.
End Validate.
