(* ===== verification/ValidateProofs.v ===== *)
(** What an accepted manifest guarantees (validate.go, lease.go, proof.go): the
    milestone ladder, the fixture set, and leases that cover the declared
    schedule. *)

From S2P Require Import Prelude Regex GoLib Numbers Types Scores Paths Measurement Evaluation.
From S2P Require Import Validate.
From Stdlib Require Import Ascii QArith.
Open Scope Z_scope.

Lemma improvement_trans d a b c :
  0 < improvement d a b → 0 < improvement d b c → 0 < improvement d a c.
Proof. unfold improvement. destruct (_ ==s _); lia. Qed.

(** The thresholds of a milestone list, each strictly better than the one before
    (starting from [previous]) and at least [minimum] better than [baseline]. *)
Inductive ladder (d : string) (baseline minimum : Z) : Z → list Milestone → Prop :=
| ladder_nil previous : ladder d baseline minimum previous []
| ladder_cons previous m ticks ms :
    ParseTicks (milestone_ThresholdTicks m) = Ok ticks →
    0 < improvement d previous ticks →
    minimum ≤ improvement d baseline ticks →
    ladder d baseline minimum ticks ms →
    ladder d baseline minimum previous (m :: ms).

Lemma ladder_all d baseline minimum previous ms :
  ladder d baseline minimum previous ms →
  ∀ i m, ms !! i = Some m → ∃ t, ParseTicks (milestone_ThresholdTicks m) = Ok t ∧
    0 < improvement d previous t ∧ minimum ≤ improvement d baseline t.
Proof.
  induction 1 as [|previous m ticks ms Ht Hp Hm Hl IH]; intros i x Hi; [by destruct i|].
  destruct i as [|i]; simpl in Hi; [simplify_eq; eauto|].
  destruct (IH i x Hi) as (t & ? & ? & ?). eauto using improvement_trans.
Qed.

Lemma ladder_strict d baseline minimum previous ms :
  ladder d baseline minimum previous ms →
  ∀ i j a b, (i < j)%nat → ms !! i = Some a → ms !! j = Some b →
  ∃ x y, ParseTicks (milestone_ThresholdTicks a) = Ok x ∧
         ParseTicks (milestone_ThresholdTicks b) = Ok y ∧ 0 < improvement d x y.
Proof.
  induction 1 as [|previous m ticks ms Ht Hp Hm Hl IH]; intros i j a b Hij Hi Hj; [by destruct i|].
  destruct i as [|i], j as [|j]; simpl in *; try lia.
  - simplify_eq. destruct (ladder_all _ _ _ _ _ Hl j b Hj) as (y & ? & ? & _). eauto.
  - eapply (IH i j); eauto; lia.
Qed.

Section Manifest.
Context `{UnicodeLib} `{UrlLib}.

Lemma milestone_step_inv d baseline minimum st m st' :
  milestone_step d baseline minimum st m = Ok st' →
  ∃ t, ParseTicks (milestone_ThresholdTicks m) = Ok t ∧ st'.1 = t ∧
    0 < improvement d st.1 t ∧ minimum ≤ improvement d baseline t ∧
    milestone_ID m ∉ st.2 ∧ st'.2 = {[milestone_ID m]} ∪ st.2.
Proof.
  unfold milestone_step. destruct st as [previous ids]. intros Hs.
  ok_step Hs. ok_step Hs. ok_step Hs. ok_step Hs. simplify_eq/=.
  apply once_ok in E as (_ & ? & ->). rewrite Cmp_ltb in *. bool_prop.
  exists r0. split_and!; (done || lia).
Qed.

Lemma foldM_ladder d baseline minimum st l r :
  foldM (milestone_step d baseline minimum) st l = Ok r →
  ladder d baseline minimum st.1 l.
Proof.
  revert st. induction l as [|x l IH]; intros st Hf; [constructor|].
  simpl in Hf. ok_step Hf.
  destruct (milestone_step_inv _ _ _ _ _ _ E) as (t & ? & Ht & ? & ? & _).
  apply IH in Hf. rewrite Ht in Hf. by econstructor.
Qed.

Lemma validateMilestones_ladder m baseline minimum :
  validateMilestones m baseline minimum = Ok tt →
  manifest_Milestones m ≠ [] ∧
  ladder (metric_Direction (manifest_Metric m)) baseline minimum baseline
    (manifest_Milestones m) ∧
  NoDup (milestone_ID <$> manifest_Milestones m).
Proof.
  unfold validateMilestones. intros Hm. ok_step Hm. bool_prop. ok_step Hm.
  split; [by intros E'; rewrite E' in *|]. split.
  - by apply (foldM_ladder _ _ _ _ _ _ E).
  - edestruct (foldM_distinct (milestone_step (metric_Direction (manifest_Metric m))
      baseline minimum) snd milestone_ID) as (? & _); [|exact E|done].
    intros s x s' (t & _ & _ & _ & _ & ? & ?)%milestone_step_inv. done.
Qed.

Lemma validateMetric_inv metric b mn tol :
  validateMetric metric = Ok (b, mn, tol) →
  ParseTicks (metric_BaselineTicks metric) = Ok b ∧
  ParseTicks (metric_MinimumDeltaTicks metric) = Ok mn ∧ 0 < mn ∧
  ParseTicks (metric_ToleranceTicks metric) = Ok tol ∧ 0 ≤ tol ∧
  (metric_Direction metric = "maximize" ∨ metric_Direction metric = "minimize") ∧
  ∃ q, decimal (metric_Quantum metric) = Ok q ∧ (0 < q)%Q.
Proof.
  unfold validateMetric. intros Hm. ok_steps Hm. simplify_eq.
  apply direction_known in G1. bool_prop.
  apply Sign_pos in G0. split_and!; try done; try lia; eauto.
Qed.

(** The parts of an accepted manifest. *)
Lemma ValidateManifest_inv m :
  ValidateManifest m = Ok tt →
  (manifest_APIVersion m = APIVersion ∨ manifest_APIVersion m = ManifestV2) ∧
  validateManifestVersion m = Ok tt ∧
  (∃ b mn tol, validateMetric (manifest_Metric m) = Ok (b, mn, tol) ∧
     validateMilestones m b mn = Ok tt) ∧
  validateGates (manifest_HardGates m) = Ok tt ∧
  ValidateSubmissionContract (manifest_Submission m) = Ok tt ∧
  validateValidator m = Ok tt ∧ validateSuite (manifest_Suite m) = Ok tt ∧
  validateResources m = Ok tt ∧ validateFixtures m = Ok tt.
Proof.
  unfold ValidateManifest. intros Hm. ok_steps Hm.
  repeat match goal with u : unit |- _ => destruct u end. bool_prop.
  split.
  - match goal with
    | Ha : (manifest_APIVersion m !=s APIVersion) && _ = false |- _ =>
        apply andb_false_iff in Ha as [Ha|Ha]; bool_prop; eauto
    end.
  - split_and!; try done. destruct r1 as [[b mn] tol]. eauto.
Qed.

(** * Properties *)

(** The milestones of an accepted manifest form a ladder: there is at least
    one, their identifiers are distinct, each threshold is at least the positive
    minimum delta better than the baseline in the metric's direction, and each
    later threshold is strictly better than every earlier one. *)
Theorem ValidateManifest_milestone_ladder m :
  ValidateManifest m = Ok tt →
  let d := metric_Direction (manifest_Metric m) in
  let ms := manifest_Milestones m in
  ∃ baseline minimum,
    ParseTicks (metric_BaselineTicks (manifest_Metric m)) = Ok baseline ∧
    ParseTicks (metric_MinimumDeltaTicks (manifest_Metric m)) = Ok minimum ∧ 0 < minimum ∧
    ms ≠ [] ∧ NoDup (milestone_ID <$> ms) ∧
    (∀ i a, ms !! i = Some a → ∃ x, ParseTicks (milestone_ThresholdTicks a) = Ok x ∧
       minimum ≤ improvement d baseline x) ∧
    (∀ i j a b, (i < j)%nat → ms !! i = Some a → ms !! j = Some b →
       ∃ x y, ParseTicks (milestone_ThresholdTicks a) = Ok x ∧
              ParseTicks (milestone_ThresholdTicks b) = Ok y ∧ 0 < improvement d x y).
Proof.
  intros Hm. apply ValidateManifest_inv in Hm as (_ & _ & (b & mn & tol & Hmet & Hms) & _).
  apply validateMetric_inv in Hmet as (? & ? & ? & _).
  apply validateMilestones_ladder in Hms as (? & Hl & ?).
  exists b, mn. split_and!; try done.
  - intros i a Hi. destruct (ladder_all _ _ _ _ _ Hl i a Hi) as (t & ? & _ & ?). eauto.
  - eapply ladder_strict, Hl.
Qed.
End Manifest.

(** * Leases *)

(** A job lease is always between fifteen minutes and eighteen hours, for any
    manifest and purpose, even where the [int64] arithmetic of the schedule wraps
    around. *)
Theorem JobLeaseDuration_bounded m purpose :
  15 * Minute ≤ JobLeaseDuration m purpose ≤ MaximumJobLease.
Proof.
  unfold JobLeaseDuration, MaximumJobLease, Hour, Minute, Second.
  destruct (manifest_APIVersion m !=s ManifestV2); [lia|].
  set (x := wrap64 (wrap64 _ * _)). clearbody x.
  destruct (Z.ltb_spec x (15 * (60 * 1000000000))); simpl.
  - lia.
  - destruct (x >? _) eqn:E; simpl; [lia|]. bool_prop.
    destruct (Z.ltb_spec x 0); lia.
Qed.

(** The seconds a declared job may need: both fresh runs of every fixture in a
    preflight, plus ten minutes. *)
Definition declared_seconds (m : Manifest) (purpose : string) : Z :=
  let session := resources_TimeoutSeconds (manifest_Resources m) + 60 in
  (if purpose ==s "preflight" then 2 * lenl (manifest_Fixtures m) * session else session) + 600.

Section Leases.
Context `{UnicodeLib} `{UrlLib}.

Lemma validateResources_inv m :
  validateResources m = Ok tt → manifest_APIVersion m = ManifestV2 →
  1 ≤ resources_TimeoutSeconds (manifest_Resources m) ≤ 7200 ∧
  4 ≤ lenl (manifest_Fixtures m) ≤ 100 ∧
  128 ≤ resources_MemoryMB (manifest_Resources m) ≤ 524288 ∧
  declared_seconds m "preflight" ≤ 18 * 3600.
Proof.
  unfold validateResources. intros Hr Hv. rewrite Hv in Hr. simpl in Hr.
  ok_steps Hr. bool_prop. unfold declared_seconds. simpl.
  rewrite (wrap64_id (2 * _)), (wrap64_id (resources_TimeoutSeconds _ + 60)) in G2
    by (unfold int64_range; lia).
  rewrite (wrap64_id (_ * _)), wrap64_id in G2 by (unfold int64_range; nia).
  split_and!; lia.
Qed.

(** Under an accepted v2 manifest the lease is never cut short: it equals the
    whole declared schedule (both fresh runs of all fixtures in a preflight, one
    session otherwise, ten minutes of slack), raised to the fifteen-minute
    minimum, with no truncation at eighteen hours and no overflow. *)
Theorem JobLeaseDuration_covers_schedule m purpose :
  ValidateManifest m = Ok tt → manifest_APIVersion m = ManifestV2 →
  purpose ≠ "artifact_prepare" →
  JobLeaseDuration m purpose = Z.max (15 * Minute) (declared_seconds m purpose * Second) ∧
  declared_seconds m purpose * Second ≤ MaximumJobLease.
Proof.
  intros Hm Hv Hpur. apply ValidateManifest_inv in Hm as (_&_&_&_&_&_&_&Hr&_).
  apply validateResources_inv in Hr as (Ht & Hf & _ & Hd); [|done].
  unfold declared_seconds in *. simpl in Hd. unfold JobLeaseDuration, MaximumJobLease.
  rewrite Hv. simpl (negb _). cbn iota.
  rewrite (proj2 (String.eqb_neq _ _) Hpur).
  rewrite (wrap64_id (resources_TimeoutSeconds _ + 60)) by (unfold int64_range; lia).
  set (t := resources_TimeoutSeconds (manifest_Resources m)) in *.
  set (f := lenl (manifest_Fixtures m)) in *.
  assert (∀ s, 61 ≤ s ≤ 64800 → wrap64 (wrap64 (s + 600) * Second) = (s + 600) * Second)
    as Hw.
  { intros s Hs. unfold Second. rewrite (wrap64_id (s + 600)) by (unfold int64_range; lia).
    apply wrap64_id. unfold int64_range. lia. }
  unfold Hour, Minute, Second in *.
  destruct (purpose ==s "preflight").
  - rewrite (wrap64_id (2 * f)) by (unfold int64_range; lia).
    replace ((t + 60) * (2 * f)) with (2 * f * (t + 60)) by ring.
    assert (488 ≤ 2 * f * (t + 60)) by nia.
    set (w := 2 * f * (t + 60)) in *. clearbody w.
    rewrite (wrap64_id w) by (unfold int64_range; lia). rewrite Hw by lia.
    destruct (Z.ltb_spec ((w + 600) * 1000000000) (15 * (60 * 1000000000)));
      [simpl; split; lia|].
    rewrite Z.gtb_ltb, !(proj2 (Z.ltb_ge _ _)) by lia. simpl. split; lia.
  - rewrite Hw by lia.
    destruct (Z.ltb_spec ((t + 60 + 600) * 1000000000) (15 * (60 * 1000000000)));
      [simpl; split; lia|].
    rewrite Z.gtb_ltb, !(proj2 (Z.ltb_ge _ _)) by lia. simpl. split; lia.
Qed.
End Leases.
