(* ===== verification/EvaluationProofs.v ===== *)
(** Exactness of achievement predicates and of the build-product budget
    (evaluation.go, proof.go). *)

From S2P Require Import Prelude Regex GoLib Numbers Types Scores Paths Measurement.
From S2P Require Import Evaluation.
From Stdlib Require Import Ascii QArith.
Open Scope Z_scope.

Lemma member_true s l : member s l = true ↔ s ∈ l.
Proof.
  unfold member. rewrite existsb_exists. setoid_rewrite String.eqb_eq.
  rewrite list_elem_of_In. naive_solver.
Qed.

Lemma check_measurement_number values d :
  check_measurement values d = Ok tt →
  ∃ v x, values !! measurementDefinition_Name d = Some v ∧
    MeasurementNumber v (measurementDefinition_Type d) = Ok x.
Proof.
  unfold check_measurement. intros Hc. destruct (values !! _) as [v|]; [|done].
  ok_step Hc. eauto.
Qed.

(** The loop over the declared measurements: found iff some name matches, and the
    predicate's value parses at the type of every match. *)
Lemma check_predicate_ok e p :
  check_predicate e p = Ok tt ↔
  measurementPredicate_Operator p ∈ ["eq"; "ge"; "le"] ∧
  (∃ d, d ∈ evaluationContract_Measurements e ∧
        measurementDefinition_Name d = measurementPredicate_Measurement p) ∧
  (∀ d, d ∈ evaluationContract_Measurements e →
        measurementDefinition_Name d = measurementPredicate_Measurement p →
        ∃ y, MeasurementNumber (measurementPredicate_Value p) (measurementDefinition_Type d) = Ok y).
Proof.
  unfold check_predicate. rewrite <-member_true.
  destruct (member _ _); simpl; [|naive_solver].
  set (f := λ found d, _). set (name := measurementPredicate_Measurement p).
  assert (∀ l b, (∃ b', foldM f b l = Ok b' ∧ b' = true) ↔
    (b = true ∨ ∃ d, d ∈ l ∧ measurementDefinition_Name d = name) ∧
    (∀ d, d ∈ l → measurementDefinition_Name d = name →
      ∃ y, MeasurementNumber (measurementPredicate_Value p) (measurementDefinition_Type d) = Ok y))
    as Hl.
  { induction l as [|d l IH]; intros b; simpl.
    - split; [intros (?&[= <-]&->); split; [by left|set_solver]|].
      intros [[->|(?&?&_)] _]; [eauto|set_solver].
    - unfold f at 1. fold name. destruct (String.eqb_spec (measurementDefinition_Name d) name).
      + destruct (MeasurementNumber _ _) as [y|] eqn:Ey.
        * rewrite IH. split.
          -- intros [_ Hall]. split; [right; exists d; set_solver|].
             intros d' [->|]%elem_of_cons; eauto.
          -- intros [_ Hall]. split; [by left|]. set_solver.
        * split; [naive_solver|]. intros [_ Hall]. destruct (Hall d) as [y Hy]; [set_solver|done|].
          congruence.
      + rewrite IH. set_solver. }
  specialize (Hl (evaluationContract_Measurements e) false).
  split.
  - intros Hc. split; [done|]. ok_step Hc. ok_step Hc.
    destruct (proj1 Hl) as [[?|?] ?]; [eauto|done|done].
  - intros (_ & Hex & Hall). destruct (proj2 Hl) as (b' & -> & ->); [|done]. eauto.
Qed.

(** What an achievement demands of the exact values. *)
Definition predicate_holds (op : string) (x y : Q) : Prop :=
  (op = "eq" ∧ (x == y)%Q) ∨ (op = "ge" ∧ (y <= x)%Q) ∨ (op = "le" ∧ (x <= y)%Q).

Lemma RatCmp_zero r s : RatCmp r s = 0 ↔ (r == s)%Q.
Proof. unfold RatCmp. rewrite Qeq_alt. destruct (r ?= s)%Q; naive_solver. Qed.

Lemma violates_holds op x y :
  op ∈ ["eq"; "ge"; "le"] → violates op (RatCmp x y) = false ↔ predicate_holds op x y.
Proof.
  unfold violates, predicate_holds.
  rewrite <-RatCmp_zero, <-RatCmp_nonneg, <-RatCmp_nonpos.
  intros [->|[->|[->|[]%elem_of_nil]%elem_of_cons]%elem_of_cons]%elem_of_cons; simpl;
    rewrite ?orb_false_r, ?negb_false_iff, ?Z.eqb_eq, ?Z.ltb_ge, ?Z.gtb_ltb, ?Z.ltb_ge;
    naive_solver.
Qed.

Lemma all_true_ok {A} (f : A → result bool) l :
  Forall (λ x, is_ok (f x) = true) l →
  ∃ b, all_true f l = Ok b ∧ (b = true ↔ Forall (λ x, f x = Ok true) l).
Proof.
  induction 1 as [|x l Hx _ (b & Hb & Hiff)]; simpl; [by exists true|].
  destruct (f x) as [[]|] eqn:Ef; [|exists false|done].
  - exists b. split; [done|]. rewrite Forall_cons, <-Hiff.
    split; [intros Hb'; by split|by intros [_ ?]].
  - split; [done|]. rewrite Forall_cons. split; [done|intros [? _]; congruence].
Qed.

Lemma meets_definition_ok values e p d :
  ValidateMeasurements values e = Ok tt → check_predicate e p = Ok tt →
  d ∈ evaluationContract_Measurements e →
  is_ok (meets_definition values p d) = true ∧
  (meets_definition values p d = Ok true ↔
   (measurementDefinition_Name d = measurementPredicate_Measurement p →
    ∃ v x y, values !! measurementDefinition_Name d = Some v ∧
      MeasurementNumber v (measurementDefinition_Type d) = Ok x ∧
      MeasurementNumber (measurementPredicate_Value p) (measurementDefinition_Type d) = Ok y ∧
      predicate_holds (measurementPredicate_Operator p) x y)).
Proof.
  intros Hv Hp Hd. unfold ValidateMeasurements in Hv. ok_step Hv.
  apply for_each_ok in Hv. rewrite Forall_forall in Hv.
  destruct (check_measurement_number values d (Hv d Hd)) as (v & x & Hlook & Hx).
  apply check_predicate_ok in Hp as (Hop & _ & Hy).
  unfold meets_definition. destruct (String.eqb_spec (measurementDefinition_Name d)
    (measurementPredicate_Measurement p)) as [Hname|]; [|naive_solver].
  destruct (Hy d Hd Hname) as [y Ey]. rewrite Hlook. simpl. rewrite Hx, Ey.
  split; [done|]. split.
  - intros [= Hn%negb_true_iff]. apply violates_holds in Hn; [|done]. naive_solver.
  - intros Hh. destruct (Hh Hname) as (v' & x' & y' & ? & ? & ? & Hhold).
    assert (v' = v) as -> by congruence. assert (x' = x) as -> by congruence.
    assert (y' = y) as -> by congruence. by rewrite (proj2 (violates_holds _ _ _ Hop) Hhold).
Qed.

Lemma MeetsPredicates_spec values predicates e :
  (is_ok (MeetsPredicates values predicates e) = true ↔
   ValidateMeasurements values e = Ok tt ∧ ValidatePredicates predicates e = Ok tt) ∧
  (MeetsPredicates values predicates e = Ok true ↔
   ValidateMeasurements values e = Ok tt ∧ ValidatePredicates predicates e = Ok tt ∧
   ∀ p d, p ∈ predicates → d ∈ evaluationContract_Measurements e →
     measurementDefinition_Name d = measurementPredicate_Measurement p →
     ∃ v x y, values !! measurementDefinition_Name d = Some v ∧
       MeasurementNumber v (measurementDefinition_Type d) = Ok x ∧
       MeasurementNumber (measurementPredicate_Value p) (measurementDefinition_Type d) = Ok y ∧
       predicate_holds (measurementPredicate_Operator p) x y).
Proof.
  unfold MeetsPredicates.
  destruct (ValidateMeasurements values e) as [[]|] eqn:Hv; [|naive_solver].
  destruct (ValidatePredicates predicates e) as [[]|] eqn:Hp; [|naive_solver].
  assert (∀ p, p ∈ predicates → check_predicate e p = Ok tt) as Hall.
  { unfold ValidatePredicates in Hp. ok_step Hp. apply for_each_ok in Hp.
    by rewrite Forall_forall in Hp. }
  assert (∀ p, p ∈ predicates → ∃ b,
    all_true (meets_definition values p) (evaluationContract_Measurements e) = Ok b ∧
    (b = true ↔ Forall (λ d, meets_definition values p d = Ok true)
                  (evaluationContract_Measurements e))) as Hinner.
  { intros p Hin. apply all_true_ok. apply Forall_forall. intros d Hd.
    by apply (meets_definition_ok values e p d Hv (Hall p Hin) Hd). }
  destruct (all_true_ok (λ p, all_true (meets_definition values p)
    (evaluationContract_Measurements e)) predicates) as (b & Hb & Hiff).
  { apply Forall_forall. intros p Hin. by destruct (Hinner p Hin) as (? & -> & _). }
  rewrite Hb. split; [naive_solver|]. split.
  - intros [= ->]. split; [done|]. split; [done|]. intros p d Hin Hd.
    pose proof (proj1 Hiff eq_refl) as Hf. rewrite Forall_forall in Hf.
    destruct (Hinner p Hin) as (b & Hb' & Hiff'). rewrite (Hf p Hin) in Hb'. injection Hb' as <-.
    pose proof (proj1 Hiff' eq_refl) as Hf'. rewrite Forall_forall in Hf'.
    apply (meets_definition_ok values e p d Hv (Hall p Hin) Hd), Hf', Hd.
  - intros (_ & _ & Hh). f_equal. apply Hiff, Forall_forall. intros p Hin.
    destruct (Hinner p Hin) as (b' & -> & Hiff'). f_equal. apply Hiff', Forall_forall.
    intros d Hd. apply (meets_definition_ok values e p d Hv (Hall p Hin) Hd). by apply Hh.
Qed.

(** Achievements are decided by exact arithmetic.  [MeetsPredicates] answers
    whenever the measurements and the predicates validate (it cannot fail later),
    and answers yes exactly when every predicate names a declared measurement and,
    for the reported value [x] and the required value [y] parsed at the declared
    type, [x] equals, reaches or stays below [y] as rationals. *)
Theorem MeetsPredicates_exact values predicates e :
  (is_ok (MeetsPredicates values predicates e) = true ↔
   ValidateMeasurements values e = Ok tt ∧ ValidatePredicates predicates e = Ok tt) ∧
  (MeetsPredicates values predicates e = Ok true ↔
   ValidateMeasurements values e = Ok tt ∧ ValidatePredicates predicates e = Ok tt ∧
   ∀ p d, p ∈ predicates → d ∈ evaluationContract_Measurements e →
     measurementDefinition_Name d = measurementPredicate_Measurement p →
     ∃ v x y, values !! measurementDefinition_Name d = Some v ∧
       MeasurementNumber v (measurementDefinition_Type d) = Ok x ∧
       MeasurementNumber (measurementPredicate_Value p) (measurementDefinition_Type d) = Ok y ∧
       predicate_holds (measurementPredicate_Operator p) x y).
Proof. apply MeetsPredicates_spec. Qed.

(** * Build products *)

Definition total_product_bytes (p : CandidateProgram) : Z :=
  foldr Z.add 0 (buildProduct_MaxBytes <$> candidateProgram_Products p).

Section Products.
Context `{UnicodeLib}.

Lemma product_step_inv st x st' :
  product_step st x = Ok st' →
  1 ≤ buildProduct_MaxBytes x ≤ 2 ^ 34 ∧ is_ok (ValidatePath (buildProduct_Path x)) = true ∧
  buildProduct_Path x ∉ st.1 ∧ st'.1 = {[buildProduct_Path x]} ∪ st.1 ∧
  st'.2 = wrap64 (st.2 + buildProduct_MaxBytes x).
Proof.
  unfold product_step. destruct st as [seen total]. intros Hs. ok_step Hs. simplify_eq/=.
  apply once_ok in E as (Hb & ? & ->). unfold is_err in Hb. bool_prop.
  change (Z.shiftl 16 30) with (2 ^ 34) in *. split_and!; (done || lia).
Qed.

(** The running [int64] total of the loop is the true sum: 64 products of at
    most 16 GiB cannot overflow. *)
Lemma product_total l st st' :
  foldM product_step st l = Ok st' →
  0 ≤ st.2 → st.2 + lenl l * 2 ^ 34 < 2 ^ 63 →
  st'.2 = st.2 + foldr Z.add 0 (buildProduct_MaxBytes <$> l).
Proof.
  revert st. induction l as [|x l IH]; intros st Hf Hst Hb; simpl in Hf; [simplify_eq/=; lia|].
  ok_step Hf. apply product_step_inv in E as (Hx & _ & _ & _ & Hr).
  unfold lenl in *. simpl length in Hb. rewrite Nat2Z.inj_succ in Hb.
  rewrite wrap64_id in Hr by (unfold int64_range; lia).
  rewrite (IH _ Hf) by lia. rewrite fmap_cons. cbn [foldr]. lia.
Qed.

(** Accepted build products fit the candidate's scratch space: their paths
    are distinct valid artifact paths and the exact sum of their declared sizes
    is at most the scratch size in bytes, although both sides are computed in
    wrapping 64-bit arithmetic. *)
Theorem validateBuildProducts_within_scratch p :
  validateBuildProducts p = Ok tt → 0 ≤ candidateProgram_ScratchMB p →
  total_product_bytes p ≤ candidateProgram_ScratchMB p * 2 ^ 20 ∧
  NoDup (buildProduct_Path <$> candidateProgram_Products p) ∧
  Forall (λ x, ValidatePath (buildProduct_Path x) = Ok tt) (candidateProgram_Products p).
Proof.
  unfold validateBuildProducts. intros Hp Hs. do 3 ok_step Hp. bool_prop. split_and!.
  - apply product_total in E; cbn [snd] in *; [|lia|lia]. rewrite Z.add_0_l in E.
    unfold total_product_bytes. rewrite <-E. unfold shl20 in G0.
    rewrite Z.shiftl_mul_pow2 in G0 by lia. etransitivity; [exact G0|].
    unfold wrap64. pose proof (Z.mod_le (candidateProgram_ScratchMB p * 2 ^ 20 + 2 ^ 63) (2 ^ 64)).
    lia.
  - edestruct (foldM_distinct product_step fst buildProduct_Path) as (? & _); [|exact E|done].
    by intros s x s' (_ & _ & ? & ? & _)%product_step_inv.
  - eapply foldM_Forall; [|exact E]. intros s x s' (_ & Hv & _)%product_step_inv.
    by destruct (ValidatePath _) as [[]|].
Qed.
End Products.
