(* ===== verification/Sha256.v ===== *)
(** crypto/sha256 and the digests of canonical.go: FIPS 180-4 SHA-256 over byte
    sequences, executable, with the facts the protocol relies on: a sum is 32
    bytes and [DigestBytes] always yields a [ValidDigest]. *)

From S2P Require Import Prelude GoLib Numbers Paths.
From Stdlib Require Import Ascii.

(** * 32-bit words *)

Definition w32 (x : Z) : Z := Z.land x 4294967295.
Definition rotr (n x : Z) : Z := w32 (Z.lor (Z.shiftr x n) (Z.shiftl x (32 - n))).
Definition xor3 (a b c : Z) : Z := Z.lxor (Z.lxor a b) c.

Definition Ch (x y z : Z) : Z := Z.lxor (Z.land x y) (Z.land (Z.lxor x 4294967295) z).
Definition Maj (x y z : Z) : Z := xor3 (Z.land x y) (Z.land x z) (Z.land y z).
Definition Sigma0 (x : Z) : Z := xor3 (rotr 2 x) (rotr 13 x) (rotr 22 x).
Definition Sigma1 (x : Z) : Z := xor3 (rotr 6 x) (rotr 11 x) (rotr 25 x).
Definition sigma0 (x : Z) : Z := xor3 (rotr 7 x) (rotr 18 x) (Z.shiftr x 3).
Definition sigma1 (x : Z) : Z := xor3 (rotr 17 x) (rotr 19 x) (Z.shiftr x 10).

(** ** Constants *)

(** The primes below [n], in order. *)
Definition primes_below (n : Z) : list Z :=
  List.filter (λ p, forallb (λ d, negb (p mod Z.of_nat d =? 0)) (seq 2 (Z.to_nat p - 2)))
    (map Z.of_nat (seq 2 (Z.to_nat n - 2))).

(** The largest [r] below [hi] with [r ^ k <= x], by bisection. *)
Fixpoint root (fuel : nat) (k x lo hi : Z) : Z :=
  match fuel with
  | O => lo
  | S fuel =>
      let mid := (lo + hi) / 2 in
      if mid ^ k <=? x then root fuel k x mid hi else root fuel k x lo mid
  end.
(** The first 32 bits of the fractional part of the [k]-th root of a prime. *)
Definition root_bits (k p : Z) : Z := w32 (root 40 k (p * 2 ^ (32 * k)) 0 (2 ^ 40)).

(** The round constants come from the cube roots of the first 64 primes. *)
Definition K256 : list Z := Eval vm_compute in map (root_bits 3) (primes_below 312).

(** A working state [a..h]. *)
Record sha_state := mkSha { sa : Z; sb : Z; sc : Z; sd : Z; se : Z; sf : Z; sg : Z; sh : Z }.

(** The initial state comes from the square roots of the first eight. *)
Definition sha_init : sha_state := Eval vm_compute in
  match map (root_bits 2) (primes_below 20) with
  | [a; b; c; d; e; f; g; h] => mkSha a b c d e f g h
  | _ => mkSha 0 0 0 0 0 0 0 0
  end.

(** * Compression *)

(** The message schedule, newest word first. *)
Fixpoint expand (n : nat) (ws : list Z) : list Z :=
  match n with
  | O => ws
  | S n =>
      let w i := nth i ws 0 in
      expand n (w32 (sigma1 (w 1%nat) + w 6%nat + sigma0 (w 14%nat) + w 15%nat) :: ws)
  end.

Definition sha_round (s : sha_state) (kw : Z * Z) : sha_state :=
  let t1 := sh s + Sigma1 (se s) + Ch (se s) (sf s) (sg s) + kw.1 + kw.2 in
  let t2 := Sigma0 (sa s) + Maj (sa s) (sb s) (sc s) in
  mkSha (w32 (t1 + t2)) (sa s) (sb s) (sc s) (w32 (sd s + t1)) (se s) (sf s) (sg s).

Definition sha_add (s t : sha_state) : sha_state :=
  mkSha (w32 (sa s + sa t)) (w32 (sb s + sb t)) (w32 (sc s + sc t)) (w32 (sd s + sd t))
        (w32 (se s + se t)) (w32 (sf s + sf t)) (w32 (sg s + sg t)) (w32 (sh s + sh t)).

Definition sha_block (s : sha_state) (ws : list Z) : sha_state :=
  sha_add s (foldl sha_round s (combine K256 (rev (expand 48 (rev ws))))).

Fixpoint words (bs : list Z) : list Z :=
  match bs with
  | a :: b :: c :: d :: bs => (((a * 256 + b) * 256 + c) * 256 + d) :: words bs
  | _ => []
  end.

Fixpoint sha_blocks (fuel : nat) (s : sha_state) (ws : list Z) : sha_state :=
  match fuel, ws with
  | S fuel, _ :: _ => sha_blocks fuel (sha_block s (take 16 ws)) (drop 16 ws)
  | _, _ => s
  end.

(** Big-endian bytes of a word of [n] bytes. *)
Fixpoint be_bytes (n : nat) (x : Z) : list Z :=
  match n with
  | O => []
  | S n => be_bytes n (x / 256) ++ [x mod 256]
  end.

Definition sha_pad (bs : list Z) : list Z :=
  let n := lenl bs in
  bs ++ 128 :: repeat 0 (Z.to_nat ((55 - n) mod 64)) ++ be_bytes 8 (8 * n).

(** [sha256.Sum256]; one block of fuel per 64 padded bytes is the exact number of
    blocks. *)
Definition Sum256 (bs : list Z) : list Z :=
  let ws := words (sha_pad bs) in
  let s := sha_blocks (length ws) sha_init ws in
  concat (map (be_bytes 4) [sa s; sb s; sc s; sd s; se s; sf s; sg s; sh s]).

(** * Digests (canonical.go) *)

Definition DigestBytes (data : Bytes) : string :=
  "sha256:" +:+ hex_encode (Sum256 (bytes_of data)).

Example sha256_abc :
  DigestBytes "abc" = "sha256:ba7816bf8f01cfea414140de5dae2223b00361a396177a9cb410ff61f20015ad".
Proof. vm_compute. reflexivity. Qed.
Example sha256_two_blocks :
  DigestBytes "abcdbcdecdefdefgefghfghighijhijkijkljklmklmnlmnomnopnopq"
  = "sha256:248d6a61d20638b8e5c026930c3e6039a33ce45964ff2167f6ecedd419db06c1".
Proof. vm_compute. reflexivity. Qed.

(** * Lemmas *)

Lemma be_bytes_length n x : length (be_bytes n x) = n.
Proof. revert x. induction n as [|n IH]; intros x; simpl; [done|]. rewrite length_app, IH. simpl. lia. Qed.

Lemma be_bytes_range n x : Forall (λ b, 0 ≤ b < 256) (be_bytes n x).
Proof.
  revert x. induction n as [|n IH]; intros x; simpl; [constructor|].
  apply Forall_app. split; [done|]. repeat constructor; apply Z.mod_pos_bound; lia.
Qed.

Lemma Sum256_length bs : length (Sum256 bs) = 32%nat.
Proof. unfold Sum256. cbn [map concat]. by rewrite !length_app, !be_bytes_length. Qed.

Lemma Sum256_range bs : Forall (λ b, 0 ≤ b < 256) (Sum256 bs).
Proof.
  unfold Sum256. cbn [map concat].
  repeat (apply Forall_app; split; [apply be_bytes_range|]). constructor.
Qed.

(** ** Hexadecimal text of a sum *)

Lemma hex_digit_char d : 0 ≤ d < 16 → hex_digit (hex_char d) = Some d ∧ lower_byte (hex_char d) = hex_char d.
Proof.
  intros Hd.
  assert (d ∈ (Z.of_nat <$> seq 0 16)) as Hin.
  { apply list_elem_of_fmap. exists (Z.to_nat d). rewrite list_elem_of_In, in_seq. lia. }
  assert (Forall (λ d, hex_digit (hex_char d) = Some d ∧ lower_byte (hex_char d) = hex_char d)
            (Z.of_nat <$> seq 0 16)) as Hall.
  { repeat constructor; vm_compute; reflexivity. }
  rewrite Forall_forall in Hall. by apply Hall.
Qed.

Definition hex_list (l : list Z) : list ascii :=
  concat (map (λ b, [hex_char (b / 16); hex_char (b mod 16)]) l).

Lemma hex_nibbles b : 0 ≤ b < 256 → 0 ≤ b / 16 < 16 ∧ 0 ≤ b mod 16 < 16.
Proof.
  intros. split; [|apply Z.mod_pos_bound; lia].
  split; [apply Z.div_pos; lia|apply Z.div_lt_upper_bound; lia].
Qed.

(** [hex.DecodeString] inverts [hex.EncodeToString]. *)
Lemma hex_decode_list l : Forall (λ b, 0 ≤ b < 256) l → hex_decode (hex_list l) = Some l.
Proof.
  induction 1 as [|b l Hb _ IH]; [done|]. destruct (hex_nibbles b Hb) as [H1 H2].
  unfold hex_list in *. cbn [map concat app hex_decode].
  rewrite (proj1 (hex_digit_char _ H1)), (proj1 (hex_digit_char _ H2)), IH.
  do 2 f_equal. pose proof (Z.div_mod b 16). lia.
Qed.

Lemma hex_list_lower l : Forall (λ b, 0 ≤ b < 256) l → map lower_byte (hex_list l) = hex_list l.
Proof.
  induction 1 as [|b l Hb _ IH]; [done|]. destruct (hex_nibbles b Hb) as [H1 H2].
  unfold hex_list in *. cbn [map concat app].
  rewrite (proj2 (hex_digit_char _ H1)), (proj2 (hex_digit_char _ H2)). by rewrite IH.
Qed.

Lemma hex_list_length l : length (hex_list l) = (2 * length l)%nat.
Proof. unfold hex_list. induction l as [|b l IH]; simpl; [done|]. rewrite IH. lia. Qed.

Lemma list_of_digest data :
  list_of (DigestBytes data) = list_of "sha256:" ++ hex_list (Sum256 (bytes_of data)).
Proof. unfold DigestBytes, hex_encode. by rewrite list_of_app, list_of_string_of. Qed.

Lemma DigestBytes_valid data : ValidDigest (DigestBytes data) = true.
Proof.
  unfold ValidDigest, len, HasPrefix. rewrite <-length_list_of, list_of_digest.
  rewrite length_app, hex_list_length, Sum256_length, is_prefix_app. simpl Z.of_nat.
  cbn [Z.eqb Pos.eqb negb orb].
  change (drop 7 (list_of "sha256:" ++ hex_list (Sum256 (bytes_of data))))
    with (hex_list (Sum256 (bytes_of data))).
  rewrite hex_decode_list by apply Sum256_range. apply String.eqb_eq, list_of_inj.
  unfold ToLowerASCII. rewrite list_of_string_of, list_of_digest.
  rewrite map_app, hex_list_lower by apply Sum256_range. done.
Qed.

Lemma DigestBytes_Sum256 a b :
  DigestBytes a = DigestBytes b → Sum256 (bytes_of a) = Sum256 (bytes_of b).
Proof.
  intros E%(f_equal list_of). rewrite !list_of_digest in E. apply app_inv_head in E.
  apply (f_equal hex_decode) in E. rewrite !hex_decode_list in E by apply Sum256_range.
  congruence.
Qed.
#[export] Hint Resolve DigestBytes_valid : golib.
