(* ===== verification/GoJson.v ===== *)
(** encoding/json: the token decoder ([Decoder.Token], [Decoder.More]) over a
    byte sequence with its comma/colon state machine, [strconv.ParseFloat]'s range
    check, and [json.Marshal] of dynamic values. *)

From S2P Require Import Prelude GoLib Numbers.
From Stdlib Require Import Ascii.

(** * Tokens *)

(** What [Decoder.Token] returns with [UseNumber]: delimiters, strings, number
    texts, booleans and null. *)
Inductive token :=
| TDelim (c : ascii)
| TString (s : string)
| TNumber (s : string)
| TBool (b : bool)
| TNull.
#[export] Instance token_eq_dec : EqDecision token.
Proof. solve_decision. Defined.

(** The interface of a token decoder, against which the structure checker is
    written; [None] is [io.EOF]. *)
Class TokenDecoder (D : Type) := {
  Token : D → result (option token * D);
  More : D → bool
}.

(** * Scanning scalars *)

Definition is_json_space (c : ascii) : bool :=
  existsb (Ascii.eqb c) [" "; "009"; "010"; "013"]%char.

Fixpoint span (p : ascii → bool) (l : list ascii) : list ascii * list ascii :=
  match l with
  | [] => ([], [])
  | c :: l' => if p c then let '(a, b) := span p l' in (c :: a, b) else ([], l)
  end.

(** Digits, at least one. *)
Definition digits1 (l : list ascii) : option (list ascii * list ascii) :=
  match span is_digit l with ([], _) => None | ab => Some ab end.

(** The scanner's number states: [-]int[.frac][exp]. *)
Definition scan_int (l : list ascii) : option (list ascii * list ascii) :=
  match l with
  | c :: l' => if Ascii.eqb c "0" then Some ([c], l') else digits1 l
  | [] => None
  end.
Definition scan_frac (l : list ascii) : option (list ascii * list ascii) :=
  match l with
  | c :: l' => if Ascii.eqb c "."
               then match digits1 l' with Some (a, b) => Some (c :: a, b) | None => None end
               else Some ([], l)
  | [] => Some ([], [])
  end.
Definition scan_exp (l : list ascii) : option (list ascii * list ascii) :=
  match l with
  | c :: l' =>
      if existsb (Ascii.eqb c) ["e"; "E"]%char then
        let '(sign, l'') :=
          match l' with
          | d :: r => if existsb (Ascii.eqb d) ["+"; "-"]%char then ([d], r) else ([], l')
          | [] => ([], l')
          end in
        match digits1 l'' with Some (a, b) => Some (c :: sign ++ a, b) | None => None end
      else Some ([], l)
  | [] => Some ([], [])
  end.
Definition scan_number (l : list ascii) : option (list ascii * list ascii) :=
  let '(sign, l) := match l with
                    | c :: r => if Ascii.eqb c "-" then ([c], r) else ([], l)
                    | [] => ([], l) end in
  match scan_int l with
  | None => None
  | Some (i, l) =>
      match scan_frac l with
      | None => None
      | Some (f, l) =>
          match scan_exp l with
          | None => None
          | Some (e, l) => Some (sign ++ i ++ f ++ e, l)
          end
      end
  end.

(** [utf8.EncodeRune] *)
Definition EncodeRune (r : Z) : list Z :=
  let r := if (r <? 0) || (r >? 1114111) || inr 55296 57343 r then 65533 else r in
  if r <? 128 then [r]
  else if r <? 2048 then [192 + r / 64; 128 + r mod 64]
  else if r <? 65536 then [224 + r / 4096; 128 + (r / 64) mod 64; 128 + r mod 64]
  else [240 + r / 262144; 128 + (r / 4096) mod 64; 128 + (r / 64) mod 64; 128 + r mod 64].

(** [getu4]: the four hex digits after a backslash and "u". *)
Definition hex4 (a b c d : ascii) : option Z :=
  match hex_digit a, hex_digit b, hex_digit c, hex_digit d with
  | Some x, Some y, Some z, Some w => Some (((x * 16 + y) * 16 + z) * 16 + w)
  | _, _, _, _ => None
  end.

Definition simple_escape (c : ascii) : option ascii :=
  if existsb (Ascii.eqb c) ["034"; "\"; "/"]%char then Some c
  else if Ascii.eqb c "b" then Some "008"%char
  else if Ascii.eqb c "f" then Some "012"%char
  else if Ascii.eqb c "n" then Some "010"%char
  else if Ascii.eqb c "r" then Some "013"%char
  else if Ascii.eqb c "t" then Some "009"%char
  else None.

Definition chars_of_rune (r : Z) : list ascii := map byte_of (EncodeRune r).

(** A string body up to its closing quote, decoded ([unquoteBytes]); [hi] is a
    pending high surrogate.  Bytes from 0x80 are copied: the callers have checked
    that the document is UTF-8. *)
Fixpoint scan_string (hi : option Z) (l : list ascii) : option (list ascii * list ascii) :=
  let flush (r : option (list ascii * list ascii)) :=
    match hi, r with
    | Some _, Some (s, l) => Some (chars_of_rune 65533 ++ s, l)
    | _, r => r
    end in
  match l with
  | [] => None
  | c :: l1 =>
      if Ascii.eqb c "034" then flush (Some ([], l1))
      else if Ascii.eqb c "\" then
        match l1 with
        | e :: l2 =>
            if Ascii.eqb e "u" then
              match l2 with
              | h1 :: h2 :: h3 :: h4 :: l3 =>
                  match hex4 h1 h2 h3 h4 with
                  | None => None
                  | Some r =>
                      match hi with
                      | Some h =>
                          if inr 56320 57343 r then
                            match scan_string None l3 with
                            | Some (s, l) =>
                                Some (chars_of_rune ((h - 55296) * 1024 + (r - 56320) + 65536) ++ s, l)
                            | None => None
                            end
                          else flush (if inr 55296 56319 r then scan_string (Some r) l3
                                      else match scan_string None l3 with
                                           | Some (s, l) => Some (chars_of_rune r ++ s, l)
                                           | None => None
                                           end)
                      | None =>
                          if inr 55296 56319 r then scan_string (Some r) l3
                          else match scan_string None l3 with
                               | Some (s, l) => Some (chars_of_rune r ++ s, l)
                               | None => None
                               end
                      end
                  end
              | _ => None
              end
            else
              match simple_escape e with
              | None => None
              | Some x =>
                  flush (match scan_string None l2 with
                         | Some (s, l) => Some (x :: s, l) | None => None end)
              end
        | [] => None
        end
      else if byte_val c <? 32 then None
      else flush (match scan_string None l1 with
                  | Some (s, l) => Some (c :: s, l) | None => None end)
  end.

(** One scalar value starting with byte [c]. *)
Definition scan_word (w : string) (t : token) (l : list ascii) : result (token * list ascii) :=
  if is_prefix (list_of w) l then Ok (t, drop (String.length w) l)
  else Err "invalid character in literal".
Definition scan_scalar (l : list ascii) : result (token * list ascii) :=
  match l with
  | [] => Err "unexpected EOF"
  | c :: l' =>
      if Ascii.eqb c "034" then
        match scan_string None l' with
        | Some (s, r) => Ok (TString (string_of s), r)
        | None => Err "invalid string"
        end
      else if Ascii.eqb c "t" then scan_word "true" (TBool true) l
      else if Ascii.eqb c "f" then scan_word "false" (TBool false) l
      else if Ascii.eqb c "n" then scan_word "null" TNull l
      else match scan_number l with
           | Some (s, r) => Ok (TNumber (string_of s), r)
           | None => Err "invalid character looking for beginning of value"
           end
  end.

(** * The decoder *)

Inductive token_state :=
| tokenTopValue | tokenArrayStart | tokenArrayValue | tokenArrayComma
| tokenObjectStart | tokenObjectKey | tokenObjectColon | tokenObjectValue | tokenObjectComma.
#[export] Instance token_state_eq_dec : EqDecision token_state.
Proof. solve_decision. Defined.

Record Decoder := mkDecoder {
  d_rest : list ascii;
  d_state : token_state;
  d_stack : list token_state
}.

Definition NewDecoder (data : Bytes) : Decoder := mkDecoder (list_of data) tokenTopValue [].

Definition tokenValueAllowed (s : token_state) : bool :=
  match s with
  | tokenTopValue | tokenArrayStart | tokenArrayValue | tokenObjectValue => true
  | _ => false
  end.
Definition tokenValueEnd (s : token_state) : token_state :=
  match s with
  | tokenArrayStart | tokenArrayValue => tokenArrayComma
  | tokenObjectValue => tokenObjectComma
  | s => s
  end.

Definition peek (d : Decoder) : list ascii := drop_while is_json_space (d_rest d).

Definition token_error : string := "invalid character in token stream".

(** Opening and closing a composite value. *)
Definition open_value (d : Decoder) (c : ascii) (l : list ascii) (s : token_state)
    : result (option token * Decoder) :=
  if tokenValueAllowed (d_state d)
  then Ok (Some (TDelim c), mkDecoder l s (d_state d :: d_stack d))
  else Err token_error.
Definition close_value (d : Decoder) (c : ascii) (l : list ascii) (s1 s2 : token_state)
    : result (option token * Decoder) :=
  if bool_decide (d_state d = s1) || bool_decide (d_state d = s2) then
    match d_stack d with
    | s :: st => Ok (Some (TDelim c), mkDecoder l (tokenValueEnd s) st)
    | [] => Err token_error
    end
  else Err token_error.

(** A token that is not a separator. *)
Definition value_token (d : Decoder) (l : list ascii) : result (option token * Decoder) :=
  match l with
  | [] => Ok (None, d)
  | c :: l' =>
      if Ascii.eqb c "[" then open_value d c l' tokenArrayStart
      else if Ascii.eqb c "]" then close_value d c l' tokenArrayStart tokenArrayComma
      else if Ascii.eqb c "{" then open_value d c l' tokenObjectStart
      else if Ascii.eqb c "}" then close_value d c l' tokenObjectStart tokenObjectComma
      else if Ascii.eqb c ":" || Ascii.eqb c "," then Err token_error
      else if Ascii.eqb c "034"
              && (bool_decide (d_state d = tokenObjectStart)
                  || bool_decide (d_state d = tokenObjectKey)) then
        let! tr := scan_scalar l in
        Ok (Some tr.1, mkDecoder tr.2 tokenObjectColon (d_stack d))
      else if tokenValueAllowed (d_state d) then
        let! tr := scan_scalar l in
        Ok (Some tr.1, mkDecoder tr.2 (tokenValueEnd (d_state d)) (d_stack d))
      else Err token_error
  end.

(** [Decoder.Token]: after a separator the state admits no second separator, so
    the [continue] happens at most once.  A colon is legal after a key only, a
    comma after an array element or an object member. *)
Definition DecoderToken (d : Decoder) : result (option token * Decoder) :=
  match peek d with
  | c :: l' =>
      let skip s := let d' := mkDecoder l' s (d_stack d) in value_token d' (peek d') in
      match d_state d with
      | tokenObjectColon =>
          if Ascii.eqb c ":" then skip tokenObjectValue else value_token d (c :: l')
      | tokenArrayComma =>
          if Ascii.eqb c "," then skip tokenArrayValue else value_token d (c :: l')
      | tokenObjectComma =>
          if Ascii.eqb c "," then skip tokenObjectKey else value_token d (c :: l')
      | _ => value_token d (c :: l')
      end
  | [] => Ok (None, d)
  end.

Definition DecoderMore (d : Decoder) : bool :=
  match peek d with
  | c :: _ => negb (Ascii.eqb c "]") && negb (Ascii.eqb c "}")
  | [] => false
  end.

#[export] Instance json_decoder : TokenDecoder Decoder := {
  Token := DecoderToken;
  More := DecoderMore
}.

(** * Numbers *)

(** An exponent is accumulated while below 10000, as [strconv] does. *)
Definition exp_value (l : list ascii) : Z :=
  foldl (λ e c, if e <? 10000 then 10 * e + digit_val c else e) 0 l.

(** Mantissa digits, number of fraction digits and exponent of a scanned
    number text. *)
Definition number_parts (l : list ascii) : list ascii * Z * Z :=
  let l := match l with c :: r => if Ascii.eqb c "-" then r else l | [] => l end in
  let '(i, l) := span is_digit l in
  let '(f, l) := match l with
                 | c :: r => if Ascii.eqb c "." then span is_digit r else ([], l)
                 | [] => ([], l) end in
  let e := match l with
           | _ :: s :: r =>
               if Ascii.eqb s "-" then - exp_value r
               else if Ascii.eqb s "+" then exp_value r else exp_value (s :: r)
           | _ => 0
           end in
  (i ++ f, lenl f, e).

(** Whether [strconv.ParseFloat(s, 64)] succeeds on a scanned number: it reports a
    range error when the value rounds to infinity, i.e. from
    2^1024 - 2^970 on.  The two decimal-point bounds are those of the decimal
    conversion: above 310 digits overflows, below 10^-330 is zero. *)
Definition ParseFloat_ok (s : string) : bool :=
  let '(m, frac, e) := number_parts (list_of s) in
  let mant := digits_val m in
  if mant =? 0 then true else
  let sig := drop_while (Ascii.eqb "0") m in
  let dp := lenl sig - frac + e in
  if dp >? 310 then false else
  if dp <? -330 then true else
  let p := e - frac in
  let bound := 2 ^ 1024 - 2 ^ 970 in
  if p <? 0 then mant <? bound * 10 ^ (- p) else mant * 10 ^ p <? bound.

(** * Marshalling dynamic values *)

Inductive anyValue :=
| ANull
| ABool (b : bool)
| AInt (z : Z)
| AString (s : string)
| AList (l : list anyValue)
| AMap (l : list (string * anyValue)).

(** One rune of a quoted string with HTML escaping, as [json.Marshal] does. *)
Definition quote_rune (seg : Z * list Z) : list ascii :=
  let '(r, bs) := seg in
  let u4 := "\"%char :: "u"%char ::
              [hex_char (r / 4096); hex_char ((r / 256) mod 16);
               hex_char ((r / 16) mod 16); hex_char (r mod 16)] in
  if r <? 128 then
    if (r =? 34) || (r =? 92) then "\"%char :: [byte_of r]
    else if r =? 8 then list_of "\b"
    else if r =? 12 then list_of "\f"
    else if r =? 10 then list_of "\n"
    else if r =? 13 then list_of "\r"
    else if r =? 9 then list_of "\t"
    else if (r <? 32) || (r =? 60) || (r =? 62) || (r =? 38) then u4
    else [byte_of r]
  else if (r =? 65533) && (lenl bs =? 1) || (r =? 8232) || (r =? 8233) then u4
  else map byte_of bs.

Definition quote (s : string) : list ascii :=
  "034"%char :: concat (map quote_rune (segments (bytes_of s))) ++ ["034"%char].

(** Byte-wise order of keys. *)
Definition string_leb (a b : string) : bool :=
  match String.compare a b with Gt => false | _ => true end.

Fixpoint insert_key {A} (k : string) (v : A) (l : list (string * A)) : list (string * A) :=
  match l with
  | [] => [(k, v)]
  | (k', v') :: l' => if string_leb k k' then (k, v) :: l else (k', v') :: insert_key k v l'
  end.
Definition sort_keys {A} (l : list (string * A)) : list (string * A) :=
  foldr (λ kv acc, insert_key kv.1 kv.2 acc) [] l.

Fixpoint commas (l : list (list ascii)) : list ascii :=
  match l with
  | [] => []
  | [x] => x
  | x :: l => x ++ ","%char :: commas l
  end.

Fixpoint marshal_any (v : anyValue) : list ascii :=
  match v with
  | ANull => list_of "null"
  | ABool b => list_of (if b then "true" else "false")
  | AInt z => list_of (int_string z)
  | AString s => quote s
  | AList l => "["%char :: commas (map marshal_any l) ++ ["]"%char]
  | AMap l =>
      "{"%char :: commas (map snd (sort_keys
        (map (λ kv, (kv.1, quote kv.1 ++ ":"%char :: marshal_any kv.2)) l))) ++ ["}"%char]
  end.

Definition MarshalAny (v : anyValue) : Bytes := string_of (marshal_any v).
