(* ===== verification/Canonical.v ===== *)
(** canonical.go: bounded I-JSON checking, strict decoding, digests, the strict
    YAML subset and the two document parsers. *)

From S2P Require Import Prelude Regex GoLib Numbers Types Paths Scores Validate Sha256 GoJson.
From Stdlib Require Import Ascii.

Definition MaxDocumentBytes : Z := Z.shiftl 1 20.

(** * checkJSON *)

(** A computation with fuel: [None] is running out of it. *)
Notation "'let?' x := c 'in' k" :=
  (match c with Some (Ok x) => k | Some (Err e) => Some (Err e) | None => None end)
  (at level 200, x pattern, c at level 100, k at level 200, right associativity) : go_scope.

(** The cases of [checkJSON] for a value that is not a composite. *)
Definition check_scalar (stringLimit : Z) (t : token) : result unit :=
  match t with
  | TDelim _ => Err "unexpected JSON delimiter"
  | TString value =>
      if len value >? stringLimit then Err "JSON string exceeds limit" else Ok tt
  | TNumber value =>
      if len value >? 100 then Err "JSON number exceeds limit" else
      if negb (ParseFloat_ok value) then Err "JSON number outside finite domain" else
      if ContainsAny value ".eE" then Ok tt else
      match bigint_of_string value with
      | Some n =>
          if Cmp (Z.abs n) 9007199254740991 >? 0
          then Err "JSON integers beyond exact I-JSON range must be strings" else Ok tt
      | None => Err "JSON integers beyond exact I-JSON range must be strings"
      end
  | TBool _ | TNull => Ok tt
  end.

Section CheckJSON.
Context {D : Type} `{TokenDecoder D} (stringLimit : Z).

(** [checkJSON] and the bodies of its two loops; the state is the decoder and
    the shared [nodes] counter. *)
Fixpoint checkJSON (fuel : nat) (decoder : D) (depth nodes : Z) : option (result (D * Z)) :=
  match fuel with
  | O => None
  | S fuel =>
      let nodes := nodes + 1 in
      if (depth >? 32) || (nodes >? 20000)
      then Some (Err "JSON structure exceeds limits") else
      match Token decoder with
      | Err e => Some (Err e)
      | Ok (None, _) => Some (Err "EOF")
      | Ok (Some (TDelim c), decoder) =>
          if Ascii.eqb c "{" then object_loop fuel decoder depth nodes ∅
          else if Ascii.eqb c "[" then array_loop fuel decoder depth nodes
          else Some (Err "unexpected JSON delimiter")
      | Ok (Some t, decoder) =>
          Some (let! _ := check_scalar stringLimit t in Ok (decoder, nodes))
      end
  end
with object_loop (fuel : nat) (decoder : D) (depth nodes : Z) (seen : gset string)
    : option (result (D * Z)) :=
  match fuel with
  | O => None
  | S fuel =>
      if More decoder then
        match Token decoder with
        | Err e => Some (Err e)
        | Ok (Some (TString key), decoder) =>
            if bool_decide (key ∈ seen) || (len key >? 1024)
            then Some (Err "duplicate or invalid object key") else
            let? (decoder, nodes) := checkJSON fuel decoder (depth + 1) nodes in
            object_loop fuel decoder depth nodes ({[key]} ∪ seen)
        | Ok (None, _) => Some (Err "EOF")
        | Ok _ => Some (Err "duplicate or invalid object key")
        end
      else
        match Token decoder with
        | Ok (Some (TDelim c), decoder) =>
            if Ascii.eqb c "}" then Some (Ok (decoder, nodes))
            else Some (Err "unterminated object")
        | _ => Some (Err "unterminated object")
        end
  end
with array_loop (fuel : nat) (decoder : D) (depth nodes : Z) : option (result (D * Z)) :=
  match fuel with
  | O => None
  | S fuel =>
      if More decoder then
        let? (decoder, nodes) := checkJSON fuel decoder (depth + 1) nodes in
        array_loop fuel decoder depth nodes
      else
        match Token decoder with
        | Ok (Some (TDelim c), decoder) =>
            if Ascii.eqb c "]" then Some (Ok (decoder, nodes))
            else Some (Err "unterminated array")
        | _ => Some (Err "unterminated array")
        end
  end.
End CheckJSON.

(** Every call counts a node and at most 20000 are allowed, so call and loop
    nesting is at most twice that. *)
Definition check_fuel : nat := Z.to_nat 40003.

(** * The tree a decoder reads *)

Inductive jtree :=
| JScalar (t : token)
| JObject (members : list (string * jtree))
| JArray (elements : list jtree).

Definition is_scalar (t : token) : Prop := match t with TDelim _ => False | _ => True end.

(** What is read: a value, the rest of an object's members, of an array's
    elements. *)
Inductive item :=
| IValue (v : jtree)
| IMembers (l : list (string * jtree))
| IElements (l : list jtree).

(** Successive [Token]/[More] calls read an item, leaving decoder [d']. *)
Inductive reads {D} `{TokenDecoder D} : D → item → D → Prop :=
| reads_scalar d t d' :
    Token d = Ok (Some t, d') → is_scalar t → reads d (IValue (JScalar t)) d'
| reads_object d l d1 d' :
    Token d = Ok (Some (TDelim "{"), d1) → reads d1 (IMembers l) d' →
    reads d (IValue (JObject l)) d'
| reads_array d l d1 d' :
    Token d = Ok (Some (TDelim "["), d1) → reads d1 (IElements l) d' →
    reads d (IValue (JArray l)) d'
| reads_members_end d d' :
    More d = false → Token d = Ok (Some (TDelim "}"), d') → reads d (IMembers []) d'
| reads_member d k d1 v d2 l d' :
    More d = true → Token d = Ok (Some (TString k), d1) → reads d1 (IValue v) d2 →
    reads d2 (IMembers l) d' → reads d (IMembers ((k, v) :: l)) d'
| reads_elements_end d d' :
    More d = false → Token d = Ok (Some (TDelim "]"), d') → reads d (IElements []) d'
| reads_element d v d1 l d' :
    More d = true → reads d (IValue v) d1 → reads d1 (IElements l) d' →
    reads d (IElements (v :: l)) d'.

(** Number of values, nesting and per-value limits of a tree. *)
Fixpoint nodes_of (v : jtree) : Z :=
  match v with
  | JScalar _ => 1
  | JObject l => 1 + foldr (λ kv n, nodes_of kv.2 + n) 0 l
  | JArray l => 1 + foldr (λ v n, nodes_of v + n) 0 l
  end.
Fixpoint height (v : jtree) : Z :=
  match v with
  | JScalar _ => 0
  | JObject l => foldr (λ kv n, Z.max (1 + height kv.2) n) 0 l
  | JArray l => foldr (λ v n, Z.max (1 + height v) n) 0 l
  end.
Fixpoint i_json (limit : Z) (v : jtree) : Prop :=
  match v with
  | JScalar t => check_scalar limit t = Ok tt
  | JObject l => NoDup l.*1 ∧ foldr (λ kv P, len kv.1 ≤ 1024 ∧ i_json limit kv.2 ∧ P) True l
  | JArray l => foldr (λ v P, i_json limit v ∧ P) True l
  end.

(** ** Lemmas *)

Lemma nodes_of_pos v : 1 ≤ nodes_of v.
Proof.
  revert v. fix IH 1. intros [t|l|l]; simpl; [lia| |].
  - assert (0 ≤ foldr (λ kv n, nodes_of kv.2 + n) 0 l); [|lia].
    induction l as [|[k v] l IHl]; simpl; [lia|]. specialize (IH v). lia.
  - assert (0 ≤ foldr (λ v n, nodes_of v + n) 0 l); [|lia].
    induction l as [|v l IHl]; simpl; [lia|]. specialize (IH v). lia.
Qed.

Definition item_nodes (i : item) : Z :=
  match i with
  | IValue v => nodes_of v
  | IMembers l => foldr (λ kv n, nodes_of kv.2 + n) 0 l
  | IElements l => foldr (λ v n, nodes_of v + n) 0 l
  end.
Definition item_height (i : item) : Z :=
  match i with
  | IValue v => height v
  | IMembers l => foldr (λ kv n, Z.max (1 + height kv.2) n) 0 l
  | IElements l => foldr (λ v n, Z.max (1 + height v) n) 0 l
  end.
(** The limits of an item; [seen] are the keys already read of its object. *)
Definition item_ok (limit : Z) (seen : gset string) (i : item) : Prop :=
  match i with
  | IValue v => i_json limit v
  | IMembers l =>
      NoDup l.*1 ∧ Forall (λ k, k ∉ seen) l.*1 ∧
      foldr (λ kv P, len kv.1 ≤ 1024 ∧ i_json limit kv.2 ∧ P) True l
  | IElements l => foldr (λ v P, i_json limit v ∧ P) True l
  end.

Lemma item_nodes_nonneg i : 0 ≤ item_nodes i.
Proof.
  destruct i as [v|l|l]; simpl; [pose proof (nodes_of_pos v); lia|..];
    induction l as [|x l]; simpl; try lia.
  - pose proof (nodes_of_pos x.2). lia.
  - pose proof (nodes_of_pos x). lia.
Qed.
Lemma item_height_nonneg i : 0 ≤ item_height i.
Proof. destruct i as [[t|l|l]|l|l]; simpl; [lia|induction l; simpl; lia..]. Qed.

Section CheckProofs.
Context {D : Type} `{TokenDecoder D} (limit : Z).

Ltac refold :=
  fold (checkJSON limit) in *; fold (object_loop limit) in *; fold (array_loop limit) in *.

(** What a successful check of an item has established. *)
Definition accepted (i : item) (seen : gset string) (d : D) (depth nodes : Z) (d' : D) (n : Z) :=
  reads d i d' ∧ n = nodes + item_nodes i ∧ n ≤ 20000 ∧ depth + item_height i ≤ 32 ∧
  item_ok limit seen i.

Lemma check_sound fuel :
  (∀ d depth nodes d' n, checkJSON limit fuel d depth nodes = Some (Ok (d', n)) →
     ∃ v, accepted (IValue v) ∅ d depth nodes d' n) ∧
  (∀ d depth nodes seen d' n, depth ≤ 32 → nodes ≤ 20000 →
     object_loop limit fuel d depth nodes seen = Some (Ok (d', n)) →
     ∃ l, accepted (IMembers l) seen d depth nodes d' n) ∧
  (∀ d depth nodes d' n, depth ≤ 32 → nodes ≤ 20000 →
     array_loop limit fuel d depth nodes = Some (Ok (d', n)) →
     ∃ l, accepted (IElements l) ∅ d depth nodes d' n).
Proof.
  unfold accepted. induction fuel as [|fuel (IHv & IHm & IHe)]; [done|]. split_and!.
  - intros d depth nodes d' n Hc. cbn [checkJSON] in Hc; refold.
    destruct ((depth >? 32) || (nodes + 1 >? 20000)) eqn:G; [done|]. bool_prop.
    destruct (Token d) as [[[t|] d1]|e] eqn:Et; [|done..].
    assert ((∃ c, t = TDelim c) ∨ is_scalar t) as [(c & ->)|Ht] by (destruct t; simpl; eauto).
    + destruct (Ascii.eqb_spec c "{") as [E|E]; [rewrite E in *|].
      { apply IHm in Hc as (l & Hr & -> & ? & ? & ? & ? & ?); [|lia..].
        exists (JObject l). split; [by eapply reads_object|]. simpl in *. split_and!; (done || lia). }
      destruct (Ascii.eqb_spec c "[") as [E'|]; [rewrite E' in *|done].
      apply IHe in Hc as (l & Hr & -> & ? & ? & ?); [|lia..].
      exists (JArray l). split; [by eapply reads_array|]. simpl in *. split_and!; (done || lia).
    + assert (Some (let! _ := check_scalar limit t in Ok (d1, nodes + 1)) = Some (Ok (d', n))) as Hs
        by (by destruct t).
      destruct (check_scalar limit t) as [[]|] eqn:Es; [|done]. simplify_eq.
      exists (JScalar t). split; [by apply reads_scalar|]. simpl. split_and!; (done || lia).
  - intros d depth nodes seen d' n Hd Hn Hc. cbn [object_loop] in Hc; refold.
    destruct (More d) eqn:Em.
    + destruct (Token d) as [[[[c|s|s'|b|]|] d1]|e] eqn:Et; try done.
      destruct (bool_decide (s ∈ seen) || (len s >? 1024)) eqn:G; [done|]. bool_prop.
      destruct (checkJSON limit fuel d1 (depth + 1) nodes) as [[[d2 n2]|]|] eqn:Ev; try done.
      apply IHv in Ev as (v & Hv & -> & ? & ? & ?).
      apply IHm in Hc as (l & Hl & -> & ? & ? & Hnd & Hf & Hok); [|lia..].
      exists ((s, v) :: l). split; [by eapply reads_member|]. simpl in *. split_and!; try (done || lia).
      * constructor; [|done]. intros Hs. rewrite Forall_forall in Hf. specialize (Hf s Hs). set_solver.
      * constructor; [done|]. eapply Forall_impl; [exact Hf|]. set_solver.
    + destruct (Token d) as [[[[c|s|s'|b|]|] d1]|e] eqn:Et; try done.
      destruct (Ascii.eqb_spec c "}") as [E'|]; [rewrite E' in *|done]. simplify_eq.
      exists []. split; [by apply reads_members_end|]. simpl.
      split_and!; try (done || lia); constructor.
  - intros d depth nodes d' n Hd Hn Hc. cbn [array_loop] in Hc; refold.
    destruct (More d) eqn:Em.
    + destruct (checkJSON limit fuel d (depth + 1) nodes) as [[[d2 n2]|]|] eqn:Ev; try done.
      apply IHv in Ev as (v & Hv & -> & ? & ? & ?).
      apply IHe in Hc as (l & Hl & -> & ? & ? & ?); [|lia..].
      exists (v :: l). split; [by eapply reads_element|]. simpl in *. split_and!; (done || lia).
    + destruct (Token d) as [[[[c|s|s'|b|]|] d1]|e] eqn:Et; try done.
      destruct (Ascii.eqb_spec c "]") as [E'|]; [rewrite E' in *|done]. simplify_eq.
      exists []. split; [by apply reads_elements_end|]. simpl. split_and!; (done || lia).
Qed.

(** Fuel that is enough with [nodes] already counted. *)
Definition value_fuel (nodes : Z) : Z := 2 * (20001 - nodes) + 1.
Definition loop_fuel (nodes : Z) : Z := 2 * (20001 - nodes) + 2.

Lemma check_total fuel :
  (∀ d depth nodes, nodes ≤ 20000 → value_fuel nodes ≤ Z.of_nat fuel →
     checkJSON limit fuel d depth nodes ≠ None) ∧
  (∀ d depth nodes seen, nodes ≤ 20000 → loop_fuel nodes ≤ Z.of_nat fuel →
     object_loop limit fuel d depth nodes seen ≠ None) ∧
  (∀ d depth nodes, nodes ≤ 20000 → loop_fuel nodes ≤ Z.of_nat fuel →
     array_loop limit fuel d depth nodes ≠ None).
Proof.
  unfold value_fuel, loop_fuel.
  induction fuel as [|fuel (IHv & IHm & IHe)]; [split_and!; intros; lia|].
  assert (∀ d depth nodes d' n, checkJSON limit fuel d depth nodes = Some (Ok (d', n)) →
            nodes < n ≤ 20000) as Hgrow.
  { intros ????? (v & _ & -> & ? & _)%check_sound. pose proof (nodes_of_pos v). simpl in *. lia. }
  split_and!.
  - intros d depth nodes Hn Hf. cbn [checkJSON]; refold.
    destruct ((depth >? 32) || (nodes + 1 >? 20000)) eqn:G; [done|]. bool_prop.
    destruct (Token d) as [[[[]|] ?]|]; try done.
    repeat case_match; try done; [apply IHm|apply IHe]; lia.
  - intros d depth nodes seen Hn Hf. cbn [object_loop]; refold.
    destruct (More d), (Token d) as [[[[]|] d1]|]; try done; [|by case_match].
    case_match; [done|].
    destruct (checkJSON limit fuel d1 (depth + 1) nodes) as [[[d2 n2]|]|] eqn:Ev; try done.
    + apply Hgrow in Ev. apply IHm; lia.
    + apply IHv in Ev; [done|lia..].
  - intros d depth nodes Hn Hf. cbn [array_loop]; refold.
    destruct (More d); [|by destruct (Token d) as [[[[]|] d1]|]; try done; case_match].
    destruct (checkJSON limit fuel d (depth + 1) nodes) as [[[d2 n2]|]|] eqn:Ev; try done.
    + apply Hgrow in Ev. apply IHe; lia.
    + apply IHv in Ev; [done|lia..].
Qed.

Lemma limits_ok depth nodes :
  depth ≤ 32 → nodes ≤ 20000 → (depth >? 32) || (nodes >? 20000) = false.
Proof. intros. rewrite orb_false_iff, !Z.gtb_ltb, !Z.ltb_ge. lia. Qed.

Lemma check_complete d i d' :
  reads d i d' → ∀ fuel depth nodes seen,
  nodes + item_nodes i ≤ 20000 → depth + item_height i ≤ 32 → item_ok limit seen i →
  match i with
  | IValue _ => value_fuel nodes ≤ Z.of_nat fuel →
      checkJSON limit fuel d depth nodes = Some (Ok (d', nodes + item_nodes i))
  | IMembers _ => loop_fuel nodes ≤ Z.of_nat fuel →
      object_loop limit fuel d depth nodes seen = Some (Ok (d', nodes + item_nodes i))
  | IElements _ => loop_fuel nodes ≤ Z.of_nat fuel →
      array_loop limit fuel d depth nodes = Some (Ok (d', nodes + item_nodes i))
  end.
Proof.
  unfold value_fuel, loop_fuel.
  induction 1 as [d t d' Ht Hs|d l d1 d' Ht _ IH|d l d1 d' Ht _ IH|d d' Hm Ht
                 |d k d1 v d2 l d' Hm Ht _ IHv _ IHl|d d' Hm Ht|d v d1 l d' Hm _ IHv _ IHl];
    intros fuel depth nodes seen Hn Hd Hok Hf;
    match type of Hn with _ + item_nodes ?i ≤ _ => pose proof (item_nodes_nonneg i) as Hpos end;
    (destruct fuel as [|fuel]; [lia|]);
    cbn [checkJSON object_loop array_loop]; refold;
    cbn [item_nodes item_height item_ok nodes_of height foldr fst snd fmap list_fmap] in *.
  - rewrite limits_ok, Ht by lia. cbn [i_json] in Hok. destruct t; try done; by rewrite Hok.
  - pose proof (item_nodes_nonneg (IMembers l)). pose proof (item_height_nonneg (IMembers l)).
    cbn [item_nodes item_height] in *. rewrite limits_ok, Ht by lia. cbn [i_json] in Hok.
    destruct Hok as [? ?]. simpl. rewrite (IH fuel depth (nodes + 1) ∅); [do 3 f_equal; lia|lia|lia| |lia].
    split_and!; try done. apply Forall_forall. set_solver.
  - pose proof (item_nodes_nonneg (IElements l)). pose proof (item_height_nonneg (IElements l)).
    cbn [item_nodes item_height] in *. rewrite limits_ok, Ht by lia. cbn [i_json] in Hok.
    simpl. rewrite (IH fuel depth (nodes + 1) ∅); [do 3 f_equal; lia|lia|lia|done|lia].
  - rewrite Hm, Ht. simpl. do 3 f_equal. lia.
  - destruct Hok as (Hnd & Hfr & Hk & Hv & Hl). rewrite Hm, Ht.
    apply NoDup_cons in Hnd as [Hnin Hnd]. apply Forall_cons in Hfr as [Hks Hfr].
    rewrite bool_decide_eq_false_2 by done.
    rewrite Z.gtb_ltb, (proj2 (Z.ltb_ge _ _)) by lia. simpl.
    pose proof (item_nodes_nonneg (IMembers l)). pose proof (nodes_of_pos v).
    cbn [item_nodes] in *.
    rewrite (IHv fuel (depth + 1) nodes ∅) by (done || lia).
    rewrite (IHl fuel depth (nodes + nodes_of v) ({[k]} ∪ seen)); [do 3 f_equal; lia|lia|lia| |lia].
    split_and!; [done| |done]. apply Forall_forall. intros x Hx.
    rewrite Forall_forall in Hfr. specialize (Hfr x Hx). set_solver.
  - rewrite Hm, Ht. simpl. do 3 f_equal. lia.
  - destruct Hok as (Hv & Hl). rewrite Hm.
    pose proof (item_nodes_nonneg (IElements l)). pose proof (nodes_of_pos v).
    cbn [item_nodes] in *.
    rewrite (IHv fuel (depth + 1) nodes ∅) by (done || lia).
    rewrite (IHl fuel depth (nodes + nodes_of v) ∅); [do 3 f_equal; lia|lia|lia|done|lia].
Qed.

End CheckProofs.
