(* ===== verification/Documents.v ===== *)
(** canonical.go, the document level: canonical bytes, strict decoding, digests of
    values, the strict YAML subset and the manifest and candidate parsers. *)

From S2P Require Import Prelude Regex GoLib Numbers Types Paths Scores Validate Sha256 GoJson.
From S2P Require Import Measurement Canonical.
From Stdlib Require Import Ascii.

(** The RFC 8785 canonicalizer is a third-party package. *)
Class JsonCanonicalizer := { Transform : Bytes → result Bytes }.

(** The reflection-driven codec of a Go type: [json.Marshal], and
    [Decoder.Decode] with [DisallowUnknownFields] and [UseNumber]. *)
Class JsonType (A : Type) := {
  Marshal : A → result Bytes;
  DecodeKnown : Bytes → result A
}.

(** * YAML nodes (gopkg.in/yaml.v3) *)

Inductive yamlKind := DocumentNode | SequenceNode | MappingNode | ScalarNode | AliasNode.
#[export] Instance yamlKind_eq_dec : EqDecision yamlKind.
Proof. solve_decision. Defined.

(** The fields of [yaml.Node] that the code reads. *)
Inductive yamlNode := mkYamlNode {
  y_Kind : yamlKind;
  y_Style : Z;
  y_Tag : string;
  y_Value : string;
  y_Anchor : string;
  y_Content : list yamlNode
}.
Definition TaggedStyle : Z := 1.

(** One [Decode] of a YAML decoder. *)
Inductive yamlRead := YamlDoc (n : yamlNode) | YamlEOF | YamlError (e : string).

(** The outcome of the [i]-th [Decode] call over the bytes. *)
Class YamlLib := { YamlDecode : Bytes → nat → yamlRead }.

(** A scalar of the YAML subset. *)
Definition yaml_scalar (n : yamlNode) : result anyValue :=
  if len (y_Value n) >? 128 * 1024 then Err "YAML scalar exceeds limit" else
  if y_Tag n ==s "!!str" then Ok (AString (y_Value n))
  else if y_Tag n ==s "!!null" then Ok ANull
  else if y_Tag n ==s "!!bool" then
    if y_Value n ==s "true" then Ok (ABool true)
    else if y_Value n ==s "false" then Ok (ABool false)
    else Err "canonical true/false required"
  else if y_Tag n ==s "!!int" then
    match ParseInt64 (y_Value n) with
    | Some v => if int_string v !=s y_Value n then Err "canonical decimal integer required"
                else Ok (AInt v)
    | None => Err "canonical decimal integer required"
    end
  else Err "YAML tag forbidden; quote decimal scores and timestamps".

Definition bad_yaml_key (key : yamlNode) : bool :=
  (y_Tag key !=s "!!str") || (y_Anchor key !=s "") || (len (y_Value key) >? 1024)
  || (y_Value key ==s "<<").

(** [yamlValue]; [nodes] is the shared counter.  The recursion is on the node. *)
Fixpoint yamlValue (n : yamlNode) (depth nodes : Z) {struct n} : result (anyValue * Z) :=
  let nodes := nodes + 1 in
  if (depth >? 32) || (nodes >? 20000) then Err "YAML exceeds structure limit" else
  if (y_Anchor n !=s "") || bool_decide (y_Kind n = AliasNode)
     || negb (Z.land (y_Style n) TaggedStyle =? 0)
  then Err "YAML anchors, aliases and explicit tags forbidden" else
  match n with
  | mkYamlNode kind _ _ _ _ content =>
      match kind with
      | DocumentNode =>
          match content with
          | [c] => yamlValue c (depth + 1) nodes
          | _ => Err "invalid YAML document"
          end
      | MappingNode =>
          let! mn :=
            (fix members (content : list yamlNode) (acc : list (string * anyValue)) (nodes : Z) :=
               match content with
               | [] => Ok (acc, nodes)
               | key :: rest =>
                   if bad_yaml_key key then Err "invalid YAML key" else
                   if existsb (λ kv, kv.1 ==s y_Value key) acc then Err "duplicate YAML key" else
                   match rest with
                   | [] => Err index_panic
                   | value :: rest =>
                       let! vn := yamlValue value (depth + 1) nodes in
                       members rest (acc ++ [(y_Value key, vn.1)]) vn.2
                   end
               end) content [] nodes in
          Ok (AMap mn.1, mn.2)
      | SequenceNode =>
          let! ln :=
            (fix elements (content : list yamlNode) (acc : list anyValue) (nodes : Z) :=
               match content with
               | [] => Ok (acc, nodes)
               | child :: rest =>
                   let! vn := yamlValue child (depth + 1) nodes in
                   elements rest (acc ++ [vn.1]) vn.2
               end) content [] nodes in
          Ok (AList ln.1, ln.2)
      | ScalarNode => let! v := yaml_scalar n in Ok (v, nodes)
      | AliasNode => Err "unsupported YAML node"
      end
  end.

Section Documents.
Context `{JsonCanonicalizer} `{YamlLib} `{UnicodeLib} `{UrlLib}.

(** The tail shared by [CanonicalJSON] and [DecodeStrictBounded]: check one value,
    then require the end of the input. *)
Definition check_document (data : Bytes) (stringLimit : Z) (trailing : string) : result unit :=
  match checkJSON stringLimit check_fuel (NewDecoder data) 0 0 with
  | None => Err "out of fuel"
  | Some (Err e) => Err e
  | Some (Ok (decoder, _)) =>
      match Token decoder with
      | Ok (None, _) => Ok tt
      | _ => Err trailing
      end
  end.

Definition CanonicalJSON (data : Bytes) : result Bytes :=
  if (len data =? 0) || (len data >? MaxDocumentBytes) || negb (ValidString data)
  then Err "invalid document size or UTF-8" else
  let! _ := check_document data (128 * 1024) "trailing JSON value" in
  Transform data.

Definition DecodeStrictBounded {A} `{JsonType A} (data : Bytes) (maximum : Z) : result A :=
  if (maximum <? 1) || (maximum >? Z.shiftl 128 20) || (len data =? 0)
     || (len data >? maximum) || negb (ValidString data)
  then Err "snapshot document exceeds limits" else
  let! _ := check_document data maximum "trailing snapshot data" in
  DecodeKnown data.

Definition DecodeStrict {A} `{JsonType A} (data : Bytes) : result A :=
  let! canonical := CanonicalJSON data in
  DecodeKnown canonical.

Definition Digest {A} `{JsonType A} (value : A) : result string :=
  let! data := Marshal value in
  let! data := CanonicalJSON data in
  Ok (DigestBytes data).

(** * Authoring documents *)

Definition AuthoringJSON (data : Bytes) : result Bytes :=
  let trimmed := TrimSpace data in
  if (len trimmed =? 0) || (len trimmed >? MaxDocumentBytes) || negb (ValidString trimmed)
  then Err "invalid authoring document" else
  if HasPrefix trimmed "{" || HasPrefix trimmed "[" then CanonicalJSON trimmed else
  match YamlDecode trimmed 0 with
  | YamlEOF => Err "EOF"
  | YamlError e => Err e
  | YamlDoc document =>
      match YamlDecode trimmed 1 with
      | YamlEOF =>
          let! value := yamlValue document 0 0 in
          CanonicalJSON (MarshalAny value.1)
      | _ => Err "exactly one YAML document required"
      end
  end.

Definition ParseCandidate `{JsonType Candidate} (data : Bytes) : result Candidate :=
  let! j := AuthoringJSON data in
  let! value := DecodeStrict j in
  let! _ := ValidateCandidate value in
  Ok value.

Definition ParseManifest `{JsonType Manifest} (data : Bytes) : result Manifest :=
  let! j := AuthoringJSON data in
  let! value := DecodeStrict j in
  let! _ := ValidateManifest value in
  Ok value.
End Documents.

(** * The accepted YAML subset *)

Lemma yamlNode_list_ind (P : yamlNode → Prop) :
  (∀ k s t v a content, Forall P content → P (mkYamlNode k s t v a content)) → ∀ n, P n.
Proof.
  intros Hstep. fix IH 1. intros [k s t v a content]. apply Hstep.
  induction content as [|c content IHc]; constructor; [apply IH|exact IHc].
Qed.

(** Values a YAML document may denote: bounded nesting and size, string keys
    distinct in each mapping and never the merge key, bounded strings, 64-bit
    integers. *)
Fixpoint any_nodes (v : anyValue) : Z :=
  match v with
  | AList l => 1 + foldr (λ v n, any_nodes v + n) 0 l
  | AMap l => 1 + foldr (λ kv n, any_nodes kv.2 + n) 0 l
  | _ => 1
  end.
Fixpoint any_within (depth : Z) (v : anyValue) : Prop :=
  depth ≤ 32 ∧
  match v with
  | AList l => foldr (λ v P, any_within (depth + 1) v ∧ P) True l
  | AMap l =>
      NoDup l.*1 ∧
      foldr (λ kv P, len kv.1 ≤ 1024 ∧ kv.1 ≠ "<<" ∧ any_within (depth + 1) kv.2 ∧ P) True l
  | AString s => len s ≤ 128 * 1024
  | AInt z => int64_range z
  | _ => True
  end.

Lemma any_within_mono v d d' : d' ≤ d → any_within d v → any_within d' v.
Proof.
  revert v d d'. fix IH 1. intros [| | | |l|l] d d' Hd [H1 H2]; simpl; (split; [lia|]); try done.
  - induction l as [|v l IHl]; simpl in *; [done|]. destruct H2 as [Hv Hl].
    split; [|by apply IHl]. eapply IH; [|exact Hv]. lia.
  - destruct H2 as [Hnd H2]. split; [done|]. clear Hnd.
    induction l as [|[k v] l IHl]; simpl in *; [done|]. destruct H2 as (? & ? & Hv & Hl).
    split_and!; try done; [|by apply IHl]. eapply IH; [|exact Hv]. lia.
Qed.

Lemma yaml_scalar_within n v depth :
  yaml_scalar n = Ok v → depth ≤ 32 → any_within depth v ∧ any_nodes v = 1.
Proof.
  unfold yaml_scalar. intros Hv Hd. ok_step Hv. bool_prop.
  repeat case_match; simplify_eq/=; split_and!; try (done || lia).
  unfold ParseInt64 in *. repeat case_match; simplify_eq. bool_prop.
  unfold int64_range. lia.
Qed.

(** What [yamlValue] establishes of one node. *)
Definition yaml_good (n : yamlNode) : Prop :=
  ∀ depth nodes v m, yamlValue n depth nodes = Ok (v, m) →
  any_within depth v ∧ nodes + any_nodes v ≤ m ≤ 20000.

Definition yaml_members (depth : Z) :=
  fix members (content : list yamlNode) (acc : list (string * anyValue)) (nodes : Z)
      : result (list (string * anyValue) * Z) :=
    match content with
    | [] => Ok (acc, nodes)
    | key :: rest =>
        if bad_yaml_key key then Err "invalid YAML key" else
        if existsb (λ kv, kv.1 ==s y_Value key) acc then Err "duplicate YAML key" else
        match rest with
        | [] => Err index_panic
        | value :: rest =>
            let! vn := yamlValue value (depth + 1) nodes in
            members rest (acc ++ [(y_Value key, vn.1)]) vn.2
        end
    end.
Definition yaml_elements (depth : Z) :=
  fix elements (content : list yamlNode) (acc : list anyValue) (nodes : Z)
      : result (list anyValue * Z) :=
    match content with
    | [] => Ok (acc, nodes)
    | child :: rest =>
        let! vn := yamlValue child (depth + 1) nodes in
        elements rest (acc ++ [vn.1]) vn.2
    end.

Lemma any_nodes_app (l : list anyValue) v :
  foldr (λ v n, any_nodes v + n) 0 (l ++ [v]) = foldr (λ v n, any_nodes v + n) 0 l + any_nodes v.
Proof. induction l as [|x l IH]; simpl; [lia|]. rewrite IH. lia. Qed.
Lemma any_nodes_app_map (l : list (string * anyValue)) k v :
  foldr (λ kv n, any_nodes kv.2 + n) 0 (l ++ [(k, v)])
  = foldr (λ kv n, any_nodes kv.2 + n) 0 l + any_nodes v.
Proof. induction l as [|x l IH]; simpl; [lia|]. rewrite IH. lia. Qed.

Lemma yaml_elements_good depth content acc nodes l m :
  Forall yaml_good content → nodes ≤ 20000 →
  yaml_elements depth content acc nodes = Ok (l, m) →
  foldr (λ v P, any_within (depth + 1) v ∧ P) True acc →
  foldr (λ v P, any_within (depth + 1) v ∧ P) True l ∧
  nodes + foldr (λ v n, any_nodes v + n) 0 l ≤ m + foldr (λ v n, any_nodes v + n) 0 acc ∧
  m ≤ 20000.
Proof.
  intros Hf Hn. revert acc nodes Hn. induction Hf as [|c content Hc Hf IH]; intros acc nodes Hn He Hacc;
    cbn [yaml_elements] in He; [simplify_eq; split_and!; (done || lia)|].
  ok_step He. destruct r as [v n]. apply Hc in E as (Hv & ?).
  destruct (IH (acc ++ [v]) n ltac:(lia) He) as (? & Hle & ?).
  { clear -Hacc Hv. induction acc; simpl in *; naive_solver. }
  rewrite any_nodes_app in Hle. split_and!; (done || lia).
Qed.

Lemma yaml_members_good depth content acc nodes l m :
  Forall yaml_good content → nodes ≤ 20000 →
  yaml_members depth content acc nodes = Ok (l, m) →
  any_within depth (AMap acc) →
  any_within depth (AMap l) ∧
  nodes + foldr (λ kv n, any_nodes kv.2 + n) 0 l ≤ m + foldr (λ kv n, any_nodes kv.2 + n) 0 acc ∧
  m ≤ 20000.
Proof.
  remember (length content) as k eqn:Hk. revert content Hk acc nodes.
  induction k as [k IH] using lt_wf_ind. intros [|key rest] Hk acc nodes Hf Hn He Hacc;
    cbn [yaml_members] in He; [simplify_eq; split_and!; (done || lia)|].
  do 2 ok_step He. destruct rest as [|value rest]; [done|]. ok_step He. destruct r as [v n].
  rewrite !Forall_cons in Hf. destruct Hf as (_ & Hvg & Hf). apply Hvg in E as (Hv & ?).
  destruct (IH (length rest) ltac:(simpl in *; lia) rest eq_refl (acc ++ [(y_Value key, v)]) n)
    as (? & Hle & ?); try (done || lia).
  - destruct Hacc as (? & Hnd & Hw). unfold bad_yaml_key in G. split; [done|]. split.
    + rewrite fmap_app. apply NoDup_app. split_and!; [done| |apply NoDup_singleton].
      intros x (kv & -> & Hkv)%list_elem_of_fmap Hx. simpl in Hx.
      apply list_elem_of_singleton in Hx.
      assert (existsb (λ kv, kv.1 ==s y_Value key) acc = true); [|congruence].
      apply existsb_exists. exists kv. split; [by apply list_elem_of_In|]. by rewrite Hx, String.eqb_refl.
    + clear -Hw Hv G. bool_prop. induction acc as [|kv acc IHa]; simpl in *; [split_and!; (done || lia)|].
      destruct Hw as (? & ? & ? & ?). split_and!; try done. by apply IHa.
  - rewrite any_nodes_app_map in Hle. split_and!; (done || lia).
Qed.

Lemma yamlValue_good n : yaml_good n.
Proof.
  induction n as [k s t v a content IH] using yamlNode_list_ind.
  intros depth nodes w m Hy. cbn [yamlValue] in Hy. do 2 ok_step Hy. bool_prop.
  destruct k.
  - destruct content as [|c [|]]; try done. apply Forall_cons in IH as [IH _].
    apply IH in Hy as (? & ?). split; [eapply any_within_mono; [|done]; lia|lia].
  - fold (yaml_elements depth) in Hy. ok_step Hy. destruct r as [l m']. simplify_eq/=.
    apply yaml_elements_good in E as (? & ? & ?); [|done..|lia|done]. split; [done|]. simpl in *. lia.
  - fold (yaml_members depth) in Hy. ok_step Hy. destruct r as [l m']. simplify_eq/=.
    apply yaml_members_good in E as (? & ? & ?); [|done|lia|split_and!; [lia|constructor|done]].
    split; [done|]. simpl in *. lia.
  - ok_step Hy. simplify_eq. apply (yaml_scalar_within _ _ depth) in E as [? Hn]; [|lia].
    split; [done|]. rewrite Hn. lia.
  - done.
Qed.

(** A YAML authoring document that the strict subset accepts denotes a bounded
    value: at most 20000 values and 32 levels, every mapping with distinct,
    bounded string keys none of which is the merge key, strings of at most 128 KiB
    and integers of 64 bits, whatever node tree the YAML library produced. *)
Theorem yamlValue_bounded document v n :
  yamlValue document 0 0 = Ok (v, n) → any_within 0 v ∧ any_nodes v ≤ n ≤ 20000.
Proof. intros (? & ?)%yamlValue_good. split; [done|lia]. Qed.

Lemma yamlValue_bounded_witness :
  any_nodes (AMap [("score", AString "0.5"); ("runs", AList [AInt 3; AInt (-4)])]) ≤ 6.
Proof.
  pose (str := λ s, mkYamlNode ScalarNode 0 "!!str" s "" []).
  pose (int := λ s, mkYamlNode ScalarNode 0 "!!int" s "" []).
  exact (proj1 (proj2 (yamlValue_bounded
    (mkYamlNode DocumentNode 0 "" "" ""
       [mkYamlNode MappingNode 0 "!!map" "" ""
          [str "score"; str "0.5"; str "runs";
           mkYamlNode SequenceNode 0 "!!seq" "" "" [int "3"; int "-4"]]]) _ _ eq_refl))).
Defined.
