(* ===== verification/Results.v ===== *)
(** Validator results and run receipts: [ValidateResult] (scores.go), the typed
    measurement evidence of a run, confirmed achievements (evaluation.go) and the
    confirmation of measured runs (measurement.go). *)

From S2P Require Import Prelude Regex GoLib Numbers Types Scores Paths Measurement Evaluation.
From S2P Require Import Validate GoJson Canonical Documents.
From Stdlib Require Import Ascii QArith.
Open Scope Z_scope.

Section Results.
Context `{UnicodeLib} `{JsonCanonicalizer} `{JsonType ValidatorResult}.

(** The version-specific part of [ValidateResult]. *)
Definition check_result_version (res : ValidatorResult) (manifest : Manifest) : result unit :=
  if manifest_APIVersion manifest ==s APIVersion then
    if bool_decide (is_Some (validatorResult_Timing res))
       || (validatorResult_ComparisonID res !=s "")
       || negb (Z.of_nat (size (validatorResult_Measurements res)) =? 0)
       || bool_decide (is_Some (manifest_Evaluation manifest))
    then Err "v1 results cannot contain v2 measurement semantics" else Ok tt
  else if manifest_APIVersion manifest ==s ManifestV2 then
    match manifest_Evaluation manifest with
    | None => Err "result belongs to a different comparison series"
    | Some e =>
        if validatorResult_ComparisonID res !=s evaluationContract_ComparisonID e
        then Err "result belongs to a different comparison series" else
        ValidateMeasurements (validatorResult_Measurements res) e
    end
  else Err "unsupported manifest version".

(** Trusted timing: required in performance mode, forbidden otherwise. *)
Definition check_result_timing (res : ValidatorResult) (manifest : Manifest) : result unit :=
  if evaluation_mode manifest ==s "performance" then
    match validatorResult_Timing res,
          (e ← manifest_Evaluation manifest; evaluationContract_Measurement e) with
    | Some timing, Some policy =>
        let! summary := ValidateTimingEvidence timing policy in
        if validatorResult_Score res !=s timingSummary_LowerRatio summary
        then Err "timing score must equal the conservative confidence bound" else Ok tt
    | _, _ => Err "trusted paired timing evidence required"
    end
  else if bool_decide (is_Some (validatorResult_Timing res))
  then Err "timing evidence is outside this evaluation contract" else Ok tt.

Definition check_result_gates (res : ValidatorResult) (manifest : Manifest) : result unit :=
  if negb (Z.of_nat (size (validatorResult_Gates res)) =? lenl (manifest_HardGates manifest))
  then Err "missing or unknown hard gate" else
  for_each (λ gate, match validatorResult_Gates res !! gate with
                    | Some _ => Ok tt
                    | None => Err "missing hard gate"
                    end) (manifest_HardGates manifest).

(** The ranked ticks: of the primary typed measurement, or of the v1 score. *)
Definition result_ticks (res : ValidatorResult) (manifest : Manifest) : result string :=
  match manifest_Evaluation manifest with
  | Some e =>
      let name := metric_Name (manifest_Metric manifest) in
      let value := default "" (validatorResult_Measurements res !! name) in
      if validatorResult_Score res !=s value
      then Err "score differs from primary measurement" else
      match List.find (λ d, measurementDefinition_Name d ==s name)
              (evaluationContract_Measurements e) with
      | Some d =>
          let! x := MeasurementNumber value (measurementDefinition_Type d) in
          normalizeRationalScore x (manifest_Metric manifest)
      | None => Err "primary measurement is undeclared"
      end
  | None => NormalizeScore (validatorResult_Score res) (manifest_Metric manifest)
  end.

Definition ValidateResult (data : Bytes) (manifest : Manifest)
    : result (ValidatorResult * string) :=
  if len data >? 65536 then Err "result exceeds 64 KiB" else
  let! res := DecodeStrict data in
  if (validatorResult_APIVersion res !=s manifest_APIVersion manifest)
     || (validatorResult_Kind res !=s "ValidatorResult")
  then Err "unsupported result version/kind" else
  let! _ := check_result_version res manifest in
  let! _ := check_result_timing res manifest in
  let! _ := check_result_gates res manifest in
  let! ticks := result_ticks res manifest in
  Ok (res, ticks).

(** * Run receipts *)

(** The gate loop: every typed gate must equal the outer one.  All failures carry
    the same error, so the map's iteration order is immaterial. *)
Definition same_gates (inner outer : gmap string bool) : bool :=
  forallb (λ '(name, value), bool_decide (outer !! name = Some value)) (map_to_list inner).
Definition some_gate_failed (gates : gmap string bool) : bool :=
  existsb (λ '(_, value), negb value) (map_to_list gates).

Definition ValidateRunMeasurementEvidence (run : RunReceipt) (m : Manifest) : result unit :=
  if manifest_APIVersion m !=s ManifestV2 then
    if bool_decide (is_Some (runReceipt_ValidatorResult run))
    then Err "legacy run contains unbound measurement evidence" else Ok tt
  else
  if (runReceipt_Outcome run !=s "valid") && (runReceipt_Outcome run !=s "hard_gate_failed")
     && (runReceipt_Outcome run !=s "measurement_inconclusive") then Ok tt else
  match runReceipt_ValidatorResult run with
  | None => Err "v2 run is missing its typed measurement evidence"
  | Some typed =>
      let! data := Marshal typed in
      let! rt := ValidateResult data m in
      let '(res, ticks) := rt in
      if (ticks !=s runReceipt_ScoreTicks run)
         || negb (Z.of_nat (size (validatorResult_Gates res))
                  =? Z.of_nat (size (runReceipt_Gates run)))
      then Err "run score or gates differ from typed evidence" else
      if negb (same_gates (validatorResult_Gates res) (runReceipt_Gates run))
      then Err "run gate differs from typed evidence" else
      if negb (Bool.eqb (some_gate_failed (validatorResult_Gates res))
                 (runReceipt_Outcome run ==s "hard_gate_failed"))
         || (ValidatorOutcome res !=s runReceipt_Outcome run)
      then Err "run outcome differs from measurement gates" else Ok tt
  end.

(** The loop over the two runs, with its early [return false]. *)
Definition run_achieves (m : Manifest) (e : EvaluationContract) (milestone : Milestone)
    (run : RunReceipt) : result bool :=
  if runReceipt_Outcome run !=s "valid" then Ok false else
  let! _ := ValidateRunMeasurementEvidence run m in
  match runReceipt_ValidatorResult run with
  | None => Err nil_panic
  | Some typed => MeetsPredicates (validatorResult_Measurements typed) (milestone_Requires milestone) e
  end.

Definition ConfirmedAchievement (m : Manifest) (milestone : Milestone) (runs : list RunReceipt)
    : result bool :=
  if lenl (milestone_Requires milestone) =? 0 then Ok true else
  match manifest_Evaluation m, runs with
  | Some e, [run0; run1] =>
      if (runReceipt_JobID run0 ==s "") || (runReceipt_JobID run0 ==s runReceipt_JobID run1)
      then Err "achievement confirmation must be a different run" else
      all_true (run_achieves m e milestone) runs
  | _, _ => Err "achievement lacks two complete measurement records"
  end.

(** * Confirming measured runs *)

(** [a.ValidatorResult.Timing.Summary], a chain of pointer dereferences. *)
Definition run_summary (run : RunReceipt) : result TimingSummary :=
  match (r ← runReceipt_ValidatorResult run; validatorResult_Timing r) with
  | Some timing => Ok (timingEvidence_Summary timing)
  | None => Err nil_panic
  end.

Definition ConfirmMeasuredRuns (a b : RunReceipt) (m : Manifest) : result string :=
  if (manifest_APIVersion m !=s ManifestV2)
     || negb (bool_decide (is_Some (e ← manifest_Evaluation m; evaluationContract_Measurement e)))
     || (evaluation_mode m !=s "performance")
     || (runReceipt_Outcome a !=s "valid") || (runReceipt_Outcome b !=s "valid")
  then Err "valid measured repeats required" else
  let! _ := for_each (λ r, ValidateRunMeasurementEvidence r m) [a; b] in
  let! x := run_summary a in
  let! y := run_summary b in
  let! xl := MeasurementNumber (timingSummary_LowerRatio x) "rational" or nil_panic in
  let! xu := MeasurementNumber (timingSummary_UpperRatio x) "rational" or nil_panic in
  let! yl := MeasurementNumber (timingSummary_LowerRatio y) "rational" or nil_panic in
  let! yu := MeasurementNumber (timingSummary_UpperRatio y) "rational" or nil_panic in
  if (RatCmp xl yu >? 0) || (RatCmp yl xu >? 0)
  then Err "fresh timing intervals do not overlap" else
  let c := match CompareTicks (runReceipt_ScoreTicks a) (runReceipt_ScoreTicks b) with
           | Ok c => c | Err _ => 0 end in
  if c <? 0 then Ok (runReceipt_ScoreTicks a) else Ok (runReceipt_ScoreTicks b).

(** The baseline's own interval must contain a ratio of one. *)
Definition check_self_comparison (r : RunReceipt) : result unit :=
  let! s := run_summary r in
  let! lo := MeasurementNumber (timingSummary_LowerRatio s) "rational" or nil_panic in
  let! hi := MeasurementNumber (timingSummary_UpperRatio s) "rational" or nil_panic in
  if (RatCmp lo 1 >? 0) || (RatCmp hi 1 <? 0)
  then Err "baseline self-comparison shows measurement bias" else Ok tt.

Definition ValidateMeasuredFixture (a b : RunReceipt) (m : Manifest) (f : Fixture)
    : result string :=
  if (runReceipt_Outcome a !=s fixture_ExpectedOutcome f)
     || (runReceipt_Outcome b !=s runReceipt_Outcome a)
     || (runReceipt_ArtifactDigest a !=s runReceipt_ArtifactDigest b)
  then Err "fixture outcome or artifact changed" else
  if runReceipt_Outcome a !=s "valid" then Ok "" else
  let! score := ConfirmMeasuredRuns a b m in
  if fixture_Name f ==s "baseline" then
    match (e ← manifest_Evaluation m; evaluationContract_Measurement e) with
    | None => Err nil_panic
    | Some policy =>
        if runReceipt_ArtifactDigest a !=s measurementPolicy_BaselineDigest policy
        then Err "baseline fixture is not the frozen reference program" else
        let! _ := for_each check_self_comparison [a; b] in
        Ok score
    end
  else Ok score.
End Results.
