(* ===== verification/ResultsProofs.v ===== *)
(** What accepted results, achievements and measured repeats establish. *)

From S2P Require Import Prelude Regex GoLib Numbers Types Scores Paths Measurement.
From S2P Require Import Evaluation EvaluationProofs Validate GoJson Canonical Documents Results.
From Stdlib Require Import Ascii QArith.
Open Scope Z_scope.

(** Declared keys that are all present, with nothing else: the keys are exactly
    the declared ones. *)
Lemma keys_exact {A} (m : gmap string A) (l : list string) :
  Z.of_nat (size m) = lenl l → (∀ k, k ∈ l → is_Some (m !! k)) → NoDup l →
  dom m = list_to_set l.
Proof.
  intros Hsize Hin Hnd. symmetry. apply set_subseteq_size_eq.
  - intros k Hk%elem_of_list_to_set. by apply elem_of_dom, Hin.
  - rewrite size_list_to_set, size_dom by done. unfold lenl in Hsize. lia.
Qed.

Lemma find_some_elem {A} (f : A → bool) l x :
  List.find f l = Some x → x ∈ l ∧ f x = true.
Proof. intros Hf. apply find_some in Hf as [? ?]. by rewrite list_elem_of_In. Qed.

Lemma measurements_checked values e d :
  ValidateMeasurements values e = Ok tt → d ∈ evaluationContract_Measurements e →
  check_measurement values d = Ok tt.
Proof.
  unfold ValidateMeasurements. intros Hv Hd. ok_step Hv. apply for_each_ok in Hv.
  rewrite Forall_forall in Hv. by apply Hv.
Qed.

Section ResultProofs.
Context `{UnicodeLib} `{JsonCanonicalizer} `{JsonType ValidatorResult}.

Lemma ValidateResult_inv data m r ticks :
  ValidateResult data m = Ok (r, ticks) →
  len data ≤ 65536 ∧ DecodeStrict data = Ok r ∧
  validatorResult_APIVersion r = manifest_APIVersion m ∧
  check_result_version r m = Ok tt ∧ check_result_timing r m = Ok tt ∧
  check_result_gates r m = Ok tt ∧ result_ticks r m = Ok ticks.
Proof.
  unfold ValidateResult. intros Hr. do 7 ok_step Hr. simplify_eq. bool_prop.
  repeat match goal with u : unit |- _ => destruct u end. by split_and!.
Qed.

Lemma check_gates_exact r m :
  check_result_gates r m = Ok tt → NoDup (manifest_HardGates m) →
  dom (validatorResult_Gates r) = list_to_set (manifest_HardGates m).
Proof.
  unfold check_result_gates. intros Hg. ok_step Hg. bool_prop. apply keys_exact; [done|].
  intros k Hk. apply for_each_ok in Hg. rewrite Forall_forall in Hg. specialize (Hg k Hk).
  cbv beta in Hg. by destruct (validatorResult_Gates r !! k).
Qed.

Lemma result_ticks_v2 r m e ticks :
  manifest_Evaluation m = Some e →
  ValidateMeasurements (validatorResult_Measurements r) e = Ok tt →
  result_ticks r m = Ok ticks →
  ∃ d x q z, d ∈ evaluationContract_Measurements e ∧
    measurementDefinition_Name d = metric_Name (manifest_Metric m) ∧
    validatorResult_Measurements r !! metric_Name (manifest_Metric m)
      = Some (validatorResult_Score r) ∧
    MeasurementNumber (validatorResult_Score r) (measurementDefinition_Type d) = Ok x ∧
    decimal (metric_Quantum (manifest_Metric m)) = Ok q ∧ (0 < q)%Q ∧
    ParseTicks ticks = Ok z ∧ tick_interval (metric_Direction (manifest_Metric m)) z x q.
Proof.
  unfold result_ticks. intros -> Hv Ht. ok_step Ht. bool_prop.
  destruct (List.find _ _) as [d|] eqn:Ef; [|done].
  apply find_some_elem in Ef as [Hd Hn]. bool_prop. ok_step Ht.
  apply normalizeRationalScore_ok in Ht as (q & z & ? & Hq & Hdir & Hz & Hp & _ & _).
  apply Sign_pos in Hq.
  destruct (check_measurement_number _ _ (measurements_checked _ _ _ Hv Hd)) as (v & x & Hl & Hx).
  rewrite Hn in Hl. rewrite Hl in *. simpl in *. exists d, r0, q, z.
  rewrite <-exact_ticks_interval by done. rewrite G. by split_and!.
Qed.

(** For a version 2 manifest the ranked ticks of an accepted result come from
    the declared primary measurement and nothing else: the asserted score is that
    measurement's text, the ticks are its exact value over the quantum rounded
    against the solver, in performance mode it is also the lower confidence bound
    recomputed from the raw paired timings, and the gates reported are exactly
    the manifest's hard gates. *)
Theorem ValidateResult_primary_authoritative data m e r ticks :
  ValidateResult data m = Ok (r, ticks) → manifest_APIVersion m = ManifestV2 →
  manifest_Evaluation m = Some e →
  (∃ d x q z, d ∈ evaluationContract_Measurements e ∧
    measurementDefinition_Name d = metric_Name (manifest_Metric m) ∧
    validatorResult_Measurements r !! metric_Name (manifest_Metric m)
      = Some (validatorResult_Score r) ∧
    MeasurementNumber (validatorResult_Score r) (measurementDefinition_Type d) = Ok x ∧
    decimal (metric_Quantum (manifest_Metric m)) = Ok q ∧ (0 < q)%Q ∧
    ParseTicks ticks = Ok z ∧ tick_interval (metric_Direction (manifest_Metric m)) z x q) ∧
  (evaluationContract_Mode e = "performance" → ∃ t p s,
    validatorResult_Timing r = Some t ∧ evaluationContract_Measurement e = Some p ∧
    SummarizeTimings (timingEvidence_Trials t) p = Ok s ∧
    validatorResult_Score r = timingSummary_LowerRatio s) ∧
  (NoDup (manifest_HardGates m) →
    dom (validatorResult_Gates r) = list_to_set (manifest_HardGates m)).
Proof.
  intros (_ & _ & _ & Hver & Htim & Hg & Ht)%ValidateResult_inv Hv He. split_and!.
  - eapply result_ticks_v2; [done| |done]. unfold check_result_version in Hver.
    rewrite Hv, He in Hver. simpl in Hver. by ok_step Hver.
  - intros Hmode. unfold check_result_timing, evaluation_mode in Htim.
    rewrite He, Hmode in Htim. simpl in Htim.
    destruct (validatorResult_Timing r) as [t|]; [|done].
    destruct (evaluationContract_Measurement e) as [p|]; [|done]. do 2 ok_step Htim. bool_prop.
    exists t, p, r0. split_and!; try done. unfold ValidateTimingEvidence in E.
    do 4 ok_step E. by simplify_eq.
  - by apply check_gates_exact.
Qed.

(** ** Achievements *)

Lemma all_true_true {A} (f : A → result bool) l :
  all_true f l = Ok true ↔ Forall (λ x, f x = Ok true) l.
Proof.
  induction l as [|x l IH]; simpl; [split; [constructor|done]|].
  rewrite Forall_cons, <-IH. destruct (f x) as [[]|]; naive_solver.
Qed.

(** One run demonstrates every required property. *)
Definition demonstrates (m : Manifest) (e : EvaluationContract)
    (requires : list MeasurementPredicate) (run : RunReceipt) : Prop :=
  runReceipt_Outcome run = "valid" ∧ ValidateRunMeasurementEvidence run m = Ok tt ∧
  ∃ typed, runReceipt_ValidatorResult run = Some typed ∧
    ValidateMeasurements (validatorResult_Measurements typed) e = Ok tt ∧
    ValidatePredicates requires e = Ok tt ∧
    ∀ p d, p ∈ requires → d ∈ evaluationContract_Measurements e →
      measurementDefinition_Name d = measurementPredicate_Measurement p →
      ∃ v x y, validatorResult_Measurements typed !! measurementDefinition_Name d = Some v ∧
        MeasurementNumber v (measurementDefinition_Type d) = Ok x ∧
        MeasurementNumber (measurementPredicate_Value p) (measurementDefinition_Type d) = Ok y ∧
        predicate_holds (measurementPredicate_Operator p) x y.

Lemma run_achieves_ok m e milestone run :
  run_achieves m e milestone run = Ok true ↔
  demonstrates m e (milestone_Requires milestone) run.
Proof.
  unfold run_achieves, demonstrates.
  destruct (String.eqb_spec (runReceipt_Outcome run) "valid") as [|]; simpl; [|naive_solver].
  destruct (ValidateRunMeasurementEvidence run m) as [[]|]; [|naive_solver].
  destruct (runReceipt_ValidatorResult run) as [typed|]; [|naive_solver].
  rewrite (proj2 (MeetsPredicates_spec _ _ _)). naive_solver.
Qed.

(** A milestone with required properties is confirmed exactly when there are
    two runs with different non-empty job identities, both with outcome "valid",
    both with typed evidence that revalidates against the manifest, and both
    exactly satisfying every required predicate; a scalar score alone never
    confirms it, and one run never counts twice. *)
Theorem ConfirmedAchievement_exact m milestone runs :
  ConfirmedAchievement m milestone runs = Ok true ↔
  milestone_Requires milestone = [] ∨
  ∃ e a b, manifest_Evaluation m = Some e ∧ runs = [a; b] ∧
    runReceipt_JobID a ≠ "" ∧ runReceipt_JobID a ≠ runReceipt_JobID b ∧
    demonstrates m e (milestone_Requires milestone) a ∧
    demonstrates m e (milestone_Requires milestone) b.
Proof.
  unfold ConfirmedAchievement, lenl.
  destruct (milestone_Requires milestone) as [|p ps] eqn:Hreq; simpl; [naive_solver|].
  destruct (manifest_Evaluation m) as [e|]; [|naive_solver].
  destruct runs as [|a [|b [|]]]; [naive_solver..| |naive_solver].
  destruct (String.eqb_spec (runReceipt_JobID a) ""); [naive_solver|].
  destruct (String.eqb_spec (runReceipt_JobID a) (runReceipt_JobID b)); [naive_solver|].
  cbn [orb]. rewrite all_true_true, !Forall_cons, !run_achieves_ok, Hreq, Forall_nil. naive_solver.
Qed.

(** ** Measured repeats *)

Lemma evidence_ticks run m :
  manifest_APIVersion m = ManifestV2 → runReceipt_Outcome run = "valid" →
  ValidateRunMeasurementEvidence run m = Ok tt →
  ∃ typed data r z, runReceipt_ValidatorResult run = Some typed ∧ Marshal typed = Ok data ∧
    ValidateResult data m = Ok (r, runReceipt_ScoreTicks run) ∧
    ParseTicks (runReceipt_ScoreTicks run) = Ok z.
Proof.
  unfold ValidateRunMeasurementEvidence. intros -> -> Hev. simpl in Hev.
  destruct (runReceipt_ValidatorResult run) as [typed|]; [|done]. do 2 ok_step Hev.
  destruct r0 as [r0 ticks]. do 3 ok_step Hev. bool_prop. subst ticks.
  exists typed, r, r0. pose proof (ValidateResult_inv _ _ _ _ E0) as (_&_&_&_&_&_&Ht).
  assert (∃ z, ParseTicks (runReceipt_ScoreTicks run) = Ok z) as [z ?]; [|by exists z].
  unfold result_ticks, NormalizeScore in Ht.
  repeat case_match; try done;
    apply normalizeRationalScore_ok in Ht as (? & ? & ? & ? & ? & ? & ? & ?); eauto.
Qed.

Lemma CompareTicks_min a b x y :
  ParseTicks a = Ok x → ParseTicks b = Ok y →
  (if match CompareTicks a b with Ok c => c | Err _ => 0 end <? 0 then Ok a else Ok b)
  = Ok (int_string (Z.min x y)).
Proof.
  intros Ha Hb. unfold CompareTicks. rewrite Ha, Hb, Cmp_ltb.
  apply ParseTicks_ok in Ha as [-> _], Hb as [-> _].
  destruct (Z.ltb_spec x y); do 2 f_equal; lia.
Qed.

(** The confidence interval a run reports. *)
Definition reports_interval (run : RunReceipt) (lo hi : Q) : Prop :=
  ∃ s, run_summary run = Ok s ∧
    MeasurementNumber (timingSummary_LowerRatio s) "rational" = Ok lo ∧
    MeasurementNumber (timingSummary_UpperRatio s) "rational" = Ok hi.

(** Revalidated evidence of a performance run carries a parseable interval. *)
Lemma evidence_interval
    (Hcodec : ∀ v data r, Marshal v = Ok data → DecodeStrict data = Ok r → r = v) run m :
  manifest_APIVersion m = ManifestV2 → evaluation_mode m = "performance" →
  runReceipt_Outcome run = "valid" → ValidateRunMeasurementEvidence run m = Ok tt →
  is_Some (e ← manifest_Evaluation m; evaluationContract_Measurement e) ∧
  ∃ lo hi, reports_interval run lo hi.
Proof.
  intros Hv Hmode Ho Hev.
  destruct (evidence_ticks run m) as (typed & data & r & _ & Hr & Hm & Hval & _); try done.
  apply ValidateResult_inv in Hval as (_ & Hdec & _ & _ & Ht & _ & _).
  rewrite (Hcodec _ _ _ Hm Hdec) in Ht. unfold check_result_timing in Ht. rewrite Hmode in Ht.
  simpl in Ht. destruct (validatorResult_Timing typed) as [t|] eqn:Et; [|done].
  destruct (e ← manifest_Evaluation m; evaluationContract_Measurement e) as [p|]; [|done].
  split; [done|]. ok_step Ht. unfold ValidateTimingEvidence in E. do 4 ok_step E. bool_prop.
  apply SummarizeTimings_inv in E1 as (_ & _ & _ & lo & md & hi & []). subst.
  exists lo, hi, (timingEvidence_Summary t). unfold run_summary. rewrite Hr. simpl. by rewrite Et.
Qed.

(** Two measured runs are confirmed exactly when the manifest is a version 2
    performance contract with a timing policy, both runs are valid with evidence
    that revalidates, and their reported confidence intervals overlap; the
    confirmed score is then the smaller of the two, whichever run came first. *)
Theorem ConfirmMeasuredRuns_exact a b m s :
  ConfirmMeasuredRuns a b m = Ok s ↔
  manifest_APIVersion m = ManifestV2 ∧ evaluation_mode m = "performance" ∧
  is_Some (e ← manifest_Evaluation m; evaluationContract_Measurement e) ∧
  runReceipt_Outcome a = "valid" ∧ runReceipt_Outcome b = "valid" ∧
  ValidateRunMeasurementEvidence a m = Ok tt ∧ ValidateRunMeasurementEvidence b m = Ok tt ∧
  (∃ xl xu yl yu, reports_interval a xl xu ∧ reports_interval b yl yu ∧
     (xl <= yu)%Q ∧ (yl <= xu)%Q) ∧
  ∃ x y, ParseTicks (runReceipt_ScoreTicks a) = Ok x ∧
    ParseTicks (runReceipt_ScoreTicks b) = Ok y ∧ s = int_string (Z.min x y).
Proof.
  unfold ConfirmMeasuredRuns, reports_interval. split.
  - intros Hc. ok_step Hc. bool_prop. cbn [for_each] in Hc.
    destruct (ValidateRunMeasurementEvidence a m) as [[]|] eqn:Ea; [|done].
    destruct (ValidateRunMeasurementEvidence b m) as [[]|] eqn:Eb; [|done].
    do 7 ok_step Hc. apply orb_false_iff in G as [? ?].
    destruct (evidence_ticks a m) as (_ & _ & _ & x & _ & _ & _ & Hx); try done.
    destruct (evidence_ticks b m) as (_ & _ & _ & y & _ & _ & _ & Hy); try done.
    rewrite (CompareTicks_min _ _ _ _ Hx Hy) in Hc. injection Hc as <-.
    split_and!; try done; [|by exists x, y].
    exists r1, r2, r3, r4. rewrite Z.gtb_ltb, Z.ltb_ge, RatCmp_nonpos in *.
    split_and!; try done; eexists; split_and!; done.
  - intros (-> & -> & Hp & -> & -> & Ha & Hb & (xl & xu & yl & yu & (sa & -> & -> & ->)
      & (sb & -> & -> & ->) & Hle1%RatCmp_nonpos & Hle2%RatCmp_nonpos) & x & y & Hx & Hy & ->).
    rewrite bool_decide_eq_true_2 by done. cbn [for_each]. rewrite Ha, Hb. simpl.
    rewrite !Z.gtb_ltb, !(proj2 (Z.ltb_ge _ _)) by done. simpl. by apply CompareTicks_min.
Qed.

(** Confirming two valid measured runs whose evidence revalidates cannot
    crash on the evidence it dereferences: it returns a score or reports that the
    intervals do not overlap.  The JSON codec is assumed to give back the result
    it encoded. *)
Theorem ConfirmMeasuredRuns_answers a b m :
  (∀ v data r, Marshal v = Ok data → DecodeStrict data = Ok r → r = v) →
  manifest_APIVersion m = ManifestV2 → evaluation_mode m = "performance" →
  runReceipt_Outcome a = "valid" → runReceipt_Outcome b = "valid" →
  ValidateRunMeasurementEvidence a m = Ok tt → ValidateRunMeasurementEvidence b m = Ok tt →
  (∃ s, ConfirmMeasuredRuns a b m = Ok s) ∨
  ConfirmMeasuredRuns a b m = Err "fresh timing intervals do not overlap".
Proof.
  intros Hcodec Hv Hmode Hoa Hob Hea Heb.
  destruct (evidence_interval Hcodec a m) as (Hp & xl & xu & sa & Esa & Exl & Exu); try done.
  destruct (evidence_interval Hcodec b m) as (_ & yl & yu & sb & Esb & Eyl & Eyu); try done.
  unfold ConfirmMeasuredRuns. rewrite Hv, Hmode, Hoa, Hob, bool_decide_eq_true_2 by done.
  cbn [for_each]. rewrite Hea, Heb, Esa, Esb, Exl, Exu, Eyl, Eyu. simpl.
  case_match; [by right|left]. case_match; eauto.
Qed.
End ResultProofs.
