(* ===== verification/Frontier.v ===== *)
(** Frontier claims: frontier_claim.go.  A claim is untrusted local evidence; the
    admission decision compares it with the better of the public frontier and the
    frozen baseline. *)

From S2P Require Import Prelude Regex GoLib Numbers Types Scores Paths Measurement Evaluation.
From S2P Require Import Validate GoJson Canonical Documents Results ResultsProofs.
From Stdlib Require Import Ascii QArith.
Open Scope Z_scope.

Definition AdmissionMode (m : Manifest) : string :=
  if (suite_Visibility (manifest_Suite m) ==s "hidden") || (evaluation_mode m ==s "performance")
  then "qualification" else "frontier".

Definition FrontierImprovement (score prior : string) (m : Metric) : bool :=
  match ParseTicks score with
  | Err _ => false
  | Ok x =>
      match ParseTicks prior with
      | Err _ => false
      | Ok y =>
          match ParseTicks (metric_MinimumDeltaTicks m) with
          | Err _ => false
          | Ok d =>
              if Z.sgn d <=? 0 then false else
              let x := x - y in
              if metric_Direction m ==s "minimize" then Cmp (- x) d >=? 0
              else if metric_Direction m !=s "maximize" then false
              else Cmp x d >=? 0
          end
      end
  end.

(** Ensures the public comparison never falls below the frozen reference. *)
Definition AdmissionFrontier (m : Metric) (public : string) : string :=
  match ParseTicks public with
  | Err _ => metric_BaselineTicks m
  | Ok a =>
      match ParseTicks (metric_BaselineTicks m) with
      | Err _ => ""
      | Ok b =>
          let cmp := Z.sgn (a - b) in
          if (metric_Direction m ==s "maximize") && (cmp >? 0)
             || (metric_Direction m ==s "minimize") && (cmp <? 0)
          then public else metric_BaselineTicks m
      end
  end.

(** One entry of the two-element bounds table of [Validate]. *)
Definition check_estimate_bound (x : Z) (b : string * bool) : result unit :=
  let '(value, min) := b in
  if value !=s "" then
    let! v := ParseTicks value or "estimate outside metric domain" in
    if min && (Cmp x v <? 0) || negb min && (Cmp x v >? 0)
    then Err "estimate outside metric domain" else Ok tt
  else Ok tt.

Section Frontier.
Context `{UnicodeLib} `{JsonCanonicalizer} `{JsonType ValidatorResult}.

Definition validate_qualification (c : FrontierClaim) (m : Manifest) : result string :=
  match frontierClaim_Qualification c with
  | None => Err "successful local qualification, report digest and measurement rationale required"
  | Some q =>
      if bool_decide (is_Some (frontierClaim_Result c)) || negb (localQualification_ChecksPassed q)
         || negb (ValidDigest (localQualification_ReportDigest q))
         || (len (localQualification_Reason q) <? 20) || (len (localQualification_Reason q) >? 2000)
      then Err "successful local qualification, report digest and measurement rationale required"
      else
      let! x := ParseTicks (localQualification_EstimatedScoreTicks q) in
      let! _ := for_each (check_estimate_bound x)
        [(metric_DomainMinTicks (manifest_Metric m), true);
         (metric_DomainMaxTicks (manifest_Metric m), false)] in
      Ok (localQualification_EstimatedScoreTicks q)
  end.

(** [FrontierClaim.Validate] *)
Definition ValidateClaim (c : FrontierClaim) (m : Manifest) : result string :=
  if (frontierClaim_APIVersion c !=s FrontierClaimVersion) || (frontierClaim_VersionID c ==s "")
     || negb (ValidDigest (frontierClaim_LockDigest c))
     || negb (ValidDigest (frontierClaim_ArtifactDigest c))
     || (frontierClaim_Mode c !=s AdmissionMode m)
  then Err "claim version, digests or admission mode invalid" else
  if frontierClaim_Mode c ==s "qualification" then validate_qualification c m else
  match frontierClaim_Result c with
  | None => Err "local validator result required"
  | Some res =>
      if bool_decide (is_Some (frontierClaim_Qualification c))
      then Err "local validator result required" else
      let! data := Marshal res in
      let! rt := ValidateResult data m in
      if ValidatorOutcome rt.1 !=s "valid"
      then Err "all local correctness gates must pass" else Ok rt.2
  end.
End Frontier.

(** * Theorems *)

(** The improvement of [x] over [y] in the metric's direction. *)
Definition gain (direction : string) (x y : Z) : Z :=
  if direction ==s "minimize" then y - x else x - y.

Lemma FrontierImprovement_iff score prior m :
  FrontierImprovement score prior m = true ↔
  ∃ x y d, ParseTicks score = Ok x ∧ ParseTicks prior = Ok y ∧
    ParseTicks (metric_MinimumDeltaTicks m) = Ok d ∧ 0 < d ∧
    (metric_Direction m = "maximize" ∨ metric_Direction m = "minimize") ∧
    d ≤ gain (metric_Direction m) x y.
Proof.
  unfold FrontierImprovement, gain.
  destruct (ParseTicks score) as [x|]; [|naive_solver].
  destruct (ParseTicks prior) as [y|]; [|naive_solver].
  destruct (ParseTicks (metric_MinimumDeltaTicks m)) as [d|]; [|naive_solver].
  destruct (Z.leb_spec (Z.sgn d) 0).
  { split; [done|]. intros (?&?&?&?&?&?&?&_). simplify_eq. lia. }
  rewrite !Cmp_geb.
  destruct (String.eqb_spec (metric_Direction m) "minimize") as [Hd|Hd].
  - rewrite Z.leb_le. split; [|intros (?&?&?&?&?&?&?&?&?); simplify_eq; lia].
    intros. exists x, y, d. split_and!; (done || lia || by right).
  - destruct (String.eqb_spec (metric_Direction m) "maximize") as [Hm|Hm]; simpl; [|naive_solver].
    rewrite Z.leb_le. split; [|intros (?&?&?&?&?&?&?&?&?); simplify_eq; lia].
    intros. exists x, y, d. split_and!; (done || lia || by left).
Qed.

Lemma AdmissionFrontier_parse m public b :
  ParseTicks (metric_BaselineTicks m) = Ok b →
  (metric_Direction m = "maximize" ∨ metric_Direction m = "minimize") →
  ∃ z, ParseTicks (AdmissionFrontier m public) = Ok z ∧ 0 ≤ gain (metric_Direction m) z b ∧
    match ParseTicks public with
    | Ok a => 0 ≤ gain (metric_Direction m) z a ∧ (z = a ∨ z = b)
    | Err _ => z = b
    end.
Proof.
  unfold AdmissionFrontier, gain. intros Hb Hd.
  destruct (ParseTicks public) as [a|] eqn:Ha.
  - rewrite Hb. destruct Hd as [-> | ->]; simpl; rewrite ?andb_false_r, ?orb_false_r;
      match goal with |- context [if ?c then _ else _] => destruct c eqn:E end; bool_prop;
      [exists a|exists b|exists a|exists b]; split_and!; (done || lia || auto).
  - exists b. destruct Hd as [-> | ->]; simpl; split_and!; (done || lia).
Qed.

(** A score that improves on the admission frontier beats, by at least the
    positive minimum delta and in the metric's direction, both the frozen baseline
    and the public frontier score, whatever text the public record holds (an
    unparseable record falls back to the baseline, never to something weaker). *)
Theorem admission_never_regresses score public m b :
  ParseTicks (metric_BaselineTicks m) = Ok b →
  FrontierImprovement score (AdmissionFrontier m public) m = true →
  ∃ x d, ParseTicks score = Ok x ∧ ParseTicks (metric_MinimumDeltaTicks m) = Ok d ∧ 0 < d ∧
    d ≤ gain (metric_Direction m) x b ∧
    ∀ a, ParseTicks public = Ok a → d ≤ gain (metric_Direction m) x a.
Proof.
  intros Hb (x & y & d & Hx & Hy & Hd & Hpos & Hdir & Hg)%FrontierImprovement_iff.
  destruct (AdmissionFrontier_parse m public b Hb Hdir) as (z & Hz & Hzb & Hpub).
  assert (y = z) as -> by congruence. exists x, d. unfold gain in *.
  destruct Hdir as [Hdir|Hdir]; rewrite Hdir in *; simpl in *; split_and!; try (done || lia);
    intros a Ha; rewrite Ha in Hpub; lia.
Qed.

Definition sample_metric : Metric :=
  {| metric_Name := "tour-length"; metric_Direction := "minimize"; metric_Unit := "km";
     metric_Quantum := "0.01"; metric_BaselineTicks := "1000"; metric_MinimumDeltaTicks := "5";
     metric_ToleranceTicks := "1"; metric_DomainMinTicks := "0"; metric_DomainMaxTicks := "" |}.

Lemma admission_never_regresses_witness :
  FrontierImprovement "895" (AdmissionFrontier sample_metric "900") sample_metric = true ∧
  ∃ x d, ParseTicks "895" = Ok x ∧ ParseTicks "5" = Ok d ∧ 0 < d ∧
    d ≤ gain "minimize" x 1000 ∧
    ∀ a, ParseTicks "900" = Ok a → d ≤ gain "minimize" x a.
Proof.
  split; [vm_compute; reflexivity|].
  exact (admission_never_regresses "895" "900" sample_metric 1000 eq_refl
           ltac:(vm_compute; reflexivity)).
Defined.

Section ClaimProofs.
Context `{UnicodeLib} `{JsonCanonicalizer} `{JsonType ValidatorResult}.

(** The score a frontier claim contributes is never a bare assertion.  For a
    public artifact challenge it is the ticks recomputed from a complete validator
    result whose hard gates all pass; for a hidden suite or a timing challenge the
    claim carries no result at all, only a passed local qualification with a
    report digest and an estimate inside the declared metric domain. *)
Theorem ValidateClaim_evidence c m ticks :
  ValidateClaim c m = Ok ticks →
  (AdmissionMode m = "frontier" ∧ frontierClaim_Qualification c = None ∧
   ∃ res data r, frontierClaim_Result c = Some res ∧ Marshal res = Ok data ∧
     ValidateResult data m = Ok (r, ticks) ∧
     (∀ gate pass, validatorResult_Gates r !! gate = Some pass → pass = true)) ∨
  (AdmissionMode m = "qualification" ∧ frontierClaim_Result c = None ∧
   ∃ q x, frontierClaim_Qualification c = Some q ∧ localQualification_ChecksPassed q = true ∧
     ValidDigest (localQualification_ReportDigest q) = true ∧
     ticks = localQualification_EstimatedScoreTicks q ∧ ParseTicks ticks = Ok x ∧
     bound_ok Z.le (metric_DomainMinTicks (manifest_Metric m)) x ∧
     bound_ok Z.ge (metric_DomainMaxTicks (manifest_Metric m)) x).
Proof.
  unfold ValidateClaim. intros Hc. ok_step Hc. bool_prop.
  destruct (String.eqb_spec (frontierClaim_Mode c) "qualification") as [Hq|Hq].
  - right. rewrite Hq in *. unfold validate_qualification in Hc.
    destruct (frontierClaim_Qualification c) as [q|]; [|done]. do 3 ok_step Hc. bool_prop.
    cbn [for_each] in E0. split_and!; [done|by apply eq_None_not_Some|]. injection Hc as <-.
    exists q, r. do 4 (split; [done|]). split; [done|]. 
    destruct (check_estimate_bound r _) as [[]|] eqn:B1 in E0; [|done].
    destruct (check_estimate_bound r (metric_DomainMaxTicks _, _)) as [[]|] eqn:B2 in E0; [|done].
    unfold check_estimate_bound in B1, B2. unfold bound_ok.
    split.
    + destruct (String.eqb_spec (metric_DomainMinTicks (manifest_Metric m)) ""); [by left|right].
      simpl in B1. do 2 ok_step B1. rewrite orb_false_r, Cmp_ltb in *. bool_prop. eauto.
    + destruct (String.eqb_spec (metric_DomainMaxTicks (manifest_Metric m)) ""); [by left|right].
      simpl in B2. do 2 ok_step B2. rewrite Cmp_gtb in *. bool_prop. eexists; split; [done|lia].
  - left. assert (AdmissionMode m = "frontier") as ->.
    { replace (frontierClaim_Mode c) with (AdmissionMode m) in Hq by done. clear -Hq.
      unfold AdmissionMode in *. by case_match. }
    destruct (frontierClaim_Result c) as [res|]; [|done]. ok_step Hc. bool_prop.
    do 3 ok_step Hc. bool_prop. injection Hc as <-. destruct r0 as [r0 ticks].
    split_and!; [done|by apply eq_None_not_Some|]. exists res, r, r0. split_and!; try done.
    intros gate pass Hg. destruct pass; [done|]. simpl in *. unfold ValidatorOutcome in *.
    assert (existsb (λ '(_, pass), negb pass) (map_to_list (validatorResult_Gates r0)) = true) as Hx.
    { apply existsb_exists. exists (gate, false). split; [|done].
      by apply list_elem_of_In, elem_of_map_to_list. }
    rewrite Hx in *. done.
Qed.
End ClaimProofs.
