(* ===== verification/Artifacts.v ===== *)
(** Artifact trees (artifacts.go): which file an artifact may hold
    ([allowedFile], [rejectActive]), the canonical tree of a set of files
    ([treeFor]), and the two ways a set of files reaches it: a directory
    ([CanonicalArtifact]) and a tar or tar.gz archive ([ReadArtifactArchive]).

    A Go map is a [gmap]; where the source ranges over it, the order of the
    iteration is an argument.  What archive/tar, compress/gzip and the file system
    deliver to the code is an argument too: a directory is the sequence of entries
    [filepath.WalkDir] visits, an archive the sequence of members [tar.Reader]
    returns with the reads that drain it. *)

From S2P Require Import Prelude GoLib Numbers Types Paths Scores Validate Sha256 GoJson Canonical.
From S2P Require Import Documents.
From stdpp Require Import sorting.
From Stdlib Require Import Ascii.
Open Scope Z_scope.

(** [sort.Strings]: bytewise order. *)
Definition string_le (a b : string) : Prop := String.leb a b = true.
#[export] Instance string_le_dec : RelDecision string_le := λ a b, bool_eq_dec _ _.
Definition SortStrings (l : list string) : list string := merge_sort string_le l.

(** * Content *)

Section Content.
Context `{UnicodeLib}.

(** [unicode.ToLower] *)
Definition lower_rune (r : Z) : Z :=
  if inr 65 90 r then r + 32 else if r <? 128 then r else ToLowerRune r.

(** [strings.ToLower] and [bytes.ToLower]: rune by rune, an invalid byte becoming
    U+FFFD unless the whole text is ASCII. *)
Definition ToLower (s : string) : string :=
  of_bytes (concat (map (λ r, EncodeRune (lower_rune r)) (runes s))).

Definition allowed_prefix (name prefix : string) : bool :=
  (prefix ==s "*") || (prefix ==s name) || HasSuffix prefix "/" && HasPrefix name prefix.

Definition allowedFile (name : string) (c : SubmissionContract) : bool :=
  if negb (existsb (allowed_prefix name) (submissionContract_AllowedPaths c)) then false else
  let extension := ToLower (Ext name) in
  existsb (String.eqb extension) (submissionContract_AllowedExtensions c).

Definition elf_magic : string := String "127" "ELF".
Definition lfs_pointer : string := "version https://git-lfs.github.com/spec/v1".

Definition rejectActive (data : Bytes) : result unit :=
  let trimmed := TrimSpace data in
  let prefix := if len trimmed >? 512 then string_of (take 512 (list_of trimmed)) else trimmed in
  let lower := ToLower prefix in
  if HasPrefix data elf_magic || HasPrefix data "MZ" || HasPrefix trimmed "#!"
     || HasPrefix lower "<svg" || HasPrefix lower "<!doctype html" || HasPrefix lower "<html"
     || HasPrefix lower "<script" || HasPrefix data lfs_pointer
  then Err "active content or unresolved Git LFS pointer forbidden" else Ok tt.

(** The content test of one file, which depends on the format of the contract. *)
Definition check_content (c : SubmissionContract) (data : Bytes) : result unit :=
  if submissionContract_Format c ==s "source-v2" then
    if HasPrefix data lfs_pointer then Err "unresolved Git LFS pointer" else Ok tt
  else rejectActive data.
End Content.

(** * The canonical tree *)

Abbreviation Files := (gmap string Bytes).

Section Tree.
Context `{UnicodeLib} `{JsonCanonicalizer} `{JsonType ArtifactTree}.

(** One iteration of the loop over the map; the state is [names] reversed, [seen]
    and [total]. *)
Definition tree_step (c : SubmissionContract) (st : list string * gset string * Z)
    (file : string * Bytes) : result (list string * gset string * Z) :=
  let '(names, seen, total) := st in
  let '(name, data) := file in
  let! _ := ValidatePath name in
  let fold := Fold name in
  if bool_decide (fold ∈ seen) then Err "case-colliding artifact paths" else
  if negb (allowedFile name c) then Err "file outside submission contract" else
  let total := wrap64 (total + len data) in
  if total >? submissionContract_MaxBytes c then Err "artifact exceeds expanded limit" else
  let! _ := check_content c data in
  Ok (names ++ [name], {[fold]} ∪ seen, total).

Definition tree_entry (files : Files) (name : string) : ArtifactEntry :=
  let data := default "" (files !! name) in
  {| artifactEntry_Path := name; artifactEntry_Type := "file"; artifactEntry_Mode := "0644";
     artifactEntry_Size := len data; artifactEntry_Digest := DigestBytes data |}.

Definition tree_of (files : Files) (names : list string) : ArtifactTree :=
  {| artifactTree_Kind := "ScienceLadderArtifactTree"; artifactTree_Version := 1;
     artifactTree_Entries := map (tree_entry files) (SortStrings names) |}.

(** [encoded, _ := json.Marshal(tree)]: a failed encoding leaves no bytes. *)
Definition encode_or_empty {A} `{JsonType A} (v : A) : Bytes :=
  match Marshal v with Ok data => data | Err _ => "" end.

Definition artifact_domain : string := "science-ladder-artifact-v1" +:+ String "000" "".

Definition tree_digest (tree : ArtifactTree) : result string :=
  let! canonical := CanonicalJSON (encode_or_empty tree) in
  Ok (DigestBytes (artifact_domain +:+ canonical)).

(** [order] is the order in which the [range] statement visits [files]. *)
Definition treeFor (files : Files) (order : list (string * Bytes)) (c : SubmissionContract)
    : result (ArtifactTree * string) :=
  let! _ := ValidateSubmissionContract c in
  if (Z.of_nat (size files) =? 0) || (Z.of_nat (size files) >? submissionContract_MaxFiles c)
  then Err "artifact file count outside bounds" else
  let! st := foldM (tree_step c) ([], ∅, 0) order in
  let tree := tree_of files st.1.1 in
  let! digest := tree_digest tree in
  Ok (tree, digest).

Definition ArtifactFromFiles (files : Files) (order : list (string * Bytes))
    (c : SubmissionContract) : result (ArtifactTree * string) :=
  treeFor files order c.

(** * A directory *)

(** One call of the [WalkDir] callback on an entry below the root: the error it
    was called with, or what the entry is.  [w_read] is [os.ReadFile]. *)
Record WalkEntry := mkWalkEntry {
  w_relative : result string;
  w_symlink : bool;
  w_dir : bool;
  w_info : result (bool * Z * Z);  (** regular, permission bits, size *)
  w_read : result Bytes
}.

Definition executable_bits : Z := 73.  (** 0111 *)

Definition walk_step (c : SubmissionContract) (st : Files * Z) (entry : result WalkEntry)
    : result (Files * Z) :=
  let '(files, total) := st in
  let! entry := entry in
  let! relative := w_relative entry in
  let! _ := ValidatePath relative in
  if w_symlink entry then Err "artifact symlinks forbidden" else
  if w_dir entry then Ok st else
  let! info := w_info entry in
  let '(regular, perm, size) := info in
  if negb regular || negb (Z.land perm executable_bits =? 0)
  then Err "only non-executable regular files allowed" else
  if negb (allowedFile relative c) then Err "file outside submission contract" else
  if size >? wrap64 (submissionContract_MaxBytes c - total)
  then Err "artifact exceeds byte limit" else
  let! data := w_read entry in
  let total := wrap64 (total + len data) in
  if (total >? submissionContract_MaxBytes c)
     || (Z.of_nat (base.size files) >=? submissionContract_MaxFiles c)
  then Err "artifact exceeds limits" else
  Ok (<[relative := data]> files, total).

(** [root] is [os.Lstat] of the root: a directory, a symbolic link.  [order] gives
    the iteration order of [treeFor] for the map that was collected. *)
Definition CanonicalArtifact (root : result (bool * bool)) (walk : list (result WalkEntry))
    (order : Files → list (string * Bytes)) (c : SubmissionContract)
    : result (ArtifactTree * string) :=
  match root with
  | Ok (true, false) =>
      let! st := foldM (walk_step c) (∅, 0) walk in
      treeFor st.1 (order st.1) c
  | _ => Err "artifact root must be a real directory"
  end.

(** * An archive *)

Inductive Typeflag := TypeReg | TypeRegA | TypeDir | TypeOther (flag : ascii).
#[export] Instance Typeflag_eq_dec : EqDecision Typeflag.
Proof. solve_decision. Defined.

(** What [t.Next] returned (other than [io.EOF], which ends the list): the header
    fields the code reads, the bytes and the error the member's reader delivers,
    and [counted.n] once they are read. *)
Record Member := mkMember {
  tar_Name : string;
  tar_Typeflag : Typeflag;
  tar_Mode : Z;
  tar_Size : Z;
  tar_PAXRecords : Z;
  tar_Xattrs : Z;
  tar_content : Bytes;
  tar_error : option string;
  tar_counted : Z
}.

(** [ar_magic] is what [Peek] returned, [ar_gzip] the result of [gzip.NewReader];
    [ar_padding] are the reads after the last member that returned no error,
    [ar_last] the one that returned [io.EOF] ([None]) or an error; [ar_decoded] is
    the number of bytes taken through [decoded], [ar_counted] the last [counted.n]. *)
Record Archive := mkArchive {
  ar_magic : list Z;
  ar_gzip : result unit;
  ar_members : list (result Member);
  ar_padding : list Bytes;
  ar_last : Bytes * option string;
  ar_decoded : Z;
  ar_counted : Z
}.

(** [io.ReadAll(io.LimitReader(t, header.Size+1))]: the error of the member's reader
    is only met when the limit is not. *)
Definition read_member (m : Member) : result Bytes :=
  let limit := wrap64 (tar_Size m + 1) in
  match tar_error m with
  | Some e => if len (tar_content m) <? limit then Err e
              else Ok (string_of (take (Z.to_nat limit) (list_of (tar_content m))))
  | None => Ok (string_of (take (Z.to_nat limit) (list_of (tar_content m))))
  end.

Definition member_step (c : SubmissionContract) (compressed : bool)
    (st : Files * gset string * Z) (next : result Member) : result (Files * gset string * Z) :=
  let '(files, seen, total) := st in
  let! header := next in
  let name := TrimSuffix (tar_Name header) "/" in
  let! _ := ValidatePath name in
  let fold := Fold name in
  if bool_decide (fold ∈ seen) then Err "duplicate or case-colliding archive path" else
  let seen := {[fold]} ∪ seen in
  if Z.of_nat (base.size seen) >? submissionContract_MaxFiles c * 4
  then Err "archive entry limit exceeded" else
  if bool_decide (tar_Typeflag header = TypeDir) then Ok (files, seen, total) else
  if negb (bool_decide (tar_Typeflag header = TypeReg))
     && negb (bool_decide (tar_Typeflag header = TypeRegA))
  then Err "archive links/special files forbidden" else
  if negb (Z.land (tar_Mode header) executable_bits =? 0) || (tar_Size header <? 0)
     || (tar_Size header >? wrap64 (submissionContract_MaxBytes c - total))
     || (Z.of_nat (base.size files) >=? submissionContract_MaxFiles c)
  then Err "archive mode/size limit exceeded" else
  if negb (tar_PAXRecords header =? 0) || negb (tar_Xattrs header =? 0)
  then Err "archive extended metadata forbidden" else
  if negb (allowedFile name c) then Err "archive file outside contract" else
  let! data := read_member header or "truncated archive member" in
  if negb (len data =? tar_Size header) then Err "truncated archive member" else
  let total := wrap64 (total + len data) in
  let files := <[name := data]> files in
  if compressed && (total >? Z.shiftl 1 20) && (total >? wrap64 (tar_counted header * 100))
  then Err "archive decompression ratio exceeds 100" else
  Ok (files, seen, total).

Definition check_padding (chunk : Bytes) : result unit :=
  for_each (λ value, if negb (Ascii.eqb value "000")
                     then Err "nonzero data after tar end marker" else Ok tt) (list_of chunk).

Definition drain_padding (a : Archive) : result unit :=
  let! _ := for_each check_padding (ar_padding a) in
  let! _ := check_padding (ar_last a).1 in
  match (ar_last a).2 with None => Ok tt | Some e => Err e end.

Definition archive_budget (c : SubmissionContract) : Z :=
  wrap64 (submissionContract_MaxBytes c + submissionContract_MaxFiles c * 4096 + 1024).

Definition gzip_magic : list Z := [31; 139].

Definition ReadArtifactArchive (a : Archive) (order : Files → list (string * Bytes))
    (c : SubmissionContract) : result (Files * ArtifactTree * string) :=
  let! _ := ValidateSubmissionContract c in
  let archiveBudget := archive_budget c in
  let compressed := bool_decide (ar_magic a = gzip_magic) in
  let! _ := (if compressed then ar_gzip a else Ok tt) in
  let! st := foldM (member_step c compressed) (∅, ∅, 0) (ar_members a) in
  let! _ := drain_padding a in
  let remaining := wrap64 (archiveBudget + 1 - ar_decoded a) in
  if (remaining =? 0) || (ar_counted a >? archiveBudget)
  then Err "compressed archive exceeds limit" else
  let files := st.1.1 in
  let! td := treeFor files (order files) c in
  Ok (files, td.1, td.2).
End Tree.
