(* ===== verification/Hidden.v ===== *)
(** Hidden suites (hidden.go): commitments to a private suite, its encryption at rest,
    and the capsule that carries its key to one host for one job.

    AES-256-GCM and X25519 are the classes [Aead] and [Curve]; HMAC and the key
    derivation are built on the SHA-256 of the development.  Randomness is an argument:
    each [rand.Read] is a [result Bytes]. *)

From S2P Require Import Prelude GoLib Numbers Types Paths Scores Validate Sha256 GoJson Canonical.
From S2P Require Import Documents.
From Stdlib Require Import Ascii.
Open Scope Z_scope.

(** AES-256-GCM with a 12-byte nonce ([cipher.AEAD]). *)
Class Aead := {
  GcmSeal (key nonce plaintext aad : Bytes) : Bytes;
  GcmOpen (key nonce ciphertext aad : Bytes) : result Bytes
}.

(** What crypto/cipher documents: opening inverts sealing, succeeds on nothing but a
    sealed text, and the tag takes 16 bytes. *)
Class AeadLaws `{Aead} : Prop := {
  open_seal key nonce p aad : GcmOpen key nonce (GcmSeal key nonce p aad) aad = Ok p;
  open_sealed key nonce c p aad : GcmOpen key nonce c aad = Ok p → c = GcmSeal key nonce p aad;
  seal_len key nonce p aad : len (GcmSeal key nonce p aad) = len p + 16
}.

(** crypto/ecdh over X25519, on raw keys. *)
Class Curve := {
  NewPublicKey : Bytes → result Bytes;
  NewPrivateKey : Bytes → result Bytes;
  PublicOf : Bytes → Bytes;
  ECDH (private public : Bytes) : result Bytes
}.

(** A public key parses, and both sides derive one secret. *)
Class CurveLaws `{Curve} : Prop := {
  public_parses k private : NewPrivateKey k = Ok private → NewPublicKey (PublicOf private) = Ok (PublicOf private);
  ecdh_agrees a b : ECDH a (PublicOf b) = ECDH b (PublicOf a)
}.

(** * HMAC-SHA256 (crypto/hmac) *)

Definition hmac_key (key : list Z) : list Z :=
  let k := if (64 <? length key)%nat then Sum256 key else key in
  k ++ repeat 0 (64 - length k).

Definition HMAC (key message : list Z) : list Z :=
  let k := hmac_key key in
  Sum256 (map (Z.lxor 92) k ++ Sum256 (map (Z.lxor 54) k ++ message)).

Example hmac_rfc4231_2 :
  hex_encode (HMAC (bytes_of "Jefe") (bytes_of "what do ya want for nothing?"))
  = "5bdcc146bf60754e6a042426089575c75a003f089d2739839dec58b964ec3843".
Proof. vm_compute. reflexivity. Qed.

(** * Commitments *)

Definition NUL : string := String "000" "".
Definition suiteCapsuleAlgorithm : string := "X25519-HKDF-SHA256-AES256GCM".

Definition HiddenSuiteContext (jobID commitment : string) : string :=
  "science-ladder-hidden-job-v1" +:+ NUL +:+ jobID +:+ NUL +:+ commitment.

Definition SuiteCommitment (plaintextDigest : string) (salt : Bytes) : result string :=
  if negb (ValidDigest plaintextDigest) || negb (len salt =? 32)
  then Err "invalid private suite commitment material" else
  let digest := default [] (hex_decode (drop 7 (list_of plaintextDigest))) in
  let data := "science-ladder-hidden-suite-v1" +:+ NUL +:+ salt +:+ of_bytes digest in
  Ok (DigestBytes data).

Definition validateSuiteMaterial (material : SuiteKeyMaterial) : result unit :=
  if negb (len (suiteKeyMaterial_Key material) =? 32) || negb (len (suiteKeyMaterial_Salt material) =? 32)
  then Err "invalid hidden-suite key material" else
  match SuiteCommitment (suiteKeyMaterial_PlaintextDigest material) (suiteKeyMaterial_Salt material) with
  | Ok commitment =>
      if commitment !=s suiteKeyMaterial_Commitment material
      then Err "hidden-suite commitment mismatch" else Ok tt
  | Err _ => Err "hidden-suite commitment mismatch"
  end.

(** * Sealed objects *)

Section Seal.
Context `{Aead}.

Definition slice (a b : nat) (s : Bytes) : Bytes := string_of (take (b - a) (drop a (list_of s))).

(** [aes.NewCipher] and [cipher.NewGCM] accept every 32-byte key. *)
Definition seal (key plaintext aad nonce : Bytes) : result Bytes :=
  if negb (len key =? 32) || negb (len nonce =? 12)
  then Err "AES-256 key and 12-byte nonce required" else
  Ok ("SLS1" +:+ nonce +:+ GcmSeal key nonce plaintext aad).

Definition SealSecret (rand : result Bytes) (key plaintext aad : Bytes) : result Bytes :=
  let! nonce := rand in
  seal key plaintext aad nonce.

Definition OpenSecret (key ciphertext aad : Bytes) : result Bytes :=
  if negb (len key =? 32) || (len ciphertext <? 32) || (len ciphertext >? Z.shiftl 1 30)
     || negb (HasPrefix ciphertext "SLS1")
  then Err "invalid encrypted object" else
  let! plaintext := GcmOpen key (slice 4 16 ciphertext)
                      (slice 16 (String.length ciphertext) ciphertext) aad
    or "encrypted object authentication failed" in
  Ok plaintext.

Definition suite_aad (material : SuiteKeyMaterial) (role : string) : Bytes :=
  "science-ladder-suite-object-v1" +:+ NUL +:+ role +:+ NUL +:+ suiteKeyMaterial_Commitment material.

(** The keyed nonce over role and plaintext digest. *)
Definition suite_nonce (material : SuiteKeyMaterial) (plaintext : Bytes) (role : string) : Bytes :=
  of_bytes (take 12 (HMAC (bytes_of (suiteKeyMaterial_Key material))
    (bytes_of (suite_aad material role) ++ Sum256 (bytes_of plaintext)))).

Definition EncryptSuiteObject (material : SuiteKeyMaterial) (plaintext : Bytes) (role : string)
    : result Bytes :=
  let! _ := validateSuiteMaterial material in
  if (role !=s "source") && (role !=s "disk") then Err "invalid suite object role" else
  if len plaintext >? Z.shiftl 1 30 then Err "suite object exceeds limit" else
  seal (suiteKeyMaterial_Key material) plaintext (suite_aad material role)
    (suite_nonce material plaintext role).

Definition DecryptSuiteObject (material : SuiteKeyMaterial) (ciphertext : Bytes) (role : string)
    : result Bytes :=
  let! _ := validateSuiteMaterial material in
  if (role !=s "source") && (role !=s "disk") then Err "invalid suite object role" else
  let! plaintext := OpenSecret (suiteKeyMaterial_Key material) ciphertext (suite_aad material role) in
  if (role ==s "source") && (DigestBytes plaintext !=s suiteKeyMaterial_PlaintextDigest material)
  then Err "hidden source plaintext digest mismatch" else
  Ok plaintext.

Context `{JsonCanonicalizer} `{JsonType anyValue}.

(** [randKey] and [randSalt] are the two [rand.Read]s of 32 bytes. *)
Definition SealHiddenSuite (randKey randSalt : result Bytes) (plaintext : Bytes)
    : result (Bytes * SuiteKeyMaterial) :=
  let! _ := DecodeStrictBounded (A := anyValue) plaintext (Z.shiftl 96 20) in
  let! canonical := Transform plaintext in
  let! key := randKey in
  let! salt := randSalt in
  let plaintextDigest := DigestBytes canonical in
  let! commitment := SuiteCommitment plaintextDigest salt in
  let material := {| suiteKeyMaterial_Key := key; suiteKeyMaterial_Salt := salt;
                     suiteKeyMaterial_PlaintextDigest := plaintextDigest;
                     suiteKeyMaterial_Commitment := commitment |} in
  let! ciphertext := EncryptSuiteObject material canonical "source" in
  Ok (ciphertext, material).
End Seal.

(** * Capsules *)

Definition hkdfSuiteKey (shared : Bytes) (context : string) : Bytes :=
  let salt := Sum256 (bytes_of context) in
  let prk := HMAC salt (bytes_of shared) in
  of_bytes (HMAC prk (bytes_of ("science-ladder-suite-key-wrap-v1" +:+ NUL) ++ bytes_of context ++ [1])).

Section Capsules.
Context `{Aead} `{Curve} `{JsonCanonicalizer} `{JsonType SuiteKeyMaterial}.

(** [randEphemeral] is the private key [GenerateKey] made, [randNonce] the 12 bytes
    read for the nonce. *)
Definition WrapSuiteKey (randEphemeral randNonce : result Bytes) (hostPublicKey : Bytes)
    (material : SuiteKeyMaterial) (context : string) : result KeyCapsule :=
  let! _ := validateSuiteMaterial material in
  if len context >? 4096 then Err "key context too long" else
  let! public := NewPublicKey hostPublicKey in
  let! ephemeral := randEphemeral in
  let! shared := ECDH ephemeral public in
  let key := hkdfSuiteKey shared context in
  let! plaintext := Marshal material in
  let! nonce := randNonce in
  let! encrypted := seal key plaintext context nonce in
  Ok {| keyCapsule_Algorithm := suiteCapsuleAlgorithm;
        keyCapsule_EphemeralPublicKey := PublicOf ephemeral;
        keyCapsule_Nonce := nonce;
        keyCapsule_Ciphertext := slice 16 (String.length encrypted) encrypted;
        keyCapsule_ContextDigest := DigestBytes context |}.

Definition UnwrapSuiteKey (hostPrivateKey : Bytes) (capsule : KeyCapsule) (context : string)
    : result SuiteKeyMaterial :=
  if (keyCapsule_Algorithm capsule !=s suiteCapsuleAlgorithm)
     || (keyCapsule_ContextDigest capsule !=s DigestBytes context)
     || negb (len (keyCapsule_Nonce capsule) =? 12) || (len (keyCapsule_Ciphertext capsule) >? 4096)
  then Err "hidden-suite capsule binding mismatch" else
  let! private := NewPrivateKey hostPrivateKey in
  let! public := NewPublicKey (keyCapsule_EphemeralPublicKey capsule) in
  let! shared := ECDH private public in
  let key := hkdfSuiteKey shared context in
  let encrypted := "SLS1" +:+ keyCapsule_Nonce capsule +:+ keyCapsule_Ciphertext capsule in
  let! plaintext := OpenSecret key encrypted context in
  let! material := DecodeStrict plaintext in
  let! _ := validateSuiteMaterial material in
  Ok material.
End Capsules.

(** [ZeroBytes] clears a buffer in place. *)
Definition ZeroBytes (data : Bytes) : Bytes := string_of (map (λ _, "000"%char) (list_of data)).
