(* ===== verification/Store.v ===== *)
(** The PostgreSQL tables the adjudication transaction reads and writes, with the
    constraints of migrations/ that its statements can violate, and the audit log
    append of server.go.  A transaction is a function to [result db]: an [Err] is
    the rollback that leaves the stored state as it was. *)

From S2P Require Import Prelude Regex GoLib Numbers Types Paths Sha256 GoJson Canonical Documents.
From Stdlib Require Import Ascii.

(** [numeric(160,0)] columns hold integers; [::text] prints them canonically. *)
Record Version := mkVersion {
  ver_watermark : Z;
  ver_next_sequence : Z;
  ver_manifest : result Manifest;
  ver_best : option string;
  ver_frontier : option string
}.

Record Submission := mkSubmission {
  sub_version : string;
  sub_sequence : Z;
  sub_owner : string;
  sub_artifact : string;
  sub_disk : string;
  sub_outcome : string;
  sub_score : option Z;
  sub_publish_requested : bool;
  sub_commitment : string;
  sub_status : string;
  sub_receipt : string;
  sub_public : bool;
  sub_adjudication : option string
}.

Record ReceiptRow := mkReceiptRow { rr_payload : Receipt; rr_owner : string; rr_public : bool }.

(** A runner result joined with its job. *)
Record RunRow := mkRunRow {
  rj_submission : string;
  rj_purpose : string;
  rj_digest : string;
  rj_result : result RunReceipt
}.

Record Claim := mkClaim { cl_id : string; cl_submission : string; cl_receipt : string }.

Record AuditRow := mkAuditRow {
  au_sequence : Z;
  au_version : string;
  au_kind : string;
  au_payload : Bytes;
  au_previous : string;
  au_digest : string
}.

(** jobs: the queue of the worker, keyed by its UNIQUE (kind, resource_id). *)
Record QueueRow := mkQueueRow {
  qu_id : string;
  qu_status : string;
  qu_attempts : Z;
  qu_available : Time;
  qu_expires : option Time;
  qu_token : option string;
  qu_error : option string
}.

(** [milestone_claims] is keyed by its UNIQUE [milestone_id]; [mappings] by its
    primary key (milestone, version).  [ids] counts the identifiers drawn. *)
Record db := mkDb {
  t_versions : gmap string Version;
  t_submissions : gmap string Submission;
  t_receipts : gmap string ReceiptRow;
  t_runs : list RunRow;
  t_mappings : gmap (string * string) Z;
  t_claims : gmap string Claim;
  t_reservations : gmap string (option Time);
  t_reserved : Z;
  t_jobs : gmap (string * string) QueueRow;
  t_outbox : list (string * string * gmap string Json);
  t_audit : list AuditRow;
  t_artifacts : gmap string (option Time);
  t_ids : N
}.

Definition set_versions (d : db) v := mkDb v (t_submissions d) (t_receipts d) (t_runs d)
  (t_mappings d) (t_claims d) (t_reservations d) (t_reserved d) (t_jobs d) (t_outbox d) (t_audit d)
  (t_artifacts d) (t_ids d).
Definition set_submissions (d : db) v := mkDb (t_versions d) v (t_receipts d) (t_runs d)
  (t_mappings d) (t_claims d) (t_reservations d) (t_reserved d) (t_jobs d) (t_outbox d) (t_audit d)
  (t_artifacts d) (t_ids d).
Definition set_receipts (d : db) v := mkDb (t_versions d) (t_submissions d) v (t_runs d)
  (t_mappings d) (t_claims d) (t_reservations d) (t_reserved d) (t_jobs d) (t_outbox d) (t_audit d)
  (t_artifacts d) (t_ids d).
Definition set_claims (d : db) v := mkDb (t_versions d) (t_submissions d) (t_receipts d) (t_runs d)
  (t_mappings d) v (t_reservations d) (t_reserved d) (t_jobs d) (t_outbox d) (t_audit d)
  (t_artifacts d) (t_ids d).
Definition set_capacity (d : db) v c := mkDb (t_versions d) (t_submissions d) (t_receipts d) (t_runs d)
  (t_mappings d) (t_claims d) v c (t_jobs d) (t_outbox d) (t_audit d)
  (t_artifacts d) (t_ids d).
Definition set_jobs (d : db) v := mkDb (t_versions d) (t_submissions d) (t_receipts d) (t_runs d)
  (t_mappings d) (t_claims d) (t_reservations d) (t_reserved d) v (t_outbox d) (t_audit d)
  (t_artifacts d) (t_ids d).
Definition set_outbox (d : db) v := mkDb (t_versions d) (t_submissions d) (t_receipts d) (t_runs d)
  (t_mappings d) (t_claims d) (t_reservations d) (t_reserved d) (t_jobs d) v (t_audit d)
  (t_artifacts d) (t_ids d).
Definition set_audit (d : db) v := mkDb (t_versions d) (t_submissions d) (t_receipts d) (t_runs d)
  (t_mappings d) (t_claims d) (t_reservations d) (t_reserved d) (t_jobs d) (t_outbox d) v
  (t_artifacts d) (t_ids d).
Definition set_artifacts (d : db) v := mkDb (t_versions d) (t_submissions d) (t_receipts d) (t_runs d)
  (t_mappings d) (t_claims d) (t_reservations d) (t_reserved d) (t_jobs d) (t_outbox d) (t_audit d)
  v (t_ids d).
Definition set_ids (d : db) v := mkDb (t_versions d) (t_submissions d) (t_receipts d) (t_runs d)
  (t_mappings d) (t_claims d) (t_reservations d) (t_reserved d) (t_jobs d) (t_outbox d) (t_audit d)
  (t_artifacts d) v.

Definition unique_violation : string := "ERROR: duplicate key value violates unique constraint".
Definition check_violation : string := "ERROR: new row violates check constraint".
Definition no_rows : string := "no rows in result set".
Definition scan_null : string := "cannot scan NULL into *string".

(** The environment of the server: the clock and the random identifiers. *)
Class Env := { Now : Time; NewID : N → string }.

(** A payload of dynamic values as the value [json.Marshal] prints. *)
Definition any_of_json (j : Json) : anyValue :=
  match j with
  | JNull => ANull
  | JBool b => ABool b
  | JString s => AString s
  | JInt n => AInt n
  | JStrings l => AList (map AString l)
  | JFields l => AMap (map (λ kv, (kv.1, match kv.2 with SBool b => ABool b | SString s => AString s | SOther => ANull end)) l)
  | JDocument text => AString text  (** no audited payload holds one *)
  end.
Definition any_of_map (m : gmap string Json) : anyValue :=
  AMap (map (λ kv, (kv.1, any_of_json kv.2)) (map_to_list m)).

(** INSERT ... ON CONFLICT DO NOTHING leaves a row. *)
Lemma insert_new_is_Some {K A} `{Countable K} (m : gmap K A) k x :
  is_Some (match m !! k with Some _ => m | None => <[k := x]> m end !! k).
Proof. destruct (m !! k) eqn:Hk; [by exists a|]. rewrite lookup_insert_eq. by exists x. Qed.

Section Store.
Context `{Env} `{JsonCanonicalizer}.

(** [ID()] *)
Definition ID (d : db) : string * db := (NewID (t_ids d), set_ids d (t_ids d + 1)%N).

(** [enqueue]: ON CONFLICT(kind,resource_id) DO NOTHING; the identifier is drawn
    in any case. *)
Definition enqueue (d : db) (kind id : string) : db :=
  let '(job, d) := ID d in
  set_jobs d (match t_jobs d !! (kind, id) with
    | Some _ => t_jobs d
    | None => <[(kind, id) := mkQueueRow job "queued" 0 Now None None None]> (t_jobs d)
    end).

(** ORDER BY sequence DESC LIMIT 1 *)
Definition latest_event (l : list AuditRow) : option AuditRow :=
  foldl (λ best r, match best with
                   | Some b => if au_sequence b <? au_sequence r then Some r else best
                   | None => Some r
                   end) None l.

Definition event_digest (previous kind : string) (canonical : Bytes) : string :=
  DigestBytes (previous +:+ String "010"%char (kind +:+ String "010"%char canonical)).

(** [audit]: appends one event to the hash chain. *)
Definition audit (d : db) (version kind : string) (payload : gmap string Json) : result db :=
  let '(previous, sequence) :=
    match latest_event (t_audit d) with
    | Some r => (au_digest r, au_sequence r)
    | None => ("genesis", 0)
    end in
  let! canonical := CanonicalJSON (MarshalAny (any_of_map payload)) in
  let digest := event_digest previous kind canonical in
  if existsb (λ r, (au_sequence r =? sequence + 1) || (au_digest r ==s digest)) (t_audit d)
  then Err unique_violation else
  Ok (set_audit d (t_audit d ++ [mkAuditRow (sequence + 1) version kind canonical previous digest])).
Lemma enqueue_queued d kind id : is_Some (t_jobs (enqueue d kind id) !! (kind, id)).
Proof. apply insert_new_is_Some. Qed.
End Store.
