(* ===== verification/Adjudication.v ===== *)
(** Adjudication: internal/platform/adjudication.go.  Submissions of a version are
    finalised strictly in sequence order; each one may advance the verified best,
    the public frontier and claim open milestones. *)

From S2P Require Import Prelude Regex GoLib Numbers Types Scores Paths Measurement Evaluation.
From S2P Require Import Validate Sha256 GoJson Canonical Documents Results Store.

(** * Score comparisons *)

Definition better (a b direction : string) : bool :=
  match bigint_of_string a, bigint_of_string b with
  | Some x, Some y => if direction ==s "maximize" then Cmp x y >? 0 else Cmp x y <? 0
  | _, _ => false
  end.

Definition crosses (score threshold direction : string) : bool :=
  match bigint_of_string score, bigint_of_string threshold with
  | Some x, Some y => if direction ==s "maximize" then Cmp x y >=? 0 else Cmp x y <=? 0
  | _, _ => false
  end.

Definition meaningful (score prior : string) (m : Metric) : bool :=
  match bigint_of_string score, bigint_of_string prior,
        bigint_of_string (metric_MinimumDeltaTicks m) with
  | Some x, Some y, Some d =>
      let x := x - y in
      let x := if metric_Direction m ==s "minimize" then - x else x in
      Cmp x d >=? 0
  | _, _, _ => false
  end.

(** Rounds disagreements within the declared tolerance against the solver. *)
Definition ConfirmedScore (a b : string) (m : Metric) : result string :=
  match bigint_of_string a with
  | None => Err "invalid primary ticks"
  | Some x =>
      match bigint_of_string b with
      | None => Err "invalid confirmation ticks"
      | Some y =>
          match bigint_of_string (metric_ToleranceTicks m) with
          | None => Err "invalid tolerance ticks"
          | Some t =>
              if Cmp (Z.abs (x - y)) t >? 0
              then Err "independent runs disagree beyond tolerance" else
              if better a b (metric_Direction m) then Ok b else Ok a
          end
      end
  end.

Definition verifiedStatus (policy outcome : string) : string :=
  if (outcome !=s "valid") || negb (ValidVerificationPolicy policy) then ""
  else if policy ==s VerificationIndependent then "independently_replicated"
  else "platform_verified".

Section Adjudicate.
Context `{Env} `{UnicodeLib} `{JsonCanonicalizer} `{JsonType ValidatorResult} `{JsonType Receipt}.

(** * Queries *)

(** SELECT score_ticks::text FROM submissions WHERE id=$1 *)
Definition score_text (d : db) (id : string) : result string :=
  match t_submissions d !! id with
  | None => Err no_rows
  | Some s => match sub_score s with Some z => Ok (int_string z) | None => Err scan_null end
  end.

(** The submission at [sequence] of the version, joined with its acceptance
    receipt; UNIQUE(version_id,sequence) makes it at most one row. *)
Definition submission_at (d : db) (version : string) (sequence : Z)
    : option (string * Submission * Receipt) :=
  match List.find (λ kv, (sub_version kv.2 ==s version) && (sub_sequence kv.2 =? sequence))
          (map_to_list (t_submissions d)) with
  | Some (id, s) =>
      match t_receipts d !! sub_receipt s with
      | Some r => Some (id, s, rr_payload r)
      | None => None
      end
  | None => None
  end.

(** The run results of a submission, ORDER BY purpose. *)
Definition measurement_runs (d : db) (id : string) : result (list RunReceipt) :=
  let runs_of purpose :=
    List.filter (λ r, (rj_submission r ==s id) && (rj_purpose r ==s purpose)) (t_runs d) in
  foldM (λ acc r, let! run := rj_result r in Ok (acc ++ [run])) []
    (runs_of "confirmation" ++ runs_of "submission").

(** Milestones mapped to the version that no claim holds yet, ORDER BY id. *)
Definition open_milestones (d : db) (version : string) : list (string * Z) :=
  sort_keys (map (λ kv, (kv.1.1, kv.2))
    (List.filter (λ kv, (kv.1.2 ==s version) && negb (bool_decide (is_Some (t_claims d !! kv.1.1))))
       (map_to_list (t_mappings d)))).

(** * One submission *)

(** Whether the locked evaluation admits the milestone; without an evaluation it
    always does. *)
Definition milestone_eligible (m : Manifest) (runs : list RunReceipt) (mid : string)
    : result bool :=
  if negb (bool_decide (is_Some (manifest_Evaluation m))) then Ok true else
  let! fe := foldM
    (λ (st : bool * bool) milestone,
       if milestone_ID milestone ==s mid then
         let! eligible := ConfirmedAchievement m milestone runs in Ok (true, eligible)
       else Ok st)
    (false, true) (manifest_Milestones m) in
  if fe.1 then Ok fe.2 else Err "milestone mapping does not match locked evaluation".

Definition claim_step (m : Manifest) (runs : list RunReceipt) (score : string)
    (claims : list string) (row : string * Z) : result (list string) :=
  let '(mid, threshold) := row in
  let! eligible := milestone_eligible m runs mid in
  if eligible && crosses score (int_string threshold) (metric_Direction (manifest_Metric m))
  then Ok (claims ++ [mid]) else Ok claims.

(** The variables the loop carries across submissions. *)
Record loop_state := mkLoop {
  l_db : db;
  l_watermark : Z;
  l_best : string;
  l_bestID : option string;
  l_frontier : string;
  l_frontierID : option string
}.

(** The decision for one submission. *)
Record decision := mkDecision {
  de_claims : list string;
  de_record : bool;
  de_advance : bool;
  de_publish : bool
}.

Definition decide_submission (st : loop_state) (m : Manifest) (version id : string)
    (s : Submission) : result decision :=
  match sub_score s with
  | Some z =>
      if sub_outcome s ==s "valid" then
        let score := int_string z in
        let! runs := (if bool_decide (is_Some (manifest_Evaluation m))
                      then measurement_runs (l_db st) id else Ok []) in
        let record := better score (l_best st) (metric_Direction (manifest_Metric m)) in
        let! claims := foldM (claim_step m runs score) [] (open_milestones (l_db st) version) in
        let publish := sub_publish_requested s || (lenl claims >? 0) in
        Ok (mkDecision claims record
              (publish && meaningful score (l_frontier st) (manifest_Metric m)) publish)
      else Ok (mkDecision [] false false (sub_publish_requested s))
  | None => Ok (mkDecision [] false false (sub_publish_requested s))
  end.

Definition score_json (score : option Z) : Json :=
  match score with Some z => JString (int_string z) | None => JNull end.

(** The adjudication receipt. *)
Definition adjudication_receipt (version id rid policy mode : string) (official : bool)
    (s : Submission) (watermark : Z) (de : decision) : Receipt :=
  {| receipt_VerificationPolicy := policy;
     receipt_VerificationStatus := verifiedStatus policy (sub_outcome s);
     receipt_DeploymentMode := mode;
     receipt_OfficialAcceptance := official;
     receipt_APIVersion := APIVersion;
     receipt_Kind := "AdjudicationReceipt";
     receipt_ID := rid;
     receipt_CreatedAt := UTC Now;
     receipt_Producer := "science-ladder";
     receipt_SubjectDigest := sub_artifact s;
     receipt_EconomicMode := "none";
     receipt_Data := list_to_map
       [("versionId", JString version); ("submissionId", JString id);
        ("sequence", JString (int_string watermark)); ("outcome", JString (sub_outcome s));
        ("scoreTicks", score_json (sub_score s)); ("verifiedBestAdvanced", JBool (de_record de));
        ("publicFrontierAdvanced", JBool (de_advance de));
        ("milestoneIds", JStrings (de_claims de));
        ("independentReplication",
         JBool ((policy ==s VerificationIndependent) && (sub_outcome s ==s "valid")))] |}.

(** INSERT INTO milestone_claims, one per claimed milestone, with its outbox
    event. *)
Definition insert_claim (version id digest : string) (d : db) (mid : string) : result db :=
  let '(claimID, d) := ID d in
  if bool_decide (is_Some (t_claims d !! mid)) then Err unique_violation else
  let d := set_claims d (<[mid := mkClaim claimID id digest]> (t_claims d)) in
  let '(_, d) := ID d in
  Ok (set_outbox d (t_outbox d ++ [("milestone.claimed.v1", claimID, list_to_map
    [("versionId", JString version); ("milestoneId", JString mid); ("submissionId", JString id);
     ("economicMode", JString "none")])])).

Definition publish_receipts (digests : list string) (t : gmap string ReceiptRow)
    : gmap string ReceiptRow :=
  foldl (λ t k, alter (λ r, mkReceiptRow (rr_payload r) (rr_owner r) true) k t) t digests.

(** The statements under [if publish]. *)
Definition publish_records (d : db) (id : string) (s : Submission) : db :=
  let open (at_ : option Time) := match at_ with Some t => Some t | None => Some Now end in
  let d := set_artifacts d (alter open (sub_disk s) (alter open (sub_artifact s) (t_artifacts d))) in
  let d := set_receipts d (publish_receipts [sub_receipt s] (t_receipts d)) in
  set_receipts d (publish_receipts
    (map rj_digest (List.filter (λ r, rj_submission r ==s id) (t_runs d))) (t_receipts d)).

(** Release of the capacity reservation, at most once. *)
Definition release_capacity (d : db) (id : string) : result db :=
  match t_reservations d !! id with
  | Some None =>
      let reserved := t_reserved d - 2 in
      if reserved <? 0 then Err check_violation else
      Ok (set_capacity d (<[id := Some Now]> (t_reservations d)) reserved)
  | _ => Ok d
  end.

Definition adjudication_event (s : Submission) (id digest : string) (watermark : Z)
    (de : decision) : gmap string Json :=
  list_to_map
    ([("sequence", JString (int_string watermark)); ("outcome", JString (sub_outcome s));
      ("commitment", JString (sub_commitment s))]
     ++ (if de_publish de
         then [("submissionId", JString id); ("scoreTicks", score_json (sub_score s));
               ("milestones", JStrings (de_claims de)); ("receiptDigest", JString digest)]
         else [])).

Definition finalize_row (s : Submission) (public : bool) (digest : string) : Submission :=
  mkSubmission (sub_version s) (sub_sequence s) (sub_owner s) (sub_artifact s) (sub_disk s)
    (sub_outcome s) (sub_score s) (sub_publish_requested s) (sub_commitment s) "finalized"
    (sub_receipt s) public (Some digest).

(** The writes for one decided submission. *)
Definition record_submission (d : db) (version id policy : string) (s : Submission)
    (acceptance : Receipt) (watermark : Z) (de : decision) : result db :=
  let '(rid, d) := ID d in
  let receipt := adjudication_receipt version id rid policy
    (receipt_DeploymentMode acceptance) (receipt_OfficialAcceptance acceptance) s watermark de in
  let! digest := Digest receipt in
  if bool_decide (is_Some (t_receipts d !! digest)) then Err unique_violation else
  let d := set_receipts d
    (<[digest := mkReceiptRow receipt (sub_owner s) (de_publish de)]> (t_receipts d)) in
  let d := enqueue d "sign_receipt" digest in
  let! d := foldM (insert_claim version id digest) d (de_claims de) in
  let d := set_submissions d (<[id := finalize_row s (de_publish de) digest]> (t_submissions d)) in
  let d := if de_publish de then publish_records d id s else d in
  let! d := release_capacity d id in
  audit d version "submission.adjudicated" (adjudication_event s id digest watermark de).

(** COALESCE(NULLIF(r.payload->>'verificationPolicy',''),'independent') *)
Definition accepted_policy (r : Receipt) : string :=
  if receipt_VerificationPolicy r ==s "" then "independent" else receipt_VerificationPolicy r.

(** One iteration of the loop; [None] is the [break]. *)
Definition adjudicate_step (m : Manifest) (version : string) (st : loop_state)
    : result (option loop_state) :=
  match submission_at (l_db st) version (l_watermark st + 1) with
  | None => Ok None
  | Some (id, s, acceptance) =>
      let policy := accepted_policy acceptance in
      if negb (ValidVerificationPolicy policy)
      then Err "Unknown immutable acceptance verification policy" else
      if sub_status s !=s "validated" then Ok None else
      let! de := decide_submission st m version id s in
      let watermark := l_watermark st + 1 in
      let! d := record_submission (l_db st) version id policy s acceptance watermark de in
      let score := match sub_score s with Some z => int_string z | None => "" end in
      Ok (Some (mkLoop d watermark
        (if de_record de then score else l_best st)
        (if de_record de then Some id else l_bestID st)
        (if de_advance de then score else l_frontier st)
        (if de_advance de then Some id else l_frontierID st)))
  end.

(** The loop; [None] when the fuel is exhausted. *)
Fixpoint adjudicate_loop (fuel : nat) (m : Manifest) (version : string) (st : loop_state)
    : option (result loop_state) :=
  match fuel with
  | O => None
  | S fuel =>
      match adjudicate_step m version st with
      | Err e => Some (Err e)
      | Ok None => Some (Ok st)
      | Ok (Some st) => adjudicate_loop fuel m version st
      end
  end.

(** Each iteration finalises one stored submission. *)
Definition adjudicate_fuel (d : db) : nat := S (size (t_submissions d)).

Definition current_score (d : db) (id : option string) (baseline : string) : result string :=
  match id with Some id => score_text d id | None => Ok baseline end.

(** The whole transaction. *)
Definition adjudicate (d : db) (version : string) : option (result db) :=
  match t_versions d !! version with
  | None => Some (Err no_rows)
  | Some v =>
      match ver_manifest v with
      | Err e => Some (Err e)
      | Ok m =>
          let baseline := metric_BaselineTicks (manifest_Metric m) in
          match current_score d (ver_best v) baseline with
          | Err e => Some (Err e)
          | Ok best =>
              match current_score d (ver_frontier v) baseline with
              | Err e => Some (Err e)
              | Ok frontier =>
                  match adjudicate_loop (adjudicate_fuel d) m version
                          (mkLoop d (ver_watermark v) best (ver_best v) frontier (ver_frontier v)) with
                  | None => None
                  | Some (Err e) => Some (Err e)
                  | Some (Ok st) =>
                      if l_watermark st >? ver_next_sequence v then Some (Err check_violation) else
                      Some (Ok (set_versions (l_db st)
                        (<[version := mkVersion (l_watermark st) (ver_next_sequence v) (ver_manifest v)
                             (l_bestID st) (l_frontierID st)]> (t_versions (l_db st)))))
                  end
              end
          end
      end
  end.
End Adjudicate.
