(* ===== verification/AdjudicationProofs.v ===== *)
(** Adjudication refines an abstract ladder: exact integer scores, first qualifier
    takes the milestone, strict order of sequence numbers. *)

From S2P Require Import Prelude Regex GoLib Numbers Types Scores Paths Measurement Evaluation.
From S2P Require Import Validate Sha256 GoJson Canonical Documents Results ResultsProofs Frontier.
From S2P Require Import Store Adjudication.
Open Scope Z_scope.

(** * The abstract ladder *)

Record ladder := mkLadder {
  la_best : Z;
  la_best_id : option string;
  la_frontier : Z;
  la_frontier_id : option string;
  la_claims : string → option string
}.

Definition beats (direction : string) (x y : Z) : bool :=
  if direction ==s "maximize" then y <? x else x <? y.
Definition reaches (direction : string) (x threshold : Z) : bool :=
  if direction ==s "maximize" then threshold <=? x else x <=? threshold.

Section Ladder.
Variables (direction : string) (delta : Z) (tiers : list (string * Z)).
Variable elig : string → string → bool.

(** The score a submission competes with. *)
Definition competes (s : Submission) : option Z :=
  if sub_outcome s ==s "valid" then sub_score s else None.

(** Whether a submission with score [z] takes milestone [mid] at threshold [t]. *)
Definition takes (L : ladder) (id mid : string) (z t : Z) : bool :=
  bool_decide (la_claims L mid = None) && elig id mid && reaches direction z t.

Definition ladder_step (L : ladder) (e : string * Submission) : ladder :=
  let '(id, s) := e in
  match competes s with
  | None => L
  | Some z =>
      let claimed := existsb (λ '(mid, t), takes L id mid z t) tiers in
      let publish := sub_publish_requested s || claimed in
      let record := beats direction z (la_best L) in
      let advance := publish && (delta <=? gain direction z (la_frontier L)) in
      {| la_best := if record then z else la_best L;
         la_best_id := if record then Some id else la_best_id L;
         la_frontier := if advance then z else la_frontier L;
         la_frontier_id := if advance then Some id else la_frontier_id L;
         la_claims := λ mid,
           match la_claims L mid with
           | Some x => Some x
           | None => if existsb (λ '(mid', t), (mid' ==s mid) && takes L id mid' z t) tiers
                     then Some id else None
           end |}
  end.

Definition run_ladder (L : ladder) (l : list (string * Submission)) : ladder :=
  foldl ladder_step L l.
End Ladder.

(** * Texts of stored numbers *)

Lemma better_int x y direction :
  better (int_string x) (int_string y) direction = beats direction x y.
Proof.
  unfold better, beats. rewrite !bigint_of_int_string, Cmp_gtb, Cmp_ltb. done.
Qed.
Lemma crosses_int x y direction :
  crosses (int_string x) (int_string y) direction = reaches direction x y.
Proof.
  unfold crosses, reaches. rewrite !bigint_of_int_string, Cmp_geb, Cmp_leb. done.
Qed.
Lemma meaningful_int x y m d :
  ParseTicks (metric_MinimumDeltaTicks m) = Ok d →
  meaningful (int_string x) (int_string y) m = (d <=? gain (metric_Direction m) x y).
Proof.
  intros [Hd _]%ParseTicks_ok. unfold meaningful, gain. rewrite Hd.
  rewrite !bigint_of_int_string. cbv zeta. rewrite Cmp_geb. case_match; [|done]. f_equal. lia.
Qed.

(** * The open milestones *)

Lemma insert_key_perm {A} k (v : A) l : insert_key k v l ≡ₚ (k, v) :: l.
Proof.
  induction l as [|[k' v'] l IH]; simpl; [done|]. case_match; [done|].
  rewrite IH. apply Permutation_swap.
Qed.
Lemma sort_keys_perm {A} (l : list (string * A)) : sort_keys l ≡ₚ l.
Proof.
  induction l as [|[k v] l IH]; simpl; [done|]. by rewrite insert_key_perm, IH.
Qed.

(** The tiers mapped to a version. *)
Definition tiers_of (d : db) (version : string) : list (string * Z) :=
  map (λ kv, (kv.1.1, kv.2))
    (List.filter (λ kv, kv.1.2 ==s version) (map_to_list (t_mappings d))).

Lemma elem_of_tiers d version mid t :
  (mid, t) ∈ tiers_of d version ↔ t_mappings d !! (mid, version) = Some t.
Proof.
  unfold tiers_of. rewrite list_elem_of_In, in_map_iff. split.
  - intros ([[mid' v'] t'] & [= <- <-] & Hin). apply filter_In in Hin as [Hin Hv]. simpl in *.
    bool_prop. subst. by apply list_elem_of_In, elem_of_map_to_list in Hin.
  - intros Hl. exists ((mid, version), t). split; [done|]. apply filter_In. simpl.
    rewrite String.eqb_refl. split; [|done]. by apply list_elem_of_In, elem_of_map_to_list.
Qed.

Lemma elem_of_open d version mid t :
  (mid, t) ∈ open_milestones d version ↔
  t_mappings d !! (mid, version) = Some t ∧ t_claims d !! mid = None.
Proof.
  unfold open_milestones. rewrite sort_keys_perm, list_elem_of_In, in_map_iff. split.
  - intros ([[mid' v'] t'] & [= <- <-] & Hin). apply filter_In in Hin as [Hin Hv]. simpl in *.
    bool_prop. subst. apply list_elem_of_In, elem_of_map_to_list in Hin.
    split; [done|]. by apply eq_None_not_Some.
  - intros [Hl Hc]. exists ((mid, version), t). split; [done|]. apply filter_In. simpl.
    rewrite String.eqb_refl, bool_decide_eq_false_2 by (by rewrite Hc; intros []).
    split; [|done]. by apply list_elem_of_In, elem_of_map_to_list.
Qed.

Section AdjudicationProofs.
Context `{Env} `{UnicodeLib} `{JsonCanonicalizer} `{JsonType ValidatorResult} `{JsonType Receipt}.

(** * What each write changes *)

Lemma insert_claims_frame version id digest claims d d' :
  foldM (insert_claim version id digest) d claims = Ok d' →
  t_versions d' = t_versions d ∧ t_submissions d' = t_submissions d ∧ t_runs d' = t_runs d ∧
  t_mappings d' = t_mappings d ∧ t_receipts d' = t_receipts d ∧
  t_reservations d' = t_reservations d ∧ t_reserved d' = t_reserved d ∧ t_audit d' = t_audit d ∧
  (∀ mid, cl_submission <$> t_claims d' !! mid =
     if bool_decide (mid ∈ claims) then Some id else cl_submission <$> t_claims d !! mid) ∧
  (∀ mid, mid ∈ claims → t_claims d !! mid = None).
Proof.
  revert d. induction claims as [|c claims IH]; intros d Hf; simpl in Hf.
  { simplify_eq. split_and!; try done. set_solver. }
  ok_step Hf. unfold insert_claim in E. simpl in E. ok_step E. bool_prop.
  apply IH in Hf as (Hv & Hs & Hr & Hm & Hre & Hrs & Hrd & Ha & Hc & Hn). simplify_eq/=.
  assert (c ∉ claims) as Hcn.
  { intros Hin. specialize (Hn c Hin). by rewrite lookup_insert_eq in Hn. }
  split_and!; try done.
  - intros mid. rewrite Hc. destruct (decide (mid = c)) as [->|Hne].
    + rewrite bool_decide_eq_false_2 by done.
      rewrite bool_decide_eq_true_2 by set_solver. by rewrite lookup_insert_eq.
    + rewrite lookup_insert_ne by done.
      destruct (decide (mid ∈ claims)); [rewrite !bool_decide_eq_true_2 by set_solver; done|].
      by rewrite !bool_decide_eq_false_2 by set_solver.
  - intros mid [->|Hin]%elem_of_cons; [by apply eq_None_not_Some|].
    specialize (Hn mid Hin). by rewrite lookup_insert_ne in Hn by set_solver.
Qed.

(** The fields of the store that a recorded submission leaves in place, and how
    it changes the others. *)
Record recorded (d : db) (id : string) (s : Submission) (de : decision) (d' : db) : Prop := {
  re_versions : t_versions d' = t_versions d;
  re_runs : t_runs d' = t_runs d;
  re_mappings : t_mappings d' = t_mappings d;
  re_submissions : ∃ digest,
    t_submissions d' = <[id := finalize_row s (de_publish de) digest]> (t_submissions d);
  re_claims : ∀ mid, cl_submission <$> t_claims d' !! mid =
    if bool_decide (mid ∈ de_claims de) then Some id else cl_submission <$> t_claims d !! mid;
  re_capacity :
    (t_reservations d !! id = Some None ∧ 2 ≤ t_reserved d ∧
     t_reservations d' = <[id := Some Now]> (t_reservations d) ∧
     t_reserved d' = t_reserved d - 2) ∨
    (t_reservations d !! id ≠ Some None ∧ t_reservations d' = t_reservations d ∧
     t_reserved d' = t_reserved d);
  re_audit : ∃ d0 version payload, t_audit d0 = t_audit d ∧
    audit d0 version "submission.adjudicated" payload = Ok d'
}.

Lemma audit_frame d version kind payload d' :
  audit d version kind payload = Ok d' → ∃ l, d' = set_audit d l.
Proof.
  unfold audit. intros Ha. destruct (latest_event (t_audit d)) as [r|];
    do 2 ok_step Ha; simplify_eq; eauto.
Qed.

Lemma record_submission_inv d version id policy s acc w de d' :
  record_submission d version id policy s acc w de = Ok d' → recorded d id s de d'.
Proof.
  unfold record_submission. cbn [ID]. intros Hr. ok_step Hr. ok_step Hr.
  match type of Hr with match foldM ?f ?d0 ?l with _ => _ end = _ =>
    destruct (foldM f d0 l) as [d1|] eqn:Ef; [|done] end.
  apply insert_claims_frame in Ef as (Hv & Hs & Hru & Hm & _ & Hrs & Hrd & Hau & Hc & _).
  cbn in Hv, Hs, Hru, Hm, Hrs, Hrd, Hau, Hc. ok_step Hr.
  set (d2 := set_submissions d1 _) in *.
  set (d3 := if de_publish de then publish_records d2 id s else d2) in *.
  assert (t_versions d3 = t_versions d ∧ t_runs d3 = t_runs d ∧ t_mappings d3 = t_mappings d ∧
    t_submissions d3 = <[id := finalize_row s (de_publish de) r]> (t_submissions d) ∧
    t_claims d3 = t_claims d1 ∧ t_reservations d3 = t_reservations d ∧
    t_reserved d3 = t_reserved d ∧ t_audit d3 = t_audit d) as (? & ? & ? & ? & Hc3 & Hrs3 & Hrd3 & ?).
  { subst d3 d2. destruct (de_publish de); cbn; rewrite ?Hs; by split_and!. }
  assert (t_versions r0 = t_versions d3 ∧ t_runs r0 = t_runs d3 ∧ t_mappings r0 = t_mappings d3 ∧
    t_submissions r0 = t_submissions d3 ∧ t_claims r0 = t_claims d3 ∧ t_audit r0 = t_audit d3)
    as (? & ? & ? & ? & Hc0 & ?).
  { unfold release_capacity in E0. repeat case_match; simplify_eq; cbn; by split_and!. }
  destruct (audit_frame _ _ _ _ _ Hr) as [l ->]. split; cbn; try congruence.
  - exists r. congruence.
  - intros mid. by rewrite Hc0, Hc3, Hc.
  - unfold release_capacity in E0. rewrite Hrs3, Hrd3 in E0.
    destruct (t_reservations d !! id) as [[|]|] eqn:Er; simplify_eq; try (right; split_and!; congruence).
    ok_step E0. bool_prop. simplify_eq. left. cbn. split_and!; (done || lia).
  - exists r0. do 2 eexists. split; [congruence|exact Hr].
Qed.

(** * The decision *)

Lemma claims_fold m runs score l acc claims :
  foldM (claim_step m runs score) acc l = Ok claims →
  ∀ mid, mid ∈ claims ↔ mid ∈ acc ∨ ∃ t, (mid, t) ∈ l ∧
    milestone_eligible m runs mid = Ok true ∧
    crosses score (int_string t) (metric_Direction (manifest_Metric m)) = true.
Proof.
  revert acc. induction l as [|[mid0 t0] l IH]; intros acc Hf mid; simpl in Hf.
  { simplify_eq. set_solver. }
  ok_step Hf. ok_step E. rewrite (IH _ Hf). setoid_rewrite elem_of_cons.
  destruct r0 eqn:Er0; simpl in E;
    [destruct (crosses score (int_string t0) (metric_Direction (manifest_Metric m))) eqn:Ec|];
    simplify_eq; rewrite ?elem_of_app, ?list_elem_of_singleton; naive_solver congruence.
Qed.

(** The runs a decision consults, and the milestones they admit. *)
Definition runs_consulted (d : db) (m : Manifest) (id : string) : result (list RunReceipt) :=
  if bool_decide (is_Some (manifest_Evaluation m)) then measurement_runs d id else Ok [].
Definition admits (d : db) (m : Manifest) (id mid : string) : bool :=
  match runs_consulted d m id with
  | Ok runs => match milestone_eligible m runs mid with Ok b => b | Err _ => false end
  | Err _ => false
  end.

Lemma decide_submission_inv st m version id s de :
  decide_submission st m version id s = Ok de →
  match competes s with
  | None => de = mkDecision [] false false (sub_publish_requested s)
  | Some z =>
      de_record de = better (int_string z) (l_best st) (metric_Direction (manifest_Metric m)) ∧
      (∀ mid, mid ∈ de_claims de ↔ ∃ t, (mid, t) ∈ open_milestones (l_db st) version ∧
         admits (l_db st) m id mid = true ∧
         reaches (metric_Direction (manifest_Metric m)) z t = true) ∧
      de_publish de = sub_publish_requested s || (lenl (de_claims de) >? 0) ∧
      de_advance de = de_publish de
        && meaningful (int_string z) (l_frontier st) (manifest_Metric m)
  end.
Proof.
  unfold decide_submission, competes. destruct (sub_score s) as [z|].
  2: { destruct (sub_outcome s ==s "valid"); by intros [= <-]. }
  destruct (sub_outcome s ==s "valid"); [|by intros [= <-]].
  fold (runs_consulted (l_db st) m id). intros Hd. do 2 ok_step Hd. injection Hd as <-.
  split_and!; try done. intros mid. simpl. rewrite (claims_fold _ _ _ _ _ _ E0 mid).
  unfold admits. rewrite E. setoid_rewrite crosses_int.
  destruct (milestone_eligible m r mid) as [[]|]; set_solver.
Qed.

(** * Simulation *)

Section Simulation.
Context (d0 : db) (m : Manifest) (version : string) (delta : Z).
Context (Hdelta : ParseTicks (metric_MinimumDeltaTicks (manifest_Metric m)) = Ok delta).

Abbreviation dir := (metric_Direction (manifest_Metric m)).
Abbreviation abstract_step :=
  (ladder_step dir delta (tiers_of d0 version) (admits d0 m)).

(** The loop's variables and the claims table represent the ladder. *)
Record represents (st : loop_state) (L : ladder) : Prop := {
  rp_best : l_best st = int_string (la_best L);
  rp_best_id : l_bestID st = la_best_id L;
  rp_frontier : l_frontier st = int_string (la_frontier L);
  rp_frontier_id : l_frontierID st = la_frontier_id L;
  rp_claims : ∀ mid, cl_submission <$> t_claims (l_db st) !! mid = la_claims L mid;
  rp_runs : t_runs (l_db st) = t_runs d0;
  rp_mappings : t_mappings (l_db st) = t_mappings d0
}.

Lemma represents_admits st L id mid :
  represents st L → admits (l_db st) m id mid = admits d0 m id mid.
Proof.
  intros []. unfold admits, runs_consulted, measurement_runs. by rewrite rp_runs0.
Qed.

Lemma represents_takes st L id z mid t :
  represents st L →
  ((mid, t) ∈ open_milestones (l_db st) version ∧ admits (l_db st) m id mid = true ∧
   reaches dir z t = true) ↔
  (mid, t) ∈ tiers_of d0 version ∧ takes dir (admits d0 m) L id mid z t = true.
Proof.
  intros HR. rewrite elem_of_open, elem_of_tiers, (represents_admits _ _ _ _ HR).
  destruct HR. unfold takes. rewrite rp_mappings0, !andb_true_iff, bool_decide_eq_true.
  rewrite <-rp_claims0, fmap_None. tauto.
Qed.

Lemma decision_represents st L id s de d' w :
  represents st L → decide_submission st m version id s = Ok de →
  recorded (l_db st) id s de d' →
  let score := match sub_score s with Some z => int_string z | None => "" end in
  represents (mkLoop d' w
    (if de_record de then score else l_best st)
    (if de_record de then Some id else l_bestID st)
    (if de_advance de then score else l_frontier st)
    (if de_advance de then Some id else l_frontierID st)) (abstract_step L (id, s)).
Proof.
  intros HR Hd%decide_submission_inv Hrec. pose proof HR as []. unfold ladder_step.
  destruct (competes s) as [z|] eqn:Ec.
  - unfold competes in Ec. case_match; [|done]. rewrite Ec.
    destruct Hd as (Hrecord & Hclaims & Hpub & Hadv). setoid_rewrite (represents_takes _ _ _ _ _ _ HR) in Hclaims.
    assert (∀ mid, bool_decide (mid ∈ de_claims de) =
      existsb (λ '(mid', t), (mid' ==s mid) && takes dir (admits d0 m) L id mid' z t)
        (tiers_of d0 version)) as Hex.
    { intros mid. apply eq_true_iff_eq. rewrite bool_decide_eq_true, Hclaims, existsb_exists.
      setoid_rewrite <-list_elem_of_In. split.
      - intros (t & Hin & Ht). exists (mid, t). rewrite String.eqb_refl. done.
      - intros ([mid' t] & Hin & Ht). bool_prop. subst. by exists t. }
    assert ((lenl (de_claims de) >? 0) =
      existsb (λ '(mid, t), takes dir (admits d0 m) L id mid z t) (tiers_of d0 version)) as Hne.
    { apply eq_true_iff_eq. rewrite existsb_exists, Z.gtb_ltb, Z.ltb_lt. unfold lenl. split.
      - intros Hlen. destruct (de_claims de) as [|mid l] eqn:El; [simpl in Hlen; lia|].
        destruct (proj1 (Hclaims mid)) as (t & Hin & Ht); [set_solver|].
        exists (mid, t). by rewrite <-list_elem_of_In.
      - intros ([mid t] & Hin%list_elem_of_In & Ht).
        assert (mid ∈ de_claims de) by (apply Hclaims; eauto).
        destruct (de_claims de); [set_solver|simpl; lia]. }
    rewrite rp_best0, better_int in Hrecord.
    rewrite rp_frontier0, (meaningful_int _ _ _ _ Hdelta), Hpub, Hne in Hadv.
    destruct Hrec. split; cbn; rewrite ?Hrecord, ?Hadv; try (by case_match); try congruence.
    intros mid. rewrite re_claims0, <-(Hex mid), <-rp_claims0.
    case_bool_decide as Hin; [|by destruct (t_claims (l_db st) !! mid)].
    apply Hclaims in Hin as (t & Hin & Ht).
    unfold takes in Ht. bool_prop. rewrite rp_claims0.
    by match goal with Hn : la_claims L mid = None |- _ => rewrite Hn end.
  - subst de. destruct Hrec. cbn in *. split; cbn; try done; try congruence.
    intros mid. by rewrite re_claims0, rp_claims0.
Qed.
End Simulation.

(** * The loop *)

Lemma submission_at_inv d version seq id s r :
  submission_at d version seq = Some (id, s, r) →
  t_submissions d !! id = Some s ∧ sub_version s = version ∧ sub_sequence s = seq.
Proof.
  unfold submission_at. intros Hs. destruct (List.find _ _) as [[id' s']|] eqn:Ef; [|done].
  case_match; [|done]. simplify_eq. apply find_some_elem in Ef as [Hin Hc]. simpl in Hc.
  bool_prop. by apply elem_of_map_to_list in Hin.
Qed.

(** One finalised submission. *)
Record stepped (m : Manifest) (version : string) (st : loop_state) (id : string)
    (s : Submission) (st' : loop_state) : Prop := {
  sp_row : t_submissions (l_db st) !! id = Some s;
  sp_version : sub_version s = version;
  sp_sequence : sub_sequence s = l_watermark st + 1;
  sp_status : sub_status s = "validated";
  sp_decided : ∃ de d',
    decide_submission st m version id s = Ok de ∧ recorded (l_db st) id s de d' ∧
    let score := match sub_score s with Some z => int_string z | None => "" end in
    st' = mkLoop d' (l_watermark st + 1)
      (if de_record de then score else l_best st)
      (if de_record de then Some id else l_bestID st)
      (if de_advance de then score else l_frontier st)
      (if de_advance de then Some id else l_frontierID st)
}.

Lemma adjudicate_step_inv m version st st' :
  adjudicate_step m version st = Ok (Some st') → ∃ id s, stepped m version st id s st'.
Proof.
  unfold adjudicate_step. intros Hs.
  destruct (submission_at _ _ _) as [[[id s] acc]|] eqn:Ea; [|done].
  apply submission_at_inv in Ea as (? & ? & ?). ok_step Hs.
  destruct (String.eqb_spec (sub_status s) "validated"); [|done]. simpl in Hs.
  do 2 ok_step Hs. simplify_eq. exists id, s. split; try done.
  exists r, r0. split_and!; try done. by eapply record_submission_inv.
Qed.

(** The iterations of the loop and the rows they finalised, up to the break. *)
Inductive iterates (m : Manifest) (version : string)
    : loop_state → list (string * Submission) → loop_state → Prop :=
| iterates_stop st : adjudicate_step m version st = Ok None → iterates m version st [] st
| iterates_next st id s st1 l st' :
    stepped m version st id s st1 → iterates m version st1 l st' →
    iterates m version st ((id, s) :: l) st'.

Lemma adjudicate_loop_iterates fuel m version st st' :
  adjudicate_loop fuel m version st = Some (Ok st') → ∃ l, iterates m version st l st'.
Proof.
  revert st. induction fuel as [|fuel IH]; intros st Hl; simpl in Hl; [done|].
  destruct (adjudicate_step m version st) as [[st1|]|] eqn:Es; [| |done].
  - apply adjudicate_step_inv in Es as (id & s & Hs). apply IH in Hl as [l Hl].
    exists ((id, s) :: l). by econstructor.
  - simplify_eq. exists []. by constructor.
Qed.

(** ** Termination *)

Definition waiting (d : db) : gmap string Submission :=
  filter (λ kv, sub_status kv.2 = "validated") (t_submissions d).

Lemma stepped_waiting m version st id s st' :
  stepped m version st id s st' → S (size (waiting (l_db st'))) = size (waiting (l_db st)).
Proof.
  intros [Hrow _ _ Hst (de & d' & _ & Hrec & ->)]. cbn. destruct Hrec as [_ _ _ [digest Hsub] _ _ _].
  unfold waiting. rewrite Hsub, map_filter_insert_False by done.
  rewrite map_filter_delete, map_size_delete.
  assert (filter (λ kv, sub_status kv.2 = "validated") (t_submissions (l_db st)) !! id = Some s) as Hw.
  { by apply map_lookup_filter_Some. }
  rewrite Hw.
  assert (size (filter (λ kv, sub_status kv.2 = "validated") (t_submissions (l_db st))) ≠ 0%nat).
  { intros Hz%map_size_empty_inv. by rewrite Hz, lookup_empty in Hw. }
  lia.
Qed.

Lemma adjudicate_loop_total fuel m version st :
  (size (waiting (l_db st)) < fuel)%nat → adjudicate_loop fuel m version st ≠ None.
Proof.
  revert st. induction fuel as [|fuel IH]; intros st Hf; [lia|]. simpl.
  destruct (adjudicate_step m version st) as [[st1|]|] eqn:Es; [|done..].
  apply adjudicate_step_inv in Es as (id & s & Hs%stepped_waiting). apply IH. lia.
Qed.

(** C39: the adjudication loop always terminates: with one step of fuel per stored
    submission it reaches its break or an error, whatever the tables hold. *)
Theorem adjudicate_terminates d version : adjudicate d version ≠ None.
Proof.
  unfold adjudicate. repeat (case_match; try done).
  match goal with Hl : adjudicate_loop _ _ _ _ = None |- _ =>
    apply adjudicate_loop_total in Hl; [done|] end.
  unfold adjudicate_fuel, waiting. cbn [l_db].
  pose proof (map_size_filter (λ kv, sub_status kv.2 = "validated") (t_submissions d)). lia.
Qed.

(** ** Order *)

(** The rows finalised between two watermarks, and nothing else. *)
Record finalized_run (d : db) (version : string) (w w' : Z)
    (entries : list (string * Submission)) (d' : db) : Prop := {
  fr_order : sub_sequence ∘ snd <$> entries = seqZ (w + 1) (w' - w);
  fr_advance : w ≤ w';
  fr_rows : Forall (λ '(id, s), t_submissions d !! id = Some s ∧ sub_version s = version ∧
              sub_status s = "validated") entries;
  fr_distinct : NoDup entries.*1;
  fr_finalized : ∀ id s, (id, s) ∈ entries →
    ∃ public digest, t_submissions d' !! id = Some (finalize_row s public digest);
  fr_others : ∀ id, id ∉ entries.*1 → t_submissions d' !! id = t_submissions d !! id
}.

Lemma stepped_submissions m version st id s st' :
  stepped m version st id s st' → ∃ public digest,
    t_submissions (l_db st') = <[id := finalize_row s public digest]> (t_submissions (l_db st)).
Proof. intros [_ _ _ _ (de & d' & _ & [_ _ _ [digest ?] _ _ _] & ->)]. eauto. Qed.

Lemma iterates_finalized m version st l st' :
  iterates m version st l st' →
  finalized_run (l_db st) version (l_watermark st) (l_watermark st') l (l_db st').
Proof.
  induction 1 as [st _|st id s st1 l st' Hs _ IH].
  { split; simpl; [by rewrite Z.sub_diag|lia|apply Forall_nil_2|apply NoDup_nil_2|set_solver|done]. }
  pose proof Hs as [Hrow Hver Hseq Hst (de & d1 & _ & _ & Est)].
  assert (l_watermark st1 = l_watermark st + 1) as Hw by by rewrite Est.
  destruct (stepped_submissions _ _ _ _ _ _ Hs) as (pub & dig & Hsub).
  destruct IH as [Hord Hadv Hrows Hnd Hfin Hoth]. rewrite Hw in *.
  assert (id ∉ l.*1) as Hnin.
  { intros ([id' s'] & -> & Hin)%list_elem_of_fmap. rewrite Forall_forall in Hrows.
    destruct (Hrows _ Hin) as (Hl & _ & Hv). rewrite Hsub in Hl. simpl in Hl.
    rewrite lookup_insert_eq in Hl. by simplify_eq. }
  split.
  - rewrite fmap_cons, Hord. rewrite (seqZ_cons (l_watermark st + 1)) by lia. f_equal; [done|].
    f_equal; lia.
  - lia.
  - constructor; [done|]. apply Forall_forall. intros [id' s'] Hin.
    rewrite Forall_forall in Hrows. destruct (Hrows _ Hin) as (Hl & ? & ?). split_and!; try done.
    rewrite Hsub, lookup_insert_ne in Hl; [done|]. intros <-. apply Hnin.
    apply list_elem_of_fmap. by exists (id, s').
  - simpl. by constructor.
  - intros id' s' [[= -> ->]|Hin]%elem_of_cons; [|by apply Hfin].
    rewrite (Hoth id Hnin), Hsub, lookup_insert_eq. eauto.
  - simpl. intros id' Hin. rewrite Hoth by set_solver. rewrite Hsub, lookup_insert_ne; set_solver.
Qed.

(** Where the loop stops. *)
Definition blocked (d : db) (version : string) (sequence : Z) : Prop :=
  match submission_at d version sequence with
  | None => True
  | Some (_, s, _) => sub_status s ≠ "validated"
  end.

Lemma iterates_blocked m version st l st' :
  iterates m version st l st' → blocked (l_db st') version (l_watermark st' + 1).
Proof.
  induction 1 as [st Hs|]; [|done]. unfold blocked, adjudicate_step in *.
  destruct (submission_at _ _ _) as [[[id s] acc]|]; [|done]. ok_step Hs.
  destruct (String.eqb_spec (sub_status s) "validated"); [|done]. simpl in Hs.
  by do 2 ok_step Hs.
Qed.

(** The initial variables of the loop. *)
Definition initial_loop (d : db) (v : Version) (best frontier : string) : loop_state :=
  mkLoop d (ver_watermark v) best (ver_best v) frontier (ver_frontier v).

Lemma adjudicate_inv d version d' :
  adjudicate d version = Some (Ok d') → ∃ v m best frontier l st,
    t_versions d !! version = Some v ∧ ver_manifest v = Ok m ∧
    current_score d (ver_best v) (metric_BaselineTicks (manifest_Metric m)) = Ok best ∧
    current_score d (ver_frontier v) (metric_BaselineTicks (manifest_Metric m)) = Ok frontier ∧
    iterates m version (initial_loop d v best frontier) l st ∧
    l_watermark st ≤ ver_next_sequence v ∧
    d' = set_versions (l_db st)
      (<[version := mkVersion (l_watermark st) (ver_next_sequence v) (ver_manifest v)
           (l_bestID st) (l_frontierID st)]> (t_versions (l_db st))).
Proof.
  unfold adjudicate. intros Ha.
  destruct (t_versions d !! version) as [v|]; [|done].
  destruct (ver_manifest v) as [m|] eqn:Em; [|done].
  destruct (current_score d (ver_best v) _) as [best|] eqn:Eb; [|done].
  destruct (current_score d (ver_frontier v) _) as [frontier|] eqn:Ef; [|done].
  destruct (adjudicate_loop _ _ _ _) as [[st|]|] eqn:El; [|done..].
  case_match; [done|]. bool_prop. simplify_eq.
  apply adjudicate_loop_iterates in El as [l Hl].
  exists v, m, best, frontier, l, st. by rewrite Em.
Qed.

(** C26: adjudication is strictly in sequence order.  A successful run moves the
    version's watermark from [w] to [w'], finalises exactly one validated
    submission for each sequence number from [w + 1] to [w'], changes no other
    submission row, and stops only where the next sequence number has no row
    (with an acceptance receipt) or one that is not validated yet: a later
    result can never overtake an earlier pending one. *)
Theorem adjudicate_in_order d version d' :
  adjudicate d version = Some (Ok d') → ∃ v v' entries,
    t_versions d !! version = Some v ∧ t_versions d' !! version = Some v' ∧
    ver_manifest v' = ver_manifest v ∧
    finalized_run d version (ver_watermark v) (ver_watermark v') entries d' ∧
    ver_watermark v' ≤ ver_next_sequence v ∧ blocked d' version (ver_watermark v' + 1).
Proof.
  intros (v & m & best & frontier & l & st & Hv & Hm & _ & _ & Hl & Hn & ->)%adjudicate_inv.
  pose proof (iterates_blocked _ _ _ _ _ Hl) as Hb.
  apply iterates_finalized in Hl as [? ? ? ? ? ?].
  exists v. eexists. exists l. split_and!; [done|apply lookup_insert_eq|done|..]; try done.
Qed.
End AdjudicationProofs.
