(* ===== verification/LedgerProofs.v ===== *)
(** The consequences of the ladder refinement, and what adjudication keeps: the verified best
    is the best, the first qualifier holds the milestone, and the capacity account, the
    audit hash chain and the agreement of the platform's score confirmation with the
    protocol's are kept. *)

From S2P Require Import Prelude Regex GoLib Numbers Types Scores Paths Measurement Evaluation Validate Sha256 GoJson.
From S2P Require Import Canonical Documents Results ResultsProofs Frontier Store Adjudication AdjudicationProofs.
Open Scope Z_scope.

(** * Properties of the abstract ladder *)

Lemma beats_trans dir x y z : beats dir x y = true → beats dir y z = true → beats dir x z = true.
Proof. unfold beats. case_match; rewrite !Z.ltb_lt; lia. Qed.
Lemma beats_weak dir x y z : beats dir x y = true → beats dir z y = false → beats dir z x = false.
Proof. unfold beats. case_match; rewrite !Z.ltb_lt, !Z.ltb_ge; lia. Qed.
Lemma beats_irrefl dir x : beats dir x x = false.
Proof. unfold beats. case_match; apply Z.ltb_irrefl. Qed.

Section LadderFacts.
Variables (direction : string) (delta : Z) (tiers : list (string * Z)).
Variable elig : string → string → bool.
Abbreviation step := (ladder_step direction delta tiers elig).
Abbreviation run := (run_ladder direction delta tiers elig).

Lemma step_best L id s x :
  beats direction x (la_best L) = false → beats direction x (la_best (step L (id, s))) = false.
Proof.
  unfold ladder_step. destruct (competes s) as [z|]; [|done]. cbn.
  destruct (beats direction z (la_best L)) eqn:E; [|done]. by apply beats_weak.
Qed.

Lemma run_best L l x :
  beats direction x (la_best L) = false → beats direction x (la_best (run L l)) = false.
Proof.
  revert L. induction l as [|[id s] l IH]; intros L Hx; [done|].
  cbn. apply IH. by apply step_best.
Qed.

(** No competing score beats the best at the end. *)
Lemma run_best_all L l id s z :
  (id, s) ∈ l → competes s = Some z → beats direction z (la_best (run L l)) = false.
Proof.
  revert L. induction l as [|[id' s'] l IH]; intros L Hin Hz; [set_solver|].
  apply elem_of_cons in Hin as [[= <- <-]|Hin]; [|by apply IH].
  cbn. apply run_best. unfold ladder_step. rewrite Hz. cbn.
  destruct (beats direction z (la_best L)) eqn:E; [apply beats_irrefl|done].
Qed.

(** Whether an entry qualifies for a milestone, leaving aside earlier claims. *)
Definition qualifies (mid : string) (e : string * Submission) : Prop :=
  ∃ z t, competes e.2 = Some z ∧ (mid, t) ∈ tiers ∧ elig e.1 mid = true ∧
    reaches direction z t = true.

Lemma step_claims L e mid :
  la_claims (step L e) mid = match la_claims L mid with
    | Some x => Some x
    | None => la_claims (step L e) mid end ∧
  (la_claims L mid = None →
     (qualifies mid e → la_claims (step L e) mid = Some e.1) ∧
     (¬ qualifies mid e → la_claims (step L e) mid = None)).
Proof.
  destruct e as [id s]. unfold ladder_step, qualifies. cbn [fst snd].
  destruct (competes s) as [z|]; cbn [la_claims].
  - split; [by destruct (la_claims L mid)|]. intros Hn. rewrite Hn. split.
    + intros (z' & t & [= <-] & Hin & He & Hr). rewrite (proj2 (existsb_exists _ _)); [done|].
      exists (mid, t). rewrite <-list_elem_of_In. split; [done|].
      rewrite String.eqb_refl. unfold takes. by rewrite Hn, He, Hr.
    + intros Hq. destruct (existsb _ _) eqn:E; [|done]. exfalso. apply Hq.
      apply existsb_exists in E as ([mid' t] & Hin%list_elem_of_In & Ht). unfold takes in Ht.
      bool_prop. subst. by exists z, t.
  - split; [by destruct (la_claims L mid)|]. intros Hn. split; [naive_solver|done].
Qed.

(** A milestone is held by its earlier holder, else by the first entry that
    qualifies. *)
Lemma run_claims L l mid id :
  la_claims (run L l) mid = Some id ↔
  la_claims L mid = Some id ∨
  la_claims L mid = None ∧ ∃ pre s post, l = pre ++ (id, s) :: post ∧
    qualifies mid (id, s) ∧ Forall (λ e, ¬ qualifies mid e) pre.
Proof.
  revert L. induction l as [|e l IH]; intros L.
  { cbn. split; [by left|]. intros [?|(_ & [|] & ? & ? & ? & _)]; done. }
  change (run L (e :: l)) with (run (step L e) l). rewrite IH. destruct (step_claims L e mid) as [Hkeep Hnew].
  destruct (la_claims L mid) as [x|] eqn:EL.
  - rewrite Hkeep. naive_solver.
  - destruct (Hnew eq_refl) as [Hyes Hno].
    assert (qualifies mid e ∨ ¬ qualifies mid e) as [Hq|Hq].
    { destruct (la_claims (step L e) mid) as [x|] eqn:E; [|right; intros Hq; specialize (Hyes Hq); congruence].
      destruct e as [id' s]. unfold ladder_step in E.
      destruct (competes s) as [z|] eqn:Ec; [|congruence]. cbn in E. rewrite EL in E.
      destruct (existsb _ _) eqn:Ex; [|done].
      apply existsb_exists in Ex as ([mid' t] & Hin%list_elem_of_In & Ht). unfold takes in Ht.
      bool_prop. subst. left. exists z, t. done. }
    + rewrite (Hyes Hq). split.
      * intros [[= <-]|[? _]]; [|done]. right. split; [done|]. destruct e as [id' s].
        exists [], s, l. split_and!; [done|done|constructor].
      * intros [?|(_ & pre & s & post & Heq & Hqs & Hf)]; [done|]. left.
        destruct pre as [|e' pre]; simplify_eq/=; [done|]. by apply Forall_cons in Hf as [? _].
    + rewrite (Hno Hq). split.
      * intros [?|(_ & pre & s & post & -> & Hqs & Hf)]; [done|]. right. split; [done|].
        exists (e :: pre), s, post. split_and!; [done|done|by constructor].
      * intros [?|(_ & pre & s & post & Heq & Hqs & Hf)]; [done|]. right. split; [done|].
        destruct pre as [|e' pre]; simplify_eq/=; [done|].
        apply Forall_cons in Hf as [_ Hf]. by exists pre, s, post.
Qed.
End LadderFacts.

(** * Adjudication implements the ladder *)

(** The score a version's pointer stands for; without a pointer, the baseline. *)
Definition stored_score (d : db) (id : option string) (baseline : Z) : Z :=
  match id with
  | Some id => default baseline (t_submissions d !! id ≫= sub_score)
  | None => baseline
  end.

Definition ladder_of (d : db) (v : Version) (baseline : Z) : ladder :=
  {| la_best := stored_score d (ver_best v) baseline;
     la_best_id := ver_best v;
     la_frontier := stored_score d (ver_frontier v) baseline;
     la_frontier_id := ver_frontier v;
     la_claims := λ mid, cl_submission <$> t_claims d !! mid |}.

Section Refinement.
Context `{Env} `{UnicodeLib} `{JsonCanonicalizer} `{JsonType ValidatorResult} `{JsonType Receipt}.

Lemma current_score_text d id baseline b text :
  ParseTicks baseline = Ok b → current_score d id baseline = Ok text →
  text = int_string (stored_score d id b).
Proof.
  intros [Hb _]%ParseTicks_ok. unfold current_score, score_text, stored_score.
  destruct id as [id|]; [|congruence].
  destruct (t_submissions d !! id) as [s|]; [|done]. simpl. by destruct (sub_score s); intros [= <-].
Qed.

Lemma iterates_represents d0 m version delta st l st' L :
  ParseTicks (metric_MinimumDeltaTicks (manifest_Metric m)) = Ok delta →
  iterates m version st l st' → represents d0 st L →
  represents d0 st' (run_ladder (metric_Direction (manifest_Metric m)) delta
    (tiers_of d0 version) (admits d0 m) L l).
Proof.
  intros Hd Hi. revert L. induction Hi as [|st id s st1 l st' Hs _ IH]; intros L HR; [done|].
  apply IH. destruct Hs as [_ _ _ _ (de & d' & Hde & Hrec & ->)].
  by eapply decision_represents.
Qed.

(** The pointers of the ladder name the submissions its scores come from. *)
Definition pointers_ok (d : db) (b : Z) (L : ladder) : Prop :=
  la_best L = stored_score d (la_best_id L) b ∧
  la_frontier L = stored_score d (la_frontier_id L) b.

Lemma run_pointers d b dir delta tiers elig L l :
  Forall (λ e, t_submissions d !! e.1 = Some e.2) l → pointers_ok d b L →
  pointers_ok d b (run_ladder dir delta tiers elig L l).
Proof.
  intros Hl. revert L. induction Hl as [|[id s] l Hrow _ IH]; intros L [H1' H2']; [done|].
  apply IH. unfold ladder_step. simpl in Hrow. destruct (competes s) as [z|] eqn:Ez; [|done].
  assert (stored_score d (Some id) b = z) as Hz.
  { unfold stored_score. rewrite Hrow. simpl. unfold competes in Ez. case_match; [|done]. by rewrite Ez. }
  split; cbn; case_match; done.
Qed.

Lemma finalized_scores d version w w' l d' id b :
  finalized_run d version w w' l d' → stored_score d' id b = stored_score d id b.
Proof.
  intros [_ _ Hrows _ Hfin Hoth]. destruct id as [id|]; [|done]. unfold stored_score.
  destruct (decide (id ∈ l.*1)) as [Hin|Hin]; [|by rewrite Hoth].
  apply list_elem_of_fmap in Hin as ([id' s] & -> & Hin). simpl.
  destruct (Hfin _ _ Hin) as (? & ? & ->). rewrite Forall_forall in Hrows.
  by destruct (Hrows _ Hin) as (-> & _).
Qed.

(** What a successful adjudication establishes, with the ladder it ran. *)
Lemma adjudicate_ladder d version d' v m b delta :
  adjudicate d version = Some (Ok d') → t_versions d !! version = Some v →
  ver_manifest v = Ok m → ParseTicks (metric_BaselineTicks (manifest_Metric m)) = Ok b →
  ParseTicks (metric_MinimumDeltaTicks (manifest_Metric m)) = Ok delta →
  ∃ entries v', t_versions d' !! version = Some v' ∧
    finalized_run d version (ver_watermark v) (ver_watermark v') entries d' ∧
    let L := run_ladder (metric_Direction (manifest_Metric m)) delta (tiers_of d version)
               (admits d m) (ladder_of d v b) entries in
    ver_best v' = la_best_id L ∧ stored_score d' (ver_best v') b = la_best L ∧
    ver_frontier v' = la_frontier_id L ∧ stored_score d' (ver_frontier v') b = la_frontier L ∧
    ∀ mid, cl_submission <$> t_claims d' !! mid = la_claims L mid.
Proof.
  intros (v0 & m0 & best & frontier & l & st & Hv & Hm & Hbest & Hfr & Hl & Hn & ->)%adjudicate_inv
    Hv' Hm' Hb Hd. assert (v0 = v) as -> by congruence. assert (m0 = m) as -> by congruence.
  assert (represents d (initial_loop d v best frontier) (ladder_of d v b)) as HR.
  { split; cbn; try done; by eapply current_score_text. }
  pose proof (iterates_represents d m version delta _ _ _ _ Hd Hl HR) as HR'.
  pose proof (iterates_finalized _ _ _ _ _ Hl) as Hrun.
  assert (pointers_ok d b (run_ladder (metric_Direction (manifest_Metric m)) delta
    (tiers_of d version) (admits d m) (ladder_of d v b) l)) as [Hp1 Hp2].
  { apply run_pointers; [|done]. destruct Hrun. eapply Forall_impl; [done|]. by intros [] []. }
  destruct HR' as [_ Hbi _ Hfi Hc _ _]. exists l. eexists.
  split; [apply lookup_insert_eq|]. cbn [ver_watermark ver_best ver_frontier].
  split; [by destruct Hrun; split|]. cbn [initial_loop l_db l_watermark] in Hrun.
  rewrite Hbi, Hfi. split_and!; try done.
  - rewrite Hp1. exact (finalized_scores _ _ _ _ _ _ _ _ Hrun).
  - rewrite Hp2. exact (finalized_scores _ _ _ _ _ _ _ _ Hrun).
Qed.

(** C7: adjudication refines the abstract ladder.  With parseable baseline and
    minimum delta, the pointers, scores and milestone holders stored after a
    successful run are exactly those of the exact-integer ladder run over the
    finalised submissions in sequence order. *)
Theorem adjudicate_refines_ladder d version d' v m b delta :
  adjudicate d version = Some (Ok d') → t_versions d !! version = Some v →
  ver_manifest v = Ok m → ParseTicks (metric_BaselineTicks (manifest_Metric m)) = Ok b →
  ParseTicks (metric_MinimumDeltaTicks (manifest_Metric m)) = Ok delta →
  ∃ entries v', t_versions d' !! version = Some v' ∧
    finalized_run d version (ver_watermark v) (ver_watermark v') entries d' ∧
    let L := run_ladder (metric_Direction (manifest_Metric m)) delta (tiers_of d version)
               (admits d m) (ladder_of d v b) entries in
    ver_best v' = la_best_id L ∧ stored_score d' (ver_best v') b = la_best L ∧
    ver_frontier v' = la_frontier_id L ∧ stored_score d' (ver_frontier v') b = la_frontier L ∧
    ∀ mid, cl_submission <$> t_claims d' !! mid = la_claims L mid.
Proof. apply adjudicate_ladder. Qed.

(** After adjudication the verified best is the best: no valid score finalised
    by the run, and not the previous best either, beats the stored one. *)
Theorem adjudicate_best_unbeaten d version d' v m b delta :
  adjudicate d version = Some (Ok d') → t_versions d !! version = Some v →
  ver_manifest v = Ok m → ParseTicks (metric_BaselineTicks (manifest_Metric m)) = Ok b →
  ParseTicks (metric_MinimumDeltaTicks (manifest_Metric m)) = Ok delta →
  ∃ v' entries, t_versions d' !! version = Some v' ∧
    finalized_run d version (ver_watermark v) (ver_watermark v') entries d' ∧
    beats (metric_Direction (manifest_Metric m)) (stored_score d (ver_best v) b)
      (stored_score d' (ver_best v') b) = false ∧
    ∀ id s z, (id, s) ∈ entries → competes s = Some z →
      beats (metric_Direction (manifest_Metric m)) z (stored_score d' (ver_best v') b) = false.
Proof.
  intros Ha Hv Hm Hb Hd.
  destruct (adjudicate_ladder _ _ _ _ _ _ _ Ha Hv Hm Hb Hd)
    as (l & v' & Hv' & Hrun & _ & Hbest & _). exists v', l. rewrite Hbest.
  split_and!; try done; [apply run_best, beats_irrefl|]. intros. by eapply run_best_all.
Qed.

(** A milestone goes to the first qualifier and is never taken away.  After
    adjudication submission [id] holds milestone [mid] exactly when it held it
    before, or nobody did and it is the first of the finalised submissions, in
    sequence order, whose valid score reaches the mapped threshold with confirmed
    achievement. *)
Theorem adjudicate_first_claim d version d' v m b delta mid id :
  adjudicate d version = Some (Ok d') → t_versions d !! version = Some v →
  ver_manifest v = Ok m → ParseTicks (metric_BaselineTicks (manifest_Metric m)) = Ok b →
  ParseTicks (metric_MinimumDeltaTicks (manifest_Metric m)) = Ok delta →
  ∃ v' entries, t_versions d' !! version = Some v' ∧
    finalized_run d version (ver_watermark v) (ver_watermark v') entries d' ∧
    (cl_submission <$> t_claims d' !! mid = Some id ↔
     cl_submission <$> t_claims d !! mid = Some id ∨
     t_claims d !! mid = None ∧ ∃ pre s post, entries = pre ++ (id, s) :: post ∧
       qualifies (metric_Direction (manifest_Metric m)) (tiers_of d version) (admits d m)
         mid (id, s) ∧
       Forall (λ e, ¬ qualifies (metric_Direction (manifest_Metric m)) (tiers_of d version)
                        (admits d m) mid e) pre).
Proof.
  intros Ha Hv Hm Hb Hd.
  destruct (adjudicate_ladder _ _ _ _ _ _ _ Ha Hv Hm Hb Hd)
    as (l & v' & Hv' & Hrun & _ & _ & _ & _ & Hc). exists v', l.
  split_and!; try done. rewrite Hc, run_claims. cbn. by rewrite fmap_None.
Qed.
End Refinement.

(** * Capacity *)

Definition active (d : db) : gmap string (option Time) :=
  filter (λ kv, kv.2 = None) (t_reservations d).
(** Two units are reserved for each reservation that is not released. *)
Definition capacity_ok (d : db) : Prop := t_reserved d = 2 * Z.of_nat (size (active d)).

(** * The audit chain *)

Fixpoint chain_from (previous : string) (sequence : Z) (l : list AuditRow) : Prop :=
  match l with
  | [] => True
  | r :: l =>
      au_sequence r = sequence + 1 ∧ au_previous r = previous ∧
      au_digest r = event_digest previous (au_kind r) (au_payload r) ∧
      chain_from (au_digest r) (au_sequence r) l
  end.
Definition chain_ok (l : list AuditRow) : Prop := chain_from "genesis" 0 l.

Section Chain.
(** The head a chain leaves for its next event. *)
Definition head_of (previous : string) (sequence : Z) (l : list AuditRow) : string * Z :=
  match last l with Some r => (au_digest r, au_sequence r) | None => (previous, sequence) end.

Lemma chain_snoc previous sequence l r :
  chain_from previous sequence (l ++ [r]) ↔
  chain_from previous sequence l ∧
  chain_from (head_of previous sequence l).1 (head_of previous sequence l).2 [r].
Proof.
  revert previous sequence. induction l as [|x l IH]; intros previous sequence.
  { unfold head_of. simpl. tauto. }
  cbn [app chain_from]. rewrite IH. unfold head_of. rewrite last_cons.
  destruct (last l); simpl; tauto.
Qed.

Lemma latest_from b previous sequence l :
  chain_from previous sequence l → au_sequence b ≤ sequence →
  foldl (λ best r, match best with
                   | Some b => if au_sequence b <? au_sequence r then Some r else best
                   | None => Some r
                   end) (Some b) l = Some (default b (last l)).
Proof.
  revert b previous sequence. induction l as [|r l IH]; intros b previous sequence Hc Hb; [done|].
  destruct Hc as (Hs & _ & _ & Hc). cbn [foldl].
  rewrite (proj2 (Z.ltb_lt _ _)) by lia. rewrite (IH r _ _ Hc) by lia.
  rewrite last_cons. by destruct (last l).
Qed.

Lemma latest_last l : chain_ok l → latest_event l = last l.
Proof.
  unfold chain_ok, latest_event. destruct l as [|r l]; [done|]. intros (Hs & _ & _ & Hc).
  cbn [foldl]. rewrite (latest_from r _ _ _ Hc) by lia. rewrite last_cons. by destruct (last l).
Qed.
End Chain.

Section Ledger.
Context `{Env} `{UnicodeLib} `{JsonCanonicalizer} `{JsonType ValidatorResult} `{JsonType Receipt}.

Lemma audit_extends d version kind payload d' :
  audit d version kind payload = Ok d' → chain_ok (t_audit d) →
  chain_ok (t_audit d') ∧ ∃ row, t_audit d' = t_audit d ++ [row] ∧ au_kind row = kind.
Proof.
  unfold audit. intros Ha Hc. rewrite (latest_last _ Hc) in Ha.
  destruct (last (t_audit d)) as [r|] eqn:El; do 2 ok_step Ha; simplify_eq; cbn [t_audit set_audit].
  all: split; [|eexists; split; [done|done]].
  all: apply chain_snoc; split; [done|]; unfold head_of; rewrite El; by repeat split.
Qed.

Lemma iterates_audit m version st l st' :
  iterates m version st l st' → chain_ok (t_audit (l_db st)) →
  chain_ok (t_audit (l_db st')) ∧ ∃ rows, t_audit (l_db st') = t_audit (l_db st) ++ rows ∧
    length rows = length l ∧ Forall (λ r, au_kind r = "submission.adjudicated") rows.
Proof.
  induction 1 as [st _|st id s st1 l st' Hs _ IH]; intros Hc.
  { split; [done|]. exists []. by rewrite app_nil_r. }
  destruct Hs as [_ _ _ _ (de & d' & _ & Hrec & ->)].
  destruct Hrec as [_ _ _ _ _ _ (d0 & v & payload & Hd0 & Ha)].
  apply audit_extends in Ha as (Hc' & row & Hrow & Hk); [|by rewrite Hd0].
  destruct (IH Hc') as (? & rows & Hrows & Hlen & Hf). split; [done|]. cbn [l_db] in *.
  exists (row :: rows). rewrite Hrows, Hrow, Hd0, <-app_assoc. split_and!; [done| |by constructor].
  simpl. by rewrite Hlen.
Qed.

(** Adjudication only extends the audit log, by one event per finalised
    submission, and keeps it a hash chain: consecutive sequence numbers, each
    event carrying its predecessor's digest and the SHA-256 of predecessor, kind
    and canonical payload. *)
Theorem adjudicate_audit_chain d version d' v :
  adjudicate d version = Some (Ok d') → t_versions d !! version = Some v →
  chain_ok (t_audit d) →
  ∃ v' rows, t_versions d' !! version = Some v' ∧ chain_ok (t_audit d') ∧
    t_audit d' = t_audit d ++ rows ∧
    lenl rows = ver_watermark v' - ver_watermark v ∧
    Forall (λ r, au_kind r = "submission.adjudicated") rows.
Proof.
  intros (v0 & m & best & frontier & l & st & Hv & _ & _ & _ & Hl & _ & ->)%adjudicate_inv Hv' Hc.
  assert (v0 = v) as -> by congruence.
  destruct (iterates_finalized _ _ _ _ _ Hl) as [Hord Hadv _ _ _ _]. simpl in Hord, Hadv.
  apply iterates_audit in Hl as (Hc' & rows & Hrows & Hlen & Hk); [|done].
  eexists. exists rows. split_and!; [apply lookup_insert_eq|done|done| |done].
  cbn [ver_watermark]. apply (f_equal length) in Hord. rewrite length_fmap, length_seqZ in Hord.
  unfold lenl. lia.
Qed.

Lemma iterates_capacity m version st l st' :
  iterates m version st l st' → capacity_ok (l_db st) →
  capacity_ok (l_db st') ∧
  (∀ id, t_reservations (l_db st) !! id ≠ Some None → t_reservations (l_db st') !! id ≠ Some None) ∧
  Forall (λ e, t_reservations (l_db st') !! e.1 ≠ Some None) l.
Proof.
  induction 1 as [st _|st id s st1 l st' Hs _ IH]; intros Hc; [by split_and!; [|done|constructor]|].
  destruct Hs as [_ _ _ _ (de & d' & _ & Hrec & ->)]. destruct Hrec as [_ _ _ _ _ Hcap _].
  cbn [l_db] in *.
  assert (capacity_ok d' ∧ t_reservations d' !! id ≠ Some None ∧
    ∀ id, t_reservations (l_db st) !! id ≠ Some None → t_reservations d' !! id ≠ Some None)
    as (Hc' & Hid & Hkeep).
  { destruct Hcap as [(Hres & _ & Hr & Hu)|(Hres & Hr & Hu)].
    - split_and!.
      + unfold capacity_ok, active in *. rewrite Hu, Hc, Hr, map_filter_insert_False by done.
        rewrite map_filter_delete, map_size_delete.
        assert (filter (λ kv, kv.2 = None) (t_reservations (l_db st)) !! id = Some None) as Hw
          by by apply map_lookup_filter_Some.
        rewrite Hw.
        assert (size (filter (λ kv, kv.2 = None) (t_reservations (l_db st))) ≠ 0%nat).
        { intros Hz%map_size_empty_inv. by rewrite Hz, lookup_empty in Hw. }
        lia.
      + by rewrite Hr, lookup_insert_eq.
      + intros id'. rewrite Hr. destruct (decide (id' = id)) as [->|];
          [by rewrite lookup_insert_eq|by rewrite lookup_insert_ne].
    - split_and!; [|by rewrite Hr|by rewrite Hr].
      unfold capacity_ok, active in *. by rewrite Hu, Hr. }
  destruct (IH Hc') as (? & Hk & Hf). split_and!; [done|by auto|].
  constructor; [by apply Hk|done].
Qed.

(** Adjudication keeps the capacity account exact (two units per unreleased
    reservation, never negative) and leaves no reservation of a finalised
    submission open; each reservation is released at most once. *)
Theorem adjudicate_capacity d version d' v :
  adjudicate d version = Some (Ok d') → t_versions d !! version = Some v → capacity_ok d →
  ∃ v' entries, t_versions d' !! version = Some v' ∧
    finalized_run d version (ver_watermark v) (ver_watermark v') entries d' ∧
    capacity_ok d' ∧ Forall (λ e, t_reservations d' !! e.1 ≠ Some None) entries ∧
    ∀ id, t_reservations d !! id ≠ Some None → t_reservations d' !! id ≠ Some None.
Proof.
  intros (v0 & m & best & frontier & l & st & Hv & _ & _ & _ & Hl & _ & ->)%adjudicate_inv Hv' Hc.
  assert (v0 = v) as -> by congruence.
  destruct (iterates_capacity _ _ _ _ _ Hl Hc) as (? & ? & ?).
  apply iterates_finalized in Hl as [? ? ? ? ? ?].
  eexists. exists l. split_and!; [apply lookup_insert_eq|by split|done..].
Qed.
End Ledger.

(** * The two confirmations of a score agree *)

(** On the scores the protocol admits (canonical ticks, a nonnegative tolerance
    and a known direction) the platform's [ConfirmedScore] and the protocol's
    [ConfirmScores] accept the same pairs and return the same score. *)
Theorem ConfirmedScore_agrees a b metric c x y t :
  ParseTicks a = Ok x → ParseTicks b = Ok y → ParseTicks (metric_ToleranceTicks metric) = Ok t →
  0 ≤ t → (metric_Direction metric = "maximize" ∨ metric_Direction metric = "minimize") →
  ConfirmedScore a b metric = Ok c ↔ ConfirmScores a b metric = Ok c.
Proof.
  intros Ha Hb Ht Hpos Hdir. unfold ConfirmedScore, ConfirmScores. rewrite Ha, Hb, Ht.
  rewrite (proj2 (Z.ltb_ge (Z.sgn t) 0)) by lia.
  apply ParseTicks_ok in Ha as [-> _], Hb as [-> _], Ht as [-> _].
  rewrite !bigint_of_int_string, better_int, Cmp_gtb. case_match; [done|].
  unfold beats. rewrite Cmp_ltb, Cmp_gtb.
  destruct Hdir as [-> | ->]; simpl.
  - destruct (Z.ltb_spec y x), (Z.ltb_spec x y); try done; try lia. by replace y with x by lia.
  - destruct (Z.ltb_spec x y), (Z.ltb_spec y x); try done; try lia. by replace y with x by lia.
Qed.

Lemma ConfirmedScore_agrees_witness :
  ConfirmedScore "101" "100" {| metric_Name := "speed"; metric_Direction := "maximize";
    metric_Unit := "x"; metric_Quantum := "0.1"; metric_BaselineTicks := "10";
    metric_MinimumDeltaTicks := "1"; metric_ToleranceTicks := "2"; metric_DomainMinTicks := "";
    metric_DomainMaxTicks := "" |} = Ok "100".
Proof.
  eapply ConfirmedScore_agrees with (x := 101) (y := 100) (t := 2);
    [reflexivity|reflexivity|reflexivity|lia|left; reflexivity|vm_compute; reflexivity].
Defined.
