(* ===== verification/Signatures.v ===== *)
(** Signed envelopes: signatures.go.  Base64 is modelled exactly; ECDSA over P-256
    is a parameter. *)

From S2P Require Import Prelude Regex GoLib Numbers Types Paths Sha256 GoJson Canonical Documents.
From Stdlib Require Import Ascii.

(** * encoding/base64, standard alphabet *)

Definition b64_alphabet : string :=
  "ABCDEFGHIJKLMNOPQRSTUVWXYZabcdefghijklmnopqrstuvwxyz0123456789+/".
Definition b64_char (v : Z) : ascii := nth (Z.to_nat v) (list_of b64_alphabet) "A"%char.
Definition b64_val (c : ascii) : option Z :=
  let b := byte_val c in
  if inr 65 90 b then Some (b - 65)
  else if inr 97 122 b then Some (b - 71)
  else if inr 48 57 b then Some (b + 4)
  else if b =? 43 then Some 62
  else if b =? 47 then Some 63
  else None.

Definition pad : ascii := "=".

Fixpoint b64_encode (l : list Z) : list ascii :=
  match l with
  | [] => []
  | [a] => [b64_char (a / 4); b64_char ((a mod 4) * 16); pad; pad]
  | [a; b] => [b64_char (a / 4); b64_char ((a mod 4) * 16 + b / 16);
               b64_char ((b mod 16) * 4); pad]
  | a :: b :: c :: l =>
      b64_char (a / 4) :: b64_char ((a mod 4) * 16 + b / 16)
        :: b64_char ((b mod 16) * 4 + c / 64) :: b64_char (c mod 64) :: b64_encode l
  end.

(** Quads, the last one possibly padded; strict decoding rejects set trailing
    bits. *)
Fixpoint b64_decode (l : list ascii) : option (list Z) :=
  match l with
  | [] => Some []
  | c0 :: c1 :: c2 :: c3 :: rest =>
      match b64_val c0, b64_val c1 with
      | Some v0, Some v1 =>
          let a := v0 * 4 + v1 / 16 in
          match b64_val c2, b64_val c3 with
          | Some v2, Some v3 =>
              match b64_decode rest with
              | Some r => Some (a :: (v1 mod 16) * 16 + v2 / 4 :: (v2 mod 4) * 64 + v3 :: r)
              | None => None
              end
          | Some v2, None =>
              if Ascii.eqb c3 pad && eqb_chars rest [] && (v2 mod 4 =? 0)
              then Some [a; (v1 mod 16) * 16 + v2 / 4] else None
          | None, _ =>
              if Ascii.eqb c2 pad && Ascii.eqb c3 pad && eqb_chars rest [] && (v1 mod 16 =? 0)
              then Some [a] else None
          end
      | _, _ => None
      end
  | _ => None
  end.

Definition EncodeToString (data : Bytes) : string := string_of (b64_encode (bytes_of data)).
(** [StdEncoding.Strict().DecodeString]: carriage returns and newlines are
    skipped. *)
Definition DecodeString (s : string) : option Bytes :=
  of_bytes <$> b64_decode
    (List.filter (λ c, negb (Ascii.eqb c "010" || Ascii.eqb c "013")) (list_of s)).

(** * Keys *)

(** crypto/ecdsa and crypto/x509: public keys with the test for P-256, the
    verification of a signature over a hash, signing with a private key, the public
    half of a signer and the DER encoding of a public key. *)
Class Crypto := {
  PublicKey : Type;
  Signer : Type;
  IsP256 : PublicKey → bool;
  VerifyASN1 : PublicKey → list Z → Bytes → bool;
  Public : Signer → PublicKey;
  SignHash : Signer → list Z → result Bytes;
  MarshalPKIX : PublicKey → result Bytes
}.

(** * Envelopes *)

(** [fmt.Sprintf("DSSEv1 %d %s %d %s", ...)] *)
Definition pae (payloadType : string) (payload : Bytes) : Bytes :=
  "DSSEv1 " +:+ int_string (len payloadType) +:+ " " +:+ payloadType +:+ " "
  +:+ int_string (len payload) +:+ " " +:+ payload.

Section Signatures.
Context `{Crypto} `{JsonCanonicalizer}.

Definition Sign {A} `{JsonType A} (keyID : string) (key : option Signer) (payload : A)
    : result Envelope :=
  match key with
  | None => Err "invalid signing key or identifier"
  | Some key =>
      if negb (matches identifierPattern keyID) then Err "invalid signing key or identifier" else
      if negb (IsP256 (Public key)) then Err "P-256 signer required" else
      let! data := Marshal payload in
      let! data := CanonicalJSON data in
      let! sig := SignHash key (Sum256 (bytes_of (pae PayloadType data))) in
      Ok (mkEnvelope PayloadType (EncodeToString data) [mkSignature keyID (EncodeToString sig)])
  end.

(** Whether one signature of an envelope is valid under the trusted keys. *)
Definition signature_valid (keys : gmap string PublicKey) (payloadType : string)
    (payload : Bytes) (s : Signature) : bool :=
  match keys !! signature_KeyID s with
  | None => false
  | Some key =>
      match DecodeString (signature_Sig s) with
      | None => false
      | Some sig =>
          IsP256 key && VerifyASN1 key (Sum256 (bytes_of (pae payloadType payload))) sig
      end
  end.

(** One iteration of the signature loop: key identifiers seen and whether some
    signature was valid. *)
Definition verify_step (keys : gmap string PublicKey) (payloadType : string) (payload : Bytes)
    (st : gset string * bool) (s : Signature) : result (gset string * bool) :=
  if bool_decide (signature_KeyID s ∈ st.1) then Err "duplicate signature key" else
  Ok ({[signature_KeyID s]} ∪ st.1, st.2 || signature_valid keys payloadType payload s).

Definition Verify (envelope : Envelope) (keys : gmap string PublicKey) : result Bytes :=
  if (envelope_PayloadType envelope !=s PayloadType)
     || (len (envelope_Payload envelope) >? 2 * MaxDocumentBytes)
     || (lenl (envelope_Signatures envelope) <? 1) || (lenl (envelope_Signatures envelope) >? 8)
  then Err "invalid signed envelope" else
  match DecodeString (envelope_Payload envelope) with
  | None => Err "invalid envelope payload encoding"
  | Some payload =>
      let! canonical := CanonicalJSON payload or "receipt payload must be canonical JSON" in
      if payload !=s canonical then Err "receipt payload must be canonical JSON" else
      let! st := foldM (verify_step keys (envelope_PayloadType envelope) payload) (∅, false)
        (envelope_Signatures envelope) in
      if negb st.2 then Err "no valid trusted receipt signature" else Ok payload
  end.
End Signatures.

(** * Lemmas *)

(** ** Base64 round trip *)

Lemma b64_val_char v : 0 ≤ v < 64 → b64_val (b64_char v) = Some v ∧ Ascii.eqb (b64_char v) "010" = false
  ∧ Ascii.eqb (b64_char v) "013" = false.
Proof.
  intros Hv.
  assert (Forall (λ v, b64_val (b64_char v) = Some v ∧ Ascii.eqb (b64_char v) "010" = false
    ∧ Ascii.eqb (b64_char v) "013" = false) (Z.of_nat <$> seq 0 64)) as Hall.
  { repeat constructor; vm_compute; reflexivity. }
  rewrite Forall_forall in Hall. apply Hall, list_elem_of_fmap.
  exists (Z.to_nat v). rewrite list_elem_of_In, in_seq. lia.
Qed.

Lemma list_three_ind {A} (P : list A → Prop) :
  P [] → (∀ a, P [a]) → (∀ a b, P [a; b]) → (∀ a b c l, P l → P (a :: b :: c :: l)) → ∀ l, P l.
Proof.
  intros H0 H1 H2 H3. fix IH 1. intros [|a [|b [|c l]]]; [exact H0|exact (H1 a)|exact (H2 a b)|].
  apply H3, IH.
Qed.

Lemma b64_bits a b : 0 ≤ a < 256 → 0 ≤ b < 256 →
  (0 ≤ a / 4 < 64 ∧ 0 ≤ a mod 4 < 4) ∧ (0 ≤ b / 16 < 16 ∧ 0 ≤ b mod 16 < 16) ∧
  (0 ≤ b / 64 < 4 ∧ 0 ≤ b mod 64 < 64).
Proof.
  intros. pose proof (Z.mod_pos_bound a 4). pose proof (Z.mod_pos_bound b 16).
  pose proof (Z.mod_pos_bound b 64). pose proof (Z.div_mod a 4). pose proof (Z.div_mod b 16).
  pose proof (Z.div_mod b 64). lia.
Qed.

Lemma div_combine q r d : 0 ≤ r < d → (q * d + r) / d = q ∧ (q * d + r) mod d = r.
Proof.
  intros. split.
  - rewrite Z.div_add_l, Z.div_small by lia. lia.
  - by rewrite Z.add_comm, Z.mod_add, Z.mod_small by lia.
Qed.

Lemma b64_round_trip l : Forall (λ b, 0 ≤ b < 256) l → b64_decode (b64_encode l) = Some l.
Proof.
  induction l as [|a|a b|a b c l IH] using list_three_ind; intros Hl;
    rewrite ?Forall_cons in Hl; [done|..].
  - destruct Hl as [Ha _]. destruct (b64_bits a a) as ([? ?] & _); [done..|]. cbn [b64_encode b64_decode].
    rewrite !(λ v Hv, proj1 (b64_val_char v Hv)) by lia.
    change (b64_val pad) with (@None Z). destruct (div_combine (a mod 4) 0 16) as [E1 E2]; [lia|].
    rewrite Z.add_0_r in E1, E2. rewrite E1, E2. simpl.
    pose proof (Z.div_mod a 4). do 2 f_equal. lia.
  - destruct Hl as (Ha & Hb & _). destruct (b64_bits a b) as ([? ?] & [? ?] & _); [done..|]. cbn [b64_encode b64_decode].
    rewrite !(λ v Hv, proj1 (b64_val_char v Hv)) by lia.
    change (b64_val pad) with (@None Z).
    destruct (div_combine (a mod 4) (b / 16) 16) as [-> ->]; [lia|].
    destruct (div_combine (b mod 16) 0 4) as [E1 E2]; [lia|]. rewrite Z.add_0_r in E1, E2.
    rewrite E1, E2. simpl. pose proof (Z.div_mod a 4). pose proof (Z.div_mod b 16).
    f_equal. f_equal; [lia|]. f_equal. lia.
  - destruct Hl as (Ha & Hb & Hc & Hl). destruct (b64_bits a b) as ([? ?] & [? ?] & _); [done..|].
    destruct (b64_bits a c) as (_ & _ & [? ?]); [done..|]. cbn [b64_encode b64_decode].
    rewrite !(λ v Hv, proj1 (b64_val_char v Hv)) by lia. rewrite (IH Hl).
    destruct (div_combine (a mod 4) (b / 16) 16) as [-> ->]; [lia|].
    destruct (div_combine (b mod 16) (c / 64) 4) as [-> ->]; [lia|].
    pose proof (Z.div_mod a 4). pose proof (Z.div_mod b 16). pose proof (Z.div_mod c 64).
    f_equal. f_equal; [lia|]. f_equal; [lia|]. f_equal. lia.
Qed.

Lemma b64_no_newline l : Forall (λ b, 0 ≤ b < 256) l →
  List.filter (λ c, negb (Ascii.eqb c "010" || Ascii.eqb c "013")) (b64_encode l) = b64_encode l.
Proof.
  induction l as [|a|a b|a b c l IH] using list_three_ind; intros Hl;
    rewrite ?Forall_cons in Hl; [done|..].
  all: [> destruct Hl as [Ha _]; assert (0 ≤ a < 256) as Hb by done
       |destruct Hl as (Ha & Hb & _)|destruct Hl as (Ha & Hb & Hc & Hl)].
  3: destruct (b64_bits a c) as (_ & _ & [? ?]); [done..|].
  all: destruct (b64_bits a _ Ha Hb) as ([? ?] & [? ?] & _).
  all: cbn [b64_encode List.filter].
  all: rewrite ?(λ v Hv, proj1 (proj2 (b64_val_char v Hv))) by lia.
  all: rewrite ?(λ v Hv, proj2 (proj2 (b64_val_char v Hv))) by lia.
  all: cbn [orb negb]; try rewrite (IH Hl); done.
Qed.

Lemma bytes_of_range s : Forall (λ b, 0 ≤ b < 256) (bytes_of s).
Proof. unfold bytes_of. apply Forall_fmap, Forall_forall. intros c _. apply byte_val_range. Qed.

Lemma of_bytes_of s : of_bytes (bytes_of s) = s.
Proof.
  unfold of_bytes, bytes_of. rewrite map_map.
  rewrite (map_ext _ id) by (intros; apply byte_of_val). by rewrite map_id, string_of_list_of.
Qed.

Lemma DecodeString_encode data : DecodeString (EncodeToString data) = Some data.
Proof.
  unfold DecodeString, EncodeToString. rewrite list_of_string_of.
  rewrite b64_no_newline, b64_round_trip by apply bytes_of_range. simpl. by rewrite of_bytes_of.
Qed.

(** ** Unique decoding *)

Lemma sep_inj (c : ascii) (a b x y : list ascii) :
  c ∉ a → c ∉ b → a ++ c :: x = b ++ c :: y → a = b ∧ x = y.
Proof.
  revert b. induction a as [|h a IH]; intros [|k b] Ha Hb E; simpl in E.
  - by injection E.
  - injection E as -> _. set_solver.
  - injection E as -> _. set_solver.
  - injection E as -> E. destruct (IH b) as [-> ->]; [set_solver|set_solver|done|done].
Qed.

Lemma int_string_no_sep z c : is_digit c = false → c ≠ "-"%char → c ∉ list_of (int_string z).
Proof. intros Hd Hm [?| ?]%int_string_chars; congruence. Qed.

(** A length-prefixed field can be cut off a text unambiguously. *)
Lemma framed_inj (s t x y : list ascii) :
  list_of (int_string (lenl s)) ++ " "%char :: s ++ x =
  list_of (int_string (lenl t)) ++ " "%char :: t ++ y → s = t ∧ x = y.
Proof.
  intros E. apply sep_inj in E as [En E]; [|by apply int_string_no_sep..].
  apply list_of_inj, int_string_inj in En. unfold lenl in En. apply app_inj_1 in E; [done|lia].
Qed.

Lemma list_of_pae t p :
  list_of (pae t p) = list_of "DSSEv1 " ++ list_of (int_string (lenl (list_of t))) ++ " "%char ::
    list_of t ++ (" "%char :: list_of (int_string (lenl (list_of p))) ++ " "%char :: list_of p ++ []).
Proof.
  unfold pae, len, lenl. rewrite !length_list_of, !list_of_app, app_nil_r.
  cbn [String.list_ascii_of_string app]. reflexivity.
Qed.

(** The pre-authentication encoding binds payload type and payload: two
    envelopes sign the same bytes only if both agree. *)
Theorem pae_binds t p t' p' : pae t p = pae t' p' ↔ t = t' ∧ p = p'.
Proof.
  split; [|by intros [-> ->]]. intros E%(f_equal list_of). rewrite !list_of_pae in E.
  apply app_inv_head, framed_inj in E as [Ht%list_of_inj E]. injection E as E.
  by apply framed_inj in E as [Hp%list_of_inj _].
Qed.

Section SignatureProofs.
Context `{Crypto} `{JsonCanonicalizer}.

Lemma verify_fold keys ty payload sigs seen valid st :
  foldM (verify_step keys ty payload) (seen, valid) sigs = Ok st ↔
  NoDup (signature_KeyID <$> sigs) ∧ (∀ s, s ∈ sigs → signature_KeyID s ∉ seen) ∧
  st = (list_to_set (rev (signature_KeyID <$> sigs)) ∪ seen,
        valid || existsb (signature_valid keys ty payload) sigs).
Proof.
  revert seen valid. induction sigs as [|s sigs IH]; intros seen valid.
  { simpl. rewrite orb_false_r, union_empty_l_L.
    split; [intros [= <-]; split_and!; [constructor|set_solver|done]|naive_solver]. }
  cbn [foldM fmap list_fmap]. unfold verify_step at 1. cbn [fst snd].
  case_bool_decide as Hs.
  { split; [done|]. intros (_ & Hn & _). by destruct (Hn s); [left|]. }
  rewrite IH, NoDup_cons. cbn [rev existsb]. rewrite list_to_set_app_L, orb_assoc. cbn [list_to_set].
  rewrite union_empty_r_L, <-(assoc_L (∪)).
  split.
  - intros (Hnd & Hdis & ->). split_and!; try done.
    + intros (s' & Heq & Hin)%list_elem_of_fmap. apply (Hdis s' Hin). set_solver.
    + intros s' [->|Hin]%elem_of_cons; [done|]. specialize (Hdis s' Hin). set_solver.
  - intros ([Hnin Hnd] & Hdis & ->). split_and!; try done. intros s' Hin Hin'.
    apply elem_of_union in Hin' as [Heq%elem_of_singleton|Hin'].
    + apply Hnin. rewrite <-Heq. by apply list_elem_of_fmap_2.
    + apply (Hdis s'); [by right|done].
Qed.

Lemma Verify_ok envelope keys payload :
  Verify envelope keys = Ok payload ↔
  envelope_PayloadType envelope = PayloadType ∧
  len (envelope_Payload envelope) ≤ 2 * MaxDocumentBytes ∧
  1 ≤ lenl (envelope_Signatures envelope) ≤ 8 ∧
  DecodeString (envelope_Payload envelope) = Some payload ∧ CanonicalJSON payload = Ok payload ∧
  NoDup (signature_KeyID <$> envelope_Signatures envelope) ∧
  ∃ s, s ∈ envelope_Signatures envelope ∧ signature_valid keys PayloadType payload s = true.
Proof.
  unfold Verify. split.
  - intros Hv. ok_step Hv. bool_prop. rewrite H1 in *.
    destruct (DecodeString (envelope_Payload envelope)) as [p|]; [|done].
    do 3 ok_step Hv. destruct r0 as [seen valid].
    apply verify_fold in E0 as (Hnd & _ & [= -> ->]). ok_step Hv. simpl in *. bool_prop. simplify_eq.
    match goal with Hex : existsb _ _ = true |- _ => apply existsb_exists in Hex as (s & Hs & Hval) end. split_and!; try (done || lia).
    exists s. by rewrite list_elem_of_In.
  - intros (Hty & Hlen & [Hn1 Hn2] & -> & Hcan & Hnd & s & Hs & Hval).
    rewrite Hty, Hcan, !String.eqb_refl, !Z.gtb_ltb, !(proj2 (Z.ltb_ge _ _)) by lia. simpl.
    rewrite (proj2 (verify_fold keys PayloadType payload _ ∅ false _))
      by (split_and!; [done|set_solver|reflexivity]).
    simpl. rewrite (proj2 (existsb_exists _ _)); [done|]. exists s. by rewrite <-list_elem_of_In.
Qed.

(** An envelope verifies exactly when it has the protocol's payload type, at
    most eight signatures with distinct key identifiers, a strict base64 payload
    that is its own canonical JSON, and at least one signature by a trusted P-256
    key over the encoded type and payload; the payload returned is the signed
    one. *)
Theorem Verify_exact envelope keys payload :
  Verify envelope keys = Ok payload ↔
  envelope_PayloadType envelope = PayloadType ∧
  len (envelope_Payload envelope) ≤ 2 * MaxDocumentBytes ∧
  1 ≤ lenl (envelope_Signatures envelope) ≤ 8 ∧
  DecodeString (envelope_Payload envelope) = Some payload ∧ CanonicalJSON payload = Ok payload ∧
  NoDup (signature_KeyID <$> envelope_Signatures envelope) ∧
  ∃ s, s ∈ envelope_Signatures envelope ∧ signature_valid keys PayloadType payload s = true.
Proof. apply Verify_ok. Qed.

Lemma b64_encode_length l : (3 * length (b64_encode l) ≤ 4 * length l + 8)%nat.
Proof. induction l using list_three_ind; simpl; lia. Qed.

Lemma CanonicalJSON_size data c : CanonicalJSON data = Ok c → len data ≤ MaxDocumentBytes.
Proof. unfold CanonicalJSON. intros Hc. ok_step Hc. bool_prop. lia. Qed.

(** What is signed is the canonical form. *)
Lemma Sign_payload {A} `{JsonType A} keyID key (value : A) envelope : Sign keyID (Some key) value = Ok envelope →
  ∃ data payload, Marshal value = Ok data ∧ CanonicalJSON data = Ok payload ∧
    DecodeString (envelope_Payload envelope) = Some payload.
Proof.
  unfold Sign. intros Hs. do 5 ok_step Hs. injection Hs as <-. eexists _, _. split_and!; [done|done|].
  apply DecodeString_encode.
Qed.

(** Under any keys that hold the signer's. *)
Lemma Sign_trusted {A} `{JsonType A} keyID key keys (value : A) envelope :
  (∀ data c, CanonicalJSON data = Ok c → CanonicalJSON c = Ok c) →
  (∀ k hash sig, SignHash k hash = Ok sig → VerifyASN1 (Public k) hash sig = true) →
  keys !! keyID = Some (Public key) → Sign keyID (Some key) value = Ok envelope →
  ∃ data payload, Marshal value = Ok data ∧ CanonicalJSON data = Ok payload ∧ Verify envelope keys = Ok payload.
Proof.
  intros Hidem Hsig Hkey Hs. unfold Sign in Hs. do 5 ok_step Hs. injection Hs as <-. bool_prop.
  exists r, r0. split_and!; try done. apply Verify_ok.
  cbn [envelope_PayloadType envelope_Payload envelope_Signatures].
  pose proof (Hidem _ _ E0) as Hc. pose proof (CanonicalJSON_size _ _ Hc) as Hlen.
  split_and!; try (done || lia).
  - unfold len, EncodeToString. rewrite <-length_list_of, list_of_string_of.
    pose proof (b64_encode_length (bytes_of r0)) as Hb. unfold bytes_of in *.
    rewrite length_map, length_list_of in Hb. unfold len in Hlen.
    unfold MaxDocumentBytes in *. rewrite Z.shiftl_1_l in *. lia.
  - apply DecodeString_encode.
  - apply NoDup_singleton.
  - eexists. split; [left|]. unfold signature_valid. cbn [signature_KeyID signature_Sig].
    rewrite Hkey, DecodeString_encode, G0. simpl. by apply Hsig.
Qed.

(** What [Sign] produces, [Verify] accepts under the signer's public key, and
    returns the canonical payload.  Assumed of the libraries: canonicalisation is
    idempotent, and a P-256 signature verifies under its signer's public key. *)
Theorem Sign_Verify {A} `{JsonType A} keyID key (value : A) envelope :
  (∀ data c, CanonicalJSON data = Ok c → CanonicalJSON c = Ok c) →
  (∀ k hash sig, SignHash k hash = Ok sig → VerifyASN1 (Public k) hash sig = true) →
  Sign keyID (Some key) value = Ok envelope →
  ∃ data payload, Marshal value = Ok data ∧ CanonicalJSON data = Ok payload ∧
    Verify envelope {[keyID := Public key]} = Ok payload.
Proof. intros Hidem Hsig Hs. eapply Sign_trusted; [done|done|apply lookup_singleton_eq|done]. Qed.
End SignatureProofs.
