(* ===== verification/Checkpoint.v ===== *)
(** Audit checkpoints: internal/audit/checkpoint.go.  A checkpoint commits to an
    interval of a hash-chained event log by a Merkle root and links to its
    predecessor; a quorum of independent witnesses signs its exact payload. *)

From S2P Require Import Prelude Regex GoLib Numbers Types Paths Sha256 GoJson Canonical Documents.
From S2P Require Import Signatures.
From Stdlib Require Import Ascii.
Open Scope Z_scope.

Definition Genesis : string := "genesis".
Definition MaxEvents : Z := 10000.

Record Event := mkEvent {
  event_Sequence : string;
  event_Kind : string;
  event_Payload : Bytes;
  event_PreviousDigest : string;
  event_Digest : string
}.

Record Checkpoint := mkCheckpoint {
  checkpoint_APIVersion : string;
  checkpoint_Kind : string;
  checkpoint_LogID : string;
  checkpoint_FromSequence : string;
  checkpoint_ToSequence : string;
  checkpoint_PreviousCheckpointDigest : string;
  checkpoint_PreviousEventDigest : string;
  checkpoint_LastEventDigest : string;
  checkpoint_MerkleRoot : string;
  checkpoint_IssuedAt : Time
}.

Record Bundle := mkBundle {
  bundle_Checkpoint : Envelope;
  bundle_Witnesses : list Envelope;
  bundle_Events : list Event
}.

Definition Hash (data : Bytes) : string := "sha256:" +:+ hex_encode (Sum256 (bytes_of data)).

Definition validDigest (s : string) (genesis : bool) : bool :=
  if genesis && (s ==s Genesis) then true else
  if negb (len s =? 71) || negb (HasPrefix s "sha256:") then false else
  match hex_decode (drop 7 (list_of s)) with
  | Some b => (lenl b =? 32) && (ToLowerASCII s ==s s)
  | None => false
  end.

Definition sequence (s : string) : result Z :=
  match ParseInt64 s with
  | Some n => if (n <? 0) || (int_string n !=s s)
              then Err "sequence must be a canonical nonnegative integer string" else Ok n
  | None => Err "sequence must be a canonical nonnegative integer string"
  end.

(** * Merkle tree *)

(** [k := 1; for k*2 < n { k *= 2 }] *)
Fixpoint split_point (fuel : nat) (k n : nat) : nat :=
  match fuel with
  | O => k
  | S fuel => if (k * 2 <? n)%nat then split_point fuel (k * 2) n else k
  end.

(** The recursive [tree] closure; its fuel is the number of nodes. *)
Fixpoint merkle_tree (fuel : nat) (nodes : list (list Z)) : list Z :=
  match nodes with
  | [] => Sum256 []
  | [h] => h
  | _ =>
      match fuel with
      | O => []
      | S fuel =>
          let k := split_point (length nodes) 1 (length nodes) in
          Sum256 (1 :: merkle_tree fuel (take k nodes) ++ merkle_tree fuel (drop k nodes))
      end
  end.

Definition leaf_bytes (d : string) : list Z := default [] (hex_decode (drop 7 (list_of d))).
Definition leaf_hash (d : string) : list Z := Sum256 (0 :: leaf_bytes d).

Definition merkle_root (digests : list string) : list Z :=
  merkle_tree (length digests) (map leaf_hash digests).

Definition MerkleRoot (digests : list string) : result string :=
  if lenl digests >? MaxEvents then Err "checkpoint event bound exceeded" else
  let! _ := for_each (λ d, if validDigest d false then Ok tt
                           else Err "invalid Merkle leaf digest") digests in
  Ok ("sha256:" +:+ hex_encode (merkle_root digests)).

Section Checkpoints.
Context `{Crypto} `{JsonCanonicalizer} `{JsonType Checkpoint}.

Definition CanonicalDigest {A} `{JsonType A} (value : A) : result string :=
  let! b := Marshal value in
  let! b := CanonicalJSON b in
  Ok (Hash b).
(** [d, _ := CanonicalDigest(v)] *)
Definition mustDigest {A} `{JsonType A} (value : A) : string :=
  match CanonicalDigest value with Ok d => d | Err _ => "" end.

Definition EventDigest (previous kind : string) (payload : Bytes) : result string :=
  if negb (validDigest previous true) || (kind ==s "") || (len kind >? 128)
     || ContainsByte kind "013" || ContainsByte kind "010"
  then Err "invalid audit chain fields" else
  let! b := CanonicalJSON payload in
  Ok (Hash (previous +:+ String "010" (kind +:+ String "010" b))).

(** One event of the interval; the state is the index, the last event digest and
    sequence text, and the digests collected. *)
Definition build_step (from : Z) (st : Z * string * string * list string) (e : Event)
    : result (Z * string * string * list string) :=
  let '(i, lastDigest, _, digests) := st in
  let! n := sequence (event_Sequence e) or "audit sequence gap or overflow" in
  if negb (n =? wrap64 (from + i)) || (n <? from)
  then Err "audit sequence gap or overflow" else
  let! d := EventDigest lastDigest (event_Kind e) (event_Payload e)
    or "broken audit event hash chain" in
  if (event_PreviousDigest e !=s lastDigest) || (d !=s event_Digest e)
  then Err "broken audit event hash chain" else
  Ok (i + 1, event_Digest e, event_Sequence e, digests ++ [event_Digest e]).

(** What the predecessor fixes: first sequence, last sequence before it, and the
    digests of the previous checkpoint and event. *)
Definition build_prior (logID : string) (previous : option Checkpoint) (at_ : Time)
    : result (Z * Z * string * string) :=
  match previous with
  | None => Ok (1, 0, Genesis, Genesis)
  | Some p =>
      let! last := sequence (checkpoint_ToSequence p) in
      if last =? int64_max then Err "sequence exhausted" else
      let! priorCheckpoint := CanonicalDigest p in
      if (checkpoint_LogID p !=s logID) || Before at_ (checkpoint_IssuedAt p)
      then Err "checkpoint changed log identity or regressed time" else
      Ok (last + 1, last, priorCheckpoint, checkpoint_LastEventDigest p)
  end.

Definition Build (logID : string) (events : list Event) (previous : option Checkpoint) (at_ : Time)
    : result Checkpoint :=
  if (logID ==s "") || (len logID >? 128) || IsZero at_
  then Err "log identity and timestamp required" else
  let! prior := build_prior logID previous at_ in
  let '(from, last, priorCheckpoint, priorEvent) := prior in
  let! st := foldM (build_step from) (0, priorEvent, int_string last, []) events in
  let '(_, lastDigest, toSequence, digests) := st in
  let! root := MerkleRoot digests in
  Ok {| checkpoint_APIVersion := APIVersion;
        checkpoint_Kind := "AuditCheckpoint";
        checkpoint_LogID := logID;
        checkpoint_FromSequence := int_string from;
        checkpoint_ToSequence := toSequence;
        checkpoint_PreviousCheckpointDigest := priorCheckpoint;
        checkpoint_PreviousEventDigest := priorEvent;
        checkpoint_LastEventDigest := lastDigest;
        checkpoint_MerkleRoot := root;
        checkpoint_IssuedAt := UTC at_ |}.

Definition VerifyCheckpoint (envelope : Envelope) (keys : gmap string PublicKey)
    (events : list Event) (previous : option Checkpoint) (now : Time) : result Checkpoint :=
  let! b := Verify envelope keys in
  let! cp := DecodeStrict b in
  if (checkpoint_APIVersion cp !=s APIVersion) || (checkpoint_Kind cp !=s "AuditCheckpoint")
     || After (checkpoint_IssuedAt cp) (AddNs now (5 * Minute))
  then Err "unsupported or future checkpoint" else
  let! expected := Build (checkpoint_LogID cp) events previous (checkpoint_IssuedAt cp) in
  if mustDigest cp !=s mustDigest expected
  then Err "checkpoint interval, chain link, or Merkle root differs from observed events"
  else Ok cp.

(** * Witness quorum *)

Definition Fingerprint (key : option PublicKey) : result string :=
  match key with
  | None => Err "P-256 public key required"
  | Some p =>
      if negb (IsP256 p) then Err "P-256 public key required" else
      let! der := MarshalPKIX p in
      Ok (Hash der)
  end.

(** The configuration loop over the operators; all its failures are errors, so
    the map's order does not matter. *)
Definition operator_step (keys : gmap string PublicKey) (st : gset string * gset string)
    (entry : string * string) : result (gset string * gset string) :=
  let '(allOperators, allKeys) := st in
  let '(id, admin) := entry in
  if (id ==s "") || (admin ==s "") || bool_decide (admin ∈ allOperators)
  then Err "witnesses must have three distinct configured operators" else
  let allOperators := {[admin]} ∪ allOperators in
  match keys !! id with
  | None => Ok (allOperators, allKeys)
  | Some key =>
      let! fingerprint := Fingerprint (Some key)
        or "active witnesses must use distinct valid keys" in
      if bool_decide (fingerprint ∈ allKeys)
      then Err "active witnesses must use distinct valid keys" else
      Ok (allOperators, {[fingerprint]} ∪ allKeys)
  end.

(** The operator a signature counts for. *)
Definition vote_of (keys : gmap string PublicKey) (operators : gmap string string)
    (envelope : Envelope) (sig : Signature) : option string :=
  match keys !! signature_KeyID sig with
  | None => None
  | Some key =>
      match Verify (mkEnvelope (envelope_PayloadType envelope) (envelope_Payload envelope) [sig])
              {[signature_KeyID sig := key]} with
      | Ok _ =>
          match operators !! signature_KeyID sig with
          | Some op => if op !=s "" then Some op else None
          | None => None
          end
      | Err _ => None
      end
  end.

Definition votes (platform : Envelope) (keys : gmap string PublicKey)
    (operators : gmap string string) (seen : gset string) (envelope : Envelope) : gset string :=
  if (envelope_PayloadType envelope !=s envelope_PayloadType platform)
     || (envelope_Payload envelope !=s envelope_Payload platform) then seen else
  foldl (λ seen sig, match vote_of keys operators envelope sig with
                     | Some op => {[op]} ∪ seen
                     | None => seen
                     end) seen (envelope_Signatures envelope).

Definition VerifyQuorum (platform : Envelope) (witnesses : list Envelope)
    (keys : gmap string PublicKey) (operators : gmap string string) (quorum : Z) : result unit :=
  if negb (quorum =? 2) || negb (Z.of_nat (size operators) =? 3)
  then Err "MVP requires three witnesses and a 2-of-3 quorum" else
  let! _ := foldM (operator_step keys) (∅, ∅) (map_to_list operators) in
  let seen := foldl (votes platform keys operators) ∅ witnesses in
  if Z.of_nat (size seen) <? quorum then Err "witness quorum unavailable" else Ok tt.
End Checkpoints.
