(* ===== verification/CheckpointProofs.v ===== *)
(** What a checkpoint commits to: the Merkle root binds its event digests, the
    chain binds the events, and a quorum is two different operators with different
    keys. *)

From S2P Require Import Prelude Regex GoLib Numbers Types Paths Sha256 GoJson Canonical Documents.
From S2P Require Import Signatures Checkpoint.
From Stdlib Require Import Ascii.
Open Scope Z_scope.

(** * Collision freedom over explicit inputs *)

(** SHA-256 does not collide on the listed inputs. *)
Definition collision_free (inputs : list (list Z)) : Prop :=
  ∀ x y, x ∈ inputs → y ∈ inputs → Sum256 x = Sum256 y → x = y.

Lemma collision_free_sub l l' : (∀ x, x ∈ l → x ∈ l') → collision_free l' → collision_free l.
Proof. intros Hs Hc x y Hx Hy. apply Hc; auto. Qed.

(** * The Merkle tree *)

(** The byte strings hashed for the inner nodes and for the leaves. *)
Fixpoint node_inputs (fuel : nat) (nodes : list (list Z)) : list (list Z) :=
  match nodes with
  | [] => [[]]
  | [_] => []
  | _ =>
      match fuel with
      | O => []
      | S fuel =>
          let k := split_point (length nodes) 1 (length nodes) in
          (1 :: merkle_tree fuel (take k nodes) ++ merkle_tree fuel (drop k nodes))
            :: node_inputs fuel (take k nodes) ++ node_inputs fuel (drop k nodes)
      end
  end.
Definition leaf_inputs (digests : list string) : list (list Z) :=
  map (λ d, 0 :: leaf_bytes d) digests.
Definition merkle_inputs (digests : list string) : list (list Z) :=
  node_inputs (length digests) (map leaf_hash digests) ++ leaf_inputs digests.

Lemma split_point_bound fuel k n :
  (0 < k < n)%nat → (0 < split_point fuel k n < n)%nat.
Proof.
  revert k. induction fuel as [|fuel IH]; intros k Hk; simpl; [done|].
  destruct (Nat.ltb_spec (k * 2) n); [apply IH; lia|done].
Qed.

(** The tree over event digests, and everything hashed for it. *)
Definition digest_tree (fuel : nat) (l : list string) : list Z := merkle_tree fuel (map leaf_hash l).
Definition tree_inputs (fuel : nat) (l : list string) : list (list Z) :=
  node_inputs fuel (map leaf_hash l) ++ leaf_inputs l.

(** The input hashed last: nothing for no event, a leaf for one, an inner node
    over two smaller trees otherwise. *)
Lemma digest_tree_top fuel l :
  (length l ≤ S fuel)%nat → ∃ x, digest_tree fuel l = Sum256 x ∧ x ∈ tree_inputs fuel l ∧
    ((l = [] ∧ x = []) ∨ (∃ d, l = [d] ∧ x = 0 :: leaf_bytes d) ∨
     ∃ fuel' k, fuel = S fuel' ∧ (0 < k < length l)%nat ∧
       x = 1 :: digest_tree fuel' (take k l) ++ digest_tree fuel' (drop k l) ∧
       (∀ y, y ∈ tree_inputs fuel' (take k l) ++ tree_inputs fuel' (drop k l) →
          y ∈ tree_inputs fuel l)).
Proof.
  unfold digest_tree, tree_inputs. intros Hl. destruct l as [|d [|d' l]].
  - exists []. split_and!; [by destruct fuel|destruct fuel; simpl; set_solver|by left].
  - exists (0 :: leaf_bytes d). split_and!; [by destruct fuel|destruct fuel; simpl; set_solver|].
    right. left. eauto.
  - destruct fuel as [|fuel]; [simpl in Hl; lia|]. set (all := d :: d' :: l) in *.
    set (k := split_point (length all) 1 (length all)).
    assert (0 < k < length all)%nat as Hk by (apply split_point_bound; simpl; lia).
    eexists. split_and!.
    { change (merkle_tree (S fuel) (map leaf_hash all)) with
        (let k := split_point (length (map leaf_hash all)) 1 (length (map leaf_hash all)) in
         Sum256 (1 :: merkle_tree fuel (take k (map leaf_hash all))
                   ++ merkle_tree fuel (drop k (map leaf_hash all)))).
      rewrite length_map. reflexivity. }
    { apply elem_of_app. left. unfold all at 2. cbn [map node_inputs].
      change (leaf_hash d :: leaf_hash d' :: map leaf_hash l) with (map leaf_hash all).
      rewrite length_map. left. }
    right. right. exists fuel, k. split_and!; try done; try lia.
    + fold k. by rewrite firstn_map, skipn_map.
    + intros y. rewrite !elem_of_app. unfold all at 5. cbn [map node_inputs].
      change (leaf_hash d :: leaf_hash d' :: map leaf_hash l) with (map leaf_hash all).
      rewrite length_map. fold k. rewrite firstn_map, skipn_map, elem_of_cons, elem_of_app.
      assert (leaf_inputs all = leaf_inputs (take k all) ++ leaf_inputs (drop k all)) as ->.
      { unfold leaf_inputs. by rewrite <-map_app, take_drop. }
      rewrite elem_of_app. tauto.
Qed.

Lemma digest_tree_length fuel l :
  (length l ≤ S fuel)%nat → length (digest_tree fuel l) = 32%nat.
Proof. intros (x & -> & _)%digest_tree_top. apply Sum256_length. Qed.

(** Roots over different leaf bytes differ, up to a collision among the hashed
    inputs. *)
Lemma digest_tree_binds n : ∀ a b fa fb,
  (length a ≤ n)%nat → (length a ≤ S fa)%nat → (length b ≤ S fb)%nat →
  collision_free (tree_inputs fa a ++ tree_inputs fb b) →
  digest_tree fa a = digest_tree fb b → map leaf_bytes a = map leaf_bytes b.
Proof.
  induction n as [|n IH]; intros a b fa fb Hn Ha Hb Hcf Heq;
    destruct (digest_tree_top fa a Ha) as (x & Ex & Hx & Sx),
      (digest_tree_top fb b Hb) as (y & Ey & Hy & Sy);
    (assert (x = y) as <- by (apply Hcf; [apply elem_of_app; by left|apply elem_of_app; by right|congruence])); clear Ex Ey Hx Hy;
    destruct Sx as [[-> ->]|[(d & -> & ->)|(fa' & ka & -> & Hka & Sx & Hia)]];
    destruct Sy as [[-> Sy]|[(e & -> & Sy)|(fb' & kb & -> & Hkb & Sy & Hib)]]; subst;
    try done; try (simpl in *; lia).
  - injection Sy as Sy. simpl. by rewrite Sy.
  - injection Sy as Sy. apply app_inj_1 in Sy as [Hl Hr].
    2: rewrite !digest_tree_length; [done|rewrite length_take; lia..].
    rewrite <-(take_drop ka a), <-(take_drop kb b), !map_app. f_equal.
    + apply (IH _ _ fa' fb'); rewrite ?length_take; try lia; [|done].
      eapply collision_free_sub; [|exact Hcf]. intros z [Hz|Hz]%elem_of_app; apply elem_of_app;
        [left; apply Hia|right; apply Hib]; apply elem_of_app; by left.
    + apply (IH _ _ fa' fb'); rewrite ?length_drop; try lia; [|done].
      eapply collision_free_sub; [|exact Hcf]. intros z [Hz|Hz]%elem_of_app; apply elem_of_app;
        [left; apply Hia|right; apply Hib]; apply elem_of_app; by right.
Qed.

(** ** Digest texts *)

Lemma hex_digit_lower c x : hex_digit c = Some x → lower_byte c = c → c = hex_char x ∧ 0 ≤ x < 16.
Proof.
  assert (∀ n, (n < 256)%nat → let c := byte_of (Z.of_nat n) in
    match hex_digit c with
    | Some x => Ascii.eqb (lower_byte c) c = true → Ascii.eqb c (hex_char x) = true ∧ (0 <=? x) && (x <? 16) = true
    | None => True
    end) as Hall.
  { intros n Hn.
    assert (Forall (λ n, let c := byte_of (Z.of_nat n) in
      match hex_digit c with
      | Some x => Ascii.eqb (lower_byte c) c = true → Ascii.eqb c (hex_char x) = true ∧ (0 <=? x) && (x <? 16) = true
      | None => True
      end) (seq 0 256)) as Hf.
    { repeat constructor; vm_compute; done. }
    rewrite Forall_forall in Hf. apply Hf. rewrite list_elem_of_In, in_seq. lia. }
  intros Hx Hl. pose proof (byte_val_range c).
  specialize (Hall (Z.to_nat (byte_val c)) ltac:(lia)). rewrite Z2Nat.id, byte_of_val in Hall by lia.
  cbv zeta in Hall. rewrite Hx in Hall. destruct Hall as [Hc Hb]; [by apply Ascii.eqb_eq|].
  apply Ascii.eqb_eq in Hc. bool_prop. split; [done|lia].
Qed.

Lemma list_two_ind {A} (P : list A → Prop) :
  P [] → (∀ a, P [a]) → (∀ a b l, P l → P (a :: b :: l)) → ∀ l, P l.
Proof.
  intros H0 H1 H2. fix IH 1. intros [|a [|b l]]; [exact H0|exact (H1 a)|]. apply H2, IH.
Qed.

Lemma hex_decode_lower l b :
  hex_decode l = Some b → map lower_byte l = l → l = hex_list b.
Proof.
  revert b. induction l as [|c|c c' l IH] using list_two_ind; intros b Hd Hl.
  - by injection Hd as <-.
  - done.
  - cbn [hex_decode] in Hd. destruct (hex_digit c) as [x|] eqn:E1; [|done].
    destruct (hex_digit c') as [y|] eqn:E2; [|done].
    destruct (hex_decode l) as [r|] eqn:E3; [|done]. injection Hd as <-.
    cbn [map] in Hl. injection Hl as H1 H2 H3.
    destruct (hex_digit_lower _ _ E1 H1) as [-> ?], (hex_digit_lower _ _ E2 H2) as [-> ?].
    unfold hex_list. cbn [map concat app]. destruct (div_combine x y 16) as [D1 D2]; [lia|].
    rewrite Z.mul_comm in D1, D2. rewrite D1, D2. do 2 f_equal. by apply IH.
Qed.

Lemma validDigest_leaf d : validDigest d false = true → list_of d = list_of "sha256:" ++ hex_list (leaf_bytes d).
Proof.
  unfold validDigest, leaf_bytes. cbn [andb]. intros Hv.
  destruct (negb (len d =? 71) || negb (HasPrefix d "sha256:")) eqn:G; [done|]. bool_prop.
  destruct (hex_decode (drop 7 (list_of d))) as [b|] eqn:E; [|done]. bool_prop. simpl.
  assert (list_of d = list_of "sha256:" ++ drop 7 (list_of d)) as Hd.
  { unfold HasPrefix in *. revert H0. generalize (list_of d). clear.
    intros l Hp. do 7 (destruct l as [|? l]; [done|]; cbn [is_prefix String.list_ascii_of_string] in Hp;
      apply andb_true_iff in Hp as [->%Ascii.eqb_eq Hp]). done. }
  rewrite <-(hex_decode_lower _ _ E); [done|].
  apply (f_equal list_of) in H2. unfold ToLowerASCII in H2. rewrite list_of_string_of in H2.
  rewrite Hd in H2 at 1. rewrite map_app in H2. rewrite Hd in H2 at 2. by apply app_inv_head in H2.
Qed.

Lemma leaf_bytes_inj a b :
  Forall (λ d, validDigest d false = true) a → Forall (λ d, validDigest d false = true) b →
  map leaf_bytes a = map leaf_bytes b → a = b.
Proof.
  intros Ha. revert b. induction Ha as [|d a Hd Ha IH]; intros [|e b] Hb E; try done.
  apply Forall_cons in Hb as [He Hb]. cbn [map] in E. injection E as E1 E2. f_equal; [|by apply IH].
  apply list_of_inj. by rewrite (validDigest_leaf d Hd), (validDigest_leaf e He), E1.
Qed.

Lemma MerkleRoot_inv l root :
  MerkleRoot l = Ok root →
  lenl l ≤ MaxEvents ∧ Forall (λ d, validDigest d false = true) l ∧
  root = "sha256:" +:+ hex_encode (merkle_root l).
Proof.
  unfold MerkleRoot. intros Hr. do 2 ok_step Hr. destruct r. bool_prop. injection Hr as <-.
  apply for_each_ok in E. split_and!; [lia| |done]. eapply Forall_impl; [exact E|].
  intros d. cbv beta. by destruct (validDigest d false).
Qed.

Lemma merkle_root_range l : Forall (λ b, 0 ≤ b < 256) (merkle_root l).
Proof.
  unfold merkle_root. destruct (digest_tree_top (length l) l) as (x & Ex & _); [lia|].
  unfold digest_tree in Ex. rewrite Ex. apply Sum256_range.
Qed.

(** C34: a Merkle root commits to its event digests, in order and number: two
    accepted lists with the same root are the same list, unless SHA-256 collides
    among the byte strings hashed for the two trees (leaves and inner nodes are
    domain separated, so no leaf can pass for a node). *)
Theorem MerkleRoot_binds a b root :
  MerkleRoot a = Ok root → MerkleRoot b = Ok root →
  collision_free (merkle_inputs a ++ merkle_inputs b) → a = b.
Proof.
  intros (_ & Ha & Ra)%MerkleRoot_inv (_ & Hb & Rb)%MerkleRoot_inv Hcf.
  apply leaf_bytes_inj; try done.
  apply (digest_tree_binds (length a) a b (length a) (length b)); try lia; [exact Hcf|].
  rewrite Ra in Rb. apply (f_equal list_of) in Rb. rewrite !list_of_app in Rb.
  apply app_inv_head in Rb. unfold hex_encode in Rb. rewrite !list_of_string_of in Rb.
  fold (hex_list (merkle_root a)) in Rb. fold (hex_list (merkle_root b)) in Rb.
  apply (f_equal hex_decode) in Rb. rewrite !hex_decode_list in Rb by apply merkle_root_range.
  by injection Rb.
Qed.

(** Collision freedom can be checked on concrete inputs. *)
Definition collision_freeb (inputs : list (list Z)) : bool :=
  let sums := map (λ x, (x, Sum256 x)) inputs in
  forallb (λ p, forallb (λ q, negb (bool_decide (p.2 = q.2)) || bool_decide (p.1 = q.1)) sums) sums.
Lemma collision_freeb_ok inputs : collision_freeb inputs = true → collision_free inputs.
Proof.
  unfold collision_freeb. rewrite forallb_forall. intros Hf x y Hx Hy Hs.
  assert (∀ z, z ∈ inputs → In (z, Sum256 z) (map (λ x, (x, Sum256 x)) inputs)) as Hin.
  { intros z Hz. apply in_map_iff. exists z. split; [done|by apply list_elem_of_In]. }
  specialize (Hf _ (Hin x Hx)). rewrite forallb_forall in Hf. specialize (Hf _ (Hin y Hy)).
  cbn [fst snd] in Hf. rewrite bool_decide_eq_true_2 in Hf by done. simpl in Hf. by bool_prop.
Qed.

Lemma MerkleRoot_binds_witness :
  ∃ root, MerkleRoot [DigestBytes "a"; DigestBytes "b"; DigestBytes "c"] = Ok root ∧
    [DigestBytes "a"; DigestBytes "b"; DigestBytes "c"] = [DigestBytes "a"; DigestBytes "b"; DigestBytes "c"].
Proof.
  eexists. split; [vm_compute; reflexivity|].
  apply (MerkleRoot_binds _ _ (match MerkleRoot [DigestBytes "a"; DigestBytes "b"; DigestBytes "c"] with
                               | Ok r => r | Err _ => "" end)).
  - vm_compute. reflexivity.
  - vm_compute. reflexivity.
  - apply collision_freeb_ok. vm_compute. reflexivity.
Defined.

(** * The event chain *)

Lemma sequence_ok s n : sequence s = Ok n ↔ s = int_string n ∧ 0 ≤ n < 2 ^ 63.
Proof.
  unfold sequence, ParseInt64. split.
  - destruct (bigint_of_string s) as [z|]; [|done].
    destruct ((- 2 ^ 63 <=? z) && (z <? 2 ^ 63)) eqn:G; [|done]. intros Hs. ok_step Hs. bool_prop.
    injection Hs as <-. split; [done|lia].
  - intros [-> Hn]. rewrite bigint_of_int_string.
    rewrite (proj2 (Z.leb_le _ _)), (proj2 (Z.ltb_lt _ _)) by lia. simpl.
    by rewrite (proj2 (Z.ltb_ge _ _)), String.eqb_refl by lia.
Qed.

Section ChainProofs.
Context `{Crypto} `{JsonCanonicalizer} `{JsonType Checkpoint}.

(** Consecutive sequence numbers from [from], each event linked to the digest
    before it. *)
Fixpoint event_chain (from : Z) (previous : string) (events : list Event) : Prop :=
  match events with
  | [] => True
  | e :: l =>
      event_Sequence e = int_string from ∧ event_PreviousDigest e = previous ∧
      EventDigest previous (event_Kind e) (event_Payload e) = Ok (event_Digest e) ∧
      event_chain (from + 1) (event_Digest e) l
  end.

Definition last_digest (previous : string) (events : list Event) : string :=
  default previous (event_Digest <$> last events).

Lemma last_digest_cons previous e l :
  last_digest previous (e :: l) = last_digest (event_Digest e) l.
Proof. unfold last_digest. rewrite last_cons. by destruct (last l). Qed.

Lemma chain_last from previous events e :
  event_chain from previous events → last events = Some e →
  event_Sequence e = int_string (from + lenl events - 1).
Proof.
  revert from previous. induction events as [|e' l IH]; intros from previous Hc Hl; [done|].
  destruct Hc as (Hs & _ & _ & Hc). rewrite last_cons in Hl. unfold lenl in *. cbn [length].
  destruct (last l) as [x|] eqn:El.
  - injection Hl as ->. rewrite (IH _ _ Hc eq_refl). f_equal. lia.
  - apply last_None in El as ->. injection Hl as ->. rewrite Hs. f_equal. simpl. lia.
Qed.

Lemma build_fold from i previous to digests events st :
  0 ≤ from → 0 ≤ i → from + i ≤ 2 ^ 63 →
  foldM (build_step from) (i, previous, to, digests) events = Ok st →
  event_chain (from + i) previous events ∧ from + i + lenl events ≤ 2 ^ 63 ∧
  st = (i + lenl events, last_digest previous events,
        default to (event_Sequence <$> last events), digests ++ map event_Digest events).
Proof.
  revert i previous to digests. induction events as [|e l IH];
    intros i previous to digests Hfrom Hi Hrange Hf; cbn [foldM] in Hf.
  { injection Hf as <-. change (lenl (@nil Event)) with 0. rewrite app_nil_r, !Z.add_0_r. by split_and!. }
  unfold build_step in Hf at 1. destruct (sequence (event_Sequence e)) as [n|] eqn:Es; [|done].
  destruct (negb (n =? wrap64 (from + i)) || (n <? from)) eqn:G; [done|]. bool_prop.
  destruct (EventDigest previous (event_Kind e) (event_Payload e)) as [d|] eqn:Ed; [|done].
  destruct ((event_PreviousDigest e !=s previous) || (d !=s event_Digest e)) eqn:G'; [done|].
  bool_prop. subst d. apply sequence_ok in Es as [Hs Hn].
  assert (from + i < 2 ^ 63) as Hlt.
  { destruct (Z.lt_ge_cases (from + i) (2 ^ 63)) as [|Hge]; [done|].
    assert (from + i = 2 ^ 63) as E by lia.
    assert (wrap64 (from + i) = - 2 ^ 63) by (by rewrite E). lia. }
  rewrite wrap64_id in * by (unfold int64_range; lia). subst n.
  apply IH in Hf as (Hc & Hb & ->); [|lia..]. unfold lenl in *. cbn [length].
  rewrite last_digest_cons, last_cons, <-app_assoc. split_and!; [|lia|].
  - cbn. rewrite Z.add_assoc in Hc. by split_and!.
  - replace (i + 1 + Z.of_nat (length l)) with (i + Z.of_nat (S (length l))) by lia.
    by destruct (last l).
Qed.

(** What a built checkpoint says of its interval. *)
Lemma Build_inv logID events previous at_ cp :
  Build logID events previous at_ = Ok cp →
  ∃ from to0 prior priorEvent,
    build_prior logID previous at_ = Ok (from, to0, prior, priorEvent) ∧
    0 ≤ to0 ∧ from = to0 + 1 ∧ event_chain from priorEvent events ∧ from + lenl events ≤ 2 ^ 63 ∧
    MerkleRoot (map event_Digest events) = Ok (checkpoint_MerkleRoot cp) ∧
    checkpoint_LogID cp = logID ∧ checkpoint_FromSequence cp = int_string from ∧
    checkpoint_ToSequence cp = int_string (to0 + lenl events) ∧
    checkpoint_PreviousCheckpointDigest cp = prior ∧
    checkpoint_PreviousEventDigest cp = priorEvent ∧
    checkpoint_LastEventDigest cp = last_digest priorEvent events.
Proof.
  unfold Build. intros Hb. do 2 ok_step Hb. destruct r as [[[from to0] prior] priorEvent].
  assert (0 ≤ to0 ∧ from = to0 + 1 ∧ from ≤ 2 ^ 63) as (Hl & Hf & Hm).
  { unfold build_prior in E. destruct previous as [p|]; [|injection E as <- <- _ _; lia].
    do 4 ok_step E. injection E as <- <- _ _. bool_prop. unfold int64_max in *.
    apply sequence_ok in E0 as [_ ?]. lia. }
  ok_step Hb. apply build_fold in E0 as (Hc & Hr & ->); [|lia..]. rewrite Z.add_0_r in *.
  ok_step Hb. injection Hb as <-. exists from, to0, prior, priorEvent. cbn. split_and!; try done.
  destruct (last events) as [e|] eqn:El.
  - cbn. rewrite (chain_last _ _ _ _ Hc El). f_equal. lia.
  - apply last_None in El as ->. cbn. f_equal. unfold lenl. simpl. lia.
Qed.

(** ** Tamper evidence *)

(** The bytes hashed for an event. *)
Definition event_input (previous : string) (e : Event) : list Z :=
  match CanonicalJSON (event_Payload e) with
  | Ok b => bytes_of (previous +:+ String "010" (event_Kind e +:+ String "010" b))
  | Err _ => []
  end.
Definition chain_inputs (events : list Event) : list (list Z) :=
  map (λ e, event_input (event_PreviousDigest e) e) events.

(** Two events the log cannot tell apart: they differ at most in JSON layout. *)
Definition same_event (e1 e2 : Event) : Prop :=
  event_Sequence e1 = event_Sequence e2 ∧ event_Kind e1 = event_Kind e2 ∧
  event_PreviousDigest e1 = event_PreviousDigest e2 ∧ event_Digest e1 = event_Digest e2 ∧
  ∃ b, CanonicalJSON (event_Payload e1) = Ok b ∧ CanonicalJSON (event_Payload e2) = Ok b.

Lemma hex_decode_no_newline l b : hex_decode l = Some b → "010"%char ∉ l.
Proof.
  revert b. induction l as [|c|c c' l IH] using list_two_ind; intros b Hd; [set_solver|done|].
  cbn [hex_decode] in Hd. destruct (hex_digit c) eqn:E1; [|done].
  destruct (hex_digit c') eqn:E2; [|done]. destruct (hex_decode l) eqn:E3; [|done].
  rewrite !not_elem_of_cons. split_and!; [by intros <-|by intros <-|by eapply IH].
Qed.

Lemma validDigest_no_newline s : validDigest s true = true → "010"%char ∉ list_of s.
Proof.
  unfold validDigest. destruct (String.eqb_spec s Genesis) as [->|_]; [by vm_compute; set_solver|].
  cbn [andb]. intros Hv.
  destruct (negb (len s =? 71) || negb (HasPrefix s "sha256:")) eqn:G; [done|]. bool_prop.
  assert (validDigest s false = true) as Hd%validDigest_leaf.
  { unfold validDigest. cbn [andb]. by rewrite H2, H3. }
  destruct (hex_decode (drop 7 (list_of s))) as [b|] eqn:E; [|done].
  apply hex_decode_no_newline in E. rewrite <-(take_drop 7 (list_of s)), elem_of_app.
  intros [Hin|Hin]; [|done]. rewrite Hd in Hin. simpl in Hin. set_solver.
Qed.

Lemma bytes_of_inj a b : bytes_of a = bytes_of b → a = b.
Proof. intros E%(f_equal of_bytes). by rewrite !of_bytes_of in E. Qed.

Lemma EventDigest_inv previous kind payload d :
  EventDigest previous kind payload = Ok d →
  "010"%char ∉ list_of previous ∧ "010"%char ∉ list_of kind ∧
  ∃ b, CanonicalJSON payload = Ok b ∧
    d = DigestBytes (previous +:+ String "010" (kind +:+ String "010" b)).
Proof.
  unfold EventDigest. intros Hd. do 2 ok_step Hd. bool_prop. injection Hd as <-. split_and!.
  - by apply validDigest_no_newline.
  - unfold ContainsByte in *. intros Hin.
    assert (existsb (Ascii.eqb "010") (list_of kind) = true); [|congruence].
    apply existsb_exists. exists "010"%char. by rewrite <-list_elem_of_In.
  - by exists r.
Qed.

(** Equal digests come from equal links, unless their inputs collide. *)
Lemma EventDigest_binds p1 p2 e1 e2 :
  EventDigest p1 (event_Kind e1) (event_Payload e1) = Ok (event_Digest e1) →
  EventDigest p2 (event_Kind e2) (event_Payload e2) = Ok (event_Digest e2) →
  event_Digest e1 = event_Digest e2 →
  (Sum256 (event_input p1 e1) = Sum256 (event_input p2 e2) → event_input p1 e1 = event_input p2 e2) →
  p1 = p2 ∧ event_Kind e1 = event_Kind e2 ∧
  ∃ b, CanonicalJSON (event_Payload e1) = Ok b ∧ CanonicalJSON (event_Payload e2) = Ok b.
Proof.
  intros (Hp1 & Hk1 & b1 & Hb1 & D1)%EventDigest_inv (Hp2 & Hk2 & b2 & Hb2 & D2)%EventDigest_inv Hd Hcf.
  unfold event_input in Hcf. rewrite Hb1, Hb2 in *.
  assert (Sum256 (bytes_of (p1 +:+ String "010" (event_Kind e1 +:+ String "010" b1)))
    = Sum256 (bytes_of (p2 +:+ String "010" (event_Kind e2 +:+ String "010" b2)))) as Hs.
  { apply DigestBytes_Sum256. congruence. }
  apply Hcf, bytes_of_inj, (f_equal list_of) in Hs. rewrite !list_of_app in Hs. cbn in Hs.
  rewrite !list_of_app in Hs. cbn in Hs. apply sep_inj in Hs as [->%list_of_inj Hs]; [|done..].
  apply sep_inj in Hs as [->%list_of_inj ->%list_of_inj]; [|done..]. eauto.
Qed.

Lemma event_chain_snoc from previous l e :
  event_chain from previous (l ++ [e]) ↔
  event_chain from previous l ∧ event_Sequence e = int_string (from + lenl l) ∧
  event_PreviousDigest e = last_digest previous l ∧
  EventDigest (last_digest previous l) (event_Kind e) (event_Payload e) = Ok (event_Digest e).
Proof.
  revert from previous. induction l as [|e' l IH]; intros from previous.
  { cbn. rewrite Z.add_0_r. tauto. }
  cbn [app event_chain]. rewrite IH, last_digest_cons. unfold lenl. cbn [length].
  replace (from + 1 + Z.of_nat (length l)) with (from + Z.of_nat (S (length l))) by lia. tauto.
Qed.

Lemma last_digest_snoc previous l e : last_digest previous (l ++ [e]) = event_Digest e.
Proof. unfold last_digest. by rewrite last_snoc. Qed.

Lemma chains_agree from previous l1 l2 :
  event_chain from previous l1 → event_chain from previous l2 → length l1 = length l2 →
  last_digest previous l1 = last_digest previous l2 →
  collision_free (chain_inputs l1 ++ chain_inputs l2) → Forall2 same_event l1 l2.
Proof.
  revert l2. induction l1 as [|e1 l1 IH] using rev_ind; intros l2 H1' H2' Hlen Hd Hcf.
  { destruct l2; [constructor|done]. }
  destruct l2 as [|e2 l2 _] using rev_ind; [rewrite length_app in Hlen; simpl in Hlen; lia|].
  rewrite !length_app in Hlen. simpl in Hlen. rewrite !last_digest_snoc in Hd.
  apply event_chain_snoc in H1' as (Hc1 & Hs1 & Hp1 & Hd1), H2' as (Hc2 & Hs2 & Hp2 & Hd2).
  unfold chain_inputs in *. rewrite !map_app in Hcf.
  destruct (EventDigest_binds _ _ _ _ Hd1 Hd2 Hd) as (Hpd & Hk & Hb).
  { rewrite <-Hp1, <-Hp2. apply Hcf; apply elem_of_app; [left|right];
      apply elem_of_app; right; left. }
  apply Forall2_app; [|].
  - apply IH; try done; [lia|]. eapply collision_free_sub; [|exact Hcf].
    intros x. rewrite !elem_of_app. tauto.
  - constructor; [|constructor]. split_and!; try done; [|congruence].
    rewrite Hs1, Hs2. unfold lenl. f_equal. lia.
Qed.

(** A checkpoint's last event digest commits to the whole interval.  Two event
    intervals that both build on the same predecessor and end at the same sequence
    number with the same last digest contain the same events, up to JSON layout of
    the payloads, unless SHA-256 collides among the hashed links: no event can be
    altered, dropped, inserted or reordered unnoticed. *)
Theorem Build_tamper_evident id1 id2 l1 l2 previous at1 at2 c1 c2 :
  Build id1 l1 previous at1 = Ok c1 → Build id2 l2 previous at2 = Ok c2 →
  checkpoint_ToSequence c1 = checkpoint_ToSequence c2 →
  checkpoint_LastEventDigest c1 = checkpoint_LastEventDigest c2 →
  collision_free (chain_inputs l1 ++ chain_inputs l2) → Forall2 same_event l1 l2.
Proof.
  intros (from & to0 & pr & pe & Hp & _ & Hf & Hc1 & _ & _ & _ & _ & Ht1 & _ & _ & Hl1)%Build_inv
    (from' & to0' & pr' & pe' & Hp' & _ & Hf' & Hc2 & _ & _ & _ & _ & Ht2 & _ & _ & Hl2)%Build_inv Ht Hl Hcf.
  assert (to0 = to0' ∧ pe = pe') as [<- <-].
  { unfold build_prior in Hp, Hp'. destruct previous as [p|]; [|naive_solver congruence].
    ok_steps Hp. ok_steps Hp'. split; congruence. }
  subst from from'. eapply chains_agree; try done.
  - rewrite Ht1, Ht2 in Ht. apply int_string_inj in Ht. unfold lenl in Ht. lia.
  - congruence.
Qed.
End ChainProofs.

(** * Quorum *)

Section QuorumProofs.
Context `{Crypto} `{JsonCanonicalizer}.

(** Operator [op] voted: one of its registered keys made a valid signature over
    the platform's exact payload. *)
Definition voted (platform : Envelope) (witnesses : list Envelope)
    (keys : gmap string PublicKey) (operators : gmap string string) (op id : string)
    (key : PublicKey) : Prop :=
  operators !! id = Some op ∧ keys !! id = Some key ∧ op ≠ "" ∧
  ∃ envelope sig payload, envelope ∈ witnesses ∧ sig ∈ envelope_Signatures envelope ∧
    envelope_PayloadType envelope = envelope_PayloadType platform ∧
    envelope_Payload envelope = envelope_Payload platform ∧ signature_KeyID sig = id ∧
    DecodeString (envelope_Payload platform) = Some payload ∧
    signature_valid {[id := key]} PayloadType payload sig = true.

Lemma vote_of_some keys operators envelope sig op :
  vote_of keys operators envelope sig = Some op →
  ∃ key payload, operators !! signature_KeyID sig = Some op ∧ op ≠ "" ∧
    keys !! signature_KeyID sig = Some key ∧
    DecodeString (envelope_Payload envelope) = Some payload ∧
    signature_valid {[signature_KeyID sig := key]} PayloadType payload sig = true.
Proof.
  unfold vote_of. destruct (keys !! signature_KeyID sig) as [key|]; [|done].
  destruct (Verify _ _) as [payload|] eqn:E; [|done].
  destruct (operators !! signature_KeyID sig) as [op'|]; [|done].
  destruct (String.eqb_spec op' ""); [done|]. intros [= <-].
  apply Verify_ok in E as (_ & _ & _ & Hd & _ & _ & s & Hs & Hv). cbn in *.
  apply list_elem_of_singleton in Hs as ->. by exists key, payload.
Qed.

Lemma votes_fold keys operators envelope l seen op :
  op ∈ foldl (λ seen sig, match vote_of keys operators envelope sig with
                          | Some op => {[op]} ∪ seen | None => seen end) seen l →
  op ∈ (seen : gset string) ∨ ∃ sig, sig ∈ l ∧ vote_of keys operators envelope sig = Some op.
Proof.
  revert seen. induction l as [|sig l IH]; intros seen Hop; [by left|]. cbn [foldl] in Hop.
  apply IH in Hop as [Hop|(sig' & ? & ?)]; [|right; exists sig'; by split; [right|]].
  destruct (vote_of keys operators envelope sig) as [op'|] eqn:E; [|by left].
  apply elem_of_union in Hop as [->%elem_of_singleton|]; [|by left].
  right. exists sig. by split; [left|].
Qed.

Lemma seen_voted platform witnesses keys operators op :
  op ∈ foldl (votes platform keys operators) ∅ witnesses →
  ∃ id key, voted platform witnesses keys operators op id key.
Proof.
  assert (∀ l seen, op ∈ foldl (votes platform keys operators) seen l → op ∈ seen ∨
    ∃ envelope sig, envelope ∈ l ∧ sig ∈ envelope_Signatures envelope ∧
      envelope_PayloadType envelope = envelope_PayloadType platform ∧
      envelope_Payload envelope = envelope_Payload platform ∧
      vote_of keys operators envelope sig = Some op) as Hfold.
  { induction l as [|e l IH]; intros seen Hop; [by left|]. cbn [foldl] in Hop.
    apply IH in Hop as [Hop|(e' & sig & ? & ?)]; [|right; exists e', sig; by split; [right|]].
    unfold votes in Hop.
    destruct ((envelope_PayloadType e !=s envelope_PayloadType platform)
      || (envelope_Payload e !=s envelope_Payload platform)) eqn:G; [by left|]. bool_prop.
    apply votes_fold in Hop as [?|(sig & Hs & Hv)]; [by left|]. right.
    exists e, sig. split; [left|done]. }
  intros [?|(e & sig & He & Hs & Ht & Hp & Hv)]%Hfold; [set_solver|].
  apply vote_of_some in Hv as (key & payload & Ho & Hne & Hk & Hd & Hval).
  exists (signature_KeyID sig), key. split_and!; try done.
  exists e, sig, payload. rewrite <-Hp. by split_and!.
Qed.

(** The configuration loop: operators are distinct, and so are active keys. *)
Lemma operator_fold keys l ops fps st :
  foldM (operator_step keys) (ops, fps) l = Ok st →
  (∀ id op key, (id, op) ∈ l → keys !! id = Some key →
     ∃ f, Fingerprint (Some key) = Ok f ∧ f ∉ fps) ∧
  ∀ i j id1 op1 id2 op2 k1 k2, l !! i = Some (id1, op1) → l !! j = Some (id2, op2) → i ≠ j →
    keys !! id1 = Some k1 → keys !! id2 = Some k2 →
    Fingerprint (Some k1) ≠ Fingerprint (Some k2).
Proof.
  revert ops fps. induction l as [|[id op] l IH]; intros ops fps Hf; [set_solver|].
  cbn [foldM operator_step] in Hf. unfold operator_step at 1 in Hf.
  destruct ((id ==s "") || (op ==s "") || bool_decide (op ∈ ops)); [done|].
  destruct (keys !! id) as [key|] eqn:Ek.
  - destruct (Fingerprint (Some key)) as [f|] eqn:Ef; [|done].
    case_bool_decide as Hin; [done|]. apply IH in Hf as [Hfresh Hdist]. split.
    + intros id' op' key' [[= -> ->]|Hl]%elem_of_cons Hk; [exists f; by simplify_eq|].
      destruct (Hfresh _ _ _ Hl Hk) as (f' & ? & Hn). exists f'. split; [done|].
      intros Hf'. apply Hn, elem_of_union. by right.
    + assert (∀ j id2 op2 k2, l !! j = Some (id2, op2) → keys !! id2 = Some k2 →
        Fingerprint (Some key) ≠ Fingerprint (Some k2)) as Hhead.
      { intros j id2 op2 k2 Hj Hk2 Heq. apply list_elem_of_lookup_2 in Hj.
        destruct (Hfresh _ _ _ Hj Hk2) as (f' & Hf' & Hnin).
        apply Hnin, elem_of_union. left. apply elem_of_singleton. congruence. }
      intros [|i] [|j] id1 op1 id2 op2 k1 k2 Hi Hj Hij Hk1 Hk2; simplify_eq/=; [by eapply Hhead| |].
      * intros Heq. eapply (Hhead i); done || congruence.
      * eapply (Hdist i j); done || congruence.
  - apply IH in Hf as [Hfresh Hdist]. split.
    + intros id' op' key' [[= -> ->]|Hl]%elem_of_cons Hk; [congruence|by eapply Hfresh].
    + intros [|i] [|j] id1 op1 id2 op2 k1 k2 Hi Hj Hij Hk1 Hk2; simplify_eq/=.
      eapply (Hdist i j); done || congruence.
Qed.

(** A quorum is never one party voting twice.  When [VerifyQuorum] accepts, two
    different operators, through two different registered keys with different
    fingerprints, have each validly signed the platform's exact payload. *)
Theorem VerifyQuorum_independent platform witnesses keys operators quorum :
  VerifyQuorum platform witnesses keys operators quorum = Ok tt →
  ∃ op1 op2 id1 id2 k1 k2, op1 ≠ op2 ∧ id1 ≠ id2 ∧
    Fingerprint (Some k1) ≠ Fingerprint (Some k2) ∧
    voted platform witnesses keys operators op1 id1 k1 ∧
    voted platform witnesses keys operators op2 id2 k2.
Proof.
  unfold VerifyQuorum. intros Hq. do 3 ok_step Hq. bool_prop. subst quorum.
  set (seen := foldl _ _ _) in *. destruct r as [ops fps].
  destruct (elements seen) as [|op1 [|op2 rest]] eqn:Eel.
  1-2: exfalso; apply (f_equal length) in Eel; unfold size, set_size in *; simpl in *; lia.
  pose proof (NoDup_elements seen) as Hnd. rewrite Eel in Hnd.
  apply NoDup_cons in Hnd as [Hne _].
  destruct (seen_voted platform witnesses keys operators op1) as (id1 & k1 & V1).
  { apply elem_of_elements. fold seen. rewrite Eel. left. }
  destruct (seen_voted platform witnesses keys operators op2) as (id2 & k2 & V2).
  { apply elem_of_elements. fold seen. rewrite Eel. right. left. }
  pose proof V1 as (O1 & K1 & _). pose proof V2 as (O2 & K2 & _).
  assert (op1 ≠ op2) as Hop by (intros ->; apply Hne; left).
  assert (id1 ≠ id2) as Hid by congruence.
  exists op1, op2, id1, id2, k1, k2. split_and!; try done.
  apply operator_fold in E as [_ Hdist].
  apply elem_of_map_to_list, list_elem_of_lookup in O1 as [i Hi], O2 as [j Hj].
  eapply (Hdist i j); try done. intros ->. congruence.
Qed.
End QuorumProofs.
