(* ===== verification/ArtifactsProofs.v ===== *)
(** Artifacts: the accepted sets of files and their canonical trees, independently of
    the iteration order of the map; the digest binds names and contents; archives and
    directories are two carriers of the same trees, and nothing but plain bounded
    files passes either. *)

From S2P Require Import Prelude GoLib Numbers Types Paths Scores Validate Sha256 GoJson Canonical.
From S2P Require Import Documents Checkpoint CheckpointProofs Artifacts.
From stdpp Require Import sorting.
From Stdlib Require Import Ascii.
Open Scope Z_scope.

(** * Sorted names *)

Lemma string_leb_trans a b c : String.leb a b = true → String.leb b c = true → String.leb a c = true.
Proof.
  unfold String.leb. revert b c.
  induction a as [|x a IH]; intros [|y b] [|z c]; simpl; try done.
  unfold Ascii.compare.
  destruct (N.compare_spec (N_of_ascii x) (N_of_ascii y)) as [E1|L1|L1],
           (N.compare_spec (N_of_ascii y) (N_of_ascii z)) as [E2|L2|L2]; try done;
    destruct (N.compare_spec (N_of_ascii x) (N_of_ascii z)) as [E3|L3|L3]; try done; try lia.
  apply IH.
Qed.

#[export] Instance string_le_total : Total string_le.
Proof. intros a b. apply String.leb_total. Qed.
#[export] Instance string_le_trans : Transitive string_le.
Proof. intros a b c. apply string_leb_trans. Qed.
#[export] Instance string_le_antisymm : AntiSymm (=) string_le.
Proof. intros a b. apply String.leb_antisym. Qed.

Lemma SortStrings_perm l : SortStrings l ≡ₚ l.
Proof. apply merge_sort_Permutation. Qed.

Lemma SortStrings_sorted l : StronglySorted string_le (SortStrings l).
Proof. apply StronglySorted_merge_sort; apply _. Qed.

(** Sorting forgets the order of its input. *)
#[export] Instance SortStrings_proper : Proper ((≡ₚ) ==> (=)) SortStrings.
Proof.
  intros a b E. apply (StronglySorted_unique string_le).
  - apply SortStrings_sorted.
  - apply SortStrings_sorted.
  - by rewrite !SortStrings_perm.
Qed.

(** * The accepted sets of files *)

Definition sum_len (l : list (string * Bytes)) : Z := foldr (λ f t, len f.2 + t) 0 l.

#[export] Instance sum_len_proper : Proper ((≡ₚ) ==> (=)) sum_len.
Proof. induction 1; simpl in *; lia. Qed.

Lemma len_nonneg s : 0 ≤ len s.
Proof. unfold len. lia. Qed.
#[export] Hint Resolve len_nonneg : golib.

Lemma sum_len_cons f l : sum_len (f :: l) = len f.2 + sum_len l.
Proof. done. Qed.

Lemma sum_len_nonneg l : 0 ≤ sum_len l.
Proof. induction l as [|f l IH]; simpl; [lia|]. pose proof (len_nonneg f.2). lia. Qed.

Lemma sum_len_app l k : sum_len (l ++ k) = sum_len l + sum_len k.
Proof. induction l as [|f l IH]; simpl; [done|]. rewrite IH. lia. Qed.

(** The lengths of one set of files as the address space allows them. *)
Definition addressable (files : Files) : Prop := ∀ n d, files !! n = Some d → len d < 2 ^ 62.

Section Accepted.
Context `{UnicodeLib} `{JsonCanonicalizer} `{JsonType ArtifactTree}.

Definition file_ok (c : SubmissionContract) (f : string * Bytes) : Prop :=
  ValidatePath f.1 = Ok tt ∧ allowedFile f.1 c = true ∧ check_content c f.2 = Ok tt.

Definition accepted_files (c : SubmissionContract) (files : Files) : Prop :=
  1 ≤ Z.of_nat (size files) ≤ submissionContract_MaxFiles c ∧
  (∀ name data, files !! name = Some data → file_ok c (name, data)) ∧
  (∀ a b, is_Some (files !! a) → is_Some (files !! b) → Fold a = Fold b → a = b) ∧
  sum_len (map_to_list files) ≤ submissionContract_MaxBytes c.

Lemma contract_limits c : ValidateSubmissionContract c = Ok tt →
  1 ≤ submissionContract_MaxBytes c ≤ 2 ^ 26 ∧ 1 ≤ submissionContract_MaxFiles c ≤ 4096.
Proof. unfold ValidateSubmissionContract. change (Z.shiftl 64 20) with (2 ^ 26).
  intros HV. ok_steps HV. bool_prop. lia.
Qed.

(** The loop of [treeFor], over any order. *)
Lemma tree_loop c l : submissionContract_MaxBytes c ≤ 2 ^ 26 → Forall (λ f, len f.2 < 2 ^ 62) l →
  ∀ names seen total st, 0 ≤ total ≤ submissionContract_MaxBytes c →
  foldM (tree_step c) (names, seen, total) l = Ok st ↔
  Forall (file_ok c) l ∧ NoDup ((λ f, Fold f.1) <$> l) ∧ (∀ f, f ∈ l → Fold f.1 ∉ seen) ∧
  total + sum_len l ≤ submissionContract_MaxBytes c ∧
  st = (names ++ l.*1, list_to_set ((λ f, Fold f.1) <$> l) ∪ seen, total + sum_len l).
Proof.
  intros Hc. induction 1 as [|[name data] l Hlen Hl IH]; intros names seen total st Ht; simpl.
  { rewrite app_nil_r, Z.add_0_r, (left_id_L ∅ (∪)). split.
    - intros [= <-]. split_and!; [constructor|constructor|set_solver|lia|done].
    - by intros (_ & _ & _ & _ & ->). }
  simpl in Hlen. pose proof (len_nonneg data) as Hd. pose proof (sum_len_nonneg l) as Hs.
  rewrite Forall_cons, NoDup_cons. unfold file_ok at 1. simpl.
  destruct (ValidatePath name) as [[]|]; [|naive_solver].
  case_bool_decide as Hin.
  { split; [done|]. intros (_ & _ & Hf & _). by destruct (Hf (name, data) ltac:(left)). }
  destruct (allowedFile name c); simpl; [|naive_solver].
  rewrite wrap64_id by (unfold int64_range; lia).
  destruct (_ >? _) eqn:Hov; bool_prop.
  { split; [done|]. intros (_ & _ & _ & ? & _). lia. }
  destruct (check_content c data) as [[]|]; [|naive_solver].
  rewrite IH by lia. rewrite <-Z.add_assoc.
  replace (list_to_set ((λ f : string * Bytes, Fold f.1) <$> l) ∪ ({[Fold name]} ∪ seen))
    with ({[Fold name]} ∪ list_to_set ((λ f : string * Bytes, Fold f.1) <$> l) ∪ seen) by set_solver.
  rewrite <-app_assoc. simpl. split.
  - intros (HF & Hnd & Hdis & Hb & ->). split_and!; try done.
    + intros (f & Hf & Hfl)%list_elem_of_fmap. apply (Hdis f Hfl). rewrite <-Hf. set_solver.
    + intros f [->|Hf]%elem_of_cons; [done|]. specialize (Hdis f Hf). set_solver.
  - intros ((_ & HF) & (Hn & Hnd) & Hdis & Hb & ->). split_and!; try done.
    intros f Hf. pose proof (Hdis f ltac:(by right)).
    assert (Fold f.1 ≠ Fold name); [|set_solver].
    intros E. apply Hn. apply list_elem_of_fmap. eauto.
Qed.

(** Case folding separates the names exactly when the folded names are distinct. *)
Lemma fold_NoDup files order : order ≡ₚ map_to_list files →
  NoDup ((λ f : string * Bytes, Fold f.1) <$> order) ↔
  (∀ a b, is_Some (files !! a) → is_Some (files !! b) → Fold a = Fold b → a = b).
Proof.
  intros ->. split.
  - intros Hnd a b [x Ha] [y Hb] E.
    apply elem_of_map_to_list in Ha as [i Hi]%list_elem_of_lookup.
    apply elem_of_map_to_list in Hb as [j Hj]%list_elem_of_lookup.
    assert (i = j); [|naive_solver]. eapply (NoDup_lookup _ _ _ (Fold a) Hnd).
    + by rewrite list_lookup_fmap, Hi.
    + by rewrite list_lookup_fmap, Hj, E.
  - intros Hinj. apply NoDup_fmap_2_strong; [|apply NoDup_map_to_list].
    intros [a x] [b y] Ha Hb E. simpl in E.
    apply elem_of_map_to_list in Ha, Hb. assert (a = b) as -> by (apply Hinj; eauto). congruence.
Qed.

Definition canonical_tree (files : Files) : ArtifactTree := tree_of files (map_to_list files).*1.

Lemma tree_of_perm files names names' : names ≡ₚ names' → tree_of files names = tree_of files names'.
Proof. intros E. unfold tree_of. by rewrite E. Qed.

Lemma treeFor_ok c files order tree digest : order ≡ₚ map_to_list files → addressable files →
  treeFor files order c = Ok (tree, digest) ↔
  ValidateSubmissionContract c = Ok tt ∧ accepted_files c files ∧
  tree = canonical_tree files ∧ tree_digest tree = Ok digest.
Proof.
  intros Ho Ha. unfold treeFor, accepted_files.
  destruct (ValidateSubmissionContract c) as [[]|] eqn:EV; [|naive_solver].
  pose proof (contract_limits c EV) as [? ?].
  destruct (_ || _) eqn:Hn.
  { split; [done|]. intros (_ & ((Hs1 & Hs2) & _) & _). apply orb_true_iff in Hn as [Hn|Hn]; bool_prop; lia. }
  bool_prop.
  assert (Forall (λ f, len f.2 < 2 ^ 62) order) as HF.
  { apply Forall_forall. intros [n d] Hf. rewrite Ho in Hf. apply elem_of_map_to_list in Hf. eauto. }
  pose proof (tree_loop c order ltac:(lia) HF [] ∅ 0) as HT. rewrite <-(fold_NoDup files order Ho).
  assert (sum_len (map_to_list files) = sum_len order) as HSum by (by rewrite Ho).
  assert (Forall (file_ok c) order ↔
    (∀ name data, files !! name = Some data → file_ok c (name, data))) as HOk.
  { rewrite Ho, Forall_forall. split.
    - intros HA name data Hl. by apply HA, elem_of_map_to_list.
    - intros HA [name data] Hl. by apply HA, elem_of_map_to_list. }
  unfold canonical_tree. rewrite HSum, <-HOk, <-(tree_of_perm files order.*1) by (by rewrite Ho).
  destruct (foldM (tree_step c) ([], ∅, 0) order) as [st|e] eqn:EF.
  - destruct (proj1 (HT st ltac:(lia)) eq_refl) as (HA & Hnd & _ & Hb & ->). simpl.
    split.
    + intros HR. ok_step HR. simplify_eq. split_and!; done || lia.
    + intros (_ & _ & -> & ->). done.
  - split; [done|]. intros (_ & (_ & HA & Hnd & Hb) & _). exfalso.
    pose proof (proj2 (HT _ ltac:(lia))
      (conj HA (conj Hnd (conj (λ f _, not_elem_of_empty _) (conj Hb eq_refl))))) as HC.
    done.
Qed.

(** A set of files is accepted exactly when its contract is valid, their number and
    total size are within it, every path is safe and allowed, every content is inert
    (or no unresolved pointer, for source artifacts), and no two paths collide under
    case folding; the tree is then the canonical tree of the set and the digest its
    domain-separated hash: both are functions of the set alone, whatever order the map
    is iterated in. *)
Theorem treeFor_exact c files order tree digest :
  order ≡ₚ map_to_list files → addressable files →
  treeFor files order c = Ok (tree, digest) ↔
  ValidateSubmissionContract c = Ok tt ∧ accepted_files c files ∧
  tree = canonical_tree files ∧ tree_digest tree = Ok digest.
Proof. apply treeFor_ok. Qed.

(** ** The canonical tree *)

Lemma tree_entries_spec files e :
  e ∈ artifactTree_Entries (canonical_tree files) ↔
  ∃ name data, files !! name = Some data ∧
    e = {| artifactEntry_Path := name; artifactEntry_Type := "file"; artifactEntry_Mode := "0644";
           artifactEntry_Size := len data; artifactEntry_Digest := DigestBytes data |}.
Proof.
  unfold canonical_tree, tree_of. cbn [artifactTree_Entries].
  rewrite list_elem_of_In, in_map_iff. setoid_rewrite <-list_elem_of_In.
  setoid_rewrite SortStrings_perm. unfold tree_entry. split.
  - intros (name & <- & ([n d] & -> & Hd%elem_of_map_to_list)%list_elem_of_fmap).
    simpl. exists n, d. by rewrite Hd.
  - intros (name & data & Hd & ->). exists name. rewrite Hd. split; [done|].
    apply list_elem_of_fmap. exists (name, data). by rewrite elem_of_map_to_list.
Qed.

Lemma tree_paths files :
  artifactEntry_Path <$> artifactTree_Entries (canonical_tree files)
  = SortStrings (map_to_list files).*1.
Proof.
  unfold canonical_tree, tree_of. cbn [artifactTree_Entries].
  induction (SortStrings _) as [|x l IH]; simpl; [done|]. by f_equal.
Qed.

(** ** The digest *)

(** The canonical document of a tree with safe paths decodes to the tree. *)
Class TreeCodec := {
  tree_codec tree data :
    Forall (λ e, ValidatePath (artifactEntry_Path e) = Ok tt) (artifactTree_Entries tree) →
    CanonicalJSON (encode_or_empty tree) = Ok data → DecodeKnown data = Ok tree }.

(** The texts whose hashes the digest of a set of files is made of. *)
Definition artifact_inputs (files : Files) : list (list Z) :=
  (match CanonicalJSON (encode_or_empty (canonical_tree files)) with
   | Ok data => [bytes_of (artifact_domain +:+ data)] | Err _ => [] end)
  ++ map (λ f, bytes_of f.2) (map_to_list files).

Lemma accepted_paths c files : accepted_files c files →
  Forall (λ e, ValidatePath (artifactEntry_Path e) = Ok tt) (artifactTree_Entries (canonical_tree files)).
Proof.
  intros (_ & HA & _). apply Forall_forall. intros e (n & d & Hd & ->)%tree_entries_spec.
  apply (HA n d Hd).
Qed.

Lemma DigestBytes_binds inputs a b : collision_free inputs →
  bytes_of a ∈ inputs → bytes_of b ∈ inputs → DigestBytes a = DigestBytes b → a = b.
Proof. intros HC Ha Hb E. apply bytes_of_inj, HC; try done. by apply DigestBytes_Sum256. Qed.

Lemma content_input files n d : files !! n = Some d → bytes_of d ∈ artifact_inputs files.
Proof.
  intros Hd. apply elem_of_app. right. apply list_elem_of_fmap. exists (n, d).
  by rewrite elem_of_map_to_list.
Qed.

Lemma tree_binds_files files1 files2 :
  collision_free (artifact_inputs files1 ++ artifact_inputs files2) →
  canonical_tree files1 = canonical_tree files2 → files1 ⊆ files2.
Proof.
  intros HC E. apply map_subseteq_spec. intros n d Hd.
  assert (tree_entry files1 n ∈ artifactTree_Entries (canonical_tree files2)) as He.
  { rewrite <-E. apply tree_entries_spec. exists n, d. unfold tree_entry. by rewrite Hd. }
  apply tree_entries_spec in He as (n' & d' & Hd' & He). unfold tree_entry in He.
  rewrite Hd in He. pose proof (f_equal artifactEntry_Path He) as EP.
  pose proof (f_equal artifactEntry_Digest He) as Hdig. cbn in EP. subst n'.
  cbn [artifactEntry_Digest default] in Hdig.
  rewrite Hd'. f_equal. symmetry. eapply DigestBytes_binds; [exact HC|..|exact Hdig].
  - apply elem_of_app. left. by eapply content_input.
  - apply elem_of_app. right. by eapply content_input.
Qed.

(** An artifact digest binds every path and every byte: two accepted sets of files
    with the same digest are the same set, unless SHA-256 collides among the texts
    hashed for them. *)
Theorem artifact_digest_binds `{!TreeCodec} c1 c2 files1 files2 order1 order2 tree1 tree2 digest :
  order1 ≡ₚ map_to_list files1 → order2 ≡ₚ map_to_list files2 →
  addressable files1 → addressable files2 →
  treeFor files1 order1 c1 = Ok (tree1, digest) →
  treeFor files2 order2 c2 = Ok (tree2, digest) →
  collision_free (artifact_inputs files1 ++ artifact_inputs files2) →
  files1 = files2 ∧ tree1 = tree2.
Proof.
  intros Ho1 Ho2 Ha1 Ha2 E1 E2 HC.
  apply (treeFor_ok c1) in E1 as (_ & HA1 & -> & D1); [|done..].
  apply (treeFor_ok c2) in E2 as (_ & HA2 & -> & D2); [|done..].
  assert (canonical_tree files1 = canonical_tree files2) as ET.
  { unfold tree_digest in D1, D2.
    pose proof (λ d, tree_codec (canonical_tree files1) d (accepted_paths _ _ HA1)) as K1.
    pose proof (λ d, tree_codec (canonical_tree files2) d (accepted_paths _ _ HA2)) as K2.
    unfold artifact_inputs in HC.
    destruct (CanonicalJSON (encode_or_empty (canonical_tree files1))) as [x1|]; [|done].
    destruct (CanonicalJSON (encode_or_empty (canonical_tree files2))) as [x2|]; [|done].
    assert (artifact_domain +:+ x1 = artifact_domain +:+ x2) as E.
    { eapply DigestBytes_binds; [exact HC|..|exact (Ok_inj _ _ (eq_trans D1 (eq_sym D2)))];
        rewrite !elem_of_app; [left|right]; left; by left. }
    apply (inj (String.append artifact_domain)) in E as ->. specialize (K1 _ eq_refl). specialize (K2 _ eq_refl).
    congruence. }
  split; [|done]. apply (anti_symm (⊆)).
  - by apply tree_binds_files.
  - apply tree_binds_files; [|done]. eapply collision_free_sub; [|exact HC]. set_solver.
Qed.

(** * Archives *)

Definition member_name (m : Member) : string := TrimSuffix (tar_Name m) "/".

(** What the reader lets a member be: a directory, or a regular file without
    executable bits or extended metadata, allowed by the contract and delivered whole. *)
Definition plain_member (c : SubmissionContract) (m : Member) : Prop :=
  ValidatePath (member_name m) = Ok tt ∧
  (tar_Typeflag m = TypeDir ∨
   (tar_Typeflag m = TypeReg ∨ tar_Typeflag m = TypeRegA) ∧
   Z.land (tar_Mode m) executable_bits = 0 ∧ tar_PAXRecords m = 0 ∧ tar_Xattrs m = 0 ∧
   allowedFile (member_name m) c = true ∧ len (tar_content m) = tar_Size m).

Definition member_files (ms : list Member) : list (string * Bytes) :=
  omap (λ m, if bool_decide (tar_Typeflag m = TypeDir) then None
             else Some (member_name m, tar_content m)) ms.

Lemma len_string_of l : len (string_of l) = lenl l.
Proof. unfold len, lenl. by rewrite <-length_list_of, list_of_string_of. Qed.

(** A member read to exactly its declared size was delivered whole. *)
Lemma read_member_whole m data : 0 ≤ tar_Size m < 2 ^ 62 →
  read_member m = Ok data → len data = tar_Size m → data = tar_content m.
Proof.
  unfold read_member. intros Hs. rewrite wrap64_id by (unfold int64_range; lia).
  assert (∀ d, string_of (take (Z.to_nat (tar_Size m + 1)) (list_of (tar_content m))) = d →
    len d = tar_Size m → d = tar_content m) as Hw.
  { intros d <-. rewrite len_string_of. unfold lenl. rewrite length_take. intros Hl.
    apply list_of_inj. rewrite list_of_string_of, take_ge; [done|]. lia. }
  destruct (tar_error m); [destruct (_ <? _)|]; intros HR Hl; simplify_eq; by apply Hw.
Qed.

Definition names_of (fs : list (string * Bytes)) : list string := fs.*1.

Lemma member_files_names ms n : n ∈ (member_files ms).*1 → n ∈ member_name <$> ms.
Proof.
  intros ([a d] & -> & (m & Hm & Hf)%list_elem_of_omap)%list_elem_of_fmap.
  case_bool_decide; [done|]. injection Hf as <- <-. apply list_elem_of_fmap. eauto.
Qed.

(** One member: what an accepted iteration has checked and recorded. *)
Lemma member_step_ok c compressed files seen total next r :
  submissionContract_MaxBytes c ≤ 2 ^ 26 → 0 ≤ total ≤ submissionContract_MaxBytes c →
  member_step c compressed (files, seen, total) next = Ok r →
  ∃ m, next = Ok m ∧ plain_member c m ∧ Fold (member_name m) ∉ seen ∧
    r = (list_to_map (member_files [m]) ∪ files, {[Fold (member_name m)]} ∪ seen,
         total + sum_len (member_files [m])) ∧
    total + sum_len (member_files [m]) ≤ submissionContract_MaxBytes c.
Proof.
  intros Hc Ht E. destruct next as [m|]; [|done]. exists m. unfold member_step in E.
  fold (member_name m) in E. ok_steps E. bool_prop. unfold member_files. simpl.
  destruct (bool_decide (tar_Typeflag m = TypeDir)) eqn:Hdir; bool_prop.
  { simplify_eq. simpl. rewrite Z.add_0_r, (left_id_L ∅ (∪)).
    split_and!; try done; [|lia]. destruct r0. split; [done|by left]. }
  ok_steps E. bool_prop. rewrite wrap64_id in * by (unfold int64_range; lia). simplify_eq/=.
  assert (r1 = tar_content m) as -> by (apply read_member_whole; [lia|done|done]).
  rewrite wrap64_id by (unfold int64_range; lia).
  rewrite insert_union_singleton_l, Z.add_0_r. split_and!; try done; try lia.
  destruct r0. split; [done|]. right. split_and!; try done.
  match goal with HR : (negb _ && negb _) = false |- _ => apply andb_false_iff in HR as [HR|HR] end;
    bool_prop; auto.
Qed.

(** The loop over the members. *)
Lemma member_loop c compressed ms : submissionContract_MaxBytes c ≤ 2 ^ 26 →
  ∀ files seen total st, 0 ≤ total ≤ submissionContract_MaxBytes c →
  foldM (member_step c compressed) (files, seen, total) ms = Ok st →
  ∃ headers, ms = Ok <$> headers ∧ Forall (plain_member c) headers ∧
    NoDup ((λ m, Fold (member_name m)) <$> headers) ∧
    (∀ m, m ∈ headers → Fold (member_name m) ∉ seen) ∧
    st.1.1 = list_to_map (member_files headers) ∪ files ∧
    st.2 = total + sum_len (member_files headers) ∧ st.2 ≤ submissionContract_MaxBytes c.
Proof.
  intros Hc. induction ms as [|next ms IH]; intros files seen total st Ht HF; simpl in HF.
  { simplify_eq. exists []. simpl. rewrite (left_id_L ∅ (∪)).
    split_and!; try constructor; try done; try lia; set_solver. }
  ok_step HF. apply member_step_ok in E as (m & -> & Hm & Hs & -> & Hb); [|done..].
  pose proof (sum_len_nonneg (member_files [m])) as Hpos.
  apply IH in HF as (hs & -> & HA & Hnd & Hdis & Hf & Htot & Hmax); [|lia].
  assert (Fold (member_name m) ∉ ((λ m, Fold (member_name m)) <$> hs)) as Hnew.
  { intros (x & Hx & Hxs)%list_elem_of_fmap. apply (Hdis x Hxs). rewrite <-Hx. set_solver. }
  exists (m :: hs). change (m :: hs) with ([m] ++ hs). unfold member_files in *.
  rewrite omap_app, list_to_map_app. split_and!; try done.
  - by constructor.
  - by constructor.
  - intros x [->|Hx]%elem_of_cons; [done|]. specialize (Hdis x Hx). set_solver.
  - rewrite Hf, (map_union_comm (list_to_map (omap _ [m])) (list_to_map (omap _ hs))), (assoc_L (∪)); [done|].
    apply map_disjoint_spec. intros n x y Hx Hy. apply Hnew.
    apply elem_of_list_to_map_2, (list_elem_of_fmap_2 fst) in Hx, Hy.
    apply member_files_names in Hx, Hy. simpl in *.
    apply list_elem_of_singleton in Hx. subst n. apply list_elem_of_fmap in Hy as (z & Hz & Hzs).
    apply list_elem_of_fmap. exists z. by rewrite Hz.
  - rewrite Htot, sum_len_app. lia.
Qed.

(** A [range] statement visits each entry of the map once. *)
Definition map_order (order : Files → list (string * Bytes)) : Prop :=
  ∀ files, order files ≡ₚ map_to_list files.

Lemma drain_padding_ok a : drain_padding a = Ok tt ↔
  Forall (λ chunk, Forall (λ b, b = "000"%char) (list_of chunk)) (ar_padding a ++ [(ar_last a).1]) ∧
  (ar_last a).2 = None.
Proof.
  assert (∀ chunk, check_padding chunk = Ok tt ↔ Forall (λ b, b = "000"%char) (list_of chunk)) as HC.
  { intros chunk. unfold check_padding. rewrite for_each_ok. apply Forall_iff. intros b.
    destruct (Ascii.eqb_spec b "000"); naive_solver. }
  unfold drain_padding. rewrite Forall_app, Forall_singleton, <-HC.
  assert (Forall (λ chunk, Forall (λ b, b = "000"%char) (list_of chunk)) (ar_padding a)
          ↔ for_each check_padding (ar_padding a) = Ok tt) as ->.
  { rewrite for_each_ok. apply Forall_iff. intros x. by rewrite HC. }
  destruct (for_each _ _) as [[]|], (check_padding _) as [[]|], (ar_last a).2; naive_solver.
Qed.

(** C37: whatever bytes the archive readers deliver, an accepted archive held only
    directories and regular files without executable bits, links or extended metadata,
    each delivered whole; no two of its paths collide; its files are exactly those
    members and are a set [treeFor] accepts; nothing but zeros follows the end
    marker, and no more than the archive budget was consumed. *)
Theorem ReadArtifactArchive_safe a order c files tree digest :
  map_order order → ReadArtifactArchive a order c = Ok (files, tree, digest) →
  (∃ headers, ar_members a = Ok <$> headers ∧ Forall (plain_member c) headers ∧
     NoDup ((λ m, Fold (member_name m)) <$> headers) ∧
     files = list_to_map (member_files headers)) ∧
  accepted_files c files ∧ tree = canonical_tree files ∧ tree_digest tree = Ok digest ∧
  Forall (λ chunk, Forall (λ b, b = "000"%char) (list_of chunk)) (ar_padding a ++ [(ar_last a).1]) ∧
  ar_counted a ≤ submissionContract_MaxBytes c + submissionContract_MaxFiles c * 4096 + 1024.
Proof.
  intros Ho HR. unfold ReadArtifactArchive in HR. ok_steps HR. bool_prop. simplify_eq.
  destruct r as []. pose proof (contract_limits c E) as [? ?].
  apply member_loop in E1 as (hs & Hms & HA & Hnd & _ & Hf & Htot & Hmax); [|lia..].
  rewrite (right_id_L ∅ (∪)) in Hf. destruct r2. apply drain_padding_ok in E2 as [Hpad _].
  unfold archive_budget in *. rewrite wrap64_id in * by (unfold int64_range; lia).
  assert (addressable r1.1.1) as Ha.
  { intros n d Hd. rewrite Hf in Hd. apply elem_of_list_to_map_2 in Hd.
    assert (len d ≤ sum_len (member_files hs)); [|lia].
    clear -Hd. induction (member_files hs) as [|f l IH]; [by apply not_elem_of_nil in Hd|].
    simpl. pose proof (sum_len_nonneg l). pose proof (len_nonneg f.2).
    apply elem_of_cons in Hd as [<-|Hd]; simpl; [lia|]. specialize (IH Hd). lia. }
  destruct r3 as [t d]. apply treeFor_ok in E3 as (_ & Hacc & -> & Hd); [|apply Ho|done].
  split_and!; try done. exists hs. by split_and!.
Qed.

(** ** Packing *)

(** The tar member of one file. *)
Definition pack_member (f : string * Bytes) : Member :=
  {| tar_Name := f.1; tar_Typeflag := TypeReg; tar_Mode := 420; tar_Size := len f.2;
     tar_PAXRecords := 0; tar_Xattrs := 0; tar_content := f.2; tar_error := None;
     tar_counted := 0 |}.

(** An uncompressed archive of the files [l]: zero padding, and at most 4096 bytes of
    headers and block padding per file with two end blocks. *)
Definition packs (a : Archive) (l : list (string * Bytes)) : Prop :=
  ar_magic a ≠ gzip_magic ∧ ar_members a = (Ok ∘ pack_member) <$> l ∧
  drain_padding a = Ok tt ∧
  0 ≤ ar_decoded a ≤ sum_len l + lenl l * 4096 + 1024 ∧
  ar_counted a ≤ sum_len l + lenl l * 4096 + 1024.

Lemma TrimSuffix_valid n : ValidatePath n = Ok tt → TrimSuffix n "/" = n.
Proof.
  unfold ValidatePath, TrimSuffix. intros HV. ok_step HV. bool_prop.
  match goal with HS : HasSuffix n "/" = false |- _ => by rewrite HS end.
Qed.

Lemma member_step_pack c files seen total f :
  submissionContract_MaxBytes c ≤ 2 ^ 26 → 0 ≤ total →
  file_ok c f → Fold f.1 ∉ seen → total + len f.2 ≤ submissionContract_MaxBytes c →
  Z.of_nat (size files) < submissionContract_MaxFiles c →
  Z.of_nat (size ({[Fold f.1]} ∪ seen)) ≤ submissionContract_MaxFiles c * 4 →
  member_step c false (files, seen, total) (Ok (pack_member f))
  = Ok (<[f.1 := f.2]> files, {[Fold f.1]} ∪ seen, total + len f.2).
Proof.
  intros Hc Ht (Hp & Hal & _) Hs Hb Hn Hseen. pose proof (len_nonneg f.2) as Hl.
  unfold member_step, pack_member. cbn [tar_Name tar_Typeflag tar_Mode tar_Size tar_PAXRecords
    tar_Xattrs tar_counted].
  rewrite (TrimSuffix_valid _ Hp), Hp, bool_decide_eq_false_2 by done.
  rewrite (proj2 (Z.ltb_ge _ _)) by lia.
  destruct (_ >? _) eqn:E1; bool_prop; [lia|]. cbn [bool_decide negb andb orb].
  rewrite (wrap64_id (_ - _)) by (unfold int64_range; lia).
  destruct (len f.2 >? _) eqn:E2; bool_prop; [lia|].
  destruct (_ >=? _) eqn:E3; bool_prop; [lia|].
  unfold read_member. cbn [tar_Size tar_content tar_error].
  change (Z.land 420 executable_bits) with 0. cbn [Z.eqb negb orb andb]. rewrite Hal. cbn [negb].
  rewrite wrap64_id by (unfold int64_range; lia).
  rewrite take_ge by (rewrite length_list_of; unfold len; lia).
  rewrite String.string_of_list_ascii_of_string, Z.eqb_refl. cbn [negb].
  by rewrite wrap64_id by (unfold int64_range; lia).
Qed.

Lemma size_insert_le (files : Files) n d :
  Z.of_nat (size files) ≤ Z.of_nat (size (<[n := d]> files)) ≤ Z.of_nat (size files) + 1.
Proof.
  destruct (files !! n) eqn:E.
  - rewrite map_size_insert_Some by eauto. lia.
  - rewrite map_size_insert_None by done. lia.
Qed.

Lemma size_add_le (x : string) (seen : gset string) :
  Z.of_nat (size ({[x]} ∪ seen)) ≤ Z.of_nat (size seen) + 1.
Proof. pose proof (size_union_alt {[x]} seen). rewrite size_singleton in *.
  pose proof (subseteq_size (seen ∖ {[x]}) seen ltac:(set_solver)). lia. Qed.

(** Inserting files one by one, and all at once. *)
Lemma insert_files (n d : string) (l : list (string * Bytes)) (files : Files) : n ∉ l.*1 →
  list_to_map l ∪ <[n := d]> files = list_to_map ((n, d) :: l) ∪ files.
Proof.
  intros Hn. simpl. rewrite <-insert_union_l, insert_union_r; [done|].
  by apply not_elem_of_list_to_map_1.
Qed.

Lemma member_loop_pack c l : submissionContract_MaxBytes c ≤ 2 ^ 26 → Forall (file_ok c) l →
  NoDup ((λ f, Fold f.1) <$> l) → ∀ files seen total, 0 ≤ total →
  (∀ f, f ∈ l → Fold f.1 ∉ seen) → total + sum_len l ≤ submissionContract_MaxBytes c →
  Z.of_nat (size files) + lenl l ≤ submissionContract_MaxFiles c →
  Z.of_nat (size seen) + lenl l ≤ submissionContract_MaxFiles c * 4 →
  ∃ seen' total', foldM (member_step c false) (files, seen, total) ((Ok ∘ pack_member) <$> l)
    = Ok (list_to_map l ∪ files, seen', total').
Proof.
  intros Hc. induction 1 as [|[n d] l Hf Hl IH]; intros Hnd files seen total Ht Hdis Hb Hn Hs.
  { simpl. rewrite (left_id_L ∅ (∪)). eauto. }
  rewrite fmap_cons, NoDup_cons in Hnd. destruct Hnd as [Hnew Hnd].
  rewrite fmap_cons. unfold lenl in *. cbn [length fst snd foldM compose] in *.
  rewrite sum_len_cons in Hb. cbn [snd] in Hb.
  pose proof (sum_len_nonneg l). pose proof (len_nonneg d).
  pose proof (size_insert_le files n d). pose proof (size_add_le (Fold n) seen).
  rewrite member_step_pack; cbn [fst snd]; try done; try lia;
    try (by apply (Hdis (n, d)); left).
  destruct (IH Hnd (<[n := d]> files) ({[Fold n]} ∪ seen) (total + len d)) as (s' & t' & ->);
    try lia.
  { intros f Hfl. pose proof (Hdis f ltac:(by right)).
    assert (Fold f.1 ≠ Fold n); [|set_solver].
    intros E. apply Hnew. apply list_elem_of_fmap. eauto. }
  exists s', t'. rewrite insert_files; [done|].
  intros (f & Hfn & Hfl)%list_elem_of_fmap. simpl in Hfn. apply Hnew, list_elem_of_fmap.
  exists f. by rewrite <-Hfn.
Qed.

(** Every set of files that [treeFor] accepts can be packed: an uncompressed archive
    of it in any order fits the archive budget and reads back as the same files, tree
    and digest. *)
Lemma archive_complete a l order c files tree digest :
  map_order order → addressable files → l ≡ₚ map_to_list files → packs a l →
  treeFor files (order files) c = Ok (tree, digest) →
  ReadArtifactArchive a order c = Ok (files, tree, digest).
Proof.
  intros Ho Ha Hl (Hmagic & Hms & Hdrain & Hdec & Hcnt) HT.
  pose proof HT as HT'. apply treeFor_ok in HT' as (EV & Hacc & _ & _); [|apply Ho|done].
  pose proof (contract_limits c EV) as [Hmb Hmf]. destruct Hacc as (Hsz & Hok & Hinj & Hsum).
  assert (lenl l = Z.of_nat (size files)) as Hlen.
  { unfold lenl. by rewrite Hl, length_map_to_list. }
  rewrite <-Hl in Hsum.
  unfold ReadArtifactArchive. rewrite EV, bool_decide_eq_false_2, Hms by done.
  destruct (member_loop_pack c l) with (files := (∅ : Files)) (seen := (∅ : gset string)) (total := 0)
    as (seen' & total' & ->); try rewrite !map_size_empty; try rewrite !size_empty; try lia.
  - apply Forall_forall. intros [n d] Hnd. rewrite Hl in Hnd. apply elem_of_map_to_list in Hnd. auto.
  - by apply (fold_NoDup files).
  - set_solver.
  - rewrite Hdrain. unfold archive_budget.
    rewrite (wrap64_id (_ + _ + 1024)) by (unfold int64_range; lia).
    rewrite wrap64_id by (unfold int64_range; lia).
    destruct (_ || _) eqn:EB; [apply orb_true_iff in EB as [EB|EB]; bool_prop; lia|].
    cbn [fst]. rewrite (right_id_L ∅ (∪)).
    assert (list_to_map l = files) as ->; [|by rewrite HT].
    rewrite <-(list_to_map_to_list files). apply list_to_map_proper; [|done].
    rewrite Hl. apply NoDup_fst_map_to_list.
Qed.

(** * Directories *)

(** What the walk meets below the root: a directory, or a regular file of mode 0644. *)
Inductive path_item := DirItem (path : string) | FileItem (path : string) (data : Bytes).

Definition walk_entry (e : path_item) : WalkEntry :=
  match e with
  | DirItem dir => mkWalkEntry (Ok dir) false true (Err "unused") (Err "unused")
  | FileItem name data => mkWalkEntry (Ok name) false false (Ok (true, 420, len data)) (Ok data)
  end.

Definition walk_files (es : list path_item) : list (string * Bytes) :=
  omap (λ e, match e with DirItem _ => None | FileItem n d => Some (n, d) end) es.

Definition walks (walk : list (result WalkEntry)) (l : list (string * Bytes)) : Prop :=
  ∃ es, walk = (Ok ∘ walk_entry) <$> es ∧ walk_files es = l ∧
    Forall (λ e, match e with DirItem p => ValidatePath p = Ok tt | _ => True end) es.

Lemma walk_loop c es : submissionContract_MaxBytes c ≤ 2 ^ 26 →
  Forall (λ e, match e with DirItem p => ValidatePath p = Ok tt | _ => True end) es →
  Forall (file_ok c) (walk_files es) → NoDup (walk_files es).*1 → ∀ files total, 0 ≤ total →
  total + sum_len (walk_files es) ≤ submissionContract_MaxBytes c →
  Z.of_nat (size files) + lenl (walk_files es) ≤ submissionContract_MaxFiles c →
  ∃ total', foldM (walk_step c) (files, total) ((Ok ∘ walk_entry) <$> es)
    = Ok (list_to_map (walk_files es) ∪ files, total').
Proof.
  intros Hc. induction 1 as [|[p|n d] es He Hes IH]; intros Hf Hnd files total Ht Hb Hn;
    rewrite ?fmap_cons; cbn [foldM].
  { simpl. rewrite (left_id_L ∅ (∪)). eauto. }
  { unfold walk_step. simpl. rewrite He. by apply IH. }
  change (walk_files (FileItem n d :: es)) with ((n, d) :: walk_files es) in *.
  apply Forall_cons in Hf as [(Hp & Hal & _) Hf]. apply NoDup_cons in Hnd as [Hnew Hnd].
  rewrite sum_len_cons in Hb. unfold lenl in *. cbn [fst snd length] in *.
  pose proof (sum_len_nonneg (walk_files es)). pose proof (len_nonneg d).
  pose proof (size_insert_le files n d).
  unfold walk_step at 1, walk_entry. cbn [compose w_relative w_symlink w_dir w_info w_read negb orb].
  rewrite Hp. change (Z.land 420 executable_bits) with 0. cbn [Z.eqb negb]. rewrite Hal. cbn [negb].
  rewrite !wrap64_id by (unfold int64_range; lia).
  destruct (len d >? _) eqn:E1; bool_prop; [lia|].
  destruct (_ || _) eqn:E2; [apply orb_true_iff in E2 as [E2|E2]; bool_prop; lia|].
  destruct (IH Hf Hnd (<[n := d]> files) (total + len d)) as (t' & Ht'); try lia.
  exists t'. unfold compose in Ht' at 1. rewrite <-insert_files by done. exact Ht'.
Qed.

Lemma directory_complete walk l order c files tree digest :
  map_order order → addressable files → l ≡ₚ map_to_list files → walks walk l →
  treeFor files (order files) c = Ok (tree, digest) →
  CanonicalArtifact (Ok (true, false)) walk order c = Ok (tree, digest).
Proof.
  intros Ho Ha Hl (es & -> & Hes & Hdirs) HT.
  pose proof HT as HT'. apply treeFor_ok in HT' as (EV & Hacc & _ & _); [|apply Ho|done].
  pose proof (contract_limits c EV) as [Hmb Hmf]. destruct Hacc as (Hsz & Hok & Hinj & Hsum).
  assert (lenl l = Z.of_nat (size files)) as Hlen.
  { unfold lenl. by rewrite Hl, length_map_to_list. }
  assert (NoDup l.*1) as Hnd by (rewrite Hl; apply NoDup_fst_map_to_list).
  rewrite <-Hl in Hsum. unfold CanonicalArtifact.
  destruct (walk_loop c es) with (files := (∅ : Files)) (total := 0)
    as (total' & ->); rewrite ?Hes; try rewrite map_size_empty; try lia; try done.
  - apply Forall_forall. intros [n d] Hnd'. rewrite Hl in Hnd'.
    apply elem_of_map_to_list in Hnd'. auto.
  - cbn [fst]. rewrite (right_id_L ∅ (∪)).
    assert (list_to_map l = files) as ->; [|done].
    rewrite <-(list_to_map_to_list files). by apply list_to_map_proper.
Qed.

(** The two carriers agree: a set of files [treeFor] accepts, packed in any order
    into an uncompressed archive within its framing budget, reads back as the same
    files, tree and digest, and a directory tree holding it yields the same tree and
    digest. *)
Theorem archive_directory_agree a walk l order c files tree digest :
  map_order order → addressable files → l ≡ₚ map_to_list files → packs a l → walks walk l →
  treeFor files (order files) c = Ok (tree, digest) →
  ReadArtifactArchive a order c = Ok (files, tree, digest) ∧
  CanonicalArtifact (Ok (true, false)) walk order c = Ok (tree, digest).
Proof. intros. split; [by eapply archive_complete|by eapply directory_complete]. Qed.

(** What an accepted directory held. *)
Definition plain_entry (c : SubmissionContract) (w : WalkEntry) : Prop :=
  ∃ relative, w_relative w = Ok relative ∧ ValidatePath relative = Ok tt ∧ w_symlink w = false ∧
    (w_dir w = true ∨
     ∃ perm size data, w_info w = Ok (true, perm, size) ∧ Z.land perm executable_bits = 0 ∧
       allowedFile relative c = true ∧ w_read w = Ok data).

(** A directory whose tree is accepted is a real directory whose walk met no error,
    no symbolic link, no executable and no irregular file. *)
Theorem CanonicalArtifact_safe root walk order c tree digest :
  CanonicalArtifact root walk order c = Ok (tree, digest) →
  root = Ok (true, false) ∧ ∃ entries, walk = Ok <$> entries ∧ Forall (plain_entry c) entries.
Proof.
  intros HR. unfold CanonicalArtifact in HR. destruct root as [[[] []]|]; try done.
  split; [done|]. ok_step HR. clear HR. revert E. generalize (∅ : Files, 0).
  induction walk as [|w walk IH]; intros st E; [by exists []|]. simpl in E. ok_step E.
  apply IH in E as (es & -> & Hes). clear IH. unfold walk_step in E0.
  destruct st as [files total], w as [w|]; [|done]. exists (w :: es). split; [done|].
  constructor; [|done]. ok_steps E0. exists r1. bool_prop. destruct r2. split_and!; try done.
  destruct (w_dir w); [by left|right]. ok_steps E0. destruct r2 as [[regular perm] size].
  ok_steps E0. bool_prop. destruct regular; [|done]. eauto 10.
Qed.
End Accepted.
