(* ===== verification/HiddenProofs.v ===== *)
(** Hidden suites: a sealed object opens to exactly what was sealed, a suite travels
    from its author to the host of one job and back to the plaintext, a capsule opens
    for one context only, and no two objects of a suite share a nonce. *)

From S2P Require Import Prelude GoLib Numbers Types Paths Scores Validate Sha256 GoJson Canonical.
From S2P Require Import Documents Signatures Checkpoint CheckpointProofs Artifacts ArtifactsProofs Hidden.
From Stdlib Require Import Ascii.
Open Scope Z_scope.

(** * Lemmas *)

Lemma len_app a b : len (a +:+ b) = len a + len b.
Proof. unfold len. rewrite <-!length_list_of, list_of_app, length_app. lia. Qed.

Definition header (nonce : Bytes) : Bytes := "SLS1" +:+ nonce.

Lemma slice_nonce nonce c : len nonce = 12 → slice 4 16 ("SLS1" +:+ nonce +:+ c) = nonce.
Proof.
  intros Hn. unfold len in Hn. apply list_of_inj. unfold slice. rewrite list_of_string_of.
  rewrite !list_of_app. change (drop 4 (list_of "SLS1" ++ list_of nonce ++ list_of c))
    with (list_of nonce ++ list_of c).
  apply take_app_length'. rewrite length_list_of. lia.
Qed.

Lemma slice_rest nonce c : len nonce = 12 →
  slice 16 (String.length ("SLS1" +:+ nonce +:+ c)) ("SLS1" +:+ nonce +:+ c) = c.
Proof.
  intros Hn. unfold len in Hn. apply list_of_inj. unfold slice. rewrite list_of_string_of.
  rewrite <-length_list_of, !list_of_app.
  change (drop 16 (list_of "SLS1" ++ list_of nonce ++ list_of c))
    with (drop 12 (list_of nonce ++ list_of c)).
  rewrite drop_app_length' by (rewrite length_list_of; lia). apply take_ge.
  rewrite !length_app, !length_list_of. simpl String.length. lia.
Qed.

(** A sealed object is its header and the rest. *)
Lemma split_object ct : 32 ≤ len ct → HasPrefix ct "SLS1" = true →
  ct = "SLS1" +:+ slice 4 16 ct +:+ slice 16 (String.length ct) ct ∧ len (slice 4 16 ct) = 12.
Proof.
  intros Hl Hp. unfold len in Hl. rewrite <-length_list_of in Hl.
  unfold HasPrefix in Hp. unfold slice, len. rewrite <-!length_list_of, list_of_string_of.
  assert (ct = string_of (list_of ct)) as Ect by (by rewrite string_of_list_of).
  revert Hl Hp Ect. generalize (list_of ct). intros l Hl Hp ->.
  do 4 (destruct l as [|? l]; [simpl in Hl; lia|]).
  cbn [is_prefix list_of] in Hp. rewrite !andb_true_iff, !Ascii.eqb_eq in Hp.
  destruct Hp as (<- & <- & <- & <- & _). cbn [length] in Hl. split.
  - apply list_of_inj. rewrite !list_of_app, !list_of_string_of. cbn [list_of app drop].
    do 4 f_equal. rewrite (take_ge (drop 12 l)) by (rewrite length_drop; simpl; lia).
    change (l = take 12 l ++ drop 12 l). by rewrite take_drop.
  - rewrite length_take, length_drop. cbn [length]. lia.
Qed.

(** The commitment of a material is that of its digest and salt. *)
Lemma validateSuiteMaterial_ok m : validateSuiteMaterial m = Ok tt ↔
  len (suiteKeyMaterial_Key m) = 32 ∧ len (suiteKeyMaterial_Salt m) = 32 ∧
  SuiteCommitment (suiteKeyMaterial_PlaintextDigest m) (suiteKeyMaterial_Salt m)
  = Ok (suiteKeyMaterial_Commitment m).
Proof.
  unfold validateSuiteMaterial.
  destruct (_ || _) eqn:E.
  { split; [done|]. intros (H1 & H2 & _). rewrite H1, H2 in E. done. }
  bool_prop. destruct (SuiteCommitment _ _) as [d|]; [|naive_solver].
  destruct (String.eqb_spec d (suiteKeyMaterial_Commitment m)); naive_solver.
Qed.

Section Objects.
Context `{AeadLaws}.

Lemma seal_ok key p aad nonce ct : seal key p aad nonce = Ok ct ↔
  len key = 32 ∧ len nonce = 12 ∧ ct = "SLS1" +:+ nonce +:+ GcmSeal key nonce p aad.
Proof.
  unfold seal. destruct (_ || _) eqn:E.
  - split; [done|]. intros (H1 & H2 & _). rewrite H1, H2 in E. done.
  - bool_prop. naive_solver.
Qed.

Lemma seal_length key p aad nonce ct : seal key p aad nonce = Ok ct → len ct = len p + 32.
Proof.
  intros (_ & Hn & ->)%seal_ok. rewrite !len_app, seal_len, Hn. change (len "SLS1") with 4. lia.
Qed.

(** [OpenSecret] returns exactly the sealed texts of at most 2^30 bytes. *)
Lemma OpenSecret_ok key ct aad p : OpenSecret key ct aad = Ok p ↔
  (∃ nonce, seal key p aad nonce = Ok ct) ∧ len p + 32 ≤ 2 ^ 30.
Proof.
  unfold OpenSecret. change (Z.shiftl 1 30) with (2 ^ 30). split.
  - intros HR. ok_steps HR. bool_prop. simplify_eq.
    apply open_sealed in E. destruct (split_object ct) as [Hct Hn]; [lia|done|].
    assert (seal key p aad (slice 4 16 ct) = Ok ct) as HS.
    { apply seal_ok. rewrite <-E. by split_and!. }
    apply seal_length in HS as HL. split; [by eexists|lia].
  - intros [[nonce HS] Hl]. apply seal_length in HS as HL.
    apply seal_ok in HS as (Hk & Hn & ->). pose proof (len_nonneg p).
    destruct (_ || _) eqn:E.
    { repeat (apply orb_true_iff in E as [E|E]); bool_prop; [lia..|]. unfold HasPrefix in E.
      rewrite list_of_app, is_prefix_app in E. done. }
    by rewrite slice_nonce, slice_rest, open_seal.
Qed.

Lemma roles role : (role !=s "source") && (role !=s "disk") = false ↔ role = "source" ∨ role = "disk".
Proof.
  destruct (String.eqb_spec role "source"), (String.eqb_spec role "disk"); naive_solver.
Qed.

(** Decryption is exact: an object decrypts to a plaintext under a role exactly
    when it is that plaintext sealed under the suite's key for that role and
    commitment, within the size limit, and (for a source) the plaintext is the one
    the suite committed to. *)
Theorem DecryptSuiteObject_exact m ct role p :
  DecryptSuiteObject m ct role = Ok p ↔
  validateSuiteMaterial m = Ok tt ∧ (role = "source" ∨ role = "disk") ∧
  (∃ nonce, seal (suiteKeyMaterial_Key m) p (suite_aad m role) nonce = Ok ct) ∧
  len p + 32 ≤ 2 ^ 30 ∧ (role = "source" → DigestBytes p = suiteKeyMaterial_PlaintextDigest m).
Proof.
  unfold DecryptSuiteObject. destruct (validateSuiteMaterial m) as [[]|]; [|naive_solver].
  rewrite <-roles. destruct (_ && (role !=s "disk")) eqn:Er; [naive_solver|].
  transitivity (OpenSecret (suiteKeyMaterial_Key m) ct (suite_aad m role) = Ok p ∧
    (role = "source" → DigestBytes p = suiteKeyMaterial_PlaintextDigest m)).
  - destruct (OpenSecret _ _ _) as [q|]; [|naive_solver].
    destruct (String.eqb_spec role "source"), (String.eqb_spec (DigestBytes q)
      (suiteKeyMaterial_PlaintextDigest m)); simpl; naive_solver.
  - rewrite OpenSecret_ok. naive_solver.
Qed.

Lemma suite_nonce_length m p role : len (suite_nonce m p role) = 12.
Proof.
  unfold suite_nonce, of_bytes. rewrite len_string_of. unfold lenl.
  rewrite length_map, length_take. unfold HMAC. by rewrite Sum256_length.
Qed.

Lemma decrypt_encrypted m p role ct : EncryptSuiteObject m p role = Ok ct → len p + 32 ≤ 2 ^ 30 →
  (role = "source" → DigestBytes p = suiteKeyMaterial_PlaintextDigest m) →
  DecryptSuiteObject m ct role = Ok p.
Proof.
  unfold EncryptSuiteObject, DecryptSuiteObject. intros HE Hl Hd.
  destruct (validateSuiteMaterial m) as [[]|]; [|done].
  destruct (_ && (role !=s "disk")) eqn:Er; [done|]. ok_steps HE.
  rewrite (proj2 (OpenSecret_ok _ _ _ p)) by eauto.
  destruct (String.eqb_spec role "source") as [->|]; cbn [andb]; [|done].
  by rewrite Hd, String.eqb_refl.
Qed.

(** [EncryptSuiteObject] accepts plaintexts whose sealed form [OpenSecret] refuses:
    the two limits differ by the 32 bytes of framing. *)
Lemma encrypt_limit_exceeds_open m p role ct :
  EncryptSuiteObject m p role = Ok ct → 2 ^ 30 - 32 < len p →
  DecryptSuiteObject m ct role = Err "invalid encrypted object".
Proof.
  unfold EncryptSuiteObject, DecryptSuiteObject. intros HE Hl.
  destruct (validateSuiteMaterial m) as [[]|]; [|done].
  destruct (_ && (role !=s "disk")) eqn:Er; [done|]. ok_steps HE.
  apply seal_length in HE. unfold OpenSecret.
  change (Z.shiftl 1 30) with (2 ^ 30).
  destruct (_ || _) eqn:E; [done|]. bool_prop. lia.
Qed.

(** ** Nonces *)

(** The message whose keyed hash is the nonce of an object. *)
Definition nonce_input (m : SuiteKeyMaterial) (p : Bytes) (role : string) : list Z :=
  bytes_of (suite_aad m role) ++ Sum256 (bytes_of p).

(** The truncated keyed hash does not collide on the listed messages. *)
Definition nonce_free (m : SuiteKeyMaterial) (inputs : list (list Z)) : Prop :=
  ∀ x y, x ∈ inputs → y ∈ inputs →
    take 12 (HMAC (bytes_of (suiteKeyMaterial_Key m)) x)
    = take 12 (HMAC (bytes_of (suiteKeyMaterial_Key m)) y) → x = y.

Lemma bytes_of_app a b : bytes_of (a +:+ b) = bytes_of a ++ bytes_of b.
Proof. unfold bytes_of. by rewrite list_of_app, map_app. Qed.

Lemma of_bytes_inj a b : Forall (λ x, 0 ≤ x < 256) a → Forall (λ x, 0 ≤ x < 256) b →
  of_bytes a = of_bytes b → a = b.
Proof.
  intros Ha Hb E. apply (f_equal list_of) in E. unfold of_bytes in E.
  rewrite !list_of_string_of in E. revert b Hb E.
  induction Ha as [|x a Hx _ IH]; intros [|y b] Hb E; try done.
  apply Forall_cons in Hb as [Hy Hb]. simpl in E. injection E as E1 E2.
  f_equal; [|by apply IH]. apply (f_equal byte_val) in E1. by rewrite !byte_val_of in E1.
Qed.

Lemma HMAC_range key x : Forall (λ b, 0 ≤ b < 256) (HMAC key x).
Proof. apply Sum256_range. Qed.

Lemma suite_aad_role m r1 r2 : (r1 = "source" ∨ r1 = "disk") → (r2 = "source" ∨ r2 = "disk") →
  suite_aad m r1 = suite_aad m r2 → r1 = r2.
Proof. intros [->| ->] [->| ->]; [done|discriminate|discriminate|done]. Qed.

(** Within one suite no nonce is used for two different objects: equal nonces mean
    the same role and the same plaintext, unless the keyed hash collides on the two
    messages or SHA-256 on the two plaintexts. *)
Theorem suite_nonces_distinct m p1 p2 r1 r2 :
  (r1 = "source" ∨ r1 = "disk") → (r2 = "source" ∨ r2 = "disk") →
  nonce_free m [nonce_input m p1 r1; nonce_input m p2 r2] →
  collision_free [bytes_of p1; bytes_of p2] →
  suite_nonce m p1 r1 = suite_nonce m p2 r2 → p1 = p2 ∧ r1 = r2.
Proof.
  intros Hr1 Hr2 HN HC E. unfold suite_nonce in E.
  apply of_bytes_inj in E; [|by apply Forall_take, HMAC_range..].
  apply HN in E; [|by left|by right; left]. unfold nonce_input in E.
  apply app_inj_2 in E as [Ea Es]; [|by rewrite !Sum256_length].
  split; [|by eapply suite_aad_role, bytes_of_inj].
  apply bytes_of_inj, HC; [by left|by right; left|done].
Qed.
End Objects.

(** * Commitments *)

Lemma hex_digit_range c x : hex_digit c = Some x → 0 ≤ x < 16.
Proof.
  unfold hex_digit, GoLib.inr. intros Hx.
  repeat (destruct (_ && _) eqn:? in Hx; [bool_prop; simplify_eq; lia|]). done.
Qed.

Lemma hex_decode_shape l b : hex_decode l = Some b →
  length l = (2 * length b)%nat ∧ Forall (λ x, 0 ≤ x < 256) b.
Proof.
  revert b. induction l as [|c|c c' l IH] using list_two_ind; intros b Hd.
  - by injection Hd as <-.
  - done.
  - cbn [hex_decode] in Hd. destruct (hex_digit c) as [x|] eqn:E1; [|done].
    destruct (hex_digit c') as [y|] eqn:E2; [|done].
    destruct (hex_decode l) as [r|] eqn:E3; [|done]. injection Hd as <-.
    apply hex_digit_range in E1, E2. destruct (IH r eq_refl) as [Hl Hr]. cbn [length]. split; [lia|].
    constructor; [lia|done].
Qed.

Lemma ValidDigest_validDigest d : ValidDigest d = true → validDigest d false = true.
Proof.
  unfold ValidDigest, validDigest. cbn [andb]. destruct (_ || _) eqn:E; [done|]. bool_prop.
  destruct (hex_decode _) as [b|] eqn:Eb; [|done]. intros Hl%String.eqb_eq.
  apply hex_decode_shape in Eb as [Eb _]. rewrite length_drop, length_list_of in Eb.
  match goal with HL : len d = 71 |- _ => unfold len in HL end.
  apply andb_true_iff. split; [apply Z.eqb_eq; unfold lenl; lia|].
  by apply String.eqb_eq.
Qed.

Lemma leaf_bytes_range d : Forall (λ x, 0 ≤ x < 256) (leaf_bytes d).
Proof.
  unfold leaf_bytes. destruct (hex_decode _) as [b|] eqn:E; simpl; [|constructor].
  by apply hex_decode_shape in E as [_ Hr].
Qed.

Definition commitment_input (plaintextDigest : string) (salt : Bytes) : list Z :=
  bytes_of ("science-ladder-hidden-suite-v1" +:+ NUL +:+ salt +:+ of_bytes (leaf_bytes plaintextDigest)).

(** A suite commitment binds the plaintext digest and the salt, unless SHA-256
    collides on the two committed texts. *)
Theorem SuiteCommitment_binds d1 d2 salt1 salt2 c :
  SuiteCommitment d1 salt1 = Ok c → SuiteCommitment d2 salt2 = Ok c →
  collision_free [commitment_input d1 salt1; commitment_input d2 salt2] →
  d1 = d2 ∧ salt1 = salt2.
Proof.
  unfold SuiteCommitment. intros H1 H2 HC.
  destruct (negb (ValidDigest d1) || _) eqn:G1; [done|].
  destruct (negb (ValidDigest d2) || _) eqn:G2; [done|]. bool_prop.
  assert (DigestBytes ("science-ladder-hidden-suite-v1" +:+ NUL +:+ salt1 +:+ of_bytes (leaf_bytes d1))
    = DigestBytes ("science-ladder-hidden-suite-v1" +:+ NUL +:+ salt2 +:+ of_bytes (leaf_bytes d2))) as E.
  { exact (Ok_inj _ _ (eq_trans H1 (eq_sym H2))). }
  eapply DigestBytes_binds in E; [|exact HC|by left|by right; left].
  apply (inj (String.append _)), (inj (String.append _)) in E.
  apply (f_equal list_of) in E. rewrite !list_of_app in E. unfold len in *.
  apply app_inj_1 in E as [Es Ed]; [|rewrite !length_list_of; lia].
  apply list_of_inj in Es as ->. split; [|done]. apply list_of_inj in Ed.
  apply of_bytes_inj in Ed; [|apply leaf_bytes_range..].
  assert ([d1] = [d2]) as [= ->]; [|done].
  apply leaf_bytes_inj; [..|simpl; by rewrite Ed];
    constructor; try constructor; by apply ValidDigest_validDigest.
Qed.

(** * Capsules *)

Section Capsules.
Context `{AeadLaws} `{CurveLaws} `{JsonCanonicalizer} `{JsonType SuiteKeyMaterial} `{JsonType anyValue}.

Definition no_nul (s : string) : Prop := "000"%char ∉ list_of s.

Lemma HiddenSuiteContext_inj j1 j2 c1 c2 : no_nul j1 → no_nul j2 →
  HiddenSuiteContext j1 c1 = HiddenSuiteContext j2 c2 → j1 = j2 ∧ c1 = c2.
Proof.
  unfold HiddenSuiteContext, no_nul. intros Hn1 Hn2 E.
  apply (inj (String.append _)), (inj (String.append _)) in E.
  apply (f_equal list_of) in E. rewrite !list_of_app in E.
  change (list_of NUL) with ["000"%char] in E. cbn [app] in E.
  enough (list_of j1 = list_of j2 ∧ list_of c1 = list_of c2) as [?%list_of_inj ?%list_of_inj] by done.
  revert Hn1 Hn2 E. generalize (list_of j1) (list_of j2) (list_of c1) (list_of c2).
  induction l as [|a l IH]; intros [|b l0] k k0 Ha Hb E; simpl in E.
  - by simplify_eq.
  - injection E as <- _. destruct Hb. by left.
  - injection E as -> _. destruct Ha. by left.
  - injection E as -> E. apply IH in E as [-> ->]; [done|set_solver..].
Qed.

Lemma unwrap_context host capsule context m : UnwrapSuiteKey host capsule context = Ok m →
  keyCapsule_ContextDigest capsule = DigestBytes context ∧ validateSuiteMaterial m = Ok tt.
Proof.
  unfold UnwrapSuiteKey. intros HR. ok_steps HR. bool_prop. simplify_eq. by destruct r4.
Qed.

(** A capsule opens for one job and one suite: two hosts that unwrap it under the
    contexts of two jobs were given the same job and the same commitment, unless
    SHA-256 collides on the two contexts; what they obtain is consistent with its own
    commitment. *)
Theorem capsule_binds_job host1 host2 capsule job1 job2 c1 c2 m1 m2 :
  no_nul job1 → no_nul job2 →
  UnwrapSuiteKey host1 capsule (HiddenSuiteContext job1 c1) = Ok m1 →
  UnwrapSuiteKey host2 capsule (HiddenSuiteContext job2 c2) = Ok m2 →
  collision_free [bytes_of (HiddenSuiteContext job1 c1); bytes_of (HiddenSuiteContext job2 c2)] →
  job1 = job2 ∧ c1 = c2 ∧ validateSuiteMaterial m1 = Ok tt ∧ validateSuiteMaterial m2 = Ok tt.
Proof.
  intros Hn1 Hn2 [D1 V1]%unwrap_context [D2 V2]%unwrap_context HC. rewrite D1 in D2.
  eapply DigestBytes_binds in D2; [|exact HC|by left|by right; left].
  apply HiddenSuiteContext_inj in D2 as [-> ->]; done.
Qed.

(** The document of a valid material decodes to the material. *)
Class MaterialCodec : Prop := {
  material_codec (m : SuiteKeyMaterial) doc :
    validateSuiteMaterial m = Ok tt → Marshal m = Ok doc → DecodeStrict doc = Ok m;
  material_size (m : SuiteKeyMaterial) doc : validateSuiteMaterial m = Ok tt → Marshal m = Ok doc → len doc ≤ 4080 }.

Lemma unwrap_wrapped `{!MaterialCodec} host private ephemeral key nonce m context capsule :
  NewPrivateKey host = Ok private → NewPrivateKey key = Ok ephemeral →
  WrapSuiteKey (Ok ephemeral) nonce (PublicOf private) m context = Ok capsule →
  UnwrapSuiteKey host capsule context = Ok m.
Proof.
  intros Hpriv Heph HW. unfold WrapSuiteKey in HW. ok_steps HW. simplify_eq.
  destruct r. rewrite (public_parses _ _ Hpriv) in E0. simplify_eq.
  pose proof (material_size m r2 E E2) as Hsize.
  apply seal_length in E4 as Hlen. apply seal_ok in E4 as HS. destruct HS as (Hk & Hn & Hct).
  unfold UnwrapSuiteKey. cbn [keyCapsule_Algorithm keyCapsule_ContextDigest keyCapsule_Nonce
    keyCapsule_Ciphertext keyCapsule_EphemeralPublicKey].
  rewrite !String.eqb_refl, Hn. cbn [negb orb Z.eqb Pos.eqb].
  assert (slice 16 (String.length r4) r4 = GcmSeal (hkdfSuiteKey r1 context) r3 r2 context) as ->
    by (rewrite Hct; by apply slice_rest).
  rewrite seal_len. destruct (len r2 + 16 >? 4096) eqn:EB; bool_prop; [lia|].
  rewrite Hpriv, (public_parses _ _ Heph), ecdh_agrees, E1.
  rewrite <-Hct, (proj2 (OpenSecret_ok _ _ _ r2)); [|split; [by eexists|lia]].
  by rewrite (material_codec _ _ E E2), E.
Qed.

(** What [SealHiddenSuite] guarantees of its material. *)
Lemma sealed_suite rk rs plaintext ct m : SealHiddenSuite rk rs plaintext = Ok (ct, m) →
  ∃ canonical, Transform plaintext = Ok canonical ∧
    suiteKeyMaterial_PlaintextDigest m = DigestBytes canonical ∧
    EncryptSuiteObject m canonical "source" = Ok ct.
Proof.
  unfold SealHiddenSuite. intros HS. ok_steps HS. simplify_eq. eauto.
Qed.

(** C38: a hidden suite survives its whole journey: sealed by its author, its key
    wrapped for a host under a job's context and unwrapped by that host, the stored
    object decrypts to the canonical form of the document the author sealed. *)
Theorem hidden_suite_roundtrip `{!MaterialCodec} rk rs plaintext ct m
    host private key ephemeral nonce job capsule :
  SealHiddenSuite rk rs plaintext = Ok (ct, m) →
  (∀ canonical, Transform plaintext = Ok canonical → len canonical + 32 ≤ 2 ^ 30) →
  NewPrivateKey host = Ok private → NewPrivateKey key = Ok ephemeral →
  WrapSuiteKey (Ok ephemeral) nonce (PublicOf private) m
    (HiddenSuiteContext job (suiteKeyMaterial_Commitment m)) = Ok capsule →
  ∃ m' canonical,
    UnwrapSuiteKey host capsule (HiddenSuiteContext job (suiteKeyMaterial_Commitment m)) = Ok m' ∧
    Transform plaintext = Ok canonical ∧ DecryptSuiteObject m' ct "source" = Ok canonical.
Proof.
  intros HS Hsize Hp Hk HW. apply sealed_suite in HS as (canonical & HT & Hd & HE).
  exists m, canonical. split_and!; [by eapply unwrap_wrapped|done|].
  apply decrypt_encrypted; [done|by apply Hsize|done].
Qed.
End Capsules.
