(* ===== verification/History.v ===== *)
(** Delegated keys and release evidence: internal/audit/history.go and release.go. *)

From S2P Require Import Prelude Regex GoLib Numbers Types Paths Validate Sha256 GoJson Canonical.
From S2P Require Import Documents Signatures Checkpoint.
Open Scope Z_scope.

Record Delegation := mkDelegation {
  delegation_KeyID : string;
  delegation_PublicKeyPEM : string;
  delegation_Roles : list string;
  delegation_NotBefore : Time;
  delegation_NotAfter : Time;
  delegation_RevokedAt : option Time;
  delegation_HostID : string;
  delegation_Custody : string
}.

Record WitnessIdentity := mkWitnessIdentity {
  witnessIdentity_KeyID : string;
  witnessIdentity_Operator : string
}.

(** One epoch of the verified lineage; the [previous] pointers form a list, newest
    first, that no caller can change. *)
Record witnessMembership := mkWitnessMembership {
  wm_issuedAt : Time;
  wm_witnesses : list WitnessIdentity;
  wm_genesis : bool
}.

Record History := mkHistory {
  history_APIVersion : string;
  history_Kind : string;
  history_RootFingerprint : string;
  history_PreviousDigest : string;
  history_GenesisCheckpointDigest : string;
  history_IssuedAt : Time;
  history_Delegations : list Delegation;
  history_Witnesses : list WitnessIdentity;
  history_WitnessQuorum : Z;
  history_OutageGraceSeconds : Z;
  history_priorWitnesses : list witnessMembership
}.

(** encoding/pem and crypto/x509: the first block (type, bytes) with the rest of the
    text, and the P-256-or-other ECDSA key of a PKIX structure. *)
Class Pki `{Crypto} := {
  PemDecode : string → option (string * Bytes * string);
  ParsePKIX : Bytes → option PublicKey
}.

Definition has_role (roles : gmap string (gset string)) (id role : string) : bool :=
  bool_decide (role ∈ default ∅ (roles !! id)).

Definition set_revoked (d : Delegation) (at_ : option Time) : Delegation :=
  mkDelegation (delegation_KeyID d) (delegation_PublicKeyPEM d) (delegation_Roles d)
    (delegation_NotBefore d) (delegation_NotAfter d) at_ (delegation_HostID d) (delegation_Custody d).
Definition set_prior (h : History) (p : list witnessMembership) : History :=
  mkHistory (history_APIVersion h) (history_Kind h) (history_RootFingerprint h)
    (history_PreviousDigest h) (history_GenesisCheckpointDigest h) (history_IssuedAt h)
    (history_Delegations h) (history_Witnesses h) (history_WitnessQuorum h)
    (history_OutageGraceSeconds h) p.

Section History.
Context `{Crypto} `{!Pki} `{JsonCanonicalizer} `{JsonType History} `{JsonType Delegation}.

Definition ParsePublicKey (text : string) : result PublicKey :=
  match PemDecode text with
  | None => Err "exactly one public-key PEM is required"
  | Some (ty, bytes, rest) =>
      if (ty !=s "PUBLIC KEY") || (TrimSpace rest !=s "")
      then Err "exactly one public-key PEM is required" else
      match ParsePKIX bytes with
      | None => Err "P-256 public key required"
      | Some p => if IsP256 p then Ok p else Err "P-256 public key required"
      end
  end.

Definition fingerprint_of (key : PublicKey) : string :=
  match Fingerprint (Some key) with Ok f => f | Err _ => "" end.

(** * Verification *)

Definition role_step (seen : gset string) (role : string) : result (gset string) :=
  if negb (existsb (String.eqb role)
             ["control-plane-receipt"; "audit-checkpoint"; "validation-run"; "audit-witness"])
  then Err "unsupported delegated role" else
  if bool_decide (role ∈ seen) then Err "duplicate key role" else Ok ({[role]} ∪ seen).

(** One delegation; the state is the key identifiers, the fingerprints and the
    roles registered so far. *)
Definition delegation_step (issuedAt : Time)
    (st : gset string * gset string * gmap string (gset string)) (d : Delegation)
    : result (gset string * gset string * gmap string (gset string)) :=
  let '(keys, fingerprints, roles) := st in
  let! key := ParsePublicKey (delegation_PublicKeyPEM d) in
  let f := fingerprint_of key in
  let id := delegation_KeyID d in
  if (id ==s "") || bool_decide (id ∈ keys) || bool_decide (f ∈ fingerprints)
     || negb (Before (delegation_NotBefore d) (delegation_NotAfter d))
     || (delegation_Custody d ==s "") || (lenl (delegation_Roles d) =? 0)
  then Err "invalid or duplicate key delegation" else
  if match delegation_RevokedAt d with
     | Some r => Before r (delegation_NotBefore d) || After r issuedAt
     | None => false
     end
  then Err "invalid revocation effective time" else
  let! own := foldM role_step ∅ (delegation_Roles d) in
  if bool_decide ("validation-run" ∈ own)
     && ((delegation_HostID d ==s "") || negb (lenl (delegation_Roles d) =? 1))
  then Err "runner key must be bound to one host and validation-run role" else
  if bool_decide ("audit-witness" ∈ own) && negb (lenl (delegation_Roles d) =? 1)
  then Err "witness keys must have only the witness role" else
  Ok ({[id]} ∪ keys, {[f]} ∪ fingerprints, <[id := own]> roles).

Definition witness_step (roles : gmap string (gset string)) (st : gset string * gset string)
    (w : WitnessIdentity) : result (gset string * gset string) :=
  let '(operators, ids) := st in
  if (witnessIdentity_Operator w ==s "") || bool_decide (witnessIdentity_Operator w ∈ operators)
     || bool_decide (witnessIdentity_KeyID w ∈ ids)
     || negb (has_role roles (witnessIdentity_KeyID w) "audit-witness")
  then Err "three distinct independently operated witness keys required" else
  Ok ({[witnessIdentity_Operator w]} ∪ operators, {[witnessIdentity_KeyID w]} ∪ ids).

(** The check of one historical delegation against the new set. *)
Definition check_retained (current : gmap string Delegation) (old : Delegation) : result unit :=
  match current !! delegation_KeyID old with
  | None => Err "key history cannot discard historical delegations"
  | Some d =>
      if mustDigest (set_revoked old None) !=s mustDigest (set_revoked d None)
      then Err "existing delegation cannot be rewritten" else
      match delegation_RevokedAt old, delegation_RevokedAt d with
      | Some r, Some r' =>
          if TimeEqual r r' then Ok tt else Err "a revocation cannot be withdrawn or rewritten"
      | Some _, None => Err "a revocation cannot be withdrawn or rewritten"
      | None, _ => Ok tt
      end
  end.

Definition check_link (h : History) (previous : option History) : result unit :=
  match previous with
  | None => if history_PreviousDigest h !=s Genesis then Err "key-history bootstrap gap" else Ok tt
  | Some p =>
      if (history_PreviousDigest h !=s mustDigest p)
         || Before (history_IssuedAt h) (history_IssuedAt p)
         || (history_GenesisCheckpointDigest h !=s history_GenesisCheckpointDigest p)
         || (history_RootFingerprint h !=s history_RootFingerprint p)
      then Err "broken key-history chain" else Ok tt
  end.

Definition VerifyHistory (envelope : Envelope) (rootID : string) (root : PublicKey)
    (previous : option History) (now : Time) : result History :=
  let! b := Verify envelope {[rootID := root]} in
  let! decoded := DecodeStrict b in
  (* the unexported lineage is never decoded *)
  let h := set_prior decoded [] in
  let! fingerprint := Fingerprint (Some root) in
  if (history_APIVersion h !=s APIVersion) || (history_Kind h !=s "KeyHistory")
     || (history_RootFingerprint h !=s fingerprint) || IsZero (history_IssuedAt h)
     || After (history_IssuedAt h) (AddNs now (5 * Minute))
     || negb (validDigest (history_GenesisCheckpointDigest h) false)
     || negb (history_WitnessQuorum h =? 2) || negb (history_OutageGraceSeconds h =? 3600)
     || negb (lenl (history_Witnesses h) =? 3)
  then Err "key history violates pinned MVP bootstrap policy" else
  let! _ := check_link h previous in
  let! st := foldM (delegation_step (history_IssuedAt h)) (∅, {[fingerprint]}, ∅)
               (history_Delegations h) in
  let '(_, _, roles) := st in
  let! _ := foldM (witness_step roles) (∅, ∅) (history_Witnesses h) in
  match previous with
  | None => Ok h
  | Some p =>
      let current := foldl (λ m d, <[delegation_KeyID d := d]> m) ∅ (history_Delegations h) in
      let! _ := for_each (check_retained current) (history_Delegations p) in
      Ok (set_prior h
            (mkWitnessMembership (history_IssuedAt p) (history_Witnesses p)
               (history_PreviousDigest p ==s Genesis) :: history_priorWitnesses p))
  end.

(** * Queries *)

Definition delegation_active (d : Delegation) (at_ : Time) : bool :=
  negb (Before at_ (delegation_NotBefore d) || negb (Before at_ (delegation_NotAfter d))
        || match delegation_RevokedAt d with Some r => negb (Before at_ r) | None => false end).

Definition KeysAt (h : History) (role : string) (at_ : Time) : gmap string PublicKey :=
  foldl (λ keys d,
    if delegation_active d at_ && existsb (λ r, r ==s role) (delegation_Roles d) then
      match ParsePublicKey (delegation_PublicKeyPEM d) with
      | Ok key => <[delegation_KeyID d := key]> keys
      | Err _ => keys
      end
    else keys) ∅ (history_Delegations h).

Definition operators_of (l : list WitnessIdentity) : gmap string string :=
  foldl (λ m w, <[witnessIdentity_KeyID w := witnessIdentity_Operator w]> m) ∅ l.

Definition WitnessOperators (h : History) : gmap string string :=
  operators_of (history_Witnesses h).

(** The loop over the lineage, newest epoch first. *)
Fixpoint epoch_at (at_ issuedAt : Time) (witnesses : list WitnessIdentity) (genesis : bool)
    (previous : list witnessMembership) : gmap string string :=
  match previous with
  | p :: rest =>
      if Before at_ issuedAt
      then epoch_at at_ (wm_issuedAt p) (wm_witnesses p) (wm_genesis p) rest
      else operators_of witnesses
  | [] => if Before at_ issuedAt && negb genesis then ∅ else operators_of witnesses
  end.

Definition WitnessOperatorsAt (h : History) (at_ : Time) : gmap string string :=
  epoch_at at_ (history_IssuedAt h) (history_Witnesses h) (history_PreviousDigest h ==s Genesis)
    (history_priorWitnesses h).
End History.

Definition IntakeAllowed (lastQuorum now : Time) : bool :=
  negb (IsZero lastQuorum) && negb (After lastQuorum (AddNs now (5 * Minute)))
  && (Sub now lastQuorum <=? Hour).

(** * Release attestations *)

Record ReleaseEvidence := mkReleaseEvidence {
  releaseEvidence_Kind : string;
  releaseEvidence_Digest : string;
  releaseEvidence_URL : string;
  releaseEvidence_Assessor : string;
  releaseEvidence_CompletedAt : Time
}.

Record ReleaseAttestation := mkReleaseAttestation {
  releaseAttestation_APIVersion : string;
  releaseAttestation_Kind : string;
  releaseAttestation_SourceCommit : string;
  releaseAttestation_IssuedAt : Time;
  releaseAttestation_ExpiresAt : Time;
  releaseAttestation_KeyHistoryDigest : string;
  releaseAttestation_Evidence : list ReleaseEvidence
}.

Definition required_evidence : list string :=
  ["independent-security-review"; "database-restore-drill"; "key-rotation-drill";
   "runner-isolation-drill"; "witness-outage-and-fork-drill"; "external-invitation-pilot"].

Section Release.
Context `{Crypto} `{JsonCanonicalizer} `{UrlLib} `{JsonType ReleaseAttestation}.

(** The [required] map as the set of kinds already marked present. *)
Definition evidence_step (issuedAt : Time) (present : gset string) (ev : ReleaseEvidence)
    : result (gset string) :=
  let kind := releaseEvidence_Kind ev in
  if negb (existsb (String.eqb kind) required_evidence) || bool_decide (kind ∈ present)
  then Err "unknown or duplicate release evidence" else
  let! u := UrlParse (releaseEvidence_URL ev) or "incomplete release evidence" in
  let '(scheme, host, user) := u in
  if (scheme !=s "https") || (host ==s "") || user
     || negb (validDigest (releaseEvidence_Digest ev) false)
     || (releaseEvidence_Assessor ev ==s "") || IsZero (releaseEvidence_CompletedAt ev)
     || After (releaseEvidence_CompletedAt ev) issuedAt
  then Err "incomplete release evidence" else
  Ok ({[kind]} ∪ present).

Definition VerifyRelease (envelope : Envelope) (rootID : string) (root : PublicKey)
    (historyDigest sourceCommit : string) (now : Time) : result ReleaseAttestation :=
  let! b := Verify envelope {[rootID := root]} in
  let! r := DecodeStrict b in
  if (releaseAttestation_APIVersion r !=s APIVersion)
     || (releaseAttestation_Kind r !=s "OfficialReleaseAttestation")
     || (releaseAttestation_SourceCommit r !=s sourceCommit) || negb (len sourceCommit =? 40)
     || (releaseAttestation_KeyHistoryDigest r !=s historyDigest)
     || IsZero (releaseAttestation_IssuedAt r) || After (releaseAttestation_IssuedAt r) now
     || negb (Before now (releaseAttestation_ExpiresAt r))
  then Err "release attestation does not authorize this source, key history, or time" else
  let! present := foldM (evidence_step (releaseAttestation_IssuedAt r)) ∅
                    (releaseAttestation_Evidence r) in
  if negb (forallb (λ k, bool_decide (k ∈ present)) required_evidence)
  then Err "required independent release evidence missing" else Ok r.
End Release.
