(* ===== verification/Platform.v ===== *)
(** The rest of the platform's tables: the runner fleet (migrations/001, 002, 009, 013,
    014), the intake of submissions (001, 007, 016), sealed suites (008), and the
    configuration of the server.  [db] of Store.v keeps the tables adjudication uses;
    [pdb] adds these to it.

    A jsonb column the code decodes is stored decoded.  [now()] of a statement and
    [time.Now()] of the handler that runs it are one instant. *)

From S2P Require Import Prelude Regex GoLib Numbers Types Paths Sha256 GoJson Canonical Documents.
From S2P Require Import Signatures History Store.
From Stdlib Require Import Ascii.
Open Scope Z_scope.

(** * Rows *)

(** [Finding] of creation.go. *)
Record Finding := mkFinding {
  finding_Code : string;
  finding_Message : string;
  finding_Severity : string;
  finding_Source : string
}.

(** [json.RawMessage]: a document kept as its bytes. *)
Record RawMessage := Raw { raw_bytes : Bytes }.

(** runner_hosts *)
Record HostRow := mkHostRow {
  h_id : string;
  h_group : string;
  h_public_key : string;
  h_fingerprint : string;
  h_enabled : bool;
  h_purposes : list string;
  h_profile : string;
  h_encryption_key : string;
  h_advisory : string;
  h_inventory : string
}.

(** The fields [selectRunnerProfile] and [requireExecutor] decode of an enrollment
    template. *)
Record HostTemplate := mkHostTemplate {
  template_ExecutionProfileDigest : string;
  template_Capabilities : option ExecutorCapabilities
}.

(** runner_profiles joined with its runner_authorization_enrollments row; the two
    documents are what [json.Unmarshal] makes of them. *)
Record ProfileRow := mkProfileRow {
  pr_host : string;
  pr_profile : string;
  pr_capabilities : result ExecutorCapabilities;
  pr_advisory : string;
  pr_inventory : string;
  pr_enabled : bool;
  pr_enrolled : bool;
  pr_template : result HostTemplate
}.

(** runner_jobs; [payload] is the job last written to it. *)
Record JobRow := mkJobRow {
  j_purpose : string;
  j_version : string;
  j_submission : option string;
  j_preflight : option string;
  j_intent : option string;
  j_payload : RunnerJob;
  j_status : string;
  j_host : option string;
  j_excluded_group : option string;
  j_token : option string;
  j_fence : Z;
  j_lease : option Time;
  j_attempts : Z;
  j_created : Time
}.

(** runner_results *)
Record ResultRow := mkResultRow {
  res_host : string;
  res_digest : string;
  res_run : RunReceipt;
  res_created : Time
}.

(** runner_uploads *)
Record Upload := mkUpload { up_digest : string; up_size : Z; up_verified : bool }.

(** preflights *)
Record PreflightRow := mkPreflightRow {
  pf_version : string;
  pf_status : string;
  pf_findings : list Finding;
  pf_reports : option BuildReport;
  pf_receipt : option string
}.

(** locks: the document, and what [json.Unmarshal] makes of it. *)
Record LockRow := mkLockRow { lk_document : RawMessage; lk_decoded : result Lock }.

(** hidden_suites *)
Record SuiteRow := mkSuiteRow {
  su_id : string;
  su_owner : string;
  su_commitment : string;
  su_ciphertext : string;
  su_material : Bytes;
  su_revealed : option Time;
  su_receipt : option string
}.

(** artifacts, but for [public_at] (in [t_artifacts]). *)
Record BlobRow := mkBlobRow { bl_blob : string; bl_size : Z; bl_media : string; bl_owner : string }.

(** The columns of challenge_versions that are not in [Version], with the owner of the
    challenge it belongs to. *)
Record VersionRow := mkVersionRow {
  vr_challenge : string;
  vr_owner : string;
  vr_status : string;
  vr_review : string;
  vr_intake : string;
  vr_badges : list string;
  vr_lock : option string;
  vr_deadline : Time;
  vr_source : string;
  vr_predecessor : option string;
  vr_transition : string
}.

Definition version_status (x : string) (v : VersionRow) : VersionRow :=
  mkVersionRow (vr_challenge v) (vr_owner v) x (vr_review v) (vr_intake v) (vr_badges v) (vr_lock v)
    (vr_deadline v) (vr_source v) (vr_predecessor v) (vr_transition v).
Definition version_review (x : string) (v : VersionRow) : VersionRow :=
  mkVersionRow (vr_challenge v) (vr_owner v) (vr_status v) x (vr_intake v) (vr_badges v) (vr_lock v)
    (vr_deadline v) (vr_source v) (vr_predecessor v) (vr_transition v).
Definition version_intake (x : string) (v : VersionRow) : VersionRow :=
  mkVersionRow (vr_challenge v) (vr_owner v) (vr_status v) (vr_review v) x (vr_badges v) (vr_lock v)
    (vr_deadline v) (vr_source v) (vr_predecessor v) (vr_transition v).
Definition version_badges (x : list string) (v : VersionRow) : VersionRow :=
  mkVersionRow (vr_challenge v) (vr_owner v) (vr_status v) (vr_review v) (vr_intake v) x (vr_lock v)
    (vr_deadline v) (vr_source v) (vr_predecessor v) (vr_transition v).

(** [IntentRequest] of submissions.go. *)
Record IntentRequest := mkIntentRequest {
  intentRequest_AdmissionTicket : string;
  intentRequest_VersionID : string;
  intentRequest_Repository : string;
  intentRequest_Ref : string;
  intentRequest_PreviewDigest : string;
  intentRequest_ParentFrontierDigest : string;
  intentRequest_License : string;
  intentRequest_Attribution : list (string * JsonScalar);
  intentRequest_Publish : bool
}.

(** submission_intents, without the repository_id nothing reads *)
Record IntentRow := mkIntentRow {
  in_version : string;
  in_owner : string;
  in_repository : string;
  in_ref : string;
  in_commit : string;
  in_artifact : string;
  in_disk : string;
  in_status : string;
  in_request : IntentRequest;
  in_findings : list Finding;
  in_submission : option string
}.

(** validation_grants *)
Record GrantRow := mkGrantRow {
  gr_owner : string;
  gr_version : string;
  gr_artifact : string;
  gr_class : string;
  gr_status : string
}.

(** The columns of submissions that are not in [Submission]. *)
Record EntryRow := mkEntryRow {
  en_intent : string;
  en_grant : string;
  en_salt : string;
  en_attribution : list (string * JsonScalar);
  en_created : Time
}.

(** frontier_tickets *)
Record TicketRow := mkTicketRow {
  tk_owner : string;
  tk_version : string;
  tk_repository : string;
  tk_ref : string;
  tk_artifact : string;
  tk_claim : FrontierClaim;
  tk_frontier : string;
  tk_created : Time;
  tk_expires : Time;
  tk_consumed : option Time;
  tk_intent : option string
}.

(** [MetricAssessment] of metric_review.go. *)
Record MetricAssessment := mkMetricAssessment {
  assessment_Decision : string;
  assessment_ScientificConnection : string;
  assessment_PreservedConditions : string;
  assessment_ShortcutAnalysis : string;
  assessment_ClaimScope : string
}.

(** editorial_decisions *)
Record DecisionRow := mkDecisionRow {
  dc_id : string;
  dc_version : string;
  dc_editor : string;
  dc_action : string;
  dc_reason : string
}.

(** review_runs: of the report, the manifest digest it binds and the decision of its
    metric assessment. *)
Record ReviewRow := mkReviewRow {
  rv_id : string;
  rv_version : string;
  rv_kind : string;
  rv_status : string;
  rv_manifest : string;
  rv_decision : string;
  rv_digest : string;
  rv_created : Time
}.

(** scientific_review_requests *)
Record RequestRow := mkRequestRow {
  rq_version : string;
  rq_owner : string;
  rq_reason : string;
  rq_status : string;
  rq_review : option string
}.

(** audit_checkpoints, by identifier: what admission reads of them. *)
Record CheckpointRow := mkCheckpointRow {
  ck_digest : string;
  ck_issued : Time;
  ck_verified : option Time
}.

(** candidates: [ca_document] is what [json.Unmarshal] makes of the document. *)
Record CandidateRow := mkCandidateRow {
  ca_owner : string;
  ca_digest : string;
  ca_document : result Candidate;
  ca_status : string;
  ca_findings : list Finding
}.

(** idempotency: the request hash, and the status and response of a finished request. *)
Record IdemRow := mkIdemRow { id_hash : string; id_response : option (Z * string) }.

(** * The database *)

Record fleet := mkFleet {
  f_jobs : gmap string JobRow;
  f_results : gmap string ResultRow;
  f_uploads : gmap (string * string) Upload;
  f_preflights : gmap string PreflightRow;
  f_seen : gmap string Time
}.

(** [i_budgets] is preparation_budgets, by owner and day. *)
Record intake := mkIntake {
  i_versions : gmap string VersionRow;
  i_intents : gmap string IntentRow;
  i_grants : gmap string GrantRow;
  i_entries : gmap string EntryRow;
  i_tickets : gmap string TicketRow;
  i_budgets : gmap (string * Z) Z;
  i_blobs : gmap string BlobRow
}.

(** [d_idempotency] is keyed by user and key. *)
Record desk := mkDesk {
  d_decisions : list DecisionRow;
  d_reviews : list ReviewRow;
  d_requests : gmap string RequestRow;
  d_candidates : gmap string CandidateRow;
  d_idempotency : gmap (string * string) IdemRow
}.

(** The tables that requests of solvers and runners only read: enrolled hosts and profiles,
    locks (which [store_lock] writes), sealed suites, the roles of the users,
    [capacity.maximum_units] and the checkpoints in order of identifier. *)
Record registry := mkRegistry {
  g_hosts : list HostRow;
  g_profiles : list ProfileRow;
  g_locks : gmap string LockRow;
  g_suites : list SuiteRow;
  g_roles : gmap string string;
  g_maximum_units : Z;
  g_checkpoints : list CheckpointRow
}.

Record pdb := mkPdb {
  p_core : db;
  p_fleet : fleet;
  p_intake : intake;
  p_desk : desk;
  p_registry : registry
}.

Definition fleet_jobs (x : fleet) v : fleet := mkFleet v (f_results x) (f_uploads x) (f_preflights x) (f_seen x).
Definition fleet_results (x : fleet) v : fleet := mkFleet (f_jobs x) v (f_uploads x) (f_preflights x) (f_seen x).
Definition fleet_uploads (x : fleet) v : fleet := mkFleet (f_jobs x) (f_results x) v (f_preflights x) (f_seen x).
Definition fleet_preflights (x : fleet) v : fleet := mkFleet (f_jobs x) (f_results x) (f_uploads x) v (f_seen x).
Definition fleet_seen (x : fleet) v : fleet := mkFleet (f_jobs x) (f_results x) (f_uploads x) (f_preflights x) v.
Definition intake_versions (x : intake) v : intake := mkIntake v (i_intents x) (i_grants x) (i_entries x) (i_tickets x) (i_budgets x) (i_blobs x).
Definition intake_intents (x : intake) v : intake := mkIntake (i_versions x) v (i_grants x) (i_entries x) (i_tickets x) (i_budgets x) (i_blobs x).
Definition intake_grants (x : intake) v : intake := mkIntake (i_versions x) (i_intents x) v (i_entries x) (i_tickets x) (i_budgets x) (i_blobs x).
Definition intake_entries (x : intake) v : intake := mkIntake (i_versions x) (i_intents x) (i_grants x) v (i_tickets x) (i_budgets x) (i_blobs x).
Definition intake_tickets (x : intake) v : intake := mkIntake (i_versions x) (i_intents x) (i_grants x) (i_entries x) v (i_budgets x) (i_blobs x).
Definition intake_budgets (x : intake) v : intake := mkIntake (i_versions x) (i_intents x) (i_grants x) (i_entries x) (i_tickets x) v (i_blobs x).
Definition intake_blobs (x : intake) v : intake := mkIntake (i_versions x) (i_intents x) (i_grants x) (i_entries x) (i_tickets x) (i_budgets x) v.

Definition desk_decisions (x : desk) v : desk := mkDesk v (d_reviews x) (d_requests x) (d_candidates x) (d_idempotency x).
Definition desk_reviews (x : desk) v : desk := mkDesk (d_decisions x) v (d_requests x) (d_candidates x) (d_idempotency x).
Definition desk_requests (x : desk) v : desk := mkDesk (d_decisions x) (d_reviews x) v (d_candidates x) (d_idempotency x).
Definition desk_candidates (x : desk) v : desk := mkDesk (d_decisions x) (d_reviews x) (d_requests x) v (d_idempotency x).
Definition desk_idempotency (x : desk) v : desk := mkDesk (d_decisions x) (d_reviews x) (d_requests x) (d_candidates x) v.

Definition with_core (s : pdb) (d : db) : pdb := mkPdb d (p_fleet s) (p_intake s) (p_desk s) (p_registry s).
Definition with_fleet (s : pdb) (f : fleet) : pdb := mkPdb (p_core s) f (p_intake s) (p_desk s) (p_registry s).
Definition with_intake (s : pdb) (i : intake) : pdb := mkPdb (p_core s) (p_fleet s) i (p_desk s) (p_registry s).
Definition with_desk (s : pdb) (d : desk) : pdb := mkPdb (p_core s) (p_fleet s) (p_intake s) d (p_registry s).

Definition set_rjobs (s : pdb) v := with_fleet s (fleet_jobs (p_fleet s) v).
Definition set_results (s : pdb) v := with_fleet s (fleet_results (p_fleet s) v).
Definition set_uploads (s : pdb) v := with_fleet s (fleet_uploads (p_fleet s) v).
Definition set_preflights (s : pdb) v := with_fleet s (fleet_preflights (p_fleet s) v).
Definition set_seen (s : pdb) v := with_fleet s (fleet_seen (p_fleet s) v).
Definition set_version_rows (s : pdb) v := with_intake s (intake_versions (p_intake s) v).
Definition set_intents (s : pdb) v := with_intake s (intake_intents (p_intake s) v).
Definition set_grants (s : pdb) v := with_intake s (intake_grants (p_intake s) v).
Definition set_entries (s : pdb) v := with_intake s (intake_entries (p_intake s) v).
Definition set_tickets (s : pdb) v := with_intake s (intake_tickets (p_intake s) v).
Definition set_budgets (s : pdb) v := with_intake s (intake_budgets (p_intake s) v).
Definition set_blobs (s : pdb) v := with_intake s (intake_blobs (p_intake s) v).

Definition set_decisions (s : pdb) v := with_desk s (desk_decisions (p_desk s) v).
Definition set_reviews (s : pdb) v := with_desk s (desk_reviews (p_desk s) v).
Definition set_requests (s : pdb) v := with_desk s (desk_requests (p_desk s) v).
Definition set_candidates (s : pdb) v := with_desk s (desk_candidates (p_desk s) v).
Definition set_idempotency (s : pdb) v := with_desk s (desk_idempotency (p_desk s) v).

Definition rjobs (s : pdb) := f_jobs (p_fleet s).
Definition results (s : pdb) := f_results (p_fleet s).
Definition submissions (s : pdb) := t_submissions (p_core s).

(** * The server *)

(** [User]: the fields the handlers read. *)
Record User := mkUser { user_ID : string; user_Login : string; user_Role : string }.

Section Server.
Context `{Crypto}.

(** The fields of [Server] and [Config] that the modelled handlers read. *)
Record Server := mkServer {
  s_DeploymentMode : string;
  s_ActiveLimit : Z;
  s_OperatorPreparationDailyLimit : Z;
  s_ReceiptKeyID : string;
  s_signer : option Signer;
  s_TrustHistory : option History;
  s_Store : bool;
  s_ReceiptKMSKeyID : string;
  s_RootKeyID : string;
  s_TrustedRootKey : PublicKey;
  s_ReleaseEnvelope : option Envelope;
  s_SourceCommit : string
}.
End Server.

(** Immutable object storage (internal/storage) as the handlers use it. *)
Class ObjectStore := {
  SignedRead : string → Z → result string;
  SignedWrite : string → Z → Z → result string;
  StoreVerify : string → Z → result unit
}.

Definition production : string := "production".

(** [hash]: the hexadecimal SHA-256 of a token. *)
Definition hash (s : string) : string := hex_encode (Sum256 (bytes_of s)).

(** UPDATE one row by key. *)
Definition update {A} (f : A → A) (k : string) (m : gmap string A) : gmap string A := alter f k m.
