(* ===== verification/Preparation.v ===== *)
(** Preparation builds: preparation.go (queueing, uploads, [validateBuild],
    [commitBuild]) and assurance.go ([validateFixtureEvidence]), with the host key and
    delegation checks of runners.go they share with the runner service. *)

From S2P Require Import Prelude Regex GoLib Numbers Types Scores Paths Measurement Evaluation.
From S2P Require Import Validate Sha256 GoJson Canonical Documents Results Signatures Checkpoint History.
From S2P Require Import Store Platform.
From Stdlib Require Import Ascii.
Open Scope Z_scope.

(** [runnerIdentity] *)
Record runnerIdentity := mkIdentity {
  host_ID : string;
  host_Group : string;
  host_PublicKey : string;
  host_ExecutionProfile : string;
  host_EncryptionKey : string;
  host_AdvisorySnapshotDigest : string;
  host_RuntimeInventoryDigest : string;
  host_Purposes : list string;
  host_Capabilities : option ExecutorCapabilities
}.

Definition isBuild (job : RunnerJob) : bool :=
  (runnerJob_Purpose job ==s "preflight") || (runnerJob_Purpose job ==s "artifact_prepare").

Definition is_performance (m : Manifest) : bool :=
  match manifest_Evaluation m with
  | Some e => evaluationContract_Mode e ==s "performance"
  | None => false
  end.

(** Every locked gate is present and passed. *)
Definition gates_pass (gates : gmap string bool) (m : Manifest) : bool :=
  (Z.of_nat (size gates) =? lenl (manifest_HardGates m))
  && forallb (λ g, default false (gates !! g)) (manifest_HardGates m).

(** The fields of a run that [Receipt] shares, as the receipts table is read back. *)
Definition run_as_receipt (run : RunReceipt) : Receipt := {|
  receipt_VerificationPolicy := runReceipt_VerificationPolicy run;
  receipt_VerificationStatus := "";
  receipt_DeploymentMode := runReceipt_DeploymentMode run;
  receipt_OfficialAcceptance := runReceipt_OfficialAcceptance run;
  receipt_APIVersion := runReceipt_APIVersion run;
  receipt_Kind := runReceipt_Kind run;
  receipt_ID := runReceipt_ID run;
  receipt_CreatedAt := runReceipt_CreatedAt run;
  receipt_Producer := runReceipt_Producer run;
  receipt_SubjectDigest := "";
  receipt_EconomicMode := "";
  receipt_Data := ∅ |}.

(** INSERT INTO receipts ... ON CONFLICT DO NOTHING *)
Definition insert_receipt (d : db) (digest : string) (r : ReceiptRow) : db :=
  match t_receipts d !! digest with
  | Some _ => d
  | None => set_receipts d (<[digest := r]> (t_receipts d))
  end.

Section Keys.
Context `{Crypto} `{!Pki}.

Definition parseRunnerKey (text : string) : result PublicKey :=
  match PemDecode text with
  | None => Err "runner public key invalid"
  | Some (_, bytes, _) =>
      match ParsePKIX bytes with Some key => Ok key | None => Err "x509: failed to parse public key" end
  end.

Definition verifyHostDelegation (sv : Server) (host : runnerIdentity) (at_ : Time) : result unit :=
  if s_DeploymentMode sv !=s production then Ok tt else
  match s_TrustHistory sv with
  | None => Err "runner_delegation_missing"
  | Some history =>
      let! key := parseRunnerKey (host_PublicKey host) in
      let! actual := Fingerprint (Some key) in
      let permitted := KeysAt history "validation-run" at_ in
      let! want := Fingerprint (permitted !! host_ID host) or "runner_delegation_invalid" in
      if want !=s actual then Err "runner_delegation_invalid" else
      if existsb (λ d, (delegation_KeyID d ==s host_ID host) && (delegation_HostID d ==s host_ID host))
           (history_Delegations history)
      then Ok tt else Err "runner_host_binding_invalid"
  end.
End Keys.

Section Builds.
Context `{Env} `{UnicodeLib} `{JsonCanonicalizer} `{JsonType Manifest} `{JsonType ValidatorResult}.

(** ** Fixtures of a build report *)

Definition fixture_map_step (fixtures : gmap string FixtureReport) (f : FixtureReport)
    : result (gmap string FixtureReport) :=
  if bool_decide (is_Some (fixtures !! fixtureReport_Name f)) then Err "fixture_duplicate" else
  Ok (<[fixtureReport_Name f := f]> fixtures).

Definition check_build_fixture (fixtures : gmap string FixtureReport) (f : Fixture) : result unit :=
  match fixtures !! fixture_Name f with
  | None => Err "fixture_failed"
  | Some actual =>
      if negb (fixtureReport_Passed actual)
         || (fixtureReport_ExpectedOutcome actual !=s fixture_ExpectedOutcome f)
         || (fixtureReport_Outcome actual !=s fixture_ExpectedOutcome f)
      then Err "fixture_failed" else
      if (fixture_ExpectedTicks f !=s "") && (fixtureReport_ScoreTicks actual !=s fixture_ExpectedTicks f)
      then Err "fixture_score_mismatch" else Ok tt
  end.

(** ** The vulnerability scan *)

Definition scan_policy (job : RunnerJob) (policy : string) : bool :=
  (policy ==s "offline-advisory-v1")
  || (manifest_APIVersion (runnerJob_Manifest job) ==s ManifestV2)
     && (validator_Profile (manifest_Validator (runnerJob_Manifest job)) ==s "native-evaluator-v2")
     && (policy ==s "offline-advisory-domains-v2").

Definition check_scan (job : RunnerJob) (b : BuildReport) : result VulnerabilityScan :=
  match buildReport_SBOM b, buildReport_VulnerabilityScan b with
  | Some sbom, Some scan =>
      if (vulnerabilityScan_Status scan !=s "pass")
         || negb (scan_policy job (vulnerabilityScan_PolicyVersion scan))
         || (vulnerabilityScan_PackagesChecked scan <? 1)
         || (vulnerabilityScan_AdvisorySnapshotDigest scan !=s runnerJob_AdvisorySnapshotDigest job)
         || (vulnerabilityScan_RuntimeInventoryDigest scan !=s runnerJob_RuntimeInventoryDigest job)
         || (vulnerabilityScan_SBOMDigest scan !=s objectRef_Digest sbom)
         || negb (ValidDigest (vulnerabilityScan_AdvisorySnapshotDigest scan))
         || negb (ValidDigest (vulnerabilityScan_RuntimeInventoryDigest scan))
         || After (vulnerabilityScan_ScannedAt scan) (AddNs Now (5 * Minute))
         || Before (vulnerabilityScan_ScannedAt scan) (AddNs Now (- (7 * 24 * Hour)))
      then Err "vulnerability_scan_required" else Ok scan
  | _, _ => Err "vulnerability_scan_required"
  end.

Definition separated_toolchain (m : Manifest) : bool :=
  match manifest_Evaluation m with
  | None => false
  | Some e => existsb (λ f, f ==s "separated-toolchain")
                (executorRequirements_Features (evaluationContract_Executor e))
  end.

Definition check_finding (scan : VulnerabilityScan) (separated : bool) (finding : VulnerabilityFinding)
    : result unit :=
  if vulnerabilityFinding_Disposition finding !=s "" then
    if (vulnerabilityFinding_Disposition finding !=s "isolated-candidate-only")
       || (vulnerabilityScan_PolicyVersion scan !=s "offline-advisory-domains-v2") || negb separated
    then Err "vulnerability_domain_unbound" else Ok tt
  else if member (vulnerabilityFinding_Severity finding) ["high"; "critical"; "unknown"]
  then Err "vulnerability_policy_failed" else Ok tt.

(** ** The build report *)

Definition reproducible (job : RunnerJob) (b : BuildReport) : bool :=
  let suite := manifest_Suite (runnerJob_Manifest job) in
  match buildReport_ValidatorDisk b, buildReport_ChallengeDisk b, buildReport_SuiteDisk b with
  | Some validator, Some _, Some suiteDisk =>
      (objectRef_Digest validator ==s buildReport_ValidatorDiskDigest b)
      && negb ((suite_Visibility suite ==s "public")
               && (objectRef_Digest suiteDisk !=s buildReport_SuiteDigest b))
      && negb ((suite_Visibility suite ==s "hidden")
               && (buildReport_SuiteDigest b !=s suite_Commitment suite))
      && (buildReport_ValidatorDiskDigest b ==s buildReport_RebuiltValidatorDiskDigest b)
      && buildReport_OfflineRebuild b && buildReport_HostileCorpusPassed b
  | _, _, _ => false
  end.

Definition validateBuild (job : RunnerJob) (run : RunReceipt) : result unit :=
  match runReceipt_BuildReport run with
  | None => Err "conformance_failed"
  | Some b =>
      if negb (buildReport_Passed b) || negb (buildReport_ScansPassed b) then Err "conformance_failed" else
      let! md := Digest (runnerJob_Manifest job) in
      match runnerJob_SourceSnapshot job with
      | None => Err "build_bindings_invalid"
      | Some source =>
          if (buildReport_ManifestDigest b !=s md)
             || (buildReport_SourceSnapshotDigest b !=s objectRef_Digest source)
             || (buildReport_ExecutionProfileDigest b !=s runnerJob_ExecutionProfileDigest job)
          then Err "build_bindings_invalid" else
          if runnerJob_Purpose job ==s "artifact_prepare" then
            match buildReport_SubmissionDisk b with
            | None => Err "submission_disk_missing"
            | Some disk => if objectRef_Digest disk ==s "" then Err "submission_disk_missing" else Ok tt
            end
          else
          if negb (reproducible job b) then Err "reproducibility_failed" else
          if buildReport_ValidatorImageDigest b
             !=s validator_RuntimeImageDigest (manifest_Validator (runnerJob_Manifest job))
          then Err "runtime_image_mismatch" else
          let! scan := check_scan job b in
          let! _ := for_each (check_finding scan (separated_toolchain (runnerJob_Manifest job)))
                      (vulnerabilityScan_Findings scan) in
          let! fixtures := foldM fixture_map_step ∅ (buildReport_Fixtures b) in
          for_each (check_build_fixture fixtures) (manifest_Fixtures (runnerJob_Manifest job))
      end
  end.
End Builds.

(** * Fixture evidence (assurance.go) *)

Section Fixtures.
Context `{Crypto} `{!Pki} `{UnicodeLib} `{JsonCanonicalizer}.
Context `{JsonType ValidatorResult} `{JsonType RunnerJob} `{JsonType RunReceipt}.

(** The variables carried across attempts: the jobs and receipts seen, and [total]. *)
Record evidence := mkEvidence { ev_jobs : gset string; ev_receipts : gset string; ev_total : Z }.

(** The variables of one fixture: the artifact of its first attempt, and its runs. *)
Record attempts := mkAttempts { at_evidence : evidence; at_artifact : string; at_runs : list RunReceipt }.

Definition attempt_identity (job : RunnerJob) (parent : RunReceipt) (ev : evidence) (run : RunReceipt) : bool :=
  (runReceipt_APIVersion run ==s APIVersion) && (runReceipt_Kind run ==s "ValidationRunReceipt")
  && runReceipt_Official run && runReceipt_CleanupAttested run
  && (runReceipt_ID run !=s "") && (runReceipt_JobID run !=s "")
  && (runReceipt_ID run !=s runReceipt_ID parent) && (runReceipt_JobID run !=s runnerJob_ID job)
  && negb (bool_decide (runReceipt_JobID run ∈ ev_jobs ev))
  && negb (bool_decide (runReceipt_ID run ∈ ev_receipts ev)).

Definition attempt_bindings (job : RunnerJob) (parent : RunReceipt) (b : BuildReport)
    (host : runnerIdentity) (parentDigest : string) (run : RunReceipt) : bool :=
  (runReceipt_ParentJobDigest run ==s parentDigest)
  && (runReceipt_HostID run ==s host_ID host) && (runReceipt_HostGroup run ==s host_Group host)
  && (runReceipt_VerificationPolicy run ==s runnerJob_VerificationPolicy job)
  && (runReceipt_DeploymentMode run ==s runnerJob_DeploymentMode job)
  && Bool.eqb (runReceipt_OfficialAcceptance run) (runnerJob_OfficialAcceptance job)
  && (runReceipt_ExecutionProfileDigest run ==s runnerJob_ExecutionProfileDigest job)
  && (runReceipt_RunnerEpoch run ==s runnerJob_RunnerEpoch job)
  && (runReceipt_FencingToken run =? runnerJob_FencingToken job)
  && (runReceipt_ChallengeLockDigest run ==s runnerJob_ChallengeLockDigest job)
  && (runReceipt_SuiteDigest run ==s buildReport_SuiteDigest b)
  && negb (Before (runReceipt_CreatedAt run) (runnerJob_CreatedAt job))
  && negb (After (runReceipt_CreatedAt run) (runReceipt_CreatedAt parent))
  && ValidDigest (runReceipt_JobDigest run) && ValidDigest (runReceipt_ArtifactDigest run).

(** One signed attempt of a fixture. *)
Definition attempt_step (job : RunnerJob) (parent : RunReceipt) (b : BuildReport) (host : runnerIdentity)
    (key : PublicKey) (parentDigest : string) (fixture : FixtureReport) (st : attempts)
    (envelope : Envelope) : result attempts :=
  let ev := at_evidence st in
  let! payload := Verify envelope {[host_ID host := key]} or "fixture_signature_invalid" in
  let! run := DecodeStrict (A := RunReceipt) payload in
  if negb (attempt_identity job parent ev run) then Err "fixture_attempt_invalid" else
  if negb (attempt_bindings job parent b host parentDigest run) then Err "fixture_bindings_invalid" else
  if (runReceipt_Outcome run !=s fixtureReport_Outcome fixture)
     || negb (is_performance (runnerJob_Manifest job))
        && (runReceipt_ScoreTicks run !=s fixtureReport_ScoreTicks fixture)
     || (at_artifact st !=s "") && (at_artifact st !=s runReceipt_ArtifactDigest run)
  then Err "fixture_repeat_disagreement" else
  if (runReceipt_Outcome run ==s "valid") && negb (gates_pass (runReceipt_Gates run) (runnerJob_Manifest job))
  then Err "fixture_gates_invalid" else
  let! _ := ValidateRunMeasurementEvidence run (runnerJob_Manifest job) in
  Ok (mkAttempts
    (mkEvidence ({[runReceipt_JobID run]} ∪ ev_jobs ev) ({[runReceipt_ID run]} ∪ ev_receipts ev)
       (ev_total ev + 1))
    (runReceipt_ArtifactDigest run) (at_runs st ++ [run])).

(** The last manifest fixture of the name. *)
Definition declared_fixture (m : Manifest) (name : string) : option Fixture :=
  foldl (λ declared f, if fixture_Name f ==s name then Some f else declared) None (manifest_Fixtures m).

Definition check_measured_fixture (m : Manifest) (fixture : FixtureReport) (runs : list RunReceipt)
    : result unit :=
  if negb (is_performance m) then Ok tt else
  match declared_fixture m (fixtureReport_Name fixture), runs with
  | Some declared, [a; b] =>
      let! score := ValidateMeasuredFixture a b m declared or "measured_fixture_invalid" in
      if score !=s fixtureReport_ScoreTicks fixture then Err "measured_fixture_invalid" else Ok tt
  | _, _ => Err "measured_fixture_missing"
  end.

Definition parsed_only (fixture : FixtureReport) : bool :=
  (fixtureReport_Stage fixture ==s "artifact_parser") && (fixtureReport_Name fixture !=s "baseline")
  && (fixtureReport_Name fixture !=s "valid") && (fixtureReport_Outcome fixture ==s "invalid_output")
  && (fixtureReport_FreshVMRuns fixture =? 0) && (lenl (fixtureReport_RunReceipts fixture) =? 0).

Definition fixture_evidence_step (job : RunnerJob) (parent : RunReceipt) (b : BuildReport)
    (host : runnerIdentity) (key : PublicKey) (parentDigest : string) (ev : evidence)
    (fixture : FixtureReport) : result evidence :=
  if parsed_only fixture then Ok ev else
  if (fixtureReport_Stage fixture !=s "isolated_execution") || negb (fixtureReport_FreshVMRuns fixture =? 2)
     || negb (lenl (fixtureReport_RunReceipts fixture) =? 2)
  then Err "fixture_repeat_evidence_required" else
  let! st := foldM (attempt_step job parent b host key parentDigest fixture) (mkAttempts ev "" [])
    (fixtureReport_RunReceipts fixture) in
  let! _ := check_measured_fixture (runnerJob_Manifest job) fixture (at_runs st) in
  Ok (at_evidence st).

Definition validateFixtureEvidence (job : RunnerJob) (parent : RunReceipt) (host : runnerIdentity)
    : result unit :=
  let! key := parseRunnerKey (host_PublicKey host) in
  let! parentDigest := Digest job in
  match runReceipt_BuildReport parent with
  | None => Err nil_panic
  | Some b =>
      let! ev := foldM (fixture_evidence_step job parent b host key parentDigest)
        (mkEvidence ∅ ∅ 0) (buildReport_Fixtures b) in
      if (ev_total ev <? 4) || negb (buildReport_FreshVMRuns b =? ev_total ev)
      then Err "fixture_repeat_count_invalid" else Ok tt
  end.
End Fixtures.

(** * Queueing and uploads (preparation.go) *)

Section Uploads.
Context `{Env} `{Crypto} `{ObjectStore}.

Definition empty_ref : ObjectRef := mkObjectRef "" 0 "".

(** The fields [queuePreparation] sets; the others are the zero values. *)
Definition preparation_job (sv : Server) (id purpose source artifact : string) (m : Manifest)
    : RunnerJob := {|
  runnerJob_ParentJobDigest := ""; runnerJob_VerificationPolicy := ManifestVerificationPolicy m;
  runnerJob_AdvisorySnapshotDigest := ""; runnerJob_RuntimeInventoryDigest := "";
  runnerJob_HiddenSuite := None; runnerJob_AcceptanceReceiptDigest := "";
  runnerJob_DeploymentMode := s_DeploymentMode sv; runnerJob_OfficialAcceptance := false;
  runnerJob_APIVersion := APIVersion; runnerJob_Kind := "ValidationJob"; runnerJob_ID := id;
  runnerJob_CreatedAt := UTC Now; runnerJob_Producer := "science-ladder";
  runnerJob_ExpiresAt := mkTime 0 0; runnerJob_Purpose := purpose; runnerJob_SubmissionID := "";
  runnerJob_ChallengeLockDigest := ""; runnerJob_ArtifactDigest := artifact;
  runnerJob_SuiteDigest := ""; runnerJob_ExecutionProfileDigest := ""; runnerJob_RunnerEpoch := "1";
  runnerJob_FencingToken := 1; runnerJob_RequiredHostGroup := ""; runnerJob_ExcludedHostIDs := [];
  runnerJob_ValidatorDisk := empty_ref; runnerJob_SubmissionDisk := empty_ref;
  runnerJob_SuiteDisk := empty_ref; runnerJob_ChallengeDisk := empty_ref; runnerJob_Manifest := m;
  runnerJob_SourceSnapshot := Some (mkObjectRef source 0 "") |}.

(** INSERT INTO runner_jobs with the column defaults. *)
Definition fresh_row (purpose version : string) (submission preflight intent : option string)
    (job : RunnerJob) (excluded : option string) : JobRow := {|
  j_purpose := purpose; j_version := version; j_submission := submission; j_preflight := preflight;
  j_intent := intent; j_payload := job; j_status := "queued"; j_host := None;
  j_excluded_group := excluded; j_token := None; j_fence := 1; j_lease := None; j_attempts := 0;
  j_created := Now |}.

Definition insert_job (s : pdb) (id : string) (row : JobRow) : result pdb :=
  if bool_decide (is_Some (rjobs s !! id)) then Err unique_violation else
  Ok (set_rjobs s (<[id := row]> (rjobs s))).

Definition job_exists (s : pdb) (p : JobRow → bool) : bool :=
  existsb (λ kv, p kv.2) (map_to_list (rjobs s)).

Definition same_id (a : option string) (id : string) : bool :=
  match a with Some x => x ==s id | None => false end.

Definition queuePreparation (sv : Server) (s : pdb) (purpose id version source artifact : string)
    (m : Manifest) : result pdb :=
  let '(jid, core) := ID (p_core s) in
  let s := with_core s core in
  let job := preparation_job sv jid purpose source artifact m in
  if purpose ==s "preflight" then
    if job_exists s (λ j, same_id (j_preflight j) id) then Ok s else
    insert_job s jid (fresh_row "preflight" version None (Some id) None job None)
  else
    if job_exists s (λ j, same_id (j_intent j) id) then Ok s else
    insert_job s jid (fresh_row "artifact_prepare" version None None (Some id) job None).

Record ObjectRequest := mkObjectRequest {
  or_Role : string; or_Digest : string; or_Size : Z; or_ResultToken : string }.

Definition object_roles : list string :=
  ["validatorDisk"; "challengeDisk"; "suiteDisk"; "submissionDisk"; "sbom"].

(** The job a host is running under a live lease. *)
Definition running_for (s : pdb) (id host : string) : result JobRow :=
  match rjobs s !! id with
  | Some j =>
      match j_host j, j_lease j with
      | Some h, Some deadline =>
          if (h ==s host) && (j_status j ==s "running") && After deadline Now then Ok j else Err no_rows
      | _, _ => Err no_rows
      end
  | None => Err no_rows
  end.

(** ON CONFLICT(job_id,role) DO UPDATE ... WHERE the digest and size are the same. *)
Definition declare_upload (s : pdb) (id : string) (req : ObjectRequest) : result pdb :=
  match f_uploads (p_fleet s) !! (id, or_Role req) with
  | Some u =>
      if (up_digest u ==s or_Digest req) && (up_size u =? or_Size req) then Ok s else Err "object_conflict"
  | None => Ok (set_uploads s (<[(id, or_Role req) := mkUpload (or_Digest req) (or_Size req) false]>
                   (f_uploads (p_fleet s))))
  end.

Definition runnerObject (sv : Server) (s : pdb) (id : string) (req : ObjectRequest)
    (host : runnerIdentity) : result (pdb * string) :=
  if negb (s_Store sv) then Err "storage_unavailable" else
  if negb (member (or_Role req) object_roles) then Err "object_role_invalid" else
  if (or_Size req <=? 0) || (or_Size req >? Z.shiftl 1 30) then Err "object_size_invalid" else
  let! j := running_for s id (host_ID host) in
  match j_token j with
  | None => Err scan_null
  | Some expected =>
      if hash (or_ResultToken req) !=s expected then Err "result_capability_invalid" else
      if (j_purpose j !=s "preflight") && (j_purpose j !=s "artifact_prepare")
      then Err "object_upload_forbidden" else
      if (j_purpose j ==s "artifact_prepare") && (or_Role req !=s "submissionDisk")
      then Err "object_role_forbidden" else
      let! url := SignedWrite (or_Digest req) (or_Size req) (10 * Minute) in
      let! s := declare_upload s id req in
      Ok (s, url)
  end.

(** [refs] of [verifyBuildObjects], by role. *)
Definition build_ref (b : BuildReport) (role : string) : option ObjectRef :=
  if role ==s "validatorDisk" then buildReport_ValidatorDisk b
  else if role ==s "challengeDisk" then buildReport_ChallengeDisk b
  else if role ==s "suiteDisk" then buildReport_SuiteDisk b
  else if role ==s "submissionDisk" then buildReport_SubmissionDisk b
  else if role ==s "sbom" then buildReport_SBOM b else None.

(** One role; each statement commits on its own, so the state survives an error. *)
Definition verify_object (jobID : string) (b : BuildReport) (s : pdb) (role : string) : pdb * result unit :=
  match build_ref b role with
  | None => (s, Ok tt)
  | Some ref =>
      match f_uploads (p_fleet s) !! (jobID, role) with
      | None => (s, Err no_rows)
      | Some u =>
          if (objectRef_Digest ref !=s up_digest u) || negb (objectRef_Size ref =? up_size u)
          then (s, Err "uploaded_object_mismatch") else
          match StoreVerify (up_digest u) (up_size u) with
          | Err e => (s, Err e)
          | Ok _ => (set_uploads s (<[(jobID, role) := mkUpload (up_digest u) (up_size u) true]>
                       (f_uploads (p_fleet s))), Ok tt)
          end
      end
  end.

(** [order] is the order in which the [range] visits the roles. *)
Fixpoint verifyBuildObjects (jobID : string) (b : BuildReport) (order : list string) (s : pdb)
    : pdb * result unit :=
  match order with
  | [] => (s, Ok tt)
  | role :: order =>
      match verify_object jobID b s role with
      | (s, Ok _) => verifyBuildObjects jobID b order s
      | (s, Err e) => (s, Err e)
      end
  end.
End Uploads.

(** * Committing a build *)

Section Commit.
Context `{Env} `{Crypto} `{UnicodeLib} `{JsonCanonicalizer}.
Context `{JsonType Manifest} `{JsonType Receipt} `{JsonType BuildReport}.

Definition preflight_failure (b : BuildReport) : list Finding :=
  map (λ f, mkFinding "preflight_failed" f "error" "") (buildReport_Findings b).

Definition set_intent_failed (findings : list Finding) (i : IntentRow) : IntentRow :=
  mkIntentRow (in_version i) (in_owner i) (in_repository i) (in_ref i) (in_commit i) (in_artifact i)
    (in_disk i) "failed" (in_request i) findings (in_submission i).

(** WHERE status='quarantine_pending' *)
Definition set_intent_ready (disk : string) (i : IntentRow) : IntentRow :=
  if in_status i ==s "quarantine_pending"
  then mkIntentRow (in_version i) (in_owner i) (in_repository i) (in_ref i) (in_commit i) (in_artifact i)
         disk "ready" (in_request i) [] (in_submission i)
  else i.

Definition set_preflight (status : string) (findings : option (list Finding)) (reports : BuildReport)
    (receipt : option string) (p : PreflightRow) : PreflightRow :=
  mkPreflightRow (pf_version p) status (default (pf_findings p) findings) (Some reports)
    (match receipt with Some r => Some r | None => pf_receipt p end).

(** WHERE lock_digest IS NULL *)
Definition set_unlocked_status (status : string) (v : VersionRow) : VersionRow :=
  match vr_lock v with Some _ => v | None => version_status status v end.

Definition update_option {A} (f : A → A) (k : option string) (m : gmap string A) : gmap string A :=
  match k with Some k => update f k m | None => m end.

(** The branch for a failed build. *)
Definition commit_failed_build (s : pdb) (job : RunnerJob) (row : JobRow) (b : BuildReport)
    (version : string) : pdb :=
  let findings := preflight_failure b in
  if runnerJob_Purpose job ==s "artifact_prepare" then
    set_intents s (update_option (set_intent_failed findings) (j_intent row) (i_intents (p_intake s)))
  else
    let s := set_preflights s (update_option
      (set_preflight "fail_with_actionable_findings" (Some findings) b None) (j_preflight row)
      (f_preflights (p_fleet s))) in
    set_version_rows s (update (set_unlocked_status "changes_required") version (i_versions (p_intake s))).

Definition verified_upload (s : pdb) (jobID : string) (ref : ObjectRef) : option bool :=
  match List.find (λ kv, (kv.1.1 ==s jobID) && (up_digest kv.2 ==s objectRef_Digest ref)
                         && (up_size kv.2 =? objectRef_Size ref)) (map_to_list (f_uploads (p_fleet s))) with
  | Some (_, u) => Some (up_verified u)
  | None => None
  end.

(** INSERT INTO artifacts ... ON CONFLICT DO NOTHING *)
Definition insert_blob (s : pdb) (digest : string) (row : BlobRow) : pdb :=
  match i_blobs (p_intake s) !! digest with
  | Some _ => s
  | None =>
      let s := set_blobs s (<[digest := row]> (i_blobs (p_intake s))) in
      with_core s (set_artifacts (p_core s) (<[digest := None]> (t_artifacts (p_core s))))
  end.

(** One output of the build, with its media type. *)
Definition commit_ref (jobID owner : string) (s : pdb) (entry : option ObjectRef * string) : result pdb :=
  match entry with
  | (None, _) => Ok s
  | (Some ref, media) =>
      match verified_upload s jobID ref with
      | None => Err no_rows
      | Some false => Err "object_verification_pending"
      | Some true => Ok (insert_blob s (objectRef_Digest ref)
                           (mkBlobRow (objectRef_Digest ref) (objectRef_Size ref) media owner))
      end
  end.

Definition build_outputs (b : BuildReport) : list (option ObjectRef * string) :=
  [(buildReport_ValidatorDisk b, "application/vnd.squashfs");
   (buildReport_ChallengeDisk b, "application/vnd.squashfs");
   (buildReport_SuiteDisk b, "application/vnd.squashfs");
   (buildReport_SubmissionDisk b, "application/vnd.squashfs");
   (buildReport_SBOM b, "application/spdx+json")].

(** The earliest other result of the preflight. *)
Definition previous_build (s : pdb) (preflight jobID : string) : option ResultRow :=
  snd <$> first_least
    (λ kv : string * ResultRow, match rjobs s !! kv.1 with
     | Some j => same_id (j_preflight j) preflight && (kv.1 !=s jobID)
     | None => false end)
    (λ kv, t_ns (res_created kv.2)) None (map_to_list (results s)).

Definition same_ref (a b : option ObjectRef) : bool :=
  match a, b with Some x, Some y => objectRef_Digest x ==s objectRef_Digest y | _, _ => false end.

(** Whether two preflight hosts agree. *)
Definition builds_agree (first run : RunReceipt) (b : BuildReport) : bool :=
  match runReceipt_BuildReport first with
  | None => false
  | Some fb =>
      (runReceipt_VerificationPolicy first ==s runReceipt_VerificationPolicy run)
      && (runReceipt_Outcome first ==s "valid")
      && (runReceipt_HostGroup first !=s runReceipt_HostGroup run)
      && (runReceipt_HostID first !=s runReceipt_HostID run)
      && same_ref (buildReport_SuiteDisk fb) (buildReport_SuiteDisk b)
      && (buildReport_ValidatorDiskDigest fb ==s buildReport_ValidatorDiskDigest b)
      && (buildReport_SuiteDigest fb ==s buildReport_SuiteDigest b)
      && (runReceipt_ExecutionProfileDigest first ==s runReceipt_ExecutionProfileDigest run)
  end.

(** The second, independent preflight job. *)
Definition next_preflight (job : RunnerJob) (id hostID : string) : RunnerJob :=
  job_FencingToken 1 (job_ExcludedHostIDs [hostID] (job_RequiredHostGroup ""
    (job_CreatedAt (UTC Now) (job_ID id job)))).

Definition conformance_receipt (sv : Server) (id policy status source version document : string)
    (runDigests groups : list string) : Receipt := {|
  receipt_VerificationPolicy := policy; receipt_VerificationStatus := status;
  receipt_DeploymentMode := s_DeploymentMode sv; receipt_OfficialAcceptance := false;
  receipt_APIVersion := APIVersion; receipt_Kind := "MachineConformanceReceipt"; receipt_ID := id;
  receipt_CreatedAt := UTC Now; receipt_Producer := "science-ladder"; receipt_SubjectDigest := source;
  receipt_EconomicMode := "none";
  receipt_Data := list_to_map [("versionId", JString version); ("buildReport", JDocument document);
    ("runDigests", JStrings runDigests); ("hostGroups", JStrings groups);
    ("independentReplication", JBool (policy ==s VerificationIndependent))] |}.

(** The machine conformance receipt and the updates that follow it. *)
Definition record_conformance (sv : Server) (s : pdb) (job : RunnerJob) (b : BuildReport)
    (owner preflight version policy status : string) (runDigests groups : list string) : result pdb :=
  let '(rid, core) := ID (p_core s) in
  let s := with_core s core in
  let! document := Marshal b in
  let source := match runnerJob_SourceSnapshot job with Some r => objectRef_Digest r | None => "" end in
  let receipt := conformance_receipt sv rid policy status source version document runDigests groups in
  let! digest := Digest receipt in
  if bool_decide (is_Some (t_receipts (p_core s) !! digest)) then Err unique_violation else
  let core := set_receipts (p_core s) (<[digest := mkReceiptRow receipt owner false]> (t_receipts (p_core s))) in
  let s := with_core s (enqueue core "sign_receipt" digest) in
  let s := set_preflights s (update (set_preflight "pass" (Some []) b (Some digest)) preflight
    (f_preflights (p_fleet s))) in
  let s := set_version_rows s (update (set_unlocked_status "review_ready") version (i_versions (p_intake s))) in
  Ok (with_core s (enqueue (p_core s) "scientific_review" version)).

(** The preflight of an accepted build: the first host of an independent policy queues
    the second one, which must agree with it. *)
Definition commit_preflight (sv : Server) (s : pdb) (job : RunnerJob) (run : RunReceipt) (b : BuildReport)
    (digest version owner preflight : string) : result pdb :=
  let policy := JobVerificationPolicy job in
  if negb (ValidVerificationPolicy policy) then Err "verification_policy_invalid" else
  if policy ==s VerificationIndependent then
    match previous_build s preflight (runnerJob_ID job) with
    | None =>
        let '(nid, core) := ID (p_core s) in
        let s := with_core s core in
        let next := next_preflight job nid (runReceipt_HostID run) in
        let! s := insert_job s nid (fresh_row "preflight" version None (Some preflight) None next
          (Some (runReceipt_HostGroup run))) in
        Ok (set_preflights s (update (set_preflight "independent_confirmation" None b None) preflight
          (f_preflights (p_fleet s))))
    | Some previous =>
        let first := res_run previous in
        if negb (builds_agree first run b) then Err "independent_build_disagreement" else
        record_conformance sv s job b owner preflight version policy "independently_replicated"
          [res_digest previous; digest] [runReceipt_HostGroup first; runReceipt_HostGroup run]
    end
  else record_conformance sv s job b owner preflight version policy "platform_verified" [digest]
         [runReceipt_HostGroup run].

Definition commitBuild (sv : Server) (s : pdb) (job : RunnerJob) (run : RunReceipt)
    (digest version : string) : result pdb :=
  match runReceipt_BuildReport run with
  | None => Err "build_report_required"
  | Some b =>
      match rjobs s !! runnerJob_ID job with
      | None => Err no_rows
      | Some row =>
          if negb (buildReport_Passed b) || (runReceipt_Outcome run !=s "valid")
          then Ok (commit_failed_build s job row b version) else
          let! _ := validateBuild job run in
          match i_versions (p_intake s) !! j_version row with
          | None => Err no_rows
          | Some v =>
              let! owner := (match j_intent row with
                | None => Ok (vr_owner v)
                | Some i => match i_intents (p_intake s) !! i with
                            | Some i => Ok (in_owner i) | None => Err no_rows end
                end) in
              let! s := foldM (commit_ref (runnerJob_ID job) owner) s (build_outputs b) in
              if runnerJob_Purpose job ==s "artifact_prepare" then
                match j_intent row, buildReport_SubmissionDisk b with
                | None, _ => Err "preparation intent missing"
                | _, None => Err nil_panic
                | Some intent, Some disk =>
                    Ok (set_intents s (update (set_intent_ready (objectRef_Digest disk)) intent
                      (i_intents (p_intake s))))
                end
              else
                match j_preflight row with
                | None => Err "preflight id missing"
                | Some preflight => commit_preflight sv s job run b digest version owner preflight
                end
          end
      end
  end.
End Commit.
