(* ===== verification/Suites.v ===== *)
(** Hidden suites on the platform (suites.go): the documents accepted for sealing, the
    stored material, and the grant of a suite to the host of one job. *)

From S2P Require Import Prelude Regex GoLib Numbers Types Scores Paths Measurement Evaluation.
From S2P Require Import Validate Sha256 GoJson Canonical Documents Artifacts Hidden Signatures.
From S2P Require Import Checkpoint History Store Platform Preparation.
From Stdlib Require Import Ascii.
Open Scope Z_scope.

(** [SecretSealer]: key custody (KMS or a local master key). *)
Class SecretSealer := {
  SealerSeal : Bytes → Bytes → result Bytes;
  SealerOpen : Bytes → Bytes → result Bytes
}.

(** The document [validateSuiteDocument] decodes: file names with base64 contents. *)
Record SuiteSource := mkSuiteSource { suiteSource_Files : gmap string string }.

Definition suite_contract : SubmissionContract := {|
  submissionContract_Format := "";
  submissionContract_AllowedPaths := ["*"];
  submissionContract_AllowedExtensions := [".json"; ".txt"; ".csv"; ".tsv"; ".dat"; ".bin"; ".npy"];
  submissionContract_MaxBytes := Z.shiftl 1 20; submissionContract_MaxFiles := 1000;
  submissionContract_License := "MIT" |}.

Definition suiteAAD (id : string) : Bytes := "science-ladder-suite-material-v1" +:+ NUL +:+ id.

Section Suites.
Context `{Env} `{Crypto} `{UnicodeLib} `{JsonCanonicalizer} `{JsonType ArtifactTree}.
Context `{JsonType SuiteSource} `{JsonType SuiteKeyMaterial} `{SecretSealer} `{ObjectStore}.
Context `{Aead} `{Curve}.

Definition decode_step (files : Files) (entry : string * string) : result Files :=
  match DecodeString entry.2 with
  | None => Err "hidden file content must be canonical base64"
  | Some data => Ok (<[entry.1 := data]> files)
  end.

(** [order] and [orderFiles] are the iteration orders over the two maps. *)
Definition validateSuiteDocument (document : Bytes) (order : gmap string string → list (string * string))
    (orderFiles : Files → list (string * Bytes)) : result unit :=
  let! source := DecodeStrictBounded (A := SuiteSource) document (Z.shiftl 2 20) in
  let! files := foldM decode_step ∅ (order (suiteSource_Files source)) in
  let! _ := ArtifactFromFiles files (orderFiles files) suite_contract in
  Ok tt.

Definition suite_by_commitment (s : pdb) (commitment : string) : option SuiteRow :=
  List.find (λ r, su_commitment r ==s commitment) (g_suites (p_registry s)).

(** The key material of a commitment and the digest of its sealed source. *)
Definition suiteMaterial (s : pdb) (commitment : string) : result (SuiteKeyMaterial * string) :=
  match suite_by_commitment s commitment with
  | None => Err no_rows
  | Some row =>
      let! plain := SealerOpen (su_material row) (suiteAAD (su_id row)) in
      let! material := DecodeStrict (A := SuiteKeyMaterial) plain in
      if suiteKeyMaterial_Commitment material !=s commitment
      then Err "hidden suite commitment and encrypted material mismatch" else
      Ok (material, su_ciphertext row)
  end.

(** [randEphemeral] and [randNonce] are the random values [WrapSuiteKey] draws. *)
Definition grantHiddenSuite (randEphemeral randNonce : result Bytes) (s : pdb) (job : RunnerJob)
    (host : runnerIdentity) : result RunnerJob :=
  if (suite_Visibility (manifest_Suite (runnerJob_Manifest job)) !=s "hidden")
     || (runnerJob_Purpose job ==s "artifact_prepare")
  then Ok job else
  match DecodeString (host_EncryptionKey host) with
  | None => Err "host_encryption_key_missing"
  | Some public =>
      if negb (len public =? 32) then Err "host_encryption_key_missing" else
      let! md := suiteMaterial s (suite_Commitment (manifest_Suite (runnerJob_Manifest job))) in
      let '(material, digest) := md in
      let! capsule := WrapSuiteKey randEphemeral randNonce public material
        (HiddenSuiteContext (runnerJob_ID job) (suiteKeyMaterial_Commitment material)) in
      match i_blobs (p_intake s) !! digest with
      | None => Err no_rows
      | Some blob =>
          let! url := SignedRead digest (15 * Minute) in
          let grant := mkHiddenSuiteGrant (mkObjectRef digest (bl_size blob) url)
            (suiteKeyMaterial_Commitment material) capsule in
          Ok (job_SuiteDigest (suiteKeyMaterial_Commitment material) (job_HiddenSuite (Some grant) job))
      end
  end.

(** The suite a creator may bind: sealed under its account and not revealed. *)
Definition owned_suite (s : pdb) (commitment owner : string) : bool :=
  existsb (λ r, (su_commitment r ==s commitment) && (su_owner r ==s owner)
                && negb (bool_decide (is_Some (su_revealed r)))) (g_suites (p_registry s)).

Definition requireSuiteOwner (sealer : bool) (s : pdb) (m : Manifest) (owner : string) : result unit :=
  if suite_Visibility (manifest_Suite m) !=s "hidden" then Ok tt else
  if negb sealer then Err "hidden_suite_storage_unconfigured" else
  if owned_suite s (suite_Commitment (manifest_Suite m)) owner then Ok tt
  else Err "suite_commitment_unknown".

Definition lockSuiteOwner (s : pdb) (m : Manifest) (owner : string) : result unit :=
  if suite_Visibility (manifest_Suite m) !=s "hidden" then Ok tt else
  if owned_suite s (suite_Commitment (manifest_Suite m)) owner then Ok tt
  else Err "suite_not_available".
End Suites.
