(* ===== verification/Runners.v ===== *)
(** The runner service: runners.go, runner_profiles.go and the claim request of
    runner_authorization.go.  A job is queued, claimed by a host under a lease and a
    fencing token, recovered when its lease expires, and completed by one signed
    result; two agreeing results of a submission decide its outcome.

    A claim is two steps, as in the source: the selection of a queued job
    ([claim_select]) and, after signing, the compare-and-set that leases it
    ([claim_finish]); other operations may run in between.  A transaction that fails
    leaves the database as it was. *)

From S2P Require Import Prelude Regex GoLib Numbers Types Scores Paths Measurement Evaluation.
From S2P Require Import Validate Sha256 GoJson Canonical Documents Results Hidden Signatures Checkpoint History.
From S2P Require Import Store Adjudication Platform Preparation Suites.
From Stdlib Require Import Ascii.
Open Scope Z_scope.

(** * Queueing a submission *)

Definition update_submission (s : pdb) (f : Submission → Submission) (id : string) : pdb :=
  with_core s (set_submissions (p_core s) (update f id (submissions s))).

Definition set_sub_status (status : string) (x : Submission) : Submission :=
  mkSubmission (sub_version x) (sub_sequence x) (sub_owner x) (sub_artifact x) (sub_disk x)
    (sub_outcome x) (sub_score x) (sub_publish_requested x) (sub_commitment x) status
    (sub_receipt x) (sub_public x) (sub_adjudication x).

Definition set_sub_outcome (status outcome : string) (score : option Z) (x : Submission) : Submission :=
  mkSubmission (sub_version x) (sub_sequence x) (sub_owner x) (sub_artifact x) (sub_disk x)
    outcome score (sub_publish_requested x) (sub_commitment x) status
    (sub_receipt x) (sub_public x) (sub_adjudication x).

(** SET status='consumed' WHERE status='reserved' *)
Definition consume_grant (g : GrantRow) : GrantRow :=
  if gr_status g ==s "reserved"
  then mkGrantRow (gr_owner g) (gr_version g) (gr_artifact g) (gr_class g) "consumed" else g.

Definition pause_intake : VersionRow → VersionRow := version_intake "paused".

Section Queue.
Context `{Env} `{JsonCanonicalizer} `{JsonType RawMessage}.

Definition submission_job (id jobID acceptance lockDigest : string) (x : Submission) (r : Receipt)
    (lock : Lock) : RunnerJob := {|
  runnerJob_ParentJobDigest := ""; runnerJob_VerificationPolicy := LockVerificationPolicy lock;
  runnerJob_AdvisorySnapshotDigest := ""; runnerJob_RuntimeInventoryDigest := "";
  runnerJob_HiddenSuite := None; runnerJob_AcceptanceReceiptDigest := acceptance;
  runnerJob_DeploymentMode := receipt_DeploymentMode r;
  runnerJob_OfficialAcceptance := receipt_OfficialAcceptance r;
  runnerJob_APIVersion := APIVersion; runnerJob_Kind := "ValidationJob"; runnerJob_ID := jobID;
  runnerJob_CreatedAt := UTC Now; runnerJob_Producer := "science-ladder";
  runnerJob_ExpiresAt := mkTime 0 0; runnerJob_Purpose := "submission"; runnerJob_SubmissionID := id;
  runnerJob_ChallengeLockDigest := lockDigest; runnerJob_ArtifactDigest := sub_artifact x;
  runnerJob_SuiteDigest := lock_SuiteDigest lock;
  runnerJob_ExecutionProfileDigest := lock_ExecutionProfileDigest lock;
  runnerJob_RunnerEpoch := "1"; runnerJob_FencingToken := 1; runnerJob_RequiredHostGroup := "";
  runnerJob_ExcludedHostIDs := [];
  runnerJob_ValidatorDisk := mkObjectRef (lock_ValidatorDiskDigest lock) 0 "";
  runnerJob_SubmissionDisk := mkObjectRef (sub_disk x) 0 "";
  runnerJob_SuiteDisk := mkObjectRef (lock_SuiteDiskDigest lock) 0 "";
  runnerJob_ChallengeDisk := mkObjectRef (lock_ValidatorDiskDigest lock) 0 "";
  runnerJob_Manifest := lock_Manifest lock; runnerJob_SourceSnapshot := None |}.

(** The submission with its grant, acceptance receipt, lock digest and lock. *)
Definition submission_lock (s : pdb) (id : string)
    : option (Submission * EntryRow * Receipt * string * LockRow) :=
  x ← submissions s !! id; e ← i_entries (p_intake s) !! id;
  r ← t_receipts (p_core s) !! sub_receipt x; v ← i_versions (p_intake s) !! sub_version x;
  l ← vr_lock v; k ← g_locks (p_registry s) !! l; Some (x, e, rr_payload r, l, k).

Definition queueSubmission (s : pdb) (id : string) : result pdb :=
  match submission_lock s id with
  | None => Err no_rows
  | Some (x, entry, acceptance, storedLockDigest, row) =>
      let acceptancePolicy := accepted_policy acceptance in
      let! lock := lk_decoded row in
      let! lockDigest := Digest (lk_document row) in
      if (lockDigest !=s storedLockDigest) || negb (ValidVerificationPolicy acceptancePolicy)
         || (acceptancePolicy !=s LockVerificationPolicy lock)
      then Err "acceptance_lock_mismatch" else
      let '(jid, core) := ID (p_core s) in
      let s := with_core s core in
      let job := submission_job id jid (sub_receipt x) lockDigest x acceptance lock in
      if job_exists s (λ j, same_id (j_submission j) id && (j_purpose j ==s "submission")) then Ok s else
      let! s := insert_job s jid (fresh_row "submission" (sub_version x) (Some id) None None job None) in
      let s := set_grants s (update consume_grant (en_grant entry) (i_grants (p_intake s))) in
      Ok (update_submission s (set_sub_status "queued") id)
  end.
End Queue.

(** * Expired leases *)

(** [payload || host_id] on excludedHostIds.  A nil slice is stored as a JSON null,
    which concatenates to [[null, host]] and decodes with an empty first name. *)
Definition exclude (host : string) (l : list string) : list string :=
  match l with [] => [""; host] | _ => l ++ [host] end.

Definition exclude_host (host : string) (job : RunnerJob) : RunnerJob :=
  job_ExcludedHostIDs (exclude host (runnerJob_ExcludedHostIDs job)) job.

Section Recover.
Context `{Env}.

Definition lease_expired (j : JobRow) : bool :=
  match j_lease j with Some deadline => Before deadline Now | None => false end.

Definition recover_row (j : JobRow) : JobRow := {|
  j_purpose := j_purpose j; j_version := j_version j; j_submission := j_submission j;
  j_preflight := j_preflight j; j_intent := j_intent j;
  j_payload :=
    if runnerJob_VerificationPolicy (j_payload j) ==s "platform" then j_payload j
    else match j_host j with Some host => exclude_host host (j_payload j) | None => j_payload j end;
  j_status := if j_attempts j >=? 8 then "attention_required" else "queued";
  j_host := None; j_excluded_group := j_excluded_group j; j_token := None; j_fence := j_fence j + 1;
  j_lease := None; j_attempts := j_attempts j; j_created := j_created j |}.

Definition recoverRunnerLeases (s : pdb) : pdb :=
  set_rjobs s (map_imap (λ id j,
    if (j_status j ==s "running") && lease_expired j && negb (bool_decide (is_Some (results s !! id)))
    then Some (recover_row j) else Some j) (rjobs s)).
End Recover.

(** * The host *)

Section Hosts.
Context `{Env} `{Crypto} `{!Pki} `{JsonCanonicalizer} `{JsonType ExecutorCapabilities}.

(** [runnerIdentity]: [cert] is the verified client certificate. *)
Definition identify (s : pdb) (cert : option Bytes) : result runnerIdentity :=
  match cert with
  | None => Err "runner_mtls_required"
  | Some der =>
      match List.find (λ h, (h_fingerprint h ==s hash der) && h_enabled h) (g_hosts (p_registry s)) with
      | None => Err "runner_untrusted"
      | Some h => Ok (mkIdentity (h_id h) (h_group h) (h_public_key h) (h_profile h) (h_encryption_key h)
                        (h_advisory h) (h_inventory h) (h_purposes h) None)
      end
  end.

(** The purposes member of a claim request. *)
Inductive purposes_member := BodyNull | Omitted | NullMember | Malformed | Requested (l : list string).

Definition purpose_step (enrolled : list string) (st : gset string * list string) (purpose : string)
    : result (gset string * list string) :=
  let '(seen, filtered) := st in
  if negb (member purpose ["preflight"; "artifact_prepare"; "submission"; "confirmation"])
     || bool_decide (purpose ∈ seen)
  then Err "invalid_runner_purposes" else
  Ok ({[purpose]} ∪ seen, if member purpose enrolled then filtered ++ [purpose] else filtered).

Definition requestedRunnerPurposes (body : purposes_member) (enrolled : list string) : result (list string) :=
  match body with
  | Omitted => Ok enrolled
  | Requested requested =>
      if lenl requested >? 4 then Err "invalid_runner_purposes" else
      let! st := foldM (purpose_step enrolled) (∅, []) requested in
      Ok st.2
  | _ => Err "invalid_runner_purposes"
  end.

Definition digest_or_empty (c : ExecutorCapabilities) : string :=
  match Digest c with Ok d => d | Err _ => "" end.

Definition selectRunnerProfile (s : pdb) (host : runnerIdentity) (profile : string) : result runnerIdentity :=
  if (profile ==s "") || (profile ==s host_ExecutionProfile host) then Ok host else
  if negb (ValidDigest profile) then Err "runner_profile_invalid" else
  match List.find (λ p, (pr_host p ==s host_ID host) && (pr_profile p ==s profile)
                        && pr_enabled p && pr_enrolled p) (g_profiles (p_registry s)) with
  | None => Err "runner_profile_unenrolled"
  | Some p =>
      match pr_template p, pr_capabilities p with
      | Ok a, Ok c =>
          match template_Capabilities a with
          | Some approved =>
              if template_ExecutionProfileDigest a !=s profile then Err "runner_profile_mismatch" else
              if digest_or_empty approved !=s digest_or_empty c then Err "runner_profile_mismatch" else
              Ok (mkIdentity (host_ID host) (host_Group host) (host_PublicKey host) profile
                    (host_EncryptionKey host) (pr_advisory p) (pr_inventory p) (host_Purposes host) (Some c))
          | None => Err "runner_profile_mismatch"
          end
      | _, _ => Err "runner_profile_mismatch"
      end
  end.

(** One enrolled profile of [requireExecutor]'s query, joined with its host. *)
Definition profile_serves (sv : Server) (m : Manifest) (e : EvaluationContract) (lockedProfile : string)
    (hosts : list HostRow) (p : ProfileRow) : bool :=
  match List.find (λ h, h_id h ==s pr_host p) hosts with
  | None => false
  | Some h =>
      pr_enabled p && h_enabled h && pr_enrolled p
      && ((lockedProfile ==s "") || (pr_profile p ==s lockedProfile))
      && member "submission" (h_purposes h) && member "confirmation" (h_purposes h)
      && ((suite_Visibility (manifest_Suite m) !=s "hidden") || (h_encryption_key h !=s ""))
      && match pr_capabilities p, pr_template p with
         | Ok c, Ok a =>
             match template_Capabilities a with
             | Some approved =>
                 (template_ExecutionProfileDigest a ==s pr_profile p)
                 && (digest_or_empty c ==s digest_or_empty approved)
                 && MatchJobLease m (if lockedProfile ==s "" then "preflight" else "submission") c
                 && is_ok (MatchExecutor e (manifest_Resources m)
                             (validator_RuntimeImageDigest (manifest_Validator m)) c)
                 && is_ok (verifyHostDelegation sv (mkIdentity (h_id h) (h_group h) (h_public_key h)
                             (pr_profile p) "" "" "" [] None) Now)
             | None => false
             end
         | _, _ => false
         end
  end.

Definition requireExecutor (sv : Server) (s : pdb) (m : Manifest) (lockedProfile : string) : result unit :=
  match manifest_Evaluation m with
  | None => Ok tt
  | Some e =>
      if existsb (profile_serves sv m e lockedProfile (g_hosts (p_registry s))) (g_profiles (p_registry s))
      then Ok tt else Err "executor_unavailable"
  end.
End Hosts.

(** * Claims *)

(** jsonb containment of two assets: an empty domain is omitted, so it constrains
    nothing. *)
Definition asset_contained (a b : EvaluationAsset) : bool :=
  ((evaluationAsset_Domain a ==s "") || (evaluationAsset_Domain a ==s evaluationAsset_Domain b))
  && (evaluationAsset_Name a ==s evaluationAsset_Name b)
  && (evaluationAsset_Digest a ==s evaluationAsset_Digest b)
  && (evaluationAsset_Size a =? evaluationAsset_Size b)
  && (evaluationAsset_Visibility a ==s evaluationAsset_Visibility b)
  && (evaluationAsset_Purpose a ==s evaluationAsset_Purpose b).

(** The schedule the query computes, in seconds. *)
Definition query_seconds (purpose : string) (m : Manifest) : Z :=
  let timeout := resources_TimeoutSeconds (manifest_Resources m) in
  Z.max 900
    (if purpose ==s "artifact_prepare" then 900
     else if purpose ==s "preflight" then 600 + 2 * lenl (manifest_Fixtures m) * (timeout + 60)
     else 660 + timeout).

(** The capability part of the WHERE clause. *)
Definition query_capabilities (purpose : string) (m : Manifest) (c : option ExecutorCapabilities) : bool :=
  match c, manifest_Evaluation m with
  | None, None => true
  | Some c, Some e =>
      let r := evaluationContract_Executor e in
      (validator_RuntimeImageDigest (manifest_Validator m) ==s executorCapabilities_RuntimeImageDigest c)
      && (executorRequirements_OS r ==s executorCapabilities_OS c)
      && (executorRequirements_Architecture r ==s executorCapabilities_Architecture c)
      && (executorRequirements_Accelerator r ==s executorCapabilities_Accelerator c)
      && ((executorRequirements_HardwareClass r ==s "")
          || (executorRequirements_HardwareClass r ==s executorCapabilities_HardwareClass c))
      && forallb (λ f, member f (executorCapabilities_Features c)) (executorRequirements_Features r)
      && forallb (λ a, existsb (asset_contained a) (executorCapabilities_Assets c))
           (evaluationContract_Assets e)
      && (resources_VCPU (manifest_Resources m) <=? executorCapabilities_MaxVCPU c)
      && (resources_MemoryMB (manifest_Resources m) <=? executorCapabilities_MaxMemoryMB c)
      && (resources_TimeoutSeconds (manifest_Resources m) <=? executorCapabilities_MaxSessionSeconds c)
      && (query_seconds purpose m <=? (if executorCapabilities_MaxJobSeconds c =? 0 then 900
                                       else executorCapabilities_MaxJobSeconds c))
  | _, _ => false
  end.

(** The WHERE clause of the claim query. *)
Definition claimable (purposes : list string) (host : runnerIdentity) (j : JobRow) : bool :=
  (j_status j ==s "queued") && member (j_purpose j) purposes
  && (member (j_purpose j) ["preflight"; "artifact_prepare"]
      || (runnerJob_ExecutionProfileDigest (j_payload j) ==s host_ExecutionProfile host))
  && query_capabilities (j_purpose j) (runnerJob_Manifest (j_payload j)) (host_Capabilities host)
  && negb (member (host_ID host) (runnerJob_ExcludedHostIDs (j_payload j)))
  && match j_excluded_group j with Some g => g !=s host_Group host | None => true end.

(** ORDER BY created_at ... SKIP LOCKED LIMIT 1; [locked] are the rows other
    transactions hold. *)
Definition pick_job (s : pdb) (locked : gset string) (purposes : list string) (host : runnerIdentity)
    : option (string * JobRow) :=
  first_least (λ kv, claimable purposes host kv.2 && negb (bool_decide (kv.1 ∈ locked)))
    (λ kv, t_ns (j_created kv.2)) None (map_to_list (rjobs s)).

(** A claim between its two transactions. *)
Record pending := mkPending { pd_id : string; pd_job : RunnerJob; pd_fence : Z; pd_lease : Z }.

Section Claim.
Context `{Env} `{Crypto} `{!Pki} `{UnicodeLib} `{JsonCanonicalizer} `{JsonType RunnerJob}.
Context `{JsonType SuiteKeyMaterial} `{SecretSealer} `{ObjectStore} `{Aead} `{Curve}.

(** The scan inputs of a preflight host. *)
Definition bind_scan_policy (job : RunnerJob) (host : runnerIdentity) : result RunnerJob :=
  if runnerJob_Purpose job !=s "preflight" then Ok job else
  if negb (ValidDigest (host_AdvisorySnapshotDigest host))
     || negb (ValidDigest (host_RuntimeInventoryDigest host))
  then Err "scan_policy_unconfigured" else
  if (runnerJob_AdvisorySnapshotDigest job !=s "")
     && ((runnerJob_AdvisorySnapshotDigest job !=s host_AdvisorySnapshotDigest host)
         || (runnerJob_RuntimeInventoryDigest job !=s host_RuntimeInventoryDigest host))
  then Err "independent_scan_policy_mismatch" else
  Ok (job_RuntimeInventoryDigest (host_RuntimeInventoryDigest host)
        (job_AdvisorySnapshotDigest (host_AdvisorySnapshotDigest host) job)).

Definition check_executor (job : RunnerJob) (host : runnerIdentity) : result unit :=
  match manifest_Evaluation (runnerJob_Manifest job) with
  | None => Ok tt
  | Some e =>
      match host_Capabilities host with
      | None => Err "executor_mismatch"
      | Some c =>
          let! _ := MatchExecutor e (manifest_Resources (runnerJob_Manifest job))
            (validator_RuntimeImageDigest (manifest_Validator (runnerJob_Manifest job))) c
            or "executor_mismatch" in
          Ok tt
      end
  end.

(** The size of one input disk, which must be stored under its own digest. *)
Definition size_ref (s : pdb) (ref : ObjectRef) : result ObjectRef :=
  match i_blobs (p_intake s) !! objectRef_Digest ref with
  | None => Err "disk_missing"
  | Some row =>
      if bl_blob row !=s objectRef_Digest ref then Err "disk_not_canonical" else
      Ok (mkObjectRef (objectRef_Digest ref) (bl_size row) (objectRef_URL ref))
  end.

(** [refs]: the inputs of the job, each replaced by [f]. *)
Definition map_refs (f : ObjectRef → result ObjectRef) (job : RunnerJob) : result RunnerJob :=
  if isBuild job then
    match runnerJob_SourceSnapshot job with
    | None => Err "source_missing"
    | Some source => let! source := f source in Ok (job_SourceSnapshot (Some source) job)
    end
  else
    let! validator := f (runnerJob_ValidatorDisk job) in
    let! submission := f (runnerJob_SubmissionDisk job) in
    let! suite := f (runnerJob_SuiteDisk job) in
    let! challenge := f (runnerJob_ChallengeDisk job) in
    Ok (job_ChallengeDisk challenge (job_SuiteDisk suite (job_SubmissionDisk submission
      (job_ValidatorDisk validator job)))).

(** A build runs under the profile of its quarantine host. *)
Definition bind_build_profile (job : RunnerJob) (host : runnerIdentity) : result RunnerJob :=
  if negb (isBuild job) then Ok job else
  match runnerJob_SourceSnapshot job with
  | None => Err "source_missing"
  | Some _ =>
      if host_ExecutionProfile host ==s "" then Err "profile_unconfigured" else
      Ok (job_ExecutionProfileDigest (host_ExecutionProfile host) job)
  end.

(** The job as it will be signed for the host. *)
Definition bind_job (s : pdb) (row : JobRow) (host : runnerIdentity) : result (RunnerJob * Z) :=
  let job := j_payload row in
  let! _ := check_executor job host in
  let! job := bind_scan_policy job host in
  if negb (ValidVerificationPolicy (JobVerificationPolicy job)) then Err "verification_policy_invalid" else
  let job := job_FencingToken (j_fence row) (job_RequiredHostGroup (host_Group host) job) in
  let lease := JobLeaseDuration (runnerJob_Manifest job) (runnerJob_Purpose job) in
  if match host_Capabilities host with
     | Some c => negb (MatchJobLease (runnerJob_Manifest job) (runnerJob_Purpose job) c)
     | None => false
     end
  then Err "executor_lease_mismatch" else
  let job := job_ExpiresAt (AddNs (UTC Now) lease) job in
  let! job := bind_build_profile job host in
  let! job := map_refs (size_ref s) job in
  Ok (job, lease).

(** The first transaction of [claimRunnerJob]; [None] is the answer without a job. *)
Definition claim_select (sv : Server) (s : pdb) (locked : gset string) (purposes : list string)
    (host : runnerIdentity) : result (option pending) :=
  match purposes with
  | [] => Ok None
  | _ =>
      if negb (s_Store sv) then Err "storage_unavailable" else
      let! _ := verifyHostDelegation sv host (UTC Now) in
      match s_signer sv with
      | None => Err "signing_unavailable"
      | Some _ =>
          match pick_job s locked purposes host with
          | None => Ok None
          | Some (id, row) =>
              let! jl := bind_job s row host in
              Ok (Some (mkPending id jl.1 (j_fence row) jl.2))
          end
      end
  end.

Definition sign_url (lease : Z) (ref : ObjectRef) : result ObjectRef :=
  let! url := SignedRead (objectRef_Digest ref) lease in
  Ok (mkObjectRef (objectRef_Digest ref) (objectRef_Size ref) url).

Definition running_row (j : JobRow) (host : string) (job : RunnerJob) (token : string) : JobRow := {|
  j_purpose := j_purpose j; j_version := j_version j; j_submission := j_submission j;
  j_preflight := j_preflight j; j_intent := j_intent j; j_payload := job; j_status := "running";
  j_host := Some host; j_excluded_group := j_excluded_group j; j_token := Some (hash token);
  j_fence := j_fence j; j_lease := Some (runnerJob_ExpiresAt job); j_attempts := j_attempts j + 1;
  j_created := j_created j |}.

(** The rest of [claimRunnerJob]: presigning, the suite grant, the signature, and
    UPDATE ... WHERE id=$1 AND status='queued' AND fence=$7.  [token] is the result
    token [secret] drew. *)
Definition claim_finish (sv : Server) (s : pdb) (p : pending) (host : runnerIdentity) (token : string)
    (randEphemeral randNonce : result Bytes) : result (pdb * Envelope) :=
  let! job := map_refs (sign_url (pd_lease p)) (pd_job p) in
  let! job := grantHiddenSuite randEphemeral randNonce s job host in
  let! envelope := Sign (s_ReceiptKeyID sv) (s_signer sv) job in
  match rjobs s !! pd_id p with
  | None => Err "job_claimed"
  | Some j =>
      if (j_status j !=s "queued") || negb (j_fence j =? pd_fence p) then Err "job_claimed" else
      let s := set_rjobs s (<[pd_id p := running_row j (host_ID host) job token]> (rjobs s)) in
      Ok (set_seen s (<[host_ID host := Now]> (f_seen (p_fleet s))), envelope)
  end.
End Claim.

(** * Results *)

Inductive response := Accepted (final : bool) | Duplicate | Retrying | Incident.

Definition terminal_outcomes : list string :=
  ["valid"; "hard_gate_failed"; "invalid_output"; "resource_limit"; "declared_timeout";
   "nondeterministic"; "malicious"; "challenge_fault"; "measurement_inconclusive"].

Section Results.
Context `{Env} `{Crypto} `{!Pki} `{UnicodeLib} `{JsonCanonicalizer} `{ObjectStore}.
Context `{JsonType Manifest} `{JsonType ValidatorResult} `{JsonType RunnerJob} `{JsonType RunReceipt}.
Context `{JsonType Receipt} `{JsonType BuildReport}.

(** The signed run of a result request, with its digest. *)
Definition open_run (sv : Server) (host : runnerIdentity) (pathID : string) (envelope : Envelope)
    : result (RunReceipt * string) :=
  let! key := parseRunnerKey (host_PublicKey host) in
  let! payload := Verify envelope {[host_ID host := key]} or "run_signature_invalid" in
  let! run := DecodeStrict (A := RunReceipt) payload or "run_invalid" in
  if (runReceipt_APIVersion run !=s APIVersion) || (runReceipt_Kind run !=s "ValidationRunReceipt")
     || After (runReceipt_CreatedAt run) (AddNs Now Minute)
     || (runReceipt_HostID run !=s host_ID host) || (runReceipt_HostGroup run !=s host_Group host)
     || negb (runReceipt_Official run) || negb (runReceipt_CleanupAttested run)
     || (runReceipt_JobID run !=s pathID)
  then Err "run_identity_mismatch" else
  let! _ := verifyHostDelegation sv host (runReceipt_CreatedAt run) in
  let! digest := Digest run in
  Ok (run, digest).

(** The lease of the stored job covers this run. *)
Definition live_lease (row : JobRow) (host : runnerIdentity) (run : RunReceipt) : bool :=
  (j_status row ==s "running")
  && match j_host row with Some h => h ==s host_ID host | None => false end
  && match j_lease row with Some deadline => negb (After Now deadline) | None => false end
  && (j_fence row =? runReceipt_FencingToken run).

Definition run_bindings (job : RunnerJob) (jobDigest : string) (run : RunReceipt) : bool :=
  ValidVerificationPolicy (JobVerificationPolicy job)
  && (runReceipt_ParentJobDigest run ==s runnerJob_ParentJobDigest job)
  && (runReceipt_VerificationPolicy run ==s runnerJob_VerificationPolicy job)
  && (runReceipt_JobDigest run ==s jobDigest)
  && (runReceipt_AcceptanceReceiptDigest run ==s runnerJob_AcceptanceReceiptDigest job)
  && (runReceipt_ChallengeLockDigest run ==s runnerJob_ChallengeLockDigest job)
  && (runReceipt_ArtifactDigest run ==s runnerJob_ArtifactDigest job)
  && (runReceipt_SuiteDigest run ==s runnerJob_SuiteDigest job)
  && (runReceipt_ExecutionProfileDigest run ==s runnerJob_ExecutionProfileDigest job)
  && (runReceipt_RunnerEpoch run ==s runnerJob_RunnerEpoch job)
  && (runReceipt_DeploymentMode run ==s runnerJob_DeploymentMode job)
  && Bool.eqb (runReceipt_OfficialAcceptance run) (runnerJob_OfficialAcceptance job).

(** The score of a valid run is a canonical integer of the locked domain. *)
Definition check_score (m : Manifest) (run : RunReceipt) : result unit :=
  let metric := manifest_Metric m in
  let score := runReceipt_ScoreTicks run in
  let! _ := CompareTicks score score or "score_invalid" in
  if (metric_DomainMinTicks metric !=s "") && negb (crosses score (metric_DomainMinTicks metric) "maximize")
  then Err "score_domain" else
  if (metric_DomainMaxTicks metric !=s "") && negb (crosses score (metric_DomainMaxTicks metric) "minimize")
  then Err "score_domain" else Ok tt.

(** The checks between the bindings and the first write. *)
Definition check_run (job : RunnerJob) (run : RunReceipt) (host : runnerIdentity) : result unit :=
  let m := runnerJob_Manifest job in
  let! _ := (if isBuild job && (runReceipt_Outcome run ==s "valid") then
               let! _ := validateBuild job run in
               if runnerJob_Purpose job ==s "preflight" then validateFixtureEvidence job run host else Ok tt
             else Ok tt) in
  if negb (member (runReceipt_Outcome run) terminal_outcomes) then Err "run_outcome_invalid" else
  let! _ := (if isBuild job then Ok tt
             else let! _ := ValidateRunMeasurementEvidence run m or "measurement_evidence_invalid" in Ok tt) in
  if (runReceipt_Outcome run ==s "valid") && negb (isBuild job) then
    if negb (gates_pass (runReceipt_Gates run) m) then Err "gates_invalid" else check_score m run
  else Ok tt.

(** The infrastructure fault: the job is queued again under the next fence, away from
    this host. *)
Definition retry_row (host : string) (j : JobRow) : JobRow := {|
  j_purpose := j_purpose j; j_version := j_version j; j_submission := j_submission j;
  j_preflight := j_preflight j; j_intent := j_intent j; j_payload := exclude_host host (j_payload j);
  j_status := "queued"; j_host := None; j_excluded_group := j_excluded_group j; j_token := j_token j;
  j_fence := j_fence j + 1; j_lease := None; j_attempts := j_attempts j; j_created := j_created j |}.

Definition complete_row (j : JobRow) : JobRow := {|
  j_purpose := j_purpose j; j_version := j_version j; j_submission := j_submission j;
  j_preflight := j_preflight j; j_intent := j_intent j; j_payload := j_payload j;
  j_status := "complete"; j_host := j_host j; j_excluded_group := j_excluded_group j;
  j_token := j_token j; j_fence := j_fence j; j_lease := None; j_attempts := j_attempts j;
  j_created := j_created j |}.

Definition receipt_owner (s : pdb) (job : RunnerJob) (row : JobRow) : result string :=
  if runnerJob_Purpose job ==s "artifact_prepare" then
    match (i ← j_intent row; i_intents (p_intake s) !! i) with
    | Some i => Ok (in_owner i) | None => Err no_rows end
  else if runnerJob_SubmissionID job !=s "" then
    match submissions s !! runnerJob_SubmissionID job with
    | Some x => Ok (sub_owner x) | None => Err no_rows end
  else
    match i_versions (p_intake s) !! j_version row with
    | Some v => Ok (vr_owner v) | None => Err no_rows end.

Definition set_runs (d : db) v := mkDb (t_versions d) (t_submissions d) (t_receipts d) v
  (t_mappings d) (t_claims d) (t_reservations d) (t_reserved d) (t_jobs d) (t_outbox d) (t_audit d)
  (t_artifacts d) (t_ids d).

(** The insertion of the result and its receipt, and the completion of the job. *)
Definition store_run (s : pdb) (job : RunnerJob) (row : JobRow) (run : RunReceipt) (digest : string)
    (host : runnerIdentity) : result pdb :=
  let id := runnerJob_ID job in
  if bool_decide (is_Some (results s !! id))
     || existsb (λ kv, res_digest kv.2 ==s digest) (map_to_list (results s))
  then Err unique_violation else
  let s := set_results s (<[id := mkResultRow (host_ID host) digest run Now]> (results s)) in
  let s := with_core s (set_runs (p_core s) (t_runs (p_core s) ++
    [mkRunRow (default "" (j_submission row)) (j_purpose row) digest (Ok run)])) in
  let! owner := receipt_owner s job row in
  let core := insert_receipt (p_core s) digest (mkReceiptRow (run_as_receipt run) owner false) in
  let s := with_core s (enqueue core "sign_receipt" digest) in
  Ok (set_rjobs s (update complete_row id (rjobs s))).

(** A checker fault pauses the version. *)
Definition incident (s : pdb) (job : RunnerJob) (version : string) : result pdb :=
  let s := update_submission s (λ x, set_sub_outcome "challenge_fault" "pending" (sub_score x) x)
             (runnerJob_SubmissionID job) in
  let s := set_version_rows s (update pause_intake version (i_versions (p_intake s))) in
  let! core := audit (p_core s) version "challenge.incident" (list_to_map [
    ("versionId", JString version);
    ("reason", JString "A locked checker fault requires version-wide resolution; receipt ordering remains blocked.")]) in
  Ok (with_core s core).

Definition confirmation_job (job : RunnerJob) (id : string) (host : runnerIdentity) : RunnerJob :=
  let excluded := if JobVerificationPolicy job ==s VerificationIndependent then [host_ID host] else [] in
  job_FencingToken 1 (job_ExcludedHostIDs excluded (job_RequiredHostGroup ""
    (job_Purpose "confirmation" (job_CreatedAt (UTC Now) (job_ID id job))))).

(** The fresh second run of a valid primary. *)
Definition queue_confirmation (s : pdb) (job : RunnerJob) (host : runnerIdentity) (version : string)
    : result pdb :=
  let '(id, core) := ID (p_core s) in
  let s := with_core s core in
  let excluded := if JobVerificationPolicy job ==s VerificationIndependent
                  then Some (host_Group host) else None in
  let! s := insert_job s id (fresh_row "confirmation" version (Some (runnerJob_SubmissionID job)) None None
    (confirmation_job job id host) excluded) in
  Ok (update_submission s (set_sub_status "confirmation_running") (runnerJob_SubmissionID job)).

(** The result of the submission's primary job. *)
Definition primary_result (s : pdb) (submission : string) : option RunReceipt :=
  kv ← List.find (λ (kv : string * ResultRow), match rjobs s !! kv.1 with
         | Some j => same_id (j_submission j) submission && (j_purpose j ==s "submission")
         | None => false end) (map_to_list (results s));
  Some (res_run kv.2).

Definition disagreement (m : Manifest) : string :=
  if is_performance m then "measurement_inconclusive" else "nondeterministic".

(** The outcome and score of a confirmation against its primary. *)
Definition confirm (m : Manifest) (first run : RunReceipt) : string * string :=
  if runReceipt_Outcome run !=s runReceipt_Outcome first then (disagreement m, "")
  else if runReceipt_Outcome run ==s "valid" then
    match (if is_performance m then ConfirmMeasuredRuns first run m
           else ConfirmedScore (runReceipt_ScoreTicks first) (runReceipt_ScoreTicks run) (manifest_Metric m)) with
    | Ok score => ("valid", score)
    | Err _ => (disagreement m, "")
    end
  else (runReceipt_Outcome run, runReceipt_ScoreTicks run).

Definition confirmation_decision (s : pdb) (job : RunnerJob) (run : RunReceipt) (host : runnerIdentity)
    : result (string * string) :=
  match primary_result s (runnerJob_SubmissionID job) with
  | None => Err no_rows
  | Some first =>
      if (JobVerificationPolicy job ==s VerificationIndependent)
         && (runReceipt_HostGroup first ==s host_Group host)
      then Err "confirmation_not_independent" else
      if (runReceipt_JobID first ==s runReceipt_JobID run) || (runReceipt_ID first ==s runReceipt_ID run)
         || After (runReceipt_CreatedAt first) (runReceipt_CreatedAt run)
      then Err "confirmation_not_fresh" else
      Ok (confirm (runnerJob_Manifest job) first run)
  end.

(** [score_ticks=$3]: the text of an integer, or NULL. *)
Definition tick_value (outcome score : string) : result (option Z) :=
  if (score !=s "") && (outcome ==s "valid") then
    match bigint_of_string score with
    | Some z => Ok (Some z) | None => Err "invalid input syntax for type numeric" end
  else Ok None.

(** The final verdict on a submission. *)
Definition finish_submission (s : pdb) (submission version outcome score : string) : result pdb :=
  let! tick := tick_value outcome score in
  let s := update_submission s (set_sub_outcome "validated" outcome tick) submission in
  let s := if outcome ==s "nondeterministic"
           then set_version_rows s (update pause_intake version (i_versions (p_intake s))) else s in
  Ok (with_core s (enqueue (p_core s) "adjudicate" submission)).

(** What follows a stored competitive run. *)
Definition decide_run (s : pdb) (job : RunnerJob) (run : RunReceipt) (host : runnerIdentity)
    (version : string) : result (pdb * response) :=
  if runReceipt_Outcome run ==s "challenge_fault" then
    let! s := incident s job version in Ok (s, Incident)
  else if (runReceipt_Outcome run ==s "valid") && (runnerJob_Purpose job ==s "submission") then
    let! s := queue_confirmation s job host version in Ok (s, Accepted false)
  else
    let! os := (if runnerJob_Purpose job ==s "confirmation" then confirmation_decision s job run host
                else Ok (runReceipt_Outcome run, runReceipt_ScoreTicks run)) in
    let! s := finish_submission s (runnerJob_SubmissionID job) version os.1 os.2 in
    Ok (s, Accepted true).

(** The transaction of [runnerResult]. *)
Definition commit_run (sv : Server) (s : pdb) (run : RunReceipt) (digest token : string)
    (host : runnerIdentity) : result (pdb * response) :=
  match rjobs s !! runReceipt_JobID run with
  | None => Err no_rows
  | Some row =>
      match j_token row with
      | None => Err scan_null
      | Some expected =>
          if hash token !=s expected then Err "result_capability_invalid" else
          if j_status row ==s "complete" then
            match results s !! runReceipt_JobID run with
            | None => Err no_rows
            | Some stored =>
                if res_digest stored !=s digest then Err "result_conflict" else Ok (s, Duplicate)
            end
          else
          if negb (live_lease row host run) then Err "stale_runner_lease" else
          let job := j_payload row in
          let! jobDigest := Digest job in
          if negb (run_bindings job jobDigest run) then Err "run_bindings_mismatch" else
          if runReceipt_Outcome run ==s "infrastructure_fault" then
            Ok (set_rjobs s (<[runReceipt_JobID run := retry_row (host_ID host) row]> (rjobs s)), Retrying)
          else
          let! _ := check_run job run host in
          let! s := store_run s job row run digest host in
          if isBuild job then
            let! s := commitBuild sv s job run digest (j_version row) in Ok (s, Accepted true)
          else decide_run s job run host (j_version row)
      end
  end.

(** The whole request; [order] is the iteration order of [verifyBuildObjects], whose
    writes stay even when the request fails afterwards. *)
Definition runnerResult (sv : Server) (order : list string) (s : pdb) (pathID token : string)
    (envelope : Envelope) (host : runnerIdentity) : pdb * result response :=
  match open_run sv host pathID envelope with
  | Err e => (s, Err e)
  | Ok (run, digest) =>
      let '(s, verified) :=
        match runReceipt_BuildReport run with
        | Some b => verifyBuildObjects (runReceipt_JobID run) b order s
        | None => (s, Ok tt)
        end in
      match verified with
      | Err e => (s, Err e)
      | Ok _ =>
          match commit_run sv s run digest token host with
          | Ok (s', r) => (s', Ok r)
          | Err e => (s, Err e)
          end
      end
  end.
End Results.

(** * The routes of [RunnerHandler] *)

Section Routes.
Context `{Env} `{Crypto} `{!Pki} `{UnicodeLib} `{JsonCanonicalizer} `{ObjectStore}.
Context `{JsonType Manifest} `{JsonType ValidatorResult} `{JsonType RunnerJob} `{JsonType RunReceipt}.
Context `{JsonType Receipt} `{JsonType BuildReport} `{JsonType ExecutorCapabilities}.

(** POST /internal/v1/runner/jobs/claim, up to the end of its transaction. *)
Definition claim_begin (sv : Server) (s : pdb) (locked : gset string) (cert : option Bytes)
    (profile : string) (body : purposes_member) : result (option (pending * runnerIdentity)) :=
  let! host := identify s cert in
  let! host := selectRunnerProfile s host profile in
  let! purposes := requestedRunnerPurposes body (host_Purposes host) in
  let! p := claim_select sv s locked purposes host in
  Ok ((λ p, (p, host)) <$> p).

(** POST /internal/v1/runner/jobs/{id}/result *)
Definition post_result (sv : Server) (order : list string) (s : pdb) (cert : option Bytes)
    (pathID token : string) (envelope : Envelope) : pdb * result response :=
  match identify s cert with
  | Err e => (s, Err e)
  | Ok host => runnerResult sv order s pathID token envelope host
  end.

(** POST /internal/v1/runner/jobs/{id}/objects *)
Definition post_object (sv : Server) (s : pdb) (cert : option Bytes) (id : string) (req : ObjectRequest)
    : result (pdb * string) :=
  let! host := identify s cert in
  runnerObject sv s id req host.
End Routes.
