(* ===== verification/Editorial.v ===== *)
(** Editorial decisions: [editorDecision] of editorial.go with [validateMetricAssessment]
    of metric_review.go.  A decision changes the status of a challenge version; resolving
    a locked-checker fault also voids every unresolved submission of the version and
    cancels its runner jobs.

    The guards on the version row are the WHERE clauses of the statements and the unique
    indexes of migrations/001 and 010. *)

From S2P Require Import Prelude Regex GoLib Numbers Types Paths Measurement Evaluation Validate Sha256 GoJson Canonical Documents.
From S2P Require Import Signatures History Store Adjudication Platform Preparation Runners.
From Stdlib Require Import Ascii.
Open Scope Z_scope.

Definition editor (u : User) : bool := (user_Role u ==s "editor") || (user_Role u ==s "operator").

(** ** The metric assessment *)

Definition assessment_texts (a : MetricAssessment) : list string :=
  [assessment_ScientificConnection a; assessment_PreservedConditions a;
   assessment_ShortcutAnalysis a; assessment_ClaimScope a].

Definition validateMetricAssessment (a : option MetricAssessment) : result unit :=
  match a with
  | None => Err "an explicit scientific metric assessment is required"
  | Some a =>
      if negb (member (assessment_Decision a) ["accepted"; "needs_work"; "unsupported"])
      then Err "unknown metric assessment decision" else
      if existsb (λ s, (len (TrimSpace s) <? 20) || (len s >? 8192)) (assessment_texts a)
      then Err "metric assessment must address scientific connection, preserved conditions, a concrete shortcut and claim scope"
      else Ok tt
  end.

Definition assessment_json (a : MetricAssessment) : Json :=
  JFields [("decision", SString (assessment_Decision a));
    ("scientificConnection", SString (assessment_ScientificConnection a));
    ("preservedConditions", SString (assessment_PreservedConditions a));
    ("shortcutAnalysis", SString (assessment_ShortcutAnalysis a));
    ("claimScope", SString (assessment_ClaimScope a))].

Record Decision := mkDecision {
  decision_VersionID : string;
  decision_Action : string;
  decision_Reason : string;
  decision_MetricAssessment : option MetricAssessment
}.

(** Whether the assessment fits the action. *)
Definition check_assessment (contract : Manifest) (in_ : Decision) : result unit :=
  if (decision_Action in_ ==s "approve_review") && (manifest_APIVersion contract ==s ManifestV2) then
    let! _ := validateMetricAssessment (decision_MetricAssessment in_) or "metric_assessment_required" in
    match decision_MetricAssessment in_ with
    | Some a => if assessment_Decision a !=s "accepted" then Err "metric_not_accepted" else Ok tt
    | None => Err nil_panic
    end
  else if bool_decide (is_Some (decision_MetricAssessment in_))
  then Err "metric_assessment_not_applicable" else Ok tt.

(** ** The version row *)

Definition resolved_statuses : list string :=
  ["published"; "closed"; "superseded"; "compromised"; "rejected"].

(** A security migration that has not been published or given up. *)
Definition pending_migration (v : VersionRow) : bool :=
  (vr_transition v ==s "security_migration") && negb (member (vr_status v) resolved_statuses).

Definition other_version (s : pdb) (id : string) (p : VersionRow → bool) : bool :=
  existsb (λ kv, (kv.1 !=s id) && p kv.2) (map_to_list (i_versions (p_intake s))).

(** challenge_one_open_version and one_pending_security_migration *)
Definition version_conflict (s : pdb) (id : string) (v : VersionRow) : bool :=
  (vr_intake v ==s "open")
  && other_version s id (λ w, (vr_challenge w ==s vr_challenge v) && (vr_intake w ==s "open"))
  || pending_migration v && bool_decide (is_Some (vr_predecessor v))
     && other_version s id (λ w, pending_migration w && bool_decide (vr_predecessor w = vr_predecessor v)).

Definition without (badge : string) (l : list string) : list string := List.filter (λ b, b !=s badge) l.

Definition when (b : bool) (v : VersionRow) : option VersionRow := if b then Some v else None.

Section Decide.
Context `{Env}.

(** The statement of each action: [None] when its WHERE clause excludes the row. *)
Definition decide_version (s : pdb) (id action : string) (v : VersionRow) : result (option VersionRow) :=
  if action ==s "approve_review" then
    Ok (when (vr_review v ==s "human_review_required") (version_review "human_approved" v))
  else if action ==s "changes_required" then
    Ok (when (bool_decide (vr_lock v = None))
          (version_status "changes_required" (version_review "changes_required" v)))
  else if action ==s "withdraw" then
    Ok (when (member (vr_status v) ["published"; "closed"; "superseded"])
          (version_badges [] (version_intake "closed" (version_status "withdrawn" v))))
  else if action ==s "reject" then Ok (Some (version_intake "closed" (version_review "rejected" v)))
  else if action ==s "feature" then
    Ok (Some (version_badges (without "Featured" (vr_badges v) ++ ["Featured"]) v))
  else if action ==s "unfeature" then Ok (Some (version_badges (without "Featured" (vr_badges v)) v))
  else if action ==s "human_reviewed" then
    Ok (when (member (vr_review v) ["automated_pass"; "human_approved"])
          (version_badges (without "Human-reviewed" (vr_badges v) ++ ["Human-reviewed"]) v))
  else if action ==s "pause" then
    Ok (when (vr_status v ==s "published") (version_intake "paused" v))
  else if action ==s "resume" then
    if existsb (λ kv, bool_decide (vr_predecessor kv.2 = Some id) && pending_migration kv.2)
         (map_to_list (i_versions (p_intake s)))
    then Err "migration_pending" else
    Ok (when ((vr_status v ==s "published") && (vr_intake v ==s "paused") && After (vr_deadline v) Now)
          (version_intake "open" v))
  else if action ==s "resolve_unscorable" then
    if existsb (λ kv, (sub_version kv.2 ==s id) && (sub_status kv.2 ==s "challenge_fault"))
         (map_to_list (submissions s))
    then Ok (Some (version_intake "closed" (version_status "compromised" v)))
    else Err "checker_fault_required"
  else if action ==s "compromise" then
    Ok (Some (version_intake "closed" (version_status "compromised" v)))
  else Err "action_invalid".
End Decide.

(** ** Resolving a checker fault *)

Definition open_submission (version : string) (x : Submission) : bool :=
  (sub_version x ==s version) && (sub_status x !=s "finalized").

Definition void_submission (version : string) (x : Submission) : Submission :=
  if open_submission version x then set_sub_outcome "validated" "challenge_unscorable" None x else x.

Definition cancel_row (version : string) (j : JobRow) : JobRow :=
  if (j_version j ==s version) && member (j_status j) ["queued"; "running"; "attention_required"]
  then {| j_purpose := j_purpose j; j_version := j_version j; j_submission := j_submission j;
          j_preflight := j_preflight j; j_intent := j_intent j; j_payload := j_payload j;
          j_status := "cancelled"; j_host := j_host j; j_excluded_group := j_excluded_group j;
          j_token := j_token j; j_fence := j_fence j + 1; j_lease := None;
          j_attempts := j_attempts j; j_created := j_created j |}
  else j.

Section Resolve.
Context `{Env} `{JsonCanonicalizer} `{JsonType Receipt} `{JsonType Manifest} `{Crypto}.

Definition resolution_receipt (sv : Server) (id version decision reason login : string) : Receipt := {|
  receipt_VerificationPolicy := ""; receipt_VerificationStatus := "";
  receipt_DeploymentMode := s_DeploymentMode sv; receipt_OfficialAcceptance := false;
  receipt_APIVersion := APIVersion; receipt_Kind := "ChallengeResolutionReceipt"; receipt_ID := id;
  receipt_CreatedAt := UTC Now; receipt_Producer := "science-ladder"; receipt_SubjectDigest := "";
  receipt_EconomicMode := "none";
  receipt_Data := list_to_map [("versionId", JString version); ("decisionId", JString decision);
    ("resolution", JString "challenge_unscorable"); ("reason", JString reason);
    ("editor", JString login)] |}.

(** [saveReceipt] *)
Definition saveReceipt (s : pdb) (digest : string) (r : Receipt) (owner : string) (public : bool) : pdb :=
  let core := insert_receipt (p_core s) digest (mkReceiptRow r owner public) in
  with_core s (enqueue core "sign_receipt" digest).

(** The block under [resolve_unscorable]. *)
Definition resolve_unscorable (sv : Server) (s : pdb) (u : User) (version decision reason : string)
    : result pdb :=
  let ids := map fst (List.filter (λ kv, open_submission version kv.2) (map_to_list (submissions s))) in
  let s := with_core s (set_submissions (p_core s) (void_submission version <$> submissions s)) in
  let s := set_rjobs s (cancel_row version <$> rjobs s) in
  let s := with_core s (foldl (λ d sid, enqueue d "adjudicate" sid) (p_core s) ids) in
  let '(rid, core) := ID (p_core s) in
  let s := with_core s core in
  let receipt := resolution_receipt sv rid version decision reason (user_Login u) in
  let! digest := Digest receipt in
  Ok (saveReceipt s digest receipt (user_ID u) true).

(** The accepted metric assessment, kept as a review run. *)
Definition record_assessment (s : pdb) (u : User) (version decision : string) (contract : Manifest)
    (a : MetricAssessment) : result pdb :=
  let! manifestDigest := Digest contract in
  let report : gmap string Json := list_to_map [("manifestDigest", JString manifestDigest);
    ("metricAssessment", assessment_json a); ("editorDecisionId", JString decision);
    ("editor", JString (user_Login u))] in
  let! canonical := CanonicalJSON (MarshalAny (any_of_map report)) in
  let '(id, core) := ID (p_core s) in
  let s := with_core s core in
  Ok (set_reviews s (d_reviews (p_desk s) ++
    [mkReviewRow id version "scientific-metric" "accepted" manifestDigest "" (DigestBytes canonical) Now])).

Definition editorDecision (sv : Server) (s : pdb) (u : User) (in_ : Decision) : result (pdb * string) :=
  let version := decision_VersionID in_ in
  if negb (editor u) then Err "editor_required" else
  if len (TrimSpace (decision_Reason in_)) <? 20 then Err "reason_required" else
  match i_versions (p_intake s) !! version, t_versions (p_core s) !! version with
  | Some v, Some row =>
      let! contract := ver_manifest row in
      let! _ := check_assessment contract in_ in
      let! changed := decide_version s version (decision_Action in_) v in
      match changed with
      | None => Err "action_not_applicable"
      | Some v' =>
          if version_conflict s version v' then Err unique_violation else
          let s := set_version_rows s (<[version := v']> (i_versions (p_intake s))) in
          let '(id, core) := ID (p_core s) in
          let s := with_core s core in
          let s := set_decisions s (d_decisions (p_desk s) ++
            [mkDecisionRow id version (user_ID u) (decision_Action in_) (decision_Reason in_)]) in
          let! s := (match decision_MetricAssessment in_ with
                     | Some a => record_assessment s u version id contract a
                     | None => Ok s end) in
          let! s := (if decision_Action in_ ==s "resolve_unscorable"
                     then resolve_unscorable sv s u version id (decision_Reason in_) else Ok s) in
          let! core := audit (p_core s) version ("editorial." +:+ decision_Action in_) (list_to_map [
            ("decisionId", JString id); ("editor", JString (user_Login u));
            ("reason", JString (decision_Reason in_))]) in
          Ok (with_core s core, id)
      end
  | _, _ => Err no_rows
  end.
End Resolve.
