(* ===== verification/Intake.v ===== *)
(** The door to the platform: request idempotency (server.go), the preparation budgets
    (admission.go) and the frontier tickets (frontier_admission.go).  A transaction that
    fails leaves the database as it was. *)

From S2P Require Import Prelude Regex GoLib Numbers Types Scores Paths Measurement Evaluation Validate.
From S2P Require Import Sha256 GoJson Canonical Documents Results Frontier Signatures History.
From S2P Require Import Store Adjudication Platform Preparation Runners.
From Stdlib Require Import Ascii.
Open Scope Z_scope.

(** * Idempotent requests *)

(** [^[A-Za-z0-9._:-]{8,128}$] *)
Definition is_idem_char (c : ascii) : bool :=
  is_alnum c || existsb (Ascii.eqb c) ["."; "_"; ":"; "-"]%char.
Definition idemRE : re := Cat (Times 8 (Chr is_idem_char)) (UpTo 120 (Chr is_idem_char)).

(** [^[A-Za-z0-9_.-]+/[A-Za-z0-9_.-]+$] and [^[a-f0-9]{40}$] *)
Definition is_repo_char (c : ascii) : bool := is_alnum c || existsb (Ascii.eqb c) ["_"; "."; "-"]%char.
Definition repoRE : re :=
  Cat (Plus (Chr is_repo_char)) (Cat (Chr (Ascii.eqb "/")) (Plus (Chr is_repo_char))).
Definition commitRE : re := Times 40 (Chr (λ c, is_digit c || inr 97 102 (byte_val c))).

Definition request_hash (method path body : string) : string :=
  hash (method +:+ " " +:+ path +:+ String "010" body).

(** [mutate]: the transaction of [fn] is also the transaction of the idempotency row.
    The response is its status and its JSON text. *)
Definition mutate (s : pdb) (u : User) (key reqHash : string)
    (fn : pdb → result (pdb * (Z * string))) : result (pdb * (Z * string)) :=
  if negb (matches idemRE key) then Err "idempotency_required" else
  match d_idempotency (p_desk s) !! (user_ID u, key) with
  | Some row =>
      if id_hash row !=s reqHash then Err "idempotency_conflict" else
      match id_response row with
      | None => Err "request_pending"
      | Some response => Ok (s, response)
      end
  | None =>
      let s := set_idempotency s (<[(user_ID u, key) := mkIdemRow reqHash None]> (d_idempotency (p_desk s))) in
      let! sr := fn s in
      let '(s, response) := sr in
      Ok (set_idempotency s (alter (λ r, mkIdemRow (id_hash r) (Some response)) (user_ID u, key)
            (d_idempotency (p_desk s))), response)
  end.

(** [replayBeforeFetch]: the answer of a finished request, if there is one. *)
Definition replayBeforeFetch (s : pdb) (u : User) (key reqHash : string) : result (option (Z * string)) :=
  if negb (matches idemRE key) then Err "idempotency_required" else
  match d_idempotency (p_desk s) !! (user_ID u, key) with
  | None => Ok None
  | Some row =>
      if id_hash row !=s reqHash then Err "idempotency_conflict" else
      match id_response row with Some response => Ok (Some response) | None => Err scan_null end
  end.

(** * Preparation budgets *)

Definition preparationDailyLimit (role : string) (configured : Z) : Z :=
  if (role !=s "operator") || (configured <? 20) then 20
  else if configured >? 1000 then 1000 else configured.

(** The number of rows of a table that satisfy [p]. *)
Definition count {K A} `{Countable K} (p : A → bool) (m : gmap K A) : Z :=
  lenl (List.filter (λ kv, p kv.2) (map_to_list m)).

(** The preparations an account has under way. *)
Definition active_preparations (s : pdb) (owner : string) : Z :=
  count (λ c, (ca_owner c ==s owner) && (ca_status c ==s "resolving_sources")) (d_candidates (p_desk s))
  + count (λ i, (in_owner i ==s owner) && member (in_status i) ["github_fetch"; "quarantine_pending"; "ready"])
      (i_intents (p_intake s))
  + count (λ p, match i_versions (p_intake s) !! pf_version p with
                | Some v => (vr_owner v ==s owner)
                            && member (pf_status p) ["queued"; "waiting_for_quarantine"; "independent_confirmation"]
                | None => false end) (f_preflights (p_fleet s))
  + count (λ r, (rq_owner r ==s owner) && (rq_status r ==s "queued")) (d_requests (p_desk s)).

(** current_date, as the number of the day. *)
Definition day_of (t : Time) : Z := t_ns t / (24 * Hour).

(** The requests of one day, over all accounts. *)
Definition used_on (day : Z) (m : gmap (string * Z) Z) : Z :=
  map_fold (λ (k : string * Z) used total, (if k.2 =? day then used else 0) + total) 0 m.

Section Budget.
Context `{Env} `{Crypto}.

Definition reservePreparation (sv : Server) (s : pdb) (u : User) : result pdb :=
  match g_roles (p_registry s) !! user_ID u with
  | None => Err no_rows
  | Some role =>
      if active_preparations s (user_ID u) >=? 5 then Err "preparation_active_limit" else
      let budgets := i_budgets (p_intake s) in
      if used_on (day_of Now) budgets >=? 1000 then Err "preparation_capacity_exhausted" else
      let limit := preparationDailyLimit role (s_OperatorPreparationDailyLimit sv) in
      let key := (user_ID u, day_of Now) in
      match budgets !! key with
      | None => Ok (set_budgets s (<[key := 1]> budgets))
      | Some used =>
          if used <? limit then Ok (set_budgets s (<[key := used + 1]> budgets))
          else Err "preparation_daily_limit"
      end
  end.
End Budget.

(** * Frontier tickets *)

Record frontierPolicy := mkFrontierPolicy {
  policy_Manifest : Manifest;
  policy_LockDigest : string;
  policy_FrontierTicks : string;
  policy_Mode : string
}.

Record claimRequest := mkClaimRequest {
  claimRequest_Repository : string;
  claimRequest_Ref : string;
  claimRequest_Claim : FrontierClaim
}.

Inductive ticket_answer :=
| Resumed (id : string) (expires : Time) (mode : string)
| Reissued (id : string) (expires : Time) (mode : string)
| Issued (id : string) (expires : Time) (mode : string).

Definition ticket_lifetime : Z := 15 * Minute.

Section Tickets.
Context `{Env} `{UnicodeLib} `{JsonCanonicalizer} `{JsonType ValidatorResult} `{EqDecision FrontierClaim}.

(** The score text of a submission, COALESCE(s.score_ticks::text,''). *)
Definition score_text (x : option Submission) : string :=
  match (x ← x; sub_score x) with Some z => int_string z | None => "" end.

Definition loadFrontierPolicy (s : pdb) (version : string) : result frontierPolicy :=
  match i_versions (p_intake s) !! version, t_versions (p_core s) !! version with
  | Some v, Some row =>
      if vr_status v !=s "published" then Err no_rows else
      match vr_lock v with
      | None => Err scan_null
      | Some lock =>
          if negb ((vr_intake v ==s "open") && After (vr_deadline v) Now) then Err "intake_closed" else
          let! m := ver_manifest row in
          let public := score_text (f ← ver_frontier row; submissions s !! f) in
          Ok (mkFrontierPolicy m lock (AdmissionFrontier (manifest_Metric m) public) (AdmissionMode m))
      end
  | _, _ => Err no_rows
  end.

Definition checkFrontierClaim (c : FrontierClaim) (p : frontierPolicy) : result unit :=
  if frontierClaim_LockDigest c !=s policy_LockDigest p then Err "claim_lock_mismatch" else
  let! ticks := ValidateClaim c (policy_Manifest p) or "local_claim_invalid" in
  if negb (FrontierImprovement ticks (policy_FrontierTicks p) (manifest_Metric (policy_Manifest p)))
  then Err "not_frontier_potential" else Ok tt.

(** The latest ticket [p] selects, ORDER BY created_at DESC LIMIT 1. *)
Definition latest_ticket (s : pdb) (p : TicketRow → bool) : option (string * TicketRow) :=
  first_least (λ kv, p kv.2) (λ kv, - t_ns (tk_created kv.2)) None (map_to_list (i_tickets (p_intake s))).

(** The ticket is for this account, commit and claim. *)
Definition same_request (u : User) (in_ : claimRequest) (t : TicketRow) : bool :=
  (tk_owner t ==s user_ID u) && (tk_version t ==s frontierClaim_VersionID (claimRequest_Claim in_))
  && (tk_repository t ==s claimRequest_Repository in_) && (tk_ref t ==s claimRequest_Ref in_)
  && bool_decide (tk_claim t = claimRequest_Claim in_).

Definition consumed (t : TicketRow) : bool := bool_decide (is_Some (tk_consumed t)).
Definition live (t : TicketRow) : bool := negb (consumed t) && After (tk_expires t) Now.

Definition exists_row {K A} `{Countable K} (p : A → bool) (m : gmap K A) : bool :=
  existsb (λ kv, p kv.2) (map_to_list m).

(** The candidate has already entered verification. *)
Definition already_entered (s : pdb) (u : User) (version artifact : string) : bool :=
  exists_row (λ x, (sub_version x ==s version) && (sub_artifact x ==s artifact)) (submissions s)
  || exists_row (λ t, (tk_owner t ==s user_ID u) && (tk_version t ==s version) && (tk_artifact t ==s artifact)
                      && consumed t) (i_tickets (p_intake s)).

Definition within_day (t : TicketRow) : bool := After (tk_created t) (AddNs Now (- (24 * Hour))).

(** The admission budget of the last 24 hours. *)
Definition budget_exceeded (s : pdb) (u : User) (mode : string) : bool :=
  let recent p := count (λ t, within_day t && p t) (i_tickets (p_intake s)) in
  let mine t := tk_owner t ==s user_ID u in
  (recent mine >=? 5) || (recent (λ _, true) >=? 100) || (recent (λ t, mine t && live t) >=? 3)
  || (mode ==s "qualification")
     && (recent (λ t, mine t && (frontierClaim_Mode (tk_claim t) ==s "qualification")) >=? 2).

Definition createFrontierTicket (s : pdb) (u : User) (in_ : claimRequest) : result (pdb * ticket_answer) :=
  let claim := claimRequest_Claim in_ in
  if negb (matches repoRE (claimRequest_Repository in_)) || negb (matches commitRE (claimRequest_Ref in_))
  then Err "exact_commit_required" else
  match latest_ticket s (λ t, same_request u in_ t && consumed t && bool_decide (is_Some (tk_intent t))) with
  | Some (id, t) => Ok (s, Resumed id (tk_expires t) (frontierClaim_Mode (tk_claim t)))
  | None =>
      let! p := loadFrontierPolicy s (frontierClaim_VersionID claim) in
      let! _ := checkFrontierClaim claim p in
      if already_entered s u (frontierClaim_VersionID claim) (frontierClaim_ArtifactDigest claim)
      then Err "artifact_duplicate" else
      match latest_ticket s (λ t, same_request u in_ t && live t) with
      | Some (id, t) => Ok (s, Reissued id (tk_expires t) (policy_Mode p))
      | None =>
          if budget_exceeded s u (policy_Mode p) then Err "frontier_admission_budget" else
          let '(id, core) := ID (p_core s) in
          let s := with_core s core in
          if bool_decide (is_Some (i_tickets (p_intake s) !! id)) then Err unique_violation else
          let expires := AddNs Now ticket_lifetime in
          let t := mkTicketRow (user_ID u) (frontierClaim_VersionID claim) (claimRequest_Repository in_)
            (claimRequest_Ref in_) (frontierClaim_ArtifactDigest claim) claim (policy_FrontierTicks p)
            Now expires None None in
          Ok (set_tickets s (<[id := t]> (i_tickets (p_intake s))), Issued id expires (policy_Mode p))
      end
  end.

(** The ticket an intent presents is live and for this account, version, commit and
    artifact. *)
Definition ticket_fits (u : User) (in_ : IntentRequest) (t : TicketRow) : bool :=
  (tk_owner t ==s user_ID u) && (tk_version t ==s intentRequest_VersionID in_)
  && (tk_repository t ==s intentRequest_Repository in_) && (tk_ref t ==s intentRequest_Ref in_)
  && (tk_artifact t ==s intentRequest_PreviewDigest in_) && live t.

Definition consume_ticket (intent frontier : string) (t : TicketRow) : TicketRow :=
  mkTicketRow (tk_owner t) (tk_version t) (tk_repository t) (tk_ref t) (tk_artifact t) (tk_claim t)
    frontier (tk_created t) (tk_expires t) (Some Now) (Some intent).

Definition consumeFrontierTicket (s : pdb) (u : User) (in_ : IntentRequest) (intent : string) : result pdb :=
  if intentRequest_AdmissionTicket in_ ==s "" then Err "frontier_claim_required" else
  match i_tickets (p_intake s) !! intentRequest_AdmissionTicket in_ with
  | None => Err "admission_ticket_invalid"
  | Some t =>
      if negb (ticket_fits u in_ t) then Err "admission_ticket_invalid" else
      let! p := loadFrontierPolicy s (intentRequest_VersionID in_) in
      let! _ := checkFrontierClaim (tk_claim t) p in
      Ok (set_tickets s (update (consume_ticket intent (policy_FrontierTicks p))
            (intentRequest_AdmissionTicket in_) (i_tickets (p_intake s))))
  end.
End Tickets.
