(* ===== verification/Submissions.v ===== *)
(** Submissions: submissions.go (intents, acceptance, publication) with the production
    gate of audit.go.  Each definition is the body of a [mutate] transaction. *)

From S2P Require Import Prelude Regex GoLib Numbers Types Scores Paths Measurement Evaluation Validate.
From S2P Require Import Sha256 GoJson Canonical Documents Results Frontier Hidden Signatures Checkpoint History.
From S2P Require Import Store Adjudication Platform Preparation Suites Runners Editorial Intake.
From Stdlib Require Import Ascii.
Open Scope Z_scope.

(** * Intents *)

Inductive intent_answer := IntentExists (id status : string) | IntentCreated (id : string).

(** One attribution field. *)
Definition check_attribution (kv : string * JsonScalar) : result unit :=
  if member kv.1 ["model"; "harness"; "disclosure"] then
    match kv.2 with
    | SString text => if len text >? 2000 then Err "attribution_invalid" else Ok tt
    | _ => Err "attribution_invalid"
    end
  else if kv.1 ==s "platformSeeded" then
    match kv.2 with SBool _ => Ok tt | _ => Err "attribution_invalid" end
  else Err "attribution_invalid".

Section Intents.
Context `{Env} `{Crypto} `{!Pki} `{UnicodeLib} `{JsonCanonicalizer} `{JsonType ValidatorResult}.
Context `{JsonType ExecutorCapabilities} `{EqDecision FrontierClaim}.

Definition same_commit (u : User) (in_ : IntentRequest) (i : IntentRow) : bool :=
  (in_owner i ==s user_ID u) && (in_version i ==s intentRequest_VersionID in_)
  && (in_repository i ==s intentRequest_Repository in_) && (in_ref i ==s intentRequest_Ref in_).

Definition createIntent (sv : Server) (s : pdb) (u : User) (in_ : IntentRequest)
    : result (pdb * intent_answer) :=
  let version := intentRequest_VersionID in_ in
  if negb (matches repoRE (intentRequest_Repository in_)) || negb (matches commitRE (intentRequest_Ref in_))
  then Err "exact_commit_required" else
  match i_versions (p_intake s) !! version, t_versions (p_core s) !! version with
  | Some v, Some row =>
      if vr_status v !=s "published" then Err no_rows else
      if negb ((vr_intake v ==s "open") && After (vr_deadline v) Now) then Err "intake_closed" else
      let! m := ver_manifest row in
      let! _ := requireExecutor sv s m "" in
      if intentRequest_License in_ !=s submissionContract_License (manifest_Submission m)
      then Err "license_mismatch" else
      let! _ := for_each check_attribution (intentRequest_Attribution in_) in
      match List.find (λ kv, same_commit u in_ kv.2) (map_to_list (i_intents (p_intake s))) with
      | Some (id, i) => Ok (s, IntentExists id (in_status i))
      | None =>
          if intentRequest_AdmissionTicket in_ ==s "" then Err "frontier_claim_required" else
          let! s := reservePreparation sv s u in
          let '(id, core) := ID (p_core s) in
          let s := with_core s core in
          if bool_decide (is_Some (i_intents (p_intake s) !! id)) then Err unique_violation else
          let i := mkIntentRow version (user_ID u) (intentRequest_Repository in_) (intentRequest_Ref in_)
            "" "" "" "github_fetch" in_ [] None in
          let s := set_intents s (<[id := i]> (i_intents (p_intake s))) in
          let! s := consumeFrontierTicket s u in_ id in
          Ok (with_core s (enqueue (p_core s) "fetch_submission" id), IntentCreated id)
      end
  | _, _ => Err no_rows
  end.
End Intents.

(** * The production gate *)

Section Production.
Context `{Env} `{Crypto} `{!Pki} `{UrlLib} `{JsonCanonicalizer} `{JsonType History} `{JsonType ReleaseAttestation}.

(** [a, _ := Fingerprint(key)] *)
Definition fingerprint_or_empty (key : option PublicKey) : string :=
  match Fingerprint key with Ok f => f | Err _ => "" end.

(** max(issued_at) of the checkpoints a quorum verified. *)
Definition last_verified (l : list CheckpointRow) : option Time :=
  foldl (λ best c, match ck_verified c, best with
                   | None, _ => best
                   | Some _, None => Some (ck_issued c)
                   | Some _, Some b => if Before b (ck_issued c) then Some (ck_issued c) else best
                   end) None l.

Definition checkProductionAdmission (sv : Server) (s : pdb) : result unit :=
  if s_DeploymentMode sv !=s production then Ok tt else
  match s_TrustHistory sv with
  | None => Err "production_trust_incomplete"
  | Some history =>
      if s_ReceiptKMSKeyID sv ==s "" then Err "production_trust_incomplete" else
      match s_ReleaseEnvelope sv with
      | None => Err "external_release_gates_incomplete"
      | Some release =>
          let! historyDigest := CanonicalDigest history in
          let! _ := VerifyRelease release (s_RootKeyID sv) (s_TrustedRootKey sv) historyDigest
            (s_SourceCommit sv) Now or "release_attestation_invalid" in
          match KeysAt history "control-plane-receipt" Now !! s_ReceiptKeyID sv, s_signer sv with
          | Some expected, Some signer =>
              if fingerprint_or_empty (Some expected) !=s fingerprint_or_empty (Some (Public signer))
              then Err "receipt_delegation_invalid" else
              match g_checkpoints (p_registry s) with
              | [] => Err "audit_genesis_missing"
              | genesis :: _ =>
                  if ck_digest genesis !=s history_GenesisCheckpointDigest history
                  then Err "audit_genesis_mismatch" else
                  match last_verified (g_checkpoints (p_registry s)) with
                  | Some last => if IntakeAllowed last Now then Ok tt else Err "witness_quorum_stale"
                  | None => Err "witness_quorum_stale"
                  end
              end
          | _, _ => Err "receipt_delegation_invalid"
          end
      end
  end.
End Production.

(** * Acceptance *)

Inductive acceptance := AlreadyAccepted (submission : string) | AcceptedAs (submission : string) (sequence : Z) (receipt : string).

Definition intent_accepted (submission : string) (i : IntentRow) : IntentRow :=
  mkIntentRow (in_version i) (in_owner i) (in_repository i) (in_ref i) (in_commit i) (in_artifact i)
    (in_disk i) "accepted" (in_request i) (in_findings i) (Some submission).

Definition version_sequence (n : Z) (v : Version) : Version :=
  mkVersion (ver_watermark v) n (ver_manifest v) (ver_best v) (ver_frontier v).

Section Accept.
Context `{Env} `{Crypto} `{!Pki} `{UnicodeLib} `{UrlLib} `{JsonCanonicalizer} `{JsonType ValidatorResult}.
Context `{JsonType ExecutorCapabilities} `{JsonType FrontierClaim} `{JsonType Receipt}.
Context `{JsonType History} `{JsonType ReleaseAttestation}.

(** One row of the query for runner groups: an enabled host of the locked profile that
    runs both purposes and can open a hidden suite. *)
Definition group_host (s : pdb) (profile : string) (public : bool) (h : HostRow) : bool :=
  h_enabled h
  && ((h_profile h ==s profile)
      || existsb (λ p, (pr_host p ==s h_id h) && (pr_profile p ==s profile) && pr_enabled p && pr_enrolled p)
           (g_profiles (p_registry s)))
  && member "submission" (h_purposes h) && member "confirmation" (h_purposes h)
  && (public || (h_encryption_key h !=s "")).

(** The groups of the delegated hosts among them. *)
Definition runner_groups (sv : Server) (s : pdb) (profile : string) (public : bool) : gset string :=
  list_to_set (map h_group (List.filter
    (λ h, group_host s profile public h
          && is_ok (verifyHostDelegation sv (mkIdentity (h_id h) (h_group h) (h_public_key h) "" "" "" "" [] None) Now))
    (g_hosts (p_registry s)))).

Definition check_groups (policy : string) (groups : gset string) : result unit :=
  if negb (ValidVerificationPolicy policy) then Err "verification_policy_invalid" else
  let minimum : nat := if policy ==s VerificationIndependent then 2%nat else 1%nat in
  if bool_decide (size groups < minimum)%nat then
    if bool_decide (minimum = 2%nat) then Err "independent_runners_unavailable"
    else Err "platform_runner_unavailable"
  else Ok tt.

(** UPDATE capacity SET reserved_units=reserved_units+2 WHERE reserved_units+2<=maximum_units *)
Definition reserve_capacity (s : pdb) : result pdb :=
  let reserved := t_reserved (p_core s) + 2 in
  if reserved <=? g_maximum_units (p_registry s)
  then Ok (with_core s (set_capacity (p_core s) (t_reservations (p_core s)) reserved))
  else Err "capacity_unavailable".

(** The admission member of the receipt. *)
Definition admission_data (s : pdb) (u : User) (intent artifact : string) (in_ : IntentRequest)
    : result (list (string * Json)) :=
  let ticket := intentRequest_AdmissionTicket in_ in
  if ticket ==s "" then Ok [] else
  match i_tickets (p_intake s) !! ticket with
  | None => Err "admission_binding_mismatch"
  | Some t =>
      if negb (bool_decide (tk_intent t = Some intent) && (tk_owner t ==s user_ID u)
               && (tk_artifact t ==s artifact) && consumed t)
      then Err "admission_binding_mismatch" else
      let! claimDigest := Digest (tk_claim t) in
      Ok [("admission", JFields [("ticketId", SString ticket); ("claimDigest", SString claimDigest);
            ("mode", SString (frontierClaim_Mode (tk_claim t))); ("frontierTicks", SString (tk_frontier t));
            ("claimVerified", SBool false)])]
  end.

Definition acceptance_receipt (sv : Server) (id policy version lock grant submission commitment salt : string)
    (sequence : Z) (m : Manifest) (i : IntentRow) (admission : list (string * Json)) : Receipt := {|
  receipt_VerificationPolicy := policy; receipt_VerificationStatus := "";
  receipt_DeploymentMode := s_DeploymentMode sv;
  receipt_OfficialAcceptance := s_DeploymentMode sv ==s production;
  receipt_APIVersion := APIVersion; receipt_Kind := "SubmissionAcceptanceReceipt"; receipt_ID := id;
  receipt_CreatedAt := UTC Now; receipt_Producer := "science-ladder";
  receipt_SubjectDigest := in_artifact i; receipt_EconomicMode := "none";
  receipt_Data := list_to_map ([("submissionId", JString submission); ("versionId", JString version);
    ("challengeLockDigest", JString lock); ("sequence", JString (int_string sequence));
    ("grantId", JString grant); ("artifactDigest", JString (in_artifact i));
    ("commitment", JString commitment); ("commitmentSalt", JString salt);
    ("submissionDiskDigest", JString (in_disk i));
    ("resourceClass", JString (resources_Class (manifest_Resources m)));
    ("parentFrontierDigest", JString (intentRequest_ParentFrontierDigest (in_request i)));
    ("attribution", JFields (intentRequest_Attribution (in_request i)))] ++ admission) |}.

(** The constraints of submissions and validation_grants an insertion can violate. *)
Definition accept_conflict (s : pdb) (id grant version owner intent artifact receipt : string) (sequence : Z) : bool :=
  bool_decide (is_Some (submissions s !! id)) || bool_decide (is_Some (i_entries (p_intake s) !! id))
  || bool_decide (is_Some (i_grants (p_intake s) !! grant))
  || bool_decide (is_Some (t_reservations (p_core s) !! id))
  || exists_row (λ g, (gr_owner g ==s owner) && (gr_version g ==s version) && (gr_artifact g ==s artifact))
       (i_grants (p_intake s))
  || exists_row (λ e, en_intent e ==s intent) (i_entries (p_intake s))
  || exists_row (λ x, (sub_version x ==s version) && ((sub_sequence x =? sequence) || (sub_artifact x ==s artifact))
                      || (sub_receipt x ==s receipt)) (submissions s).

(** The writes of an acceptance. *)
Definition record_acceptance (s : pdb) (u : User) (id submission grant version commitment salt digest : string)
    (sequence : Z) (m : Manifest) (i : IntentRow) (receipt : Receipt) : result pdb :=
  let artifact := in_artifact i in
  if accept_conflict s submission grant version (user_ID u) id artifact digest sequence
  then Err unique_violation else
  let s := set_grants s (<[grant := mkGrantRow (user_ID u) version artifact
             (resources_Class (manifest_Resources m)) "reserved"]> (i_grants (p_intake s))) in
  let s := set_entries s (<[submission := mkEntryRow id grant salt
             (intentRequest_Attribution (in_request i)) (UTC Now)]> (i_entries (p_intake s))) in
  let x := mkSubmission version sequence (user_ID u) artifact (in_disk i) "pending" None
             (intentRequest_Publish (in_request i)) commitment "accepted" digest false None in
  let core := set_submissions (p_core s) (<[submission := x]> (t_submissions (p_core s))) in
  let core := set_capacity core (<[submission := None]> (t_reservations core)) (t_reserved core) in
  let core := set_versions core (update (version_sequence sequence) version (t_versions core)) in
  let s := with_core s core in
  let s := set_intents s (update (intent_accepted submission) id (i_intents (p_intake s))) in
  let s := saveReceipt s digest receipt (user_ID u) false in
  let s := with_core s (enqueue (p_core s) "validate_submission" submission) in
  let! core := audit (p_core s) version "submission.accepted" (list_to_map [
    ("sequence", JString (int_string sequence)); ("commitment", JString commitment);
    ("economicMode", JString "none")]) in
  Ok (with_core s core).

(** The checks before any write; the answer carries what they read. *)
Definition check_admission (sv : Server) (s : pdb) (u : User) (i : IntentRow)
    : result (Version * string * Manifest * string) :=
  let version := in_version i in
  if (in_status i !=s "ready") || (in_artifact i ==s "") || (in_disk i ==s "")
  then Err "artifact_not_ready" else
  match i_versions (p_intake s) !! version, t_versions (p_core s) !! version with
  | Some v, Some row =>
      match vr_lock v with
      | None => Err scan_null
      | Some lockDigest =>
          if (vr_intake v !=s "open") || negb (After (vr_deadline v) Now) then Err "intake_closed" else
          if count (λ x, (sub_owner x ==s user_ID u) && (sub_status x !=s "finalized")) (submissions s)
             >=? s_ActiveLimit sv
          then Err "active_limit" else
          let! m := ver_manifest row in
          match g_locks (p_registry s) !! lockDigest with
          | None => Err "execution_profile_unavailable"
          | Some k =>
              let! lock := lk_decoded k or "execution_profile_unavailable" in
              let profile := lock_ExecutionProfileDigest lock in
              let policy := LockVerificationPolicy lock in
              let! _ := requireExecutor sv s m profile in
              let! _ := check_groups policy
                (runner_groups sv s profile (suite_Visibility (manifest_Suite m) !=s "hidden")) in
              Ok (row, lockDigest, m, policy)
          end
      end
  | _, _ => Err no_rows
  end.

(** [salt] is the value [secret] draws. *)
Definition acceptIntent (sv : Server) (s : pdb) (u : User) (id salt : string) : result (pdb * acceptance) :=
  let! _ := checkProductionAdmission sv s in
  match i_intents (p_intake s) !! id with
  | None => Err no_rows
  | Some i =>
      if in_owner i !=s user_ID u then Err no_rows else
      match in_submission i with
      | Some existing => Ok (s, AlreadyAccepted existing)
      | None =>
          let! a := check_admission sv s u i in
          let '(row, lockDigest, m, policy) := a in
          let version := in_version i in
          let artifact := in_artifact i in
          match List.find (λ kv, (sub_version kv.2 ==s version) && (sub_artifact kv.2 ==s artifact))
                  (map_to_list (submissions s)) with
          | Some (duplicate, x) =>
              if sub_owner x ==s user_ID u then Ok (s, AlreadyAccepted duplicate) else Err "artifact_duplicate"
          | None =>
              let! s := reserve_capacity s in
              let '(grant, core) := ID (p_core s) in
              let '(submission, core) := ID core in
              let '(rid, core) := ID core in
              let s := with_core s core in
              let sequence := ver_next_sequence row + 1 in
              let commitment := hash (salt +:+ String "000" artifact) in
              let! admission := admission_data s u id artifact (in_request i) in
              let receipt := acceptance_receipt sv rid policy version lockDigest grant submission commitment
                salt sequence m i admission in
              let! digest := Digest receipt in
              let! s := record_acceptance s u id submission grant version commitment salt digest sequence m i
                receipt in
              Ok (s, AcceptedAs submission sequence digest)
          end
      end
  end.
End Accept.

(** * Publication *)

Definition set_sub_public (x : Submission) : Submission :=
  mkSubmission (sub_version x) (sub_sequence x) (sub_owner x) (sub_artifact x) (sub_disk x)
    (sub_outcome x) (sub_score x) true (sub_commitment x) (sub_status x) (sub_receipt x) true
    (sub_adjudication x).

Definition version_frontier (id : string) (v : Version) : Version :=
  mkVersion (ver_watermark v) (ver_next_sequence v) (ver_manifest v) (ver_best v) (Some id).

Section Publish.
Context `{Env} `{JsonCanonicalizer} `{JsonType Receipt}.

(** The frontier score a publication is compared with. *)
Definition frontier_ticks (s : pdb) (m : Manifest) (frontier : option string) : result string :=
  match frontier with
  | None => Ok (metric_BaselineTicks (manifest_Metric m))
  | Some f =>
      match submissions s !! f with
      | None => Err no_rows
      | Some x => match sub_score x with Some z => Ok (int_string z) | None => Err scan_null end
      end
  end.

Definition publication_receipt (rid id version score : string) (x : Submission) (accepted : Receipt)
    (advance : bool) : Receipt :=
  let policy := accepted_policy accepted in {|
  receipt_VerificationPolicy := policy; receipt_VerificationStatus := verifiedStatus policy "valid";
  receipt_DeploymentMode := receipt_DeploymentMode accepted;
  receipt_OfficialAcceptance := receipt_OfficialAcceptance accepted;
  receipt_APIVersion := APIVersion; receipt_Kind := "SolutionPublicationReceipt"; receipt_ID := rid;
  receipt_CreatedAt := UTC Now; receipt_Producer := "science-ladder";
  receipt_SubjectDigest := sub_artifact x; receipt_EconomicMode := "none";
  receipt_Data := list_to_map [("versionId", JString version); ("submissionId", JString id);
    ("scoreTicks", JString score); ("publicFrontierAdvanced", JBool advance)] |}.

(** The rows that become public with the submission. *)
Definition open_records (s : pdb) (id : string) (x : Submission) : pdb :=
  let open (at_ : option Time) := match at_ with Some t => Some t | None => Some Now end in
  let core := p_core s in
  let core := set_submissions core (update set_sub_public id (t_submissions core)) in
  let core := set_artifacts core (foldl (λ t k, alter open k t) (t_artifacts core)
                (remove_dups [sub_artifact x; sub_disk x])) in
  let core := set_receipts core (publish_receipts
    (sub_receipt x :: match sub_adjudication x with Some d => [d] | None => [] end) (t_receipts core)) in
  let core := set_receipts core (publish_receipts
    (map rj_digest (List.filter (λ r, rj_submission r ==s id) (t_runs core))) (t_receipts core)) in
  with_core s core.

(** [true] when this call published the submission. *)
Definition publishSubmission (s : pdb) (u : User) (id : string) : result (pdb * bool) :=
  match submissions s !! id with
  | None => Err no_rows
  | Some x =>
      let version := sub_version x in
      if sub_owner x !=s user_ID u then Err no_rows else
      match t_versions (p_core s) !! version with
      | None => Err no_rows
      | Some row =>
          if (sub_status x !=s "finalized") || (sub_outcome x !=s "valid") then Err "publication_not_ready" else
          if sub_public x then Ok (s, false) else
          let! m := ver_manifest row in
          let! frontier := frontier_ticks s m (ver_frontier row) in
          let score := score_text (Some x) in
          let advance := meaningful score frontier (manifest_Metric m) in
          let s := if advance
                   then with_core s (set_versions (p_core s)
                          (update (version_frontier id) version (t_versions (p_core s)))) else s in
          match t_receipts (p_core s) !! sub_receipt x with
          | None => Err no_rows
          | Some accepted =>
              let '(rid, core) := ID (p_core s) in
              let s := with_core s core in
              let receipt := publication_receipt rid id version score x (rr_payload accepted) advance in
              let! digest := Digest receipt in
              let s := saveReceipt s digest receipt (user_ID u) true in
              let s := open_records s id x in
              let! core := audit (p_core s) version "solution.published" (list_to_map [
                ("submissionId", JString id); ("receiptDigest", JString digest);
                ("publicFrontierAdvanced", JBool advance)]) in
              Ok (with_core s core, true)
          end
      end
  end.
End Publish.
