(* ===== verification/Fleet.v ===== *)
(** The runner fleet as a transition system: every operation that touches the runner jobs, in
    any order and at any time, with the claims that are between their two transactions.
    [step] lets the rest of the platform change anything but the jobs of the fleet and their
    results, the artifact of an accepted submission and its outcome.  [lease_step] is the
    abstract lease of one job that these operations implement.

    Then the invariant of the fleet, and that every operation keeps it.  An operation is
    summarised by [advance]: what it may do to the row and result of a job ([cell_change]),
    to new rows, and to the outcome of a submission.  The invariant is proved against
    [advance] once, and [advance] for each operation. *)

From S2P Require Import Prelude Regex GoLib Numbers Types Scores Paths Measurement Evaluation Validate Sha256.
From S2P Require Import GoJson Canonical Documents Results Hidden Store Adjudication Signatures Checkpoint History Platform.
From S2P Require Import Preparation Suites Runners Editorial.
From stdpp Require Import relations.
Open Scope Z_scope.

(** * The abstract lease *)

Inductive phase :=
| Absent
| Queued (fence : Z)
| Leased (fence : Z) (host : string)
| Finished (fence : Z) (host : string)
| Stopped (fence : Z)
| Cancelled (fence : Z).

(** A job is offered under a fence, leased to one host, and either finished by that host
    under that fence or taken back under the next one; it never leaves the last states. *)
Inductive lease_step : phase → phase → Prop :=
| lease_offer : lease_step Absent (Queued 1)
| lease_grant f h : lease_step (Queued f) (Leased f h)
| lease_return f h : lease_step (Leased f h) (Queued (f + 1))
| lease_stop f h : lease_step (Leased f h) (Stopped (f + 1))
| lease_finish f h : lease_step (Leased f h) (Finished f h)
| lease_cancel_queued f : lease_step (Queued f) (Cancelled (f + 1))
| lease_cancel_leased f h : lease_step (Leased f h) (Cancelled (f + 1))
| lease_cancel_stopped f : lease_step (Stopped f) (Cancelled (f + 1)).

(** The lease a row of runner_jobs stands for. *)
Definition phase_of (o : option JobRow) : phase :=
  match o with
  | None => Absent
  | Some j =>
      let host := default "" (j_host j) in
      if j_status j ==s "queued" then Queued (j_fence j)
      else if j_status j ==s "running" then Leased (j_fence j) host
      else if j_status j ==s "complete" then Finished (j_fence j) host
      else if j_status j ==s "attention_required" then Stopped (j_fence j)
      else Cancelled (j_fence j)
  end.

(** * The system *)

(** [y_granted] is a history variable: the leases granted so far. *)
Record sys := mkSys {
  y_db : pdb;
  y_pending : list (pending * runnerIdentity);
  y_granted : list (string * Z)
}.

Definition set_db (y : sys) (s : pdb) : sys := mkSys s (y_pending y) (y_granted y).

(** What the rest of the platform keeps. *)
Record others (s s' : pdb) : Prop := {
  others_rows : rjobs s' = rjobs s ∧ results s' = results s;
  others_artifact : ∀ id x, submissions s !! id = Some x →
    ∃ x', submissions s' !! id = Some x' ∧ sub_artifact x' = sub_artifact x;
  others_outcome : ∀ id x', submissions s' !! id = Some x' → sub_outcome x' = "valid" →
    ∃ x, submissions s !! id = Some x ∧ sub_outcome x = "valid" ∧ sub_score x = sub_score x'
}.

Section Fleet.
Context `{Crypto} `{!Pki} `{UnicodeLib} `{JsonCanonicalizer} `{ObjectStore} `{SecretSealer} `{Aead} `{Curve}.
Context `{JsonType Manifest} `{JsonType ValidatorResult} `{JsonType RunnerJob} `{JsonType RunReceipt}.
Context `{JsonType Receipt} `{JsonType BuildReport} `{JsonType ExecutorCapabilities} `{JsonType RawMessage}.
Context `{JsonType SuiteKeyMaterial}.

(** Each step reads its own clock and draws its own identifiers; [rest] are the steps of
    the rest of the platform. *)
Inductive step_of (rest : pdb → pdb → Prop) : sys → sys → Prop :=
| step_submission (E : Env) y id s' :
    queueSubmission (y_db y) id = Ok s' → step_of rest y (set_db y s')
| step_preparation (E : Env) y sv purpose id version source artifact m s' :
    purpose = "preflight" ∨ purpose = "artifact_prepare" →
    queuePreparation sv (y_db y) purpose id version source artifact m = Ok s' → step_of rest y (set_db y s')
| step_begin (E : Env) y sv locked cert profile body p :
    claim_begin sv (y_db y) locked cert profile body = Ok (Some p) →
    step_of rest y (mkSys (y_db y) (p :: y_pending y) (y_granted y))
| step_finish (E : Env) y sv p host token ephemeral nonce s' envelope :
    (p, host) ∈ y_pending y →
    claim_finish sv (y_db y) p host token ephemeral nonce = Ok (s', envelope) →
    step_of rest y (mkSys s' (y_pending y) ((pd_id p, pd_fence p) :: y_granted y))
| step_recover (E : Env) y : step_of rest y (set_db y (recoverRunnerLeases (y_db y)))
| step_object (E : Env) y sv cert id req s' url :
    post_object sv (y_db y) cert id req = Ok (s', url) → step_of rest y (set_db y s')
| step_result (E : Env) y sv order cert id token envelope s' r :
    post_result sv order (y_db y) cert id token envelope = (s', r) → step_of rest y (set_db y s')
| step_editor (E : Env) y sv u decision s' id :
    editorDecision sv (y_db y) u decision = Ok (s', id) → step_of rest y (set_db y s')
| step_other y s' : rest (y_db y) s' → step_of rest y (set_db y s').

Definition step : sys → sys → Prop := step_of others.

(** A platform that has not run anything. *)
Definition idle (s : pdb) : Prop :=
  rjobs s = ∅ ∧ results s = ∅ ∧ ∀ id x, submissions s !! id = Some x → sub_outcome x ≠ "valid".

Inductive reachable : sys → Prop :=
| reachable_idle s : idle s → reachable (mkSys s [] [])
| reachable_step y y' : reachable y → step y y' → reachable y'.
End Fleet.

(** * Contracts *)

(** What a job asks to be verified: no claim, retry or confirmation changes it.  (The
    grant of a hidden suite sets [SuiteDigest] to the commitment of the manifest.) *)
Definition terms (job : RunnerJob) :=
  (runnerJob_VerificationPolicy job, runnerJob_AcceptanceReceiptDigest job,
   runnerJob_DeploymentMode job, runnerJob_OfficialAcceptance job, runnerJob_SubmissionID job,
   runnerJob_ChallengeLockDigest job, runnerJob_ArtifactDigest job, runnerJob_Manifest job).

(** The job keeps its identity, and with [p] of its exclusions. *)
Definition same_job (p : list string → list string → Prop) (a b : RunnerJob) : Prop :=
  runnerJob_ID b = runnerJob_ID a ∧ runnerJob_Purpose b = runnerJob_Purpose a ∧ terms b = terms a
  ∧ p (runnerJob_ExcludedHostIDs a) (runnerJob_ExcludedHostIDs b).

Definition competitive (purpose : string) : Prop := purpose = "submission" ∨ purpose = "confirmation".

Section Invariant.
Context `{UnicodeLib} `{JsonCanonicalizer} `{JsonType RunnerJob} `{JsonType ValidatorResult}.

(** The second run of a valid outcome agrees on [score]. *)
Definition agreed (m : Manifest) (first second : RunReceipt) (score : string) : Prop :=
  runReceipt_Outcome first = "valid" ∧ runReceipt_Outcome second = "valid"
  ∧ (if is_performance m then ConfirmMeasuredRuns first second m
     else ConfirmedScore (runReceipt_ScoreTicks first) (runReceipt_ScoreTicks second) (manifest_Metric m))
    = Ok score.

(** A stored result belongs to the lease its job ended with. *)
Record result_ok (id : string) (j : JobRow) (r : ResultRow) : Prop := {
  ro_job : runReceipt_JobID (res_run r) = id;
  ro_host : runReceipt_HostID (res_run r) = res_host r;
  ro_holder : j_host j = Some (res_host r);
  ro_fence : runReceipt_FencingToken (res_run r) = j_fence j;
  ro_bound : ∃ d, Digest (j_payload j) = Ok d ∧ run_bindings (j_payload j) d (res_run r) = true;
  ro_score : isBuild (j_payload j) = false → runReceipt_Outcome (res_run r) = "valid" →
    gates_pass (runReceipt_Gates (res_run r)) (runnerJob_Manifest (j_payload j)) = true
    ∧ check_score (runnerJob_Manifest (j_payload j)) (res_run r) = Ok tt
}.

(** A host may hold the job. *)
Definition holder_ok (j : JobRow) (h : string) : Prop :=
  h ∉ runnerJob_ExcludedHostIDs (j_payload j)
  ∧ j_excluded_group j ≠ Some (runnerJob_RequiredHostGroup (j_payload j))
  ∧ runnerJob_FencingToken (j_payload j) = j_fence j.

Inductive shape (id : string) (j : JobRow) : option ResultRow → Prop :=
| shape_queued : j_status j = "queued" → j_host j = None → j_lease j = None → shape id j None
| shape_running h t l : j_status j = "running" → j_host j = Some h → j_token j = Some t →
    j_lease j = Some l → holder_ok j h → shape id j None
| shape_complete r h : j_status j = "complete" → j_host j = Some h → j_lease j = None →
    holder_ok j h → result_ok id j r → shape id j (Some r)
| shape_stopped : j_status j = "attention_required" → j_host j = None → shape id j None
| shape_cancelled : j_status j = "cancelled" → shape id j None.

Record row_ok (id : string) (j : JobRow) : Prop := {
  row_id : runnerJob_ID (j_payload j) = id;
  row_purpose : runnerJob_Purpose (j_payload j) = j_purpose j;
  row_known : j_purpose j ∈ ["preflight"; "artifact_prepare"; "submission"; "confirmation"];
  row_submission : j_submission j = (if isBuild (j_payload j) then None
                                     else Some (runnerJob_SubmissionID (j_payload j)));
  row_fence : 1 ≤ j_fence j
}.

Definition cell : Type := JobRow * option ResultRow.
Definition cell_ok (id : string) (c : cell) : Prop := row_ok id c.1 ∧ shape id c.1 c.2.

(** The columns of a row no operation writes. *)
Definition same_row (j j' : JobRow) : Prop :=
  j_purpose j' = j_purpose j ∧ j_version j' = j_version j ∧ j_submission j' = j_submission j
  ∧ j_preflight j' = j_preflight j ∧ j_intent j' = j_intent j
  ∧ j_excluded_group j' = j_excluded_group j.

Inductive cell_change (id : string) : cell → cell → Prop :=
| cell_same c : cell_change id c c
| cell_leased j j' h l t : j_status j = "queued" → same_row j j' →
    same_job eq (j_payload j) (j_payload j') → j_status j' = "running" → j_host j' = Some h →
    j_token j' = Some t → j_lease j' = Some l → j_fence j' = j_fence j → holder_ok j' h →
    cell_change id (j, None) (j', None)
| cell_lapsed j j' : j_status j = "running" → same_row j j' →
    same_job (λ a b, ∀ x, x ∈ a → x ∈ b) (j_payload j) (j_payload j') →
    j_status j' ∈ ["queued"; "attention_required"] → j_host j' = None → j_lease j' = None →
    j_fence j' = j_fence j + 1 → cell_change id (j, None) (j', None)
| cell_cancelled j j' : j_status j ∈ ["queued"; "running"; "attention_required"] → same_row j j' →
    j_payload j' = j_payload j → j_status j' = "cancelled" → j_fence j' = j_fence j + 1 →
    cell_change id (j, None) (j', None)
| cell_finished j r : j_status j = "running" → result_ok id (complete_row j) r →
    cell_change id (j, None) (complete_row j, Some r).

(** A submission has been validated by two runs of its contract. *)
Record validated (s : pdb) (id : string) (tick : option Z) (p c : string) (jp jc : JobRow)
    (rp rc : ResultRow) (score : string) : Prop := {
  va_primary : rjobs s !! p = Some jp ∧ results s !! p = Some rp;
  va_confirm : rjobs s !! c = Some jc ∧ results s !! c = Some rc;
  va_purposes : j_purpose jp = "submission" ∧ j_purpose jc = "confirmation";
  va_submission : j_submission jp = Some id ∧ j_submission jc = Some id;
  va_terms : terms (j_payload jp) = terms (j_payload jc);
  va_agreed : agreed (runnerJob_Manifest (j_payload jc)) (res_run rp) (res_run rc) score;
  va_tick : tick_value "valid" score = Ok tick;
  va_independent : JobVerificationPolicy (j_payload jc) = VerificationIndependent →
    res_host rp ≠ res_host rc
    ∧ runReceipt_HostGroup (res_run rp) ≠ runReceipt_HostGroup (res_run rc)
}.

Definition decided (s : pdb) (id : string) (tick : option Z) : Prop :=
  ∃ p c jp jc rp rc score, validated s id tick p c jp jc rp rc score.

(** The primary run a confirmation follows. *)
Definition has_primary (s : pdb) (sid : string) (jc : JobRow) : Prop :=
  ∃ p jp rp, rjobs s !! p = Some jp ∧ results s !! p = Some rp ∧ j_purpose jp = "submission"
    ∧ j_submission jp = Some sid ∧ runReceipt_Outcome (res_run rp) = "valid"
    ∧ terms (j_payload jp) = terms (j_payload jc)
    ∧ (JobVerificationPolicy (j_payload jc) = VerificationIndependent →
       res_host rp ∈ runnerJob_ExcludedHostIDs (j_payload jc)).

(** The accepted artifact of a submission is what its jobs run. *)
Definition runs_artifact (s : pdb) (sid : string) (j : JobRow) : Prop :=
  ∃ x, submissions s !! sid = Some x ∧ sub_artifact x = runnerJob_ArtifactDigest (j_payload j).

Record fleet_ok (s : pdb) : Prop := {
  fo_cells : ∀ id j, rjobs s !! id = Some j → cell_ok id (j, results s !! id);
  fo_none : ∀ id, rjobs s !! id = None → results s !! id = None;
  fo_unique : ∀ a b ja jb sid, rjobs s !! a = Some ja → rjobs s !! b = Some jb →
    j_purpose ja = "submission" → j_purpose jb = "submission" →
    j_submission ja = Some sid → j_submission jb = Some sid → a = b;
  fo_primary : ∀ c jc sid, rjobs s !! c = Some jc → j_purpose jc = "confirmation" →
    j_submission jc = Some sid → has_primary s sid jc;
  fo_artifact : ∀ id j sid, rjobs s !! id = Some j → j_submission j = Some sid → runs_artifact s sid j;
  fo_valid : ∀ id x, submissions s !! id = Some x → sub_outcome x = "valid" →
    decided s id (sub_score x)
}.

(** A row an operation may add. *)
Record new_row (s : pdb) (id : string) (j : JobRow) : Prop := {
  nr_row : row_ok id j;
  nr_queued : j_status j = "queued" ∧ j_host j = None ∧ j_lease j = None ∧ j_fence j = 1;
  nr_unique : ∀ b jb sid, rjobs s !! b = Some jb → j_purpose j = "submission" →
    j_purpose jb = "submission" → j_submission j = Some sid → j_submission jb = Some sid → id = b;
  nr_primary : ∀ sid, j_purpose j = "confirmation" → j_submission j = Some sid → has_primary s sid j;
  nr_artifact : ∀ sid, j_submission j = Some sid → runs_artifact s sid j
}.

(** What an operation may do. *)
Record advance (s s' : pdb) : Prop := {
  adv_cells : ∀ id j, rjobs s !! id = Some j →
    ∃ j', rjobs s' !! id = Some j' ∧ cell_change id (j, results s !! id) (j', results s' !! id);
  adv_none : ∀ id, rjobs s !! id = None → results s !! id = None → results s' !! id = None;
  adv_new : ∀ id j, rjobs s !! id = None → rjobs s' !! id = Some j → new_row s' id j;
  adv_artifact : ∀ id x, submissions s !! id = Some x →
    ∃ x', submissions s' !! id = Some x' ∧ sub_artifact x' = sub_artifact x;
  adv_valid : ∀ id x', submissions s' !! id = Some x' → sub_outcome x' = "valid" →
    (∃ x, submissions s !! id = Some x ∧ sub_outcome x = "valid" ∧ sub_score x = sub_score x')
    ∨ decided s' id (sub_score x')
}.

(** ** Consequences of a change *)

Lemma cell_change_row id c c' : cell_change id c c' → same_row c.1 c'.1 ∧
  same_job (λ a b, ∀ x, x ∈ a → x ∈ b) (j_payload c.1) (j_payload c'.1) ∧ j_fence c.1 ≤ j_fence c'.1.
Proof.
  destruct 1 as [c|j j' h l t ? ? Hj|j j'|j j' ? ? Hj|j r]; simpl; [..|by repeat split].
  - repeat split; lia || done.
  - destruct Hj as (? & ? & ? & Hex). split_and!; [done| |lia]. repeat split; [done..|]. by rewrite Hex.
  - split_and!; [done..|lia].
  - rewrite Hj. split_and!; [done| |lia]. by repeat split.
Qed.

Lemma cell_change_done id j r c' : shape id j (Some r) → cell_change id (j, Some r) c' → c' = (j, Some r).
Proof. intros Hs Hc. by inversion Hc. Qed.

Lemma result_job id j r : shape id j (Some r) →
  j_status j = "complete" ∧ result_ok id j r ∧ holder_ok j (res_host r).
Proof.
  inversion 1 as [| |? h ? Hh ? Hk Hr| |]; subst. split_and!; [done..|].
  by rewrite (ro_holder _ _ _ Hr) in Hh; simplify_eq.
Qed.

Lemma shape_open id j o : shape id j o → j_status j ≠ "complete" → o = None.
Proof. by destruct 1. Qed.

Lemma shape_holder id j o h : shape id j o → j_status j = "running" → j_host j = Some h → holder_ok j h.
Proof. intros Hs Hr Hh. destruct Hs as [|? ? ? ? Hh'| | |]; congruence. Qed.

Lemma isBuild_same (a b : RunnerJob) : runnerJob_Purpose b = runnerJob_Purpose a → isBuild b = isBuild a.
Proof. unfold isBuild. by intros ->. Qed.

Lemma row_ok_change id j j' : row_ok id j → same_row j j' →
  same_job (λ a b, ∀ x, x ∈ a → x ∈ b) (j_payload j) (j_payload j') → j_fence j ≤ j_fence j' → row_ok id j'.
Proof.
  intros [Hi Hp Hk Hs Hf] (Hr1 & ? & Hr3 & _) (Hj1 & Hj2 & Hj3 & _) ?. constructor.
  - by rewrite Hj1.
  - by rewrite Hj2, Hr1.
  - by rewrite Hr1.
  - rewrite Hr3, Hs, (isBuild_same (j_payload j) (j_payload j')) by done.
    by replace (runnerJob_SubmissionID (j_payload j')) with (runnerJob_SubmissionID (j_payload j))
      by (unfold terms in Hj3; congruence).
  - lia.
Qed.

Lemma cell_ok_change id c c' : cell_ok id c → cell_change id c c' → cell_ok id c'.
Proof.
  intros [Hr Hs] Hc. destruct (cell_change_row _ _ _ Hc) as (C1 & C2 & C3).
  split; [by eapply row_ok_change|]. clear Hr C1 C2 C3.
  destruct Hc as [c|j j' h l t|j j' ? ? ? Hst|j j'|j r ? Hr]; simpl in *.
  - done.
  - by eapply shape_running.
  - apply list_elem_of_In in Hst as [Hst|[Hst|[]]]; [by apply shape_queued|by apply shape_stopped].
  - by apply shape_cancelled.
  - inversion Hs as [|h t l ? Hh ? ? Hk| | |]; subst; try congruence.
    by eapply (shape_complete _ _ _ h).
Qed.

(** ** The invariant is kept *)

Section Advance.
Context (s s' : pdb) (OK : fleet_ok s) (ADV : advance s s').

Lemma advance_frozen p j r : rjobs s !! p = Some j → results s !! p = Some r →
  rjobs s' !! p = Some j ∧ results s' !! p = Some r.
Proof.
  intros Hj Hr. destruct (adv_cells _ _ ADV _ _ Hj) as (j' & Hj' & Hc).
  destruct (fo_cells _ OK _ _ Hj) as [_ Hs]. rewrite Hr in Hs, Hc.
  apply (cell_change_done _ _ _ _ Hs) in Hc. by simplify_eq.
Qed.

Lemma advance_validated id tick p c jp jc rp rc score :
  validated s id tick p c jp jc rp rc score → validated s' id tick p c jp jc rp rc score.
Proof. intros [[] [] ? ? ? ? ? ?]. constructor; eauto using advance_frozen. Qed.

Lemma advance_decided id tick : decided s id tick → decided s' id tick.
Proof.
  intros (p & c & jp & jc & rp & rc & score & Hv). exists p, c, jp, jc, rp, rc, score.
  by apply advance_validated.
Qed.

(** The old row behind a row of the new state, or a new one. *)
Lemma advance_row id j' : rjobs s' !! id = Some j' →
  (∃ j, rjobs s !! id = Some j ∧ cell_change id (j, results s !! id) (j', results s' !! id))
  ∨ new_row s' id j'.
Proof.
  intros Hj'. destruct (rjobs s !! id) as [j|] eqn:Hj; [left|right; by eapply adv_new].
  destruct (adv_cells _ _ ADV _ _ Hj) as (? & ? & ?). simplify_eq. eauto.
Qed.

Lemma advance_has_primary sid jc jc' : has_primary s sid jc → terms (j_payload jc') = terms (j_payload jc) →
  (∀ x, x ∈ runnerJob_ExcludedHostIDs (j_payload jc) → x ∈ runnerJob_ExcludedHostIDs (j_payload jc')) →
  has_primary s' sid jc'.
Proof.
  intros (p & jp & rp & Hp & Hr & ? & ? & ? & Ht & Hx) Hterms Hincl.
  destruct (advance_frozen _ _ _ Hp Hr). exists p, jp, rp. split_and!; [done..|congruence|].
  intros Hi. apply Hincl, Hx. rewrite <-Hi. unfold JobVerificationPolicy.
  by replace (runnerJob_VerificationPolicy (j_payload jc')) with (runnerJob_VerificationPolicy (j_payload jc))
    by (unfold terms in Hterms; congruence).
Qed.

Lemma advance_runs_artifact sid j j' : runs_artifact s sid j → terms (j_payload j') = terms (j_payload j) →
  runs_artifact s' sid j'.
Proof.
  intros (x & Hx & Ha) Ht. destruct (adv_artifact _ _ ADV _ _ Hx) as (x' & ? & ?).
  exists x'. split; [done|]. unfold terms in Ht. congruence.
Qed.

Lemma advance_unique a b ja jb sid : rjobs s' !! a = Some ja → rjobs s' !! b = Some jb →
  j_purpose ja = "submission" → j_purpose jb = "submission" →
  j_submission ja = Some sid → j_submission jb = Some sid → a = b.
Proof.
  intros Ha Hb Hpa Hpb Hsa Hsb.
  destruct (advance_row _ _ Ha) as [(ja0 & Ha0 & Ca)|N]; [|by eapply (nr_unique _ _ _ N)].
  destruct (advance_row _ _ Hb) as [(jb0 & Hb0 & Cb)|N]; [|symmetry; by eapply (nr_unique _ _ _ N)].
  apply cell_change_row in Ca as ((Pa & _ & Sa & _) & _), Cb as ((Pb & _ & Sb & _) & _); simpl in *.
  apply (fo_unique _ OK a b ja0 jb0 sid); congruence.
Qed.

Lemma advance_ok : fleet_ok s'.
Proof.
  constructor.
  - intros id j' Hj'. destruct (advance_row _ _ Hj') as [(j & Hj & Hc)|N].
    + eapply cell_ok_change; [by apply (fo_cells _ OK)|done].
    + destruct N as [Hr (? & ? & ? & ?) _ _ _]. split; simpl; [done|].
      destruct (rjobs s !! id) as [j|] eqn:Hj.
      * destruct (adv_cells _ _ ADV _ _ Hj) as (? & ? & Hc). simplify_eq.
        eapply cell_ok_change in Hc; [apply Hc|by apply (fo_cells _ OK)].
      * rewrite (adv_none _ _ ADV) by eauto using fo_none. by apply shape_queued.
  - intros id Hid. assert (rjobs s !! id = None) as Hn.
    { apply eq_None_not_Some. intros [j Hj]. destruct (adv_cells _ _ ADV _ _ Hj) as (? & ? & _). simplify_eq. }
    apply (adv_none _ _ ADV); [done|]. by apply (fo_none _ OK).
  - apply advance_unique.
  - intros c jc sid Hc Hp Hs. destruct (advance_row _ _ Hc) as [(j & Hj & Hch)|N]; [|by apply N].
    apply cell_change_row in Hch as ((P & _ & S & _) & (_ & _ & T & X) & _); simpl in *.
    eapply advance_has_primary; [eapply (fo_primary _ OK); eauto; congruence|done|done].
  - intros id j sid Hj Hs. destruct (advance_row _ _ Hj) as [(j0 & Hj0 & Hch)|N]; [|by apply N].
    apply cell_change_row in Hch as ((_ & _ & S & _) & (_ & _ & T & _) & _); simpl in *.
    eapply advance_runs_artifact; [eapply (fo_artifact _ OK); eauto; congruence|done].
  - intros id x' Hx' Hv. destruct (adv_valid _ _ ADV _ _ Hx' Hv) as [(x & Hx & ? & <-)|]; [|done].
    apply advance_decided. by apply (fo_valid _ OK).
Qed.
End Advance.

(** ** Building a change *)

Lemma fleet_open s id j : fleet_ok s → rjobs s !! id = Some j → j_status j ≠ "complete" →
  results s !! id = None.
Proof. intros OK Hj. eapply shape_open, (fo_cells _ OK _ _ Hj). Qed.

(** No submission becomes valid, and each keeps its artifact. *)
Definition subs_kept (d d' : gmap string Submission) : Prop :=
  (∀ id x, d !! id = Some x → ∃ x', d' !! id = Some x' ∧ sub_artifact x' = sub_artifact x)
  ∧ (∀ id x', d' !! id = Some x' → sub_outcome x' = "valid" →
     ∃ x, d !! id = Some x ∧ sub_outcome x = "valid" ∧ sub_score x = sub_score x').

Lemma subs_kept_refl d : subs_kept d d.
Proof. split; eauto. Qed.

Lemma subs_kept_trans d1 d2 d3 : subs_kept d1 d2 → subs_kept d2 d3 → subs_kept d1 d3.
Proof.
  intros [A1 V1] [A2 V2]. split.
  - intros id x Hx. destruct (A1 _ _ Hx) as (y & Hy & ?). destruct (A2 _ _ Hy) as (z & ? & ?).
    exists z. split; congruence.
  - intros id x Hx Ho. destruct (V2 _ _ Hx Ho) as (y & Hy & Hvy & ?).
    destruct (V1 _ _ Hy Hvy) as (z & ? & ? & ?). exists z. split_and!; congruence.
Qed.

Lemma subs_kept_update f id d :
  (∀ x, sub_artifact (f x) = sub_artifact x) →
  (∀ x, sub_outcome (f x) = "valid" → sub_outcome x = "valid" ∧ sub_score x = sub_score (f x)) →
  subs_kept d (update f id d).
Proof.
  intros Ha Hv. unfold update. split.
  - intros i x Hx. destruct (decide (i = id)) as [->|].
    + exists (f x). by rewrite lookup_alter_eq, Hx.
    + exists x. by rewrite lookup_alter_ne.
  - intros i x' Hx' Ho. destruct (decide (i = id)) as [->|].
    + rewrite lookup_alter_eq in Hx'. apply fmap_Some in Hx' as (x & Hx & ->). naive_solver.
    + rewrite lookup_alter_ne in Hx' by done. eauto.
Qed.

Lemma subs_kept_fmap f d :
  (∀ x, sub_artifact (f x) = sub_artifact x) →
  (∀ x, sub_outcome (f x) = "valid" → sub_outcome x = "valid" ∧ sub_score x = sub_score (f x)) →
  subs_kept d (f <$> d).
Proof.
  intros Ha Hv. split; intros id x.
  - intros Hx. exists (f x). by rewrite lookup_fmap, Hx.
  - rewrite lookup_fmap. intros (y & Hy & ->)%fmap_Some ?. naive_solver.
Qed.

(** Rows change in place. *)
Lemma advance_rows s s' :
  results s' = results s →
  (∀ id, rjobs s !! id = None → rjobs s' !! id = None) →
  (∀ id j, rjobs s !! id = Some j → ∃ j', rjobs s' !! id = Some j' ∧
     cell_change id (j, results s !! id) (j', results s !! id)) →
  subs_kept (submissions s) (submissions s') → advance s s'.
Proof.
  intros Hres Hnone Hrows [Ha Hv]. constructor; rewrite ?Hres; [done|done| |done|eauto].
  intros id j Hn Hj. rewrite Hnone in Hj by done. discriminate.
Qed.

Lemma advance_kept s s' : rjobs s' = rjobs s → results s' = results s →
  subs_kept (submissions s) (submissions s') → advance s s'.
Proof. intros Hj Hr Hs. apply advance_rows; [done|by rewrite Hj| |done]. rewrite Hj. eauto using cell_same. Qed.

(** One row is written. *)
Lemma advance_row_at s s' id j j' :
  rjobs s !! id = Some j → rjobs s' = <[id := j']> (rjobs s) → results s' = results s →
  cell_change id (j, results s !! id) (j', results s !! id) →
  subs_kept (submissions s) (submissions s') → advance s s'.
Proof.
  intros Hj Hs' Hr Hc Hk. apply advance_rows; [done| | |done]; rewrite Hs'.
  - intros i Hi. destruct (decide (i = id)) as [->|]; [congruence|]. by rewrite lookup_insert_ne.
  - intros i k Hi. destruct (decide (i = id)) as [->|].
    + exists j'. rewrite lookup_insert_eq. by simplify_eq.
    + exists k. rewrite lookup_insert_ne by done. eauto using cell_same.
Qed.

(** One row is added, fit for the state before it. *)
Record fresh_ok (s : pdb) (id : string) (j : JobRow) : Prop := {
  fr_row : row_ok id j;
  fr_queued : j_status j = "queued" ∧ j_host j = None ∧ j_lease j = None ∧ j_fence j = 1;
  fr_unique : j_purpose j = "submission" → ∀ b jb, rjobs s !! b = Some jb →
    j_purpose jb = "submission" → j_submission jb ≠ j_submission j;
  fr_primary : ∀ sid, j_purpose j = "confirmation" → j_submission j = Some sid → has_primary s sid j;
  fr_artifact : ∀ sid, j_submission j = Some sid → runs_artifact s sid j
}.

Lemma advance_insert s s' id j :
  fleet_ok s → rjobs s !! id = None → rjobs s' = <[id := j]> (rjobs s) → results s' = results s →
  fresh_ok s id j → subs_kept (submissions s) (submissions s') → advance s s'.
Proof.
  intros OK Hn Hs' Hr [Frow Fq Fu Fp Fa] [Ha Hv].
  constructor; rewrite ?Hr; [|done| |done|eauto].
  - intros i k Hi. exists k. rewrite Hs', lookup_insert_ne by congruence. eauto using cell_same.
  - intros i k Hi Hk. rewrite Hs' in Hk. destruct (decide (i = id)) as [->|].
    2:{ rewrite lookup_insert_ne in Hk by done. congruence. }
    rewrite lookup_insert_eq in Hk. simplify_eq. constructor; [done..| | |].
    + intros b jb sid Hb Hp Hpb Hs Hsb. rewrite Hs' in Hb. destruct (decide (id = b)); [done|].
      rewrite lookup_insert_ne in Hb by done. destruct (Fu Hp b jb Hb Hpb). congruence.
    + intros sid Hp Hsid. destruct (Fp sid Hp Hsid) as (p & jp & rp & Hjp & Hrp & Hrest).
      exists p, jp, rp. rewrite Hr, Hs'. split; [|done].
      rewrite lookup_insert_ne; [done|]. intros ->. congruence.
    + intros sid Hsid. destruct (Fa sid Hsid) as (x & Hx & Hax). destruct (Ha _ _ Hx) as (x' & ? & ?).
      exists x'. split; congruence.
Qed.

Lemma others_advance s s' : others s s' → advance s s'.
Proof.
  intros [[Hj Hr] Ha Hv]. by apply advance_kept.
Qed.

Lemma job_exists_false s p : job_exists s p = false → ∀ id j, rjobs s !! id = Some j → p j = false.
Proof.
  unfold job_exists. intros Hx id j Hj. destruct (p j) eqn:Hp; [|done].
  rewrite <-Hx. symmetry. apply existsb_exists. exists (id, j).
  split; [by apply list_elem_of_In, elem_of_map_to_list|done].
Qed.

Lemma insert_job_ok s id j s' : insert_job s id j = Ok s' →
  rjobs s !! id = None ∧ s' = set_rjobs s (<[id := j]> (rjobs s)).
Proof.
  unfold insert_job. intros H'. ok_steps H'. bool_prop. simplify_eq. split; [|done].
  by apply eq_None_not_Some.
Qed.

End Invariant.
