(* ===== verification/FleetSteps.v ===== *)
(** Every operation of the runner service is an [advance]: the queueing of submissions
    and preparations, claims, recovery, uploads, results and editorial decisions. *)

From S2P Require Import Prelude Regex GoLib Numbers Types Scores Paths Measurement Evaluation.
From S2P Require Import Validate Sha256 GoJson Canonical Documents Results Hidden Signatures Checkpoint History.
From S2P Require Import Store Adjudication Platform Preparation Suites Runners Editorial.
From S2P Require Import AdjudicationProofs EvaluationProofs Fleet.
From stdpp Require Import relations.
Open Scope Z_scope.

Section Steps.
Context `{Crypto} `{!Pki} `{UnicodeLib} `{JsonCanonicalizer} `{ObjectStore} `{SecretSealer} `{Aead} `{Curve}.
Context `{JsonType Manifest} `{JsonType ValidatorResult} `{JsonType RunnerJob} `{JsonType RunReceipt}.
Context `{JsonType Receipt} `{JsonType BuildReport} `{JsonType ExecutorCapabilities} `{JsonType RawMessage}.
Context `{JsonType SuiteKeyMaterial}.

(** ** Queueing *)

Lemma job_not_exists s p id j : job_exists s p = false → rjobs s !! id = Some j → p j = true → False.
Proof. intros Hx Hj Hp. pose proof (job_exists_false _ _ Hx _ _ Hj). congruence. Qed.

Lemma same_id_true a id : same_id a id = true → a = Some id.
Proof. destruct a; simpl; [|done]. intros. bool_prop. congruence. Qed.

Lemma submission_lock_row s id x e r ld k :
  submission_lock s id = Some (x, e, r, ld, k) → submissions s !! id = Some x.
Proof.
  unfold submission_lock. intros (y & Hy & Hl)%bind_Some.
  repeat apply bind_Some in Hl as (? & _ & Hl). by simplify_eq.
Qed.

Lemma queueSubmission_advance (E : Env) s id s' :
  fleet_ok s → queueSubmission s id = Ok s' → advance s s'.
Proof.
  intros OK Hq. unfold queueSubmission in Hq.
  destruct (submission_lock s id) as [[[[[x e] r] ld] k]|] eqn:Hl; [|done].
  cbn beta zeta in Hq. ok_step Hq. ok_step Hq. ok_step Hq. cbn [ID] in Hq.
  destruct (job_exists _ _) eqn:Hx in Hq; simplify_eq/=; [by apply advance_kept, subs_kept_refl|].
  ok_step Hq. apply insert_job_ok in E2 as [Hn ->]. simplify_eq/=.
  apply (advance_insert _ _ (NewID (t_ids (p_core s))) (fresh_row "submission" (sub_version x) (Some id) None None
    (submission_job id (NewID (t_ids (p_core s))) (sub_receipt x) r1 x r r0) None)); [done..| |].
  - constructor; simpl.
    + constructor; simpl; [done|done|set_solver|done|lia].
    + done.
    + intros _ b jb Hb Hp Hs. apply (job_not_exists _ _ _ _ Hx Hb).
      rewrite Hs, Hp. simpl. by rewrite String.eqb_refl.
    + done.
    + intros sid [= <-]. exists x. by apply submission_lock_row in Hl.
  - apply subs_kept_update; [done|]. by intros y ?.
Qed.

Lemma queuePreparation_advance (E : Env) sv s purpose id version source artifact m s' :
  fleet_ok s → purpose = "preflight" ∨ purpose = "artifact_prepare" →
  queuePreparation sv s purpose id version source artifact m = Ok s' → advance s s'.
Proof.
  intros OK Hp Hq. unfold queuePreparation in Hq. cbn [ID] in Hq.
  set (job := preparation_job sv (NewID (t_ids (p_core s))) purpose source artifact m) in Hq.
  assert (∀ version preflight intent, row_ok (NewID (t_ids (p_core s)))
    (fresh_row purpose version None preflight intent job None)) as Hrow.
  { intros. unfold job.
    destruct Hp as [->| ->]; constructor; simpl; try (done || lia); set_solver. }
  assert (∀ version preflight intent, rjobs s !! NewID (t_ids (p_core s)) = None →
    advance s (set_rjobs (with_core s (set_ids (p_core s) (t_ids (p_core s) + 1)%N))
      (<[NewID (t_ids (p_core s)) := fresh_row purpose version None preflight intent job None]> (rjobs s)))) as Hadd.
  { intros v pf it Hn. eapply (advance_insert _ _ (NewID (t_ids (p_core s)))); [done..| |apply subs_kept_refl].
    constructor; simpl; [apply Hrow|done| |done|done].
    intros ->. by destruct Hp. }
  destruct (purpose ==s "preflight") eqn:Hpf; bool_prop; subst.
  - destruct (job_exists _ _); simplify_eq/=; [by apply advance_kept, subs_kept_refl|].
    apply insert_job_ok in Hq as [Hn ->]. by apply Hadd.
  - destruct Hp as [->| ->]; [done|].
    destruct (job_exists _ _); simplify_eq/=; [by apply advance_kept, subs_kept_refl|].
    apply insert_job_ok in Hq as [Hn ->]. by apply Hadd.
Qed.

(** ** Leases that lapse *)

Lemma exclude_incl h l x : x ∈ l → x ∈ exclude h l.
Proof. destruct l; set_solver. Qed.

Lemma exclude_host_same h job :
  same_job (λ a b, ∀ x, x ∈ a → x ∈ b) job (exclude_host h job).
Proof. repeat split. simpl. intros x. apply exclude_incl. Qed.

Lemma recover_lookup (E : Env) s id : rjobs (recoverRunnerLeases s) !! id =
  (λ j, if (j_status j ==s "running") && lease_expired j && negb (bool_decide (is_Some (results s !! id)))
        then recover_row j else j) <$> rjobs s !! id.
Proof.
  change (rjobs (recoverRunnerLeases s)) with (map_imap (λ id j,
    if (j_status j ==s "running") && lease_expired j && negb (bool_decide (is_Some (results s !! id)))
    then Some (recover_row j) else Some j) (rjobs s)).
  rewrite map_lookup_imap. destruct (rjobs s !! id); simpl; [|done]. by case_match.
Qed.

Lemma recover_advance (E : Env) s : fleet_ok s → advance s (recoverRunnerLeases s).
Proof.
  intros OK. apply advance_rows; [done| | |apply subs_kept_refl].
  - intros id Hn. by rewrite recover_lookup, Hn.
  - intros id j Hj. rewrite recover_lookup, Hj. simpl. eexists. split; [done|].
    case_match eqn:Hc; [|apply cell_same]. bool_prop.
    destruct (results s !! id) as [r|] eqn:Hr; [exfalso; eauto|].
    apply cell_lapsed; simpl; [done|done| |case_match; set_solver|done..].
    case_match; [by repeat split|]. case_match; [apply exclude_host_same|by repeat split].
Qed.

Lemma retry_advance s id j h : fleet_ok s → rjobs s !! id = Some j → j_status j = "running" →
  advance s (set_rjobs s (<[id := retry_row h j]> (rjobs s))).
Proof.
  intros OK Hj Hst. eapply (advance_row_at _ _ id); [done..| |apply subs_kept_refl].
  rewrite (fleet_open _ _ _ OK Hj) by congruence.
  apply cell_lapsed; [done|done|apply exclude_host_same|set_solver|done..].
Qed.

(** ** Claims *)

(** The claim of a job keeps what it binds. *)
Definition same_claim (a b : RunnerJob) : Prop :=
  same_job eq a b ∧ runnerJob_RequiredHostGroup b = runnerJob_RequiredHostGroup a
  ∧ runnerJob_FencingToken b = runnerJob_FencingToken a.

Lemma same_claim_refl a : same_claim a a.
Proof. by repeat split. Qed.

Lemma same_job_trans a b c : same_job eq a b → same_job eq b c → same_job eq a c.
Proof. intros (?&?&?&?) (?&?&?&?). repeat split; congruence. Qed.

Lemma same_claim_trans a b c : same_claim a b → same_claim b c → same_claim a c.
Proof. intros (?&?&?) (?&?&?). split_and!; [by eapply same_job_trans|congruence..]. Qed.

Lemma map_refs_same f job job' : map_refs f job = Ok job' → same_claim job job'.
Proof.
  unfold map_refs. intros H'. case_match.
  - ok_steps H'. simplify_eq. by repeat split.
  - ok_steps H'. simplify_eq. by repeat split.
Qed.

Lemma bind_build_profile_same job host job' : bind_build_profile job host = Ok job' → same_claim job job'.
Proof. unfold bind_build_profile. intros H'. case_match; ok_steps H'; simplify_eq; by repeat split. Qed.

Lemma bind_scan_policy_same job host job' : bind_scan_policy job host = Ok job' → same_claim job job'.
Proof. unfold bind_scan_policy. intros H'. case_match; ok_steps H'; simplify_eq; by repeat split. Qed.

Lemma grantHiddenSuite_same re rn s job host job' :
  grantHiddenSuite re rn s job host = Ok job' → same_claim job job'.
Proof.
  unfold grantHiddenSuite. intros H'. case_match; [by simplify_eq; apply same_claim_refl|].
  ok_steps H'. destruct r0 as [m d]. ok_steps H'. simplify_eq. by repeat split.
Qed.

Lemma bind_job_same (E : Env) s row host job lease : bind_job s row host = Ok (job, lease) →
  same_job eq (j_payload row) job ∧ runnerJob_RequiredHostGroup job = host_Group host
  ∧ runnerJob_FencingToken job = j_fence row.
Proof.
  unfold bind_job. intros H'. ok_step H'. ok_step H'. ok_step H'. ok_step H'. ok_step H'. ok_step H'.
  simplify_eq. apply bind_scan_policy_same in E1 as (S1 & _). apply bind_build_profile_same in E2 as S2.
  apply map_refs_same in E3 as S3. destruct (same_claim_trans _ _ _ S2 S3) as (S & HG & HF).
  split_and!; [|done..]. eapply same_job_trans; [done|exact S].
Qed.

Lemma pick_job_some s locked purposes host id row : pick_job s locked purposes host = Some (id, row) →
  rjobs s !! id = Some row ∧ claimable purposes host row = true ∧ id ∉ locked.
Proof.
  unfold pick_job. intros Hp. match type of Hp with first_least ?ok ?key None ?l = _ =>
    pose proof (first_least_spec ok key l None) as Hs end.
  rewrite Hp in Hs. destruct Hs as ([?|[Hin%elem_of_map_to_list Hok]] & _); [done|].
  simpl in *. by bool_prop.
Qed.

(** A claim waiting for its second transaction was allowed to hold the job, as long as
    the job is still offered under the same fence. *)
Definition pending_ok (s : pdb) (ph : pending * runnerIdentity) : Prop :=
  let '(p, host) := ph in
  ∃ j, rjobs s !! pd_id p = Some j ∧ pd_fence p ≤ j_fence j
    ∧ (j_status j = "queued" → j_fence j = pd_fence p →
       same_job eq (j_payload j) (pd_job p)
       ∧ runnerJob_RequiredHostGroup (pd_job p) = host_Group host
       ∧ runnerJob_FencingToken (pd_job p) = pd_fence p
       ∧ host_ID host ∉ runnerJob_ExcludedHostIDs (pd_job p)
       ∧ j_excluded_group j ≠ Some (host_Group host)).

Lemma claim_begin_pending (E : Env) sv s locked cert profile body ph :
  claim_begin sv s locked cert profile body = Ok (Some ph) → pending_ok s ph.
Proof.
  unfold claim_begin, claim_select. intros H'. ok_step H'. ok_step H'. ok_step H'. ok_step H'.
  destruct r2 as [p|]; simplify_eq/=. destruct r1 as [|pu purposes]; [done|].
  ok_step E3. ok_step E3. ok_step E3.
  destruct (pick_job s locked (pu :: purposes) r0) as [[id row]|] eqn:Hp; [|done].
  destruct (bind_job s row r0) as [[job lease]|] eqn:E5; simplify_eq/=.
  destruct (pick_job_some _ _ _ _ _ _ Hp) as (Hrow & Hc & _).
  apply bind_job_same in E5 as (Sj & HG & HF). exists row. split_and!; [done|simpl; lia|]. intros _ _.
  unfold claimable in Hc. apply andb_true_iff in Hc as [Hc Hg]. apply andb_true_iff in Hc as [_ Hx]. bool_prop.
  destruct Sj as (S1 & S2 & S3 & S4). split_and!; simpl; [done..| |].
  - rewrite <-S4. by apply not_true_iff_false in Hx; rewrite member_true in Hx.
  - case_match; bool_prop; congruence.
Qed.

Lemma pending_advance s s' ph : fleet_ok s → advance s s' → pending_ok s ph → pending_ok s' ph.
Proof.
  intros OK ADV. destruct ph as [p host]. intros (j & Hj & Hle & Hok).
  destruct (adv_cells _ _ ADV _ _ Hj) as (j' & Hj' & Hc). exists j'. split; [done|].
  destruct (cell_change_row _ _ _ Hc) as (_ & _ & Hf). simpl in Hf. split; [lia|].
  intros Hq He. inversion Hc; subst; simpl in *; try congruence; try lia; [by apply Hok|set_solver..].
Qed.

Lemma claim_finish_advance (E : Env) sv s p host token re rn s' envelope :
  fleet_ok s → pending_ok s (p, host) → claim_finish sv s p host token re rn = Ok (s', envelope) →
  advance s s' ∧ ∃ j, rjobs s !! pd_id p = Some j ∧ j_status j = "queued" ∧ j_fence j = pd_fence p.
Proof.
  intros OK (j0 & Hj0 & Hle & Hok) H'. unfold claim_finish in H'. ok_step H'. ok_step H'. ok_step H'.
  rewrite Hj0 in H'. ok_step H'. simplify_eq. apply orb_false_iff in G as [Gs Gf]. bool_prop.
  destruct (Hok Gs Gf) as (S1 & HG & HF & Hx & Hg).
  split; [|by exists j0].
  eapply (advance_row_at _ _ (pd_id p)); [done..| |apply subs_kept_refl].
  rewrite (fleet_open _ _ _ OK Hj0) by (rewrite Gs; done).
  apply map_refs_same in E0 as S2. apply grantHiddenSuite_same in E1 as S3.
  destruct (same_claim_trans _ _ _ S2 S3) as (S4 & HG' & HF').
  assert (S5 := same_job_trans _ _ _ S1 S4). destruct S4 as (_ & _ & _ & S4).
  eapply cell_leased; simpl; [done|done|done|done..|].
  split_and!; simpl; [by rewrite <-S4|by rewrite HG', HG|by rewrite HF', HF].
Qed.

(** ** Uploads and editorial decisions *)

Lemma runnerObject_advance (E : Env) sv s cert id req s' url :
  post_object sv s cert id req = Ok (s', url) → advance s s'.
Proof.
  unfold post_object, runnerObject, declare_upload. intros H'. ok_steps H'.
  simplify_eq. case_match; [case_match; [|done]|]; simplify_eq; by apply advance_kept, subs_kept_refl.
Qed.

Lemma verifyBuildObjects_advance id b order s s' r :
  verifyBuildObjects id b order s = (s', r) →
  rjobs s' = rjobs s ∧ results s' = results s ∧ p_core s' = p_core s ∧ p_intake s' = p_intake s.
Proof.
  revert s. induction order as [|role order IH]; intros s; simpl; [by intros [= <- _]|].
  unfold verify_object. repeat case_match; intros H'; simplify_eq; try done; apply IH in H'; exact H'.
Qed.

(** The fleet and the submissions are what an operation left them. *)
Definition same_runs (s s' : pdb) : Prop :=
  rjobs s' = rjobs s ∧ results s' = results s ∧ submissions s' = submissions s.

Lemma audit_submissions d v k p d' : audit d v k p = Ok d' → t_submissions d' = t_submissions d.
Proof. by intros [l ->]%audit_frame. Qed.

Lemma record_assessment_same (E : Env) s u version id contract a s' :
  record_assessment s u version id contract a = Ok s' → same_runs s s'.
Proof.
  unfold record_assessment. cbn [ID]. intros H'. ok_step H'. ok_step H'. apply (inj Ok) in H'. subst s'.
  by repeat split.
Qed.

Lemma cancel_change s version id j : fleet_ok s → rjobs s !! id = Some j →
  cell_change id (j, results s !! id) (cancel_row version j, results s !! id).
Proof.
  intros OK Hj. unfold cancel_row. case_match eqn:Hc; [|apply cell_same].
  apply andb_true_iff in Hc as [_ Hm%member_true].
  rewrite (fleet_open _ _ _ OK Hj) by (intros He; rewrite He in Hm; set_solver).
  by apply cell_cancelled.
Qed.

Lemma insert_receipt_submissions d digest r : t_submissions (insert_receipt d digest r) = t_submissions d.
Proof. unfold insert_receipt. by case_match. Qed.

Lemma resolve_unscorable_advance (E : Env) sv s u version id reason s' :
  fleet_ok s → resolve_unscorable sv s u version id reason = Ok s' → advance s s'.
Proof.
  intros OK H'. unfold resolve_unscorable in H'. cbn [ID] in H'. ok_step H'.
  apply (inj Ok) in H'. subst s'. set (ids := map fst _). clearbody ids.
  assert (∀ d, t_submissions (foldl (λ d sid, enqueue d "adjudicate" sid) d ids) = t_submissions d) as Henq.
  { clear. induction ids as [|i ids IH]; intros d; simpl; [done|]. by rewrite IH. }
  apply advance_rows; [done|..].
  - intros i Hi. unfold rjobs in *. simpl. by rewrite lookup_fmap, Hi.
  - intros i j Hj. exists (cancel_row version j). split; [|by apply cancel_change].
    unfold rjobs in *. simpl. by rewrite lookup_fmap, Hj.
  - unfold submissions, saveReceipt. simpl. rewrite insert_receipt_submissions. simpl. rewrite Henq. simpl.
    apply subs_kept_fmap; intros x; unfold void_submission; by case_match.
Qed.

Lemma same_runs_advance s s' : same_runs s s' → advance s s'.
Proof. intros (? & ? & Hs). apply advance_kept; [done..|]. rewrite Hs. apply subs_kept_refl. Qed.

Lemma editorDecision_advance (E : Env) sv s u d s' id :
  fleet_ok s → editorDecision sv s u d = Ok (s', id) → rtc advance s s'.
Proof.
  intros OK H'. unfold editorDecision in H'. ok_step H'. ok_step H'.
  destruct (i_versions _ !! _) as [v|]; [|done]. destruct (t_versions _ !! _) as [row|]; [|done].
  ok_step H'. ok_step H'. ok_step H'. destruct r1 as [v'|]; [|done]. ok_step H'. cbn [ID] in H'.
  ok_step H'. ok_step H'. ok_step H'. simplify_eq.
  match type of E3 with match _ with Some a => record_assessment ?s0 _ _ _ _ _ | None => _ end = _ =>
    assert (same_runs s s0) as S0 by done; assert (same_runs s0 r1) as S1 end.
  { destruct (decision_MetricAssessment d); [by eapply record_assessment_same|by simplify_eq]. }
  assert (same_runs s r1) as S by (destruct S0 as (?&?&?), S1 as (?&?&?); split_and!; congruence).
  assert (OK1 : fleet_ok r1) by (eapply advance_ok; [done|by apply same_runs_advance]).
  eapply rtc_l; [by apply same_runs_advance|]. destruct (decision_Action d ==s "resolve_unscorable").
  - apply resolve_unscorable_advance in E4; [|done]. eapply rtc_l; [done|]. apply rtc_once, same_runs_advance.
    apply audit_submissions in E5. by split_and!.
  - simplify_eq. apply rtc_once, same_runs_advance. apply audit_submissions in E5. by split_and!.
Qed.
End Steps.
