(* ===== verification/FleetResults.v ===== *)
(** The result of a run is an [advance]: the stored result completes its lease, and the
    decision that follows validates a submission only after two agreeing runs. *)

From S2P Require Import Prelude Regex GoLib Numbers Types Scores Paths Measurement Evaluation.
From S2P Require Import Validate Sha256 GoJson Canonical Documents Results Hidden Signatures Checkpoint History.
From S2P Require Import Store Adjudication Platform Preparation Suites Runners Editorial.
From S2P Require Import AdjudicationProofs EvaluationProofs Fleet FleetSteps.
From stdpp Require Import relations.
Open Scope Z_scope.

Section Results.
Context `{Crypto} `{!Pki} `{UnicodeLib} `{JsonCanonicalizer} `{ObjectStore}.
Context `{JsonType Manifest} `{JsonType ValidatorResult} `{JsonType RunnerJob} `{JsonType RunReceipt}.
Context `{JsonType Receipt} `{JsonType BuildReport}.

(** ** The stored result *)

Lemma advance_finish s s' id j r :
  fleet_ok s → rjobs s !! id = Some j → j_status j = "running" →
  rjobs s' = <[id := complete_row j]> (rjobs s) → results s' = <[id := r]> (results s) →
  result_ok id (complete_row j) r → subs_kept (submissions s) (submissions s') → advance s s'.
Proof.
  intros OK Hj Hst Hrows Hres Hok [Ha Hv]. constructor; [..|done|eauto].
  - intros i k Hi. rewrite Hrows, Hres. destruct (decide (i = id)) as [->|].
    + exists (complete_row j). rewrite !lookup_insert_eq. split; [done|]. simplify_eq.
      rewrite (fleet_open _ _ _ OK Hj) by (rewrite Hst; done). by apply cell_finished.
    + exists k. rewrite !lookup_insert_ne by done. eauto using cell_same.
  - intros i Hi Hr. rewrite Hres, lookup_insert_ne by congruence. done.
  - intros i k Hi Hk. rewrite Hrows, lookup_insert_ne in Hk by congruence. congruence.
Qed.

Lemma store_run_inv (E : Env) s job row run digest host s' :
  store_run s job row run digest host = Ok s' →
  results s' = <[runnerJob_ID job := mkResultRow (host_ID host) digest run Now]> (results s)
  ∧ rjobs s' = update complete_row (runnerJob_ID job) (rjobs s) ∧ submissions s' = submissions s.
Proof.
  unfold store_run. intros H'. ok_step H'. ok_step H'. apply (inj Ok) in H'. subst s'.
  split_and!; [done..|]. unfold submissions. simpl. by rewrite insert_receipt_submissions.
Qed.

Lemma live_lease_running (E : Env) row host run : live_lease row host run = true →
  j_status row = "running" ∧ j_host row = Some (host_ID host) ∧ runReceipt_FencingToken run = j_fence row
  ∧ ∃ l, j_lease row = Some l ∧ After Now l = false.
Proof.
  unfold live_lease. intros H'. bool_prop. destruct (j_host row); [|done]. destruct (j_lease row); [|done].
  bool_prop. subst. naive_solver.
Qed.

Lemma check_run_score (E : Env) job run host : check_run job run host = Ok tt → isBuild job = false →
  runReceipt_Outcome run = "valid" →
  gates_pass (runReceipt_Gates run) (runnerJob_Manifest job) = true
  ∧ check_score (runnerJob_Manifest job) run = Ok tt.
Proof.
  unfold check_run. intros H' Hb Hv. rewrite Hb, Hv in H'. cbn [andb negb] in H'.
  rewrite String.eqb_refl in H'. cbn [andb negb] in H'. ok_steps H'. bool_prop. done.
Qed.

Lemma store_run_advance (E : Env) s id row run digest host job s' d :
  fleet_ok s → rjobs s !! id = Some row → job = j_payload row → runReceipt_JobID run = id →
  runReceipt_HostID run = host_ID host → live_lease row host run = true →
  Digest job = Ok d → run_bindings job d run = true → check_run job run host = Ok tt →
  store_run s job row run digest host = Ok s' →
  advance s s' ∧ rjobs s' !! id = Some (complete_row row)
  ∧ results s' !! id = Some (mkResultRow (host_ID host) digest run Now) ∧ submissions s' = submissions s.
Proof.
  intros OK Hj -> Hid Hh Hl Hd Hb Hc Hs. apply live_lease_running in Hl as (Hst & Hhost & Hf & _).
  destruct (fo_cells _ OK _ _ Hj) as [Hrow _]. pose proof (row_id _ _ Hrow) as Hrid. simpl in Hrid.
  apply store_run_inv in Hs as (Hres & Hrows & Hsubs). rewrite Hrid in Hres, Hrows.
  assert (rjobs s' = <[id := complete_row row]> (rjobs s)) as Hrows'.
  { rewrite Hrows. unfold update. apply map_eq. intros i. destruct (decide (i = id)) as [->|].
    - by rewrite lookup_alter_eq, lookup_insert_eq, Hj.
    - by rewrite lookup_alter_ne, lookup_insert_ne. }
  split_and!; [|by rewrite Hrows', lookup_insert_eq|by rewrite Hres, lookup_insert_eq|done].
  eapply advance_finish; [done..| |rewrite Hsubs; apply subs_kept_refl].
  constructor; simpl; [done..|by eauto|]. intros. by eapply check_run_score.
Qed.

(** ** The decision on a submission *)

Lemma incident_advance (E : Env) s job version s' : incident s job version = Ok s' → advance s s'.
Proof.
  unfold incident. intros H'. ok_step H'. apply (inj Ok) in H'. subst s'. apply audit_submissions in E0.
  apply advance_kept; [done..|]. unfold submissions in *. simpl in *. rewrite E0.
  by apply subs_kept_update.
Qed.

(** The facts about a completed competitive job. *)
Record completed (s : pdb) (id : string) (j : JobRow) (run : RunReceipt) (host : runnerIdentity) : Prop := {
  co_row : rjobs s !! id = Some j;
  co_result : ∃ digest t, results s !! id = Some (mkResultRow (host_ID host) digest run t);
  co_job : runReceipt_JobID run = id;
  co_group : runReceipt_HostGroup run = host_Group host;
  co_build : isBuild (j_payload j) = false
}.

Lemma completed_submission s id j run host : fleet_ok s → completed s id j run host →
  row_ok id j ∧ j_submission j = Some (runnerJob_SubmissionID (j_payload j))
  ∧ holder_ok j (host_ID host) ∧ competitive (j_purpose j).
Proof.
  intros OK [Hj (dg & t & Hr) _ _ Hb]. destruct (fo_cells _ OK _ _ Hj) as [Hrow Hs]. simpl in *.
  rewrite Hr in Hs. apply result_job in Hs as (_ & _ & Hh). split_and!; [done| |done|].
  - by rewrite (row_submission _ _ Hrow), Hb.
  - pose proof (row_known _ _ Hrow) as Hk. pose proof (row_purpose _ _ Hrow) as Hp.
    unfold isBuild in Hb. rewrite Hp in Hb. bool_prop. unfold competitive. set_unfold in Hk. naive_solver.
Qed.

Lemma queue_confirmation_advance (E : Env) s id j run host version s' :
  fleet_ok s → completed s id j run host → j_purpose j = "submission" → runReceipt_Outcome run = "valid" →
  queue_confirmation s (j_payload j) host version = Ok s' → advance s s'.
Proof.
  intros OK Hc Hp Hv H'. destruct (completed_submission _ _ _ _ _ OK Hc) as (Hrow & Hsub & _ & _).
  unfold queue_confirmation in H'. cbn [ID] in H'. ok_step H'. apply (inj Ok) in H'. subst s'.
  apply insert_job_ok in E0 as [Hn ->]. destruct Hc as [Hj (dg & t & Hr) Hid Hg Hb].
  eapply (advance_insert _ _ (NewID (t_ids (p_core s)))); [done..| |by apply subs_kept_update].
  constructor; simpl; [|done|done|..].
  - constructor; simpl; [done|done|set_solver|done|lia].
  - intros sid _ [= <-]. exists id, j, (mkResultRow (host_ID host) dg run t). split_and!; [done..|].
    intros Hi. simpl in *. unfold JobVerificationPolicy in *. simpl in *. rewrite Hi. simpl. set_solver.
  - intros sid [= <-]. destruct (fo_artifact _ OK _ _ _ Hj Hsub) as (x & Hx & Ha). by exists x.
Qed.

Lemma primary_result_some s sid first : primary_result s sid = Some first →
  ∃ p jp rp, rjobs s !! p = Some jp ∧ results s !! p = Some rp ∧ j_purpose jp = "submission"
    ∧ j_submission jp = Some sid ∧ res_run rp = first.
Proof.
  unfold primary_result. intros (kv & Hf & [= <-])%bind_Some. apply find_some in Hf as [Hin Hc].
  destruct kv as [p rp]. apply list_elem_of_In, elem_of_map_to_list in Hin. simpl in *.
  destruct (rjobs s !! p) as [jp|] eqn:Hjp; [|done]. bool_prop. exists p, jp, rp.
  split_and!; [done..| |done]. by apply same_id_true.
Qed.

Lemma confirm_valid m first run score : confirm m first run = ("valid", score) → agreed m first run score.
Proof.
  unfold confirm, disagreement. case_match eqn:Ho.
  - by case_match.
  - apply negb_false_iff, String.eqb_eq in Ho. destruct (runReceipt_Outcome run ==s "valid") eqn:Hv.
    + apply String.eqb_eq in Hv. case_match eqn:Hc; [intros [= <-]|by case_match].
      split_and!; [congruence|done|done].
    + intros [= Hx _]. by rewrite Hx in Hv.
Qed.

Lemma confirmation_decided s id j run host score tick :
  fleet_ok s → completed s id j run host → j_purpose j = "confirmation" →
  confirmation_decision s (j_payload j) run host = Ok ("valid", score) →
  tick_value "valid" score = Ok tick →
  decided s (runnerJob_SubmissionID (j_payload j)) tick.
Proof.
  intros OK Hc Hp Hd Ht. destruct (completed_submission _ _ _ _ _ OK Hc) as (Hrow & Hsub & (Hex & _ & _) & _).
  destruct Hc as [Hj (dg & t & Hr) Hid Hg Hb]. unfold confirmation_decision in Hd.
  ok_step Hd. ok_step Hd. ok_step Hd. apply (inj Ok) in Hd. apply confirm_valid in Hd.
  apply primary_result_some in E as (p & jp & rp & Hjp & Hrp & Hpp & Hps & <-).
  destruct (fo_primary _ OK _ _ _ Hj Hp Hsub) as (p' & jp' & rp' & Hjp' & Hrp' & Hpp' & Hps' & _ & Hterms & Hexcl).
  assert (p' = p) as -> by eauto using fo_unique.
  rewrite Hjp in Hjp'. apply (inj Some) in Hjp' as <-. rewrite Hrp in Hrp'. apply (inj Some) in Hrp' as <-.
  exists p, id, jp, j, rp, (mkResultRow (host_ID host) dg run t), score.
  constructor; [done..|]. intros Hi. split; simpl.
  - intros He. apply Hex. rewrite <-He. by apply Hexcl.
  - rewrite Hg. intros He. rewrite Hi, He, !String.eqb_refl in G. done.
Qed.

Lemma decided_same s s' id tick : rjobs s' = rjobs s → results s' = results s →
  decided s id tick → decided s' id tick.
Proof.
  intros Hj Hr (p & c & jp & jc & rp & rc & score & [? ? ? ? ? ? ? ?]).
  exists p, c, jp, jc, rp, rc, score. by constructor; rewrite ?Hj, ?Hr.
Qed.

Lemma advance_outcome s s' sid f :
  rjobs s' = rjobs s → results s' = results s → submissions s' = update f sid (submissions s) →
  (∀ x, sub_artifact (f x) = sub_artifact x) →
  (∀ x, sub_outcome (f x) = "valid" → decided s sid (sub_score (f x))) → advance s s'.
Proof.
  intros Hj Hr Hs Ha Hd. unfold update in Hs. constructor.
  - intros id j ?. exists j. rewrite Hj, Hr. eauto using cell_same.
  - by rewrite Hr.
  - intros id j. rewrite Hj. congruence.
  - intros id x Hx. rewrite Hs. destruct (decide (id = sid)) as [->|].
    + exists (f x). by rewrite lookup_alter_eq, Hx.
    + exists x. by rewrite lookup_alter_ne.
  - intros id x'. rewrite Hs. destruct (decide (id = sid)) as [->|].
    + rewrite lookup_alter_eq. intros (x & Hx & ->)%fmap_Some Hv. right. eapply decided_same; eauto.
    + rewrite lookup_alter_ne by done. eauto.
Qed.

Lemma finish_submission_advance (E : Env) s sid version outcome score s' :
  (outcome = "valid" → ∀ tick, tick_value "valid" score = Ok tick → decided s sid tick) →
  finish_submission s sid version outcome score = Ok s' → advance s s'.
Proof.
  intros Hdec H'. unfold finish_submission in H'. ok_step H'. apply (inj Ok) in H'. subst s'.
  eapply (advance_outcome _ _ sid (set_sub_outcome "validated" outcome r)); [by case_match..|done|].
  simpl. intros _ ->. by apply Hdec.
Qed.

Lemma decide_run_advance (E : Env) s id j run host version s' r :
  fleet_ok s → completed s id j run host → decide_run s (j_payload j) run host version = Ok (s', r) →
  advance s s'.
Proof.
  intros OK Hc H'. destruct (completed_submission _ _ _ _ _ OK Hc) as (Hrow & Hsub & _ & Hcomp).
  pose proof (row_purpose _ _ Hrow) as Hpp. unfold decide_run in H'. rewrite Hpp in H'.
  destruct (runReceipt_Outcome run ==s "challenge_fault").
  { ok_step H'. simplify_eq. by eapply incident_advance. }
  destruct ((runReceipt_Outcome run ==s "valid") && (j_purpose j ==s "submission")) eqn:Hv.
  { ok_step H'. simplify_eq. bool_prop. by eapply queue_confirmation_advance. }
  ok_step H'. ok_step H'. simplify_eq. eapply finish_submission_advance; [|done].
  intros Ho tick Ht. destruct r0 as [outcome score]. simpl in *. subst outcome.
  destruct Hcomp as [Hp|Hp]; rewrite Hp in *; simpl in E0.
  - apply (inj Ok) in E0. injection E0 as Ho _. by rewrite Ho in Hv.
  - by eapply confirmation_decided.
Qed.

(** ** Builds *)

Lemma commit_failed_build_same s job row b version : same_runs s (commit_failed_build s job row b version).
Proof. unfold commit_failed_build. by case_match. Qed.

Lemma commit_ref_same id owner s entry s' : commit_ref id owner s entry = Ok s' → same_runs s s'.
Proof.
  unfold commit_ref, insert_blob. intros H'. repeat case_match; simplify_eq; by repeat split.
Qed.

Lemma same_runs_trans s1 s2 s3 : same_runs s1 s2 → same_runs s2 s3 → same_runs s1 s3.
Proof. intros (?&?&?) (?&?&?). split_and!; congruence. Qed.

Lemma commit_refs_same id owner l s s' : foldM (commit_ref id owner) s l = Ok s' → same_runs s s'.
Proof.
  eapply (foldM_ind _ (λ s', same_runs s s')); [|by repeat split].
  intros s1 x s2 _ Hs Hc. eapply same_runs_trans; [done|]. by eapply commit_ref_same.
Qed.

Lemma record_conformance_same (E : Env) sv s job b owner preflight version policy status runs groups s' :
  record_conformance sv s job b owner preflight version policy status runs groups = Ok s' → same_runs s s'.
Proof.
  unfold record_conformance. cbn [ID]. intros H'. ok_step H'. ok_step H'. ok_step H'.
  apply (inj Ok) in H'. subst s'. by repeat split.
Qed.

Lemma commit_preflight_advance (E : Env) sv s job run b digest version owner preflight s' :
  fleet_ok s → runnerJob_Purpose job = "preflight" →
  commit_preflight sv s job run b digest version owner preflight = Ok s' → advance s s'.
Proof.
  intros OK Hp H'. unfold commit_preflight in H'. ok_step H'. case_match.
  - case_match.
    + ok_step H'. by eapply same_runs_advance, record_conformance_same.
    + cbn [ID] in H'. ok_step H'. apply (inj Ok) in H'. subst s'. apply insert_job_ok in E0 as [Hn ->].
      eapply (advance_insert _ _ (NewID (t_ids (p_core s)))); [done..| |apply subs_kept_refl].
      constructor; simpl; [|done|done|done|done]. constructor; simpl; [done|done|set_solver| |lia].
      unfold isBuild. simpl. by rewrite Hp.
  - by eapply same_runs_advance, record_conformance_same.
Qed.

Lemma commitBuild_advance (E : Env) sv s job run digest version s' :
  fleet_ok s → isBuild job = true → commitBuild sv s job run digest version = Ok s' → rtc advance s s'.
Proof.
  intros OK Hb H'. unfold commitBuild in H'. ok_step H'. ok_step H'.
  case_match; [apply (inj Ok) in H'; subst; apply rtc_once, same_runs_advance, commit_failed_build_same|].
  ok_step H'. ok_step H'. ok_step H'. ok_step H'. apply commit_refs_same in E5.
  eapply rtc_l; [by apply same_runs_advance|]. case_match.
  - destruct (j_intent r0); [|done]. destruct (buildReport_SubmissionDisk r); [|done].
    apply (inj Ok) in H'. subst s'. by apply rtc_once, same_runs_advance.
  - destruct (j_preflight r0); [|done]. apply rtc_once.
    eapply commit_preflight_advance; [eapply advance_ok; [done|by apply same_runs_advance]| |done].
    unfold isBuild in Hb. apply orb_true_iff in Hb as [?|?]; bool_prop; congruence.
Qed.

(** ** The request *)

Lemma open_run_inv (E : Env) sv host id envelope run digest : open_run sv host id envelope = Ok (run, digest) →
  runReceipt_JobID run = id ∧ runReceipt_HostID run = host_ID host ∧ runReceipt_HostGroup run = host_Group host.
Proof. unfold open_run. intros H'. ok_steps H'. simplify_eq. by bool_prop. Qed.

Lemma commit_run_advance (E : Env) sv s run digest token host s' r :
  fleet_ok s → runReceipt_HostID run = host_ID host → runReceipt_HostGroup run = host_Group host →
  commit_run sv s run digest token host = Ok (s', r) → rtc advance s s'.
Proof.
  intros OK Hh Hg H'. unfold commit_run in H'. ok_step H'. ok_step H'. ok_step H'.
  destruct (j_status r0 ==s "complete").
  { ok_step H'. ok_step H'. simplify_eq. apply rtc_refl. }
  ok_step H'. ok_step H'. ok_step H'. apply negb_false_iff in G0, G1.
  destruct (runReceipt_Outcome run ==s "infrastructure_fault").
  { simplify_eq. apply rtc_once. apply retry_advance; [done..|]. by apply live_lease_running in G0 as [? _]. }
  ok_step H'. ok_step H'. destruct r3.
  destruct (store_run_advance E s _ _ _ _ _ _ _ _ OK E0 eq_refl eq_refl Hh G0 E2 G1 E3 E4)
    as (ADV & Hrow & Hres & _).
  eapply rtc_l; [done|]. pose proof (advance_ok _ _ OK ADV) as OK'.
  destruct (isBuild (j_payload r0)) eqn:Hb.
  - ok_step H'. simplify_eq. by eapply commitBuild_advance.
  - apply rtc_once. eapply (decide_run_advance E _ _ (complete_row r0)); [done| |exact H'].
    constructor; eauto.
Qed.

Lemma post_result_advance (E : Env) sv order s cert id token envelope s' r :
  fleet_ok s → post_result sv order s cert id token envelope = (s', r) → rtc advance s s'.
Proof.
  intros OK H'. unfold post_result in H'. destruct (identify s cert) as [host|]; [|by simplify_eq].
  unfold runnerResult in H'. destruct (open_run sv host id envelope) as [[run digest]|] eqn:Ho; [|by simplify_eq].
  apply open_run_inv in Ho as (_ & Hh & Hg).
  destruct (match runReceipt_BuildReport run with Some b => _ | None => _ end) as [s1 v] eqn:Hv.
  assert (advance s s1) as ADV.
  { destruct (runReceipt_BuildReport run).
    - apply verifyBuildObjects_advance in Hv as (? & ? & Hc & _). apply same_runs_advance.
      split_and!; [done..|]. unfold submissions. by rewrite Hc.
    - simplify_eq. by apply same_runs_advance. }
  eapply rtc_l; [done|]. pose proof (advance_ok _ _ OK ADV) as OK1.
  destruct v; [|by simplify_eq]. destruct (commit_run _ _ _ _ _ _) as [[s2 r2]|] eqn:Hc; simplify_eq.
  - by eapply commit_run_advance.
  - apply rtc_refl.
Qed.
End Results.
