(* ===== verification/RunnersProofs.v ===== *)
(** The runner service over all interleavings of its operations: leases are exclusive
    and fenced, results are permanent, and a submission is valid only after two agreeing
    runs of its accepted artifact. *)

From S2P Require Import Prelude Regex GoLib Numbers Types Scores Paths Measurement Evaluation.
From S2P Require Import Validate Sha256 GoJson Canonical Documents Results Hidden Signatures Checkpoint History.
From S2P Require Import Store Adjudication Platform Preparation Suites Runners Editorial.
From S2P Require Import AdjudicationProofs EvaluationProofs Fleet FleetSteps FleetResults.
From stdpp Require Import relations.
Open Scope Z_scope.

Section Reach.
Context `{Crypto} `{!Pki} `{UnicodeLib} `{JsonCanonicalizer} `{ObjectStore} `{SecretSealer} `{Aead} `{Curve}.
Context `{JsonType Manifest} `{JsonType ValidatorResult} `{JsonType RunnerJob} `{JsonType RunReceipt}.
Context `{JsonType Receipt} `{JsonType BuildReport} `{JsonType ExecutorCapabilities} `{JsonType RawMessage}.
Context `{JsonType SuiteKeyMaterial}.

(** ** The invariant of the system *)

(** A granted lease is never offered again. *)
Definition granted_ok (s : pdb) (g : string * Z) : Prop :=
  ∃ j, rjobs s !! g.1 = Some j ∧ g.2 ≤ j_fence j ∧ (j_fence j = g.2 → j_status j ≠ "queued").

Record sys_ok (y : sys) : Prop := {
  sy_fleet : fleet_ok (y_db y);
  sy_pending : ∀ ph, ph ∈ y_pending y → pending_ok (y_db y) ph;
  sy_granted : ∀ g, g ∈ y_granted y → granted_ok (y_db y) g;
  sy_once : NoDup (y_granted y)
}.

Lemma granted_advance s s' g : fleet_ok s → advance s s' → granted_ok s g → granted_ok s' g.
Proof.
  intros OK ADV (j & Hj & Hle & Hq). destruct (adv_cells _ _ ADV _ _ Hj) as (j' & Hj' & Hc).
  exists j'. split; [done|]. destruct (cell_change_row _ _ _ Hc) as (_ & _ & Hf). simpl in Hf.
  split; [lia|]. intros He Hs. inversion Hc; subst; simpl in *; try congruence; try lia.
  by apply Hq.
Qed.

Lemma advances_keep (P : pdb → Prop) s s' :
  (∀ s s', fleet_ok s → advance s s' → P s → P s') →
  fleet_ok s → rtc advance s s' → P s → fleet_ok s' ∧ P s'.
Proof.
  intros HP OK Hr. induction Hr as [s|s s1 s' ADV _ IH]; intros Hs; [done|].
  apply IH; [by eapply advance_ok|by eapply HP].
Qed.

Lemma sys_advance y s' : sys_ok y → rtc advance (y_db y) s' → sys_ok (set_db y s').
Proof.
  intros [OK Hp Hg Ho] Hr. constructor; simpl; [..|done].
  - by eapply (advances_keep (λ _, True)).
  - intros ph Hph. eapply (advances_keep (λ s, pending_ok s ph)); eauto using pending_advance.
  - intros g Hin. eapply (advances_keep (λ s, granted_ok s g)); eauto using granted_advance.
Qed.

Lemma step_ok y y' : sys_ok y → step y y' → sys_ok y' ∧ rtc advance (y_db y) (y_db y').
Proof.
  intros OK Hstep. pose proof (sy_fleet _ OK) as OKf.
  assert (∀ s', rtc advance (y_db y) s' → sys_ok (set_db y s') ∧ rtc advance (y_db y) (y_db (set_db y s'))) as Hset.
  { intros s' Hr. split; [by apply sys_advance|done]. }
  destruct Hstep as [E y id s' Hq|E y sv purpose id version source artifact m s' Hp Hq
    |E y sv locked cert profile body p Hb|E y sv p host token re rn s' env Hin Hf|E y
    |E y sv cert id req s' url Ho|E y sv order cert id token env s' r Hr|E y sv u d s' id He|y s' Hs].
  - apply Hset, rtc_once. by eapply queueSubmission_advance.
  - apply Hset, rtc_once. by eapply queuePreparation_advance.
  - split; [|apply rtc_refl]. destruct OK as [OK Hp Hg Ho]. constructor; simpl; [done| |done|done].
    intros ph [->|Hph]%elem_of_cons; [by eapply claim_begin_pending|by apply Hp].
  - destruct (claim_finish_advance _ _ _ _ _ _ _ _ _ _ OKf (sy_pending _ OK _ Hin) Hf) as (ADV & j & Hj & Hst & Hfe).
    assert (rtc advance (y_db y) s') as Hr by by apply rtc_once.
    split; [|done]. destruct (sys_advance _ _ OK Hr) as [OK' Hp Hg Ho]. constructor; simpl; [done|done| |].
    + intros g [->|Hg']%elem_of_cons; [|by apply Hg].
      destruct (adv_cells _ _ ADV _ _ Hj) as (j' & Hj' & Hc). exists j'. simpl. split; [done|].
      destruct (cell_change_row _ _ _ Hc) as (_ & _ & Hle). simpl in Hle. split; [lia|]. intros _.
      revert Hf. unfold claim_finish. rewrite Hj. intros Hf. do 4 ok_step Hf. simplify_eq.
      unfold rjobs in Hj'. simpl in Hj'. rewrite lookup_insert_eq in Hj'. by simplify_eq.
    + constructor; [|done]. intros Hg'. destruct (sy_granted _ OK _ Hg') as (j1 & Hj1 & _ & Hq).
      simpl in *. rewrite Hj in Hj1. simplify_eq. by apply Hq.
  - by apply Hset, rtc_once, recover_advance.
  - apply Hset, rtc_once. by eapply runnerObject_advance.
  - apply Hset. by eapply post_result_advance.
  - apply Hset. by eapply editorDecision_advance.
  - by apply Hset, rtc_once, others_advance.
Qed.

Lemma idle_ok s : idle s → sys_ok (mkSys s [] []).
Proof.
  intros (Hj & Hr & Hs). constructor; simpl; [|set_solver|set_solver|constructor].
  constructor; rewrite ?Hj, ?Hr; [done|done|done|done|done|].
  intros id x Hx Hv. by destruct (Hs id x).
Qed.

Lemma reachable_ok y : reachable y → sys_ok y.
Proof. induction 1 as [s Hs|y y' _ IH Hst]; [by apply idle_ok|by destruct (step_ok _ _ IH Hst)]. Qed.

Lemma steps_advance y y' : sys_ok y → rtc step y y' → sys_ok y' ∧ rtc advance (y_db y) (y_db y').
Proof.
  intros OK Hr. induction Hr as [y|y y1 y2 Hst _ IH]; [by split; [|apply rtc_refl]|].
  destruct (step_ok _ _ OK Hst) as [OK1 A1]. destruct (IH OK1) as [OK2 A2].
  split; [done|]. by etrans.
Qed.

(** ** Leases *)

Lemma phase_queued j : j_status j = "queued" → phase_of (Some j) = Queued (j_fence j).
Proof. unfold phase_of. by intros ->. Qed.

Lemma phase_running j : j_status j = "running" → phase_of (Some j) = Leased (j_fence j) (default "" (j_host j)).
Proof. unfold phase_of. by intros ->. Qed.

Lemma phase_stopped j : j_status j = "attention_required" → phase_of (Some j) = Stopped (j_fence j).
Proof. unfold phase_of. by intros ->. Qed.

Lemma phase_cancelled j : j_status j = "cancelled" → phase_of (Some j) = Cancelled (j_fence j).
Proof. unfold phase_of. by intros ->. Qed.

Lemma cell_change_lease id c c' : cell_change id c c' →
  rtc lease_step (phase_of (Some c.1)) (phase_of (Some c'.1)).
Proof.
  destruct 1 as [c|j j' h l t Hq ? ? Hr Hh ? ? Hf ?|j j' Hr ? ? Hst ? ? Hf|j j' Hst ? ? Hc Hf|j r Hr ?]; cbn [fst snd].
  - apply rtc_refl.
  - rewrite (phase_queued j), (phase_running j'), Hf, Hh by done. apply rtc_once. constructor.
  - rewrite (phase_running j) by done. apply rtc_once. set_unfold in Hst. destruct Hst as [Hst|Hst].
    + rewrite (phase_queued j'), Hf by done. constructor.
    + destruct Hst as [Hst|[]]. rewrite (phase_stopped j'), Hf by done. constructor.
  - rewrite (phase_cancelled j'), Hf by done. apply rtc_once.
    apply list_elem_of_In in Hst as [Hst|[Hst|[Hst|[]]]]; symmetry in Hst.
    + rewrite (phase_queued j) by done. constructor.
    + rewrite (phase_running j) by done. constructor.
    + rewrite (phase_stopped j) by done. constructor.
  - rewrite (phase_running j) by done. apply rtc_once. constructor.
Qed.

Lemma advance_lease s s' id : fleet_ok s → advance s s' →
  rtc lease_step (phase_of (rjobs s !! id)) (phase_of (rjobs s' !! id)).
Proof.
  intros OK ADV. destruct (rjobs s !! id) as [j|] eqn:Hj.
  - destruct (adv_cells _ _ ADV _ _ Hj) as (j' & -> & Hc). by apply cell_change_lease in Hc.
  - destruct (rjobs s' !! id) as [j'|] eqn:Hj'; [|apply rtc_refl].
    destruct (adv_new _ _ ADV _ _ Hj Hj') as [_ (Hq & _ & _ & Hf) _ _ _].
    rewrite (phase_queued j'), Hf by done. apply rtc_once, lease_offer.
Qed.

Lemma advances_lease s s' id : fleet_ok s → rtc advance s s' →
  rtc lease_step (phase_of (rjobs s !! id)) (phase_of (rjobs s' !! id)).
Proof.
  intros OK Hr. induction Hr as [s|s s1 s' ADV _ IH]; [apply rtc_refl|].
  etrans; [by eapply advance_lease|]. apply IH. by eapply advance_ok.
Qed.

(** C2: the runner service implements the abstract lease: in every reachable state, any
    operation (queueing, claiming, recovery, a result, an editorial decision, in any
    interleaving) moves each job along steps of [lease_step] only, so a job is leased to
    one host at a time, comes back only under the next fence, and never leaves the
    finished or cancelled state. *)
Theorem runner_implements_lease y y' id : reachable y → step y y' →
  rtc lease_step (phase_of (rjobs (y_db y) !! id)) (phase_of (rjobs (y_db y') !! id)).
Proof.
  intros Hr Hst. pose proof (reachable_ok _ Hr) as OK. destruct (step_ok _ _ OK Hst) as [_ Ha].
  apply advances_lease; [apply OK|done].
Qed.

(** C6: whatever the interleaving of claims, recoveries and results, no job is granted
    twice under one fence: the compare-and-set on (status, fence) is free of ABA, even
    for claims whose two transactions are separated by any number of other steps. *)
Theorem lease_granted_once y : reachable y → NoDup (y_granted y).
Proof. intros Hr. apply (sy_once _ (reachable_ok _ Hr)). Qed.

(** C24: in every reachable state the runner tables are well-formed: a job's payload, row
    and result agree, a running or finished job is held by a host its exclusions admit
    under the fence it was signed for, a result exists exactly for a finished job and is
    bound to its payload, and a submission has at most one primary job. *)
Theorem runner_tables_well_formed y : reachable y → fleet_ok (y_db y).
Proof. intros Hr. apply (sy_fleet _ (reachable_ok _ Hr)). Qed.

(** ** Results *)

Lemma advance_frozen_rtc s s' id j r : fleet_ok s → rtc advance s s' →
  rjobs s !! id = Some j → results s !! id = Some r → rjobs s' !! id = Some j ∧ results s' !! id = Some r.
Proof.
  intros OK Hr Hj Hres. eapply (advances_keep (λ s, rjobs s !! id = Some j ∧ results s !! id = Some r));
    [|done|done|done]. intros s1 s2 OK1 ADV [? ?]. by eapply advance_frozen.
Qed.

(** A stored result is permanent: no later step, of any operation, changes it or the
    job it completed. *)
Theorem results_permanent y y' id r : reachable y → rtc step y y' →
  results (y_db y) !! id = Some r →
  results (y_db y') !! id = Some r ∧ rjobs (y_db y') !! id = rjobs (y_db y) !! id.
Proof.
  intros Hr Hst Hres. pose proof (reachable_ok _ Hr) as OK. destruct (steps_advance _ _ OK Hst) as [_ Ha].
  destruct (rjobs (y_db y) !! id) as [j|] eqn:Hj.
  - destruct (advance_frozen_rtc _ _ _ _ _ (sy_fleet _ OK) Ha Hj Hres) as [? ?]. done.
  - rewrite (fo_none _ (sy_fleet _ OK) _ Hj) in Hres. done.
Qed.

Lemma fence_grows s s' id j : fleet_ok s → rtc advance s s' → rjobs s !! id = Some j →
  ∃ j', rjobs s' !! id = Some j' ∧ j_fence j ≤ j_fence j'.
Proof.
  intros OK Hr Hj.
  eapply (advances_keep (λ s, ∃ j', rjobs s !! id = Some j' ∧ j_fence j ≤ j_fence j'));
    [|done|done|by exists j; split; [|lia]].
  intros s1 s2 OK1 ADV (j1 & Hj1 & Hle). destruct (adv_cells _ _ ADV _ _ Hj1) as (j2 & Hj2 & Hc).
  exists j2. split; [done|]. apply cell_change_row in Hc as (_ & _ & Hf). simpl in Hf. lia.
Qed.


End Reach.
