(* ===== verification/IntakeProofs.v ===== *)
(** The door to the platform: idempotent requests run once, preparation and ticket budgets
    hold, a ticket admits one intent, acceptance assigns the next sequence number against
    reserved capacity, publication follows finalisation; and none of it touches the runner
    fleet or a verified outcome. *)

From S2P Require Import Prelude Regex GoLib Numbers Types Scores Paths Measurement Evaluation Validate EvaluationProofs.
From S2P Require Import Sha256 GoJson Canonical Documents Results Frontier Hidden Store Adjudication AdjudicationProofs.
From S2P Require Import LedgerProofs Signatures Checkpoint History Platform Preparation Suites Runners Editorial Intake.
From S2P Require Import Submissions Fleet.
Open Scope Z_scope.

(** * Idempotent requests *)

(** A mutation runs at most once per key: after it succeeds, the same request under
    the same key is answered with the stored response and changes nothing, whatever the
    handler would do now, and a different request under that key is refused. *)
Theorem mutate_runs_once s u key h fn s' r :
  (∀ s s' r, fn s = Ok (s', r) → d_idempotency (p_desk s') = d_idempotency (p_desk s)) →
  mutate s u key h fn = Ok (s', r) →
  (∀ fn', mutate s' u key h fn' = Ok (s', r)) ∧
  (∀ h' fn', h' ≠ h → mutate s' u key h' fn' = Err "idempotency_conflict").
Proof.
  intros Hfn Hm. cut (∃ row, d_idempotency (p_desk s') !! (user_ID u, key) = Some row
    ∧ id_hash row = h ∧ id_response row = Some r ∧ matches idemRE key = true).
  { intros (row & Hrow & Hh & Hr & Hk). unfold mutate. rewrite Hk, Hrow, Hh. simpl. split.
    - intros _. by rewrite String.eqb_refl, Hr.
    - intros h' _ Hne. by rewrite (proj2 (String.eqb_neq h h')). }
  unfold mutate in Hm. ok_step Hm. bool_prop.
  destruct (d_idempotency (p_desk s) !! (user_ID u, key)) as [row|] eqn:Hrow.
  - ok_step Hm. destruct (id_response row) as [resp|] eqn:Hresp; simplify_eq. bool_prop. by exists row.
  - ok_step Hm. destruct r0 as [s1 r1]. simplify_eq. apply Hfn in E. simpl in E.
    exists (mkIdemRow h (Some r)). split_and!; [|done..].
    simpl. by rewrite lookup_alter_eq, E, lookup_insert_eq.
Qed.

(** * Preparation budgets *)

Lemma used_on_insert day m k n : m !! k = None →
  used_on day (<[k := n]> m) = (if k.2 =? day then n else 0) + used_on day m.
Proof.
  intros Hk. unfold used_on. rewrite map_fold_insert_L; [done| |done].
  intros. destruct (_ =? _), (_ =? _); lia.
Qed.

Lemma used_on_update day m k n n' : m !! k = Some n →
  used_on day (<[k := n']> m) = (if k.2 =? day then n' - n else 0) + used_on day m.
Proof.
  intros Hk. rewrite <-(insert_id m k n Hk) at 2. rewrite <-(insert_delete_eq m k n'), <-(insert_delete_eq m k n).
  rewrite !used_on_insert by by rewrite lookup_delete_eq. destruct (_ =? _); lia.
Qed.

Lemma preparationDailyLimit_range role n : 20 ≤ preparationDailyLimit role n ≤ 1000.
Proof. unfold preparationDailyLimit. repeat case_match; bool_prop; lia. Qed.

(** A granted preparation is charged to the account's budget of the current UTC day,
    exactly once, and never beyond the limits: fewer than five preparations under way,
    at most the account's daily limit (twenty, or up to a thousand for an operator) and
    at most a thousand over all accounts; no other account or day is touched. *)
Theorem reservePreparation_exact `{Env} `{Crypto} sv s u s' :
  reservePreparation sv s u = Ok s' →
  let day := day_of Now in let key := (user_ID u, day) in
  let before := i_budgets (p_intake s) in let after := i_budgets (p_intake s') in
  ∃ role, g_roles (p_registry s) !! user_ID u = Some role
    ∧ active_preparations s (user_ID u) < 5
    ∧ after = <[key := default 0 (before !! key) + 1]> before
    ∧ default 0 (before !! key) + 1 ≤ preparationDailyLimit role (s_OperatorPreparationDailyLimit sv) ≤ 1000
    ∧ used_on day after = used_on day before + 1 ∧ used_on day after ≤ 1000
    ∧ (∀ d, d ≠ day → used_on d after = used_on d before)
    ∧ s' = set_budgets s after.
Proof.
  intros Hr day key before after. subst before after. unfold reservePreparation in Hr.
  destruct (g_roles (p_registry s) !! user_ID u) as [role|]; [|done]. do 2 ok_step Hr. bool_prop.
  fold day key in Hr. fold day in G0. pose proof (preparationDailyLimit_range role (s_OperatorPreparationDailyLimit sv)).
  exists role. destruct (i_budgets (p_intake s) !! key) as [used|] eqn:Hk.
  - ok_step Hr. simplify_eq. bool_prop. simpl. split_and!; try done; try lia.
    + rewrite (used_on_update _ _ _ used) by done. simpl. rewrite Z.eqb_refl. lia.
    + rewrite (used_on_update _ _ _ used) by done. simpl. rewrite Z.eqb_refl. lia.
    + intros d Hd. rewrite (used_on_update _ _ _ used) by done. simpl. rewrite (proj2 (Z.eqb_neq day d)) by done. lia.
  - simplify_eq. simpl. split_and!; try done; try lia.
    + rewrite used_on_insert by done. simpl. rewrite Z.eqb_refl. lia.
    + rewrite used_on_insert by done. simpl. rewrite Z.eqb_refl. lia.
    + intros d Hd. rewrite used_on_insert by done. simpl. rewrite (proj2 (Z.eqb_neq day d)) by done. lia.
Qed.

(** * Tickets *)

Lemma filter_perm {A} (p : A → bool) l l' : l ≡ₚ l' → List.filter p l ≡ₚ List.filter p l'.
Proof.
  induction 1 as [|x l l' _ IH|x y l|l1 l2 l3 _ IH1 _ IH2]; simpl; [done| | |by etrans].
  - by destruct (p x); rewrite IH.
  - destruct (p x), (p y); try done. constructor.
Qed.

Lemma count_insert {A} (p : A → bool) (m : gmap string A) k x : m !! k = None →
  count p (<[k := x]> m) = count p m + (if p x then 1 else 0).
Proof.
  intros Hk. unfold count, lenl.
  rewrite (Permutation_length (filter_perm _ _ _ (map_to_list_insert m k x Hk))). simpl.
  destruct (p x); simpl; lia.
Qed.

Section Tickets.
Context `{E : Env} `{UnicodeLib} `{JsonCanonicalizer} `{JsonType ValidatorResult} `{EqDecision FrontierClaim}.

(** A ticket of the last day, counted by the admission budget. *)
Definition recent (s : pdb) (p : TicketRow → bool) : Z :=
  count (λ t, within_day t && p t) (i_tickets (p_intake s)).

(** A new ticket is issued only for a claim that the published version's own policy
    accepts and whose candidate has not entered verification; it is unconsumed, lives
    fifteen minutes, records the claim and the frontier it was judged against, and after
    it the budgets of the last 24 hours still hold: five tickets and three live ones per
    account, a hundred over all, two of the qualification mode. *)
Theorem createFrontierTicket_exact s u in_ s' id expires mode :
  createFrontierTicket s u in_ = Ok (s', Issued id expires mode) →
  ∃ p t, loadFrontierPolicy s (frontierClaim_VersionID (claimRequest_Claim in_)) = Ok p
    ∧ checkFrontierClaim (claimRequest_Claim in_) p = Ok tt
    ∧ already_entered s u (frontierClaim_VersionID (claimRequest_Claim in_))
        (frontierClaim_ArtifactDigest (claimRequest_Claim in_)) = false
    ∧ i_tickets (p_intake s) !! id = None
    ∧ i_tickets (p_intake s') = <[id := t]> (i_tickets (p_intake s))
    ∧ same_request u in_ t = true ∧ live t = true
    ∧ tk_artifact t = frontierClaim_ArtifactDigest (claimRequest_Claim in_)
    ∧ tk_frontier t = policy_FrontierTicks p ∧ expires = AddNs Now (15 * Minute) ∧ tk_expires t = expires
    ∧ recent s' (λ t, tk_owner t ==s user_ID u) ≤ 5 ∧ recent s' (λ _, true) ≤ 100
    ∧ recent s' (λ t, (tk_owner t ==s user_ID u) && live t) ≤ 3
    ∧ (mode = "qualification" →
       recent s' (λ t, (tk_owner t ==s user_ID u) && (frontierClaim_Mode (tk_claim t) ==s "qualification")) ≤ 2).
Proof.
  unfold createFrontierTicket. intros Hc. ok_step Hc.
  destruct (latest_ticket s _) as [[? ?]|]; [done|]. ok_step Hc. ok_step Hc. ok_step Hc. destruct r0.
  destruct (latest_ticket s _) as [[? ?]|]; [done|]. ok_step Hc. cbn [ID] in Hc. ok_step Hc.
  injection Hc as <- <- <- <-. clear G. apply bool_decide_eq_false, eq_None_not_Some in G2.
  set (t := mkTicketRow _ _ _ _ _ _ _ _ _ _ _). exists r, t.
  assert (∀ p n, recent s p < n →
    recent (set_tickets s (<[NewID (t_ids (p_core s)) := t]> (i_tickets (p_intake s)))) p ≤ n) as Hcount.
  { intros p n Hn. unfold recent in *. simpl. rewrite count_insert by done. case_match; lia. }
  apply orb_false_iff in G1 as [G1 Gq]. apply orb_false_iff in G1 as [G1 Gl].
  apply orb_false_iff in G1 as [Gm Ga]. bool_prop.
  split_and!; try done; try by apply Hcount.
  - unfold same_request. simpl. by rewrite !String.eqb_refl, bool_decide_eq_true_2.
  - unfold live, After, AddNs. simpl. apply Z.ltb_lt.
    unfold ticket_lifetime, Minute, Second. lia.
  - intros Hm. rewrite Hm, String.eqb_refl in Gq. apply Hcount. simpl in Gq. bool_prop. done.
Qed.
End Tickets.

Lemma update_insert {A} (f : A → A) k m x : m !! k = Some x → update f k m = <[k := f x]> m.
Proof.
  intros Hk. apply map_eq. intros i. unfold update. destruct (decide (i = k)) as [->|].
  - by rewrite lookup_alter_eq, Hk, lookup_insert_eq.
  - by rewrite lookup_alter_ne, lookup_insert_ne.
Qed.

(** * Intents *)

Section Intents.
Context `{Crypto} `{!Pki} `{UnicodeLib} `{JsonCanonicalizer} `{JsonType ValidatorResult}.
Context `{JsonType ExecutorCapabilities} `{EqDecision FrontierClaim}.

Lemma consumeFrontierTicket_ok `{Env} s u in_ intent s' :
  consumeFrontierTicket s u in_ intent = Ok s' →
  ∃ t p, i_tickets (p_intake s) !! intentRequest_AdmissionTicket in_ = Some t
    ∧ ticket_fits u in_ t = true
    ∧ loadFrontierPolicy s (intentRequest_VersionID in_) = Ok p
    ∧ checkFrontierClaim (tk_claim t) p = Ok tt
    ∧ s' = set_tickets s (<[intentRequest_AdmissionTicket in_
             := consume_ticket intent (policy_FrontierTicks p) t]> (i_tickets (p_intake s))).
Proof.
  unfold consumeFrontierTicket. intros Hc. ok_step Hc.
  destruct (i_tickets _ !! _) as [t|] eqn:Ht; [|done]. do 3 ok_step Hc. destruct r0.
  exists t, r. split_and!; [done|by apply negb_false_iff|done..|].
  apply (inj Ok) in Hc. rewrite <-Hc. by rewrite (update_insert _ _ _ _ Ht).
Qed.

(** A ticket that has been consumed admits nothing. *)
Lemma consumed_ticket_refused `{Env} s u in_ intent t :
  i_tickets (p_intake s) !! intentRequest_AdmissionTicket in_ = Some t → tk_consumed t ≠ None →
  ∃ e, consumeFrontierTicket s u in_ intent = Err e.
Proof.
  intros Ht Hc. destruct (consumeFrontierTicket s u in_ intent) as [s'|e] eqn:Hr; [|by exists e].
  apply consumeFrontierTicket_ok in Hr as (t' & p & Ht' & Hf & _). simplify_eq.
  unfold ticket_fits, live, consumed in Hf. destruct (tk_consumed t); [|done].
  rewrite bool_decide_eq_true_2 in Hf by done. simpl in Hf. by rewrite andb_false_r in Hf.
Qed.

Lemma reservePreparation_budgets `{Env} sv s u b :
  reservePreparation sv s u = Ok b → b = set_budgets s (i_budgets (p_intake b)).
Proof.
  unfold reservePreparation. intros Hb. destruct (g_roles _ !! _); [|done]. do 2 ok_step Hb.
  destruct (i_budgets _ !! _); [ok_step Hb|]; apply (inj Ok) in Hb; by rewrite <-Hb.
Qed.

Lemma createIntent_created `{E : Env} sv s u in_ s' id :
  createIntent sv s u in_ = Ok (s', IntentCreated id) →
  ∃ s1 i, reservePreparation sv s u = Ok s1 ∧ i_intents (p_intake s1) !! id = None
    ∧ id = NewID (t_ids (p_core s1))
    ∧ i = mkIntentRow (intentRequest_VersionID in_) (user_ID u) (intentRequest_Repository in_)
            (intentRequest_Ref in_) "" "" "" "github_fetch" in_ [] None
    ∧ ∃ s2 s3, s2 = set_intents (with_core s1 (set_ids (p_core s1) (t_ids (p_core s1) + 1)))
                      (<[id := i]> (i_intents (p_intake s1)))
    ∧ consumeFrontierTicket s2 u in_ id = Ok s3
    ∧ s' = with_core s3 (enqueue (p_core s3) "fetch_submission" id).
Proof.
  unfold createIntent. intros Hc. ok_step Hc. destruct (i_versions _ !! _) as [v|]; [|done].
  destruct (t_versions _ !! _) as [row|]; [|done]. do 6 ok_step Hc.
  destruct (List.find _ _) as [[? ?]|]; [done|]. do 2 ok_step Hc. cbn [ID] in Hc. do 2 ok_step Hc.
  injection Hc as <- <-. apply bool_decide_eq_false, eq_None_not_Some in G4.
  exists r2. eexists. split_and!; [done..|]. eexists _, _. split_and!; [done|exact E4|done].
Qed.

Lemma createIntent_others `{E : Env} sv s u in_ s' a : createIntent sv s u in_ = Ok (s', a) → others s s'.
Proof.
  destruct a as [k st|id]; intros Hc.
  - assert (s' = s) as ->; [|split; eauto]. unfold createIntent in Hc. ok_step Hc.
    destruct (i_versions _ !! _) as [v|]; [|done]. destruct (t_versions _ !! _) as [row|]; [|done].
    do 6 ok_step Hc. destruct (List.find _ _) as [[? ?]|]; [congruence|]. do 2 ok_step Hc.
    cbn [ID] in Hc. by do 2 ok_step Hc.
  - apply createIntent_created in Hc as (b & i & Hb & _ & _ & _ & s2 & s3 & Hs2 & Hct & ->).
    apply consumeFrontierTicket_ok in Hct as (t & p & _ & _ & _ & _ & ->). rewrite Hs2.
    rewrite (reservePreparation_budgets _ _ _ _ Hb). split; [done|..]; intros k x Hk; eauto.
Qed.

(** An intent is created only against a live ticket of the same account, version,
    commit and artifact whose claim the version's current policy still accepts; it is
    charged to the preparation budget, its fetch is queued, and the ticket is spent:
    in whatever state and at whatever time, no one creates another intent with it. *)
Theorem intent_costs_one_ticket (E : Env) sv s u in_ s' id :
  createIntent sv s u in_ = Ok (s', IntentCreated id) →
  let ticket := intentRequest_AdmissionTicket in_ in
  ∃ t p i b, i_tickets (p_intake s) !! ticket = Some t ∧ ticket_fits u in_ t = true
    ∧ loadFrontierPolicy s (intentRequest_VersionID in_) = Ok p ∧ checkFrontierClaim (tk_claim t) p = Ok tt
    ∧ reservePreparation sv s u = Ok b ∧ i_budgets (p_intake s') = i_budgets (p_intake b)
    ∧ i_intents (p_intake s) !! id = None ∧ i_intents (p_intake s') = <[id := i]> (i_intents (p_intake s))
    ∧ in_status i = "github_fetch" ∧ same_commit u in_ i = true
    ∧ i_tickets (p_intake s')
      = <[ticket := consume_ticket id (policy_FrontierTicks p) t]> (i_tickets (p_intake s))
    ∧ is_Some (t_jobs (p_core s') !! ("fetch_submission", id)) ∧ others s s'
    ∧ ∀ (later : Env) sv2 s2 u2 in2 s3 id2,
        i_tickets (p_intake s2) !! ticket = i_tickets (p_intake s') !! ticket →
        intentRequest_AdmissionTicket in2 = ticket →
        createIntent (H := later) sv2 s2 u2 in2 ≠ Ok (s3, IntentCreated id2).
Proof.
  intros Hc ticket.
  pose proof (createIntent_created _ _ _ _ _ _ Hc) as (b & i & Hb & Hnew & _ & Hi & s2 & s3 & Hs2 & Hct & Hs').
  apply consumeFrontierTicket_ok in Hct as (t & p & Ht & Hf & Hp & Hchk & Hs3).
  pose proof (reservePreparation_budgets _ _ _ _ Hb) as Hm.
  assert (i_tickets (p_intake s') = <[ticket := consume_ticket id (policy_FrontierTicks p) t]>
            (i_tickets (p_intake s))) as Htk.
  { rewrite Hs', Hs3, Hs2, Hm. done. }
  exists t, p, i, b. subst i.
  split_and!; [by rewrite Hs2, Hm in Ht|done| |done|done| | | |done| |done| | |].
  - rewrite Hs2, Hm in Hp. exact Hp.
  - by rewrite Hs', Hs3, Hs2.
  - by rewrite Hm in Hnew.
  - by rewrite Hs', Hs3, Hs2, Hm.
  - unfold same_commit. simpl. by rewrite !String.eqb_refl.
  - rewrite Hs'. apply enqueue_queued.
  - by eapply createIntent_others.
  - intros later sv2 y u2 in2 y' id2 Hrow Heq Hr.
    apply createIntent_created in Hr as (b' & i' & Hb' & _ & _ & _ & y2 & y3 & Hy2 & Hct' & _).
    apply reservePreparation_budgets in Hb' as Hm'.
    destruct (consumed_ticket_refused (H5 := later) y2 u2 in2 id2
      (consume_ticket (H := E) id (policy_FrontierTicks p) t)) as [e He]; [|done|congruence].
    rewrite Hy2, Hm', Heq. simpl. rewrite Hrow, Htk. by rewrite lookup_insert_eq.
Qed.
End Intents.

(** * Acceptance *)

Lemma exists_row_false {K A} `{Countable K} (p : A → bool) (m : gmap K A) :
  exists_row p m = false → ∀ k x, m !! k = Some x → p x = false.
Proof.
  unfold exists_row. intros Hx k x Hk. destruct (p x) eqn:Hp; [|done].
  rewrite <-Hx. symmetry. apply existsb_exists. exists (k, x).
  split; [by apply list_elem_of_In, elem_of_map_to_list|done].
Qed.

(** Every number up to the last one assigned is the sequence number of exactly one
    submission of the version. *)
Record numbered (s : pdb) (version : string) (last : Z) : Prop := {
  nm_range : ∀ id x, submissions s !! id = Some x → sub_version x = version → 1 ≤ sub_sequence x ≤ last;
  nm_dense : ∀ n, 1 ≤ n ≤ last →
    ∃ id x, submissions s !! id = Some x ∧ sub_version x = version ∧ sub_sequence x = n;
  nm_unique : ∀ a b x y, submissions s !! a = Some x → submissions s !! b = Some y →
    sub_version x = version → sub_version y = version → sub_sequence x = sub_sequence y → a = b
}.
Definition sequenced (s : pdb) : Prop :=
  ∀ version row, t_versions (p_core s) !! version = Some row →
  0 ≤ ver_next_sequence row ∧ numbered s version (ver_next_sequence row).

(** What an acceptance writes. *)
Record entered (s : pdb) (u : User) (intent submission : string) (sequence : Z) (i : IntentRow)
    (digest : string) (s' : pdb) : Prop := {
  et_fleet : p_fleet s' = p_fleet s;
  et_fresh : submissions s !! submission = None ∧ t_reservations (p_core s) !! submission = None;
  et_unique : ∀ id x, submissions s !! id = Some x → sub_version x = in_version i →
    sub_sequence x ≠ sequence ∧ sub_artifact x ≠ in_artifact i;
  et_row : ∃ x, submissions s' = <[submission := x]> (submissions s) ∧ sub_version x = in_version i
    ∧ sub_sequence x = sequence ∧ sub_owner x = user_ID u ∧ sub_artifact x = in_artifact i
    ∧ sub_disk x = in_disk i ∧ sub_outcome x = "pending" ∧ sub_score x = None
    ∧ sub_status x = "accepted" ∧ sub_public x = false ∧ sub_receipt x = digest;
  et_versions : t_versions (p_core s')
    = update (version_sequence sequence) (in_version i) (t_versions (p_core s));
  et_reservations : t_reservations (p_core s') = <[submission := None]> (t_reservations (p_core s));
  et_intents : i_intents (p_intake s') = update (intent_accepted submission) intent (i_intents (p_intake s));
  et_grant : ∃ grant g, i_grants (p_intake s) !! grant = None
    ∧ i_grants (p_intake s') = <[grant := g]> (i_grants (p_intake s)) ∧ gr_status g = "reserved";
  et_job : is_Some (t_jobs (p_core s') !! ("validate_submission", submission))
}.

Lemma accept_conflict_false s id grant version owner intent artifact receipt sequence :
  accept_conflict s id grant version owner intent artifact receipt sequence = false →
  submissions s !! id = None ∧ i_grants (p_intake s) !! grant = None ∧ t_reservations (p_core s) !! id = None
  ∧ ∀ k x, submissions s !! k = Some x → sub_version x = version →
      sub_sequence x ≠ sequence ∧ sub_artifact x ≠ artifact.
Proof.
  unfold accept_conflict. intros Hc. repeat (apply orb_false_iff in Hc as [Hc ?]).
  repeat match goal with H : bool_decide (is_Some _) = false |- _ =>
    apply bool_decide_eq_false, eq_None_not_Some in H end.
  split_and!; [done..|]. intros k x Hk Hv.
  match goal with H : exists_row _ (submissions s) = false |- _ => apply exists_row_false with (k := k) (x := x) in H; [|done] end.
  rewrite Hv, String.eqb_refl in H. bool_prop. simpl in *. by bool_prop.
Qed.

Lemma insert_receipt_eq d digest r :
  insert_receipt d digest r = set_receipts d (t_receipts (insert_receipt d digest r)).
Proof. unfold insert_receipt. by case_match; [destruct d|]. Qed.

Section Accept.
Context `{Env} `{Crypto} `{!Pki} `{UnicodeLib} `{UrlLib} `{JsonCanonicalizer} `{JsonType ValidatorResult}.
Context `{JsonType ExecutorCapabilities} `{JsonType FrontierClaim} `{JsonType Receipt}.
Context `{JsonType History} `{JsonType ReleaseAttestation}.

Lemma record_acceptance_entered s u id submission grant commitment salt digest sequence m i receipt s' :
  record_acceptance s u id submission grant (in_version i) commitment salt digest sequence m i receipt = Ok s' →
  entered s u id submission sequence i digest s' ∧ t_reserved (p_core s') = t_reserved (p_core s)
  ∧ p_registry s' = p_registry s.
Proof.
  unfold record_acceptance. intros Hr. ok_step Hr. apply accept_conflict_false in G as (Hs & Hg & Hres & Hu).
  ok_step Hr. apply audit_frame in E as [l ->]. apply (inj Ok) in Hr. subst s'. unfold saveReceipt.
  rewrite insert_receipt_eq. split_and!; [|reflexivity|reflexivity]. split; try reflexivity; try done.
  - eexists. split_and!; reflexivity.
  - exists grant. eexists. split_and!; reflexivity || done.
  - apply insert_new_is_Some.
Qed.

Lemma entered_others s u id submission sequence i digest s' :
  entered s u id submission sequence i digest s' → others s s'.
Proof.
  intros [Hf [Hn _] _ (x & Hx & _ & _ & _ & _ & _ & Ho & _) _ _ _ _ _].
  split; [by unfold rjobs, results; rewrite Hf|..]; rewrite Hx.
  - intros k y Hk. exists y. rewrite lookup_insert_ne; [done|congruence].
  - intros k y Hk Hy. destruct (decide (k = submission)) as [->|].
    + rewrite lookup_insert_eq in Hk. simplify_eq. congruence.
    + rewrite lookup_insert_ne in Hk by done. eauto.
Qed.

Lemma entered_sequenced s u id submission i digest s' row :
  t_versions (p_core s) !! in_version i = Some row →
  entered s u id submission (ver_next_sequence row + 1) i digest s' → sequenced s → sequenced s'.
Proof.
  intros Hrow [_ [Hn _] Hu (x & Hx & Hxv & Hxs & _) Hver _ _ _ _] Hseq version row' Hrow'.
  rewrite Hver in Hrow'. unfold update in Hrow'. destruct (decide (version = in_version i)) as [->|Hne].
  - rewrite lookup_alter_eq, Hrow in Hrow'. simpl in Hrow'. simplify_eq. simpl.
    destruct (Hseq _ _ Hrow) as [Hpos [Hr Hd Hq]]. split; [lia|]. split; rewrite Hx.
    + intros k y Hk Hy. destruct (decide (k = submission)) as [->|].
      * rewrite lookup_insert_eq in Hk. simplify_eq. lia.
      * rewrite lookup_insert_ne in Hk by done. pose proof (Hr _ _ Hk Hy). lia.
    + intros n Hb. destruct (decide (n = ver_next_sequence row + 1)) as [->|].
      * exists submission, x. by rewrite lookup_insert_eq.
      * destruct (Hd n) as (k & y & Hk & ? & ?); [lia|]. exists k, y.
        rewrite lookup_insert_ne; [done|congruence].
    + intros a b y z Ha Hb Hy Hz E. destruct (decide (a = submission)) as [->|], (decide (b = submission)) as [->|];
        [done| | |].
      * rewrite lookup_insert_eq in Ha. rewrite lookup_insert_ne in Hb by done. simplify_eq.
        destruct (Hu _ _ Hb Hz). congruence.
      * rewrite lookup_insert_eq in Hb. rewrite lookup_insert_ne in Ha by done. simplify_eq.
        destruct (Hu _ _ Ha Hy). congruence.
      * rewrite lookup_insert_ne in Ha by done. rewrite lookup_insert_ne in Hb by done. eauto.
  - rewrite lookup_alter_ne in Hrow' by done. destruct (Hseq _ _ Hrow') as [Hpos [Hr Hd Hq]].
    assert (∀ k y, <[submission := x]> (submissions s) !! k = Some y → sub_version y = version →
      submissions s !! k = Some y) as Hold.
    { intros k y Hk Hy. destruct (decide (k = submission)) as [->|].
      - rewrite lookup_insert_eq in Hk. by simplify_eq.
      - by rewrite lookup_insert_ne in Hk. }
    split; [done|]. split; rewrite Hx.
    + intros k y Hk Hy. eauto.
    + intros n Hb. destruct (Hd n Hb) as (k & y & Hk & ? & ?). exists k, y.
      rewrite lookup_insert_ne; [done|congruence].
    + intros a b y z Ha Hb Hy Hz E. eauto.
Qed.

Lemma check_admission_ok sv s u i row lock m policy :
  check_admission sv s u i = Ok (row, lock, m, policy) →
  in_status i = "ready" ∧ t_versions (p_core s) !! in_version i = Some row
  ∧ count (λ x, (sub_owner x ==s user_ID u) && (sub_status x !=s "finalized")) (submissions s) < s_ActiveLimit sv
  ∧ ∃ v k l, i_versions (p_intake s) !! in_version i = Some v ∧ vr_intake v = "open"
    ∧ After (vr_deadline v) Now = true ∧ vr_lock v = Some lock
    ∧ g_locks (p_registry s) !! lock = Some k ∧ lk_decoded k = Ok l ∧ policy = LockVerificationPolicy l
    ∧ check_groups policy (runner_groups sv s (lock_ExecutionProfileDigest l)
        (suite_Visibility (manifest_Suite m) !=s "hidden")) = Ok tt.
Proof.
  unfold check_admission. intros Ha. ok_step Ha. destruct (i_versions _ !! _) as [v|] eqn:Hv; [|done].
  destruct (t_versions _ !! _) as [r|] eqn:Hr; [|done]. destruct (vr_lock v) as [ld|] eqn:Hl; [|done].
  do 3 ok_step Ha. destruct (g_locks _ !! _) as [k|] eqn:Hk; [|done].
  destruct (lk_decoded k) as [l|] eqn:Hd; [|done]. do 2 ok_step Ha. destruct r2.
  injection Ha as <- <- <- <-. bool_prop.
  split_and!; [done|done|done|]. exists v, k, l. split_and!; done.
Qed.

Lemma check_groups_ok policy groups : check_groups policy groups = Ok tt →
  ((if policy ==s VerificationIndependent then 2 else 1) ≤ size groups)%nat.
Proof. unfold check_groups. destruct (ValidVerificationPolicy policy); [|done]. simpl.
  case_match; [by case_match|]. intros _. bool_prop. lia. Qed.

Lemma runner_groups_hosts sv s profile public g : g ∈ runner_groups sv s profile public →
  ∃ h, h ∈ g_hosts (p_registry s) ∧ h_group h = g ∧ h_enabled h = true
    ∧ "submission" ∈ h_purposes h ∧ "confirmation" ∈ h_purposes h.
Proof.
  unfold runner_groups. rewrite elem_of_list_to_set, list_elem_of_In, in_map_iff.
  intros (h & <- & [Hin Hh]%filter_In). apply list_elem_of_In in Hin. unfold group_host in Hh.
  bool_prop. exists h. split_and!; [done|done|done|by apply member_true..].
Qed.

Lemma entered_capacity s u id submission sequence i digest s' :
  entered s u id submission sequence i digest s' → t_reserved (p_core s') = t_reserved (p_core s) + 2 →
  capacity_ok (p_core s) → capacity_ok (p_core s').
Proof.
  intros [_ [_ Hn] _ _ _ Hres _ _ _] Hr Hc. unfold capacity_ok, active in *.
  rewrite Hres, Hr, Hc, map_filter_insert_True, map_size_insert by done.
  replace (filter _ _ !! submission) with (@None (option Time)); [simpl; lia|].
  symmetry. apply map_lookup_filter_None. by left.
Qed.

Lemma acceptIntent_again sv s u id salt i submission :
  i_intents (p_intake s) !! id = Some i → in_owner i = user_ID u → in_submission i = Some submission →
  acceptIntent sv s u id salt = Ok (s, AlreadyAccepted submission)
  ∨ ∃ e, checkProductionAdmission sv s = Err e.
Proof.
  intros Hi Ho Hs. unfold acceptIntent. destruct (checkProductionAdmission sv s) as [|e]; [left|right; by exists e].
  by rewrite Hi, Ho, String.eqb_refl, Hs.
Qed.

Lemma acceptIntent_entered sv s u id salt s' submission sequence digest :
  acceptIntent sv s u id salt = Ok (s', AcceptedAs submission sequence digest) →
  ∃ i row lock m policy, i_intents (p_intake s) !! id = Some i ∧ in_owner i = user_ID u
    ∧ in_submission i = None ∧ check_admission sv s u i = Ok (row, lock, m, policy)
    ∧ sequence = ver_next_sequence row + 1 ∧ entered s u id submission sequence i digest s'
    ∧ t_reserved (p_core s') = t_reserved (p_core s) + 2
    ∧ t_reserved (p_core s) + 2 ≤ g_maximum_units (p_registry s).
Proof.
  intros Ha. unfold acceptIntent in Ha. ok_step Ha. destruct r.
  destruct (i_intents _ !! id) as [i|] eqn:Hi; [|done]. ok_step Ha. bool_prop.
  destruct (in_submission i) as [?|] eqn:Hsub; [done|]. ok_step Ha. destruct r as [[[row lock] m] policy].
  destruct (List.find _ _) as [[d x]|]; [by case_match|]. ok_step Ha. rename r into s1.
  unfold reserve_capacity in E1. cbv zeta in E1. ok_step E1. apply (inj Ok) in E1. cbn [ID] in Ha.
  do 3 ok_step Ha. injection Ha as <- <- <- <-. bool_prop.
  apply record_acceptance_entered in E4 as (He & Hres & Hreg).
  exists i, row, lock, m, policy. split_and!; [done..| |by rewrite Hres, <-E1|done].
  destruct He. rewrite <-E1 in *. by split.
Qed.

End Accept.

(** * Publication *)

Section Publish.
Context `{Env} `{JsonCanonicalizer} `{JsonType Receipt}.

Lemma publish_receipts_row l t k r : publish_receipts l t !! k = Some r →
  ∃ r0, t !! k = Some r0 ∧ rr_payload r = rr_payload r0 ∧ rr_owner r = rr_owner r0
    ∧ rr_public r = bool_decide (k ∈ l) || rr_public r0.
Proof.
  unfold publish_receipts. revert t. induction l as [|d l IH]; intros t Hr; simpl in Hr.
  { exists r. by rewrite bool_decide_eq_false_2 by set_solver. }
  apply IH in Hr as (r1 & Hr1 & Hp & Ho & Hb). destruct (decide (k = d)) as [->|Hne].
  - rewrite lookup_alter_eq in Hr1. apply fmap_Some in Hr1 as (r0 & Hr0 & ->). simpl in *.
    exists r0. split_and!; [done..|]. rewrite Hb, orb_true_r, bool_decide_eq_true_2 by set_solver. done.
  - rewrite lookup_alter_ne in Hr1 by done. exists r1. split_and!; [done..|]. rewrite Hb. f_equal.
    apply bool_decide_ext. set_solver.
Qed.

Lemma publish_receipts_keep l t k r : t !! k = Some r →
  ∃ r', publish_receipts l t !! k = Some r' ∧ rr_payload r' = rr_payload r
    ∧ (rr_public r = true → rr_public r' = true).
Proof.
  unfold publish_receipts. revert t r. induction l as [|d l IH]; intros t r Hr; simpl; [by exists r|].
  destruct (decide (k = d)) as [->|Hne].
  - edestruct IH as (r' & ? & Hp & Hb); [by rewrite lookup_alter_eq, Hr|]. exists r'.
    split_and!; [done|done|]. intros _. by apply Hb.
  - apply IH. by rewrite lookup_alter_ne.
Qed.

Lemma insert_receipt_keep d digest row k r : t_receipts d !! k = Some r →
  t_receipts (insert_receipt d digest row) !! k = Some r.
Proof.
  intros Hk. unfold insert_receipt. destruct (t_receipts d !! digest) eqn:Hd; [done|]. simpl.
  rewrite lookup_insert_ne; [done|]. congruence.
Qed.

(** The receipts a publication opens. *)
Definition opened (s : pdb) (id : string) (x : Submission) (digest : string) : Prop :=
  digest = sub_receipt x ∨ sub_adjudication x = Some digest
  ∨ ∃ run, run ∈ t_runs (p_core s) ∧ rj_submission run = id ∧ rj_digest run = digest.

(** The tables after a publication. *)
Record published (s : pdb) (id : string) (x : Submission) (versions : gmap string Version) (s' : pdb) : Prop := {
  pb_rows : submissions s' = <[id := set_sub_public x]> (submissions s);
  pb_versions : t_versions (p_core s') = versions;
  pb_fleet : p_fleet s' = p_fleet s;
  pb_reservations : t_reservations (p_core s') = t_reservations (p_core s);
  pb_claims : t_claims (p_core s') = t_claims (p_core s);
  pb_receipts : ∃ t0, (∀ k r, t_receipts (p_core s) !! k = Some r → t0 !! k = Some r) ∧ t_receipts (p_core s') =
    publish_receipts (map rj_digest (List.filter (λ r, rj_submission r ==s id) (t_runs (p_core s))))
      (publish_receipts (sub_receipt x :: match sub_adjudication x with Some d => [d] | None => [] end)
        t0)
}.

Lemma publishSubmission_published s u id s' :
  publishSubmission s u id = Ok (s', true) →
  ∃ x row m frontier, submissions s !! id = Some x ∧ sub_owner x = user_ID u
    ∧ sub_status x = "finalized" ∧ sub_outcome x = "valid" ∧ sub_public x = false
    ∧ t_versions (p_core s) !! sub_version x = Some row ∧ ver_manifest row = Ok m
    ∧ frontier_ticks s m (ver_frontier row) = Ok frontier
    ∧ published s id x (if meaningful (score_text (Some x)) frontier (manifest_Metric m)
        then <[sub_version x := version_frontier id row]> (t_versions (p_core s)) else t_versions (p_core s)) s'.
Proof.
  unfold publishSubmission. intros Hp. destruct (submissions s !! id) as [x|] eqn:Hx; [|done].
  ok_step Hp. destruct (t_versions _ !! _) as [row|] eqn:Hrow; [|done]. ok_step Hp.
  destruct (sub_public x) eqn:Hpub; [done|]. do 2 ok_step Hp. cbv zeta in Hp.
  bool_prop. exists x, row, r, r0. split_and!; [done..|].
  set (b := meaningful _ _ _) in *. clearbody b. cbn [ID] in Hp.
  rewrite (update_insert _ _ _ _ Hrow) in Hp.
  assert (∀ T, (if b then with_core s (set_versions (p_core s) T) else s)
    = with_core s (set_versions (p_core s) (if b then T else t_versions (p_core s)))) as HT.
  { intros T. destruct b; [done|]. by destruct s as [[] ? ? ? ?]. }
  rewrite HT in Hp. ok_step Hp. ok_step Hp. ok_step Hp. apply audit_frame in E3 as [l ->].
  apply (inj Ok), pair_equal_spec in Hp as [<- _]. unfold saveReceipt, open_records. rewrite insert_receipt_eq. constructor; try reflexivity.
  - simpl. by rewrite (update_insert _ _ _ _ Hx).
  - eexists. split; [|reflexivity]. intros k r3 Hk. by apply insert_receipt_keep.
Qed.

Lemma subs_kept_insert d id x y : d !! id = Some x → sub_artifact y = sub_artifact x →
  sub_outcome y = sub_outcome x → sub_score y = sub_score x → subs_kept d (<[id := y]> d).
Proof.
  intros Hx Ha Ho Hs. split; intros k z Hk; (destruct (decide (k = id)) as [->|Hne];
    [rewrite ?lookup_insert_eq in *|rewrite ?lookup_insert_ne in * by done]); [naive_solver|eauto| |eauto].
  simplify_eq. rewrite Ho. eauto.
Qed.

Lemma publishSubmission_others s u id s' : publishSubmission s u id = Ok (s', true) → others s s'.
Proof.
  intros (x & row & m & frontier & Hx & _ & _ & _ & _ & _ & _ & _ & [Hs _ Hfl _ _ _])%publishSubmission_published.
  destruct (subs_kept_insert (submissions s) id x (set_sub_public x)) as [Ha Hv]; [done..|].
  split; [by unfold rjobs, results; rewrite Hfl|..]; by rewrite Hs.
Qed.

(** Only the owner publishes, and only a finalised valid submission: it and its
    acceptance, adjudication and run receipts become public (nothing that was public is
    hidden again), and the public frontier moves to it exactly when its score beats the
    frontier's by the metric's minimum, so never to a worse score; the sequence, the
    record, the capacity and the outcome are untouched, and publishing again does
    nothing. *)
Theorem publishSubmission_exact s u id s' :
  publishSubmission s u id = Ok (s', true) →
  ∃ x row m frontier, submissions s !! id = Some x ∧ sub_owner x = user_ID u
    ∧ sub_status x = "finalized" ∧ sub_outcome x = "valid" ∧ sub_public x = false
    ∧ t_versions (p_core s) !! sub_version x = Some row ∧ ver_manifest row = Ok m
    ∧ frontier_ticks s m (ver_frontier row) = Ok frontier
    ∧ submissions s' = <[id := set_sub_public x]> (submissions s)
    ∧ t_versions (p_core s') = (if meaningful (score_text (Some x)) frontier (manifest_Metric m)
        then <[sub_version x := version_frontier id row]> (t_versions (p_core s)) else t_versions (p_core s))
    ∧ (∀ k r, t_receipts (p_core s') !! k = Some r → opened s id x k → rr_public r = true)
    ∧ (∀ k r, t_receipts (p_core s) !! k = Some r → rr_public r = true →
        ∃ r', t_receipts (p_core s') !! k = Some r' ∧ rr_payload r' = rr_payload r ∧ rr_public r' = true)
    ∧ t_reservations (p_core s') = t_reservations (p_core s) ∧ t_claims (p_core s') = t_claims (p_core s)
    ∧ others s s' ∧ publishSubmission s' u id = Ok (s', false).
Proof.
  intros Hp. pose proof (publishSubmission_published _ _ _ _ Hp)
    as (x & row & m & frontier & Hx & Ho & Hst & Hout & Hpub & Hrow & Hm & Hf & Hd).
  pose proof Hd as [Hs Hv Hfl Hr Hc (t0 & Ht0 & Ht)].
  exists x, row, m, frontier. split_and!; try done.
  - intros k r Hk Hop. rewrite Ht in Hk.
    apply publish_receipts_row in Hk as (r1 & Hk & _ & _ & ->).
    apply publish_receipts_row in Hk as (r2 & Hk & _ & _ & ->). apply orb_true_iff.
    destruct Hop as [->|[Ha|(run & Hin & Hsub & Hdig)]]; rewrite ?orb_true_iff, !bool_decide_eq_true.
    + right. left. set_solver.
    + right. left. rewrite Ha. set_solver.
    + left. apply list_elem_of_In, in_map_iff. exists run. split; [done|]. apply filter_In.
      by rewrite <-list_elem_of_In, Hsub, String.eqb_refl.
  - intros k r Hk Hrp. rewrite Ht. apply Ht0 in Hk.
    edestruct publish_receipts_keep as (r1 & Hk1 & Hp1 & Hb1); [exact Hk|].
    edestruct publish_receipts_keep as (r2 & Hk2 & Hp2 & Hb2); [exact Hk1|].
    exists r2. split_and!; [exact Hk2|congruence|by auto].
  - by eapply publishSubmission_others.
  - unfold publishSubmission. rewrite Hs, lookup_insert_eq. simpl. rewrite Ho, String.eqb_refl, Hv.
    assert (is_Some ((if meaningful (score_text (Some x)) frontier (manifest_Metric m)
      then <[sub_version x := version_frontier id row]> (t_versions (p_core s))
      else t_versions (p_core s)) !! sub_version x)) as [row' ->].
    { destruct (meaningful _ _ _); [by rewrite lookup_insert_eq|by rewrite Hrow]. }
    by rewrite Hst, Hout.
Qed.
End Publish.

(** * The rest of the platform *)

Section Others.
Context `{Env} `{Crypto} `{!Pki} `{UnicodeLib} `{UrlLib} `{JsonCanonicalizer} `{JsonType ValidatorResult}.
Context `{JsonType ExecutorCapabilities} `{EqDecision FrontierClaim} `{JsonType FrontierClaim} `{JsonType Receipt}.
Context `{JsonType History} `{JsonType ReleaseAttestation}.

(** The requests and the job of the platform that are not about runners. *)
Inductive business (s : pdb) : pdb → Prop :=
| business_ticket u in_ s' a : createFrontierTicket s u in_ = Ok (s', a) → business s s'
| business_intent sv u in_ s' a : createIntent sv s u in_ = Ok (s', a) → business s s'
| business_accept sv u id salt s' a : acceptIntent sv s u id salt = Ok (s', a) → business s s'
| business_publish u id s' a : publishSubmission s u id = Ok (s', a) → business s s'
| business_adjudicate version d : adjudicate (p_core s) version = Some (Ok d) → business s (with_core s d).

Lemma others_refl s : others s s.
Proof. split; eauto. Qed.

Lemma iterates_kept m version st l st' : iterates m version st l st' →
  subs_kept (t_submissions (l_db st)) (t_submissions (l_db st')).
Proof.
  induction 1 as [st _|st id s st1 l st' Hs _ IH]; [apply subs_kept_refl|]. eapply subs_kept_trans; [|exact IH].
  pose proof (sp_row _ _ _ _ _ _ Hs) as Hrow.
  apply stepped_submissions in Hs as (public & digest & ->). by apply subs_kept_insert with s.
Qed.

(** Nothing of these touches a runner job, a run result, the artifact of an accepted
    submission, or makes a submission valid or changes a valid score. *)
Lemma business_others s s' : business s s' → others s s'.
Proof.
  intros [u in_ s1 a Hc|sv u in_ s1 a Hc|sv u id salt s1 a Ha|u id s1 a Hp|version d Ha].
  - unfold createFrontierTicket in Hc. ok_step Hc.
    destruct (latest_ticket s _) as [[? ?]|]; [injection Hc as <- <-; apply others_refl|]. do 3 ok_step Hc.
    destruct (latest_ticket s _) as [[? ?]|]; [injection Hc as <- <-; apply others_refl|]. ok_step Hc.
    cbn [ID] in Hc. ok_step Hc. injection Hc as <- <-. split; [done|..]; intros k x Hk; eauto.
  - by eapply createIntent_others.
  - destruct a as [k|k n digest].
    + assert (s1 = s) as ->; [|apply others_refl].
      unfold acceptIntent in Ha. ok_step Ha. destruct (i_intents _ !! id) as [i|]; [|done]. ok_step Ha.
      destruct (in_submission i); [congruence|]. ok_step Ha. destruct r0 as [[[row lock] m] policy].
      destruct (List.find _ _) as [[? ?]|]; [case_match; congruence|]. ok_step Ha. cbn [ID] in Ha.
      by do 3 ok_step Ha.
    + apply acceptIntent_entered in Ha as (i & row & lock & m & policy & _ & _ & _ & _ & _ & He & _).
      by eapply entered_others.
  - destruct a.
    + by apply publishSubmission_others in Hp.
    + unfold publishSubmission in Hp. destruct (submissions s !! id) as [x|]; [|done]. ok_step Hp.
      destruct (t_versions _ !! _); [|done]. ok_step Hp. destruct (sub_public x); [by simplify_eq; apply others_refl|].
      do 2 ok_step Hp. cbv zeta in Hp. ok_step Hp. cbn [ID] in Hp. by do 2 ok_step Hp.
  - apply adjudicate_inv in Ha as (v & m & best & frontier & l & st & _ & _ & _ & _ & Hl & _ & ->).
    destruct (iterates_kept _ _ _ _ _ Hl) as [Ha Hv]. by split.
Qed.
End Others.
