(* ===== verification/SnapshotProofs.v ===== *)
(** What a fetched snapshot is: exactly the files of the commit's tree that the contract
    selects, each the blob its Git hash names, within the byte limits. *)

From S2P Require Import Prelude Regex GoLib Numbers Types Paths Scores Validate Sha256 GoJson Canonical.
From S2P Require Import Documents Artifacts Signatures History Store Platform Intake Snapshots.
From Stdlib Require Import Ascii.
Open Scope Z_scope.

(** ** The bytes of a set of files *)

Definition content_size (m : Files) : Z := map_fold (λ _ d n, len d + n) 0 m.

Lemma content_size_fresh m k d : m !! k = None → content_size (<[k := d]> m) = len d + content_size m.
Proof. intros Hk. unfold content_size. rewrite map_fold_insert_L; [done|intros; lia|done]. Qed.

Lemma content_size_insert m k d : content_size (<[k := d]> m) ≤ len d + content_size m.
Proof.
  rewrite <-insert_delete_eq, content_size_fresh by apply lookup_delete_eq.
  destruct (m !! k) as [old|] eqn:Hk; [|by rewrite delete_id].
  rewrite <-(insert_delete_id m k old Hk) at 2. rewrite content_size_fresh by apply lookup_delete_eq.
  unfold len. lia.
Qed.

Section SnapshotProofs.
Context `{Env} `{Crypto} `{!Pki} `{Rsa} `{GitHub} `{UnicodeLib} `{UrlLib} `{YamlLib} `{JsonCanonicalizer}.
Context `{JsonType Manifest} `{JsonType ArtifactTree}.

(** Whether the walk keeps the entry. *)
Definition selected (contract : option SubmissionContract) (e : TreeEntry) : Prop :=
  tree_Type e = "blob" ∧
  match contract with
  | Some c => existsb (allowed_prefix (tree_Path e)) (submissionContract_AllowedPaths c) = true
  | None => True
  end.

(** An entry the walk does not refuse: a directory, or a plain file at a safe path,
    not executable when a contract takes it. *)
Definition acceptable (contract : option SubmissionContract) (e : TreeEntry) : Prop :=
  tree_Type e = "tree" ∨
  tree_Type e = "blob" ∧ tree_Mode e ≠ "120000" ∧ tree_Mode e ≠ "160000" ∧
  ValidatePath (tree_Path e) = Ok tt ∧
  (selected contract e → is_Some contract → tree_Mode e = "100644").

(** [data] is the file the entry names. *)
Definition blob_of (e : TreeEntry) (data : Bytes) : Prop :=
  git_blob_id data = tree_SHA e ∧ len data = tree_Size e ∧ len data ≤ Z.shiftl 20 20 ∧
  HasPrefix data lfs_pointer = false ∧ Forall (λ p, Contains data p = false) private_key_markers.

Lemma check_blob_ok e data :
  check_blob e data = Ok tt → tree_Size e ≤ Z.shiftl 20 20 → blob_of e data.
Proof.
  unfold check_blob, matchesGitBlob, blob_of. intros Hc Hs. do 3 ok_step Hc. bool_prop.
  split_and!; try done; try congruence.
  apply Forall_forall. intros p Hp. destruct (Contains data p) eqn:Ep; [|done].
  assert (existsb (Contains data) private_key_markers = true); [|congruence].
  apply existsb_exists. exists p. split; [by apply list_elem_of_In|done].
Qed.

(** What the walk has collected from the entries behind it. *)
Record walked (contract : option SubmissionContract) (done_ : list TreeEntry) (files : Files) (total : Z)
    : Prop := mkWalked {
  wk_total : 0 ≤ total ≤ Z.shiftl 40 20;
  wk_size : content_size files ≤ total;
  wk_files : ∀ path data, files !! path = Some data →
    ∃ e, e ∈ done_ ∧ tree_Path e = path ∧ selected contract e ∧ blob_of e data;
  wk_kept : ∀ e, e ∈ done_ → selected contract e → is_Some (files !! tree_Path e);
  wk_accepted : ∀ e, e ∈ done_ → acceptable contract e
}.

Lemma walked_skip contract done_ files total e :
  walked contract done_ files total → acceptable contract e → ¬ selected contract e →
  walked contract (done_ ++ [e]) files total.
Proof.
  intros [Ht Hs Hf Hk Ha] He Hn. split; try done.
  - intros path data Hp. destruct (Hf _ _ Hp) as (x & Hx & ?). exists x. split; [set_solver|done].
  - intros x [Hx|Hx]%elem_of_app; [auto|]. apply list_elem_of_singleton in Hx as ->. done.
  - intros x [Hx|Hx]%elem_of_app; [auto|]. by apply list_elem_of_singleton in Hx as ->.
Qed.

Lemma select_entry_ok contract e b :
  tree_Type e = "blob" → select_entry contract e = Ok b →
  (b = true ↔ selected contract e) ∧ (b = true → is_Some contract → tree_Mode e = "100644").
Proof.
  intros Ht. unfold select_entry, selected. destruct contract as [c|].
  - destruct (existsb _ _) eqn:Ee; simpl; intros Hs.
    + ok_step Hs. injection Hs as <-. bool_prop. split; [tauto|done].
    + injection Hs as <-. split; [|done]. split; [done|]. intros [_ ?]. congruence.
  - intros [= <-]. split; [tauto|]. intros _ [? [=]].
Qed.

Lemma walked_step token repository archive contract done_ files total e st :
  walked contract done_ files total →
  snapshot_step token repository archive contract (files, total) e = Ok st →
  walked contract (done_ ++ [e]) st.1 st.2.
Proof.
  intros Hw Hs. unfold snapshot_step in Hs.
  destruct (tree_Type e ==s "tree") eqn:Etree; bool_prop.
  { injection Hs as <-. apply walked_skip; [done|by left|]. intros [Hb _]. congruence. }
  ok_step Hs. bool_prop.
  assert (tree_Type e = "blob") as Htype by done.
  destruct (ValidatePath (tree_Path e)) as [[]|] eqn:Hpath; [|done].
  destruct (select_entry contract e) as [take_it|] eqn:Esel; [|done].
  destruct (select_entry_ok _ _ _ Htype Esel) as [Hsel Hmode].
  assert (acceptable contract e) as Hacc.
  { right. split_and!; try done. intros Hx. apply Hmode. by apply Hsel. }
  destruct take_it; cbn [negb] in Hs.
  2: { injection Hs as <-. apply walked_skip; [done|done|]. intros Hx. apply Hsel in Hx. done. }
  destruct ((tree_Size e >? Z.shiftl 20 20) || _) eqn:Hlim; [done|]. bool_prop.
  destruct (entry_data _ _ _ _) as [r|]; [|done].
  destruct (check_blob e r) as [[]|] eqn:Eb; [|done]. injection Hs as <-.
  destruct Hw as [Ht Hz Hf Hk Ha]. apply check_blob_ok in Eb as Hb; [|lia]. destruct (Hb) as (_ & Hlen & _).
  assert (0 ≤ len r) by (unfold len; lia).
  assert (Z.shiftl 40 20 = 41943040 ∧ Z.shiftl 20 20 = 20971520) as [C1 C2] by done.
  assert (wrap64 (total + len r) = total + len r) as Hwr by (unfold wrap64; rewrite Z.mod_small; lia).
  rewrite <-Hlen, Hwr in *. cbn [fst snd]. split.
  - lia.
  - pose proof (content_size_insert files (tree_Path e) r). lia.
  - intros path data [[<- <-]|[Hne Hp]]%lookup_insert_Some.
    + exists e. split_and!; [set_solver|done|by apply Hsel|done].
    + destruct (Hf _ _ Hp) as (x & Hx & ?). exists x. split; [set_solver|done].
  - intros x [Hx|Hx]%elem_of_app Hxs.
    + destruct (decide (tree_Path e = tree_Path x)) as [<-|]; [by rewrite lookup_insert_eq|].
      rewrite lookup_insert_ne by done. auto.
    + apply list_elem_of_singleton in Hx as ->. by rewrite lookup_insert_eq.
  - intros x [Hx|Hx]%elem_of_app; [auto|]. by apply list_elem_of_singleton in Hx as ->.
Qed.

Lemma walked_fold token repository archive contract l : ∀ done_ files total st,
  walked contract done_ files total →
  foldM (snapshot_step token repository archive contract) (files, total) l = Ok st →
  walked contract (done_ ++ l) st.1 st.2.
Proof.
  induction l as [|e l IH]; intros done_ files total st Hw Hs; cbn [foldM] in Hs.
  { injection Hs as <-. by rewrite app_nil_r. }
  ok_step Hs. apply (walked_step _ _ _ _ _ _ _ _ _ Hw) in E. destruct r as [files' total'].
  rewrite (cons_middle e done_ l), app_assoc. eauto.
Qed.

End SnapshotProofs.
