(* ===== verification/Lifecycle.v ===== *)
(** The life of a challenge version (creation.go, versions.go, metric_review.go): draft,
    preflight, lock, publication, and the transition to a successor version.  A security
    migration is staged (a receipt fixes the state to transfer), signed, and completed.

    [ldb] adds to [pdb] the tables and columns only these operations use.  The owner's
    requests are the bodies of their [mutate] transactions; createChallenge and
    createVersion are split where they leave the database to fetch the source. *)

From S2P Require Import Prelude Regex GoLib Numbers Types Scores Paths Measurement Evaluation Validate.
From S2P Require Import Sha256 GoJson Canonical Documents Artifacts Signatures Checkpoint History Store Adjudication.
From S2P Require Import Platform Preparation Suites Runners Editorial Intake Snapshots.
From stdpp Require Import sorting.
From Stdlib Require Import Ascii.
Open Scope Z_scope.

(** * Tables *)

(** challenges *)
Record ChallengeRow := mkChallengeRow {
  ch_slug : string;
  ch_owner : string;
  ch_candidate : string;
  ch_adoption : string
}.

(** The columns of challenge_versions in neither [Version] nor [VersionRow]; NULL is the
    empty [rev_prior_frontier]. *)
Record RevisionRow := mkRevisionRow {
  rev_repository : string;
  rev_repository_id : Z;
  rev_commit : string;
  rev_prior_frontier : string;
  rev_migration : option string;
  rev_created : Time
}.

(** milestone_tiers *)
Record TierRow := mkTierRow { tier_version : string; tier_title : string; tier_threshold : Z }.

(** [l_envelopes] is receipts.envelope; [l_locks] the version of each row of locks (whose
    documents are in the registry); [l_preflights] is preflights.created_at. *)
Record ldb := mkLdb {
  l_platform : pdb;
  l_challenges : gmap string ChallengeRow;
  l_revisions : gmap string RevisionRow;
  l_tiers : gmap string TierRow;
  l_envelopes : gmap string Envelope;
  l_locks : gmap string string;
  l_preflights : gmap string Time
}.

Definition with_platform (s : ldb) p : ldb := mkLdb p (l_challenges s) (l_revisions s) (l_tiers s) (l_envelopes s) (l_locks s) (l_preflights s).
Definition set_challenges (s : ldb) v : ldb := mkLdb (l_platform s) v (l_revisions s) (l_tiers s) (l_envelopes s) (l_locks s) (l_preflights s).
Definition set_revisions (s : ldb) v : ldb := mkLdb (l_platform s) (l_challenges s) v (l_tiers s) (l_envelopes s) (l_locks s) (l_preflights s).
Definition set_tiers (s : ldb) v : ldb := mkLdb (l_platform s) (l_challenges s) (l_revisions s) v (l_envelopes s) (l_locks s) (l_preflights s).
Definition set_envelopes (s : ldb) v : ldb := mkLdb (l_platform s) (l_challenges s) (l_revisions s) (l_tiers s) v (l_locks s) (l_preflights s).
Definition set_lock_versions (s : ldb) v : ldb := mkLdb (l_platform s) (l_challenges s) (l_revisions s) (l_tiers s) (l_envelopes s) v (l_preflights s).
Definition set_preflight_times (s : ldb) v : ldb := mkLdb (l_platform s) (l_challenges s) (l_revisions s) (l_tiers s) (l_envelopes s) (l_locks s) v.

(** locks: only [lockChallenge] writes it. *)
Definition set_locks (s : pdb) v : pdb :=
  let g := p_registry s in
  mkPdb (p_core s) (p_fleet s) (p_intake s) (p_desk s)
    (mkRegistry (g_hosts g) (g_profiles g) v (g_suites g) (g_roles g) (g_maximum_units g) (g_checkpoints g)).

Definition l_core (s : ldb) : db := p_core (l_platform s).
Definition with_db (s : ldb) (d : db) : ldb := with_platform s (with_core (l_platform s) d).
Definition versions (s : ldb) : gmap string VersionRow := i_versions (p_intake (l_platform s)).
Definition set_mappings (d : db) v := mkDb (t_versions d) (t_submissions d) (t_receipts d) (t_runs d)
  v (t_claims d) (t_reservations d) (t_reserved d) (t_jobs d) (t_outbox d) (t_audit d)
  (t_artifacts d) (t_ids d).

Definition version_lock (x : string) (v : VersionRow) : VersionRow :=
  mkVersionRow (vr_challenge v) (vr_owner v) (vr_status v) (vr_review v) (vr_intake v) (vr_badges v) (Some x)
    (vr_deadline v) (vr_source v) (vr_predecessor v) (vr_transition v).

(** UPDATE challenge_versions of one row, with its unique indexes. *)
Definition update_version (s : ldb) (id : string) (f : VersionRow → VersionRow) : result ldb :=
  match versions s !! id with
  | None => Ok s
  | Some v =>
      if version_conflict (l_platform s) id (f v) then Err unique_violation else
      Ok (with_platform s (set_version_rows (l_platform s) (<[id := f v]> (versions s))))
  end.

(** The owner's version and its manifest. *)
Definition ownedVersion (s : ldb) (u : User) (id : string) : result (Manifest * string) :=
  match versions s !! id, t_versions (l_core s) !! id with
  | Some v, Some row =>
      if vr_owner v !=s user_ID u then Err no_rows else
      let! m := ver_manifest row in
      Ok (m, vr_status v)
  | _, _ => Err no_rows
  end.

(** * Preflight *)

Section Preflight.
Context `{Env} `{Crypto} `{!Pki} `{UnicodeLib} `{JsonCanonicalizer} `{JsonType ValidatorResult}.
Context `{JsonType ExecutorCapabilities}.

Definition startPreflight (sv : Server) (s : ldb) (u : User) (version : string) : result (ldb * string) :=
  let! p := reservePreparation sv (l_platform s) u in
  let s := with_platform s p in
  let! ms := ownedVersion s u version in
  let! _ := requireExecutor sv (l_platform s) ms.1 "" in
  if negb (member ms.2 ["draft"; "changes_required"]) then Err "preflight_state_invalid" else
  let '(id, core) := ID (l_core s) in
  let s := with_db s core in
  if bool_decide (is_Some (f_preflights (p_fleet (l_platform s)) !! id)) then Err unique_violation else
  let s := with_platform s (set_preflights (l_platform s)
    (<[id := mkPreflightRow version "queued" [] None None]> (f_preflights (p_fleet (l_platform s))))) in
  let s := set_preflight_times s (<[id := Now]> (l_preflights s)) in
  let! s := update_version s version (version_status "machine_preflight") in
  Ok (with_db s (enqueue (l_core s) "preflight" id), id).
End Preflight.

(** * Lock *)

(** The latest passing preflight of a version. *)
Definition passing_preflight (s : ldb) (version : string) : option PreflightRow :=
  snd <$> first_least
    (λ kv : string * PreflightRow, (pf_version kv.2 ==s version) && (pf_status kv.2 ==s "pass"))
    (λ kv, - t_ns (default (mkTime 0 0) (l_preflights s !! kv.1))) None
    (map_to_list (f_preflights (p_fleet (l_platform s)))).

(** COALESCE(NULLIF(payload->>'verificationPolicy',''),'independent') and
    COALESCE(payload->>'verificationStatus','independently_replicated'): both members are
    omitted when empty. *)
Definition receipt_policy (r : Receipt) : string * string :=
  (if receipt_VerificationPolicy r ==s "" then VerificationIndependent else receipt_VerificationPolicy r,
   if receipt_VerificationStatus r ==s "" then "independently_replicated" else receipt_VerificationStatus r).

(** Of two review runs, the one later in (created_at, id). *)
Definition later_review (a b : ReviewRow) : bool :=
  (t_ns (rv_created b) <? t_ns (rv_created a))
  || (t_ns (rv_created b) =? t_ns (rv_created a)) && negb (string_leb (rv_id a) (rv_id b)).

Definition latest_review (s : pdb) (version kind : string) : option ReviewRow :=
  foldl (λ best r, if (rv_version r ==s version) && (rv_kind r ==s kind) then
    match best with
    | Some b => if later_review r b then Some r else best
    | None => Some r
    end else best) None (d_reviews (p_desk s)).

Definition metricReviewAccepted (s : pdb) (version manifestDigest : string) : bool :=
  let latest := latest_review s version "scientific-legibility" in
  match latest with
  | Some r => (rv_manifest r ==s manifestDigest) && (rv_decision r ==s "accepted")
  | None => false
  end
  || existsb (λ r, (rv_version r ==s version) && (rv_kind r ==s "scientific-metric")
       && (rv_status r ==s "accepted") && (rv_manifest r ==s manifestDigest)
       && match latest with Some l => t_ns (rv_created l) <=? t_ns (rv_created r) | None => true end)
     (d_reviews (p_desk s)).

Definition created_before (a b : ReviewRow) : Prop := t_ns (rv_created a) ≤ t_ns (rv_created b).
#[export] Instance created_before_dec : RelDecision created_before := λ a b, Z_le_dec _ _.

(** The digests of the review runs of a version, oldest first. *)
Definition review_digests (s : pdb) (version : string) : list string :=
  map rv_digest (merge_sort created_before
    (List.filter (λ r, rv_version r ==s version) (d_reviews (p_desk s)))).

(** The fields of a lock that [Receipt] shares, as the receipts table is read back. *)
Definition lock_as_receipt (l : Lock) : Receipt := {|
  receipt_VerificationPolicy := lock_VerificationPolicy l; receipt_VerificationStatus := "";
  receipt_DeploymentMode := lock_DeploymentMode l; receipt_OfficialAcceptance := lock_OfficialAcceptance l;
  receipt_APIVersion := lock_APIVersion l; receipt_Kind := lock_Kind l; receipt_ID := lock_ID l;
  receipt_CreatedAt := lock_CreatedAt l; receipt_Producer := lock_Producer l; receipt_SubjectDigest := "";
  receipt_EconomicMode := lock_EconomicMode l; receipt_Data := ∅ |}.

Section Locking.
Context `{Env} `{Crypto} `{UnicodeLib} `{JsonCanonicalizer} `{JsonType ValidatorResult}.
Context `{JsonType Manifest} `{JsonType Lock} `{JsonType Receipt}.

(** [reports], decoded as a map: a report that was never written is the column default
    '[]', which is no object. *)
Definition challenge_lock (sv : Server) (id : string) (m : Manifest) (manifestDigest source : string)
    (b : BuildReport) (digests : list string) : Lock := {|
  lock_VerificationPolicy := ManifestVerificationPolicy m;
  lock_SuiteDiskDigest := match buildReport_SuiteDisk b with Some ref => objectRef_Digest ref | None => "" end;
  lock_DeploymentMode := s_DeploymentMode sv; lock_OfficialAcceptance := false;
  lock_APIVersion := APIVersion; lock_Kind := "ChallengeLockReceipt"; lock_ID := id;
  lock_CreatedAt := UTC Now; lock_Producer := "science-ladder"; lock_ManifestDigest := manifestDigest;
  lock_SourceSnapshotDigest := source;
  lock_ValidatorImageDigest := validator_RuntimeImageDigest (manifest_Validator m);
  lock_ValidatorDiskDigest := buildReport_ValidatorDiskDigest b;
  lock_SuiteDigest := buildReport_SuiteDigest b;
  lock_ExecutionProfileDigest := buildReport_ExecutionProfileDigest b;
  lock_ReviewDigests := digests; lock_EconomicMode := "none"; lock_Manifest := m |}.

(** The signed conformance receipt of the version satisfies its policy. *)
Definition check_conformance (s : ldb) (m : Manifest) (machine : string) : result unit :=
  match t_receipts (l_core s) !! machine, l_envelopes s !! machine with
  | Some row, Some _ =>
      let '(machinePolicy, machineStatus) := receipt_policy (rr_payload row) in
      let policy := ManifestVerificationPolicy m in
      if negb (ValidVerificationPolicy policy) || (machinePolicy !=s policy)
         || (machineStatus !=s verifiedStatus policy "valid")
      then Err "conformance_policy_mismatch" else Ok tt
  | _, _ => Err "signed_conformance_required"
  end.

Definition lock_bound (l : Lock) : bool :=
  negb ((lock_ValidatorDiskDigest l ==s "") || (lock_SuiteDigest l ==s "")
        || (lock_SuiteDiskDigest l ==s "") || (lock_ExecutionProfileDigest l ==s "")).

(** The statements that store the lock. *)
Definition store_lock (s : ldb) (u : User) (version digest : string) (lock : Lock) (document : Bytes)
    : result ldb :=
  if bool_decide (is_Some (l_locks s !! digest))
     || existsb (λ kv, kv.2 ==s version) (map_to_list (l_locks s))
  then Err unique_violation else
  let p := l_platform s in
  let s := set_lock_versions
    (with_platform s (set_locks p (<[digest := mkLockRow (Raw document) (Ok lock)]> (g_locks (p_registry p)))))
    (<[digest := version]> (l_locks s)) in
  let s := with_platform s (saveReceipt (l_platform s) digest (lock_as_receipt lock) (user_ID u) false) in
  update_version s version (λ v, version_lock digest (version_status "locked" v)).

Definition lockChallenge (sv : Server) (s : ldb) (u : User) (version : string) : result (ldb * string) :=
  let! ms := ownedVersion s u version in
  let '(m, status) := ms in
  if status !=s "review_ready" then Err "preflight_incomplete" else
  match versions s !! version with
  | None => Err no_rows
  | Some v =>
      if negb (member (vr_review v) ["automated_pass"; "human_approved"]) then Err "review_required" else
      match passing_preflight s version with
      | None => Err "machine_conformance_required"
      | Some pf =>
          match pf_receipt pf with
          | None => Err "machine_conformance_required"
          | Some machine =>
              let! _ := check_conformance s m machine in
              let! manifestDigest := Digest m in
              if (manifest_APIVersion m ==s ManifestV2)
                 && negb (metricReviewAccepted (l_platform s) version manifestDigest)
              then Err "scientific_metric_review_required" else
              let digests := machine :: review_digests (l_platform s) version in
              match pf_reports pf with
              | None => Err "json: cannot unmarshal array into Go value of type map[string]interface {}"
              | Some b =>
                  let '(id, core) := ID (l_core s) in
                  let s := with_db s core in
                  let lock := challenge_lock sv id m manifestDigest (vr_source v) b digests in
                  if negb (lock_bound lock) then Err "conformance_bindings_missing" else
                  let! digest := Digest lock in
                  let! document := Marshal lock in
                  let! s := store_lock s u version digest lock document in
                  Ok (s, digest)
              end
          end
      end
  end.
End Locking.

(** * Signatures (signing.go) *)

Section Signing.
Context `{Crypto} `{JsonCanonicalizer} `{JsonType RawMessage}.

(** One host signature added to the platform's. *)
Definition countersign_step (keyID : string) (e : Envelope) (sig : Signature) : result Envelope :=
  if signature_KeyID sig ==s keyID then Err "runner and platform signing identities must be distinct" else
  Ok (mkEnvelope (envelope_PayloadType e) (envelope_Payload e) (envelope_Signatures e ++ [sig])).

Definition countersign (keyID : string) (envelope host : Envelope) : result Envelope :=
  if (envelope_Payload host !=s envelope_Payload envelope)
     || (envelope_PayloadType host !=s envelope_PayloadType envelope)
  then Err "runner receipt countersignature payload mismatch" else
  foldM (countersign_step keyID) envelope (envelope_Signatures host).

(** [document] is the payload column, which is signed as it was stored, and [host] the
    envelope of the run result with that digest, if there is one. *)
Definition signReceipt (sv : Server) (s : ldb) (digest : string) (document : Bytes) (host : option Envelope)
    : result ldb :=
  match s_signer sv with
  | None => Err "platform receipt signer is not configured"
  | Some key =>
      match t_receipts (l_core s) !! digest, l_envelopes s !! digest with
      | None, _ => Err no_rows
      | Some _, Some _ => Ok s
      | Some _, None =>
          let! actual := Digest (Raw document) in
          if actual !=s digest then Err "persisted receipt payload differs from its immutable digest" else
          let! envelope := Signatures.Sign (s_ReceiptKeyID sv) (Some key) (Raw document) in
          let! envelope := (match host with
                            | Some h => countersign (s_ReceiptKeyID sv) envelope h
                            | None => Ok envelope end) in
          Ok (set_envelopes s (<[digest := envelope]> (l_envelopes s)))
      end
  end.
End Signing.

(** * Publication *)

(** UPDATE receipts SET public=true WHERE digest IN (...) *)
Definition open_receipts (ds : list string) (d : db) : db :=
  set_receipts d (publish_receipts ds (t_receipts d)).

(** machine_receipt_digest of the preflights of a version, and the results of its
    preflight jobs. *)
Definition conformance_digests (s : pdb) (version : string) : list string :=
  omap (λ kv : string * PreflightRow, if pf_version kv.2 ==s version then pf_receipt kv.2 else None)
    (map_to_list (f_preflights (p_fleet s)))
  ++ omap (λ kv : string * ResultRow, match rjobs s !! kv.1 with
       | Some j => if (j_version j ==s version) && (j_purpose j ==s "preflight")
                   then Some (res_digest kv.2) else None
       | None => None end) (map_to_list (results s)).

(** The verified uploads of the preflight jobs; the suite disk only when it is public. *)
Definition preflight_uploads (s : pdb) (version : string) (suite : bool) : list string :=
  omap (λ kv : (string * string) * Upload, match rjobs s !! kv.1.1 with
    | Some j => if (j_version j ==s version) && (j_purpose j ==s "preflight") && up_verified kv.2
                   && ((kv.1.2 !=s "suiteDisk") || suite)
                then Some (up_digest kv.2) else None
    | None => None end) (map_to_list (f_uploads (p_fleet s))).

Section Publication.
Context `{Env} `{UnicodeLib} `{JsonCanonicalizer}.

(** public_at=now(), and public_at=COALESCE(public_at,now()) *)
Definition open_artifact (digest : string) (d : db) : db :=
  set_artifacts d (alter (λ _, Some Now) digest (t_artifacts d)).
Definition open_artifacts (digests : list string) (d : db) : db :=
  set_artifacts d (map_imap (λ digest at_,
    Some (if member digest digests then Some (default Now at_) else at_)) (t_artifacts d)).

Definition publishVersion (s : ldb) (id : string) (m : Manifest) : result ldb :=
  if negb (After (manifest_Deadline m) Now) then Err "deadline_passed" else
  let! s := update_version s id (λ v, version_intake "open" (version_status "published" v)) in
  let row := versions s !! id in
  let d := match row with Some v => open_artifact (vr_source v) (l_core s) | None => l_core s end in
  let d := open_receipts (option_list (row ≫= vr_lock)) d in
  let d := open_receipts (conformance_digests (l_platform s) id) d in
  let d := open_artifacts (preflight_uploads (l_platform s) id
    (suite_Visibility (manifest_Suite m) ==s "public")) d in
  let! d := audit d id "challenge.published" (list_to_map [
    ("versionId", JString id); ("economicMode", JString "none")]) in
  Ok (with_db s d).
End Publication.

(** * Security migrations *)

(** COALESCE((SELECT artifact_digest FROM submissions WHERE id=public_frontier_id),'') *)
Definition frontier_artifact (s : ldb) (row : Version) : string :=
  match ver_frontier row with
  | Some id => match t_submissions (l_core s) !! id with Some x => sub_artifact x | None => "" end
  | None => ""
  end.

Definition drained (v : VersionRow) (row : Version) : bool :=
  (ver_next_sequence row =? ver_watermark row) && member (vr_intake v) ["paused"; "closed"].

Section Migration.
Context `{Env} `{Crypto} `{UnicodeLib} `{JsonCanonicalizer} `{JsonType (list Milestone)} `{JsonType Receipt}.
Context `{JsonType ValidatorResult}.

Definition migration_receipt (sv : Server) (id version prior frontier lock conformance milestones : string)
    (watermark : Z) : Receipt := {|
  receipt_VerificationPolicy := ""; receipt_VerificationStatus := "";
  receipt_DeploymentMode := s_DeploymentMode sv; receipt_OfficialAcceptance := false;
  receipt_APIVersion := APIVersion; receipt_Kind := "ChallengeMigrationReceipt"; receipt_ID := id;
  receipt_CreatedAt := UTC Now; receipt_Producer := "science-ladder"; receipt_SubjectDigest := lock;
  receipt_EconomicMode := "none";
  receipt_Data := list_to_map [("versionId", JString version); ("previousVersionId", JString prior);
    ("oldFinalWatermark", JString (int_string watermark)); ("priorFrontierDigest", JString frontier);
    ("conformanceReceiptDigest", JString conformance); ("milestones", JDocument milestones);
    ("policy", JString "pause-drain-reproduce-lock-transfer-v1")] |}.

Definition set_migration (digest : string) (r : RevisionRow) : RevisionRow :=
  mkRevisionRow (rev_repository r) (rev_repository_id r) (rev_commit r) (rev_prior_frontier r) (Some digest)
    (rev_created r).

Definition stageMigration (sv : Server) (s : ldb) (u : User) (id : string) (m : Manifest)
    : result (ldb * string) :=
  match versions s !! id, l_revisions s !! id with
  | Some v, Some revision =>
      match vr_predecessor v, vr_lock v with
      | Some prior, Some lock =>
          match versions s !! prior, t_versions (l_core s) !! prior with
          | Some pv, Some prow =>
              let frontier := rev_prior_frontier revision in
              if negb (drained pv prow) || (frontier !=s frontier_artifact s prow)
              then Err "migration_predecessor_changed" else
              match passing_preflight s id with
              | None => Err no_rows
              | Some pf =>
                  match pf_receipt pf with
                  | None => Err scan_null
                  | Some conformance =>
                      let '(rid, core) := ID (l_core s) in
                      let s := with_db s core in
                      let! milestones := Marshal (manifest_Milestones m) in
                      let receipt := migration_receipt sv rid id prior frontier lock conformance milestones
                        (ver_watermark prow) in
                      let! digest := Digest receipt in
                      let s := with_platform s (saveReceipt (l_platform s) digest receipt (user_ID u) false) in
                      let! s := update_version s id (version_status "migration_signing") in
                      let s := set_revisions s (alter (set_migration digest) id (l_revisions s)) in
                      Ok (with_db s (enqueue (l_core s) "complete_migration" id), digest)
                  end
              end
          | _, _ => Err no_rows
          end
      | _, _ => Err scan_null
      end
  | _, _ => Err no_rows
  end.

Definition data_string (r : Receipt) (field : string) : option string :=
  match receipt_Data r !! field with Some (JString x) => Some x | _ => None end.

Definition claimed (s : ldb) (milestone : string) : bool :=
  bool_decide (is_Some (t_claims (l_core s) !! milestone)).

(** A numeric(160,0) column takes every text [ParseTicks] does, and a manifest holds no
    other. *)
Definition transfer_step (predecessor id : string) (s : ldb) (m : Milestone) : result ldb :=
  match l_tiers s !! milestone_ID m with
  | None => Err no_rows
  | Some tier =>
      if claimed s (milestone_ID m) then Err "milestone_already_claimed" else
      if tier_version tier ==s id then Ok s else
      if negb (bool_decide (is_Some (t_mappings (l_core s) !! (milestone_ID m, predecessor))))
      then Err "milestone_predecessor_mismatch" else
      if bool_decide (is_Some (t_mappings (l_core s) !! (milestone_ID m, id)))
      then Err unique_violation else
      let! ticks := ParseTicks (milestone_ThresholdTicks m) in
      Ok (with_db s (set_mappings (l_core s) (<[(milestone_ID m, id) := ticks]> (t_mappings (l_core s)))))
  end.

(** The signed receipt fixes exactly the state that is transferred. *)
Definition evidence_holds (r : Receipt) (id predecessor frontier : string) (watermark : Z) : result unit :=
  match data_string r "oldFinalWatermark", data_string r "previousVersionId",
        data_string r "versionId", data_string r "priorFrontierDigest" with
  | Some w, Some p, Some v, Some f =>
      if (w !=s int_string watermark) || (p !=s predecessor) || (v !=s id) || (f !=s frontier)
      then Err "migration_evidence_changed" else Ok tt
  | _, _, _, _ => Err scan_null
  end.

(** The part of [completeMigration] after its guards. *)
Definition finish_migration (s : ldb) (id predecessor receipt : string) (watermark : Z) (m : Manifest)
    : result ldb :=
  let! s := foldM (transfer_step predecessor id) s (manifest_Milestones m) in
  let! s := update_version s predecessor (λ v, version_intake "closed" (version_status "superseded" v)) in
  let s := with_db s (open_receipts [receipt] (l_core s)) in
  let! s := publishVersion s id m in
  let! d := audit (l_core s) id "challenge.migrated" (list_to_map [("versionId", JString id);
    ("previousVersionId", JString predecessor); ("migrationReceiptDigest", JString receipt);
    ("previousWatermark", JString (int_string watermark))]) in
  Ok (with_db s d).

Definition completeMigration (s : ldb) (id : string) : result ldb :=
  match versions s !! id, t_versions (l_core s) !! id, l_revisions s !! id with
  | Some v, Some row, Some revision =>
      match vr_predecessor v with
      | None => Err scan_null
      | Some predecessor =>
          match versions s !! predecessor, t_versions (l_core s) !! predecessor with
          | Some pv, Some prow =>
              match rev_migration revision with
              | None => Err scan_null
              | Some receipt =>
                  if vr_status v ==s "published" then Ok s else
                  if vr_status v !=s "migration_signing" then Err "migration_state_invalid" else
                  let frontier := frontier_artifact s prow in
                  if negb (drained pv prow) || (frontier !=s rev_prior_frontier revision)
                  then Err "migration_predecessor_changed" else
                  match t_receipts (l_core s) !! receipt with
                  | None => Err no_rows
                  | Some signed =>
                      if negb (bool_decide (is_Some (l_envelopes s !! receipt)))
                      then Err "migration_signature_pending" else
                      let! _ := evidence_holds (rr_payload signed) id predecessor frontier (ver_watermark prow) in
                      let! m := ver_manifest row in
                      finish_migration s id predecessor receipt (ver_watermark prow) m
                  end
              end
          | _, _ => Err no_rows
          end
      end
  | _, _, _ => Err no_rows
  end.

Inductive publish_answer := Published | MigrationSigning (digest : string).

Definition publishChallenge (sv : Server) (s : ldb) (u : User) (id : string) : result (ldb * publish_answer) :=
  let! ms := ownedVersion s u id in
  let '(manifest, status) := ms in
  if status !=s "locked" then Err "lock_required" else
  match versions s !! id with
  | None => Err no_rows
  | Some v =>
      match vr_lock v with
      | None => Err no_rows
      | Some lock =>
          match t_receipts (l_core s) !! lock with
          | None => Err no_rows
          | Some _ =>
              if negb (bool_decide (is_Some (l_envelopes s !! lock))) then Err "signature_pending" else
              if vr_transition v ==s "security_migration" then
                let! sd := stageMigration sv s u id manifest in
                Ok (sd.1, MigrationSigning sd.2)
              else
                let! s := publishVersion s id manifest in
                Ok (s, Published)
          end
      end
  end.
End Migration.

(** * Creation *)

Record ChallengeRequest := mkChallengeRequest {
  cr_CandidateID : string;
  cr_Repository : string;
  cr_Ref : string;
  cr_AdoptionStatement : string
}.

Record VersionRequest := mkVersionRequest {
  vq_Repository : string;
  vq_Ref : string;
  vq_AdoptionStatement : string;
  vq_TransitionKind : string
}.

(** A new row with the column defaults. *)
Definition draft_version (challenge owner source : string) (deadline : Time) (predecessor : option string)
    (transition : string) : VersionRow := {|
  vr_challenge := challenge; vr_owner := owner; vr_status := "draft"; vr_review := "pending";
  vr_intake := "unavailable"; vr_badges := []; vr_lock := None; vr_deadline := deadline;
  vr_source := source; vr_predecessor := predecessor; vr_transition := transition |}.

(** INSERT INTO challenge_versions; a pending migration is unique per predecessor. *)
Definition insert_version (s : ldb) (id : string) (v : VersionRow) (m : Manifest) (revision : RevisionRow)
    : result ldb :=
  if bool_decide (is_Some (versions s !! id)) || version_conflict (l_platform s) id v
  then Err unique_violation else
  let s := with_platform s (set_version_rows (l_platform s) (<[id := v]> (versions s))) in
  let s := with_db s (set_versions (l_core s) (<[id := mkVersion 0 0 (Ok m) None None]> (t_versions (l_core s)))) in
  Ok (set_revisions s (<[id := revision]> (l_revisions s))).

(** INSERT INTO milestone_tiers, with the trigger [initial_milestone_mapping]. *)
Definition insert_tier (version : string) (s : ldb) (m : Milestone) : result ldb :=
  if bool_decide (is_Some (l_tiers s !! milestone_ID m)) then Err unique_violation else
  let! ticks := ParseTicks (milestone_ThresholdTicks m) in
  if bool_decide (is_Some (t_mappings (l_core s) !! (milestone_ID m, version))) then Err unique_violation else
  let s := set_tiers s (<[milestone_ID m := mkTierRow version (milestone_Title m) ticks]> (l_tiers s)) in
  Ok (with_db s (set_mappings (l_core s) (<[(milestone_ID m, version) := ticks]> (t_mappings (l_core s))))).

(** The newest version of a challenge. *)
Definition latest_version (s : ldb) (challenge : string) : option (string * VersionRow) :=
  first_least (λ kv : string * VersionRow, vr_challenge kv.2 ==s challenge)
    (λ kv, - match l_revisions s !! kv.1 with Some r => t_ns (rev_created r) | None => 0 end) None
    (map_to_list (versions s)).

Section Creation.
Context `{Env} `{Crypto} `{!Pki} `{UnicodeLib} `{UrlLib} `{YamlLib} `{JsonCanonicalizer} `{JsonType Manifest}.
Context `{JsonType ArtifactTree}.

(** createChallenge before the fetch; [None] asks for the fetch, an answer is a replay. *)
Definition createChallenge_begin (sv : Server) (s : ldb) (u : User) (key reqHash : string)
    (in_ : ChallengeRequest) : result (ldb * option (Z * string)) :=
  if len (TrimSpace (cr_AdoptionStatement in_)) <? 20 then Err "adoption_required" else
  if negb (s_Store sv) then Err "storage_unavailable" else
  match d_candidates (p_desk (l_platform s)) !! cr_CandidateID in_ with
  | None => Err no_rows
  | Some c =>
      if ca_owner c !=s user_ID u then Err no_rows else
      if negb (member (ca_status c) ["ready"; "human_review_required"]) then Err "candidate_not_ready" else
      let! replayed := replayBeforeFetch (l_platform s) u key reqHash in
      match replayed with
      | Some answer => Ok (s, Some answer)
      | None =>
          let! p := reservePreparation sv (l_platform s) u in
          Ok (with_platform s p, None)
      end
  end.

(** The checks of the fetched source. *)
Definition challenge_source (sealer : bool) (s : pdb) (u : User) (snapshot : Snapshot) : result Manifest :=
  if snapshot_Private snapshot then Err "public_repository_required" else
  match snapshot_Files snapshot !! "science-ladder.yaml" with
  | None => Err "manifest_missing"
  | Some document =>
      let! m := ParseManifest document or "manifest_invalid" in
      let! _ := requireSuiteOwner sealer s m (user_ID u) in
      if negb (After (manifest_Deadline m) Now) then Err "deadline_passed" else Ok m
  end.

(** The transaction of createChallenge; [source] is what [Store.Put] returned for
    [snapshotBytes], of [size] bytes.  The answer is the challenge and its version. *)
Definition createChallenge_commit (s : ldb) (u : User) (in_ : ChallengeRequest) (snapshot : Snapshot)
    (m : Manifest) (source : string) (size : Z) : result (ldb * (string * string)) :=
  let! _ := lockSuiteOwner (l_platform s) m (user_ID u) in
  let '(id, core) := ID (l_core s) in
  let '(version, core) := ID core in
  let s := with_db s core in
  let s := with_platform s (insert_blob (l_platform s) source (mkBlobRow source size "application/json" (user_ID u))) in
  if bool_decide (is_Some (l_challenges s !! id))
     || existsb (λ kv, ch_slug kv.2 ==s manifest_Slug m) (map_to_list (l_challenges s))
  then Err unique_violation else
  let s := set_challenges s (<[id := mkChallengeRow (manifest_Slug m) (user_ID u) (cr_CandidateID in_)
    (cr_AdoptionStatement in_)]> (l_challenges s)) in
  let! s := insert_version s version
    (draft_version id (user_ID u) source (manifest_Deadline m) None "season") m
    (mkRevisionRow (cr_Repository in_) (snapshot_RepositoryID snapshot) (cr_Ref in_) "" None Now) in
  let! s := foldM (insert_tier version) s (manifest_Milestones m) in
  let! d := audit (l_core s) version "challenge.adopted" (list_to_map [("versionId", JString version);
    ("creator", JString (user_Login u))]) in
  Ok (with_db s d, (id, version)).

(** ** A successor version *)

(** The predecessor as read before the fetch: identifier and public frontier. *)
Record prior_state := mkPrior { prior_id : string; prior_frontier : string }.

Definition transition_of (in_ : VersionRequest) : string :=
  if vq_TransitionKind in_ ==s "" then "season" else vq_TransitionKind in_.

Definition createVersion_begin (sv : Server) (s : ldb) (u : User) (key reqHash challenge : string)
    (in_ : VersionRequest) : result (ldb * (prior_state * string) * option (Z * string)) :=
  let kind := transition_of in_ in
  if negb (member kind ["season"; "security_migration"]) then Err "transition_invalid" else
  match l_challenges s !! challenge, latest_version s challenge with
  | Some c, Some (prior, pv) =>
      if ch_owner c !=s user_ID u then Err no_rows else
      match t_versions (l_core s) !! prior with
      | None => Err no_rows
      | Some prow =>
          if negb (ver_next_sequence prow =? ver_watermark prow) then Err "prior_receipts_unresolved" else
          if (kind ==s "security_migration") && negb (member (vr_intake pv) ["paused"; "closed"])
          then Err "migration_pause_required" else
          if negb (s_Store sv) then Err "storage_unavailable" else
          if len (vq_AdoptionStatement in_) <? 20 then Err "adoption_required" else
          let before := (mkPrior prior (frontier_artifact s prow), ch_slug c) in
          let! replayed := replayBeforeFetch (l_platform s) u key reqHash in
          match replayed with
          | Some answer => Ok (s, before, Some answer)
          | None =>
              let! p := reservePreparation sv (l_platform s) u in
              Ok (with_platform s p, before, None)
          end
      end
  | _, _ => Err no_rows
  end.

(** The last fixture called previous_frontier. *)
Definition frontier_fixture (m : Manifest) : option Fixture := declared_fixture m "previous_frontier".

(** The files under the fixture's path, by their relative path. *)
Definition fixture_files (files : Files) (path : string) : Files :=
  let prefix := TrimSuffix path "/" +:+ "/" in
  list_to_map (map (λ kv, (TrimPrefix kv.1 prefix, kv.2))
    (List.filter (λ kv, HasPrefix kv.1 prefix) (map_to_list files))).

(** [order] is the iteration order of [treeFor]. *)
Definition verifyFrontierFixture (order : Files → list (string * Bytes)) (files : Files) (m : Manifest)
    (expected : string) : result unit :=
  match frontier_fixture m with
  | None => Err "frontier_fixture_required"
  | Some f =>
      if (fixture_ExpectedOutcome f !=s "valid") || (fixture_ExpectedTicks f ==s "")
      then Err "frontier_fixture_required" else
      let selected := fixture_files files (fixture_Path f) in
      let! td := ArtifactFromFiles selected (order selected) (manifest_Submission m)
        or "frontier_fixture_mismatch" in
      if td.2 !=s expected then Err "frontier_fixture_mismatch" else Ok tt
  end.

Definition version_source (order : Files → list (string * Bytes)) (sealer : bool) (s : pdb) (u : User)
    (kind slug : string) (prior : prior_state) (snapshot : Snapshot) : result Manifest :=
  if snapshot_Private snapshot then Err "public_repository_required" else
  let! m := ParseManifest (default "" (snapshot_Files snapshot !! "science-ladder.yaml")) or "manifest_invalid" in
  let! _ := requireSuiteOwner sealer s m (user_ID u) in
  if manifest_Slug m !=s slug then Err "slug_mismatch" else
  if negb (After (manifest_Deadline m) Now) then Err "deadline_passed" else
  if (kind ==s "security_migration") && (prior_frontier prior !=s "") then
    let! _ := verifyFrontierFixture order (snapshot_Files snapshot) m (prior_frontier prior) in Ok m
  else Ok m.

(** A milestone of the successor: a new identifier, or an unclaimed one of the
    predecessor that a migration will transfer. *)
Definition successor_milestone (kind challenge prior version : string) (s : ldb) (m : Milestone) : result ldb :=
  match l_tiers s !! milestone_ID m with
  | None => insert_tier version s m
  | Some tier =>
      if kind !=s "security_migration" then Err "new_milestone_ids_required" else
      if negb (bool_decide (vr_challenge <$> versions s !! tier_version tier = Some challenge))
         || claimed s (milestone_ID m)
      then Err "milestone_not_transferable" else
      if negb (bool_decide (is_Some (t_mappings (l_core s) !! (milestone_ID m, prior))))
      then Err "milestone_predecessor_mismatch" else Ok s
  end.

Definition createVersion_commit (s : ldb) (u : User) (challenge : string) (in_ : VersionRequest)
    (before : prior_state) (snapshot : Snapshot) (m : Manifest) (source : string) (size : Z)
    : result (ldb * string) :=
  let kind := transition_of in_ in
  let! _ := lockSuiteOwner (l_platform s) m (user_ID u) in
  match l_challenges s !! challenge, latest_version s challenge with
  | Some c, Some (prior, pv) =>
      if ch_owner c !=s user_ID u then Err no_rows else
      match t_versions (l_core s) !! prior with
      | None => Err no_rows
      | Some prow =>
          if (prior !=s prior_id before) || (frontier_artifact s prow !=s prior_frontier before)
          then Err "predecessor_changed" else
          if (kind ==s "security_migration") && negb (member (vr_intake pv) ["paused"; "closed"])
          then Err "migration_pause_required" else
          if negb (ver_next_sequence prow =? ver_watermark prow) then Err "prior_receipts_unresolved" else
          if vr_status pv ==s "machine_preflight" then Err "preflight_running" else
          let '(version, core) := ID (l_core s) in
          let s := with_db s core in
          let s := with_platform s (insert_blob (l_platform s) source
            (mkBlobRow source size "application/json" (user_ID u))) in
          let! s := insert_version s version
            (draft_version challenge (user_ID u) source (manifest_Deadline m) (Some prior) kind) m
            (mkRevisionRow (vq_Repository in_) (snapshot_RepositoryID snapshot) (vq_Ref in_)
               (prior_frontier before) None Now) in
          let! s := foldM (successor_milestone kind challenge prior version) s (manifest_Milestones m) in
          let! s := (if kind ==s "season"
                     then update_version s prior (λ v, version_intake "closed" (version_status "superseded" v))
                     else Ok s) in
          let s := set_challenges s (alter (λ c, mkChallengeRow (ch_slug c) (ch_owner c) (ch_candidate c)
            (vq_AdoptionStatement in_)) challenge (l_challenges s)) in
          let! d := audit (l_core s) version "challenge.version_created" (list_to_map [
            ("versionId", JString version); ("previousVersionId", JString prior);
            ("previousWatermark", JInt (ver_watermark prow)); ("economicMode", JString "none")]) in
          Ok (with_db s d, version)
      end
  | _, _ => Err no_rows
  end.
End Creation.
