(* ===== verification/Worker.v ===== *)
(** The job worker (worker.go), the import of candidates (creation.go): the queue of
    persisted jobs with its leases, retries and backoff, and the handlers that prepare
    submissions and preflights.

    A job is claimed in one transaction, handled, and finished in another, with anything
    in between; a handler that leaves the database to fetch a source is split there. *)

From S2P Require Import Prelude Regex GoLib Numbers Types Scores Paths Measurement Evaluation Validate.
From S2P Require Import Sha256 GoJson Canonical Documents Artifacts Signatures Checkpoint History Store Adjudication.
From S2P Require Import Platform Preparation Suites Runners Editorial Intake Submissions Snapshots Lifecycle.
From Stdlib Require Import Ascii.
Open Scope Z_scope.

(** * The queue *)

Definition job_lease : Z := 10 * Minute.
Definition max_attempts : Z := 8.

(** A text column takes UTF-8 without NUL. *)
Definition pg_text (s : string) : bool := ValidString s && negb (ContainsByte s "000").

Definition truncated (message : string) : string :=
  if len message >? 1000 then string_of (take (Z.to_nat 1000) (list_of message)) else message.

Section Queue.
Context `{Env}.

Definition ready (r : QueueRow) : bool :=
  (member (qu_status r) ["queued"; "retry"] && (t_ns (qu_available r) <=? t_ns Now))
  || ((qu_status r ==s "running")
      && match qu_expires r with Some t => t_ns t <? t_ns Now | None => false end).

(** What the claim returns of its row. *)
Record picked := mkPicked { pk_id : string; pk_kind : string; pk_resource : string; pk_attempts : Z }.

(** ORDER BY available_at FOR UPDATE SKIP LOCKED LIMIT 1: [locked] are the rows other
    transactions hold. *)
Definition next_job (d : db) (locked : gset (string * string)) : option ((string * string) * QueueRow) :=
  first_least (λ kv : (string * string) * QueueRow, ready kv.2 && negb (bool_decide (kv.1 ∈ locked)))
    (λ kv, t_ns (qu_available kv.2)) None (map_to_list (t_jobs d)).

Definition leased (token : string) (r : QueueRow) : QueueRow :=
  mkQueueRow (qu_id r) "running" (qu_attempts r + 1) (qu_available r) (Some (AddNs Now job_lease)) (Some token)
    (qu_error r).

(** The claim of [workOne]; [lease] is the fresh secret. *)
Definition work_claim (d : db) (locked : gset (string * string)) (lease : string) : result (db * picked) :=
  match next_job d locked with
  | None => Err no_rows
  | Some (k, r) =>
      let r := leased lease r in
      Ok (set_jobs d (<[k := r]> (t_jobs d)), mkPicked (qu_id r) k.1 k.2 (qu_attempts r))
  end.

Definition finished (r : QueueRow) : QueueRow :=
  mkQueueRow (qu_id r) "complete" (qu_attempts r) (qu_available r) None (qu_token r) None.
Definition backoff (attempts : Z) : Z := Z.min (attempts * attempts) 300 * Second.
Definition retried (attempts : Z) (message : string) (r : QueueRow) : QueueRow :=
  mkQueueRow (qu_id r) (if attempts >=? max_attempts then "attention_required" else "retry") (qu_attempts r)
    (AddNs Now (backoff attempts)) None (qu_token r) (Some message).

(** UPDATE jobs ... WHERE id=$1 AND lease_token=$2 *)
Definition update_job (d : db) (id lease : string) (f : QueueRow → QueueRow) : db :=
  set_jobs d ((λ r, if (qu_id r ==s id) && bool_decide (qu_token r = Some lease) then f r else r) <$> t_jobs d).

(** The end of [workOne]; the outcome of the handler is returned, except that an error of
    the UPDATE comes first. *)
Definition work_finish (d : db) (p : picked) (lease : string) (outcome : result unit) : db * result unit :=
  match outcome with
  | Ok _ => (update_job d (pk_id p) lease finished, Ok tt)
  | Err e =>
      let message := truncated e in
      if negb (pg_text message) then (d, Err "invalid byte sequence for encoding") else
      (update_job d (pk_id p) lease (retried (pk_attempts p) message), Err e)
  end.
End Queue.

(** * Handlers *)

Inductive job_kind :=
| ResolveCandidate | FetchSubmission | SignReceipt | RunPreflight | CompleteMigration
| ScientificReview | ScientificRereview | ValidateSubmission | Adjudicate.

(** The switch of [workOne]. *)
Definition job_kind_of (kind : string) : result job_kind :=
  if kind ==s "resolve_candidate" then Ok ResolveCandidate
  else if kind ==s "fetch_submission" then Ok FetchSubmission
  else if kind ==s "sign_receipt" then Ok SignReceipt
  else if kind ==s "preflight" then Ok RunPreflight
  else if kind ==s "complete_migration" then Ok CompleteMigration
  else if kind ==s "scientific_review" then Ok ScientificReview
  else if kind ==s "scientific_rereview" then Ok ScientificRereview
  else if kind ==s "validate_submission" then Ok ValidateSubmission
  else if kind ==s "adjudicate" then Ok Adjudicate
  else Err ("unsupported persisted job kind: " +:+ kind).

(** ** Candidates *)

Record candidate_answer := mkCandidateAnswer { ia_id : string; ia_status : string; ia_new : bool }.

Section Candidates.
Context `{Env} `{UnicodeLib} `{UrlLib} `{YamlLib} `{JsonCanonicalizer} `{JsonType Candidate} `{JsonType Manifest}.
Context `{!Crypto}.

(** validateCandidate answers with the candidate or the reason. *)
Definition validateCandidate (document : Bytes) : result Candidate := ParseCandidate document.

(** The transaction of importCandidate. *)
Definition importCandidate (sv : Server) (s : pdb) (u : User) (document : Bytes) : result (pdb * candidate_answer) :=
  let! candidate := ParseCandidate document or "candidate_invalid" in
  let! digest := Digest candidate in
  match List.find (λ kv, (ca_owner kv.2 ==s user_ID u) && (ca_digest kv.2 ==s digest))
          (map_to_list (d_candidates (p_desk s))) with
  | Some (id, c) => Ok (s, mkCandidateAnswer id (ca_status c) false)
  | None =>
      let! s := reservePreparation sv s u in
      let '(id, core) := ID (p_core s) in
      let s := with_core s core in
      if bool_decide (is_Some (d_candidates (p_desk s) !! id)) then Err unique_violation else
      let s := set_candidates s (<[id := mkCandidateRow (user_ID u) digest (Ok candidate) "resolving_sources" []]>
        (d_candidates (p_desk s))) in
      Ok (with_core s (enqueue (p_core s) "resolve_candidate" id), mkCandidateAnswer id "resolving_sources" true)
  end.
End Candidates.

(** ** Fetching a submission *)

Definition quarantine_finding : Finding := mkFinding "quarantine_required"
  "Canonical GitHub artifact stored. Waiting for isolated safety scanning and deterministic read-only disk preparation."
  "pending" "".
Definition isolation_finding : Finding := mkFinding "isolated_preflight_required"
  "Awaiting trusted quarantine builders: independent reproducible builds, full fixture/corpus runs, baseline replication, and immutable disk descriptors. No official machine result has been produced."
  "pending" "".

(** What the handler reads first: the request, the manifest and the owner; [None] when
    there is nothing left to do. *)
Record fetch_plan := mkFetchPlan { fp_request : IntentRequest; fp_manifest : Manifest; fp_owner : string }.

Definition read_intent (s : pdb) (id : string) : result (option fetch_plan) :=
  match i_intents (p_intake s) !! id with
  | None => Err no_rows
  | Some i =>
      match t_versions (p_core s) !! in_version i with
      | None => Err no_rows
      | Some row =>
          if in_status i !=s "github_fetch" then Ok None else
          let! m := ver_manifest row in
          Ok (Some (mkFetchPlan (in_request i) m (in_owner i)))
      end
  end.

(** A source is the artifact, or the reason it is refused. *)
Inductive fetched :=
| Fetched (snapshot : Snapshot) (content : Bytes) (digest : string)
| Rejected (cause : string).

Definition set_fetched (commit digest : string) (i : IntentRow) : IntentRow :=
  if in_status i !=s "github_fetch" then i else
  mkIntentRow (in_version i) (in_owner i) (in_repository i) (in_ref i) commit digest (in_disk i)
    "quarantine_pending" (in_request i) [quarantine_finding] (in_submission i).

Definition set_rejected (cause : string) (i : IntentRow) : IntentRow :=
  mkIntentRow (in_version i) (in_owner i) (in_repository i) (in_ref i) (in_commit i) (in_artifact i) (in_disk i)
    "failed" (in_request i) [mkFinding "artifact_rejected" cause "error" ""] (in_submission i).

Section Fetching.
Context `{Env} `{Crypto} `{!Pki} `{Rsa} `{GitHub} `{UnicodeLib} `{UrlLib} `{YamlLib} `{JsonCanonicalizer}.
Context `{JsonType Manifest} `{JsonType ArtifactTree}.

(** [users] is users.github_id; [order] the iteration order of [treeFor]. *)
Definition fetch_artifact (appID privateKey : string) (users : gmap string Z)
    (order : Files → list (string * Bytes)) (p : fetch_plan) : result fetched :=
  let in_ := fp_request p in
  let contract := manifest_Submission (fp_manifest p) in
  match fetchSnapshot appID privateKey (intentRequest_Repository in_) (intentRequest_Ref in_) (Some contract) with
  | Err e => Ok (Rejected e)
  | Ok snapshot =>
      let! owner := (if snapshot_Private snapshot then
                       match users !! fp_owner p with
                       | None => Err no_rows
                       | Some g => Ok (snapshot_OwnerGitHubID snapshot =? g)
                       end
                     else Ok true) in
      if negb owner then Ok (Rejected "private submissions currently require a repository owned by your authenticated GitHub account; organization access must be separately verified") else
      match artifactBytes order snapshot contract with
      | Err e => Ok (Rejected e)
      | Ok (content, digest) =>
          if (intentRequest_PreviewDigest in_ !=s "") && (intentRequest_PreviewDigest in_ !=s digest)
          then Ok (Rejected "CLI preview digest differs from independently constructed GitHub artifact")
          else Ok (Fetched snapshot content digest)
      end
  end.

Definition failIntent (s : pdb) (id cause : string) : pdb :=
  set_intents s (update (set_rejected cause) id (i_intents (p_intake s))).

(** The transaction that records the artifact; [blob] is what [Store.Put] returned. *)
Definition store_artifact (sv : Server) (s : pdb) (id : string) (p : fetch_plan) (snapshot : Snapshot)
    (content : Bytes) (digest blob : string) : result pdb :=
  let row := mkBlobRow blob (len content) "application/json" (fp_owner p) in
  let s := insert_blob (insert_blob s digest row) blob row in
  let s := set_intents s (update (set_fetched (snapshot_Commit snapshot) digest) id (i_intents (p_intake s))) in
  queuePreparation sv s "artifact_prepare" id (intentRequest_VersionID (fp_request p)) blob digest (fp_manifest p).

(** What follows the fetch, on the state [s] of its time; [put] is [Store.Put]. *)
Definition record_fetch (sv : Server) (s : pdb) (id : string) (p : fetch_plan) (put : Bytes → result string)
    (outcome : fetched) : result pdb :=
  match outcome with
  | Rejected cause => Ok (failIntent s id cause)
  | Fetched snapshot content digest =>
      let! blob := put content in
      store_artifact sv s id p snapshot content digest blob
  end.

(** [before] is the state it reads and [s] the state it writes. *)
Definition fetchSubmission (sv : Server) (appID privateKey : string) (users : gmap string Z)
    (order : Files → list (string * Bytes)) (put : Bytes → result string) (before s : pdb) (id : string)
    : result pdb :=
  if negb (s_Store sv) then Err "immutable artifact storage unavailable" else
  let! plan := read_intent before id in
  match plan with
  | None => Ok s
  | Some p =>
      let! outcome := fetch_artifact appID privateKey users order p in
      record_fetch sv s id p put outcome
  end.
End Fetching.

(** ** Preflights *)

Definition set_waiting (p : PreflightRow) : PreflightRow :=
  if pf_status p !=s "queued" then p else
  mkPreflightRow (pf_version p) "waiting_for_quarantine" [isolation_finding] (pf_reports p) (pf_receipt p).

Section Preflight.
Context `{Env} `{Crypto} `{!Pki}.

Definition preflight (sv : Server) (s : pdb) (id : string) : result pdb :=
  match f_preflights (p_fleet s) !! id with
  | None => Err no_rows
  | Some pf =>
      let version := pf_version pf in
      let s := set_preflights s (update set_waiting id (f_preflights (p_fleet s))) in
      match i_versions (p_intake s) !! version, t_versions (p_core s) !! version with
      | Some v, Some row =>
          let! m := ver_manifest row in
          queuePreparation sv s "preflight" id version (vr_source v) (vr_source v) m
      | _, _ => Err no_rows
      end
  end.
End Preflight.

(** The adjudicate branch of [workOne]. *)
Definition adjudicate_job `{Env} `{UnicodeLib} `{JsonCanonicalizer} `{JsonType ValidatorResult} `{JsonType Receipt}
    (s : pdb) (resource : string) : option (result pdb) :=
  match submissions s !! resource with
  | None => Some (Err no_rows)
  | Some x => match adjudicate (p_core s) (sub_version x) with
              | Some (Ok d) => Some (Ok (with_core s d))
              | Some (Err e) => Some (Err e)
              | None => None
              end
  end.
