(* ===== verification/Sources.v ===== *)
(** The sources of a candidate or manifest (review.go): which addresses the platform fetches
    from, what it takes as a quotation and a date of a document, and what it reports of each
    source.  The answers of source servers and the parsing of URLs and of HTML are parameters.

    Before it the calendar of Go's time package, as far as this review uses it: dates of an
    instant, [AddDate], [Format] and [Parse] for three layouts. *)

From S2P Require Import Prelude Regex GoLib Numbers Types Scores Paths Measurement Evaluation Validate Sha256 GoJson.
From S2P Require Import Canonical Documents Artifacts Store Adjudication Signatures Checkpoint History Platform Preparation.
From S2P Require Import Suites Runners Editorial Intake Submissions Snapshots Lifecycle.
From Stdlib Require Import Ascii.
From stdpp Require Import sorting.
Open Scope Z_scope.

(** * The proleptic Gregorian calendar *)

Definition leap (y : Z) : bool := (y mod 4 =? 0) && (negb (y mod 100 =? 0) || (y mod 400 =? 0)).
Definition days_before_year (y : Z) : Z := 365 * (y - 1) + (y - 1) / 4 - (y - 1) / 100 + (y - 1) / 400.
Definition month_lengths (y : Z) : list Z :=
  [31; if leap y then 29 else 28; 31; 30; 31; 30; 31; 31; 30; 31; 30; 31].
Definition daysIn (m y : Z) : Z := nth (Z.to_nat (m - 1)) (month_lengths y) 0.
Definition days_before_month (m y : Z) : Z := foldr Z.add 0 (take (Z.to_nat (m - 1)) (month_lengths y)).

(** Days since the zero time, January 1 of year 1; the day may be any integer. *)
Definition day_number (y m d : Z) : Z := days_before_year y + days_before_month m y + d - 1.

(** The month and day of the [n]-th day of a year. *)
Fixpoint month_of (ls : list Z) (m n : Z) : Z * Z :=
  match ls with
  | l :: ls => if n <? l then (m, n + 1) else month_of ls (m + 1) (n - l)
  | [] => (m, n + 1)
  end.

(** [t.Date()]: the year is the quotient by the mean length, or the one after it. *)
Definition civil (days : Z) : Z * Z * Z :=
  let y := days * 400 / 146097 in
  let y := if day_number (y + 1) 1 1 <=? days then y + 1 else y in
  let y := if day_number (y + 1) 1 1 <=? days then y + 1 else y in
  let '(m, d) := month_of (month_lengths y) 1 (days - day_number y 1 1) in
  (y, m, d).

Definition day_ns : Z := 24 * Hour.
Definition local_ns (t : Time) : Z := t_ns t + t_off t * Second.
Definition date_of (t : Time) : Z * Z * Z := civil (local_ns t / day_ns).

(** [t.AddDate(years, 0, 0)] keeps the clock; an impossible day runs into the next month. *)
Definition AddYears (t : Time) (years : Z) : Time :=
  let '(y, m, d) := date_of t in
  mkTime (day_number (y + years) m d * day_ns + local_ns t mod day_ns - t_off t * Second) (t_off t).

Example civil_leap : civil (day_number 2024 2 29) = (2024, 2, 29).
Proof. reflexivity. Qed.
Example civil_century : civil (day_number 1900 3 1) = (1900, 3, 1).
Proof. reflexivity. Qed.
Example civil_end : civil (day_number 2000 12 31) = (2000, 12, 31).
Proof. reflexivity. Qed.
Example years_after_leap : AddYears (mkTime (day_number 2024 2 29 * day_ns) 0) (-5)
  = mkTime (day_number 2019 3 1 * day_ns) 0.
Proof. reflexivity. Qed.

(** * Texts *)

(** A number of [n] digits, zero padded. *)
Fixpoint padded (n : nat) (z : Z) : list ascii :=
  match n with O => [] | S n => padded n (z / 10) ++ [byte_of (48 + z mod 10)] end.

(** [t.Format("2006-01-02")], for the years 0 to 9999. *)
Definition FormatDate (t : Time) : string :=
  let '(y, m, d) := date_of t in
  string_of (padded 4 y ++ "-"%char :: padded 2 m ++ "-"%char :: padded 2 d).

Definition digit_of (c : ascii) : option Z :=
  let b := byte_val c in if (48 <=? b) && (b <=? 57) then Some (b - 48) else None.

(** Exactly [n] digits. *)
Fixpoint digits (n : nat) (acc : Z) (l : list ascii) : option (Z * list ascii) :=
  match n, l with
  | O, _ => Some (acc, l)
  | S n, c :: l => match digit_of c with Some d => digits n (acc * 10 + d) l | None => None end
  | S _, [] => None
  end.

(** [getnum(s, false)]: one or two digits. *)
Definition getnum (l : list ascii) : option (Z * list ascii) :=
  match digits 2 0 l with Some r => Some r | None => digits 1 0 l end.

Definition skip (c : ascii) (l : list ascii) : option (list ascii) :=
  match l with x :: l => if Ascii.eqb x c then Some l else None | [] => None end.

(** Year, month and day with [sep] between them. *)
Definition parse_date (sep : ascii) (l : list ascii) : option ((Z * Z * Z) * list ascii) :=
  match digits 4 0 l with
  | None => None
  | Some (y, l) =>
      match skip sep l ≫= digits 2 0 with
      | None => None
      | Some (m, l) =>
          if (m <? 1) || (m >? 12) then None else
          match skip sep l ≫= digits 2 0 with
          | Some (d, l) => Some ((y, m, d), l)
          | None => None
          end
      end
  end.

Definition valid_day (ymd : Z * Z * Z) : bool :=
  let '(y, m, d) := ymd in (1 <=? d) && (d <=? daysIn m y).

(** [time.Parse] of "2006-01-02" and "2006/01/02". *)
Definition ParseDay (sep : ascii) (s : string) : option Time :=
  match parse_date sep (list_of s) with
  | Some (ymd, []) =>
      if valid_day ymd then let '(y, m, d) := ymd in Some (mkTime (day_number y m d * day_ns) 0) else None
  | _ => None
  end.

Fixpoint span_digits (l : list ascii) : list Z * list ascii :=
  match l with
  | c :: l' => match digit_of c with
               | Some d => let '(ds, r) := span_digits l' in (d :: ds, r)
               | None => ([], l)
               end
  | [] => ([], [])
  end.

(** A fraction of a second the layout does not mention; nine digits count. *)
Definition parse_fraction (l : list ascii) : Z * list ascii :=
  match l with
  | c :: l' =>
      if Ascii.eqb c "." || Ascii.eqb c "," then
        match span_digits l' with
        | ([], _) => (0, l)
        | (ds, r) =>
            let ds := take 9 ds in
            (foldl (λ a d, a * 10 + d) 0 ds * 10 ^ (9 - Z.of_nat (length ds)), r)
        end
      else (0, l)
  | [] => (0, l)
  end.

(** "Z07:00": the offset in seconds. *)
Definition parse_zone (l : list ascii) : option (Z * list ascii) :=
  match l with
  | c :: l =>
      if Ascii.eqb c "Z" then Some (0, l) else
      match (if Ascii.eqb c "+" then Some 1 else if Ascii.eqb c "-" then Some (-1) else None), digits 2 0 l with
      | Some sign, Some (h, l) =>
          match skip ":" l ≫= digits 2 0 with
          | Some (m, l) => if (h >? 24) || (m >? 60) then None else Some (sign * (h * 60 + m) * 60, l)
          | None => None
          end
      | _, _ => None
      end
  | [] => None
  end.

Definition parse_clock (l : list ascii) : option (Z * list ascii) :=
  match getnum l with
  | None => None
  | Some (h, l) =>
      match skip ":" l ≫= digits 2 0 with
      | None => None
      | Some (m, l) =>
          match skip ":" l ≫= digits 2 0 with
          | None => None
          | Some (s, l) =>
              if (h >=? 24) || (m >=? 60) || (s >=? 60) then None else
              let '(ns, l) := parse_fraction l in Some ((h * 3600 + m * 60 + s) * Second + ns, l)
          end
      end
  end.

(** [time.Parse(time.RFC3339, s)] *)
Definition ParseRFC3339 (s : string) : option Time :=
  match parse_date "-" (list_of s) with
  | None => None
  | Some (ymd, l) =>
      match skip "T" l ≫= parse_clock with
      | None => None
      | Some (clock, l) =>
          match parse_zone l with
          | Some (off, []) =>
              if valid_day ymd then
                let '(y, m, d) := ymd in Some (mkTime (day_number y m d * day_ns + clock - off * Second) off)
              else None
          | _ => None
          end
      end
  end.

Example parse_day : FormatDate <$> ParseDay "/" "2024/02/29" = Some "2024-02-29".
Proof. reflexivity. Qed.
Example parse_no_day : ParseDay "-" "2023-02-29" = None.
Proof. reflexivity. Qed.
Example parse_offset : FormatDate <$> ParseRFC3339 "2024-03-01T23:30:00.25-08:00" = Some "2024-03-01".
Proof. reflexivity. Qed.

(** * Addresses (net/netip) *)

Inductive netAddr := V4 (bits : Z) | V6 (bits : Z).
#[export] Instance netAddr_eq_dec : EqDecision netAddr.
Proof. solve_decision. Defined.

Definition big_endian (bs : list Z) : Z := foldl (λ a b, a * 256 + b) 0 bs.

(** [netip.AddrFromSlice] *)
Definition AddrFromSlice (ip : list Z) : option netAddr :=
  if lenl ip =? 4 then Some (V4 (big_endian ip))
  else if lenl ip =? 16 then Some (V6 (big_endian ip)) else None.

Definition Unmap (a : netAddr) : netAddr :=
  match a with
  | V6 n => if Z.shiftr n 32 =? 65535 then V4 (Z.land n (2 ^ 32 - 1)) else a
  | V4 _ => a
  end.

(** [prefix.Contains(addr)]: the families must agree. *)
Definition in_prefix (p : netAddr * Z) (a : netAddr) : bool :=
  match p.1, a with
  | V4 x, V4 n => Z.shiftr n (32 - p.2) =? Z.shiftr x (32 - p.2)
  | V6 x, V6 n => Z.shiftr n (128 - p.2) =? Z.shiftr x (128 - p.2)
  | _, _ => false
  end.

Definition v4 (a b c d : Z) : netAddr := V4 (big_endian [a; b; c; d]).
(** The first two groups of an IPv6 address, the others zero. *)
Definition v6 (g0 g1 : Z) : netAddr := V6 (Z.shiftl g0 112 + Z.shiftl g1 96).

Definition IsLoopback (a : netAddr) : bool := in_prefix (v4 127 0 0 0, 8) a || bool_decide (a = V6 1).
Definition IsLinkLocalUnicast (a : netAddr) : bool :=
  in_prefix (v4 169 254 0 0, 16) a || in_prefix (v6 65152 0, 10) a.
Definition IsMulticast (a : netAddr) : bool := in_prefix (v4 224 0 0 0, 4) a || in_prefix (v6 65280 0, 8) a.
Definition IsPrivate (a : netAddr) : bool :=
  existsb (λ p, in_prefix p a) [(v4 10 0 0 0, 8); (v4 172 16 0 0, 12); (v4 192 168 0 0, 16); (v6 64512 0, 7)].
Definition IsGlobalUnicast (a : netAddr) : bool :=
  negb (bool_decide (a = v4 0 0 0 0) || bool_decide (a = v4 255 255 255 255) || bool_decide (a = V6 0)
        || IsLoopback a || IsMulticast a || IsLinkLocalUnicast a).

Definition reserved_prefixes : list (netAddr * Z) :=
  [(v4 0 0 0 0, 8); (v4 100 64 0 0, 10); (v4 192 0 0 0, 24); (v4 192 0 2 0, 24); (v4 198 18 0 0, 15);
   (v4 198 51 100 0, 24); (v4 203 0 113 0, 24); (v4 240 0 0 0, 4); (v6 8193 3512, 32);
   (v6 100 65435, 96); (V6 (Z.shiftl 100 112 + Z.shiftl 65435 96 + Z.shiftl 1 80), 48);
   (v6 8194 0, 16); (v6 8193 0, 32); (V6 0, 96)].

(** [publicIP] after [Unmap]. *)
Definition public_addr (a : netAddr) : bool :=
  if negb (IsGlobalUnicast a) || IsPrivate a || IsLoopback a || IsLinkLocalUnicast a then false else
  negb (existsb (λ p, in_prefix p a) reserved_prefixes).

Definition publicIP (ip : list Z) : bool :=
  match AddrFromSlice ip with None => false | Some a => public_addr (Unmap a) end.

(** DialContext of [sourceClient]: the address that is dialled, given what the resolver
    returned; every address must be public. *)
Definition dial_address (ips : list (list Z)) : result (list Z) :=
  match ips with
  | [] => Err "source DNS returned no address"
  | ip :: _ => if forallb publicIP ips then Ok ip else Err "source resolves to a non-public network"
  end.

(** CheckRedirect: the redirects already followed, and the scheme, user and port of the
    next request. *)
Definition check_redirect (via : Z) (scheme : string) (user : bool) (port : string) : result unit :=
  if via >=? 5 then Err "too many redirects" else
  if (scheme !=s "https") || user || ((port !=s "") && (port !=s "443")) then Err "unsafe source redirect" else Ok tt.

(** * Documents *)

(** A node of golang.org/x/net/html: an element with its name, attributes and children, a
    text, or another node. *)
Inductive htmlNode :=
| ElementNode (name : string) (attrs : list (string * string)) (children : list htmlNode)
| TextNode (text : string)
| OtherNode (children : list htmlNode).

Fixpoint node_size (n : htmlNode) : nat :=
  S match n with
    | ElementNode _ _ children | OtherNode children => list_sum (map node_size children)
    | TextNode _ => 0
    end.

Definition children_of (n : htmlNode) : list htmlNode :=
  match n with ElementNode _ _ l | OtherNode l => l | TextNode _ => [] end.

(** [whitespace.ReplaceAllString(s, with)] for \s+: tab, line feed, form feed, carriage
    return and space. *)
Definition is_blank (c : ascii) : bool :=
  let b := byte_val c in (b =? 9) || (b =? 10) || (b =? 12) || (b =? 13) || (b =? 32).
Fixpoint collapse (with_ : list ascii) (blank : bool) (l : list ascii) : list ascii :=
  match l with
  | [] => []
  | c :: l => if is_blank c then (if blank then [] else with_) ++ collapse with_ true l
              else c :: collapse with_ false l
  end.
Definition ReplaceBlanks (s with_ : string) : string := string_of (collapse (list_of with_) false (list_of s)).

(** A Go map built from attributes: the last one of a key stays. *)
Definition attribute (attrs : list (string * string)) (key : string) : string :=
  default "" (snd <$> List.find (λ kv, kv.1 ==s key) (rev attrs)).

Section Markup.
Context `{UnicodeLib}.

Definition skipped_element (name : string) : bool :=
  member name ["script"; "style"; "template"; "noscript"; "head"].

Definition hides (kv : string * string) : bool :=
  (kv.1 ==s "hidden") || (kv.1 ==s "inert") || ((kv.1 ==s "aria-hidden") && EqualFold kv.2 "true")
  || ((kv.1 ==s "style")
      && (let style := ToLower (ReplaceBlanks kv.2 "") in
          Contains style "display:none" || Contains style "visibility:hidden")).

(** One iteration of the loop: what the node on top adds to the text, and the nodes it
    leaves pending in its place. *)
Definition visit_text (n : htmlNode) : string * list htmlNode :=
  match n with
  | ElementNode name attrs children =>
      if skipped_element name || existsb hides attrs then ("", []) else ("", children)
  | TextNode text => (text +:+ " ", [])
  | OtherNode children => ("", children)
  end.

(** The stack [pending], its top first, and the text written so far. *)
Fixpoint text_loop (fuel : nat) (pending : list htmlNode) (text : string) : option string :=
  match fuel, pending with
  | _, [] => Some text
  | O, _ => None
  | S fuel, n :: pending =>
      let '(t, children) := visit_text n in text_loop fuel (children ++ pending) (text +:+ t)
  end.

Definition date_layouts (s : string) : option Time :=
  match ParseDay "-" s with
  | Some t => Some t
  | None => match ParseDay "/" s with Some t => Some t | None => ParseRFC3339 s end
  end.

Definition meta_date (n : htmlNode) : option Time :=
  match n with
  | ElementNode name attrs _ =>
      if name !=s "meta" then None else
      let attrs := map (λ kv, (ToLower kv.1, kv.2)) attrs in
      if member (ToLower (attribute attrs "name")) ["citation_publication_date"; "citation_date"; "dc.date.issued"]
      then date_layouts (attribute attrs "content") else None
  | _ => None
  end.

(** The loop ends on the first date: [Some None] is no date. *)
Fixpoint date_loop (fuel : nat) (pending : list htmlNode) : option (option Time) :=
  match fuel, pending with
  | _, [] => Some None
  | O, _ => None
  | S fuel, n :: pending =>
      match meta_date n with
      | Some t => Some (Some t)
      | None => date_loop fuel (children_of n ++ pending)
      end
  end.
End Markup.

(** html.Parse *)
Class HtmlLib := { HtmlParse : Bytes → result htmlNode }.

Section Sources.
Context `{UnicodeLib} `{HtmlLib}.

Definition publicationDate (document : Bytes) : option Time :=
  match HtmlParse document with
  | Err _ => None
  | Ok root => default None (date_loop (node_size root) [root])
  end.

Definition visibleSourceText (document : Bytes) (contentType : string) : string :=
  if HasPrefix (ToLower contentType) "text/plain" then document else
  if negb (Contains (ToLower contentType) "html") then "" else
  match HtmlParse document with
  | Err _ => ""
  | Ok root => default "" (text_loop (node_size root) [root] "")
  end.
End Sources.

(** * Resolving the sources of a candidate or manifest *)

(** Hostname and Port of net/url, and GET through [sourceClient]: the status, the content
    type, and up to one byte over 5 MiB of the body. *)
Class SourceNet := {
  UrlHostname : string → string;
  UrlPort : string → string;
  SourceGet : string → result (Z * string * result Bytes)
}.

Definition source_limit : Z := Z.shiftl 5 20.

Record resolution := mkResolution { rs_status : string; rs_findings : list Finding; rs_recent : bool }.

Definition noted (f : Finding) (r : resolution) : resolution :=
  mkResolution (rs_status r) (rs_findings r ++ [f]) (rs_recent r).
Definition source_failed (r : resolution) : resolution := mkResolution "failed" (rs_findings r) (rs_recent r).
Definition needs_human (r : resolution) : resolution :=
  if rs_status r ==s "failed" then r else mkResolution "human_review_required" (rs_findings r) (rs_recent r).
Definition recent (r : resolution) : resolution := mkResolution (rs_status r) (rs_findings r) true.

Section Resolve.
Context `{Env} `{UnicodeLib} `{UrlLib} `{HtmlLib} `{SourceNet}.

Definition safe_source (url : string) : bool :=
  match UrlParse url with
  | Err _ => false
  | Ok (scheme, _, user) =>
      (scheme ==s "https") && (UrlHostname url !=s "") && negb user
      && ((UrlPort url ==s "") || (UrlPort url ==s "443"))
  end.

(** The whole response, or nothing. *)
Definition response_of (answer : result (Z * string * result Bytes)) : option (string * Bytes) :=
  match answer with
  | Ok (status, contentType, Ok body) =>
      if (status <? 200) || (status >=? 300) || (len body >? source_limit) then None else Some (contentType, body)
  | _ => None
  end.

(** A date at most one day ahead, less than five years old. *)
Definition recent_paper (date : Time) : bool :=
  negb (After date (AddNs Now (24 * Hour))) && After date (AddYears Now (-5)).

Definition check_date (source : Source) (body : Bytes) (r : resolution) : resolution :=
  match publicationDate body with
  | None => r
  | Some date =>
      let r := noted (mkFinding "publication_metadata_resolved"
        ("Source publication metadata reports " +:+ FormatDate date) "info" (source_URL source)) r in
      let r := if recent_paper date then recent r else r in
      if (source_PublicationDate source !=s "") && (source_PublicationDate source !=s FormatDate date)
      then needs_human (noted (mkFinding "publication_date_mismatch"
        "Creator-supplied publication date differs from retrieved citation metadata" "review" (source_URL source)) r)
      else r
  end.

Definition quoted (source : Source) (contentType : string) (body : Bytes) : bool :=
  negb (Contains contentType "pdf")
  && Contains (ReplaceBlanks (visibleSourceText body contentType) " ") (ReplaceBlanks (source_Evidence source) " ").

Definition check_quote (source : Source) (contentType : string) (body : Bytes) (r : resolution) : resolution :=
  if quoted source contentType body
  then noted (mkFinding "source_evidence_resolved"
    ("Source was retrieved and the quoted evidence text was found; response digest sha256:" +:+ hash body)
    "info" (source_URL source)) r
  else needs_human (noted (mkFinding "evidence_requires_review"
    "The source resolves, but the quoted evidence location needs human verification; accessibility alone is not citation validation"
    "review" (source_URL source)) r).

(** One iteration. *)
Definition resolve_source (r : resolution) (source : Source) : resolution :=
  if negb (safe_source (source_URL source))
  then source_failed (noted (mkFinding "source_url_invalid"
    "Source must be a public HTTPS URL without credentials or a custom port" "error" (source_URL source)) r) else
  match SourceGet (source_URL source) with
  | Err _ => source_failed (noted (mkFinding "source_unresolved"
      "The source could not be independently retrieved" "error" (source_URL source)) r)
  | answer =>
      match response_of answer with
      | None => source_failed (noted (mkFinding "source_unresolved"
          "The source returned an unsuccessful response" "error" (source_URL source)) r)
      | Some (contentType, body) => check_quote source contentType body (check_date source body r)
      end
  end.

Definition resolveSources (sources : list Source) : string * list Finding :=
  let r := foldl resolve_source (mkResolution "ready" [] false) sources in
  let r := if rs_recent r then r else needs_human (noted (mkFinding "paper_recency_requires_review"
    "No primary-paper publication date within five years was independently resolved; an editor must verify recency or record a foundational-question exception"
    "review" "") r) in
  (rs_status r, rs_findings r).

Definition set_resolved (status : string) (findings : list Finding) (c : CandidateRow) : CandidateRow :=
  mkCandidateRow (ca_owner c) (ca_digest c) (ca_document c) status findings.

Definition resolveCandidate (s : pdb) (id : string) : result pdb :=
  match d_candidates (p_desk s) !! id with
  | None => Err no_rows
  | Some c =>
      let! candidate := ca_document c in
      let '(status, findings) := resolveSources (candidate_Sources candidate) in
      let '(status, findings) := (if candidate_Disposition candidate !=s "viable" then
        ("changes_required", findings ++ [mkFinding "candidate_not_viable"
          "The Scout did not classify this candidate as ready for adoption" "review" ""])
        else (status, findings)) in
      Ok (set_candidates s (update (set_resolved status findings) id (d_candidates (p_desk s))))
  end.
End Resolve.
