(* ===== verification/Review.v ===== *)
(** Scientific review (review.go, review_evidence.go, and applyMetricAssessment of
    metric_review.go): what of a repository the reviewer is shown, how the outcome of a
    review is formed, and how it is requested and recorded.

    The answer of the review provider and the codec of reports are parameters. *)

From S2P Require Import Prelude Regex GoLib Numbers Types Scores Paths Measurement Evaluation Validate.
From S2P Require Import Sha256 GoJson Canonical Documents Artifacts Signatures Checkpoint History Store Adjudication.
From S2P Require Import Platform Preparation Suites Runners Editorial Intake Submissions Snapshots Lifecycle Sources.
From stdpp Require Import sorting.
From Stdlib Require Import Ascii.
Open Scope Z_scope.

(** * Secrets *)

(** A literal or class under (?i): besides the other case, U+212A folds to k and U+017F
    to s. *)
Definition same_letter (c : ascii) (x : ascii) : bool := Ascii.eqb (lower_byte x) c.
Definition bytes_re (l : list Z) : re := foldr (λ b r, Cat (Chr (λ x, byte_val x =? b)) r) Eps l.
Definition wide_k : re := bytes_re [226; 132; 170].
Definition wide_s : re := bytes_re [197; 191].
Definition fold_chr (c : ascii) : re :=
  let r := Chr (same_letter c) in
  if Ascii.eqb c "k" then Alt r wide_k else if Ascii.eqb c "s" then Alt r wide_s else r.
Definition fold_lit (s : string) : re := foldr (λ c r, Cat (fold_chr c) r) Eps (list_of s).
(** A class of letters, with other characters. *)
Definition fold_class (extra : ascii → bool) : re :=
  Alt (Chr (λ x, is_lower (lower_byte x) || extra x)) (Alt wide_k wide_s).

Definition Exactly (n : nat) (r : re) : re := Nat.iter n (Cat r) Eps.
Definition AtLeast (n : nat) (r : re) : re := Cat (Exactly n r) (Star r).
Definition one_of (l : list re) : re := foldr Alt Regex.Empty l.
Definition any_char (s : string) : re := Chr (λ x, existsb (Ascii.eqb x) (list_of s)).

Definition blank_re : re := Star (Chr is_blank).
(** One character of valid UTF-8 that is no blank, quote or angle bracket. *)
Definition value_char : re :=
  Alt (Chr (λ x, (byte_val x <? 128) && negb (is_blank x) && negb (existsb (Ascii.eqb x) ["034"; "039"; "<"; ">"]%char)))
      (Cat (Chr (λ x, 192 <=? byte_val x)) (Star (Chr (λ x, cont (byte_val x))))).

Definition begin_key : re :=
  Cat (fold_lit "-----begin ") (Cat (Star (fold_class (Ascii.eqb " "))) (fold_lit "private key-----")).
Definition sk_key : re :=
  Cat (fold_lit "sk-") (Cat (Opt (Alt (fold_lit "proj-") (fold_lit "svcacct-")))
    (AtLeast 16 (fold_class (λ x, is_digit x || Ascii.eqb x "_" || Ascii.eqb x "-")))).
Definition gh_key : re :=
  Cat (one_of [fold_lit "ghp_"; fold_lit "gho_"; fold_lit "github_pat_"])
    (AtLeast 16 (fold_class (λ x, is_digit x || Ascii.eqb x "_"))).
Definition aws_key : re := Cat (fold_lit "akia") (Exactly 16 (fold_class is_digit)).
Definition named_secret : re :=
  let sep := Opt (any_char "_-") in
  Cat (one_of [fold_lit "password"; Cat (fold_lit "api") (Cat sep (fold_lit "key"));
               Cat (fold_lit "access") (Cat sep (fold_lit "token"));
               Cat (fold_lit "client") (Cat sep (fold_lit "secret"))])
    (Cat blank_re (Cat (any_char "=:") (Cat blank_re
      (Cat (Opt (Chr (λ x, Ascii.eqb x "034" || Ascii.eqb x "039"))) (AtLeast 8 value_char))))).

Definition word_char (c : ascii) : bool := is_lower (lower_byte c) || is_digit c || Ascii.eqb c "_".
(** \b between two bytes; the ends of the text are no word characters. *)
Definition boundary (before after : option ascii) : bool :=
  xorb (from_option word_char false before) (from_option word_char false after).

(** Whether some prefix matches, with \b behind it if [closed]. *)
Fixpoint prefix_match (closed : bool) (r : re) (before : option ascii) (l : list ascii) : bool :=
  (nullable r && (negb closed || boundary before (head l)))
  || match l with [] => false | c :: l => prefix_match closed (deriv c r) (Some c) l end.

Fixpoint secret_in (before : option ascii) (l : list ascii) : bool :=
  prefix_match false begin_key before l || prefix_match false named_secret before l
  || (boundary before (head l)
      && (prefix_match false sk_key before l || prefix_match false gh_key before l || prefix_match true aws_key before l))
  || match l with [] => false | c :: l => secret_in (Some c) l end.

(** [reviewSecretMarker.Match], on valid UTF-8. *)
Definition reviewSecretMarker (data : Bytes) : bool := secret_in None (list_of data).

Example secret_assignment : reviewSecretMarker "API-KEY = 'abcdefgh'" = true.
Proof. vm_compute. reflexivity. Qed.
Example secret_aws : (reviewSecretMarker "x AKIA0123456789ABCDEF.", reviewSecretMarker "xAKIA0123456789ABCDEF",
  reviewSecretMarker "AKIA0123456789ABCDEF0") = (true, false, false).
Proof. vm_compute. reflexivity. Qed.
Example secret_none : reviewSecretMarker "the password: short" = false.
Proof. vm_compute. reflexivity. Qed.

(** * Evidence *)

Record reviewEvidenceFile := mkEvidenceFile { ef_Path : string; ef_Digest : string; ef_Text : string }.

Record reviewSourceEvidence := mkSourceEvidence {
  se_SourceCommit : string;
  se_SourceDigest : string;
  se_ManifestDigest : string;
  se_Files : list reviewEvidenceFile;
  se_Omitted : Z
}.

Definition reviewEvidencePolicy : string := "pinned-text-evidence-v4".
Definition reviewEvidenceLimit : Z := Z.shiftl 192 10.
Definition evidence_limitations : list string :=
  ["Repository text is creator-authored untrusted evidence; included tests and reproduction claims are not proof that they ran.";
   "Only selected bounded textual files are included. Hidden suites, private solver artifacts, credentials and repository instruction files are excluded.";
   "Primary-source retrieval checks establish observed text and metadata, not truth, licensing authority, completeness of literature, or the absence of metadata errors."].

(** The document of a stored snapshot ([snapshotBytes]). *)
Record SnapshotDocument := mkSnapshotDocument { sd_RepositoryID : Z; sd_SourceCommit : string; sd_Files : Files }.

(** [json.Marshal] of the struct: the members in the order of its fields. *)
Definition raw_string (s : string) : string := string_of (quote s).
Definition raw_member (name value : string) : string := raw_string name +:+ ":" +:+ value.
Fixpoint comma_join (l : list string) : string :=
  match l with [] => "" | [x] => x | x :: l => x +:+ "," +:+ comma_join l end.
Definition raw_list (l : list string) : string := "[" +:+ comma_join l +:+ "]".
Definition raw_struct (l : list (string * string)) : string :=
  "{" +:+ comma_join (map (λ kv, raw_member kv.1 kv.2) l) +:+ "}".

Definition raw_evidence (e : reviewSourceEvidence) : Bytes :=
  raw_struct [("policy", raw_string reviewEvidencePolicy); ("sourceCommit", raw_string (se_SourceCommit e));
    ("sourceSnapshotDigest", raw_string (se_SourceDigest e)); ("manifestDigest", raw_string (se_ManifestDigest e));
    ("files", raw_list (map (λ f, raw_struct [("path", raw_string (ef_Path f)); ("digest", raw_string (ef_Digest f));
       ("text", raw_string (ef_Text f))]) (se_Files e)));
    ("omittedSelectedFiles", int_string (se_Omitted e));
    ("limitations", raw_list (map raw_string evidence_limitations))].

(** [path.Join] of two names, and [path.Base] of a validated path. *)
Definition Join (a b : string) : string :=
  if a ==s "" then (if b ==s "" then "" else Clean b) else Clean (a +:+ "/" +:+ b).
Definition Base (name : string) : string := List.last (Split name "/") "".

Section Evidence.
Context `{UnicodeLib} `{UrlLib} `{YamlLib} `{JsonCanonicalizer} `{JsonType Manifest} `{JsonType SnapshotDocument}.

Definition private_component (c : string) : bool :=
  HasPrefix c "." || member c ["private"; "secrets"; "credentials"; "agents.md"; "skill.md"].

Definition under (path name : string) : bool := (name ==s path) || HasPrefix name (path +:+ "/").

Definition text_extension (name : string) : bool :=
  let ext := ToLower (Ext name) in
  member ext [".md"; ".txt"; ".json"; ".py"; ".rs"; ".c"; ".h"; ".cpp"; ".hpp"; ".lean"; ".lock"]
  || ((ext ==s "") && (Base name ==s "LICENSE")).

Definition safeReviewPath (name : string) (m : Manifest) : bool :=
  if is_err (ValidatePath name) then false else
  if existsb private_component (Split (ToLower name) "/") then false else
  if (suite_Visibility (manifest_Suite m) ==s "hidden") && under (suite_Path (manifest_Suite m)) name
  then false else text_extension name.

Definition review_files : list string :=
  ["visualization/visual.json"; "visualization/README.md"; "visualization/reference.json";
   "visualization/context.schema.json"; "visualization/checks.md"; "docs/science.md"; "docs/method.md";
   "docs/numerical-validation.json"; "challenge-brief.md"; "THIRD_PARTY_NOTICES.md"; "LICENSE";
   "DATA_LICENSE.md"; "literature/reference.json"; "docs/source-evidence.json"; "tests/test_checker.py";
   "tools/reproduce.py"].

(** Every name that may be shown, sorted; a map may be ranged over in any order. *)
Definition selected_names (files : Files) (m : Manifest) : list string :=
  let names := map fst (map_to_list files) in
  let public := suite_Visibility (manifest_Suite m) ==s "public" in
  let suite := suite_Path (manifest_Suite m) in
  SortStrings (
    (validator_DependencyLock (manifest_Validator m) :: review_files)
    ++ omap (λ arg, if HasPrefix arg "/sl/challenge/" then Some (TrimPrefix arg "/sl/challenge/") else None)
         (validator_Entrypoint (manifest_Validator m))
    ++ (if public then [Join suite "contract.json"] else [])
    ++ concat (map (λ f, if fixture_Name f ==s "baseline"
         then List.filter (λ n, HasPrefix n (fixture_Path f +:+ "/")) names else []) (manifest_Fixtures m))
    ++ (if manifest_APIVersion m ==s ManifestV2
        then List.filter (λ n, HasPrefix n "validator/" || HasPrefix n "tests/"
               || (public && HasPrefix n (suite +:+ "/"))) names
        else [])).

Definition add_file (e : reviewSourceEvidence) (f : reviewEvidenceFile) : reviewSourceEvidence :=
  mkSourceEvidence (se_SourceCommit e) (se_SourceDigest e) (se_ManifestDigest e) (se_Files e ++ [f]) (se_Omitted e).
Definition omit_file (e : reviewSourceEvidence) : reviewSourceEvidence :=
  mkSourceEvidence (se_SourceCommit e) (se_SourceDigest e) (se_ManifestDigest e) (se_Files e) (se_Omitted e + 1).

Definition unfit (e : reviewSourceEvidence) (m : Manifest) (name : string) (data : Bytes) : bool :=
  negb (safeReviewPath name m) || (len data >? Z.shiftl 32 10) || negb (ValidString data) || ContainsByte data "000"
  || reviewSecretMarker data || (lenl (se_Files e) >=? 24).

(** One iteration; the state is [result] and [seen]. *)
Definition select_step (files : Files) (m : Manifest) (st : reviewSourceEvidence * gset string) (name : string)
    : reviewSourceEvidence * gset string :=
  let '(e, seen) := st in
  if bool_decide (name ∈ seen) then st else
  let seen := {[name]} ∪ seen in
  match files !! name with
  | None => (e, seen)
  | Some data =>
      if unfit e m name data then (omit_file e, seen) else
      let e' := add_file e (mkEvidenceFile name (DigestBytes data) data) in
      if len (raw_evidence e') >? reviewEvidenceLimit then (omit_file e, seen) else (e', seen)
  end.

Definition snapshot_limit : Z := Z.shiftl 64 20.

Definition selectReviewEvidence (document : Bytes) (sourceDigest commit : string) (repositoryID : Z) (m : Manifest)
    : result reviewSourceEvidence :=
  if (len document >? snapshot_limit) || (DigestBytes document !=s sourceDigest)
  then Err "scientific evidence snapshot digest mismatch" else
  let! snapshot := DecodeStrictBounded document snapshot_limit or "scientific evidence snapshot is invalid" in
  if (sd_SourceCommit snapshot !=s commit) || negb (sd_RepositoryID snapshot =? repositoryID)
  then Err "scientific evidence source binding mismatch" else
  let! sourceManifest := ParseManifest (default "" (sd_Files snapshot !! "science-ladder.yaml"))
    or "scientific evidence manifest is invalid" in
  let! expected := Digest m in
  let! actual := Digest sourceManifest or "scientific evidence manifest binding mismatch" in
  if expected !=s actual then Err "scientific evidence manifest binding mismatch" else
  let empty := mkSourceEvidence commit sourceDigest expected [] 0 in
  Ok (foldl (select_step (sd_Files snapshot) m) (empty, ∅) (selected_names (sd_Files snapshot) m)).1.

(** Records of preflights and earlier reviews, as the database renders them: an item over
    [each] bytes, or that would exceed [total], is left out. *)
Definition bounded_items (each total : Z) (items : list Bytes) : list Bytes :=
  (foldl (λ st item, if (len item <=? each) && (st.2 + len item <=? total)
          then (st.1 ++ [item], st.2 + len item) else st) ([], 0) items).1.

Record reviewEvidence := mkReviewEvidence {
  ev_source : reviewSourceEvidence;
  ev_machine : list Bytes;
  ev_previous : list Bytes
}.

(** [get] is [Store.Get], [machine] and [prior] what the two queries return. *)
Definition scientificEvidence (sv_store : bool) (s : ldb) (version : string) (m : Manifest)
    (get : string → result Bytes) (machine prior : list Bytes) : result reviewEvidence :=
  if negb sv_store then Err "scientific evidence storage unavailable" else
  match versions s !! version, l_revisions s !! version with
  | Some v, Some revision =>
      let! document := get (vr_source v) or "pinned scientific evidence could not be loaded" in
      let! source := selectReviewEvidence document (vr_source v) (rev_commit revision)
        (rev_repository_id revision) m in
      Ok (mkReviewEvidence source (bounded_items (Z.shiftl 128 10) (Z.shiftl 192 10) machine)
            (bounded_items (Z.shiftl 32 10) (Z.shiftl 64 10) prior))
  | _, _ => Err no_rows
  end.
End Evidence.

(** * The review *)

Record ReviewFinding := mkReviewFinding {
  rf_Severity : string;
  rf_Area : string;
  rf_Message : string;
  rf_SuggestedChange : string
}.

Record ScienceReview := mkScienceReview {
  sr_MetricAssessment : option MetricAssessment;
  sr_Outcome : string;
  sr_Summary : string;
  sr_EvidenceStrength : string;
  sr_MetricValidity : string;
  sr_PotentialImpact : string;
  sr_Safety : string;
  sr_Findings : list ReviewFinding;
  sr_Limitations : list string
}.

Definition set_outcome (outcome : string) (r : ScienceReview) : ScienceReview :=
  mkScienceReview (sr_MetricAssessment r) outcome (sr_Summary r) (sr_EvidenceStrength r) (sr_MetricValidity r)
    (sr_PotentialImpact r) (sr_Safety r) (sr_Findings r) (sr_Limitations r).
Definition add_finding (f : ReviewFinding) (r : ScienceReview) : ScienceReview :=
  mkScienceReview (sr_MetricAssessment r) (sr_Outcome r) (sr_Summary r) (sr_EvidenceStrength r) (sr_MetricValidity r)
    (sr_PotentialImpact r) (sr_Safety r) (sr_Findings r ++ [f]) (sr_Limitations r).

Definition applyMetricAssessment (m : Manifest) (r : ScienceReview) : ScienceReview :=
  if manifest_APIVersion m !=s ManifestV2 then r else
  let refuse message := add_finding (mkReviewFinding "error" "scientific_metric" message
    "Explain the connection to scientific progress, preserved conditions, shortcut defenses and bounded claim; obtain an explicit metric decision")
    (set_outcome "changes_required" r) in
  match validateMetricAssessment (sr_MetricAssessment r), sr_MetricAssessment r with
  | Err e, _ => refuse e
  | Ok _, Some a => if assessment_Decision a ==s "accepted" then r
                    else refuse "The ranked metric does not yet have an accepted scientific rationale"
  | Ok _, None => r
  end.

(** [json.Unmarshal] of the candidate, then [ValidateEducation]. *)
Definition validateCandidateEducation (candidate : result Candidate) : result unit :=
  let! c := candidate in ValidateEducation (candidate_Education c).

(** One iteration over the findings; only the outcome changes. *)
Definition weigh_finding (r : ScienceReview) (f : ReviewFinding) : result ScienceReview :=
  if negb (member (rf_Severity f) ["error"; "review"; "info"])
  then Err "scientific review finding severity is invalid" else
  let r := if (rf_Severity f ==s "review") && (sr_Outcome r ==s "automated_pass")
           then set_outcome "human_review_required" r else r in
  Ok (if rf_Severity f ==s "error" then set_outcome "changes_required" r else r).

Definition review_outcomes : list string := ["automated_pass"; "human_review_required"; "changes_required"].

(** From the decoded answer of the provider to the review that is recorded. *)
Definition conclude_review (m : Manifest) (candidate : result Candidate) (sourceStatus : string)
    (r : ScienceReview) : result ScienceReview :=
  if negb (member (sr_Outcome r) review_outcomes)
  then Err "scientific review outcome is outside the contract" else
  let r := if (manifest_SafetyClassification m ==s "review-required") && (sr_Outcome r ==s "automated_pass")
    then add_finding (mkReviewFinding "review" "safety" "The manifest requires human safety review"
      "Record a human safety decision before publication") (set_outcome "human_review_required" r)
    else r in
  let r := applyMetricAssessment m r in
  let r := match validateCandidateEducation candidate with
    | Ok _ => r
    | Err e => add_finding (mkReviewFinding "error" "education" e
        "Add source-supported frontier and significance sections to the candidate before publication")
        (set_outcome "changes_required" r)
    end in
  let! r := foldM weigh_finding r (sr_Findings r) in
  let r := if sourceStatus ==s "failed"
    then add_finding (mkReviewFinding "error" "sources"
      "The final manifest contains source evidence that could not be safely retrieved"
      "Correct or replace unresolved primary sources before publication") (set_outcome "changes_required" r)
    else r in
  Ok (if (sourceStatus !=s "ready") && (sr_Outcome r ==s "automated_pass")
      then add_finding (mkReviewFinding "review" "sources" "Source evidence requires human verification"
        "Verify exact locations before approval") (set_outcome "human_review_required" r)
      else r).

(** What the request to the provider holds, and its answer: the HTTP status and, of the
    body, the identifier, the status and the parts of each output item by type. *)
Record review_input := mkReviewInput {
  ri_manifest : Manifest;
  ri_candidate : result Candidate;
  ri_status : string;
  ri_findings : list Finding;
  ri_evidence : reviewEvidence;
  ri_reason : string
}.
Record provider_response := mkProviderResponse {
  pr_ID : string;
  pr_Status : string;
  pr_Output : list (list (string * string))
}.
(** [ProviderSend] takes the model, and [DecodeReview] is the strict decoder. *)
Class ReviewProvider := {
  ProviderSend : string → review_input → result (Z * result provider_response);
  DecodeReview : string → result ScienceReview
}.

Definition output_text (r : provider_response) : string :=
  foldl String.append "" (map snd (List.filter (λ p, p.1 ==s "output_text") (concat (pr_Output r)))).

Record ReviewReport := mkReviewReport {
  rp_ManifestDigest : string;
  rp_Review : ScienceReview;
  rp_Model : string;
  rp_ProviderResponseID : string;
  rp_EvaluatedAt : Time;
  rp_SourceResolution : string;
  rp_SourceFindings : list Finding;
  rp_EvidenceDigest : string;
  rp_SourceEvidence : reviewSourceEvidence;
  rp_RequestID : string
}.

Definition reviewed (s : pdb) (version : string) : bool :=
  existsb (λ r, (rv_version r ==s version) && (rv_kind r ==s "scientific-legibility")) (d_reviews (p_desk s)).

Definition request_done (review : string) (r : RequestRow) : RequestRow :=
  mkRequestRow (rq_version r) (rq_owner r) (rq_reason r) "completed" (Some review).
Definition review_unlocked (outcome : string) (v : VersionRow) : VersionRow :=
  match vr_lock v with None => version_review outcome v | Some _ => v end.

Section ReviewAttempt.
Context `{Env} `{UnicodeLib} `{UrlLib} `{YamlLib} `{HtmlLib} `{SourceNet} `{JsonCanonicalizer} `{ReviewProvider}.
Context `{JsonType Manifest} `{JsonType SnapshotDocument} `{JsonType reviewEvidence} `{JsonType ReviewReport}.

(** The call of the provider. *)
Definition ask_provider (model : string) (input : review_input) : result (string * ScienceReview) :=
  let! answer := ProviderSend model input or "scientific review provider did not respond" in
  if negb (answer.1 =? 200) then Err ("scientific review provider returned HTTP " +:+ int_string answer.1) else
  let! response := answer.2 in
  if pr_Status response !=s "completed" then Err "scientific review did not complete" else
  let! review := DecodeReview (output_text response)
    or "scientific review returned an invalid structured report" in
  Ok (pr_ID response, review).

(** Before the transaction: everything read from [s] and from outside; [None] when the
    version was reviewed already.  [get], [machine] and [prior] as in
    [scientificEvidence]. *)
Definition form_review (key model : string) (store : bool) (s : ldb) (version requestID reason : string)
    (get : string → result Bytes) (machine prior : list Bytes) : result (option ReviewReport) :=
  if key ==s "" then Err "scientific review is waiting for OPENAI_API_KEY" else
  match versions s !! version, t_versions (l_core s) !! version with
  | Some v, Some row =>
      match l_challenges s !! vr_challenge v with
      | None => Err no_rows
      | Some c =>
          match d_candidates (p_desk (l_platform s)) !! ch_candidate c with
          | None => Err no_rows
          | Some ca =>
              if reviewed (l_platform s) version && (requestID ==s "") then Ok None else
              let! m := ver_manifest row in
              let '(status, findings) := resolveSources (manifest_Evidence m) in
              let! evidence := scientificEvidence store s version m get machine prior in
              let! evidenceDigest := Digest evidence in
              let! answer := ask_provider model (mkReviewInput m (ca_document ca) status findings evidence reason) in
              let! review := conclude_review m (ca_document ca) status answer.2 in
              let! manifestDigest := Digest m in
              Ok (Some (mkReviewReport manifestDigest review model answer.1 (UTC Now) status findings
                evidenceDigest (ev_source evidence) requestID))
          end
      end
  | _, _ => Err no_rows
  end.

(** The transaction, on the state of its time. *)
Definition record_review (s : pdb) (version requestID : string) (report : ReviewReport) : result pdb :=
  let! digest := Digest report in
  match i_versions (p_intake s) !! version with
  | None => Err no_rows
  | Some v =>
      let! done := (if requestID !=s "" then
          match d_requests (p_desk s) !! requestID with
          | Some q => if rq_version q !=s version then Err no_rows else Ok (rq_status q ==s "completed")
          | None => Err no_rows
          end
        else Ok (reviewed s version)) in
      if done : bool then Ok s else
      let '(id, core) := ID (p_core s) in
      let s := with_core s core in
      let outcome := sr_Outcome (rp_Review report) in
      let decision := match sr_MetricAssessment (rp_Review report) with
        | Some a => assessment_Decision a | None => "" end in
      let row := mkReviewRow id version "scientific-legibility" outcome (rp_ManifestDigest report) decision digest Now in
      if existsb (λ r, rv_id r ==s id) (d_reviews (p_desk s)) then Err unique_violation else
      let s := set_reviews s (d_reviews (p_desk s) ++ [row]) in
      let s := set_version_rows s (update (review_unlocked outcome) version (i_versions (p_intake s))) in
      Ok (if requestID !=s "" then set_requests s (update (request_done id) requestID (d_requests (p_desk s))) else s)
  end.

(** [before] is the state it reads, [s] the state it writes. *)
Definition scientificReviewAttempt (key model : string) (store : bool) (before : ldb) (s : pdb)
    (version requestID reason : string) (get : string → result Bytes) (machine prior : list Bytes) : result pdb :=
  let! report := form_review key model store before version requestID reason get machine prior in
  match report with
  | None => Ok s
  | Some report => record_review s version requestID report
  end.

Definition scientificReview (key model : string) (store : bool) (before : ldb) (s : pdb) (version : string)
    (get : string → result Bytes) (machine prior : list Bytes) : result pdb :=
  scientificReviewAttempt key model store before s version "" "" get machine prior.

Definition scientificRereview (key model : string) (store : bool) (before : ldb) (s : pdb) (id : string)
    (get : string → result Bytes) (machine prior : list Bytes) : result pdb :=
  match d_requests (p_desk (l_platform before)) !! id with
  | None => Err no_rows
  | Some q =>
      if rq_status q ==s "completed" then Ok s else
      scientificReviewAttempt key model store before s (rq_version q) id (rq_reason q) get machine prior
  end.
End ReviewAttempt.

(** The transaction of requestScientificReview; [key] is the OpenAI key. *)
Definition requestScientificReview `{Env} `{!Crypto} (sv : Server) (key : string) (s : pdb) (u : User)
    (version reason : string) : result (pdb * string) :=
  let reason := TrimSpace reason in
  if (len reason <? 20) || (len reason >? 2000) then Err "review_reason_required" else
  if (key ==s "") || negb (s_Store sv) then Err "scientific_review_unavailable" else
  match i_versions (p_intake s) !! version with
  | None => Err no_rows
  | Some v =>
      if vr_owner v !=s user_ID u then Err no_rows else
      if bool_decide (is_Some (vr_lock v)) then Err "review_contract_locked" else
      if negb (reviewed s version) then Err "initial_review_required" else
      if exists_row (λ q, (rq_version q ==s version) && (rq_status q ==s "queued")) (d_requests (p_desk s))
      then Err "review_already_pending" else
      let! s := reservePreparation sv s u in
      let '(id, core) := ID (p_core s) in
      let s := with_core s core in
      if bool_decide (is_Some (d_requests (p_desk s) !! id)) then Err unique_violation else
      let s := set_requests s (<[id := mkRequestRow version (user_ID u) reason "queued" None]> (d_requests (p_desk s))) in
      let s := set_version_rows s (update (version_review "pending") version (i_versions (p_intake s))) in
      Ok (with_core s (enqueue (p_core s) "scientific_rereview" id), id)
  end.
