(* ===== verification/ContractProofs.v ===== *)
(** What the platform's requests and jobs keep of the challenge versions: no operation
    outside Lifecycle.v changes the contract of a version (its lock, owner, deadline,
    source and lineage) or its manifest, none moves a version into the locked or
    published states, and receipts are never deleted nor rewritten.  [calm] says so of
    one operation. *)

From S2P Require Import Prelude Regex GoLib Numbers Types Scores Paths Measurement Evaluation Validate.
From S2P Require Import Sha256 GoJson Canonical Documents Results Frontier Artifacts Hidden Signatures Checkpoint History Store.
From S2P Require Import Adjudication AdjudicationProofs Platform Preparation Suites Runners Editorial Intake.
From S2P Require Import Submissions Fleet FleetSteps FleetResults IntakeProofs Snapshots Lifecycle.
Open Scope Z_scope.

(** * The relations *)

(** The states a version reaches only through its lock. *)
Definition sealed_statuses : list string := ["locked"; "migration_signing"; "published"].
Definition sealed (v : VersionRow) : Prop := vr_status v ∈ sealed_statuses.

Record same_contract (v v' : VersionRow) : Prop := {
  sc_challenge : vr_challenge v' = vr_challenge v;
  sc_owner : vr_owner v' = vr_owner v;
  sc_lock : vr_lock v' = vr_lock v;
  sc_deadline : vr_deadline v' = vr_deadline v;
  sc_source : vr_source v' = vr_source v;
  sc_predecessor : vr_predecessor v' = vr_predecessor v;
  sc_transition : vr_transition v' = vr_transition v
}.

(** A change of the states of a version that leaves its contract: it never enters a sealed
    state, leaves one only with its intake closed, and opens intake only while published. *)
Record version_move (v v' : VersionRow) : Prop := {
  vm_contract : same_contract v v';
  vm_sealed : vr_status v' = vr_status v ∨ ¬ sealed v' ∧ (vr_lock v = None ∨ vr_intake v' ≠ "open");
  vm_open : vr_intake v' = "open" → vr_intake v = "open" ∨ vr_status v' = "published"
}.

Lemma same_contract_refl v : same_contract v v.
Proof. by split. Qed.
Lemma version_move_refl v : version_move v v.
Proof. split; [apply same_contract_refl|by left|by left]. Qed.

Lemma same_contract_trans a b c : same_contract a b → same_contract b c → same_contract a c.
Proof. intros [] []. split; congruence. Qed.

(** The tables of [db] that carry the contract: manifests, and receipts. *)
Record steady (d d' : db) : Prop := {
  sd_manifest : ∀ id, ver_manifest <$> t_versions d' !! id = ver_manifest <$> t_versions d !! id;
  sd_receipts : ∀ k r, t_receipts d !! k = Some r →
    ∃ r', t_receipts d' !! k = Some r' ∧ rr_payload r' = rr_payload r
}.

Record calm (s s' : pdb) : Prop := {
  cm_registry : p_registry s' = p_registry s;
  cm_core : steady (p_core s) (p_core s');
  cm_rows : ∀ id v, i_versions (p_intake s) !! id = Some v →
    ∃ v', i_versions (p_intake s') !! id = Some v' ∧ rtc version_move v v';
  cm_none : ∀ id, i_versions (p_intake s) !! id = None → i_versions (p_intake s') !! id = None
}.

#[export] Instance steady_preorder : PreOrder steady.
Proof.
  split.
  - intros d. split; [done|eauto].
  - intros a b c [M1 R1] [M2 R2]. split; [intros id; by rewrite M2, M1|].
    intros k r Hr. destruct (R1 _ _ Hr) as (r1 & Hr1 & E1). destruct (R2 _ _ Hr1) as (r2 & Hr2 & E2).
    exists r2. split; [done|congruence].
Qed.

#[export] Instance calm_preorder : PreOrder calm.
Proof.
  split.
  - intros s. split; [done|done| |done]. intros id v Hv. exists v. by split.
  - intros a b c [G1 C1 V1 N1] [G2 C2 V2 N2]. split; [congruence|by etrans| |eauto].
    intros id v Hv. destruct (V1 _ _ Hv) as (v1 & Hv1 & M1). destruct (V2 _ _ Hv1) as (v2 & Hv2 & M2).
    exists v2. split; [done|]. by etrans.
Qed.

(** * Steps of [db] *)

Lemma steady_same d d' : t_versions d' = t_versions d → t_receipts d' = t_receipts d → steady d d'.
Proof. intros Hv Hr. split; [intros; by rewrite Hv|]. rewrite Hr. eauto. Qed.

Lemma steady_insert_receipt d digest r : steady d (insert_receipt d digest r).
Proof.
  split.
  - intros id. unfold insert_receipt. by case_match.
  - intros k x Hx. exists x. split; [by apply insert_receipt_keep|done].
Qed.

Lemma steady_publish l d : steady d (set_receipts d (publish_receipts l (t_receipts d))).
Proof.
  split; [done|]. intros k r Hr. destruct (publish_receipts_keep l _ _ _ Hr) as (r' & ? & ? & _).
  by exists r'.
Qed.

Lemma steady_fresh_receipt d digest r : t_receipts d !! digest = None →
  steady d (set_receipts d (<[digest := r]> (t_receipts d))).
Proof.
  intros Hn. split; [done|]. intros k x Hx. exists x. split; [|done]. simpl.
  rewrite lookup_insert_ne; [done|]. congruence.
Qed.

Lemma steady_version d id (f : Version → Version) :
  (∀ v, ver_manifest (f v) = ver_manifest v) → steady d (set_versions d (alter f id (t_versions d))).
Proof.
  intros Hf. split; [|eauto]. intros k. simpl. destruct (decide (k = id)) as [->|].
  - rewrite lookup_alter_eq. destruct (t_versions d !! id); simpl; [by rewrite Hf|done].
  - by rewrite lookup_alter_ne.
Qed.

Lemma steady_audit (E : Env) `{JsonCanonicalizer} d v k p d' : audit d v k p = Ok d' → steady d d'.
Proof. intros [l ->]%audit_frame. by apply steady_same. Qed.

Lemma steady_enqueue (E : Env) d kind id : steady d (enqueue d kind id).
Proof. by apply steady_same. Qed.

Lemma steady_enqueues (E : Env) kind ids d : steady d (foldl (λ d x, enqueue d kind x) d ids).
Proof.
  revert d. induction ids as [|i ids IH]; intros d; simpl; [done|]. etrans; [apply steady_enqueue|apply IH].
Qed.

(** * Steps of [pdb] *)

Lemma calm_core s d : steady (p_core s) d → calm s (with_core s d).
Proof. intros Hd. split; [done|done| |done]. intros id v Hv. exists v. by split. Qed.

Lemma calm_same s s' : p_registry s' = p_registry s → steady (p_core s) (p_core s') →
  i_versions (p_intake s') = i_versions (p_intake s) → calm s s'.
Proof. intros Hg Hc Hi. split; [done|done| |by rewrite Hi]. rewrite Hi. intros id v Hv. exists v. by split. Qed.

Lemma calm_row s id f : (∀ v, i_versions (p_intake s) !! id = Some v → version_move v (f v)) →
  calm s (set_version_rows s (update f id (i_versions (p_intake s)))).
Proof.
  intros Hf. split; [done|done| |].
  - intros k v Hv. simpl. unfold update. destruct (decide (k = id)) as [->|].
    + rewrite lookup_alter_eq, Hv. eexists. split; [done|]. apply rtc_once. auto.
    + rewrite lookup_alter_ne by done. exists v. by split.
  - intros k Hk. simpl. unfold update. destruct (decide (k = id)) as [->|].
    + by rewrite lookup_alter_eq, Hk.
    + by rewrite lookup_alter_ne.
Qed.

Lemma calm_then_row s s1 id f : calm s s1 → (∀ v, version_move v (f v)) →
  calm s (set_version_rows s1 (update f id (i_versions (p_intake s1)))).
Proof. intros Hc Hf. etrans; [exact Hc|]. apply calm_row. auto. Qed.

Lemma calm_then_core s s1 d : calm s s1 → steady (p_core s1) d → calm s (with_core s1 d).
Proof. intros Hc Hd. etrans; [exact Hc|]. by apply calm_core. Qed.

(** Most operations change neither versions nor receipts. *)
Ltac quiet := first [reflexivity | apply calm_same; [reflexivity|by apply steady_same|reflexivity]].

Section Runner.
Context `{Crypto} `{!Pki} `{UnicodeLib} `{JsonCanonicalizer} `{ObjectStore} `{SecretSealer} `{Aead} `{Curve}.
Context `{JsonType Manifest} `{JsonType ValidatorResult} `{JsonType RunnerJob} `{JsonType RunReceipt}.
Context `{JsonType Receipt} `{JsonType BuildReport} `{JsonType ExecutorCapabilities} `{JsonType RawMessage}.
Context `{JsonType SuiteKeyMaterial}.

(** ** Queues and claims *)

Lemma insert_job_calm s id row s' : insert_job s id row = Ok s' → calm s s'.
Proof. intros [_ ->]%insert_job_ok. quiet. Qed.

Lemma queueSubmission_calm (E : Env) s id s' : queueSubmission s id = Ok s' → calm s s'.
Proof.
  unfold queueSubmission. intros Hq. destruct (submission_lock s id) as [[[[[x e] r] ld] k]|]; [|done].
  ok_step Hq. ok_step Hq. ok_step Hq. cbn [ID] in Hq. case_match; [apply (inj Ok) in Hq; subst; quiet|].
  ok_step Hq. apply insert_job_calm in E2 as Hc. apply (inj Ok) in Hq. subst s'. etrans; [|etrans; [exact Hc|]]; quiet.
Qed.

Lemma queuePreparation_calm (E : Env) sv s purpose id version source artifact m s' :
  queuePreparation sv s purpose id version source artifact m = Ok s' → calm s s'.
Proof.
  unfold queuePreparation. cbn [ID]. intros Hq.
  repeat case_match; try (apply (inj Ok) in Hq; subst s'; quiet);
    (etrans; [|by eapply insert_job_calm]; quiet).
Qed.

Lemma claim_finish_calm (E : Env) sv s p host token re rn s' envelope :
  claim_finish sv s p host token re rn = Ok (s', envelope) → calm s s'.
Proof.
  unfold claim_finish. intros Hc. do 5 ok_step Hc. apply (inj Ok), pair_equal_spec in Hc as [<- _]. quiet.
Qed.

Lemma recover_calm (E : Env) s : calm s (recoverRunnerLeases s).
Proof. quiet. Qed.

Lemma post_object_calm (E : Env) sv s cert id req s' url :
  post_object sv s cert id req = Ok (s', url) → calm s s'.
Proof.
  unfold post_object, runnerObject, declare_upload. intros Hp. ok_steps Hp.
  apply (inj Ok), pair_equal_spec in Hp as [<- _].
  match goal with Hd : (match f_uploads _ !! _ with _ => _ end) = Ok _ |- _ => revert Hd end.
  repeat case_match; intros Hd; try done; apply (inj Ok) in Hd; subst; quiet.
Qed.

(** ** Results *)

Lemma verifyBuildObjects_calm (E : Env) id b order s s' r : verifyBuildObjects id b order s = (s', r) → calm s s'.
Proof.
  revert s. induction order as [|role order IH]; intros s; simpl; [by intros [= <- _]|].
  unfold verify_object. repeat case_match; intros Hv; simplify_eq; try quiet; apply IH in Hv;
    (etrans; [|exact Hv]; quiet).
Qed.

Lemma store_run_calm (E : Env) s job row run digest host s' :
  store_run s job row run digest host = Ok s' → calm s s'.
Proof.
  unfold store_run. intros Hs. ok_step Hs. ok_step Hs. apply (inj Ok) in Hs. subst s'.
  apply calm_same; [done| |done]. simpl. etrans; [|apply steady_enqueue].
  etrans; [|apply steady_insert_receipt]. by apply steady_same.
Qed.

Lemma pause_move v : version_move v (pause_intake v).
Proof. split; [by split|by left|done]. Qed.

Lemma incident_calm (E : Env) s job version s' : incident s job version = Ok s' → calm s s'.
Proof.
  unfold incident. intros Hi. ok_step Hi. apply (inj Ok) in Hi. subst s'.
  eapply calm_then_core; [|by eapply steady_audit]. apply calm_then_row; [quiet|apply pause_move].
Qed.

Lemma decide_run_calm (E : Env) s job run host version s' r :
  decide_run s job run host version = Ok (s', r) → calm s s'.
Proof.
  unfold decide_run. intros Hd. case_match.
  { ok_step Hd. apply (inj Ok), pair_equal_spec in Hd as [<- _]. by eapply incident_calm. }
  case_match.
  { ok_step Hd. apply (inj Ok), pair_equal_spec in Hd as [<- _]. unfold queue_confirmation in E0. cbn [ID] in E0.
    ok_step E0. apply insert_job_calm in E1 as Hc. apply (inj Ok) in E0. subst r0.
    etrans; [|etrans; [exact Hc|]]; quiet. }
  ok_step Hd. ok_step Hd. apply (inj Ok), pair_equal_spec in Hd as [<- _]. unfold finish_submission in E1.
  ok_step E1. apply (inj Ok) in E1. subst r1. apply calm_then_core; [|apply steady_enqueue].
  destruct (r0.1 ==s "nondeterministic"); [|quiet].
  apply calm_then_row; [quiet|apply pause_move].
Qed.

Lemma unlocked_move status v : status ∉ sealed_statuses → version_move v (set_unlocked_status status v).
Proof.
  intros Hs. unfold set_unlocked_status. destruct (vr_lock v) eqn:Hl; [apply version_move_refl|].
  split; [by split|right; split; [done|by left]|by left].
Qed.

Lemma commit_ref_calm (E : Env) id owner s entry s' : commit_ref id owner s entry = Ok s' → calm s s'.
Proof.
  unfold commit_ref, insert_blob. intros Hc. repeat case_match; simplify_eq; quiet.
Qed.

Lemma commit_refs_calm (E : Env) id owner l s s' : foldM (commit_ref id owner) s l = Ok s' → calm s s'.
Proof.
  eapply (foldM_ind _ (λ s', calm s s')); [|done].
  intros s1 x s2 _ Hs Hc. etrans; [exact Hs|]. by eapply commit_ref_calm.
Qed.

Lemma record_conformance_calm (E : Env) sv s job b owner preflight version policy status runs groups s' :
  record_conformance sv s job b owner preflight version policy status runs groups = Ok s' → calm s s'.
Proof.
  unfold record_conformance. cbn [ID]. intros Hr. ok_step Hr. ok_step Hr. ok_step Hr.
  apply (inj Ok) in Hr. subst s'. bool_prop. apply eq_None_not_Some in G.
  apply calm_then_core; [|apply steady_enqueue].
  apply calm_then_row; [|intros v; apply unlocked_move; set_solver]. apply calm_same; [done| |done].
  etrans; [by apply (steady_same _ (set_ids (p_core s) (t_ids (p_core s) + 1)))|].
  etrans; [by apply (steady_fresh_receipt _ r0 (mkReceiptRow (conformance_receipt sv (NewID (t_ids (p_core s)))
    policy status (match runnerJob_SourceSnapshot job with Some r => objectRef_Digest r | None => "" end)
    version r runs groups) owner false))|]. apply steady_enqueue.
Qed.

Lemma commitBuild_calm (E : Env) sv s job run digest version s' :
  commitBuild sv s job run digest version = Ok s' → calm s s'.
Proof.
  unfold commitBuild. intros Hb. ok_step Hb. ok_step Hb. case_match.
  { apply (inj Ok) in Hb. subst s'. unfold commit_failed_build. case_match; [quiet|].
    apply calm_then_row; [quiet|intros v; apply unlocked_move; set_solver]. }
  ok_step Hb. ok_step Hb. ok_step Hb. ok_step Hb. etrans; [by eapply commit_refs_calm|]. case_match.
  - destruct (j_intent r0); [|done]. destruct (buildReport_SubmissionDisk r); [|done].
    apply (inj Ok) in Hb. subst s'. quiet.
  - destruct (j_preflight r0); [|done]. unfold commit_preflight in Hb. ok_step Hb. case_match.
    + case_match.
      * ok_step Hb. by eapply record_conformance_calm.
      * cbn [ID] in Hb. ok_step Hb. match goal with Hi : insert_job _ _ _ = Ok _ |- _ => apply insert_job_calm in Hi as Hc end.
        apply (inj Ok) in Hb. subst s'. etrans; [|etrans; [exact Hc|]]; quiet.
    + by eapply record_conformance_calm.
Qed.

Lemma commit_run_calm (E : Env) sv s run digest token host s' r :
  commit_run sv s run digest token host = Ok (s', r) → calm s s'.
Proof.
  unfold commit_run. intros Hc. ok_step Hc. ok_step Hc. ok_step Hc. case_match.
  { ok_step Hc. ok_step Hc. by simplify_eq. }
  ok_step Hc. ok_step Hc. ok_step Hc. case_match; [apply (inj Ok), pair_equal_spec in Hc as [<- _]; quiet|].
  ok_step Hc. ok_step Hc. etrans; [by eapply store_run_calm|]. case_match.
  - ok_step Hc. apply (inj Ok), pair_equal_spec in Hc as [<- _]. by eapply commitBuild_calm.
  - by eapply decide_run_calm.
Qed.

Lemma post_result_calm (E : Env) sv order s cert id token envelope s' r :
  post_result sv order s cert id token envelope = (s', r) → calm s s'.
Proof.
  unfold post_result. intros Hp. destruct (identify s cert) as [host|]; [|by simplify_eq].
  unfold runnerResult in Hp. destruct (open_run sv host id envelope) as [[run digest]|]; [|by simplify_eq].
  destruct (match runReceipt_BuildReport run with Some b => _ | None => _ end) as [s1 v] eqn:Hv.
  assert (calm s s1) as Hs.
  { destruct (runReceipt_BuildReport run); [by eapply verifyBuildObjects_calm|by simplify_eq]. }
  destruct v; [|by simplify_eq]. destruct (commit_run _ _ _ _ _ _) as [[s2 r2]|] eqn:Hc; simplify_eq; [|done].
  etrans; [exact Hs|]. by eapply commit_run_calm.
Qed.

(** ** Editorial decisions *)

Lemma decide_version_move (E : Env) s id action v v' :
  decide_version s id action v = Ok (Some v') → version_move v v'.
Proof.
  unfold decide_version, when. intros Hd.
  repeat match type of Hd with
  | (if ?b then _ else _) = _ => destruct b eqn:?; try done
  | Ok (if ?b then _ else _) = _ => destruct b eqn:?; try done
  end; apply (inj Ok), (inj Some) in Hd; subst v'; (split; [by split| |]); bool_prop;
    try first [by left|by intros ?; first [done|by left|by right]].
  all: right; split; unfold sealed, sealed_statuses; simpl; set_solver.
Qed.

Lemma record_assessment_calm (E : Env) s u version id contract a s' :
  record_assessment s u version id contract a = Ok s' → calm s s'.
Proof.
  unfold record_assessment. cbn [ID]. intros Hr. ok_step Hr. ok_step Hr. apply (inj Ok) in Hr. subst s'. quiet.
Qed.

Lemma saveReceipt_steady (E : Env) s digest r owner public :
  steady (p_core s) (p_core (saveReceipt s digest r owner public)).
Proof. unfold saveReceipt. cbn [p_core with_core]. etrans; [apply steady_insert_receipt|apply steady_enqueue]. Qed.

Lemma resolve_unscorable_calm (E : Env) sv s u version id reason s' :
  resolve_unscorable sv s u version id reason = Ok s' → calm s s'.
Proof.
  unfold resolve_unscorable. cbn [ID]. intros Hr. ok_step Hr. apply (inj Ok) in Hr. subst s'.
  set (ids := map fst _) in *. clearbody ids. clear E0. apply calm_same; [done| |done].
  etrans; [|apply saveReceipt_steady]. simpl.
  match goal with |- context [foldl _ ?d ids] => set (d0 := d) end.
  etrans; [apply (steady_same _ d0); done|].
  etrans; [apply (steady_enqueues E "adjudicate" ids)|]. by apply steady_same.
Qed.

Lemma editorDecision_calm (E : Env) sv s u d s' id : editorDecision sv s u d = Ok (s', id) → calm s s'.
Proof.
  unfold editorDecision. intros Hd. ok_step Hd. ok_step Hd.
  destruct (i_versions _ !! _) as [v|] eqn:Hv; [|done]. destruct (t_versions _ !! _) as [row|]; [|done].
  ok_step Hd. ok_step Hd. ok_step Hd. destruct r1 as [v'|]; [|done]. ok_step Hd. cbn [ID] in Hd.
  ok_step Hd. ok_step Hd. ok_step Hd. apply (inj Ok), pair_equal_spec in Hd as [<- _].
  apply decide_version_move in E2. eapply calm_then_core; [|by eapply steady_audit].
  assert (calm s r1) as Hc; [|etrans; [exact Hc|]].
  2: { destruct (decision_Action d ==s "resolve_unscorable"); [by eapply resolve_unscorable_calm|].
       apply (inj Ok) in E4. by subst. }
  assert (calm s (set_version_rows s (<[decision_VersionID d := v']> (i_versions (p_intake s))))) as Hrow.
  { split; [done|done| |].
    - intros k x Hx. simpl. destruct (decide (k = decision_VersionID d)) as [->|].
      + rewrite lookup_insert_eq. eexists. split; [done|]. apply rtc_once. congruence.
      + rewrite lookup_insert_ne by done. by exists x.
    - intros k Hk. simpl. rewrite lookup_insert_ne; [done|congruence]. }
  etrans; [exact Hrow|]. destruct (decision_MetricAssessment d).
  - etrans; [|by eapply record_assessment_calm]. quiet.
  - apply (inj Ok) in E3. subst r1. quiet.
Qed.
End Runner.

(** ** The door *)

Section Door.
Context `{Crypto} `{!Pki} `{UnicodeLib} `{UrlLib} `{JsonCanonicalizer} `{JsonType ValidatorResult}.
Context `{JsonType ExecutorCapabilities} `{JsonType FrontierClaim} `{JsonType Receipt}.
Context `{JsonType History} `{JsonType ReleaseAttestation} `{EqDecision FrontierClaim}.

Lemma reservePreparation_calm (E : Env) sv s u s' : reservePreparation sv s u = Ok s' → calm s s'.
Proof. intros ->%reservePreparation_budgets. quiet. Qed.

Lemma createFrontierTicket_calm (E : Env) s u in_ s' a : createFrontierTicket s u in_ = Ok (s', a) → calm s s'.
Proof.
  unfold createFrontierTicket. intros Hc. ok_step Hc.
  destruct (latest_ticket s _) as [[? ?]|]; [by injection Hc as <- <-|]. do 3 ok_step Hc.
  destruct (latest_ticket s _) as [[? ?]|]; [by injection Hc as <- <-|]. ok_step Hc.
  cbn [ID] in Hc. ok_step Hc. apply (inj Ok), pair_equal_spec in Hc as [<- _]. quiet.
Qed.

Lemma createIntent_calm (E : Env) sv s u in_ s' a : createIntent sv s u in_ = Ok (s', a) → calm s s'.
Proof.
  unfold createIntent. intros Hc. ok_step Hc.
  destruct (i_versions _ !! _) as [v|]; [|done]. destruct (t_versions _ !! _) as [row|]; [|done].
  do 6 ok_step Hc. destruct (List.find _ _) as [[? ?]|]; [by apply (inj Ok), pair_equal_spec in Hc as [<- _]|].
  ok_step Hc. ok_step Hc. cbn [ID] in Hc. ok_step Hc. ok_step Hc. apply (inj Ok), pair_equal_spec in Hc as [<- _].
  match goal with Hb : reservePreparation _ _ _ = Ok _ |- _ => apply reservePreparation_calm in Hb as H1c end.
  match goal with Ht : consumeFrontierTicket _ _ _ _ = Ok _ |- _ => unfold consumeFrontierTicket in Ht; ok_steps Ht;
    apply (inj Ok) in Ht; subst end.
  etrans; [exact H1c|]. quiet.
Qed.

Lemma record_acceptance_calm (E : Env) s u id submission grant version commitment salt digest sequence m i r s' :
  record_acceptance s u id submission grant version commitment salt digest sequence m i r = Ok s' → calm s s'.
Proof.
  unfold record_acceptance. intros Hr. ok_step Hr. ok_step Hr. apply (inj Ok) in Hr. subst s'.
  apply calm_same; [done| |done]. etrans; [|by eapply steady_audit].
  etrans; [|apply steady_enqueue]. etrans; [|apply saveReceipt_steady]. simpl.
  etrans; [apply (steady_version _ version (version_sequence sequence)); done|]. by apply steady_same.
Qed.

Lemma acceptIntent_calm (E : Env) sv s u id salt s' a : acceptIntent sv s u id salt = Ok (s', a) → calm s s'.
Proof.
  unfold acceptIntent. intros Ha. ok_step Ha. destruct (i_intents _ !! id) as [i|]; [|done]. ok_step Ha.
  destruct (in_submission i); [by apply (inj Ok), pair_equal_spec in Ha as [<- _]|].
  ok_step Ha. destruct r0 as [[[row lock] m] policy].
  destruct (List.find _ _) as [[? ?]|].
  { case_match; [|done]. by apply (inj Ok), pair_equal_spec in Ha as [<- _]. }
  ok_step Ha. cbn [ID] in Ha. ok_step Ha. ok_step Ha. ok_step Ha.
  apply (inj Ok), pair_equal_spec in Ha as [<- _].
  match goal with Hc : reserve_capacity _ = Ok _ |- _ => unfold reserve_capacity in Hc; ok_step Hc;
    apply (inj Ok) in Hc; subst end.
  etrans; [|by eapply record_acceptance_calm]. quiet.
Qed.

Lemma open_records_calm (E : Env) s id x : calm s (open_records s id x).
Proof.
  unfold open_records. apply calm_core. etrans; [|apply steady_publish]. etrans; [|apply steady_publish].
  by apply steady_same.
Qed.

Lemma publishSubmission_calm (E : Env) s u id s' b : publishSubmission s u id = Ok (s', b) → calm s s'.
Proof.
  unfold publishSubmission. intros Hp. destruct (submissions s !! id) as [x|]; [|done]. ok_step Hp.
  destruct (t_versions _ !! _) as [row|]; [|done]. ok_step Hp.
  destruct (sub_public x); [by apply (inj Ok), pair_equal_spec in Hp as [<- _]|].
  ok_step Hp. ok_step Hp. cbv zeta in Hp.
  set (adv := meaningful _ _ _) in *. clearbody adv.
  set (s1 := if adv then _ else s) in *.
  assert (calm s s1) as H1c.
  { subst s1. destruct adv; [|done]. by apply calm_core, steady_version. }
  clearbody s1. ok_step Hp. cbn [ID] in Hp. ok_step Hp. ok_step Hp.
  apply (inj Ok), pair_equal_spec in Hp as [<- _]. etrans; [exact H1c|].
  eapply calm_then_core; [|by eapply steady_audit]. etrans; [|apply open_records_calm].
  apply calm_same; [done| |done]. etrans; [|apply saveReceipt_steady]. by apply steady_same.
Qed.

(** ** Adjudication *)

Lemma insert_claim_steady (E : Env) version id digest d mid d' :
  insert_claim version id digest d mid = Ok d' → steady d d'.
Proof.
  unfold insert_claim. cbn [ID]. intros Hi. ok_step Hi. apply (inj Ok) in Hi. subst d'. by apply steady_same.
Qed.

Lemma record_submission_steady (E : Env) d version id policy s acc w de d' :
  record_submission d version id policy s acc w de = Ok d' → steady d d'.
Proof.
  unfold record_submission. cbn [ID]. intros Hr. ok_step Hr. ok_step Hr. bool_prop.
  match type of Hr with match foldM ?f ?d0 ?l with _ => _ end = _ =>
    destruct (foldM f d0 l) as [d1|] eqn:Ef; [|done]; assert (steady d0 d1) as Hclaims end.
  { revert Ef. eapply (foldM_ind _ (λ d1, steady _ d1)); [|done].
    intros a mid b _ Ha Hi. etrans; [exact Ha|]. by eapply insert_claim_steady. }
  etrans; [by apply (steady_same _ (set_ids d (t_ids d + 1)%N))|].
  apply eq_None_not_Some in G. etrans; [by eapply (steady_fresh_receipt _ _ _ G)|].
  etrans; [apply steady_enqueue|]. etrans; [exact Hclaims|].
  ok_step Hr. etrans; [|by eapply steady_audit].
  match goal with Hc : release_capacity ?d2 _ = Ok _ |- _ => transitivity d2 end.
  - destruct (de_publish de); [|by apply steady_same]. unfold publish_records.
    etrans; [|apply steady_publish]. etrans; [|apply steady_publish]. by apply steady_same.
  - match goal with Hc : release_capacity _ _ = Ok _ |- _ => revert Hc end. unfold release_capacity.
    repeat case_match; intros Hc; try done; apply (inj Ok) in Hc; subst; by apply steady_same.
Qed.

Lemma adjudicate_loop_steady (E : Env) m version fuel st st' :
  adjudicate_loop fuel m version st = Some (Ok st') → steady (l_db st) (l_db st').
Proof.
  revert st. induction fuel as [|fuel IH]; intros st Hl; [done|]. cbn [adjudicate_loop] in Hl.
  destruct (adjudicate_step m version st) as [[st1|]|] eqn:Es; [|by simplify_eq|done].
  etrans; [|by apply IH]. unfold adjudicate_step in Es.
  destruct (submission_at _ _ _) as [[[id s] acc]|]; [|done]. ok_step Es.
  destruct (_ !=s _); [done|]. ok_step Es. ok_step Es. apply (inj Ok), (inj Some) in Es. subst st1.
  by eapply record_submission_steady.
Qed.

Lemma adjudicate_calm (E : Env) s version d : adjudicate (p_core s) version = Some (Ok d) → calm s (with_core s d).
Proof.
  unfold adjudicate. intros Ha. destruct (t_versions _ !! version) as [v|] eqn:Hv; [|done].
  destruct (ver_manifest v) as [m|] eqn:Hm; [|done].
  destruct (current_score _ (ver_best v) _) as [best|]; [|done].
  destruct (current_score _ (ver_frontier v) _) as [frontier|]; [|done].
  destruct (adjudicate_loop _ _ _ _) as [[st|]|] eqn:El; [|done..].
  apply adjudicate_loop_steady in El as Hs. simpl in Hs. destruct (_ >? _); [done|].
  apply (inj Some), (inj Ok) in Ha. subst d. apply calm_core. etrans; [exact Hs|].
  split; [|eauto]. intros k. simpl. destruct (decide (k = version)) as [->|].
  - rewrite lookup_insert_eq, (sd_manifest _ _ Hs), Hv. simpl. by rewrite Hm.
  - by rewrite lookup_insert_ne.
Qed.
End Door.
