(* ===== verification/WorkerProofs.v ===== *)
(** What the worker and the reviews keep: none of their operations changes the contract of a
    version, touches the results of runs, or decides a submission.  And the queue of the
    worker over time: several workers claim, handle and finish jobs, may die in between, and
    requests add jobs; a waiting job is served once the jobs ahead of it are, a failing job
    is given up after eight attempts, and a job that ended stays as it is. *)

From S2P Require Import Prelude Regex GoLib Numbers Types Scores Paths Measurement Evaluation Validate EvaluationProofs.
From S2P Require Import Sha256 GoJson Canonical Documents Results Frontier Artifacts Hidden Store Adjudication AdjudicationProofs.
From S2P Require Import Signatures Checkpoint History Platform Preparation Suites Runners Editorial Intake Submissions.
From S2P Require Import Fleet IntakeProofs Snapshots Lifecycle Worker Sources Review ContractProofs.
Open Scope Z_scope.

(** ** Operations that leave runs, submissions and contracts alone *)

(** What an operation that is no business of the runners leaves alone. *)
Record aside (s s' : pdb) : Prop := {
  as_jobs : rjobs s' = rjobs s;
  as_results : results s' = results s;
  as_submissions : submissions s' = submissions s
}.

#[export] Instance aside_preorder : PreOrder aside.
Proof. split; [by split|]. intros a b c [] []. split; congruence. Qed.

Lemma aside_others s s' : aside s s' → others s s'.
Proof. intros [Hj Hr Hs]. split; [done|..]; rewrite Hs; eauto. Qed.

Definition modest (s s' : pdb) : Prop := aside s s' ∧ calm s s'.

#[export] Instance modest_preorder : PreOrder modest.
Proof. split; [by split|]. intros a b c [] []. split; by etrans. Qed.

Lemma modest_row s id f : (∀ v, version_move v (f v)) →
  modest s (set_version_rows s (update f id (i_versions (p_intake s)))).
Proof. intros Hf. split; [by split|]. by apply calm_row. Qed.

(** Closes goals where neither versions nor receipts are written. *)
Ltac modest := solve [split; [by split|quiet]].

Lemma review_move status v : version_move v (version_review status v).
Proof. split; [by split|by left|by left]. Qed.

Lemma review_unlocked_move status v : version_move v (review_unlocked status v).
Proof. unfold review_unlocked. destruct (vr_lock v); [apply version_move_refl|apply review_move]. Qed.

Section Operations.
Context `{Crypto} `{!Pki} `{UnicodeLib} `{UrlLib} `{YamlLib} `{HtmlLib} `{SourceNet} `{JsonCanonicalizer}.
Context `{JsonType Candidate} `{JsonType Manifest} `{JsonType ReviewReport}.

Lemma reservePreparation_modest (E : Env) sv s u s' : reservePreparation sv s u = Ok s' → modest s s'.
Proof. intros ->%reservePreparation_budgets. modest. Qed.

Lemma insert_blob_modest s digest row : modest s (insert_blob s digest row).
Proof. unfold insert_blob. case_match; [done|modest]. Qed.

Lemma saveReceipt_modest (E : Env) s digest r owner public : modest s (saveReceipt s digest r owner public).
Proof.
  split; [unfold saveReceipt, insert_receipt; by destruct (t_receipts _ !! _)|].
  apply calm_core, saveReceipt_steady.
Qed.

Lemma importCandidate_modest (E : Env) sv s u document s' a :
  importCandidate sv s u document = Ok (s', a) → modest s s'.
Proof.
  unfold importCandidate. intros Hs. ok_step Hs. ok_step Hs.
  destruct (List.find _ _) as [[? ?]|]; [by apply (inj Ok), pair_equal_spec in Hs as [<- _]|].
  ok_step Hs. cbn [ID] in Hs. ok_step Hs. apply (inj Ok), pair_equal_spec in Hs as [<- _].
  etrans; [by eapply reservePreparation_modest|]. modest.
Qed.

Lemma resolveCandidate_modest (E : Env) s id s' : resolveCandidate s id = Ok s' → modest s s'.
Proof.
  unfold resolveCandidate. intros Hs. destruct (d_candidates _ !! id) as [c|]; [|done]. ok_step Hs.
  destruct (resolveSources _) as [? ?]. destruct (_ !=s "viable"); apply (inj Ok) in Hs as <-; modest.
Qed.

Lemma failIntent_modest s id cause : modest s (failIntent s id cause).
Proof. modest. Qed.

(** The part of [store_artifact] before the preparation is queued. *)
Lemma fetched_modest s id digest blob row commit :
  let s1 := insert_blob (insert_blob s digest row) blob row in
  modest s (set_intents s1 (update (set_fetched commit digest) id (i_intents (p_intake s1)))).
Proof.
  intros s1. transitivity s1; [|modest]. etrans; [apply insert_blob_modest|apply insert_blob_modest].
Qed.

Lemma waiting_modest s id : modest s (set_preflights s (update set_waiting id (f_preflights (p_fleet s)))).
Proof. modest. Qed.

Lemma record_review_modest (E : Env) s version requestID report s' :
  record_review s version requestID report = Ok s' → modest s s'.
Proof.
  unfold record_review. intros Hs. ok_step Hs. destruct (i_versions _ !! version) as [v|]; [|done]. ok_step Hs.
  destruct r0; [by apply (inj Ok) in Hs as <-|]. cbn [ID] in Hs. cbv zeta in Hs. ok_step Hs.
  apply (inj Ok) in Hs. subst s'.
  match goal with |- modest _ (if _ then set_requests ?x _ else _) => transitivity x end.
  - etrans; [|apply modest_row, review_unlocked_move]. modest.
  - destruct (requestID !=s ""); [modest|done].
Qed.

Lemma scientificReviewAttempt_modest (E : Env) `{JsonType SnapshotDocument} `{JsonType reviewEvidence} `{ReviewProvider}
    key model store before s version requestID reason get machine prior s' :
  scientificReviewAttempt key model store before s version requestID reason get machine prior = Ok s' → modest s s'.
Proof.
  unfold scientificReviewAttempt. intros Hs. ok_step Hs. destruct r as [report|].
  - by eapply record_review_modest.
  - by apply (inj Ok) in Hs as <-.
Qed.

Lemma requestScientificReview_modest (E : Env) sv key s u version reason s' id :
  requestScientificReview sv key s u version reason = Ok (s', id) → modest s s'.
Proof.
  unfold requestScientificReview. intros Hs. ok_step Hs. ok_step Hs.
  destruct (i_versions _ !! version) as [v|]; [|done]. do 5 ok_step Hs. cbn [ID] in Hs. cbv zeta in Hs. ok_step Hs.
  apply (inj Ok), pair_equal_spec in Hs as [<- _].
  match goal with Hr : reservePreparation _ _ _ = Ok _ |- _ => etrans; [exact (reservePreparation_modest E _ _ _ _ Hr)|] end.
  match goal with |- modest _ (with_core ?x _) => transitivity x; [|modest] end.
  etrans; [|apply modest_row, review_move]. modest.
Qed.

Lemma work_claim_modest (E : Env) s locked lease d p :
  work_claim (p_core s) locked lease = Ok (d, p) → modest s (with_core s d).
Proof.
  unfold work_claim. intros Hs. destruct (next_job _ _) as [[k r]|]; [|done].
  apply (inj Ok), pair_equal_spec in Hs as [<- _]. modest.
Qed.

Lemma work_finish_modest (E : Env) s p lease outcome : modest s (with_core s (work_finish (p_core s) p lease outcome).1).
Proof. unfold work_finish. destruct outcome; [modest|]. case_match; modest. Qed.
End Operations.

(** * Runs *)

(** The tables, and the workers between their claim and their last update. *)
Record workers := mkWorkers { wk_db : db; wk_active : list (picked * string) }.

(** A claim with the row's key, whether it takes over an expired lease, and the rows that
    were skipped; or anything else. *)
Inductive queue_event :=
| Claimed (key : string * string) (again : bool) (locked : gset (string * string))
| Unclaimed.

(** A secret of 32 random bytes is no token in use. *)
Definition fresh_lease (w : workers) (lease : string) : Prop :=
  (∀ k r, t_jobs (wk_db w) !! k = Some r → qu_token r ≠ Some lease) ∧ lease ∉ map snd (wk_active w).

(** One transaction on the jobs table, or the death of a worker. *)
Inductive queue_step (E : Env) (w : workers) : queue_event → workers → Prop :=
| step_claim locked lease k r d p :
    fresh_lease w lease →
    next_job (wk_db w) locked = Some (k, r) →
    work_claim (wk_db w) locked lease = Ok (d, p) →
    queue_step E w (Claimed k (qu_status r ==s "running") locked) (mkWorkers d ((p, lease) :: wk_active w))
| step_finish l1 l2 p lease outcome :
    wk_active w = l1 ++ (p, lease) :: l2 →
    queue_step E w Unclaimed (mkWorkers (work_finish (wk_db w) p lease outcome).1 (l1 ++ l2))
| step_death l1 l2 x :
    wk_active w = l1 ++ x :: l2 →
    queue_step E w Unclaimed (mkWorkers (wk_db w) (l1 ++ l2))
| step_enqueue kind id d :
    t_jobs d = t_jobs (enqueue (wk_db w) kind id) →
    queue_step E w Unclaimed (mkWorkers d (wk_active w))
| step_elsewhere d :
    t_jobs d = t_jobs (wk_db w) →
    queue_step E w Unclaimed (mkWorkers d (wk_active w)).

(** Steps at times that never go back, from the time [c] on. *)
Inductive queue_run : Z → list queue_event → workers → workers → Prop :=
| run_nil c w : queue_run c [] w w
| run_cons c E w e w' l w'' : c ≤ t_ns (@Now E) → queue_step E w e w' →
    queue_run (t_ns (@Now E)) l w' w'' → queue_run c (e :: l) w w''.

Definition claims_of (l : list queue_event) : nat :=
  length (List.filter (λ e, match e with Claimed _ _ _ => true | Unclaimed => false end) l).
(** The claims that took over the lease of a worker that did not finish in time. *)
Definition takeovers (l : list queue_event) : nat :=
  length (List.filter (λ e, match e with Claimed _ again _ => again | Unclaimed => false end) l).
Definition claimed_job (q : string * string) (l : list queue_event) : Prop :=
  Exists (λ e, match e with Claimed k _ _ => k = q | Unclaimed => False end) l.
#[export] Instance claimed_job_dec q l : base.Decision (claimed_job q l).
Proof. unfold claimed_job. apply Exists_dec. intros []; apply _. Defined.
(** No other transaction holds [q] when a worker looks for a job. *)
Definition leaves (q : string * string) (e : queue_event) : Prop :=
  match e with Claimed _ _ locked => q ∉ locked | Unclaimed => True end.
(** The claims of [q] that are not takeovers. *)
Definition attempts_at (q : string * string) (l : list queue_event) : nat :=
  length (List.filter (λ e, match e with Claimed k again _ => negb again && bool_decide (k = q) | Unclaimed => false end) l).

Definition waiting (r : QueueRow) : Prop := qu_status r = "queued" ∨ qu_status r = "retry".
#[export] Instance waiting_dec r : base.Decision (waiting r).
Proof. unfold waiting. apply _. Defined.

(** The jobs that wait at least as long as [q]. *)
Definition ahead (q : string * string) (r : QueueRow) (d : db) : gmap (string * string) QueueRow :=
  filter (λ kv, kv.1 ≠ q ∧ waiting kv.2 ∧ t_ns (qu_available kv.2) ≤ t_ns (qu_available r)) (t_jobs d).

(** The row a worker holds is running with the attempts it saw, and leases are unique;
    a waiting row has attempts left. *)
Record workers_ok (w : workers) : Prop := {
  wo_held p lease k r : (p, lease) ∈ wk_active w → t_jobs (wk_db w) !! k = Some r → qu_token r = Some lease →
    qu_status r = "running" ∧ qu_attempts r = pk_attempts p;
  wo_unique : NoDup (map snd (wk_active w));
  wo_left k r : t_jobs (wk_db w) !! k = Some r → 0 ≤ qu_attempts r ∧ (waiting r → qu_attempts r < max_attempts)
}.

(** * Steps, row by row *)

(** What a step makes of a row. *)
Inductive row_step (E : Env) (k : string * string) (r : QueueRow) (e : queue_event) : QueueRow → Prop :=
| row_same : row_step E k r e r
| row_claim lease locked : e = Claimed k (qu_status r ==s "running") locked → ready r = true →
    row_step E k r e (leased lease r)
| row_finish : qu_status r = "running" → row_step E k r e (finished r)
| row_retry message : qu_status r = "running" → row_step E k r e (retried (qu_attempts r) message r).

Lemma ready_cases (E : Env) r : ready r = true →
  waiting r ∧ qu_status r ≠ "running" ∧ t_ns (qu_available r) ≤ t_ns Now ∨ qu_status r = "running".
Proof.
  unfold ready, waiting. intros [[Hm Hle]%andb_prop|[Hr _]%andb_prop]%orb_prop; [|bool_prop; by right].
  apply Z.leb_le in Hle. left.
  apply member_true in Hm as [E1|[E1|[]%elem_of_nil]%elem_of_cons]%elem_of_cons; rewrite E1; auto.
Qed.

Lemma waiting_ready (E : Env) r : waiting r → t_ns (qu_available r) ≤ t_ns Now → ready r = true.
Proof.
  unfold ready, waiting. intros Hr Hle. apply orb_true_iff. left. apply andb_true_iff. split; [|by apply Z.leb_le].
  destruct Hr as [->| ->]; done.
Qed.

(** The job a worker gets: ready, not held, and none of these waits longer. *)
Lemma next_job_spec (E : Env) d locked k r : next_job d locked = Some (k, r) →
  t_jobs d !! k = Some r ∧ ready r = true ∧ k ∉ locked ∧
  ∀ k' r', t_jobs d !! k' = Some r' → ready r' = true → k' ∉ locked → t_ns (qu_available r) ≤ t_ns (qu_available r').
Proof.
  unfold next_job. match goal with |- first_least ?ok ?key None ?l = _ → _ =>
    pose proof (first_least_spec ok key l None) as Hs; intros Hn; rewrite Hn in Hs end.
  destruct Hs as ([Hs|[Hin Hok]] & _ & Hmin); [done|]. apply elem_of_map_to_list in Hin. simpl in Hok.
  apply andb_prop in Hok as [Hok Hl]. apply negb_true_iff, bool_decide_eq_false in Hl. split_and!; [done..|].
  intros k' r' Hk' Hr' Hl'. apply (Hmin (k', r')); [by apply elem_of_map_to_list|]. simpl. rewrite Hr'. simpl.
  by apply negb_true_iff, bool_decide_eq_false.
Qed.

Lemma next_job_some (E : Env) d locked k r : t_jobs d !! k = Some r → ready r = true → k ∉ locked →
  is_Some (next_job d locked).
Proof.
  intros Hk Hr Hl. unfold next_job. match goal with |- is_Some (first_least ?ok ?key None ?l) =>
    pose proof (first_least_spec ok key l None) as Hs end.
  destruct (first_least _ _ _ _) as [x|]; [by eexists|]. destruct Hs as [_ Hs].
  specialize (Hs (k, r)). rewrite elem_of_map_to_list in Hs. specialize (Hs Hk). simpl in Hs.
  rewrite Hr, bool_decide_eq_false_2 in Hs; done.
Qed.

Lemma update_job_row d id lease f k r : t_jobs d !! k = Some r →
  t_jobs (update_job d id lease f) !! k = Some r ∨
  qu_token r = Some lease ∧ t_jobs (update_job d id lease f) !! k = Some (f r).
Proof.
  intros Hk. unfold update_job. simpl. rewrite lookup_fmap, Hk. simpl.
  destruct ((qu_id r ==s id) && bool_decide (qu_token r = Some lease)) eqn:Hf; [right|by left].
  by apply andb_prop in Hf as [_ Hf%bool_decide_eq_true].
Qed.

Lemma queue_step_row (E : Env) w e w' k r : workers_ok w → queue_step E w e w' → t_jobs (wk_db w) !! k = Some r →
  ∃ r', t_jobs (wk_db w') !! k = Some r' ∧ row_step E k r e r'.
Proof.
  intros Hok Hst Hk. destruct Hst as [locked lease k0 r0 d p Hf Hn Hc|l1 l2 p lease outcome Ha|l1 l2 x Ha|kind id d Hd|d Hd]; simpl.
  - apply next_job_spec in Hn as Hs. destruct Hs as (Hk0 & Hr & _). unfold work_claim in Hc. rewrite Hn in Hc.
    apply (inj Ok), pair_equal_spec in Hc as [<- _]. simpl. destruct (decide (k0 = k)) as [->|Hne].
    + rewrite lookup_insert_eq. assert (r0 = r) as -> by congruence. eexists. split; [done|]. by eapply row_claim.
    + rewrite lookup_insert_ne by done. eexists. split; [done|constructor].
  - assert ((p, lease) ∈ wk_active w) as Hin by (rewrite Ha; set_solver).
    assert (∀ f, (∀ r, qu_status r = "running" → qu_attempts r = pk_attempts p → row_step E k r Unclaimed (f r)) →
      ∃ r', t_jobs (update_job (wk_db w) (pk_id p) lease f) !! k = Some r' ∧ row_step E k r Unclaimed r') as Hup.
    { intros f Hf. destruct (update_job_row (wk_db w) (pk_id p) lease f k r Hk) as [Hr|[Ht Hr]].
      - exists r. split; [done|constructor].
      - destruct (wo_held _ Hok _ _ _ _ Hin Hk Ht) as [Hst Hatt]. exists (f r). split; [done|by apply Hf]. }
    unfold work_finish. destruct outcome as [[]|err].
    + apply Hup. intros. by apply row_finish.
    + destruct (pg_text (truncated err)); simpl; [|exists r; split; [done|constructor]].
      apply Hup. intros r1 Hr1 <-. by apply row_retry.
  - exists r. split; [done|constructor].
  - exists r. split; [|constructor]. rewrite Hd. unfold enqueue, ID. simpl.
    destruct (t_jobs (wk_db w) !! (kind, id)) eqn:Hq; simpl; [done|]. rewrite lookup_insert_ne; [done|congruence].
  - exists r. rewrite Hd. split; [done|constructor].
Qed.

(** A new row is queued at the time of the step. *)
Lemma queue_step_new (E : Env) w e w' k r : queue_step E w e w' → t_jobs (wk_db w) !! k = None →
  t_jobs (wk_db w') !! k = Some r →
  qu_status r = "queued" ∧ qu_attempts r = 0 ∧ qu_available r = Now ∧ qu_token r = None.
Proof.
  intros Hst Hk. destruct Hst as [locked lease k0 r0 d p Hf Hn Hc|l1 l2 p lease outcome Ha|l1 l2 x Ha|kind id d Hd|d Hd]; simpl.
  - apply next_job_spec in Hn as Hs. destruct Hs as (Hk0 & _). unfold work_claim in Hc. rewrite Hn in Hc.
    apply (inj Ok), pair_equal_spec in Hc as [<- _]. simpl. rewrite lookup_insert_ne by congruence. congruence.
  - unfold work_finish, update_job. destruct outcome; [|destruct (negb _)]; simpl; rewrite ?lookup_fmap, Hk; done.
  - congruence.
  - rewrite Hd. unfold enqueue, ID. simpl. destruct (t_jobs (wk_db w) !! (kind, id)) eqn:Hq; simpl; [congruence|].
    rewrite lookup_insert_Some. intros [[_ <-]|[_ Hr]]; [done|congruence].
  - congruence.
Qed.

(** * The invariant *)

Lemma row_step_left (E : Env) k r e r' : row_step E k r e r' →
  0 ≤ qu_attempts r ∧ (waiting r → qu_attempts r < max_attempts) →
  0 ≤ qu_attempts r' ∧ (waiting r' → qu_attempts r' < max_attempts).
Proof.
  intros Hst [H0 Hw]. destruct Hst as [|lease locked _ _|_|message _]; unfold waiting; simpl.
  - auto.
  - split; [lia|]. by intros [|].
  - split; [lia|]. by intros [|].
  - split; [lia|]. destruct (Z.geb_spec (qu_attempts r) max_attempts); [by intros [|]|lia].
Qed.

(** Who holds a row after a claim, and after an update. *)
Lemma claim_held (E : Env) w locked lease k0 r0 d p :
  workers_ok w → fresh_lease w lease → next_job (wk_db w) locked = Some (k0, r0) →
  work_claim (wk_db w) locked lease = Ok (d, p) →
  ∀ p' lease' k r, (p', lease') ∈ (p, lease) :: wk_active w → t_jobs d !! k = Some r → qu_token r = Some lease' →
  qu_status r = "running" ∧ qu_attempts r = pk_attempts p'.
Proof.
  intros Hok [Hf Ha] Hn Hc p' lease' k r Hin Hr Ht. unfold work_claim in Hc. rewrite Hn in Hc.
  apply (inj Ok), pair_equal_spec in Hc as [<- <-]. simpl in Hr.
  apply lookup_insert_Some in Hr as [[-> <-]|[_ Hr]].
  - apply elem_of_cons in Hin as [[= -> _]|Hin]; [done|]. simpl in Ht. destruct Ha. replace lease with lease' by congruence.
    by apply (list_elem_of_fmap_2' snd _ _ _ Hin).
  - apply elem_of_cons in Hin as [[= -> ->]|Hin]; [by destruct (Hf k r Hr)|by eapply wo_held].
Qed.

Lemma update_held w l1 l2 p lease f :
  workers_ok w → wk_active w = l1 ++ (p, lease) :: l2 → (∀ r, qu_token (f r) = qu_token r) →
  ∀ p' lease' k r, (p', lease') ∈ l1 ++ l2 → t_jobs (update_job (wk_db w) (pk_id p) lease f) !! k = Some r →
  qu_token r = Some lease' → qu_status r = "running" ∧ qu_attempts r = pk_attempts p'.
Proof.
  intros Hok Ha Hf p' lease' k r Hin Hr Ht. unfold update_job in Hr. simpl in Hr.
  apply lookup_fmap_Some in Hr as (r0 & <- & Hr0).
  assert ((p', lease') ∈ wk_active w) as Hact by (rewrite Ha; set_solver).
  destruct (_ && _) eqn:Hq; [|by eapply wo_held]. apply andb_prop in Hq as [_ Hq%bool_decide_eq_true].
  rewrite Hf in Ht. assert (lease' = lease) as -> by congruence.
  pose proof (wo_unique _ Hok) as Hu. rewrite Ha, map_app in Hu. simpl in Hu.
  apply NoDup_app in Hu as (_ & Hdis & [Hn _]%NoDup_cons). destruct (proj1 (elem_of_app _ _ _) Hin) as [Hl|Hl].
  - destruct (Hdis lease); [by apply (list_elem_of_fmap_2' snd _ _ _ Hl)|set_solver].
  - destruct Hn. by apply (list_elem_of_fmap_2' snd _ _ _ Hl).
Qed.

Lemma held_mono w w' : workers_ok w → wk_active w' ⊆ wk_active w →
  (∀ k r, t_jobs (wk_db w') !! k = Some r → t_jobs (wk_db w) !! k = Some r ∨ qu_token r = None) →
  ∀ p lease k r, (p, lease) ∈ wk_active w' → t_jobs (wk_db w') !! k = Some r → qu_token r = Some lease →
  qu_status r = "running" ∧ qu_attempts r = pk_attempts p.
Proof. intros Hok Ha Hj p lease k r Hin Hr Ht. destruct (Hj k r Hr); [eapply wo_held; eauto|congruence]. Qed.

Lemma sublist_leases (l1 l2 : list (picked * string)) x : NoDup (map snd (l1 ++ x :: l2)) → NoDup (map snd (l1 ++ l2)).
Proof. intros Hn. eapply sublist_NoDup; [exact Hn|]. apply (fmap_sublist snd). apply sublist_app; [done|by constructor]. Qed.

Lemma queue_step_ok (E : Env) w e w' : workers_ok w → queue_step E w e w' → workers_ok w'.
Proof.
  intros Hok Hst. split.
  - destruct Hst as [locked lease k0 r0 d p Hf Hn Hc|l1 l2 p lease outcome Ha|l1 l2 x Ha|kind id d Hd|d Hd]; simpl.
    + by eapply claim_held.
    + unfold work_finish. destruct outcome as [[]|err]; [by eapply update_held|].
      destruct (negb _); simpl; [|by eapply update_held].
      eapply (held_mono w (mkWorkers _ _)); simpl; [done|rewrite Ha; set_solver|by left].
    + eapply (held_mono w (mkWorkers _ _)); simpl; [done|rewrite Ha; set_solver|by left].
    + eapply (held_mono w (mkWorkers _ _)); simpl; [done|done|]. intros k r. rewrite Hd. unfold enqueue, ID. simpl.
      destruct (t_jobs (wk_db w) !! (kind, id)); simpl; [by left|].
      rewrite lookup_insert_Some. intros [[_ <-]|[_ Hr]]; [by right|by left].
    + eapply (held_mono w (mkWorkers _ _)); simpl; [done|done|]. rewrite Hd. by left.
  - pose proof (wo_unique _ Hok) as Hu.
    destruct Hst as [locked lease k0 r0 d p [_ Hf] Hn Hc|l1 l2 p lease outcome Ha|l1 l2 x Ha|kind id d Hd|d Hd]; simpl; [|..|done|done].
    + by apply NoDup_cons.
    + rewrite Ha in Hu. by eapply sublist_leases.
    + rewrite Ha in Hu. by eapply sublist_leases.
  - intros k r' Hr'. destruct (t_jobs (wk_db w) !! k) as [r|] eqn:Hk.
    + destruct (queue_step_row E w e w' k r Hok Hst Hk) as (r1 & H1 & Hs). assert (r1 = r') as <- by congruence.
      eapply row_step_left; [exact Hs|]. by eapply wo_left.
    + destruct (queue_step_new E w e w' k r' Hst Hk Hr') as (_ & -> & _). done.
Qed.

Lemma queue_run_ok c l w w' : workers_ok w → queue_run c l w w' → workers_ok w'.
Proof. intros Hok Hr. induction Hr as [|c E w e w1 l w2 _ Hst _ IH]; [done|]. by eapply IH, queue_step_ok. Qed.

(** * Waiting *)

Lemma backoff_nonneg n : 0 ≤ backoff n.
Proof. unfold backoff, Second. nia. Qed.

(** The jobs ahead only become fewer: a row that a step adds or puts back waits from now
    on. *)
Lemma ahead_shrinks (E : Env) w e w' q r : workers_ok w → queue_step E w e w' →
  t_ns (qu_available r) < t_ns Now → ahead q r (wk_db w') ⊆ ahead q r (wk_db w).
Proof.
  intros Hok Hst Hlt. apply map_subseteq_spec. intros k r'. unfold ahead. rewrite !map_lookup_filter_Some. simpl.
  intros (Hr' & Hne & Hw & Hle). destruct (t_jobs (wk_db w) !! k) as [r0|] eqn:Hk.
  - destruct (queue_step_row E w e w' k r0 Hok Hst Hk) as (r1 & H1 & Hs). assert (r1 = r') as -> by congruence.
    destruct Hs as [|lease locked _ _|_|message _]; [done|by destruct Hw|by destruct Hw|].
    simpl in Hle. pose proof (backoff_nonneg (qu_attempts r0)). lia.
  - destruct (queue_step_new E w e w' k r' Hst Hk Hr') as (_ & _ & Ha & _). rewrite Ha in Hle. lia.
Qed.

(** A claim of another job that is no takeover takes one of the jobs ahead. *)
Lemma ahead_claimed (E : Env) w k locked w' q r : workers_ok w → queue_step E w (Claimed k false locked) w' →
  t_jobs (wk_db w) !! q = Some r → waiting r → t_ns (qu_available r) < t_ns Now → q ∉ locked → k ≠ q →
  (size (ahead q r (wk_db w')) < size (ahead q r (wk_db w)))%nat.
Proof.
  intros Hok Hst Hq Hw Hlt Hl Hne. apply map_subset_size. split; [by eapply ahead_shrinks|].
  inversion Hst as [locked' lease k' rk d p Hf Hn Hc Ee| | | |]; subst. bool_prop.
  destruct (next_job_spec _ _ _ _ _ Hn) as (Hk & Hr & _ & Hmin).
  assert (waiting rk) as Hwk by (destruct (ready_cases _ _ Hr) as [[? _]|?]; done).
  assert (ahead q r (wk_db w) !! k = Some rk) as Hin.
  { apply map_lookup_filter_Some. split; [done|]. split; [done|]. split; [done|].
    apply (Hmin q r Hq); [|done]. apply waiting_ready; [done|lia]. }
  intros Hsub. pose proof (lookup_weaken _ _ _ _ Hin Hsub) as Hin'. unfold ahead in Hin'.
  apply map_lookup_filter_Some in Hin' as (Hk' & _ & _). simpl in Hk'.
  unfold work_claim in Hc. rewrite Hn in Hc. apply (inj Ok), pair_equal_spec in Hc as [<- _]. simpl in Hk'.
  rewrite lookup_insert_eq in Hk'. assert (qu_status rk = "running") as Hs by (by injection Hk' as <-).
  destruct Hwk; congruence.
Qed.

Lemma waits_on (E : Env) w e w' q r : workers_ok w → queue_step E w e w' →
  t_jobs (wk_db w) !! q = Some r → waiting r → ¬ claimed_job q [e] → t_jobs (wk_db w') !! q = Some r.
Proof.
  intros Hok Hst Hq Hw Hn. destruct (queue_step_row E w e w' q r Hok Hst Hq) as (r' & Hr' & Hs).
  destruct Hs as [|lease locked -> _|Hrun|message Hrun]; [done| |destruct Hw; congruence..].
  destruct Hn. by left.
Qed.

Lemma queue_keeps c l w w' q r : workers_ok w → queue_run c l w w' → Forall (leaves q) l →
  t_jobs (wk_db w) !! q = Some r → waiting r → t_ns (qu_available r) < c → ¬ claimed_job q l →
  t_jobs (wk_db w') !! q = Some r ∧ (claims_of l ≤ size (ahead q r (wk_db w)) + takeovers l)%nat.
Proof.
  intros Hok Hrun. induction Hrun as [c w|c E w e w1 l w2 Hc Hst Hrun IH]; intros Hl Hq Hw Hlt Hn.
  { split; [done|]. unfold claims_of. simpl. lia. }
  apply Forall_cons in Hl as [He Hl]. assert (¬ claimed_job q [e]) as Hne.
  { intros [Hx|Hx%Exists_nil]%Exists_cons; [|done]. apply Hn. by left. }
  destruct IH as [Hq' Hcnt]; [by eapply queue_step_ok|done|by eapply waits_on|done|lia|by intros Hx; apply Hn; right|].
  split; [done|]. pose proof (map_subseteq_size _ _ (ahead_shrinks E w e w1 q r Hok Hst ltac:(lia))) as Hsz.
  unfold claims_of, takeovers in *. destruct e as [k [] locked|]; simpl; [lia| |lia].
  assert ((size (ahead q r (wk_db w1)) < size (ahead q r (wk_db w)))%nat).
  { eapply ahead_claimed; [done..|lia|done|]. intros ->. apply Hne. by left. }
  lia.
Qed.

(** C11: a waiting job is served.  Let a job be queued or due for a retry when a run of the
    queue starts, the run being any claims, ends of jobs, deaths of workers, and new jobs in
    any order at times that do not go back.  Then either the run claims the job, or the job
    is untouched, every claim that does not skip it finds work, and the run made at most as
    many claims as there were jobs waiting at least as long at its start, besides the ones
    that took over an expired lease: newer jobs and retries of failing ones never overtake
    it, so once these are served the next claim is the job's own. *)
Theorem queue_serves c l w w' q r : workers_ok w → queue_run c l w w' → Forall (leaves q) l →
  t_jobs (wk_db w) !! q = Some r → waiting r → t_ns (qu_available r) < c →
  claimed_job q l ∨
  t_jobs (wk_db w') !! q = Some r ∧
  (claims_of l ≤ size (ahead q r (wk_db w)) + takeovers l)%nat ∧
  ∀ (E : Env) locked lease, c ≤ t_ns Now → q ∉ locked → is_ok (work_claim (wk_db w') locked lease) = true.
Proof.
  intros Hok Hrun Hl Hq Hw Hlt. destruct (decide (claimed_job q l)) as [Hc|Hc];
    [by left|right].
  destruct (queue_keeps _ _ _ _ q r Hok Hrun Hl Hq Hw Hlt Hc) as [Hq' Hcnt]. split; [done|]. split; [done|].
  intros E locked lease Hnow Hlk.
  destruct (next_job_some E (wk_db w') locked q r Hq' (waiting_ready E r Hw ltac:(lia)) Hlk) as [[k rk] Hn].
  unfold work_claim. by rewrite Hn.
Qed.

(** * Attempts *)

Definition attempts_left (q : string * string) (w : workers) : nat :=
  match t_jobs (wk_db w) !! q with Some r => Z.to_nat (max_attempts - qu_attempts r) | None => Z.to_nat max_attempts end.

Lemma attempts_step (E : Env) w e w' q : workers_ok w → queue_step E w e w' →
  (attempts_at q [e] + attempts_left q w' ≤ attempts_left q w)%nat.
Proof.
  intros Hok Hst. unfold attempts_left. destruct (t_jobs (wk_db w) !! q) as [r|] eqn:Hq.
  - destruct (wo_left _ Hok _ _ Hq) as [H0 Hw].
    assert (attempts_at q [e] = 0%nat ∨ ∃ lk, e = Claimed q false lk) as [->|[lk ->]].
    { destruct e as [k [] lk|]; [by left| |by left]. unfold attempts_at. simpl.
      destruct (bool_decide_reflect (k = q)) as [->|]; [right; eauto|by left]. }
    + destruct (queue_step_row E w e w' q r Hok Hst Hq) as (r' & -> & Hs).
      destruct Hs as [|lease locked _ _|_|message _]; simpl; lia.
    + unfold attempts_at. simpl. rewrite bool_decide_eq_true_2 by done. simpl.
      inversion Hst as [locked lease k r1 d p Hf Hn Hc| | | |]; subst. bool_prop.
      destruct (next_job_spec _ _ _ _ _ Hn) as (Hk & Hr & _). assert (r1 = r) as -> by congruence.
      assert (waiting r) as Hwr by (destruct (ready_cases _ _ Hr) as [[? _]|?]; done). specialize (Hw Hwr).
      unfold work_claim in Hc. rewrite Hn in Hc. apply (inj Ok), pair_equal_spec in Hc as [<- _]. simpl.
      rewrite lookup_insert_eq. simpl. lia.
  - assert (attempts_at q [e] = 0%nat) as ->.
    { destruct Hst as [locked lease k r d p Hf Hn Hc| | | |]; [|done..]. apply next_job_spec in Hn as (Hk & _).
      unfold attempts_at. simpl. rewrite (bool_decide_eq_false_2 (k = q)) by congruence. by rewrite andb_false_r. }
    destruct (t_jobs (wk_db w') !! q) as [r|] eqn:Hr; [|lia].
    destruct (queue_step_new E w e w' q r Hst Hq Hr) as (_ & -> & _). done.
Qed.

(** A job that is complete, or needs an operator. *)
Definition settled (r : QueueRow) : Prop := qu_status r = "complete" ∨ qu_status r = "attention_required".

Lemma settled_step (E : Env) w e w' q r : workers_ok w → queue_step E w e w' →
  t_jobs (wk_db w) !! q = Some r → settled r → t_jobs (wk_db w') !! q = Some r.
Proof.
  intros Hok Hst Hq Hr. destruct (queue_step_row E w e w' q r Hok Hst Hq) as (r' & Hr' & Hs).
  destruct Hs as [|lease locked _ Hrd|Hrun|message Hrun]; [done| |destruct Hr; congruence..].
  destruct (ready_cases _ _ Hrd) as [[[Hx|Hx] _]|Hx]; destruct Hr; congruence.
Qed.

(** Attempts are bounded, and an ended job is final.  In every run of the queue a job is
    claimed at most eight times besides takeovers of expired leases, however often it fails
    and however often it is queued again; and a job that completed, or failed often enough
    to need an operator, is the same row at the end: it is not claimed, reset or queued
    anew, whatever late workers report. *)
Theorem job_attempts_bounded c l w w' q : workers_ok w → queue_run c l w w' →
  (attempts_at q l ≤ Z.to_nat max_attempts)%nat ∧
  ∀ r, t_jobs (wk_db w) !! q = Some r → settled r → t_jobs (wk_db w') !! q = Some r.
Proof.
  intros Hok Hrun. split.
  - assert (attempts_at q l + attempts_left q w' ≤ attempts_left q w)%nat as Hle.
    { induction Hrun as [|c E w e w1 l w2 _ Hst _ IH]; [done|]. specialize (IH (queue_step_ok _ _ _ _ Hok Hst)).
      pose proof (attempts_step E w e w1 q Hok Hst) as Hs.
      change (e :: l) with ([e] ++ l). unfold attempts_at in *. rewrite List.filter_app, length_app. lia. }
    assert (attempts_left q w ≤ Z.to_nat max_attempts)%nat as Hmax; [|lia]. unfold attempts_left.
    destruct (t_jobs (wk_db w) !! q) as [r|] eqn:Hq; [|done]. destruct (wo_left _ Hok _ _ Hq). lia.
  - induction Hrun as [|c E w e w1 l w2 _ Hst _ IH]; [done|]. intros r Hr Hs.
    apply IH; [by eapply queue_step_ok|by eapply settled_step|done].
Qed.
