(* ===== verification/Host.v ===== *)
(** The enrolled runner host: its configuration (runtime.go), the pinned files, the protected
    paths and the file system the checks read.  The file system is a parameter, and does not
    change during a check. *)

From S2P Require Import Prelude Regex GoLib Numbers Types Paths Evaluation Sha256 GoJson Canonical Documents Signatures Checkpoint History.
From Stdlib Require Import Ascii.
Open Scope Z_scope.

Record PinnedFile := mkPinnedFile { pinnedFile_Path : string; pinnedFile_Digest : string }.
Record AssetDisk := mkAssetDisk { assetDisk_Asset : EvaluationAsset; assetDisk_File : PinnedFile }.

Record HostAttestation := mkHostAttestation {
  hostAttestation_Capabilities : option ExecutorCapabilities;
  hostAttestation_HostID : string;
  hostAttestation_PhysicalHostID : string;
  hostAttestation_HostGroup : string;
  hostAttestation_ExpiresAt : Time;
  hostAttestation_ExclusivePhysicalHost : bool;
  hostAttestation_EgressPolicyVerified : bool;
  hostAttestation_ExecutionProfileDigest : string;
  hostAttestation_RunnerEpoch : string;
  hostAttestation_ConfigDigest : string
}.

Record Config := mkConfig {
  config_Assets : list AssetDisk;
  config_Capabilities : option ExecutorCapabilities;
  config_HostID : string;
  config_HostGroup : string;
  config_RunnerEpoch : string;
  config_ExecutionProfileDigest : string;
  config_Kernel : PinnedFile;
  config_RootFS : PinnedFile;
  config_Firecracker : PinnedFile;
  config_Jailer : PinnedFile;
  config_MakeSquashFS : PinnedFile;
  config_CPUConfig : PinnedFile;
  config_RuntimeInventory : PinnedFile;
  config_AdvisorySnapshot : PinnedFile;
  config_AdvisoryKeys : PinnedFile;
  config_RuntimeImageDigest : string;
  config_EncryptionPublicKey : Bytes;
  config_WorkRoot : string;
  config_ResultSpool : string;
  config_NetworkNamespace : string;
  config_CPUSet : string;
  config_UID : Z;
  config_GID : Z;
  config_Attestation : Envelope
}.

(** * The operating system *)

(** What [os.FileInfo] says of a file; the owner is absent when [Sys] is no [Stat_t]. *)
Record FileInfo := mkFileInfo {
  fi_IsDir : bool;
  fi_IsRegular : bool;
  fi_IsSymlink : bool;
  fi_Perm : Z;
  fi_Size : Z;
  fi_Uid : option Z
}.

(** The platform, the effective user, and the file system. *)
Class HostOS := {
  GOOS : string;
  GOARCH : string;
  Geteuid : Z;
  Lstat : string → result FileInfo;
  Stat : string → result FileInfo;
  ReadFile : string → result Bytes
}.

(** Bits of a permission mode. *)
Definition group_or_other_write : Z := 18.
Definition group_or_other : Z := 63.
Definition has_bits (info : FileInfo) (mask : Z) : bool := negb (Z.land (fi_Perm info) mask =? 0).

(** * path/filepath, strings *)

(** [filepath.Dir] *)
Definition Dir (p : string) : string :=
  Clean (string_of (rev (drop_while (λ c, negb (Ascii.eqb c "/")) (rev (list_of p))))).

(** [strings.Fields] *)
Fixpoint fields (word : list Z) (l : list (Z * list Z)) : list (list Z) :=
  match l with
  | [] => match word with [] => [] | _ => [word] end
  | (r, bs) :: l =>
      if IsSpace r then match word with [] => fields [] l | _ => word :: fields [] l end
      else fields (word ++ bs) l
  end.
Definition Fields (s : string) : list string := map of_bytes (fields [] (segments (bytes_of s))).

Section Host.
Context `{HostOS}.

(** * Pinned files and protected paths *)

Definition verifyPinned (file : PinnedFile) : result unit :=
  if negb (IsAbs (pinnedFile_Path file)) || negb (ValidDigest (pinnedFile_Digest file))
  then Err "all runtime components require absolute paths and digests" else
  let! info := Lstat (pinnedFile_Path file) or "unsafe runtime file" in
  if negb (fi_IsRegular info) || has_bits info group_or_other_write then Err "unsafe runtime file" else
  let! data := ReadFile (pinnedFile_Path file) in
  if DigestBytes data !=s pinnedFile_Digest file then Err "runtime digest mismatch" else Ok tt.

Definition protected_path (name : string) : result unit :=
  let! info := Lstat name in
  if negb (match fi_Uid info with Some uid => uid =? 0 | None => false end)
     || fi_IsSymlink info || has_bits info group_or_other_write
  then Err "runtime path must be root-owned and protected" else Ok tt.

(** The loop over a path and its parents; the fuel bounds the parents. *)
Fixpoint hierarchy (fuel : nat) (name : string) : result unit :=
  match fuel with
  | O => Err "timeout"
  | S fuel =>
      let! _ := protected_path name in
      if name ==s "/" then Ok tt else hierarchy fuel (Dir name)
  end.
Definition rootOwnedHierarchy (filename : string) : result unit :=
  let name := Clean filename in hierarchy (S (String.length name)) name.

(** One line of /proc/mounts; the state is [best] and [kind]. *)
Definition mount_step (filename : string) (st : string * string) (line : string) : string * string :=
  match Fields line with
  | _ :: mount :: kind :: _ =>
      if ((filename ==s mount) || HasPrefix filename (TrimSuffix mount "/" +:+ "/")) && (len mount >? len st.1)
      then (mount, kind) else st
  | _ => st
  end.
Definition tmpfsPath (filename : string) : bool :=
  match ReadFile "/proc/mounts" with
  | Err _ => false
  | Ok data => (foldl (mount_step filename) ("", "") (Split data "010")).2 ==s "tmpfs"
  end.

(** [info.IsDir()] and mode 0700 *)
Definition private_directory (name : string) : bool :=
  match Stat name with Ok info => fi_IsDir info && negb (has_bits info group_or_other) | Err _ => false end.
End Host.

(** * Keys and digests *)

(** [ReadPublicKeys]: one PEM block per value, and nothing after it. *)
Definition public_key_step `{Crypto} `{!Pki} (keys : gmap string PublicKey) (kv : string * string)
    : result (gmap string PublicKey) :=
  match PemDecode kv.2 with
  | None => Err "public keys must be PEM PKIX values"
  | Some (_, bytes, rest) =>
      if TrimSpace rest !=s "" then Err "public keys must be PEM PKIX values" else
      match ParsePKIX bytes with
      | None => Err "x509: failed to parse public key"
      | Some key => Ok (<[kv.1 := key]> keys)
      end
  end.
Definition ReadPublicKeys `{HostOS} `{Crypto} `{!Pki} `{JsonCanonicalizer} `{JsonType (gmap string string)} (filename : string)
    : result (gmap string PublicKey) :=
  let! data := ReadFile filename in
  let! values := DecodeStrict (A := gmap string string) data in
  foldM public_key_step ∅ (map_to_list values).

Definition no_envelope : Envelope := mkEnvelope "" "" [].
Definition unattested (c : Config) : Config := {|
  config_Assets := config_Assets c; config_Capabilities := config_Capabilities c; config_HostID := config_HostID c;
  config_HostGroup := config_HostGroup c; config_RunnerEpoch := config_RunnerEpoch c;
  config_ExecutionProfileDigest := config_ExecutionProfileDigest c; config_Kernel := config_Kernel c;
  config_RootFS := config_RootFS c; config_Firecracker := config_Firecracker c; config_Jailer := config_Jailer c;
  config_MakeSquashFS := config_MakeSquashFS c; config_CPUConfig := config_CPUConfig c;
  config_RuntimeInventory := config_RuntimeInventory c; config_AdvisorySnapshot := config_AdvisorySnapshot c;
  config_AdvisoryKeys := config_AdvisoryKeys c; config_RuntimeImageDigest := config_RuntimeImageDigest c;
  config_EncryptionPublicKey := config_EncryptionPublicKey c; config_WorkRoot := config_WorkRoot c;
  config_ResultSpool := config_ResultSpool c; config_NetworkNamespace := config_NetworkNamespace c;
  config_CPUSet := config_CPUSet c; config_UID := config_UID c; config_GID := config_GID c;
  config_Attestation := no_envelope |}.
Definition ConfigBindingDigest `{JsonCanonicalizer} `{JsonType Config} (c : Config) : result string :=
  Digest (unattested c).

Example fields_split : Fields " proc  /run tmpfs rw" = ["proc"; "/run"; "tmpfs"; "rw"].
Proof. vm_compute. reflexivity. Qed.
Example dir_root : Dir "/a/b" = "/a" ∧ Dir "/a" = "/" ∧ Dir "/" = "/".
Proof. vm_compute. done. Qed.
