(* ===== verification/Wheels.v ===== *)
(** What the quarantine builder takes from a source snapshot (builder.go): the bounds of the
    files, the refusal of native code and secrets, and the dependencies, which are exactly
    the wheels the lock pins; with the names and versions of Python packages (scanner.go).

    A Go map is ranged over in any order: the functions here take the files as the list of
    one such order.  Archives are read by a parameter. *)

From S2P Require Import Prelude Regex GoLib Numbers Types Paths Measurement Evaluation Sha256 GoJson Documents Artifacts Snapshots Sources.
From Stdlib Require Import Ascii.
Open Scope Z_scope.

(** * Names and versions of Python packages *)

Definition python_char (c : ascii) : bool := is_alnum c || existsb (Ascii.eqb c) ["."; "_"; "-"]%char.
Definition separator_char (c : ascii) : bool := existsb (Ascii.eqb c) ["-"; "_"; "."]%char.

(** [[-_.]+] replaced by a hyphen. *)
Fixpoint hyphens (after : bool) (l : list ascii) : list ascii :=
  match l with
  | [] => []
  | c :: l => if separator_char c then (if after then [] else ["-"%char]) ++ hyphens true l else c :: hyphens false l
  end.

(** [^[A-Za-z0-9][A-Za-z0-9._-]*$]; an accepted name is ASCII. *)
Definition python_name (l : list ascii) : bool :=
  match l with c :: l => is_alnum c && forallb python_char l | [] => false end.
Definition normalizePythonName (name : string) : result string :=
  if negb (python_name (list_of name)) then Err "invalid Python package name" else
  Ok (string_of (hyphens false (list_of (ToLowerASCII name)))).

(** A literal under (?i): the long s is a case of s. *)
Fixpoint skip_fold (p l : list ascii) : option (list ascii) :=
  match p with
  | [] => Some l
  | c :: p =>
      match l with
      | x :: r =>
          if Ascii.eqb (lower_byte x) c then skip_fold p r
          else match r with
               | y :: r => if Ascii.eqb c "s" && (byte_val x =? 197) && (byte_val y =? 191) then skip_fold p r else None
               | [] => None
               end
      | [] => None
      end
  end.

(** A literal and the digits after it; [None] is no match of the group. *)
Definition digits_after (p : string) (l : list ascii) : option (list ascii * list ascii) :=
  match skip_fold (list_of p) l with
  | Some r => let '(d, r) := span is_digit r in match d with [] => None | _ => Some (d, r) end
  | None => None
  end.

(** [[0-9]+(?:\.[0-9]+)*] *)
Fixpoint release (fuel : nat) (l : list ascii) : option (list (list ascii) * list ascii) :=
  match fuel with
  | O => None
  | S fuel =>
      let '(d, r) := span is_digit l in
      match d, r with
      | [], _ => None
      | _, "."%char :: r' =>
          match release fuel r' with Some (ds, r'') => Some (d :: ds, r'') | None => Some ([d], r) end
      | _, _ => Some ([d], r)
      end
  end.

(** A group that may be absent. *)
Definition optional (p : string) (l : list ascii) : option (list ascii) * list ascii :=
  match digits_after p l with Some (d, r) => (Some d, r) | None => (None, l) end.
Definition prerelease (l : list ascii) : option (string * list ascii) * list ascii :=
  match digits_after "a" l with
  | Some (d, r) => (Some ("a", d), r)
  | None =>
      match digits_after "b" l with
      | Some (d, r) => (Some ("b", d), r)
      | None => match digits_after "rc" l with Some (d, r) => (Some ("rc", d), r) | None => (None, l) end
      end
  end.

(** The groups of the version pattern. *)
Record python_version := mkPythonVersion {
  pv_release : list (list ascii);
  pv_pre : option (string * list ascii);
  pv_post : option (list ascii);
  pv_dev : option (list ascii)
}.

Definition parse_version (version : string) : option python_version :=
  let l := list_of version in
  let l := match skip_fold ["v"%char] l with Some r => r | None => l end in
  match release (S (length l)) l with
  | None => None
  | Some (parts, l) =>
      let '(pre, l) := prerelease l in
      let '(post, l) := optional ".post" l in
      let '(dev, l) := optional ".dev" l in
      match l with [] => Some (mkPythonVersion parts pre post dev) | _ => None end
  end.

(** The closure [integer]. *)
Definition integer (l : list ascii) : list ascii :=
  match drop_while (Ascii.eqb "0") l with [] => ["0"%char] | d => d end.

Definition print_version (v : python_version) : string :=
  string_of (join_list "." (map integer (pv_release v)))
  +:+ (match pv_pre v with Some (tag, d) => tag +:+ string_of (integer d) | None => "" end)
  +:+ (match pv_post v with Some d => ".post" +:+ string_of (integer d) | None => "" end)
  +:+ (match pv_dev v with Some d => ".dev" +:+ string_of (integer d) | None => "" end).

Definition normalizePythonVersion (version : string) : result string :=
  match parse_version version with
  | None => Err "dependency version is outside the canonical platform PEP 440 subset"
  | Some v => Ok (print_version v)
  end.

Example version_zeros : normalizePythonVersion "v01.020.0RC003.POST1" = Ok "1.20.0rc3.post1".
Proof. vm_compute. reflexivity. Qed.
Example version_dot : is_err (normalizePythonVersion "1.") = true.
Proof. vm_compute. reflexivity. Qed.
Example name_runs : normalizePythonName "Foo._-Bar" = Ok "foo-bar".
Proof. vm_compute. reflexivity. Qed.

(** * Source files *)

(** Some stretch of the text matches: an expression without assertions, and ASCII. *)
Fixpoint matches_prefix (r : re) (l : list ascii) : bool :=
  nullable r || match l with [] => false | c :: l => matches_prefix (deriv c r) l end.
Fixpoint matches_within (r : re) (l : list ascii) : bool :=
  matches_prefix r l || match l with [] => false | _ :: l => matches_within r l end.

Definition Lit (s : string) : re := foldr (λ c r, Cat (Chr (Ascii.eqb c)) r) Eps (list_of s).
Definition OneOf (s : string) : re := Chr (λ x, existsb (Ascii.eqb x) (list_of s)).

(** [secretPattern] *)
Definition secretPattern : re :=
  Alt (Cat (Lit "-----BEGIN ") (Cat (Opt (Alt (Lit "EC ") (Alt (Lit "RSA ") (Lit "OPENSSH ")))) (Lit "PRIVATE KEY-----")))
    (Alt (Cat (Lit "gh") (Cat (OneOf "pousr") (Cat (Lit "_") (Times 30 (Chr is_alnum)))))
       (Cat (Lit "sk-proj-") (Times 20 (Chr (λ c, is_alnum c || existsb (Ascii.eqb c) ["_"; "-"]%char))))).

Definition native_extensions : list string := [".so"; ".dylib"; ".dll"; ".pyd"; ".exe"; ".o"; ".a"].
Definition native_signatures : list (list Z) :=
  [[127; 69; 76; 70]; [77; 90]; [254; 237; 250; 206]; [254; 237; 250; 207]; [206; 250; 237; 254];
   [207; 250; 237; 254]; [202; 254; 186; 190]; [33; 60; 97; 114; 99; 104; 62; 10]].

Record SourceSnapshot := mkSourceSnapshot {
  sourceSnapshot_RepositoryID : Z;
  sourceSnapshot_SourceCommit : string;
  sourceSnapshot_Files : Files
}.

Section SourceFiles.
Context `{UnicodeLib}.

Definition nativeSourcePayload (name : string) (data : Bytes) : bool :=
  member (ToLower (Ext name)) native_extensions
  || existsb (λ sig, HasPrefix data (of_bytes sig)) native_signatures.

Definition filepathBase (filename : string) : string := List.last (Split filename "/") "".

(** The checks of one file after its path and its place in the total. *)
Definition check_source_file (profile name : string) (data : Bytes) : result unit :=
  let base := ToLower (filepathBase name) in
  if HasPrefix base ".env" && (base !=s ".env.example") then Err "private environment files forbidden" else
  if (profile ==s "artifact-checker-v1") && ((base ==s "dockerfile") || HasSuffix base ".sh")
  then Err "creator Dockerfiles and shell build scripts are outside this profile" else
  if (profile ==s "artifact-checker-v1") && nativeSourcePayload name data
  then Err "native binaries require a separately reviewed execution profile" else
  if matches_within secretPattern (list_of data) then Err "credential/private-key indicator detected in source" else
  if HasPrefix data lfs_pointer then Err "unresolved LFS pointer" else Ok tt.

(** One iteration; the state is [seen] and [total]. *)
Definition source_file_step (profile : string) (st : gset string * Z) (file : string * Bytes)
    : result (gset string * Z) :=
  let '(seen, total) := st in
  let '(name, data) := file in
  let! _ := ValidatePath name in
  let fold := ToLower name in
  if bool_decide (fold ∈ seen) then Err "source paths collide" else
  let total := total + len data in
  if total >? Z.shiftl 64 20 then Err "source exceeds 64 MiB" else
  let! _ := check_source_file profile name data in
  Ok ({[fold]} ∪ seen, total).

Definition validateSourceFilesForProfile (files : list (string * Bytes)) (profile : string) : result unit :=
  if (profile !=s "artifact-checker-v1") && (profile !=s "native-evaluator-v2")
  then Err "unreviewed source preparation profile" else
  if (lenl files =? 0) || (lenl files >? 4096) then Err "source file count exceeds bounds" else
  let! _ := foldM (source_file_step profile) (∅, 0) files in Ok tt.

Definition subset (files : Files) (prefix : string) : list (string * Bytes) :=
  let prefix := TrimSuffix prefix "/" +:+ "/" in
  omap (λ f, if HasPrefix f.1 prefix then Some (TrimPrefix f.1 prefix, f.2) else None) (map_to_list files).
End SourceFiles.

Definition commit_re : re := Times 40 (Chr (λ c, is_digit c || inr 97 102 (byte_val c))).

(** [order] is the order in which the files are ranged over. *)
Definition readSourceSnapshotForProfile `{UnicodeLib} `{JsonType SourceSnapshot} (order : Files → list (string * Bytes))
    (data : Bytes) (profile : string) : result SourceSnapshot :=
  let! snapshot := DecodeStrictBounded data (Z.shiftl 96 20) in
  if (sourceSnapshot_RepositoryID snapshot <? 1) || negb (matches commit_re (sourceSnapshot_SourceCommit snapshot))
  then Err "exact independently fetched GitHub source identity required" else
  let! _ := validateSourceFilesForProfile (order (sourceSnapshot_Files snapshot)) profile in
  Ok snapshot.

(** * Locked wheels *)

(** One entry of a wheel: what [FileInfo().IsDir()] and the mode say, its sizes, and what
    [Open] returns (as for [ZipEntry]). *)
Record WheelEntry := mkWheelEntry {
  whl_Name : string;
  whl_IsDir : bool;
  whl_Symlink : bool;
  whl_IsRegular : bool;
  whl_UncompressedSize64 : Z;
  whl_CompressedSize64 : Z;
  whl_Open : result (Bytes * option string)
}.
(** zip.NewReader, and the header that textproto reads: the values of a key. *)
Class WheelLib := {
  WheelReader : Bytes → result (list WheelEntry);
  ReadMIMEHeader : Bytes → result (string → list string)
}.

(** [strings.ReplaceAll(s, "\\\n", " ")] *)
Fixpoint join_lines (l : list ascii) : list ascii :=
  match l with
  | [] => []
  | c :: r =>
      match r with
      | d :: r' => if Ascii.eqb c "092" && Ascii.eqb d "010" then " "%char :: join_lines r' else c :: join_lines r
      | [] => [c]
      end
  end.

Fixpoint skip_list (p l : list ascii) : option (list ascii) :=
  match p, l with
  | [], _ => Some l
  | c :: p, x :: l => if Ascii.eqb c x then skip_list p l else None
  | _, [] => None
  end.

Definition version_char (c : ascii) : bool := python_char c || Ascii.eqb c "+".
Definition hex_lower (c : ascii) : bool := is_digit c || inr 97 102 (byte_val c).

(** The three groups of [linePattern]: name, version and hash. *)
Definition lock_line (line : string) : option (string * string * string) :=
  let '(name, l) := span python_char (list_of line) in
  l ← skip_list (list_of "==") l;
  let '(version, l) := span version_char l in
  let '(blanks, l) := span is_blank l in
  l ← skip_list (list_of "--hash=sha256:") l;
  if (lenl name =? 0) || (lenl version =? 0) || (lenl blanks =? 0) || negb (lenl l =? 64) || negb (forallb hex_lower l)
  then None else Some (string_of name, string_of version, string_of l).

(** One line of the lock; [pins] maps a normalised name and version to a hash. *)
Definition lock_step (pins : gmap string string) (line : string) : result (gmap string string) :=
  let line := TrimSpace line in
  if (line ==s "") || HasPrefix line "#" then Ok pins else
  match lock_line line with
  | None => Err "lock requires exact package==version and one SHA256 hash; no URLs or build options"
  | Some (name, version, digest) =>
      let! name := normalizePythonName name in
      let! version := normalizePythonVersion version in
      let pin := name +:+ "-" +:+ version in
      if bool_decide (is_Some (pins !! pin)) then Err "duplicate dependency pin" else
      Ok (<[pin := digest]> pins)
  end.

Section LockedWheels.
Context `{UnicodeLib} `{WheelLib}.

(** What is checked of an entry before it is read. *)
Definition check_entry (entry : WheelEntry) : result unit :=
  if whl_Symlink entry || negb (whl_IsRegular entry) then Err "wheel links/special files forbidden" else
  let! _ := ValidatePath (whl_Name entry) in
  if Contains (whl_Name entry) ".data/" then Err "wheel data installers are outside the initial profile" else
  if HasSuffix (ToLower (whl_Name entry)) ".pth" || nativeSourcePayload (whl_Name entry) ""
  then Err "wheel startup hooks/native code require a new platform profile" else
  if (whl_UncompressedSize64 entry >? Z.shiftl 32 20)
     || (whl_UncompressedSize64 entry >? uint64 (100 * Z.max (whl_CompressedSize64 entry) 1))
  then Err "wheel expansion limit exceeded" else Ok tt.

(** One entry of a wheel; the state is [out] and [total]. *)
Definition entry_step (st : Files * Z) (entry : WheelEntry) : result (Files * Z) :=
  let '(out, total) := st in
  if whl_IsDir entry then Ok st else
  let! _ := check_entry entry in
  let total := total + whl_UncompressedSize64 entry in
  if total >? Z.shiftl 128 20 then Err "dependency tree exceeds limit" else
  let! delivered := whl_Open entry in
  let! contents := read_limited (whl_UncompressedSize64 entry + 1) delivered or "invalid wheel member length" in
  if negb (len contents =? whl_UncompressedSize64 entry) then Err "invalid wheel member length" else
  if nativeSourcePayload (whl_Name entry) contents
  then Err "disguised native wheel payload requires a new platform profile" else
  let target := "site-packages/" +:+ whl_Name entry in
  if bool_decide (is_Some (out !! target)) then Err "dependency paths collide" else
  Ok (<[target := contents]> out, total).

(** The pin a wheel's filename names. *)
Definition wheel_pin (name : string) : result string :=
  if negb (HasSuffix name "-py3-none-any.whl")
  then Err "initial build profile supports pure Python py3-none-any wheels only" else
  match Split (ToLower (filepathBase name)) "-" with
  | [package; version; _; _; _] =>
      let! package := normalizePythonName package in
      let! version := normalizePythonVersion version in
      Ok (package +:+ "-" +:+ version)
  | _ => Err "unsupported wheel filename"
  end.

(** One file; the state is [out], [used] and [total]. *)
Definition wheel_step (pins : gmap string string) (st : Files * gset string * Z) (file : string * Bytes)
    : result (Files * gset string * Z) :=
  let '(out, used, total) := st in
  let '(name, data) := file in
  if negb (HasPrefix name "wheels/") then Ok st else
  let! pin := wheel_pin name in
  match pins !! pin with
  | None => Err "wheel is unpinned, duplicated or hash-mismatched"
  | Some digest =>
      if (DigestBytes data !=s "sha256:" +:+ digest) || bool_decide (pin ∈ used)
      then Err "wheel is unpinned, duplicated or hash-mismatched" else
      let! entries := WheelReader data in
      if lenl entries >? 4096 then Err "wheel entry count exceeds limit" else
      let! st := foldM entry_step (out, total) entries in
      Ok (st.1, {[pin]} ∪ used, st.2)
  end.

Definition lock_pins (lock : Bytes) : result (gmap string string) :=
  if len lock >? 128 * 1024 then Err "dependency lock too large" else
  foldM lock_step ∅ (Split (string_of (join_lines (list_of lock))) "010").

(** [ranged] is the order in which the files are ranged over. *)
Definition lockedWheelFiles (files : Files) (ranged : list (string * Bytes)) (lockPath : string) : result Files :=
  match files !! lockPath with
  | None => Err "dependency lock missing"
  | Some lock =>
      let! pins := lock_pins lock in
      let! st := foldM (wheel_step pins) (∅, ∅, 0) ranged in
      if negb (Z.of_nat (size st.1.2) =? Z.of_nat (size pins))
      then Err "all pinned wheels must be vendored for offline build" else Ok st.1.1
  end.
End LockedWheels.
