(* ===== verification/Inventory.v ===== *)
(** The dependency inventory and the advisory scan (scanner.go), the inventory of asset
    disks (assets.go) and the separated toolchain (capabilities.go).

    URLs and wheel metadata are parsed by parameters; a Go map is ranged over in the order
    given by a list. *)

From S2P Require Import Prelude Regex GoLib Numbers Types Paths Measurement Evaluation Validate Sha256 GoJson Canonical Documents.
From S2P Require Import Artifacts Signatures Checkpoint History Preparation Snapshots Sources Host Wheels.
From Stdlib Require Import Ascii.
Open Scope Z_scope.

Definition AdvisoryPolicyVersion : string := "offline-advisory-v1".

Record PackageCoordinate := mkPackageCoordinate {
  packageCoordinate_ExecutionDomain : string;
  packageCoordinate_Ecosystem : string;
  packageCoordinate_Name : string;
  packageCoordinate_Version : string;
  packageCoordinate_Digest : string;
  packageCoordinate_SourceName : string;
  packageCoordinate_SourceVersion : string
}.
#[export] Instance PackageCoordinate_eq_dec : EqDecision PackageCoordinate.
Proof. solve_decision. Defined.

Record AssetInventoryBinding := mkAssetInventoryBinding {
  assetInventoryBinding_Asset : EvaluationAsset;
  assetInventoryBinding_ComponentInventoryDigest : string;
  assetInventoryBinding_PackageKeys : list string
}.
Record RuntimeInventory := mkRuntimeInventory {
  runtimeInventory_Assets : list AssetInventoryBinding;
  runtimeInventory_APIVersion : string;
  runtimeInventory_RuntimeImageDigest : string;
  runtimeInventory_ComponentInventoryDigest : string;
  runtimeInventory_Packages : list PackageCoordinate
}.
Record AdvisorySource := mkAdvisorySource {
  advisorySource_URL : string;
  advisorySource_FetchedAt : Time;
  advisorySource_ContentDigest : string
}.
Record Advisory := mkAdvisory {
  advisory_ID : string;
  advisory_Severity : string;
  advisory_SourceURL : string
}.
Record AdvisoryCoverage := mkAdvisoryCoverage {
  advisoryCoverage_Package : PackageCoordinate;
  advisoryCoverage_Status : string;
  advisoryCoverage_SourceURL : string;
  advisoryCoverage_Advisories : list Advisory
}.
Record AdvisorySnapshot := mkAdvisorySnapshot {
  advisorySnapshot_APIVersion : string;
  advisorySnapshot_Kind : string;
  advisorySnapshot_ID : string;
  advisorySnapshot_GeneratedAt : Time;
  advisorySnapshot_ExpiresAt : Time;
  advisorySnapshot_Sources : list AdvisorySource;
  advisorySnapshot_Coverage : list AdvisoryCoverage
}.

(** * Coordinates *)

Definition low_alnum (c : ascii) : bool := is_digit c || inr 97 122 (byte_val c).
Definition char_in (s : string) (c : ascii) : bool := existsb (Ascii.eqb c) (list_of s).

Definition debian_name : re := Cat (Chr low_alnum) (Star (Chr (λ c, low_alnum c || char_in "+.-" c))).
Definition generic_name : re := Cat (Chr low_alnum) (Star (Chr (λ c, low_alnum c || char_in "._+-" c))).
Definition github_part : re := Plus (Chr (λ c, is_alnum c || char_in "_.-" c)).
Definition github_name : re := Cat (Lit "github.com/") (Cat github_part (Cat (Lit "/") github_part)).

(** The newline, the carriage return, the null byte and the space. *)
Definition coordinate_breaks : string := String "010" (String "013" (String "000" " ")).

Definition set_name_version (p : PackageCoordinate) (name version : string) : PackageCoordinate :=
  mkPackageCoordinate (packageCoordinate_ExecutionDomain p) (packageCoordinate_Ecosystem p) name version
    (packageCoordinate_Digest p) (packageCoordinate_SourceName p) (packageCoordinate_SourceVersion p).

(** The switch over ecosystems. *)
Definition normalize_ecosystem (p : PackageCoordinate) : result PackageCoordinate :=
  let ecosystem := packageCoordinate_Ecosystem p in
  let name := packageCoordinate_Name p in
  let version := packageCoordinate_Version p in
  if ecosystem ==s "PyPI" then
    let! name := normalizePythonName name in
    let! version := normalizePythonVersion version in
    Ok (set_name_version p name version)
  else if ecosystem ==s "Debian" then
    if ContainsAny (name +:+ version) coordinate_breaks || negb (matches debian_name name)
    then Err "invalid Debian package coordinate" else Ok p
  else if ecosystem ==s "Git" then
    if negb (matches github_name name) || negb (matches commit_re version) || negb (ValidDigest (packageCoordinate_Digest p))
    then Err "Git packages require exact repository, commit and component bytes" else Ok p
  else if ecosystem ==s "Generic" then
    if negb (matches generic_name name) || ContainsAny version coordinate_breaks || negb (ValidDigest (packageCoordinate_Digest p))
    then Err "generic components require canonical names, exact versions and pinned bytes" else Ok p
  else if ecosystem ==s "CPython" then
    if name !=s "cpython" then Err "invalid interpreter coordinate" else
    let! version := normalizePythonVersion version in
    Ok (set_name_version p name version)
  else Err "unsupported advisory ecosystem".

Definition normalizePackage (p : PackageCoordinate) : result PackageCoordinate :=
  if negb (member (packageCoordinate_ExecutionDomain p) [""; "checker"; "candidate-only"])
  then Err "invalid package execution domain" else
  if (len (packageCoordinate_Name p) >? 256) || (len (packageCoordinate_Version p) >? 256)
     || (packageCoordinate_Name p ==s "") || (packageCoordinate_Version p ==s "")
  then Err "invalid package coordinate" else
  normalize_ecosystem p.

Definition packageKey (p : PackageCoordinate) : string :=
  packageCoordinate_Ecosystem p +:+ ":" +:+ packageCoordinate_Name p +:+ "@" +:+ packageCoordinate_Version p.

(** * The dependency inventory *)

(** The locals of the function: [packages], [names] and [requirements]. *)
Record inventory_state := mkInventoryState {
  is_packages : gmap string PackageCoordinate;
  is_names : gset string;
  is_requirements : gmap string (list string)
}.

Definition base_step (st : inventory_state) (p : PackageCoordinate) : result inventory_state :=
  let! normalized := normalizePackage p in
  let key := packageKey normalized in
  if bool_decide (is_Some (is_packages st !! key)) then Err "duplicate runtime inventory entry" else
  Ok (mkInventoryState (<[key := normalized]> (is_packages st))
        (if packageCoordinate_Ecosystem p ==s "PyPI"
         then {[packageCoordinate_Name normalized]} ∪ is_names st else is_names st)
        (is_requirements st)).

Section Dependencies.
Context `{UnicodeLib} `{WheelLib}.

(** One entry of the loop that reads METADATA; the state is [metadata] and [count]. *)
Definition metadata_step (st : (string → list string) * Z) (entry : WheelEntry) : result ((string → list string) * Z) :=
  if negb (HasSuffix (whl_Name entry) ".dist-info/METADATA") then Ok st else
  if whl_UncompressedSize64 entry >? Z.shiftl 128 10 then Err "wheel metadata exceeds limit" else
  let! delivered := whl_Open entry in
  let! contents := read_limited (Z.shiftl 128 10) delivered in
  let! metadata := ReadMIMEHeader contents or "invalid wheel package metadata" in
  Ok (metadata, st.2 + 1).

(** [MIMEHeader.Get] *)
Definition header_get (h : string → list string) (key : string) : string := match h key with v :: _ => v | [] => "" end.

(** The coordinate of one wheel and its requirements; [DependencyInventory] runs after
    [lockedWheelFiles], so the name has its five parts. *)
Definition wheel_identity (name : string) (data : Bytes) : result (PackageCoordinate * list string) :=
  let! entries := WheelReader data in
  let! st := foldM metadata_step (λ _, [], 0) entries in
  if negb (st.2 =? 1) then Err "wheel must have exactly one METADATA identity" else
  let! coordinate := normalizePackage (mkPackageCoordinate "" "PyPI" (header_get st.1 "Name") (header_get st.1 "Version")
    (DigestBytes data) "" "") in
  match Split (filepathBase name) "-" with
  | package :: version :: _ =>
      let! expectedName := normalizePythonName package in
      let! expectedVersion := normalizePythonVersion version or "wheel filename and metadata identity disagree" in
      if (packageCoordinate_Name coordinate !=s expectedName) || (packageCoordinate_Version coordinate !=s expectedVersion)
      then Err "wheel filename and metadata identity disagree" else Ok (coordinate, st.1 "Requires-Dist")
  | _ => Err "runtime error: index out of range"
  end.

Definition wheel_package_step (st : inventory_state) (file : string * Bytes) : result inventory_state :=
  if negb (HasPrefix file.1 "wheels/") then Ok st else
  let! identity := wheel_identity file.1 file.2 in
  let '(coordinate, required) := identity in
  let key := packageKey coordinate in
  if match is_packages st !! key with
     | Some existing => (packageCoordinate_Digest existing !=s "")
                        && (packageCoordinate_Digest existing !=s packageCoordinate_Digest coordinate)
     | None => false
     end
  then Err "same dependency version has conflicting content hashes" else
  let name := packageCoordinate_Name coordinate in
  Ok (mkInventoryState (<[key := coordinate]> (is_packages st)) ({[name]} ∪ is_names st)
        (<[name := required]> (is_requirements st))).
End Dependencies.

(** A marker that only names an extra, in quotes of either kind. *)
Definition quote_char (c : ascii) : bool := Ascii.eqb c "'" || (byte_val c =? 34).
Definition optional_only : re :=
  Cat (Lit "extra") (Cat (Star (Chr is_blank)) (Cat (Lit "==") (Cat (Star (Chr is_blank))
    (Cat (Chr quote_char) (Cat (Plus (Chr python_char)) (Chr quote_char)))))).

(** [strings.SplitN(requirement, ";", 2)] *)
Definition split_marker (requirement : string) : string * option string :=
  let '(a, b) := span (λ c, negb (Ascii.eqb c ";")) (list_of requirement) in
  (string_of a, match b with _ :: b => Some (string_of b) | [] => None end).

(** The longest package name at the start. *)
Definition dependency_name (requirement : string) : option string :=
  match list_of requirement with
  | c :: l => if is_alnum c then Some (string_of (c :: (span python_char l).1)) else None
  | [] => None
  end.

Definition check_requirement (names : gset string) (requirement : string) : result unit :=
  let '(spec, marker) := split_marker requirement in
  if match marker with Some m => matches optional_only (TrimSpace m) | None => false end then Ok tt else
  match dependency_name (TrimSpace spec) with
  | None => Err "unrecognized transitive dependency metadata"
  | Some name =>
      match normalizePythonName name with
      | Ok name => if bool_decide (name ∈ names) then Ok tt else Err "unaccounted transitive dependency"
      | Err _ => Err "unaccounted transitive dependency"
      end
  end.

(** [ranged] is the order in which the files are ranged over; the requirements are all
    checked, in whichever order. *)
Definition DependencyInventory `{UnicodeLib} `{WheelLib} (files : Files) (ranged : list (string * Bytes)) (lockPath : string)
    (base : RuntimeInventory) : result (list PackageCoordinate) :=
  if (runtimeInventory_APIVersion base !=s "science-ladder-runtime-inventory/v1")
     || negb (ValidDigest (runtimeInventory_RuntimeImageDigest base)) || (lenl (runtimeInventory_Packages base) =? 0)
  then Err "complete platform runtime inventory required" else
  let! _ := lockedWheelFiles files ranged lockPath in
  let! st := foldM base_step (mkInventoryState ∅ ∅ ∅) (runtimeInventory_Packages base) in
  let! st := foldM wheel_package_step st ranged in
  let! _ := for_each (λ r : string * list string, for_each (check_requirement (is_names st)) r.2)
              (map_to_list (is_requirements st)) in
  Ok (map snd (sort_keys (map_to_list (is_packages st)))).

(** * The bill of materials *)

(** [url.PathEscape] *)
Definition path_unescaped (c : ascii) : bool := is_alnum c || char_in "-_.~$&+=:@" c.
Definition hex_upper (d : Z) : ascii := if d <? 10 then byte_of (48 + d) else byte_of (55 + d).
Definition PathEscape (s : string) : string :=
  string_of (concat (map (λ c, if path_unescaped c then [c]
    else ["%"%char; hex_upper (byte_val c / 16); hex_upper (byte_val c mod 16)]) (list_of s))).

Definition sbom_kind (ecosystem : string) : string :=
  if ecosystem ==s "Debian" then "deb/debian" else
  if ecosystem ==s "PyPI" then "pypi" else
  if member ecosystem ["CPython"; "Git"; "Generic"] then "generic" else "".

Definition sha256_hashes (digest : string) : anyValue :=
  AList [AMap [("alg", AString "SHA-256"); ("content", AString (TrimPrefix digest "sha256:"))]].
Definition sbom_component (p : PackageCoordinate) : result anyValue :=
  let kind := sbom_kind (packageCoordinate_Ecosystem p) in
  let name := packageCoordinate_Name p in
  let version := packageCoordinate_Version p in
  if kind ==s "" then Err "unsupported SBOM ecosystem" else
  Ok (AMap ([("type", AString "library"); ("name", AString name); ("version", AString version);
             ("purl", AString ("pkg:" +:+ kind +:+ "/" +:+ PathEscape name +:+ "@" +:+ PathEscape version))]
    ++ (if packageCoordinate_Digest p !=s "" then [("hashes", sha256_hashes (packageCoordinate_Digest p))] else [])
    ++ (if packageCoordinate_ExecutionDomain p !=s "" then
          [("properties", AList [AMap [("name", AString "science-ladder:execution-domain");
                                       ("value", AString (packageCoordinate_ExecutionDomain p))]])] else []))).
Definition component_step (components : list anyValue) (p : PackageCoordinate) : result (list anyValue) :=
  let! c := sbom_component p in Ok (components ++ [c]).
Definition BuildSBOM `{JsonCanonicalizer} (runtimeDigest : string) (packages : list PackageCoordinate) : result Bytes :=
  let! components := foldM component_step [AMap [("type", AString "container");
    ("name", AString "science-ladder-python-runtime"); ("version", AString runtimeDigest);
    ("hashes", sha256_hashes runtimeDigest)]] packages in
  CanonicalJSON (MarshalAny (AMap [("bomFormat", AString "CycloneDX"); ("specVersion", AString "1.6");
    ("version", AInt 1); ("components", AList components)])).

(** * Advisories *)

Definition approved_hosts : list string :=
  ["cveawg.mitre.org"; "api.osv.dev"; "osv.dev"; "osv-vulnerabilities.storage.googleapis.com";
   "security-tracker.debian.org"; "security-team.debian.org"; "bugs.debian.org"; "bugzilla.redhat.com"; "api.github.com";
   "github.com"; "raw.githubusercontent.com"; "www.python.org"; "pypi.org"].

(** The closure [unknown], and the verdict that follows it. *)
Definition unknown (id : string) : list VulnerabilityFinding * string :=
  ([mkVulnerabilityFinding "" "platform advisory policy" id "unknown" ""], "unknown").

Definition week : Z := 7 * 24 * Hour.
Definition snapshot_current (snapshot : AdvisorySnapshot) (now : Time) : bool :=
  (advisorySnapshot_APIVersion snapshot ==s "science-ladder-advisories/v1")
  && (advisorySnapshot_Kind snapshot ==s "AdvisorySnapshot") && (advisorySnapshot_ID snapshot !=s "")
  && After (advisorySnapshot_ExpiresAt snapshot) now
  && negb (After (advisorySnapshot_GeneratedAt snapshot) (AddNs now Minute))
  && negb (Before (advisorySnapshot_GeneratedAt snapshot) (AddNs now (- week)))
  && (Sub (advisorySnapshot_ExpiresAt snapshot) (advisorySnapshot_GeneratedAt snapshot) <=? week).

Definition coverage_step (coverage : gmap string AdvisoryCoverage) (entry : AdvisoryCoverage)
    : result (gmap string AdvisoryCoverage) :=
  let! normalized := normalizePackage (advisoryCoverage_Package entry) or "invalid_advisory_coordinate" in
  let key := packageKey normalized in
  if bool_decide (is_Some (coverage !! key)) then Err "duplicate_advisory_coverage" else
  Ok (<[key := mkAdvisoryCoverage normalized (advisoryCoverage_Status entry) (advisoryCoverage_SourceURL entry)
         (advisoryCoverage_Advisories entry)]> coverage).

(** One advisory of a covered package; the state is [findings] and [status]. *)
Definition advisory_step `{UnicodeLib} (sources : gset string) (p : PackageCoordinate) (candidateOnly : bool)
    (st : list VulnerabilityFinding * string) (advisory : Advisory) : list VulnerabilityFinding * string :=
  let '(findings, status) := st in
  let severity := ToLower (advisory_Severity advisory) in
  let '(status, severity) :=
    (if member severity ["none"; "low"; "moderate"; "medium"] then (status, severity)
     else if member severity ["high"; "critical"] then
       (if negb candidateOnly && (status !=s "unknown") then "fail" else status, severity)
     else (if negb candidateOnly then "unknown" else status, "unknown")) in
  let '(status, severity) :=
    (if (advisory_ID advisory ==s "") || negb (bool_decide (advisory_SourceURL advisory ∈ sources))
     then ("unknown", "unknown") else (status, severity)) in
  (findings ++ [mkVulnerabilityFinding (if candidateOnly then "isolated-candidate-only" else "") (packageKey p)
                  (advisory_ID advisory) severity (advisory_SourceURL advisory)], status).

Definition no_package : PackageCoordinate := mkPackageCoordinate "" "" "" "" "" "" "".
Definition no_coverage : AdvisoryCoverage := mkAdvisoryCoverage no_package "" "" [].

(** One package; the state is [findings] and [status]. *)
Definition package_step `{UnicodeLib} (sources : gset string) (coverage : gmap string AdvisoryCoverage) (separated : bool)
    (st : list VulnerabilityFinding * string) (p : PackageCoordinate) : list VulnerabilityFinding * string :=
  let found := coverage !! packageKey p in
  let entry := default no_coverage found in
  if negb (bool_decide (is_Some found)) || bool_decide (advisoryCoverage_Package entry ≠ p)
     || (advisoryCoverage_Status entry !=s "complete") || negb (bool_decide (advisoryCoverage_SourceURL entry ∈ sources))
  then (st.1 ++ [mkVulnerabilityFinding "" (packageKey p) "coverage_missing_or_incomplete" "unknown"
                   (advisoryCoverage_SourceURL entry)], "unknown")
  else foldl (advisory_step sources p (separated && (packageCoordinate_ExecutionDomain p ==s "candidate-only"))) st
         (advisoryCoverage_Advisories entry).

Section Scan.
Context `{UnicodeLib} `{UrlLib} `{SourceNet}.

Definition source_verified (snapshot : AdvisorySnapshot) (now : Time) (source : AdvisorySource) : bool :=
  match UrlParse (advisorySource_URL source) with
  | Err _ => false
  | Ok (scheme, _, user) =>
      (scheme ==s "https") && negb user && ValidDigest (advisorySource_ContentDigest source)
      && negb (After (advisorySource_FetchedAt source) (AddNs now Minute))
      && negb (Before (advisorySource_FetchedAt source) (AddNs (advisorySnapshot_GeneratedAt snapshot) (- (24 * Hour))))
  end.
Definition source_step (snapshot : AdvisorySnapshot) (now : Time) (sources : gset string) (source : AdvisorySource)
    : result (gset string) :=
  if negb (source_verified snapshot now source) then Err "unverifiable_advisory_provenance" else
  if negb (member (UrlHostname (advisorySource_URL source)) approved_hosts) then Err "unapproved_primary_advisory_source" else
  Ok ({[advisorySource_URL source]} ∪ sources).

Definition ScanAdvisoriesForDomains (packages : list PackageCoordinate) (snapshot : AdvisorySnapshot) (now : Time)
    (separated : bool) : list VulnerabilityFinding * string :=
  if negb (snapshot_current snapshot now) then unknown "stale_or_invalid_advisory_snapshot" else
  match foldM (source_step snapshot now) ∅ (advisorySnapshot_Sources snapshot) with
  | Err id => unknown id
  | Ok sources =>
      if bool_decide (sources = ∅) then unknown "missing_advisory_sources" else
      match foldM coverage_step ∅ (advisorySnapshot_Coverage snapshot) with
      | Err id => unknown id
      | Ok coverage => foldl (package_step sources coverage separated) ([], "pass") packages
      end
  end.
Definition ScanAdvisories (packages : list PackageCoordinate) (snapshot : AdvisorySnapshot) (now : Time)
    : list VulnerabilityFinding * string := ScanAdvisoriesForDomains packages snapshot now false.
End Scan.

(** * The inventory of asset disks *)

(** One package key of a binding; the state is [keys]. *)
Definition asset_key_step (packages : gmap string PackageCoordinate) (asset : EvaluationAsset) (keys : gset string)
    (key : string) : result (gset string) :=
  match packages !! key with
  | None => Err "asset package coverage is missing or repeated"
  | Some p =>
      if bool_decide (key ∈ keys) then Err "asset package coverage is missing or repeated" else
      if (evaluationAsset_Domain asset !=s "candidate") && (packageCoordinate_ExecutionDomain p ==s "candidate-only")
      then Err "checker-visible asset was classified candidate-only" else Ok ({[key]} ∪ keys)
  end.

Definition binding_step (disks : list AssetDisk) (packages : gmap string PackageCoordinate) (seen : gset string)
    (binding : AssetInventoryBinding) : result (gset string) :=
  let asset := assetInventoryBinding_Asset binding in
  if negb (ValidDigest (assetInventoryBinding_ComponentInventoryDigest binding))
     || bool_decide (evaluationAsset_Name asset ∈ seen)
  then Err "invalid asset component inventory binding" else
  if negb (existsb (λ disk, bool_decide (assetDisk_Asset disk = asset)) disks)
  then Err "asset inventory is for different immutable bytes or disclosure policy" else
  if (evaluationAsset_Domain asset !=s "") && (lenl (assetInventoryBinding_PackageKeys binding) =? 0)
  then Err "executable asset lacks package coverage" else
  let! _ := foldM (asset_key_step packages asset) ∅ (assetInventoryBinding_PackageKeys binding) in
  Ok ({[evaluationAsset_Name asset]} ∪ seen).

Definition validateAssetInventory (c : Config) (inventory : RuntimeInventory) : result unit :=
  if negb (lenl (config_Assets c) =? lenl (runtimeInventory_Assets inventory))
  then Err "asset component inventory does not match configured disks" else
  let packages := foldl (λ m p, <[packageKey p := p]> m) (∅ : gmap string PackageCoordinate) (runtimeInventory_Packages inventory) in
  let! _ := foldM (binding_step (config_Assets c) packages) ∅ (runtimeInventory_Assets inventory) in Ok tt.

Definition separatedToolchain (c : Config) (inventory : RuntimeInventory) : bool :=
  match config_Capabilities c with
  | None => false
  | Some capabilities =>
      ValidDigest (runtimeInventory_ComponentInventoryDigest inventory)
      && existsb (λ f, f ==s "separated-toolchain") (executorCapabilities_Features capabilities)
  end.

Definition ReadRuntimeInventory `{HostOS} `{JsonCanonicalizer} `{JsonType RuntimeInventory} (file : PinnedFile)
    : result RuntimeInventory :=
  let! _ := verifyPinned file in
  let! data := ReadFile (pinnedFile_Path file) in
  DecodeStrict data.

(** * The scan of a build *)

(** The failure of an operation on a path, when the operating system refuses it. *)
Class Workspace := { OsFault (operation path : string) : option string }.

Section BuilderScan.
Context `{HostOS} `{Workspace} `{Crypto} `{!Pki} `{UnicodeLib} `{WheelLib} `{UrlLib} `{SourceNet} `{JsonCanonicalizer}.
Context `{JsonType RuntimeInventory} `{JsonType AdvisorySnapshot} `{JsonType (gmap string string)} `{JsonType Envelope}.

(** Up to the bill of materials. *)
Definition scan_packages (config : Config) (files : Files) (ranged : list (string * Bytes)) (m : Manifest)
    : result (RuntimeInventory * list PackageCoordinate * Bytes) :=
  let! inventory := ReadRuntimeInventory (config_RuntimeInventory config) in
  let! _ := validateAssetInventory config inventory in
  let image := validator_RuntimeImageDigest (manifest_Validator m) in
  if runtimeInventory_RuntimeImageDigest inventory !=s image
  then Err "runtime inventory does not bind validator image" else
  let! packages := DependencyInventory files ranged (validator_DependencyLock (manifest_Validator m)) inventory in
  let! sbom := BuildSBOM image packages in
  Ok (inventory, packages, sbom).

(** The signed snapshot of advisories. *)
Definition scan_snapshot (config : Config) : result AdvisorySnapshot :=
  let! _ := verifyPinned (config_AdvisorySnapshot config) in
  let! _ := verifyPinned (config_AdvisoryKeys config) in
  let! keys := ReadPublicKeys (pinnedFile_Path (config_AdvisoryKeys config)) in
  let! data := ReadFile (pinnedFile_Path (config_AdvisorySnapshot config)) in
  let! envelope := DecodeStrictBounded (A := Envelope) data (2 * MaxDocumentBytes) in
  let! payload := Verify envelope keys or "advisory snapshot lacks trusted platform signature" in
  DecodeStrict payload.

Definition start_scan (now : Time) : VulnerabilityScan := mkVulnerabilityScan AdvisoryPolicyVersion "" "" "" (UTC now) 0 "unknown" [].
Definition no_ref : ObjectRef := mkObjectRef "" 0 "".

(** [config] is the runtime's, if there is one; the files written are returned with the
    scan, its object and the error. *)
Definition Scan (runtime : option Config) (now : Time) (files : Files) (ranged : list (string * Bytes)) (m : Manifest)
    (sbomPath : string) (disk : Files) : Files * VulnerabilityScan * ObjectRef * result unit :=
  let scan := start_scan now in
  match runtime with
  | None => (disk, scan, no_ref, Err "platform-controlled signed advisory policy is not configured")
  | Some config =>
      match scan_packages config files ranged m with
      | Err e => (disk, scan, no_ref, Err e)
      | Ok (inventory, packages, sbom) =>
          match OsFault "write" sbomPath with
          | Some e => (disk, scan, no_ref, Err e)
          | None =>
              let disk := <[sbomPath := sbom]> disk in
              let ref := mkObjectRef (DigestBytes sbom) (len sbom) "" in
              let scanned := mkVulnerabilityScan AdvisoryPolicyVersion in
              let inventoryDigest := pinnedFile_Digest (config_RuntimeInventory config) in
              match scan_snapshot config with
              | Err e => (disk, scanned "" inventoryDigest (DigestBytes sbom) (UTC now) (lenl packages) "unknown" [], ref, Err e)
              | Ok snapshot =>
                  let separated := separatedToolchain config inventory && separated_toolchain m in
                  let verdict := ScanAdvisoriesForDomains packages snapshot (UTC now) separated in
                  let scan := mkVulnerabilityScan (if separated then "offline-advisory-domains-v2" else AdvisoryPolicyVersion)
                    (pinnedFile_Digest (config_AdvisorySnapshot config)) inventoryDigest (DigestBytes sbom) (UTC now)
                    (lenl packages) verdict.2 verdict.1 in
                  (disk, scan, ref, if verdict.2 !=s "pass"
                    then Err "vulnerability review has high/critical findings, stale data or incomplete coverage" else Ok tt)
              end
          end
      end
  end.
End BuilderScan.
