(* ===== verification/InventoryProofs.v ===== *)
(** An accepted dependency tree consists of exactly the pinned wheels; the inventory is every
    package of the runtime and every vendored wheel; a scan passes exactly when the snapshot
    is current, its sources are approved, and every package is covered and clear; and the
    service accepts what a passing scan reports. *)

From S2P Require Import Prelude Regex GoLib Numbers Types Paths Measurement Evaluation Validate EvaluationProofs Sha256.
From S2P Require Import GoJson Canonical Documents Artifacts Store AdjudicationProofs Signatures Checkpoint History.
From S2P Require Import Platform Preparation Snapshots SnapshotProofs Sources Host Wheels Inventory.
From Stdlib Require Import Ascii.
Open Scope Z_scope.

(** An invariant of a fallible loop that knows the elements already visited. *)
Lemma foldM_prefix {S A} (f : S → A → result S) (P : list A → S → Prop) s l s' :
  (∀ seen x s s', P seen s → f s x = Ok s' → P (seen ++ [x]) s') →
  P [] s → foldM f s l = Ok s' → P l s'.
Proof.
  intros Hstep. assert (∀ seen s, P seen s → foldM f s l = Ok s' → P (seen ++ l) s') as Hgen; [|apply (Hgen [])].
  induction l as [|x l IH]; intros seen s0 Hs Hf; simpl in Hf.
  - apply (inj Ok) in Hf as <-. by rewrite app_nil_r.
  - destruct (f s0 x) as [s1|] eqn:E; [|done]. replace (seen ++ x :: l) with ((seen ++ [x]) ++ l) by by rewrite <-app_assoc.
    eapply IH; [by eapply Hstep|exact Hf].
Qed.

Lemma lookup_snoc_Some' {A} (l : list A) x i y : (l ++ [x]) !! i = Some y → l !! i = Some y ∨ i = length l ∧ x = y.
Proof.
  intros [|[? Hx]]%lookup_app_Some; [by left|right]. apply list_lookup_singleton_Some in Hx as [? ?]. split; [lia|done].
Qed.

Section WheelsProofs.
Context `{UnicodeLib} `{WheelLib}.

(** What installs a file: a plain entry of a wheel, read whole, at its own path. *)
Record installs (entry : WheelEntry) (target : string) (contents : Bytes) : Prop := {
  ins_target : target = "site-packages/" +:+ whl_Name entry;
  ins_plain : whl_IsDir entry = false ∧ whl_Symlink entry = false ∧ whl_IsRegular entry = true;
  ins_path : ValidatePath (whl_Name entry) = Ok tt;
  ins_pure : nativeSourcePayload (whl_Name entry) contents = false;
  ins_read : ∃ delivered, whl_Open entry = Ok delivered ∧
    read_limited (whl_UncompressedSize64 entry + 1) delivered = Ok contents;
  ins_size : len contents = whl_UncompressedSize64 entry
}.

(** Unpacking installs the files of the entries, all of them, and changes no other. *)
Record unpacked (entries : list WheelEntry) (out0 out : Files) (total0 total : Z) : Prop := {
  un_old : out0 ⊆ out;
  un_new target contents : out !! target = Some contents →
    out0 !! target = Some contents ∨ ∃ entry, entry ∈ entries ∧ installs entry target contents;
  un_all entry : entry ∈ entries → whl_IsDir entry = false →
    ∃ target contents, out !! target = Some contents ∧ installs entry target contents;
  un_size : content_size out + total0 = content_size out0 + total;
  un_most : total0 ≤ Z.shiftl 128 20 → total ≤ Z.shiftl 128 20
}.

Lemma check_entry_ok entry : check_entry entry = Ok tt →
  whl_Symlink entry = false ∧ whl_IsRegular entry = true ∧ ValidatePath (whl_Name entry) = Ok tt.
Proof. unfold check_entry. intros E. ok_step E. ok_step E. bool_prop. by destruct r. Qed.

(** The step of an entry that is no directory installs it. *)
Lemma entry_step_installs out total entry out' total' :
  whl_IsDir entry = false → entry_step (out, total) entry = Ok (out', total') →
  ∃ target contents, out !! target = None ∧ out' = <[target := contents]> out ∧ installs entry target contents ∧
    total' = total + len contents ∧ total' ≤ Z.shiftl 128 20.
Proof.
  intros Hdir He. unfold entry_step in He. rewrite Hdir in He. ok_steps He. apply (inj Ok), pair_equal_spec in He as [<- <-].
  destruct r. apply check_entry_ok in E as (Hl & Hr & Hp). bool_prop. exists ("site-packages/" +:+ whl_Name entry), r1.
  split; [by apply eq_None_not_Some|]. split; [done|]. split; [split; try done; by exists r0|]. split; lia.
Qed.

Lemma entry_step_unpacked seen out0 total0 st entry st' :
  unpacked seen out0 st.1 total0 st.2 → entry_step st entry = Ok st' →
  unpacked (seen ++ [entry]) out0 st'.1 total0 st'.2.
Proof.
  destruct st as [out total], st' as [out' total']. cbn [fst snd]. intros [Ho Hn Ha Hs Hm] He.
  destruct (whl_IsDir entry) eqn:Hdir.
  { unfold entry_step in He. rewrite Hdir in He. apply (inj Ok), pair_equal_spec in He as [<- <-]. split; try done.
    - intros t c Hc. destruct (Hn t c Hc) as [|(e & ? & ?)]; [by left|right; exists e; by rewrite elem_of_app; auto].
    - intros e [|He%list_elem_of_singleton]%elem_of_app Hd; [by apply Ha|by subst e; rewrite Hdir in Hd]. }
  destruct (entry_step_installs _ _ _ _ _ Hdir He) as (t & c & Hf & -> & Hi & -> & Hb). split.
  - etrans; [exact Ho|by apply insert_subseteq].
  - intros t' c' [[<- <-]|[_ Hc]]%lookup_insert_Some; [right; exists entry|destruct (Hn t' c' Hc) as [|(e & ? & ?)]; [by left|right; exists e]];
      (split; [rewrite elem_of_app, ?list_elem_of_singleton; by auto|done]).
  - intros e [He'|He'%list_elem_of_singleton]%elem_of_app Hd.
    + destruct (Ha e He' Hd) as (t' & c' & Ht & Hx). exists t', c'. split; [|done].
      rewrite lookup_insert_ne; [done|]. intros <-. by rewrite Hf in Ht.
    + subst e. exists t, c. by rewrite lookup_insert_eq.
  - rewrite content_size_fresh by done. lia.
  - done.
Qed.

Lemma entries_unpacked entries out total st :
  foldM entry_step (out, total) entries = Ok st → unpacked entries out st.1 total st.2.
Proof.
  apply (foldM_prefix entry_step (λ seen st, unpacked seen out st.1 total st.2)).
  - intros seen x s s'. apply entry_step_unpacked.
  - split; cbn [fst snd]; try done; [by auto|by intros e He%elem_of_nil].
Qed.

(** A vendored wheel: its file's name pins it, and its hash is the pin's. *)
Record vendored (pins : gmap string string) (file : string * Bytes) (pin : string) (entries : list WheelEntry) : Prop := {
  ven_prefix : HasPrefix file.1 "wheels/" = true;
  ven_pin : wheel_pin file.1 = Ok pin;
  ven_digest : ∃ digest, pins !! pin = Some digest ∧ DigestBytes file.2 = "sha256:" +:+ digest;
  ven_entries : WheelReader file.2 = Ok entries;
  ven_count : lenl entries ≤ 4096
}.

(** The loop over the files [seen]. *)
Record vendoring (pins : gmap string string) (seen : list (string * Bytes)) (out : Files) (used : gset string)
    (total : Z) : Prop := {
  vd_wheels file : file ∈ seen → HasPrefix file.1 "wheels/" = true → ∃ pin entries, vendored pins file pin entries ∧ pin ∈ used;
  vd_used pin : pin ∈ used → ∃ file entries, file ∈ seen ∧ vendored pins file pin entries;
  vd_once i j f g pin es es' : seen !! i = Some f → seen !! j = Some g →
    vendored pins f pin es → vendored pins g pin es' → i = j;
  vd_from target contents : out !! target = Some contents →
    ∃ file pin entries entry, file ∈ seen ∧ vendored pins file pin entries ∧ entry ∈ entries ∧ installs entry target contents;
  vd_all file pin entries entry : file ∈ seen → vendored pins file pin entries → entry ∈ entries →
    whl_IsDir entry = false → ∃ target contents, out !! target = Some contents ∧ installs entry target contents;
  vd_size : content_size out = total ∧ total ≤ Z.shiftl 128 20
}.

Lemma vendored_prefix pins f pin es : HasPrefix f.1 "wheels/" = false → ¬ vendored pins f pin es.
Proof. intros Hp [Hx _ _ _ _]. by rewrite Hp in Hx. Qed.
Lemma vendored_unique pins f pin es pin' es' : vendored pins f pin es → vendored pins f pin' es' → pin' = pin ∧ es' = es.
Proof. intros [_ Hp _ He _] [_ Hp' _ He' _]. rewrite Hp in Hp'. rewrite He in He'. by simplify_eq. Qed.
Lemma vendored_pinned pins f pin es : vendored pins f pin es → pin ∈ dom pins.
Proof. intros [_ _ (d & Hd & _) _ _]. by apply elem_of_dom_2 in Hd. Qed.

(** A file outside wheels/ changes nothing. *)
Lemma vendoring_other pins seen out used total file :
  vendoring pins seen out used total → HasPrefix file.1 "wheels/" = false → vendoring pins (seen ++ [file]) out used total.
Proof.
  intros [Hw Hu Ho Hf Ha Hs] Hp. assert (∀ f pin es, vendored pins f pin es → f ∈ seen ++ [file] → f ∈ seen) as Hold.
  { intros f pin es Hv [|Hx%list_elem_of_singleton]%elem_of_app; [done|]. subst f. by apply vendored_prefix in Hv. }
  split.
  - intros f [Hi|Hi%list_elem_of_singleton]%elem_of_app Hx; [by apply Hw|]. subst f. by rewrite Hp in Hx.
  - intros pin Hi. destruct (Hu pin Hi) as (f & es & ? & ?). exists f, es. rewrite elem_of_app. by auto.
  - intros i j f g pin es es' [Hi|[_ Hi]]%lookup_snoc_Some' [Hj|[_ Hj]]%lookup_snoc_Some' Hf' Hg'; subst;
      try (by apply vendored_prefix in Hf'); try (by apply vendored_prefix in Hg'). by eapply Ho.
  - intros t c Hc. destruct (Hf t c Hc) as (f & pin & es & e & ? & ?). exists f, pin, es, e. rewrite elem_of_app. by auto.
  - intros f pin es e Hi Hv. eapply Ha; [by eapply Hold|exact Hv].
  - exact Hs.
Qed.

(** A file of wheels/ is a fresh pin's, and its entries are unpacked. *)
Lemma wheel_step_vendored pins out used total file out' used' total' :
  HasPrefix file.1 "wheels/" = true → wheel_step pins (out, used, total) file = Ok (out', used', total') →
  ∃ pin entries, vendored pins file pin entries ∧ pin ∉ used ∧ used' = {[pin]} ∪ used ∧
    unpacked entries out out' total total'.
Proof.
  destruct file as [name data]. cbn [fst snd]. intros Hp Hs. unfold wheel_step in Hs. rewrite Hp in Hs. cbn [negb] in Hs.
  ok_steps Hs. apply (inj Ok) in Hs. apply pair_equal_spec in Hs as [Hs <-]. apply pair_equal_spec in Hs as [<- <-].
  bool_prop. exists r, r1. split; [|split; [done|split; [done|by apply entries_unpacked]]].
  split; cbn [fst snd]; try done. by exists r0.
Qed.

Lemma wheel_step_vendoring pins seen out used total file out' used' total' :
  vendoring pins seen out used total → wheel_step pins (out, used, total) file = Ok (out', used', total') →
  vendoring pins (seen ++ [file]) out' used' total'.
Proof.
  intros Hv Hs. destruct (HasPrefix file.1 "wheels/") eqn:Hp; cycle 1.
  { destruct file as [name data]. unfold wheel_step in Hs. cbn [fst] in Hp. rewrite Hp in Hs. cbn [negb] in Hs.
    apply (inj Ok) in Hs. apply pair_equal_spec in Hs as [Hs <-]. apply pair_equal_spec in Hs as [<- <-].
    by apply vendoring_other. }
  destruct (wheel_step_vendored _ _ _ _ _ _ _ _ Hp Hs) as (pin & es & Hpin & Hfresh & -> & Hun).
  destruct Hv as [Hw Hu Ho Hf Ha [Hsz Hmx]], Hun as [Uo Un Ua Us Um]. split.
  - intros f [Hi|Hi%list_elem_of_singleton]%elem_of_app Hx.
    + destruct (Hw f Hi Hx) as (pin' & es' & ? & ?). exists pin', es'. rewrite elem_of_union. by auto.
    + subst f. exists pin, es. rewrite elem_of_union, elem_of_singleton. by auto.
  - intros pin' [->%elem_of_singleton|Hi]%elem_of_union.
    + exists file, es. rewrite elem_of_app, list_elem_of_singleton. by auto.
    + destruct (Hu pin' Hi) as (f & es' & ? & ?). exists f, es'. rewrite elem_of_app. by auto.
  - assert (∀ i f es', seen !! i = Some f → ¬ vendored pins f pin es') as Hno.
    { intros i f es' Hi Hf'. destruct (Hw f) as (pin' & es'' & Hx & Hin); [by eapply list_elem_of_lookup_2|by apply Hf'|].
      destruct (vendored_unique _ _ _ _ _ _ Hf' Hx) as [-> _]. done. }
    intros i j f g pin' es1 es2 [Hi|[-> <-]]%lookup_snoc_Some' [Hj|[-> <-]]%lookup_snoc_Some' Hf' Hg'; [by eapply Ho| | |done].
    + destruct (vendored_unique _ _ _ _ _ _ Hpin Hg') as [-> _]. by destruct (Hno i f es1).
    + destruct (vendored_unique _ _ _ _ _ _ Hpin Hf') as [-> _]. by destruct (Hno j g es2).
  - intros t c Hc. destruct (Un t c Hc) as [Hc'|(e & He & Hi)].
    + destruct (Hf t c Hc') as (f & pin' & es' & e & ? & ?). exists f, pin', es', e. rewrite elem_of_app. by auto.
    + exists file, pin, es, e. rewrite elem_of_app, list_elem_of_singleton. by auto.
  - intros f pin' es' e [Hi|Hi%list_elem_of_singleton]%elem_of_app Hv He Hd.
    + destruct (Ha f pin' es' e Hi Hv He Hd) as (t & c & Ht & Hx). exists t, c. split; [|done]. by eapply lookup_weaken.
    + subst f. destruct (vendored_unique _ _ _ _ _ _ Hpin Hv) as [-> ->]. by apply Ua.
  - split; [lia|by apply Um].
Qed.

Lemma vendoring_start pins : vendoring pins [] ∅ ∅ 0.
Proof.
  split; try (by intros; set_solver); try done.
Qed.

Lemma wheels_vendored pins ranged out used total :
  foldM (wheel_step pins) (∅, ∅, 0) ranged = Ok (out, used, total) → vendoring pins ranged out used total.
Proof.
  intros Hf. apply (foldM_prefix (wheel_step pins) (λ seen st, vendoring pins seen st.1.1 st.1.2 st.2)) in Hf; [done| |apply vendoring_start].
  intros seen x [[o u] t] [[o' u'] t']. apply wheel_step_vendoring.
Qed.

(** C21: A dependency tree the builder accepts is exactly what the lock pins.  The lock is a
    file of the source and well formed; every file under wheels/ carries the name, version
    and hash of a pin; every pin is vendored, and by one file only; every installed file is a
    plain entry of one of those wheels, read whole at its declared size, under a valid path
    and with no native payload; every entry that is no directory is installed; and the
    installed files total at most 128 MiB. *)
Theorem lockedWheelFiles_exact files ranged lockPath out :
  ranged ≡ₚ map_to_list files → lockedWheelFiles files ranged lockPath = Ok out →
  ∃ lock pins, files !! lockPath = Some lock ∧ lock_pins lock = Ok pins ∧
    (∀ path data, files !! path = Some data → HasPrefix path "wheels/" = true →
       ∃ pin entries, vendored pins (path, data) pin entries) ∧
    (∀ pin, is_Some (pins !! pin) → ∃ path data entries, files !! path = Some data ∧ vendored pins (path, data) pin entries ∧
       ∀ path' data' entries', files !! path' = Some data' → vendored pins (path', data') pin entries' → path' = path) ∧
    (∀ target contents, out !! target = Some contents → ∃ path data pin entries entry, files !! path = Some data ∧
       vendored pins (path, data) pin entries ∧ entry ∈ entries ∧ installs entry target contents) ∧
    (∀ path data pin entries entry, files !! path = Some data → vendored pins (path, data) pin entries → entry ∈ entries →
       whl_IsDir entry = false → ∃ target contents, out !! target = Some contents ∧ installs entry target contents) ∧
    content_size out ≤ Z.shiftl 128 20.
Proof.
  intros Hr Hl. unfold lockedWheelFiles in Hl. ok_step Hl. ok_step Hl. ok_step Hl. destruct r1 as [[o used] total].
  cbn [fst snd] in Hl. ok_step Hl. apply (inj Ok) in Hl as ->. bool_prop. apply wheels_vendored in E1.
  assert (∀ f, f ∈ ranged ↔ files !! f.1 = Some f.2) as Hin.
  { intros [k d]. rewrite Hr. apply elem_of_map_to_list. }
  destruct E1 as [Hw Hu Ho Hf Ha [Hs Hm]]. exists r, r0. split; [done|]. split; [done|]. split; [|split; [|split; [|split]]].
  - intros path data Hp Hx. destruct (Hw (path, data)) as (pin & es & Hv & _); [by apply Hin|done|by eauto].
  - assert (used = dom r0) as Hall.
    { apply set_subseteq_size_eq; [|rewrite size_dom; lia]. intros pin Hi.
      destruct (Hu pin Hi) as (f & es & _ & Hv). by eapply vendored_pinned. }
    intros pin Hi%elem_of_dom. rewrite <-Hall in Hi. destruct (Hu pin Hi) as ([path data] & es & Hx & Hv).
    exists path, data, es. split; [by apply (Hin (path, data))|]. split; [done|]. intros path' data' es' Hx' Hv'.
    apply (Hin (path', data')), list_elem_of_lookup in Hx' as [j Hj]. apply list_elem_of_lookup in Hx as [k Hk].
    assert (k = j) as -> by by eapply Ho. congruence.
  - intros t c Hc. destruct (Hf t c Hc) as ([path data] & pin & es & e & Hx & Hy). exists path, data, pin, es, e.
    split; [by apply (Hin (path, data))|exact Hy].
  - intros path data pin es e Hx. apply Ha. by apply Hin.
  - lia.
Qed.
End WheelsProofs.

(** * The verdict *)

(** A verdict that is kept by a loop exactly when every step keeps it. *)
Lemma foldl_pass {A F} (step : F * string → A → F * string) (ok : A → Prop) l st :
  (∀ st x, (step st x).2 = "pass" ↔ st.2 = "pass" ∧ ok x) →
  (foldl step st l).2 = "pass" ↔ st.2 = "pass" ∧ Forall ok l.
Proof.
  intros Hstep. revert st. induction l as [|x l IH]; intros st; simpl; [by rewrite Forall_nil; tauto|].
  rewrite IH, Hstep, Forall_cons. tauto.
Qed.

Section Verdict.
Context `{UnicodeLib} `{UrlLib} `{SourceNet}.

Definition tolerated (severity : string) : bool := member (ToLower severity) ["none"; "low"; "moderate"; "medium"].

(** An advisory that does not hold a package back. *)
Definition clear_advisory (sources : gset string) (candidateOnly : bool) (a : Advisory) : Prop :=
  advisory_ID a ≠ "" ∧ advisory_SourceURL a ∈ sources ∧ (tolerated (advisory_Severity a) = true ∨ candidateOnly = true).

Lemma advisory_step_pass sources p candidateOnly st a :
  (advisory_step sources p candidateOnly st a).2 = "pass" ↔ st.2 = "pass" ∧ clear_advisory sources candidateOnly a.
Proof.
  destruct st as [findings status]. unfold advisory_step, clear_advisory, tolerated. cbn [snd].
  destruct (member (ToLower (advisory_Severity a)) _) eqn:?; [|destruct (member _ ["high"; "critical"]) eqn:?];
    destruct (String.eqb_spec (advisory_ID a) ""), (bool_decide_reflect (advisory_SourceURL a ∈ sources)); cbn [orb negb snd];
    try naive_solver; destruct candidateOnly; cbn [negb andb]; try naive_solver.
  destruct (String.eqb_spec status "unknown"); naive_solver.
Qed.

(** A package that the coverage clears. *)
Definition cleared (sources : gset string) (coverage : gmap string AdvisoryCoverage) (separated : bool)
    (p : PackageCoordinate) : Prop :=
  ∃ entry, coverage !! packageKey p = Some entry ∧ advisoryCoverage_Package entry = p ∧
    advisoryCoverage_Status entry = "complete" ∧ advisoryCoverage_SourceURL entry ∈ sources ∧
    Forall (clear_advisory sources (separated && (packageCoordinate_ExecutionDomain p ==s "candidate-only")))
      (advisoryCoverage_Advisories entry).

Lemma package_step_pass sources coverage separated st p :
  (package_step sources coverage separated st p).2 = "pass" ↔ st.2 = "pass" ∧ cleared sources coverage separated p.
Proof.
  unfold package_step, cleared. destruct (coverage !! packageKey p) as [entry|] eqn:E; cbn [default from_option id].
  2: { rewrite bool_decide_eq_false_2 by (intros [? ?]; done). cbn [negb orb snd]. naive_solver. }
  rewrite bool_decide_eq_true_2 by done. cbn [negb orb].
  destruct (decide (advisoryCoverage_Package entry = p)) as [Hp|Hp]; cycle 1.
  { rewrite bool_decide_eq_true_2 by done. cbn [orb snd]. split; [done|]. intros (_ & e & He & Hx & _). by simplify_eq. }
  rewrite bool_decide_eq_false_2 by (intros Hx; by apply Hx). cbn [orb].
  destruct (String.eqb_spec (advisoryCoverage_Status entry) "complete"); cbn [negb orb snd]; cycle 1.
  { split; [done|]. intros (_ & x & He & _ & Hx & _). by simplify_eq. }
  destruct (bool_decide_reflect (advisoryCoverage_SourceURL entry ∈ sources)); cbn [negb orb snd]; cycle 1.
  { split; [done|]. intros (_ & x & He & _ & _ & Hx & _). by simplify_eq. }
  rewrite (foldl_pass _ (clear_advisory sources (separated && (packageCoordinate_ExecutionDomain p ==s "candidate-only"))))
    by (intros; apply advisory_step_pass).
  split; [intros [? ?]; split; [done|by exists entry]|]. intros (? & x & He & _ & _ & _ & Hx). by simplify_eq.
Qed.

(** ** The tables *)

(** A source the scan trusts. *)
Definition trusted_source (snapshot : AdvisorySnapshot) (now : Time) (source : AdvisorySource) : Prop :=
  source_verified snapshot now source = true ∧ UrlHostname (advisorySource_URL source) ∈ approved_hosts.

Lemma sources_ok snapshot now l seen sources :
  foldM (source_step snapshot now) seen l = Ok sources ↔
  Forall (trusted_source snapshot now) l ∧ sources = list_to_set (advisorySource_URL <$> l) ∪ seen.
Proof.
  revert seen. induction l as [|x l IH]; intros seen; simpl.
  - rewrite Forall_nil. split; [intros Hx; apply (inj Ok) in Hx; set_solver|intros [_ ->]; f_equal; set_solver].
  - unfold source_step at 1. rewrite Forall_cons. unfold trusted_source at 1.
    destruct (source_verified snapshot now x) eqn:?; cbn [negb]; [|naive_solver].
    destruct (member _ approved_hosts) eqn:Hm; cbn [negb].
    + rewrite IH. apply member_true in Hm. assert (∀ X Y : gset string, X ∪ ({[advisorySource_URL x]} ∪ Y) = {[advisorySource_URL x]} ∪ X ∪ Y) as -> by set_solver.
      naive_solver.
    + assert (UrlHostname (advisorySource_URL x) ∉ approved_hosts) by (intros Hx%member_true; congruence). naive_solver.
Qed.

(** An entry of the coverage under its normal coordinate. *)
Definition normalized (entry : AdvisoryCoverage) : option AdvisoryCoverage :=
  match normalizePackage (advisoryCoverage_Package entry) with
  | Ok p => Some (mkAdvisoryCoverage p (advisoryCoverage_Status entry) (advisoryCoverage_SourceURL entry)
                    (advisoryCoverage_Advisories entry))
  | Err _ => None
  end.
Definition coverage_key (entry : AdvisoryCoverage) : string := packageKey (advisoryCoverage_Package entry).
Definition by_key (entries : list AdvisoryCoverage) : gmap string AdvisoryCoverage :=
  list_to_map ((λ e, (coverage_key e, e)) <$> entries).

Lemma by_key_lookup entries k e :
  NoDup (coverage_key <$> entries) → by_key entries !! k = Some e ↔ e ∈ entries ∧ coverage_key e = k.
Proof.
  intros Hn. unfold by_key. rewrite <-elem_of_list_to_map by by rewrite <-list_fmap_compose.
  rewrite list_elem_of_fmap. naive_solver.
Qed.

Lemma coverage_ok l acc coverage :
  foldM coverage_step acc l = Ok coverage ↔
  ∃ entries, mapM normalized l = Some entries ∧ NoDup (coverage_key <$> entries) ∧
    (∀ e, e ∈ entries → acc !! coverage_key e = None) ∧ coverage = by_key entries ∪ acc.
Proof.
  revert acc. induction l as [|x l IH]; intros acc; simpl.
  - split; [intros Hx; apply (inj Ok) in Hx as <-|intros (es & He & _ & _ & ->)].
    + exists []. unfold by_key; simpl; rewrite (left_id_L ∅ (∪)). split_and!; [done|constructor|by intros e He%elem_of_nil|done].
    + apply (inj Some) in He as <-. unfold by_key; simpl; by rewrite (left_id_L ∅ (∪)).
  - assert (normalized x = match normalizePackage (advisoryCoverage_Package x) with
      | Ok p => Some (mkAdvisoryCoverage p (advisoryCoverage_Status x) (advisoryCoverage_SourceURL x) (advisoryCoverage_Advisories x))
      | Err _ => None end) as -> by done.
    unfold coverage_step at 1. destruct (normalizePackage _) as [p|] eqn:Hp; simpl; [|by split; [|intros (es & He & _)]].
    set (e0 := mkAdvisoryCoverage _ _ _ _). destruct (acc !! packageKey p) as [old|] eqn:Ha.
    { rewrite bool_decide_eq_true_2 by done. split; [done|]. intros (es & He & _ & Hf & _).
      destruct (mapM normalized l); [apply (inj Some) in He as <-|done]. specialize (Hf e0 (list_elem_of_here _ _)).
      change (acc !! packageKey p = None) in Hf. by rewrite Ha in Hf. }
    rewrite bool_decide_eq_false_2 by (by intros [? ?]). cbn [negb]. rewrite IH. clear IH.
    destruct (mapM normalized l) as [es|]; simpl; [|by split; intros (es & He & _)]. split.
    + intros (es' & He & Hn & Hf & ->). simplify_eq. assert (by_key es' !! packageKey p = None) as Hk.
      { apply eq_None_not_Some. intros [e [He ?]%by_key_lookup]; [|done]. specialize (Hf e He).
        rewrite lookup_insert_None in Hf. by destruct Hf. }
      exists (e0 :: es'). split; [done|]. rewrite fmap_cons, NoDup_cons. split; [split; [|done]|split].
      * intros (e & He & Hi)%list_elem_of_fmap. assert (by_key es' !! packageKey p = Some e) by by apply by_key_lookup. congruence.
      * intros e [->|He]%elem_of_cons; [done|]. specialize (Hf e He). by rewrite lookup_insert_None in Hf; destruct Hf.
      * unfold by_key. simpl. change (coverage_key e0) with (packageKey p). by rewrite <-insert_union_l, insert_union_r.
    + intros (es' & He & Hn & Hf & ->). apply (inj Some) in He as <-. rewrite fmap_cons, NoDup_cons in Hn. destruct Hn as [Hd Hn].
      exists es. split; [done|]. split; [done|]. split.
      * intros e He. rewrite lookup_insert_None. split; [apply Hf; by right|]. intros Hk. apply Hd.
        apply list_elem_of_fmap. by exists e.
      * unfold by_key. simpl. change (coverage_key e0) with (packageKey p). rewrite <-insert_union_l, insert_union_r; [done|].
        apply eq_None_not_Some. intros [e [He Hk]%by_key_lookup]; [|done]. apply Hd, list_elem_of_fmap. by exists e.
Qed.


(** * Findings *)

(** A finding the service accepts of a passing scan. *)
Definition passing_finding (separated : bool) (f : VulnerabilityFinding) : Prop :=
  vulnerabilityFinding_Disposition f = "isolated-candidate-only" ∧ separated = true
  ∨ vulnerabilityFinding_Disposition f = "" ∧ vulnerabilityFinding_Severity f ∈ ["none"; "low"; "moderate"; "medium"].

Lemma advisory_step_acceptable sources p candidateOnly separated st a :
  (candidateOnly = true → separated = true) → (advisory_step sources p candidateOnly st a).2 = "pass" →
  Forall (passing_finding separated) st.1 → Forall (passing_finding separated) (advisory_step sources p candidateOnly st a).1.
Proof.
  intros Hsep Hp Hf. pose proof (proj1 (advisory_step_pass _ _ _ _ _) Hp) as (_ & Hid & Hu & Ht). clear Hp.
  destruct st as [findings status]. unfold advisory_step, tolerated in *. cbn [fst] in *.
  destruct (String.eqb_spec (advisory_ID a) ""); [done|]. rewrite bool_decide_eq_true_2 by done. cbn [orb negb].
  destruct candidateOnly.
  - destruct (member _ ["none"; "low"; "moderate"; "medium"]); [|destruct (member _ ["high"; "critical"])]; cbn [fst];
      (apply Forall_app; split; [done|apply Forall_singleton; left; by auto]).
  - destruct Ht as [Ht|]; [|done]. rewrite Ht. cbn [fst]. apply Forall_app. split; [done|]. apply Forall_singleton.
    right. split; [done|]. by apply member_true.
Qed.

(** What a passing loop keeps, when every passing step keeps it. *)
Lemma foldl_findings {A F} (step : F * string → A → F * string) (P : F → Prop) l st :
  (∀ st x, (step st x).2 = "pass" → st.2 = "pass") → (∀ st x, x ∈ l → (step st x).2 = "pass" → P st.1 → P (step st x).1) →
  (foldl step st l).2 = "pass" → P st.1 → P (foldl step st l).1.
Proof.
  intros Hmono. revert st. induction l as [|x l IH]; intros st Hstep Hp Hs; simpl in *; [done|].
  assert (∀ l st, (foldl step st l).2 = "pass" → st.2 = "pass") as Hall.
  { clear -Hmono. induction l as [|y l IH]; intros st Hp; simpl in *; [done|]. eapply Hmono, IH, Hp. }
  apply IH; [|done|].
  - intros s y Hy. apply Hstep. by right.
  - apply Hstep; [by left|by eapply Hall|done].
Qed.

Lemma package_step_acceptable sources coverage separated st p :
  (package_step sources coverage separated st p).2 = "pass" → Forall (passing_finding separated) st.1 →
  Forall (passing_finding separated) (package_step sources coverage separated st p).1.
Proof.
  unfold package_step. destruct (_ || _ || _ || _); cbn [fst snd]; [done|]. apply foldl_findings.
  - intros s a Ha. by apply advisory_step_pass in Ha as [? _].
  - intros s a _. apply advisory_step_acceptable. by intros [? _]%andb_true_iff.
Qed.

(** Every finding of a passing scan is one the service accepts. *)
Lemma scan_findings_acceptable packages snapshot now separated :
  (ScanAdvisoriesForDomains packages snapshot now separated).2 = "pass" →
  Forall (passing_finding separated) (ScanAdvisoriesForDomains packages snapshot now separated).1.
Proof.
  unfold ScanAdvisoriesForDomains. repeat (case_match; try done). intros Hp. apply foldl_findings; [| |exact Hp|done].
  - intros s p Hx. by apply package_step_pass in Hx as [? _].
  - intros s p _. apply package_step_acceptable.
Qed.
End Verdict.

(** * The inventory *)

(** Normalising changes the name and the version only. *)
Lemma normalizePackage_keeps p n : normalizePackage p = Ok n →
  packageCoordinate_Ecosystem n = packageCoordinate_Ecosystem p ∧ packageCoordinate_Digest n = packageCoordinate_Digest p.
Proof.
  unfold normalizePackage. intros Hn. do 2 ok_step Hn. unfold normalize_ecosystem in Hn.
  repeat match type of Hn with (if ?c ==s ?s then _ else _) = _ => destruct (c ==s s) end;
    ok_steps Hn; try done; apply (inj Ok) in Hn as <-; done.
Qed.

(** The packages [seen] of the runtime. *)
Record based (seen : list PackageCoordinate) (st : inventory_state) : Prop := {
  bs_all p : p ∈ seen → ∃ n, normalizePackage p = Ok n ∧ is_packages st !! packageKey n = Some n;
  bs_from k n : is_packages st !! k = Some n → k = packageKey n ∧ ∃ p, p ∈ seen ∧ normalizePackage p = Ok n;
  bs_names name : name ∈ is_names st → ∃ p n, p ∈ seen ∧ packageCoordinate_Ecosystem p = "PyPI" ∧
    normalizePackage p = Ok n ∧ packageCoordinate_Name n = name;
  bs_requirements : is_requirements st = ∅
}.

Lemma base_step_based seen st p st' : based seen st → base_step st p = Ok st' → based (seen ++ [p]) st'.
Proof.
  intros [Ha Hf Hn Hr] Hs. unfold base_step in Hs. ok_steps Hs. apply (inj Ok) in Hs as <-. bool_prop.
  assert (∀ x, x ∈ seen → x ∈ seen ++ [p]) as Hold by (intros; apply elem_of_app; by left).
  assert (p ∈ seen ++ [p]) as Hnew by (apply elem_of_app; right; by left).
  split; cbn [is_packages is_names is_requirements].
  - intros x [Hx|Hx%list_elem_of_singleton]%elem_of_app; [|subst x; exists r; split; [done|apply lookup_insert_eq]].
    destruct (Ha x Hx) as (n & ? & Hl). exists n. split; [done|]. rewrite lookup_insert_ne; [done|].
    intros He. apply G. rewrite He. by exists n.
  - intros k n [[<- <-]|[_ Hl]]%lookup_insert_Some; [split; [done|by exists p]|].
    destruct (Hf k n Hl) as (? & x & ? & ?). split; [done|]. exists x. auto.
  - destruct (String.eqb_spec (packageCoordinate_Ecosystem p) "PyPI").
    + intros name [->%elem_of_singleton|Hx]%elem_of_union; [by exists p, r|].
      destruct (Hn name Hx) as (x & y & ? & ?). exists x, y. auto.
    + intros name Hx. destruct (Hn name Hx) as (x & y & ? & ?). exists x, y. auto.
  - done.
Qed.

Lemma based_packages l st : foldM base_step (mkInventoryState ∅ ∅ ∅) l = Ok st → based l st.
Proof.
  apply (foldM_prefix base_step based); [by intros; eapply base_step_based|].
  split; cbn; [by intros p Hp%elem_of_nil|by intros k n Hl%lookup_empty_Some|by intros n Hn%elem_of_empty|done].
Qed.

Section Inventory.
Context `{UnicodeLib} `{WheelLib}.

(** A vendored wheel with its coordinate and requirements. *)
Definition wheel_of (file : string * Bytes) (p : PackageCoordinate) (required : list string) : Prop :=
  HasPrefix file.1 "wheels/" = true ∧ wheel_identity file.1 file.2 = Ok (p, required).

Lemma wheel_identity_digest name data p required :
  wheel_identity name data = Ok (p, required) → packageCoordinate_Digest p = DigestBytes data.
Proof.
  unfold wheel_identity. intros Hw. do 4 ok_step Hw. apply normalizePackage_keeps in E1 as [_ Hd].
  destruct (Split _ _) as [|a [|b l]]; [done|done|]. ok_steps Hw. apply (inj Ok), pair_equal_spec in Hw as [<- _]. done.
Qed.

Lemma DigestBytes_nonempty data : DigestBytes data ≠ "".
Proof. unfold DigestBytes. done. Qed.

(** The files [seen], after the packages of the runtime. *)
Record wheeled (st0 : inventory_state) (seen : list (string * Bytes)) (st : inventory_state) : Prop := {
  wd_base k n : is_packages st0 !! k = Some n → ∃ q, is_packages st !! k = Some q ∧
    (packageCoordinate_Digest n = "" ∨ packageCoordinate_Digest q = packageCoordinate_Digest n);
  wd_total f : f ∈ seen → HasPrefix f.1 "wheels/" = true → ∃ p required, wheel_of f p required;
  wd_wheel f p required : f ∈ seen → wheel_of f p required → ∃ q, is_packages st !! packageKey p = Some q ∧
    packageCoordinate_Digest q = packageCoordinate_Digest p;
  wd_from k q : is_packages st !! k = Some q → is_packages st0 !! k = Some q ∨
    k = packageKey q ∧ ∃ f required, f ∈ seen ∧ wheel_of f q required;
  wd_names name : name ∈ is_names st → name ∈ is_names st0 ∨
    ∃ f p required, f ∈ seen ∧ wheel_of f p required ∧ packageCoordinate_Name p = name;
  wd_required f p required : f ∈ seen → wheel_of f p required → is_Some (is_requirements st !! packageCoordinate_Name p);
  wd_requirements name required : is_requirements st0 = ∅ → is_requirements st !! name = Some required →
    ∃ f p, f ∈ seen ∧ wheel_of f p required ∧ packageCoordinate_Name p = name
}.

Lemma wheeled_other st0 seen st f : wheeled st0 seen st → HasPrefix f.1 "wheels/" = false → wheeled st0 (seen ++ [f]) st.
Proof.
  intros [Hb Ht Hw Hf Hn Hq Hr] Hp. assert (∀ x, x ∈ seen → x ∈ seen ++ [f]) as Hold by (intros; apply elem_of_app; by left).
  assert (∀ x, x ∈ seen ++ [f] → HasPrefix x.1 "wheels/" = true → x ∈ seen) as Hback.
  { intros x [|Hx%list_elem_of_singleton]%elem_of_app Hx'; [done|]. subst x. by rewrite Hp in Hx'. }
  split.
  - exact Hb.
  - intros x Hx Hx'. by apply Ht; [apply Hback|].
  - intros x p required Hx Hx'. apply (Hw x p required); [|done]. apply Hback; [done|]. apply Hx'.
  - intros k q Hl. destruct (Hf k q Hl) as [|(? & x & required & ? & ?)]; [by left|right]. split; [done|]. exists x, required. auto.
  - intros name Hx. destruct (Hn name Hx) as [|(x & p & required & ? & ?)]; [by left|right]. exists x, p, required. auto.
  - intros x p required Hx Hx'. apply (Hq x p required); [|done]. apply Hback; [done|]. apply Hx'.
  - intros name required H0' Hl. destruct (Hr name required H0' Hl) as (x & p & ? & ?). exists x, p. auto.
Qed.

(** The step of a wheel. *)
Lemma wheel_package_step_ok st f st' : HasPrefix f.1 "wheels/" = true → wheel_package_step st f = Ok st' →
  ∃ p required, wheel_of f p required ∧
    (∀ old, is_packages st !! packageKey p = Some old →
       packageCoordinate_Digest old = "" ∨ packageCoordinate_Digest old = packageCoordinate_Digest p) ∧
    st' = mkInventoryState (<[packageKey p := p]> (is_packages st)) ({[packageCoordinate_Name p]} ∪ is_names st)
            (<[packageCoordinate_Name p := required]> (is_requirements st)).
Proof.
  intros Hp Hs. unfold wheel_package_step in Hs. rewrite Hp in Hs. cbn [negb] in Hs. ok_step Hs. destruct r as [p required].
  ok_step Hs. apply (inj Ok) in Hs as <-. exists p, required. split; [by split|]. split; [|done].
  intros old Ho. rewrite Ho in G. destruct (String.eqb_spec (packageCoordinate_Digest old) ""); [by left|right].
  by destruct (String.eqb_spec (packageCoordinate_Digest old) (packageCoordinate_Digest p)).
Qed.

Lemma wheel_step_wheeled st0 seen st f st' : wheeled st0 seen st → wheel_package_step st f = Ok st' → wheeled st0 (seen ++ [f]) st'.
Proof.
  intros Hv Hs. destruct (HasPrefix f.1 "wheels/") eqn:Hp; cycle 1.
  { unfold wheel_package_step in Hs. rewrite Hp in Hs. apply (inj Ok) in Hs as <-. by apply wheeled_other. }
  destruct (wheel_package_step_ok _ _ _ Hp Hs) as (p & required & Hof & Hold & ->). clear Hs.
  destruct Hv as [Hb Ht Hw Hf Hn Hq Hr]. assert (f ∈ seen ++ [f]) as Hnew by (apply elem_of_app; right; by left).
  assert (∀ x, x ∈ seen → x ∈ seen ++ [f]) as Hincl by (intros; apply elem_of_app; by left).
  assert (∀ p' r, wheel_of f p' r → p' = p ∧ r = required) as Huniq.
  { intros p' r' [_ Hx]. destruct Hof as [_ Hy]. rewrite Hx in Hy. by simplify_eq. }
  assert (∀ k q, is_packages st !! k = Some q → ∃ q', <[packageKey p:=p]> (is_packages st) !! k = Some q' ∧
            (packageCoordinate_Digest q = "" ∨ packageCoordinate_Digest q' = packageCoordinate_Digest q)) as Hkeep.
  { intros k q Hl. destruct (decide (k = packageKey p)) as [->|Hne]; [|exists q; rewrite lookup_insert_ne by done; by auto].
    exists p. rewrite lookup_insert_eq. split; [done|]. destruct (Hold q Hl); auto. }
  split; cbn [is_packages is_names is_requirements].
  - intros k n Hl. destruct (Hb k n Hl) as (q & Hl' & Hd). destruct (Hkeep k q Hl') as (q' & ? & Hd'). exists q'.
    split; [done|]. destruct Hd as [|Hd]; [by left|]. destruct Hd' as [Hx|Hx]; [left|right]; congruence.
  - intros x [Hx|Hx%list_elem_of_singleton]%elem_of_app; [by apply Ht|subst x; by exists p, required].
  - intros x p' required' [Hx|Hx%list_elem_of_singleton]%elem_of_app Hx'.
    + destruct (Hw x p' required' Hx Hx') as (q & Hl & Hd). destruct (Hkeep _ q Hl) as (q' & ? & [Hd'|Hd']); exists q'; [|split; congruence].
      destruct Hx' as [_ Hx'%wheel_identity_digest]. rewrite Hd', Hx' in Hd. symmetry in Hd. by destruct (DigestBytes_nonempty x.2).
    + subst x. destruct (Huniq _ _ Hx') as [-> ->]. exists p. by rewrite lookup_insert_eq.
  - intros k q [[<- <-]|[_ Hl]]%lookup_insert_Some; [right; split; [done|by exists f, required]|].
    destruct (Hf k q Hl) as [|(? & x & r & ? & ?)]; [by left|right; split; [done|]; exists x, r; auto].
  - intros name [->%elem_of_singleton|Hx]%elem_of_union; [right; by exists f, p, required|].
    destruct (Hn name Hx) as [|(x & p' & r & ? & ?)]; [by left|right; exists x, p', r; auto].
  - intros x p' r [Hx|Hx%list_elem_of_singleton]%elem_of_app Hx'; apply lookup_insert_is_Some'.
    + right. by eapply Hq.
    + subst x. left. by destruct (Huniq _ _ Hx') as [-> _].
  - intros name r H0' [[<- <-]|[_ Hl]]%lookup_insert_Some; [by exists f, p|].
    destruct (Hr name r H0' Hl) as (x & p' & ? & ?). exists x, p'. auto.
Qed.

Lemma wheels_wheeled st0 ranged st : foldM wheel_package_step st0 ranged = Ok st → wheeled st0 ranged st.
Proof.
  apply (foldM_prefix wheel_package_step (wheeled st0)); [by intros; eapply wheel_step_wheeled|].
  split; [|by intros f Hx%elem_of_nil|by intros f p r Hx%elem_of_nil|by left|by left|by intros f p r Hx%elem_of_nil|].
  - intros k n Hl. exists n. auto.
  - intros name r -> Hl. by rewrite lookup_empty in Hl.
Qed.

(** The requirement is for an extra only, or its package is a Python package of the runtime
    or a vendored wheel. *)
Definition accounted (files : Files) (base : RuntimeInventory) (requirement : string) : Prop :=
  ∃ names, check_requirement names requirement = Ok tt ∧ ∀ name, name ∈ names →
    (∃ p n, p ∈ runtimeInventory_Packages base ∧ packageCoordinate_Ecosystem p = "PyPI" ∧ normalizePackage p = Ok n ∧
       packageCoordinate_Name n = name) ∨
    (∃ path data p required, files !! path = Some data ∧ wheel_of (path, data) p required ∧ packageCoordinate_Name p = name).

(** The dependency inventory is complete and adds nothing: it lists no coordinate twice;
    every package of the runtime is listed under its normal coordinate, with its digest if
    it had one; every vendored wheel has one identity, which its name and its metadata agree
    on, and is listed with the digest of its bytes; everything listed is one or the other;
    and every requirement of a wheel that is the only one of its package is accounted for by
    a package of the runtime or another wheel. *)
Theorem DependencyInventory_complete files ranged lockPath base out :
  ranged ≡ₚ map_to_list files → DependencyInventory files ranged lockPath base = Ok out →
  NoDup (packageKey <$> out) ∧
  (∀ p, p ∈ runtimeInventory_Packages base → ∃ n q, normalizePackage p = Ok n ∧ q ∈ out ∧ packageKey q = packageKey n ∧
     (packageCoordinate_Digest n = "" ∨ packageCoordinate_Digest q = packageCoordinate_Digest n)) ∧
  (∀ path data, files !! path = Some data → HasPrefix path "wheels/" = true → ∃ p q required, wheel_of (path, data) p required ∧
     q ∈ out ∧ packageKey q = packageKey p ∧ packageCoordinate_Digest q = DigestBytes data) ∧
  (∀ q, q ∈ out → (∃ p, p ∈ runtimeInventory_Packages base ∧ normalizePackage p = Ok q) ∨
     (∃ path data required, files !! path = Some data ∧ wheel_of (path, data) q required)) ∧
  (∀ path data p required, files !! path = Some data → wheel_of (path, data) p required →
     (∀ path' data' p' required', files !! path' = Some data' → wheel_of (path', data') p' required' →
        packageCoordinate_Name p' = packageCoordinate_Name p → path' = path) →
     Forall (accounted files base) required).
Proof.
  intros Hr Hd. unfold DependencyInventory in Hd. ok_step Hd. ok_step Hd. ok_step Hd. ok_step Hd. ok_step Hd.
  apply (inj Ok) in Hd as <-. apply based_packages in E0 as [Ba Bf Bn Br]. apply wheels_wheeled in E1 as [Wb Wt Ww Wf Wn Wq Wr].
  assert (∀ f, f ∈ ranged ↔ files !! f.1 = Some f.2) as Hin by (intros [k d]; rewrite Hr; apply elem_of_map_to_list).
  assert (∀ q, q ∈ map snd (sort_keys (map_to_list (is_packages r1))) ↔ ∃ k, is_packages r1 !! k = Some q) as Hout.
  { intros q. rewrite list_elem_of_In, in_map_iff. setoid_rewrite <-list_elem_of_In. setoid_rewrite (sort_keys_perm (map_to_list (is_packages r1))).
    split; [intros ([k x] & <- & Hx%elem_of_map_to_list); by exists k|intros [k Hk]; exists (k, q); split; [done|by apply elem_of_map_to_list]]. }
  assert (∀ k q, is_packages r1 !! k = Some q → k = packageKey q) as Hkey.
  { intros k q Hl. destruct (Wf k q Hl) as [Hl'|[? _]]; [|done]. by destruct (Bf k q Hl') as [? _]. }
  split; [|split; [|split; [|split]]].
  - assert (map packageKey (map snd (sort_keys (map_to_list (is_packages r1)))) ≡ₚ (map_to_list (is_packages r1)).*1) as ->.
    { rewrite (sort_keys_perm (map_to_list (is_packages r1))), map_map. apply (eq_subrelation _), list_fmap_ext.
      intros i [k q] Hi%list_elem_of_lookup_2%elem_of_map_to_list. symmetry. by apply Hkey. }
    apply NoDup_fst_map_to_list.
  - intros p Hp. destruct (Ba p Hp) as (n & Hn & Hl). destruct (Wb _ _ Hl) as (q & Hq & Hx). exists n, q.
    split; [done|]. split; [apply Hout; by exists (packageKey n)|]. split; [symmetry; by apply Hkey|done].
  - intros path data Hf Hp. destruct (Wt (path, data)) as (p & required & Hof); [by apply Hin|done|].
    destruct (Ww (path, data) p required) as (q & Hq & Hx); [by apply Hin|done|]. exists p, q, required. split; [done|].
    split; [apply Hout; by exists (packageKey p)|]. split; [symmetry; by apply Hkey|].
    rewrite Hx. destruct Hof as [_ Hof]. by apply wheel_identity_digest in Hof.
  - intros q Hq. apply Hout in Hq as [k Hk]. destruct (Wf k q Hk) as [Hl|(-> & [path data] & required & Hx & ?)]; [left|right].
    + destruct (Bf k q Hl) as (_ & p & ? & ?). by exists p.
    + exists path, data, required. split; [by apply (Hin (path, data))|done].
  - intros path data p required Hf Hof Honly. destruct (Wq (path, data) p required) as [req Hreq]; [by apply Hin|done|].
    destruct (Wr _ _ Br Hreq) as ([path' data'] & p' & Hx & Hof' & Hname). apply (Hin (path', data')) in Hx. cbn [fst snd] in Hx.
    assert (path' = path) as -> by by eapply Honly. assert (data' = data) as -> by congruence.
    assert (req = required) as -> by (destruct Hof as [_ He], Hof' as [_ He']; congruence). destruct r2.
    apply for_each_ok in E2. rewrite Forall_forall in E2. specialize (E2 (packageCoordinate_Name p, required)).
    rewrite elem_of_map_to_list in E2. specialize (E2 Hreq). apply for_each_ok in E2. eapply Forall_impl; [exact E2|].
    intros requirement Hc. exists (is_names r1). split; [done|]. intros name Hn. destruct (Wn name Hn) as [Hn'|(x & y & z & Hx' & Hy)].
    + left. destruct (Bn name Hn') as (a & b & ?). by exists a, b.
    + right. destruct x as [px dx]. exists px, dx, y, z. split; [by apply (Hin (px, dx))|done].
Qed.
End Inventory.

(** * The scan and the service *)

Section Accepted.
Context `{Env} `{HostOS} `{Workspace} `{Crypto} `{!Pki} `{UnicodeLib} `{WheelLib} `{UrlLib} `{SourceNet} `{JsonCanonicalizer}.
Context `{JsonType RuntimeInventory} `{JsonType AdvisorySnapshot} `{JsonType (gmap string string)} `{JsonType Envelope}.

Lemma verifyPinned_digest file : verifyPinned file = Ok tt → ValidDigest (pinnedFile_Digest file) = true.
Proof. unfold verifyPinned. intros Hv. ok_step Hv. by bool_prop. Qed.

Lemma DependencyInventory_nonempty files ranged lockPath base out :
  DependencyInventory files ranged lockPath base = Ok out → 1 ≤ lenl out.
Proof.
  intros Hd. unfold DependencyInventory in Hd. do 5 ok_step Hd. apply (inj Ok) in Hd as <-. bool_prop.
  apply based_packages in E0 as [Ba _ _ _]. apply wheels_wheeled in E1 as [Wb _ _ _ _ _ _].
  destruct (runtimeInventory_Packages base) as [|p l]; [done|]. destruct (Ba p) as (n & _ & Hl); [by left|].
  destruct (Wb _ _ Hl) as (q & Hq & _). unfold lenl. rewrite length_map, (sort_keys_perm (map_to_list (is_packages r1))).
  apply elem_of_map_to_list in Hq. destruct (map_to_list (is_packages r1)); [by apply elem_of_nil in Hq|simpl; lia].
Qed.

(** A scan without an error. *)
Lemma Scan_ok config now files ranged m path disk disk' scan ref :
  Scan (Some config) now files ranged m path disk = (disk', scan, ref, Ok tt) →
  ∃ inventory packages sbom snapshot,
    scan_packages config files ranged m = Ok (inventory, packages, sbom) ∧ scan_snapshot config = Ok snapshot ∧
    disk' = <[path := sbom]> disk ∧ ref = mkObjectRef (DigestBytes sbom) (len sbom) "" ∧
    let separated := separatedToolchain config inventory && separated_toolchain m in
    (ScanAdvisoriesForDomains packages snapshot (UTC now) separated).2 = "pass" ∧
    scan = mkVulnerabilityScan (if separated then "offline-advisory-domains-v2" else AdvisoryPolicyVersion)
      (pinnedFile_Digest (config_AdvisorySnapshot config)) (pinnedFile_Digest (config_RuntimeInventory config))
      (DigestBytes sbom) (UTC now) (lenl packages) "pass" (ScanAdvisoriesForDomains packages snapshot (UTC now) separated).1.
Proof.
  unfold Scan. destruct (scan_packages config files ranged m) as [[[inventory packages] sbom]|]; [|intros Hs; by simplify_eq].
  destruct (OsFault "write" path); [intros Hs; by simplify_eq|]. destruct (scan_snapshot config) as [snapshot|]; [|intros Hs; by simplify_eq].
  intros Hs. apply pair_equal_spec in Hs as [Hs Hv]. apply pair_equal_spec in Hs as [Hs <-]. apply pair_equal_spec in Hs as [<- <-].
  exists inventory, packages, sbom, snapshot. destruct (String.eqb_spec
    (ScanAdvisoriesForDomains packages snapshot (UTC now) (separatedToolchain config inventory && separated_toolchain m)).2 "pass") as [Hp|]; [|done].
  cbn zeta. rewrite Hp. by repeat (split; [done|]).
Qed.

(** What the runner's scan passes, the service accepts: the scan is recent enough and
    complete, and none of its findings is refused; provided that a manifest that asks for
    the separated toolchain is one of the native profile. *)
Lemma passing_scan_accepted config now files ranged path disk disk' scan ref job b sbom :
  Scan (Some config) now files ranged (runnerJob_Manifest job) path disk = (disk', scan, ref, Ok tt) →
  runnerJob_AdvisorySnapshotDigest job = pinnedFile_Digest (config_AdvisorySnapshot config) →
  runnerJob_RuntimeInventoryDigest job = pinnedFile_Digest (config_RuntimeInventory config) →
  buildReport_VulnerabilityScan b = Some scan → buildReport_SBOM b = Some sbom → objectRef_Digest sbom = objectRef_Digest ref →
  After now (AddNs Now (5 * Minute)) = false → Before now (AddNs Now (- (7 * 24 * Hour))) = false →
  (separated_toolchain (runnerJob_Manifest job) = true → manifest_APIVersion (runnerJob_Manifest job) = ManifestV2 ∧
     validator_Profile (manifest_Validator (runnerJob_Manifest job)) = "native-evaluator-v2") →
  check_scan job b = Ok scan ∧
  for_each (check_finding scan (separated_toolchain (runnerJob_Manifest job))) (vulnerabilityScan_Findings scan) = Ok tt ∧
  ∃ text, disk' !! path = Some text ∧ vulnerabilityScan_SBOMDigest scan = DigestBytes text.
Proof.
  intros Hs Ha Hi Hb1 Hb2 Hd Ht1 Ht2 Hn.
  destruct (Scan_ok _ _ _ _ _ _ _ _ _ _ Hs) as (inventory & packages & text & snapshot & Hp & Hsn & -> & -> & Hpass & ->). clear Hs.
  set (separated := separatedToolchain config inventory && separated_toolchain (runnerJob_Manifest job)) in *.
  assert (separated = true → separated_toolchain (runnerJob_Manifest job) = true) as Hsep by by intros [_ ?]%andb_true_iff.
  assert (scan_policy job (if separated then "offline-advisory-domains-v2" else AdvisoryPolicyVersion) = true) as Hpol.
  { unfold scan_policy. destruct separated; [|done]. destruct (Hn (Hsep eq_refl)) as [-> ->]. by rewrite orb_true_r. }
  unfold scan_packages in Hp. do 4 ok_step Hp. ok_step Hp. apply (inj Ok) in Hp. simplify_eq.
  split; [|split].
  - unfold check_scan. rewrite Hb1, Hb2. cbn [vulnerabilityScan_Status vulnerabilityScan_PolicyVersion vulnerabilityScan_PackagesChecked
      vulnerabilityScan_AdvisorySnapshotDigest vulnerabilityScan_RuntimeInventoryDigest vulnerabilityScan_SBOMDigest vulnerabilityScan_ScannedAt].
    rewrite Hpol, Hd, Ha, Hi. cbn [objectRef_Digest]. rewrite !String.eqb_refl.
    unfold ReadRuntimeInventory in E. ok_step E.
    unfold scan_snapshot in Hsn. ok_step Hsn.
    repeat match goal with Hx : verifyPinned _ = Ok ?u |- _ => destruct u; apply verifyPinned_digest in Hx; rewrite Hx; clear Hx end.
    match goal with Hx : DependencyInventory _ _ _ _ = _ |- _ => apply DependencyInventory_nonempty in Hx end. destruct (Z.ltb_spec (lenl packages) 1); [lia|].
    unfold After, Before, UTC in *. cbn [t_ns] in *. by rewrite Ht1, Ht2.
  - apply for_each_ok. apply scan_findings_acceptable in Hpass. cbn [vulnerabilityScan_Findings]. eapply Forall_impl; [exact Hpass|].
    intros f [[Hf Hx]|[Hf Hx]]; unfold check_finding; rewrite Hf.
    + rewrite Hx, (Hsep Hx). done.
    + change (negb ("" ==s "")) with false. cbn iota. destruct (member _ ["high"; "critical"; "unknown"]) eqn:Hm; [|done].
      apply member_true in Hm. rewrite !elem_of_cons, elem_of_nil in Hm. rewrite !elem_of_cons, elem_of_nil in Hx.
      by destruct Hm as [Hm|[Hm|[Hm|[]]]], Hx as [Hx|[Hx|[Hx|[Hx|[]]]]]; rewrite Hm in Hx.
  - exists text. by rewrite lookup_insert_eq.
Qed.
End Accepted.
