(* ===== verification/Executor.v ===== *)
(** The isolated executor (runtime.go, assets.go, capabilities.go): the checks of the host
    and of a signed job, the verified download of its disks, the framed output of the guest,
    and the receipt of a run.

    The virtual machine, the object store and mksquashfs are parameters.  An operation of
    the operating system fails for its own reasons when [OsFault] says so. *)

From S2P Require Import Prelude Regex GoLib Numbers Types Scores Paths Measurement Evaluation Validate Sha256 GoJson.
From S2P Require Import Canonical Documents Results Artifacts Hidden Signatures Checkpoint History Preparation Snapshots Sources Host Wheels Inventory.
From Stdlib Require Import Ascii.
Open Scope Z_scope.

(** What a run of the jailed machine leaves: whether the process failed, whether the context
    was done, the writes to its console, its duration and the time it ended. *)
Record VmRun := mkVmRun {
  vm_failed : bool;
  vm_cancelled : bool;
  vm_written : list Bytes;
  vm_millis : Z;
  vm_finished : Time
}.

Class Machine := {
  ObjectGet : string → result (Z * (Bytes * option string));
  SquashFS (options : list string) (tree : Files) : result Bytes;
  Jail (args : list string) (root : Files) (assets : list AssetDisk) (deadline : Time) : VmRun
}.

(** * Console output *)

(** [boundedBuffer]: what is kept, and [overflow]. *)
Definition buffer_write (max : Z) (b : Bytes * bool) (p : Bytes) : Bytes * bool :=
  let remaining := max - len b.1 in
  if len p >? remaining then (b.1 +:+ string_of (take (Z.to_nat remaining) (list_of p)), true)
  else (b.1 +:+ p, b.2).
Definition buffered (max : Z) (writes : list Bytes) : Bytes * bool := foldl (buffer_write max) ("", false) writes.

Fixpoint take_while {A} (p : A → bool) (l : list A) : list A :=
  match l with [] => [] | x :: l => if p x then x :: take_while p l else [] end.

(** The tokens of [bufio.Scanner]: lines without their end and a carriage return before it,
    up to the first line that does not fit the buffer, and whether all did. *)
Definition drop_carriage (line : string) : string := TrimSuffix line (String "013" "").
Definition scan_lines (limit : Z) (output : Bytes) : list string * bool :=
  let lines := Split output "010" in
  let lines := if List.last lines "" ==s "" then removelast lines else lines in
  let fits := λ line, len line <? limit in
  (map drop_carriage (take_while fits lines), forallb fits lines).

(** The locals of the loop: [result], [outcome] and [frames]. *)
Record frame_state := mkFrameState { fr_result : Bytes; fr_outcome : string; fr_frames : Z }.

Definition result_frame (st : frame_state) (line : string) : result frame_state :=
  if negb (HasPrefix line "SL_RESULT ") then Ok st else
  match DecodeString (TrimPrefix line "SL_RESULT ") with
  | Some data =>
      if len data >? 65536 then Err "invalid guest frame" else
      Ok (mkFrameState data (fr_outcome st) (fr_frames st + 1))
  | None => Err "invalid guest frame"
  end.
Definition error_frame (st : frame_state) (line : string) : result frame_state :=
  if negb (HasPrefix line "SL_ERROR ") then Ok st else
  let outcome := TrimPrefix line "SL_ERROR " in
  if negb (member outcome ["resource_limit"; "challenge_fault"; "invalid_output"]) then Err "unknown guest error category" else
  Ok (mkFrameState (fr_result st) outcome (fr_frames st + 1)).
Definition frame_step (st : frame_state) (line : string) : result frame_state :=
  let line := TrimSpace line in
  let! st := result_frame st line in
  error_frame st line.

Definition parseGuestOutput (output : Bytes) : result (Bytes * string) :=
  let '(lines, complete) := scan_lines 100000 output in
  let! st := foldM frame_step (mkFrameState "" "" 0) lines in
  if negb complete || negb (fr_frames st =? 1) then Err "missing, multiple or oversized guest frames" else
  Ok (fr_result st, fr_outcome st).

(** * The host *)

Record Runtime `{Crypto} := mkRuntime {
  rt_Config : Config;
  rt_Keys : gmap string PublicKey;
  rt_Signer : option Signer;
  rt_KeyID : string;
  rt_localObjects : gmap string string;
  rt_EncryptionPrivateKey : Bytes;
  rt_suiteMaterial : option SuiteKeyMaterial
}.

Section Executor.
Context `{HostOS} `{Workspace} `{Machine} `{Crypto} `{!Pki} `{UnicodeLib} `{UrlLib} `{JsonCanonicalizer}.
Context `{Aead} `{Curve} `{JsonType SuiteKeyMaterial} `{JsonType RuntimeInventory} `{JsonType Config} `{JsonType HostAttestation}.
Context `{JsonType ExecutorCapabilities} `{JsonType RunnerJob} `{JsonType Manifest} `{JsonType ValidatorResult} `{JsonType RunReceipt}.
Context `{JsonType anyValue}.

Definition capability_disk_step (assets : list EvaluationAsset) (seen : gset string) (disk : AssetDisk) : result (gset string) :=
  if negb (existsb (λ a, bool_decide (assetDisk_Asset disk = a)
             && (pinnedFile_Digest (assetDisk_File disk) ==s evaluationAsset_Digest a)) assets)
     || bool_decide (evaluationAsset_Name (assetDisk_Asset disk) ∈ seen)
  then Err "asset disk is not uniquely bound to enrolled capabilities" else
  Ok ({[evaluationAsset_Name (assetDisk_Asset disk)]} ∪ seen).

Definition validateCapabilitiesBinding (c : Config) (a : HostAttestation) : result unit :=
  match config_Capabilities c, hostAttestation_Capabilities a with
  | None, None => Ok tt
  | Some configured, Some signed =>
      let! one := Digest configured in
      let! two := Digest signed or "configured capabilities differ from signed enrollment" in
      if one !=s two then Err "configured capabilities differ from signed enrollment" else
      if (executorCapabilities_RuntimeImageDigest configured !=s config_RuntimeImageDigest c)
         || (executorCapabilities_OS configured !=s "linux") || (executorCapabilities_Architecture configured !=s "amd64")
         || (executorCapabilities_Accelerator configured !=s "none")
      then Err "this Firecracker backend cannot implement the enrolled capabilities" else
      if negb (lenl (config_Assets c) =? lenl (executorCapabilities_Assets configured))
      then Err "asset inventory differs from signed capabilities" else
      let! _ := foldM (capability_disk_step (executorCapabilities_Assets configured)) ∅ (config_Assets c) in
      if lenl (config_Assets c) >? 0 then
        let! inventory := ReadRuntimeInventory (config_RuntimeInventory c) in
        validateAssetInventory c inventory
      else Ok tt
  | _, _ => Err "executor capabilities lack signed enrollment"
  end.

Definition matchConfiguredEvaluation (m : Manifest) (c : Config) : result unit :=
  match manifest_Evaluation m with
  | None => Ok tt
  | Some e =>
      match config_Capabilities c with
      | None => Err "v2 evaluation requires explicitly enrolled executor capabilities"
      | Some capabilities =>
          MatchExecutor e (manifest_Resources m) (validator_RuntimeImageDigest (manifest_Validator m)) capabilities
      end
  end.

(** The attestation authorizes this host and profile. *)
Definition attestation_authorizes (c : Config) (a : HostAttestation) : bool :=
  (hostAttestation_HostID a ==s config_HostID c) && (hostAttestation_HostGroup a ==s config_HostGroup c)
  && (hostAttestation_PhysicalHostID a !=s "") && hostAttestation_ExclusivePhysicalHost a
  && hostAttestation_EgressPolicyVerified a
  && (hostAttestation_ExecutionProfileDigest a ==s config_ExecutionProfileDigest c)
  && (hostAttestation_RunnerEpoch a ==s config_RunnerEpoch c).

Definition pinned_files (c : Config) : list PinnedFile :=
  [config_Kernel c; config_RootFS c; config_Firecracker c; config_Jailer c; config_MakeSquashFS c; config_CPUConfig c;
   config_RuntimeInventory c; config_AdvisorySnapshot c; config_AdvisoryKeys c].

Definition host_control (control : string * string) : result unit :=
  match ReadFile control.1 with
  | Ok data => if TrimSpace data ==s control.2 then Ok tt else Err "required host control missing"
  | Err _ => Err "required host control missing"
  end.
Definition swap_disabled : bool :=
  match ReadFile "/proc/swaps" with Ok swaps => lenl (Split (TrimSpace swaps) "010") =? 1 | Err _ => false end.

(** The configuration and its signed attestation. *)
Definition check_enrollment (now : Time) (c : Config) (keys : gmap string PublicKey) : result unit :=
  if (config_HostID c ==s "") || (config_HostGroup c ==s "") || (config_RunnerEpoch c ==s "")
     || negb (ValidDigest (config_ExecutionProfileDigest c)) || (config_UID c <? 10000) || (config_GID c <? 10000)
     || (config_CPUSet c ==s "")
  then Err "incomplete dedicated host profile" else
  if ContainsAny (config_CPUSet c) (" " +:+ String "010" (String "013" ";"))
     || ContainsAny (config_HostID c) ("/\" +:+ String "010" "")
  then Err "invalid host configuration" else
  let! payload := Verify (config_Attestation c) keys in
  let! attestation := DecodeStrict (A := HostAttestation) payload in
  if negb (attestation_authorizes c attestation) || negb (After (hostAttestation_ExpiresAt attestation) now)
  then Err "host inventory attestation does not authorize this profile" else
  let! _ := validateCapabilitiesBinding c attestation in
  let! binding := ConfigBindingDigest c or "host attestation does not bind the exact configured runtime" in
  if (binding !=s hostAttestation_ConfigDigest attestation) || negb (ValidDigest (config_RuntimeImageDigest c))
  then Err "host attestation does not bind the exact configured runtime" else Ok tt.

(** The controls of the host and its directories. *)
Definition check_controls (c : Config) : result unit :=
  let! _ := Stat "/dev/kvm" or "KVM device unavailable" in
  let! _ := for_each host_control [("/sys/devices/system/cpu/smt/active", "0"); ("/sys/kernel/mm/ksm/run", "0")] in
  if negb swap_disabled then Err "host swap must be disabled" else
  if negb (tmpfsPath (config_WorkRoot c)) then Err "runner work root must reside on tmpfs" else
  if negb (private_directory (config_WorkRoot c)) then Err "private mode 0700 work root required" else
  if negb (IsAbs (config_ResultSpool c)) || HasPrefix (config_ResultSpool c) (TrimSuffix (config_WorkRoot c) "/" +:+ "/")
     || (config_ResultSpool c ==s config_WorkRoot c)
  then Err "durable result spool must be outside ephemeral guest storage" else
  if negb (private_directory (config_ResultSpool c)) then Err "private durable result spool required" else
  if negb (IsAbs (config_NetworkNamespace c)) then Err "dedicated network namespace required" else
  let! _ := Stat (config_NetworkNamespace c) or "network namespace missing" in
  Ok tt.

Definition CheckHost (now : Time) (c : Config) (keys : gmap string PublicKey) : result unit :=
  if (GOOS !=s "linux") || (GOARCH !=s "amd64") || negb (Geteuid =? 0)
  then Err "official runtime requires root on dedicated Linux amd64" else
  let! _ := check_enrollment now c keys in
  let! _ := check_controls c in
  let! _ := for_each (λ file, let! _ := verifyPinned file in rootOwnedHierarchy (pinnedFile_Path file)) (pinned_files c) in
  for_each rootOwnedHierarchy [config_WorkRoot c; config_ResultSpool c; config_NetworkNamespace c].

(** * Asset disks *)

Definition other_read : Z := 4.
Definition any_write : Z := 146.

(** One configured disk for the wanted asset; the state is the disks selected for it. *)
Definition select_disk_step (wanted : EvaluationAsset) (found : list AssetDisk) (disk : AssetDisk) : result (list AssetDisk) :=
  if bool_decide (assetDisk_Asset disk ≠ wanted) then Ok found else
  let path := pinnedFile_Path (assetDisk_File disk) in
  if negb (lenl found =? 0) || (pinnedFile_Digest (assetDisk_File disk) !=s evaluationAsset_Digest wanted) || negb (IsAbs path)
  then Err "ambiguous or inconsistent asset pin" else
  let! _ := verifyPinned (assetDisk_File disk) in
  let! info := Lstat path or "asset requires exact-size read-only regular disk" in
  if negb (fi_IsRegular info) || negb (fi_Size info =? evaluationAsset_Size wanted) || has_bits info any_write
     || negb (has_bits info other_read)
  then Err "asset requires exact-size read-only regular disk" else
  let! _ := rootOwnedHierarchy path in
  Ok (found ++ [disk]).
Definition select_asset_step (c : Config) (selected : list AssetDisk) (wanted : EvaluationAsset) : result (list AssetDisk) :=
  let! found := foldM (select_disk_step wanted) [] (config_Assets c) in
  if lenl found =? 0 then Err "immutable asset is not provisioned" else Ok (selected ++ found).
Definition selectedAssetDisks (m : Manifest) (c : Config) : result (list AssetDisk) :=
  match manifest_Evaluation m with
  | None => Ok []
  | Some e =>
      if lenl (evaluationContract_Assets e) =? 0 then Ok [] else
      match config_Capabilities c with
      | None => Err "assets require enrolled capabilities"
      | Some _ => foldM (select_asset_step c) [] (evaluationContract_Assets e)
      end
  end.
Definition two_digits (i : nat) : string :=
  of_bytes [48 + Z.of_nat i / 10; 48 + Z.of_nat i mod 10].
Definition assetDiskFilename (i : nat) : string := "asset-" +:+ two_digits i +:+ ".squashfs".

(** * Jobs *)

Definition job_id_breaks : string := "./\" +:+ String "010" (String "013" " ").

Definition ValidateJob (now : Time) (job : RunnerJob) (c : Config) : result unit :=
  let m := runnerJob_Manifest job in
  if negb (ValidVerificationPolicy (JobVerificationPolicy job)) then Err "signed job must bind verification policy" else
  if (manifest_VerificationPolicy m !=s "") && (manifest_VerificationPolicy m !=s JobVerificationPolicy job)
  then Err "job policy differs from immutable manifest" else
  if (runnerJob_APIVersion job !=s APIVersion) || (runnerJob_Kind job !=s "ValidationJob") || (len (runnerJob_ID job) >? 80)
     || (runnerJob_ID job ==s "") || ContainsAny (runnerJob_ID job) job_id_breaks || negb (After (runnerJob_ExpiresAt job) now)
     || After (runnerJob_CreatedAt job) (AddNs now Minute)
     || (Sub (runnerJob_ExpiresAt job) now >? wrap64 (JobLeaseDuration m (runnerJob_Purpose job) + Minute))
  then Err "invalid or expired job" else
  if (runnerJob_Purpose job !=s "submission") && (runnerJob_Purpose job !=s "confirmation")
  then Err "this runtime only executes prebuilt competitive disks; quarantine preparation is separate" else
  if (runnerJob_ExecutionProfileDigest job !=s config_ExecutionProfileDigest c)
     || (runnerJob_RunnerEpoch job !=s config_RunnerEpoch c)
     || (runnerJob_RequiredHostGroup job !=s "") && (runnerJob_RequiredHostGroup job !=s config_HostGroup c)
     || (runnerJob_FencingToken job <? 1)
  then Err "job profile/epoch/host/fencing mismatch" else
  if validator_RuntimeImageDigest (manifest_Validator m) !=s config_RuntimeImageDigest c
  then Err "job runtime image does not match enrolled rootfs profile" else
  if match config_Capabilities c with Some cap => negb (MatchJobLease m (runnerJob_Purpose job) cap) | None => false end
  then Err "job exceeds enrolled authorization envelope" else
  let! _ := matchConfiguredEvaluation m c in
  if member (config_HostID c) (runnerJob_ExcludedHostIDs job) then Err "confirmation anti-affinity violation" else
  if negb (forallb ValidDigest [runnerJob_ChallengeLockDigest job; runnerJob_ArtifactDigest job; runnerJob_SuiteDigest job;
             runnerJob_ExecutionProfileDigest job; runnerJob_AcceptanceReceiptDigest job])
  then Err "job has invalid immutable digest" else
  ValidateManifest m.

(** ** Inputs *)

Definition hiddenMaterial (rt : Runtime) (job : RunnerJob) : result SuiteKeyMaterial :=
  let commitment := suite_Commitment (manifest_Suite (runnerJob_Manifest job)) in
  match rt_suiteMaterial rt with
  | Some material =>
      if suiteKeyMaterial_Commitment material !=s commitment then Err "private suite cache does not match lock" else Ok material
  | None =>
      match runnerJob_HiddenSuite job with
      | None => Err "hidden suite grant does not match manifest"
      | Some grant =>
          if hiddenSuiteGrant_Commitment grant !=s commitment then Err "hidden suite grant does not match manifest" else
          let! private := NewPrivateKey (rt_EncryptionPrivateKey rt) or "host hidden-suite decryption key unavailable" in
          if PublicOf private !=s config_EncryptionPublicKey (rt_Config rt)
          then Err "host encryption key differs from signed enrollment" else
          let! material := UnwrapSuiteKey (rt_EncryptionPrivateKey rt) (hiddenSuiteGrant_KeyCapsule grant)
            (HiddenSuiteContext (runnerJob_ID job) (hiddenSuiteGrant_Commitment grant)) in
          if suiteKeyMaterial_Commitment material !=s hiddenSuiteGrant_Commitment grant
          then Err "decrypted suite key has wrong commitment" else Ok material
      end
  end.

(** What the new private file holds; a failed download is removed. *)
Definition writeVerifiedObject (input : Bytes * option string) (ref : ObjectRef) (destination : string) : result Bytes :=
  if negb (ValidDigest (objectRef_Digest ref)) || (objectRef_Size ref <? 1) || (objectRef_Size ref >? Z.shiftl 1 40)
  then Err "invalid immutable object bounds" else
  match OsFault "create" destination with
  | Some e => Err e
  | None =>
      let! data := read_limited (objectRef_Size ref + 1) input in
      if negb (len data =? objectRef_Size ref) || (DigestBytes data !=s objectRef_Digest ref)
      then Err "object size/digest mismatch" else Ok data
  end.

(** [disk] holds the files of [localObjects]. *)
Definition fetch (rt : Runtime) (disk : Files) (ref : ObjectRef) (destination : string) : result Bytes :=
  match rt_localObjects rt !! objectRef_Digest ref with
  | Some filename =>
      match disk !! filename with
      | None => Err "no such file or directory"
      | Some data => writeVerifiedObject (data, None) ref destination
      end
  | None =>
      if negb (ValidDigest (objectRef_Digest ref)) || (objectRef_Size ref <? 1) || (objectRef_Size ref >? Z.shiftl 1 30)
      then Err "invalid exact-object grant" else
      let! u := UrlParse (objectRef_URL ref) or "object grants require HTTPS" in
      let '(scheme, _, user) := u in
      if (scheme !=s "https") || user then Err "object grants require HTTPS" else
      let! response := ObjectGet (objectRef_URL ref) in
      if negb (response.1 =? 200) then Err "object read rejected" else
      writeVerifiedObject response.2 ref destination
  end.

(** An operation that may be refused. *)
Definition os_do (operation path : string) : result unit :=
  match OsFault operation path with Some e => Err e | None => Ok tt end.

(** [copyFile] into a new file of the root. *)
Definition copyFile (source destination : string) : result Bytes :=
  let! data := ReadFile source in
  let! _ := os_do "create" destination in
  Ok data.

(** The suite's disk, decrypted when the suite is hidden. *)
Definition suite_disk (rt : Runtime) (job : RunnerJob) (filename : string) (fetched : Bytes) : result Bytes :=
  if suite_Visibility (manifest_Suite (runnerJob_Manifest job)) !=s "hidden" then Ok fetched else
  let! material := hiddenMaterial rt job in
  let! plaintext := DecryptSuiteObject material fetched "disk" in
  let! _ := os_do "write" filename in
  Ok plaintext.

(** The drives and the machine that firecracker.json configures. *)
Definition drive (id path : string) (root : bool) : anyValue :=
  AMap [("drive_id", AString id); ("path_on_host", AString path); ("is_root_device", ABool root); ("is_read_only", ABool true)].
Definition drives (assets : list AssetDisk) : list anyValue :=
  drive "rootfs" "/rootfs.ext4" true
  :: map (λ name, drive name ("/" +:+ name +:+ ".squashfs") false) ["validator"; "submission"; "suite"; "challenge"; "config"]
  ++ imap (λ i _, drive ("asset-" +:+ two_digits i) ("/" +:+ assetDiskFilename i) false) assets.
Definition machine_configuration (m : Manifest) (assets : list AssetDisk) (cpu : anyValue) : anyValue :=
  AMap [("boot-source", AMap [("kernel_image_path", AString "/vmlinux");
           ("boot_args", AString "console=ttyS0 reboot=k panic=1 pci=off root=/dev/vda ro init=/sbin/sl-init")]);
        ("drives", AList (drives assets));
        ("machine-config", AMap [("vcpu_count", AInt (resources_VCPU (manifest_Resources m)));
           ("mem_size_mib", AInt (resources_MemoryMB (manifest_Resources m))); ("smt", ABool false)]);
        ("network-interfaces", AList []); ("cpu-config", cpu)].

Definition jailer_args (c : Config) (job : RunnerJob) (lease : string) : list string :=
  let memory := wrap64 (wrap64 (wrap64 (resources_MemoryMB (manifest_Resources (runnerJob_Manifest job)) + 256) * 1024) * 1024) in
  ["--id"; runnerJob_ID job; "--exec-file"; pinnedFile_Path (config_Firecracker c); "--uid"; int_string (config_UID c);
   "--gid"; int_string (config_GID c); "--chroot-base-dir"; lease; "--netns"; config_NetworkNamespace c;
   "--cgroup-version"; "2"; "--cgroup"; "cpuset.cpus=" +:+ config_CPUSet c;
   "--cgroup"; "memory.max=" +:+ int_string memory; "--cgroup"; "pids.max=64";
   "--"; "--no-api"; "--config-file"; "/firecracker.json"].

(** * Running a job *)

Definition config_disk_options : list string :=
  ["-noappend"; "-all-root"; "-no-xattrs"; "-no-exports"; "-processors"; "1"; "-mkfs-time"; "0"; "-all-time"; "0"].

Definition run_root (rt : Runtime) (job : RunnerJob) (lease : string) : string :=
  lease +:+ "/" +:+ filepathBase (Clean (pinnedFile_Path (config_Firecracker (rt_Config rt)))) +:+ "/" +:+ runnerJob_ID job +:+ "/root".

(** The root of the jail, up to the launch: its files by name, and the asset disks. *)
Definition prepare_root (rt : Runtime) (disk : Files) (job : RunnerJob) (lease root : string) : result (Files * list AssetDisk) :=
  let c := rt_Config rt in
  let m := runnerJob_Manifest job in
  let file := λ name, root +:+ "/" +:+ name in
  let! _ := os_do "mkdirall" root in
  let! validator := fetch rt disk (runnerJob_ValidatorDisk job) (file "validator.squashfs") in
  let! submission := fetch rt disk (runnerJob_SubmissionDisk job) (file "submission.squashfs") in
  let! fetched := fetch rt disk (runnerJob_SuiteDisk job) (file "suite.squashfs") in
  let! challenge := fetch rt disk (runnerJob_ChallengeDisk job) (file "challenge.squashfs") in
  let! suite := suite_disk rt job (file "suite.squashfs") fetched in
  let! kernel := copyFile (pinnedFile_Path (config_Kernel c)) (file "vmlinux") in
  let! rootfs := copyFile (pinnedFile_Path (config_RootFS c)) (file "rootfs.ext4") in
  let! _ := os_do "mkdir" (lease +:+ "/job-config") in
  let! manifestJSON := Marshal m in
  let! _ := os_do "write" (lease +:+ "/job-config/manifest.json") in
  let! config := SquashFS config_disk_options {["manifest.json" := manifestJSON]} or "trusted job configuration disk failed" in
  let! assets := selectedAssetDisks m c in
  let! cpuBytes := ReadFile (pinnedFile_Path (config_CPUConfig c)) in
  let! cpu := DecodeStrict (A := anyValue) cpuBytes in
  if negb (match cpu with AMap _ | ANull => true | _ => false end) then Err "json: cannot unmarshal into a map" else
  let! _ := os_do "write" (file "firecracker.json") in
  let! _ := os_do "chown" root in
  let! _ := os_do "mount" root in
  Ok (list_to_map [("validator.squashfs", validator); ("submission.squashfs", submission); ("suite.squashfs", suite);
        ("challenge.squashfs", challenge); ("config.squashfs", config); ("vmlinux", kernel); ("rootfs.ext4", rootfs);
        ("firecracker.json", MarshalAny (machine_configuration m assets cpu))], assets).

(** The receipt before its outcome is known. *)
Definition fault_receipt (rt : Runtime) (job : RunnerJob) (vm : VmRun) : RunReceipt := {|
  runReceipt_ValidatorResult := None; runReceipt_ParentJobDigest := runnerJob_ParentJobDigest job;
  runReceipt_VerificationPolicy := runnerJob_VerificationPolicy job;
  runReceipt_AcceptanceReceiptDigest := runnerJob_AcceptanceReceiptDigest job;
  runReceipt_DeploymentMode := runnerJob_DeploymentMode job; runReceipt_OfficialAcceptance := runnerJob_OfficialAcceptance job;
  runReceipt_APIVersion := APIVersion; runReceipt_Kind := "ValidationRunReceipt"; runReceipt_ID := runnerJob_ID job +:+ "-run";
  runReceipt_CreatedAt := UTC (vm_finished vm); runReceipt_Producer := config_HostID (rt_Config rt);
  runReceipt_JobID := runnerJob_ID job; runReceipt_JobDigest := match Digest job with Ok d => d | Err _ => "" end;
  runReceipt_ChallengeLockDigest := runnerJob_ChallengeLockDigest job; runReceipt_ArtifactDigest := runnerJob_ArtifactDigest job;
  runReceipt_SuiteDigest := runnerJob_SuiteDigest job; runReceipt_ExecutionProfileDigest := runnerJob_ExecutionProfileDigest job;
  runReceipt_RunnerEpoch := runnerJob_RunnerEpoch job; runReceipt_FencingToken := runnerJob_FencingToken job;
  runReceipt_HostID := config_HostID (rt_Config rt); runReceipt_HostGroup := config_HostGroup (rt_Config rt);
  runReceipt_Official := true; runReceipt_Outcome := "infrastructure_fault"; runReceipt_ScoreTicks := "";
  runReceipt_Gates := ∅; runReceipt_DurationMillis := vm_millis vm; runReceipt_CleanupAttested := true;
  runReceipt_BuildReport := None |}.

Definition receipt_outcome (outcome ticks : string) (gates : gmap string bool) (typed : option ValidatorResult) (r : RunReceipt)
    : RunReceipt := {|
  runReceipt_ValidatorResult := typed; runReceipt_ParentJobDigest := runReceipt_ParentJobDigest r;
  runReceipt_VerificationPolicy := runReceipt_VerificationPolicy r;
  runReceipt_AcceptanceReceiptDigest := runReceipt_AcceptanceReceiptDigest r;
  runReceipt_DeploymentMode := runReceipt_DeploymentMode r; runReceipt_OfficialAcceptance := runReceipt_OfficialAcceptance r;
  runReceipt_APIVersion := runReceipt_APIVersion r; runReceipt_Kind := runReceipt_Kind r; runReceipt_ID := runReceipt_ID r;
  runReceipt_CreatedAt := runReceipt_CreatedAt r; runReceipt_Producer := runReceipt_Producer r;
  runReceipt_JobID := runReceipt_JobID r; runReceipt_JobDigest := runReceipt_JobDigest r;
  runReceipt_ChallengeLockDigest := runReceipt_ChallengeLockDigest r; runReceipt_ArtifactDigest := runReceipt_ArtifactDigest r;
  runReceipt_SuiteDigest := runReceipt_SuiteDigest r; runReceipt_ExecutionProfileDigest := runReceipt_ExecutionProfileDigest r;
  runReceipt_RunnerEpoch := runReceipt_RunnerEpoch r; runReceipt_FencingToken := runReceipt_FencingToken r;
  runReceipt_HostID := runReceipt_HostID r; runReceipt_HostGroup := runReceipt_HostGroup r;
  runReceipt_Official := runReceipt_Official r; runReceipt_Outcome := outcome; runReceipt_ScoreTicks := ticks;
  runReceipt_Gates := gates; runReceipt_DurationMillis := runReceipt_DurationMillis r;
  runReceipt_CleanupAttested := runReceipt_CleanupAttested r; runReceipt_BuildReport := runReceipt_BuildReport r |}.

(** The outcome of a machine that stopped by itself. *)
Definition guest_outcome (m : Manifest) (output : Bytes) (r : RunReceipt) : RunReceipt :=
  match parseGuestOutput output with
  | Err _ => receipt_outcome "invalid_output" "" ∅ None r
  | Ok (resultBytes, guestOutcome) =>
      if guestOutcome !=s "" then receipt_outcome guestOutcome "" ∅ None r else
      match ValidateResult resultBytes m with
      | Err _ => receipt_outcome "invalid_output" "" ∅ None r
      | Ok (result, ticks) =>
          receipt_outcome (if some_gate_failed (validatorResult_Gates result) then "hard_gate_failed" else ValidatorOutcome result)
            ticks (validatorResult_Gates result) (if manifest_APIVersion m ==s ManifestV2 then Some result else None) r
      end
  end.
Definition run_receipt (rt : Runtime) (job : RunnerJob) (vm : VmRun) : RunReceipt :=
  let output := buffered (128 * 1024) (vm_written vm) in
  let r := fault_receipt rt job vm in
  if vm_cancelled vm || Contains output.1 "SL_BOOT_ERROR:" || vm_failed vm || output.2 then r
  else guest_outcome (runnerJob_Manifest job) output.1 r.

(** Teardown, then the signature. *)
Definition finish_run (rt : Runtime) (job : RunnerJob) (lease root : string) (vm : VmRun) : result Envelope :=
  let! _ := os_do "unmount" root or "immutable asset teardown failed" in
  let! _ := os_do "removeall" lease or "ephemeral teardown failed; host must be quarantined" in
  Sign (rt_KeyID rt) (rt_Signer rt) (run_receipt rt job vm).

Definition execute (rt : Runtime) (disk : Files) (now deadline : Time) (job : RunnerJob) (lease : string) : result Envelope :=
  let root := run_root rt job lease in
  let! prepared := prepare_root rt disk job lease root in
  let limit := AddNs now (wrap64 (wrap64 (resources_TimeoutSeconds (manifest_Resources (runnerJob_Manifest job)) + 60) * Second)) in
  let vm := Jail (jailer_args (rt_Config rt) job lease) prepared.1 prepared.2 (if Before limit deadline then limit else deadline) in
  finish_run rt job lease root vm.

(** [active] says whether the directory of a run exists: it is made atomically, and
    removed when the function returns, unless that is refused. *)
Definition runJob (rt : Runtime) (disk : Files) (now deadline : Time) (active : bool) (job : RunnerJob) : bool * result Envelope :=
  let lease := Clean (config_WorkRoot (rt_Config rt) +:+ "/active") in
  if active then (active, Err "host is busy or requires stale-run recovery") else
  match OsFault "mkdir" lease with
  | Some _ => (active, Err "host is busy or requires stale-run recovery")
  | None =>
      (match OsFault "removeall" lease with Some _ => true | None => false end, execute rt disk now deadline job lease)
  end.

(** [Run]: the envelope is the claimed job's. *)
Definition open_job (rt : Runtime) (now : Time) (envelope : Envelope) : result RunnerJob :=
  let! _ := CheckHost now (rt_Config rt) (rt_Keys rt) in
  match rt_Signer rt with
  | None => Err "certified host signer required"
  | Some _ =>
      let! payload := Verify envelope (rt_Keys rt) in
      DecodeStrict payload
  end.
Definition Run (rt : Runtime) (now : Time) (active : bool) (envelope : Envelope) : bool * result Envelope :=
  match (let! job := open_job rt now envelope in
         let! _ := ValidateJob now job (rt_Config rt) in Ok job) with
  | Err e => (active, Err e)
  | Ok job => runJob rt ∅ now (runnerJob_ExpiresAt job) active job
  end.
End Executor.

Example scan_three : scan_lines 5 ("ab" +:+ String "013" (String "010" ("cde" +:+ String "010" "abcdef"))) = (["ab"; "cde"], false).
Proof. vm_compute. reflexivity. Qed.
Example frame_error : parseGuestOutput ("boot" +:+ String "010" ("SL_ERROR resource_limit" +:+ String "010" "")) = Ok ("", "resource_limit").
Proof. vm_compute. reflexivity. Qed.
Example frame_value : parseGuestOutput ("SL_RESULT e30=" +:+ String "013" (String "010" "")) = Ok ("{}", "").
Proof. vm_compute. reflexivity. Qed.
Example frame_twice : is_err (parseGuestOutput ("SL_RESULT e30=" +:+ String "010" "SL_ERROR resource_limit")) = true.
Proof. vm_compute. reflexivity. Qed.
