(* ===== verification/ExecutorProofs.v ===== *)
(** The executor: what it launches are exactly the signed inputs, the result a guest frames
    is the one that is read, at most one run is active, and the service accepts the receipt
    of every run it leased. *)

From S2P Require Import Prelude Regex GoLib Numbers Types Scores Paths Measurement Evaluation Validate Sha256 GoJson.
From S2P Require Import Canonical Documents Results Artifacts Hidden Signatures Checkpoint History Store Adjudication Platform Preparation.
From S2P Require Import Suites Runners Snapshots Sources Host Wheels Inventory Executor EvaluationProofs ResultsProofs.
From Stdlib Require Import Ascii QArith.
Open Scope Z_scope.

(** * Outcomes *)

Section Outcomes.
Context `{Crypto} `{UnicodeLib} `{JsonCanonicalizer} `{JsonType ValidatorResult} `{JsonType RunnerJob}.

(** A receipt of the run before its outcome, and its outcome. *)
Record concluded (base r : RunReceipt) : Prop := {
  cl_bindings job d : run_bindings job d r = run_bindings job d base;
  cl_host : runReceipt_HostID r = runReceipt_HostID base;
  cl_fence : runReceipt_FencingToken r = runReceipt_FencingToken base;
  cl_job : runReceipt_JobID r = runReceipt_JobID base
}.

Lemma concluded_outcome o t g v base : concluded base (receipt_outcome o t g v base).
Proof. by split. Qed.

(** What the receipt of a run says, by the machine's run. *)
Inductive outcome_of (m : Manifest) : RunReceipt → Prop :=
| fault_outcome r : runReceipt_Outcome r = "infrastructure_fault" → outcome_of m r
| guest_failure r : runReceipt_Outcome r ∈ ["resource_limit"; "challenge_fault"; "invalid_output"] →
    runReceipt_ValidatorResult r = None → outcome_of m r
| guest_value r data res ticks : ValidateResult data m = Ok (res, ticks) → runReceipt_Outcome r = ValidatorOutcome res →
    runReceipt_ScoreTicks r = ticks → runReceipt_Gates r = validatorResult_Gates res →
    runReceipt_ValidatorResult r = (if manifest_APIVersion m ==s ManifestV2 then Some res else None) → outcome_of m r.

Lemma ValidatorOutcome_gates res : (if some_gate_failed (validatorResult_Gates res) then "hard_gate_failed" else ValidatorOutcome res) = ValidatorOutcome res.
Proof. unfold ValidatorOutcome, some_gate_failed. by destruct (existsb _ _). Qed.
Lemma ValidatorOutcome_cases res : ValidatorOutcome res ∈ ["valid"; "hard_gate_failed"; "measurement_inconclusive"].
Proof.
  unfold ValidatorOutcome. destruct (existsb _ _); [right; left|]. destruct (validatorResult_Timing res); [|left].
  destruct (_ ==s _); [right; right; left|left].
Qed.

Lemma frame_step_outcome st line st' : frame_step st line = Ok st' →
  fr_outcome st ∈ [""; "resource_limit"; "challenge_fault"; "invalid_output"] →
  fr_outcome st' ∈ [""; "resource_limit"; "challenge_fault"; "invalid_output"].
Proof.
  unfold frame_step. intros Hs Ho. ok_step Hs. assert (fr_outcome r = fr_outcome st) as Hr.
  { unfold result_frame in E. case_match; [by apply (inj Ok) in E as <-|]. ok_steps E. by apply (inj Ok) in E as <-. }
  unfold error_frame in Hs. case_match; [by apply (inj Ok) in Hs as <-; rewrite Hr|]. ok_step Hs. apply (inj Ok) in Hs as <-.
  apply negb_false_iff, member_true in G. by right.
Qed.

Lemma parseGuestOutput_outcome output data outcome : parseGuestOutput output = Ok (data, outcome) →
  outcome ∈ [""; "resource_limit"; "challenge_fault"; "invalid_output"].
Proof.
  unfold parseGuestOutput. destruct (scan_lines _ _) as [lines complete]. intros Hp. do 2 ok_step Hp.
  apply (inj Ok), pair_equal_spec in Hp as [_ <-]. refine (foldM_ind frame_step (λ st, fr_outcome st ∈ [""; "resource_limit"; "challenge_fault"; "invalid_output"]) _ _ _ _ _ E);
    [|left].
  intros st x st' _ Hf Hs. by eapply frame_step_outcome.
Qed.

Lemma run_receipt_outcome rt job vm : outcome_of (runnerJob_Manifest job) (run_receipt rt job vm).
Proof.
  unfold run_receipt. case_match; [by apply fault_outcome|]. unfold guest_outcome.
  assert (∀ t g r, outcome_of (runnerJob_Manifest job) (receipt_outcome "invalid_output" t g None r)) as Hinv.
  { intros. apply guest_failure; [right; right; left|done]. }
  destruct (parseGuestOutput _) as [[data outcome]|] eqn:Hp; [|by apply Hinv].
  apply parseGuestOutput_outcome in Hp. destruct (String.eqb_spec outcome ""); cbn [negb].
  - destruct (ValidateResult data _) as [[res ticks]|] eqn:Hv; [|by apply Hinv]. eapply guest_value; [exact Hv|..]; try done.
    apply ValidatorOutcome_gates.
  - apply guest_failure; [|done]. apply elem_of_cons in Hp as [|Hp]; [done|exact Hp].
Qed.

Lemma run_receipt_shape rt job vm : ∃ outcome ticks gates typed,
  run_receipt rt job vm = receipt_outcome outcome ticks gates typed (fault_receipt rt job vm).
Proof. unfold run_receipt, guest_outcome. repeat case_match; eexists _, _, _, _; reflexivity. Qed.
Lemma run_receipt_concluded rt job vm : concluded (fault_receipt rt job vm) (run_receipt rt job vm).
Proof. destruct (run_receipt_shape rt job vm) as (outcome & ticks & gates & typed & ->). apply concluded_outcome. Qed.
End Outcomes.

(** * The service accepts the receipts of its runs *)

Lemma crosses_max x y : y ≤ x → crosses (int_string x) (int_string y) "maximize" = true.
Proof. intros Hx. unfold crosses. rewrite !bigint_of_int_string. unfold Cmp. cbn. destruct (Z.compare_spec x y); (done || lia). Qed.
Lemma crosses_min x y : x ≤ y → crosses (int_string x) (int_string y) "minimize" = true.
Proof. intros Hx. unfold crosses. rewrite !bigint_of_int_string. unfold Cmp. cbn. destruct (Z.compare_spec x y); (done || lia). Qed.

(** Normal ticks pass the score check of the service. *)
Lemma normal_ticks_checked v m run : normalizeRationalScore v (manifest_Metric m) = Ok (runReceipt_ScoreTicks run) →
  check_score m run = Ok tt.
Proof.
  intros Hn. apply normalizeRationalScore_ok in Hn as (q & z & _ & _ & _ & _ & Ht & Hlo & Hhi). unfold check_score.
  unfold CompareTicks. rewrite Ht. cbn iota beta. pose proof (proj1 (ParseTicks_ok _ _) Ht) as [-> _].
  assert ((metric_DomainMinTicks (manifest_Metric m) !=s "")
    && negb (crosses (int_string z) (metric_DomainMinTicks (manifest_Metric m)) "maximize") = false) as ->.
  { destruct Hlo as [->|(lo & Hl & ?)]; [done|]. apply ParseTicks_ok in Hl as [-> _]. by rewrite crosses_max, andb_false_r. }
  assert ((metric_DomainMaxTicks (manifest_Metric m) !=s "")
    && negb (crosses (int_string z) (metric_DomainMaxTicks (manifest_Metric m)) "minimize") = false) as ->; [|done].
  destruct Hhi as [->|(hi & Hh & ?)]; [done|]. apply ParseTicks_ok in Hh as [-> _]. by rewrite crosses_min, andb_false_r by lia.
Qed.

Section Accepted.
Context `{Env} `{Crypto} `{!Pki} `{UnicodeLib} `{JsonCanonicalizer} `{JsonType Manifest} `{JsonType ValidatorResult}.
Context `{JsonType RunnerJob} `{JsonType RunReceipt}.

Lemma result_ticks_checked res ticks m run : result_ticks res m = Ok ticks → runReceipt_ScoreTicks run = ticks →
  check_score m run = Ok tt.
Proof.
  unfold result_ticks. intros Hr <-. destruct (manifest_Evaluation m) as [e|].
  - do 2 ok_step Hr. ok_step Hr. by eapply normal_ticks_checked.
  - unfold NormalizeScore in Hr. ok_step Hr. by eapply normal_ticks_checked.
Qed.

(** The gates of a valid result are the locked ones, and pass. *)
Lemma valid_gates_pass res m : check_result_gates res m = Ok tt → some_gate_failed (validatorResult_Gates res) = false →
  gates_pass (validatorResult_Gates res) m = true.
Proof.
  unfold check_result_gates, gates_pass. intros Hg Hf. ok_step Hg. bool_prop. rewrite (proj2 (Z.eqb_eq _ _)) by done. cbn [andb].
  apply forallb_forall. intros g Hin%list_elem_of_In. apply for_each_ok in Hg. rewrite Forall_forall in Hg. specialize (Hg g Hin).
  cbv beta in Hg. destruct (validatorResult_Gates res !! g) as [b|] eqn:Hb; [|done]. cbn [default from_option id].
  destruct b; [done|]. exfalso. unfold some_gate_failed in Hf. assert (existsb (λ '(_, value), negb value)
    (map_to_list (validatorResult_Gates res)) = true); [|congruence].
  apply existsb_exists. exists (g, false). split; [|done]. by apply list_elem_of_In, elem_of_map_to_list.
Qed.

Lemma same_gates_refl g : same_gates g g = true.
Proof.
  unfold same_gates. apply forallb_forall. intros [k b] Hk%list_elem_of_In%elem_of_map_to_list. by apply bool_decide_eq_true_2.
Qed.

(** What Marshal prints of a typed result reads back as it, within the limit. *)
Definition reads_back (res : ValidatorResult) : Prop :=
  ∃ data, Marshal res = Ok data ∧ len data ≤ 65536 ∧ DecodeStrict data = Ok res.

Lemma reads_back_validates res data ticks m : ValidateResult data m = Ok (res, ticks) → reads_back res →
  ∃ data', Marshal res = Ok data' ∧ ValidateResult data' m = Ok (res, ticks).
Proof.
  intros Hv (data' & Hm & Hl & Hd). exists data'. split; [done|]. unfold ValidateResult in *. ok_step Hv. ok_step Hv. bool_prop.
  rewrite Z.gtb_ltb, (proj2 (Z.ltb_ge _ _)) by lia. rewrite Hd.
  assert (r = res) as -> by (do 5 ok_step Hv; by apply (inj Ok), pair_equal_spec in Hv as [-> _]). exact Hv.
Qed.

Lemma valid_outcome res : ValidatorOutcome res = "valid" → some_gate_failed (validatorResult_Gates res) = false.
Proof. unfold ValidatorOutcome, some_gate_failed. by destruct (existsb _ _). Qed.
Lemma gate_failed_outcome res : some_gate_failed (validatorResult_Gates res) = (ValidatorOutcome res ==s "hard_gate_failed").
Proof.
  unfold ValidatorOutcome, some_gate_failed. destruct (existsb _ _); [done|]. destruct (validatorResult_Timing res); [|done].
  by destruct (timingSummary_Outcome _ ==s _).
Qed.

(** A receipt of a run that was no fault carries the evidence that the service asks for. *)
Lemma outcome_evidence m run : outcome_of m run →
  (∀ data res ticks, ValidateResult data m = Ok (res, ticks) → reads_back res) →
  runReceipt_Outcome run = "infrastructure_fault" ∨
  member (runReceipt_Outcome run) terminal_outcomes = true ∧ ValidateRunMeasurementEvidence run m = Ok tt ∧
  (runReceipt_Outcome run = "valid" → gates_pass (runReceipt_Gates run) m = true ∧ check_score m run = Ok tt).
Proof.
  intros [r Hr|r Ho Hv|r data res ticks Hv Ho Ht Hg Hty] Hcodec; [by left| |]; right.
  - assert (runReceipt_Outcome r ∈ terminal_outcomes ∧ runReceipt_Outcome r ∉ ["valid"; "hard_gate_failed"; "measurement_inconclusive"]) as [Hm Hn].
    { rewrite !elem_of_cons, elem_of_nil in Ho. destruct Ho as [->|[->|[->|[]]]];
        (split; [by apply member_true|by intros Hx%member_true]). }
    apply member_true in Hm. rewrite Hm. assert (runReceipt_Outcome r ==s "valid" = false) as Hnv.
    { apply String.eqb_neq. intros Hx. apply Hn. rewrite Hx. left. }
    split; [done|]. split; [|intros Hx; apply String.eqb_neq in Hnv; congruence].
    unfold ValidateRunMeasurementEvidence. rewrite Hv, Hnv. cbn [negb andb].
    destruct (manifest_APIVersion _ ==s ManifestV2); cbn [negb]; [|by rewrite bool_decide_eq_false_2 by by intros []].
    assert (runReceipt_Outcome r ==s "hard_gate_failed" = false) as -> by (apply String.eqb_neq; intros Hx; apply Hn; rewrite Hx; right; left).
    assert (runReceipt_Outcome r ==s "measurement_inconclusive" = false) as -> by (apply String.eqb_neq; intros Hx; apply Hn; rewrite Hx; do 2 right; left).
    done.
  - pose proof (ValidateResult_inv _ _ _ _ Hv) as (_ & _ & _ & _ & _ & Hgates & Hticks). split; [|split].
    + rewrite Ho. pose proof (ValidatorOutcome_cases res) as Hc. rewrite !elem_of_cons, elem_of_nil in Hc.
      by destruct Hc as [->|[->|[->|[]]]].
    + unfold ValidateRunMeasurementEvidence. rewrite Hty. destruct (manifest_APIVersion _ ==s ManifestV2); cbn [negb];
        [|by rewrite bool_decide_eq_false_2 by by intros []].
      case_match; [done|]. destruct (reads_back_validates _ _ _ _ Hv (Hcodec _ _ _ Hv)) as (data' & -> & ->).
      rewrite Ht, Hg, String.eqb_refl, Z.eqb_refl, same_gates_refl, Ho, gate_failed_outcome, eqb_reflx, String.eqb_refl. done.
    + intros Hval. split; [|by eapply result_ticks_checked]. rewrite Hg. apply valid_gates_pass; [done|]. apply valid_outcome. congruence.
Qed.

(** A receipt of a run that was no fault passes the checks before it is stored. *)
Lemma outcome_checked job run host :
  isBuild job = false → outcome_of (runnerJob_Manifest job) run →
  (∀ data res ticks, ValidateResult data (runnerJob_Manifest job) = Ok (res, ticks) → reads_back res) →
  runReceipt_Outcome run = "infrastructure_fault" ∨ check_run job run host = Ok tt.
Proof.
  intros Hb Ho Hcodec. destruct (outcome_evidence _ _ Ho Hcodec) as [|(Hm & He & Hval)]; [by left|]. right.
  unfold check_run. rewrite Hb, Hm, He. cbn [andb negb]. destruct (String.eqb_spec (runReceipt_Outcome run) "valid") as [Hx|]; [|done].
  cbn [andb]. by destruct (Hval Hx) as [-> ->].
Qed.

End Accepted.

(** * Inputs *)

Section Inputs.
Context `{HostOS} `{Workspace} `{Machine} `{Crypto} `{!Pki} `{UnicodeLib} `{UrlLib} `{JsonCanonicalizer}.
Context `{Aead} `{Curve} `{JsonType SuiteKeyMaterial} `{JsonType RuntimeInventory} `{JsonType Config} `{JsonType HostAttestation}.
Context `{JsonType ExecutorCapabilities} `{JsonType RunnerJob} `{JsonType Manifest} `{JsonType ValidatorResult} `{JsonType RunReceipt}.
Context `{JsonType anyValue}.

(** The bytes a reference names. *)
Record names_object (ref : ObjectRef) (data : Bytes) : Prop := {
  no_digest : DigestBytes data = objectRef_Digest ref;
  no_size : len data = objectRef_Size ref
}.

Lemma writeVerifiedObject_exact input ref destination data : writeVerifiedObject input ref destination = Ok data → names_object ref data.
Proof. unfold writeVerifiedObject. intros Hw. ok_step Hw. case_match; [done|]. do 2 ok_step Hw. apply (inj Ok) in Hw as <-. by bool_prop. Qed.

Lemma fetch_exact rt disk ref destination data : fetch rt disk ref destination = Ok data → names_object ref data.
Proof.
  unfold fetch. case_match; [case_match; [|done]; apply writeVerifiedObject_exact|]. intros Hf. do 2 ok_step Hf.
  destruct r as [[scheme host] user]. do 3 ok_step Hf. by eapply writeVerifiedObject_exact.
Qed.

Lemma verifyPinned_exact file : verifyPinned file = Ok tt → ∃ data, ReadFile (pinnedFile_Path file) = Ok data ∧ DigestBytes data = pinnedFile_Digest file.
Proof. unfold verifyPinned. intros Hv. do 5 ok_step Hv. bool_prop. by exists r0. Qed.

Lemma copyFile_pinned file destination data : verifyPinned file = Ok tt → copyFile (pinnedFile_Path file) destination = Ok data →
  DigestBytes data = pinnedFile_Digest file.
Proof. intros (d & Hd & Hx)%verifyPinned_exact. unfold copyFile. rewrite Hd. intros Hc. ok_step Hc. by apply (inj Ok) in Hc as <-. Qed.

Lemma CheckHost_pinned now c keys file : CheckHost now c keys = Ok tt → file ∈ pinned_files c →
  verifyPinned file = Ok tt ∧ rootOwnedHierarchy (pinnedFile_Path file) = Ok tt.
Proof.
  unfold CheckHost. intros Hc Hf. do 4 ok_step Hc. destruct r1. apply for_each_ok in E1. rewrite Forall_forall in E1.
  specialize (E1 file Hf). cbv beta in E1. ok_step E1. by destruct r1.
Qed.

(** The suite the guest sees: the fetched disk, or what the suite's key opens of it. *)
Definition suite_of (rt : Runtime) (job : RunnerJob) (fetched suite : Bytes) : Prop :=
  let s := manifest_Suite (runnerJob_Manifest job) in
  if suite_Visibility s ==s "hidden"
  then ∃ material, hiddenMaterial rt job = Ok material ∧ suiteKeyMaterial_Commitment material = suite_Commitment s ∧
         DecryptSuiteObject material fetched "disk" = Ok suite
  else suite = fetched.

Lemma hiddenMaterial_commitment rt job material : hiddenMaterial rt job = Ok material →
  suiteKeyMaterial_Commitment material = suite_Commitment (manifest_Suite (runnerJob_Manifest job)).
Proof.
  unfold hiddenMaterial. destruct (rt_suiteMaterial rt) as [cached|].
  - intros Hm. ok_step Hm. apply (inj Ok) in Hm as <-. by bool_prop.
  - destruct (runnerJob_HiddenSuite job) as [grant|]; [|done]. intros Hm. do 5 ok_step Hm. apply (inj Ok) in Hm as <-. bool_prop. congruence.
Qed.

Lemma suite_disk_of rt job filename fetched suite : suite_disk rt job filename fetched = Ok suite → suite_of rt job fetched suite.
Proof.
  unfold suite_disk, suite_of. destruct (_ ==s "hidden"); cbn [negb]; [|by intros Hs; apply (inj Ok) in Hs].
  intros Hs. do 3 ok_step Hs. apply (inj Ok) in Hs as <-. exists r. split; [done|]. split; [by eapply hiddenMaterial_commitment|done].
Qed.

(** ** Asset disks *)

(** A disk that holds the wanted asset: its bytes have the asset's digest, and nobody can
    write them. *)
Record holds_asset (wanted : EvaluationAsset) (disk : AssetDisk) : Prop := {
  ha_asset : assetDisk_Asset disk = wanted;
  ha_bytes : ∃ data, ReadFile (pinnedFile_Path (assetDisk_File disk)) = Ok data ∧ DigestBytes data = evaluationAsset_Digest wanted;
  ha_regular : ∃ info, Lstat (pinnedFile_Path (assetDisk_File disk)) = Ok info ∧ fi_IsRegular info = true ∧
    fi_Size info = evaluationAsset_Size wanted ∧ has_bits info any_write = false;
  ha_protected : rootOwnedHierarchy (pinnedFile_Path (assetDisk_File disk)) = Ok tt
}.

Lemma select_disk_step_holds wanted found disk found' : select_disk_step wanted found disk = Ok found' →
  (∀ d, found = [d] → holds_asset wanted d) → (length found ≤ 1)%nat → (∀ d, found' = [d] → holds_asset wanted d) ∧ (length found' ≤ 1)%nat.
Proof.
  unfold select_disk_step. intros Hs Hf Hl. case_match; [by apply (inj Ok) in Hs as <-|]. do 5 ok_step Hs. apply (inj Ok) in Hs as <-.
  bool_prop. destruct found; [|simpl in *; unfold lenl in *; simpl in *; lia]. split; [|simpl; lia].
  intros d Hd. simpl in Hd. apply (inj2 cons) in Hd as [<- _]. destruct r, r1.
  destruct (verifyPinned_exact _ E) as (data & Hr & Hx). split; [|exists data; split; congruence|by exists r0|done].
  by destruct (decide (assetDisk_Asset disk = wanted)).
Qed.

Lemma selectedAssetDisks_holds m c assets e : manifest_Evaluation m = Some e → selectedAssetDisks m c = Ok assets →
  Forall2 holds_asset (evaluationContract_Assets e) assets.
Proof.
  intros He. unfold selectedAssetDisks. rewrite He. destruct (evaluationContract_Assets e) as [|a l] eqn:El.
  { cbn. intros Ha. by apply (inj Ok) in Ha as <-. }
  destruct (lenl (a :: l) =? 0) eqn:Hz; [unfold lenl in Hz; simpl in Hz; lia|]. destruct (config_Capabilities c); [|done].
  intros Ha. enough (∀ l acc assets, foldM (select_asset_step c) acc l = Ok assets → ∃ more, assets = acc ++ more ∧ Forall2 holds_asset l more) as Hgen.
  { destruct (Hgen _ _ _ Ha) as (more & -> & Hx). exact Hx. }
  clear. induction l as [|a l IH]; intros acc assets Hf; simpl in Hf.
  { apply (inj Ok) in Hf as <-. exists []. by rewrite app_nil_r. }
  destruct (select_asset_step c acc a) as [acc'|] eqn:Hs; [|done]. unfold select_asset_step in Hs. do 2 ok_step Hs.
  apply (inj Ok) in Hs as <-. destruct (IH _ _ Hf) as (more & -> & Hm). exists (r ++ more). rewrite app_assoc. split; [done|].
  assert ((∀ d, r = [d] → holds_asset a d) ∧ (length r ≤ 1)%nat) as [Hh Hl].
  { refine (foldM_ind (select_disk_step a) (λ found, (∀ d, found = [d] → holds_asset a d) ∧ (length found ≤ 1)%nat) _ _ _ _ _ E).
    - intros st x st' _ [? ?] Hst. by eapply select_disk_step_holds.
    - split; [done|simpl; lia]. }
  destruct r as [|d [|? ?]]; [done| |simpl in Hl; lia]. simpl. constructor; [by apply Hh|done].
Qed.

(** C13: What a run launches is exactly what was signed and pinned: on a checked host, the
    validator, submission and challenge disks are the objects the job names, byte for byte;
    so is the fetched suite, which a hidden suite's key, bound to the commitment of the
    locked manifest, opens; the kernel and root file system have their pinned digests; and
    for every asset of the contract, in order, one protected read-only disk with the
    asset's digest and size. *)
Theorem launched_inputs_exact now rt disk job lease root files assets :
  CheckHost now (rt_Config rt) (rt_Keys rt) = Ok tt → prepare_root rt disk job lease root = Ok (files, assets) →
  ∃ validator submission fetched suite challenge kernel rootfs,
    files !! "validator.squashfs" = Some validator ∧ names_object (runnerJob_ValidatorDisk job) validator ∧
    files !! "submission.squashfs" = Some submission ∧ names_object (runnerJob_SubmissionDisk job) submission ∧
    files !! "challenge.squashfs" = Some challenge ∧ names_object (runnerJob_ChallengeDisk job) challenge ∧
    files !! "suite.squashfs" = Some suite ∧ names_object (runnerJob_SuiteDisk job) fetched ∧ suite_of rt job fetched suite ∧
    files !! "vmlinux" = Some kernel ∧ DigestBytes kernel = pinnedFile_Digest (config_Kernel (rt_Config rt)) ∧
    files !! "rootfs.ext4" = Some rootfs ∧ DigestBytes rootfs = pinnedFile_Digest (config_RootFS (rt_Config rt)) ∧
    ∀ e, manifest_Evaluation (runnerJob_Manifest job) = Some e → Forall2 holds_asset (evaluationContract_Assets e) assets.
Proof.
  intros Hc Hp. unfold prepare_root in Hp. ok_step Hp. do 4 (ok_step Hp; match goal with Hx : fetch _ _ _ _ = Ok _ |- _ => apply fetch_exact in Hx end).
  ok_step Hp. apply suite_disk_of in E4. ok_step Hp. ok_step Hp.
  destruct (CheckHost_pinned _ _ _ (config_Kernel (rt_Config rt)) Hc) as [Hk _]; [by left|].
  destruct (CheckHost_pinned _ _ _ (config_RootFS (rt_Config rt)) Hc) as [Hr _]; [by right; left|].
  apply (copyFile_pinned _ _ _ Hk) in E5. apply (copyFile_pinned _ _ _ Hr) in E6. do 11 ok_step Hp.
  apply (inj Ok), pair_equal_spec in Hp as [<- <-]. exists r0, r1, r2, r4, r3, r5, r6.
  split_and!; try done. intros e He. by eapply selectedAssetDisks_holds.
Qed.
End Inputs.

(** * Guest frames *)

(** A line that carries no frame, and the frame of one that does. *)
Definition frameless (line : string) : Prop :=
  HasPrefix (TrimSpace line) "SL_RESULT " = false ∧ HasPrefix (TrimSpace line) "SL_ERROR " = false.
Inductive framed (line : string) : Bytes → string → Prop :=
| framed_result data : HasPrefix (TrimSpace line) "SL_RESULT " = true →
    DecodeString (TrimPrefix (TrimSpace line) "SL_RESULT ") = Some data → len data ≤ 65536 → framed line data ""
| framed_error outcome : HasPrefix (TrimSpace line) "SL_ERROR " = true → TrimPrefix (TrimSpace line) "SL_ERROR " = outcome →
    outcome ∈ ["resource_limit"; "challenge_fault"; "invalid_output"] → framed line "" outcome.

Lemma is_prefix_split p q l : is_prefix (p ++ q) l = true → is_prefix p l = true ∧ is_prefix q (drop (length p) l) = true.
Proof.
  revert l. induction p as [|c p IH]; intros l Hp; [done|]. destruct l as [|x l]; [done|]. cbn [app is_prefix length drop] in *.
  apply andb_true_iff in Hp as [Hx Hp]. rewrite Hx. by apply IH.
Qed.

(** The two frames are told apart. *)
Lemma one_frame_kind t : HasPrefix t "SL_RESULT " = true → HasPrefix t "SL_ERROR " = false.
Proof.
  intros Hr. destruct (HasPrefix t "SL_ERROR ") eqn:He; [|done]. exfalso.
  unfold HasPrefix in *. change (list_of "SL_RESULT ") with (list_of "SL_" ++ list_of "RESULT ") in Hr.
  change (list_of "SL_ERROR ") with (list_of "SL_" ++ list_of "ERROR ") in He. apply is_prefix_split in Hr as [_ Hr], He as [_ He].
  change (length (list_of "SL_")) with 3%nat in *. destruct (drop 3 (list_of t)) as [|c l]; [done|].
  cbn [is_prefix list_of String.list_ascii_of_string] in Hr, He. apply andb_true_iff in Hr as [Hr _], He as [He _].
  apply Ascii.eqb_eq in Hr, He. congruence.
Qed.

Lemma frame_step_exact st line st' : frame_step st line = Ok st' ↔
  frameless line ∧ st' = st ∨
  ∃ data outcome, framed line data outcome ∧ fr_frames st' = fr_frames st + 1 ∧
    (fr_result st' = if outcome ==s "" then data else fr_result st) ∧
    (fr_outcome st' = if outcome ==s "" then fr_outcome st else outcome).
Proof.
  unfold frame_step, result_frame, error_frame, frameless. destruct (HasPrefix (TrimSpace line) "SL_RESULT ") eqn:Hr; cbn [negb].
  - pose proof (one_frame_kind _ Hr) as He. rewrite He. split.
    + intros Hs. ok_step Hs. ok_step E. ok_step E. apply (inj Ok) in E as <-, Hs as <-. right. exists r0, "". bool_prop.
      split; [by apply framed_result|done].
    + intros [[[? _] _]|(data & outcome & Hf & Hn & Hx & Hy)]; [done|]. destruct Hf as [data _ Hd Hl|outcome Hp _ _]; [|congruence].
      rewrite Hd, Z.gtb_ltb, (proj2 (Z.ltb_ge _ _)) by lia. cbn in *. f_equal. destruct st'. cbn in *. congruence.
  - destruct (HasPrefix (TrimSpace line) "SL_ERROR ") eqn:He; cbn [negb].
    + split.
      * intros Hs. ok_step Hs. apply (inj Ok) in Hs as <-. apply negb_false_iff, member_true in G. right.
        exists "", (TrimPrefix (TrimSpace line) "SL_ERROR "). split; [by apply framed_error|]. cbn [fr_frames fr_result fr_outcome].
        rewrite !elem_of_cons, elem_of_nil in G. by destruct G as [->|[->|[->|[]]]].
      * intros [[[_ ?] _]|(data & outcome & Hf & Hn & Hx & Hy)]; [done|]. destruct Hf as [data Hp _ _|outcome _ Ho Hm]; [congruence|].
        rewrite Ho. pose proof Hm as Hm'. apply member_true in Hm. rewrite Hm. cbn [negb]. f_equal.
        assert (outcome ==s "" = false) as Hne by (rewrite !elem_of_cons, elem_of_nil in Hm'; by destruct Hm' as [->|[->|[->|[]]]]).
        rewrite Hne in Hx, Hy. destruct st'. cbn in *. congruence.
    + split; [intros Hs; apply (inj Ok) in Hs as <-; by left|].
      intros [[_ ->]|(data & outcome & Hf & _)]; [done|]. destruct Hf as [data Hp|outcome Hp]; congruence.
Qed.

Lemma frames_grow lines st st' : foldM frame_step st lines = Ok st' → fr_frames st ≤ fr_frames st' ∧
  (fr_frames st' = fr_frames st → st' = st ∧ Forall frameless lines).
Proof.
  revert st. induction lines as [|line lines IH]; intros st Hf; simpl in Hf; [by apply (inj Ok) in Hf as <-|].
  destruct (frame_step st line) as [st1|] eqn:Hs; [|done]. apply IH in Hf as [Hle Heq].
  apply frame_step_exact in Hs as [[Hl ->]|(data & outcome & _ & Hn & _)]; [|split; lia].
  split; [done|]. intros Hx. destruct (Heq Hx) as [-> Hall]. split; [done|by constructor].
Qed.

Lemma frameless_skip lines st : Forall frameless lines → foldM frame_step st lines = Ok st.
Proof.
  induction 1 as [|line lines Hl _ IH]; simpl; [done|]. assert (frame_step st line = Ok st) as -> by (apply frame_step_exact; by left).
  exact IH.
Qed.

Lemma one_frame lines st st' : fr_frames st' = fr_frames st + 1 → foldM frame_step st lines = Ok st' →
  ∃ before line after data outcome, lines = before ++ line :: after ∧ Forall frameless before ∧ Forall frameless after ∧
    framed line data outcome ∧ (fr_result st' = if outcome ==s "" then data else fr_result st) ∧
    (fr_outcome st' = if outcome ==s "" then fr_outcome st else outcome).
Proof.
  intros Hn. revert st Hn. induction lines as [|line lines IH]; intros st Hn Hf; simpl in Hf; [apply (inj Ok) in Hf as <-; lia|].
  destruct (frame_step st line) as [st1|] eqn:Hs; [|done].
  apply frame_step_exact in Hs as [[Hl ->]|(data & outcome & Hfr & Hn' & Hx & Hy)].
  - destruct (IH st Hn Hf) as (before & x & after & data & outcome & -> & ? & ?). exists (line :: before), x, after, data, outcome.
    split; [done|]. split; [by constructor|done].
  - destruct (frames_grow _ _ _ Hf) as [_ Heq]. destruct Heq as [-> Hall]; [lia|]. exists [], line, lines, data, outcome. done.
Qed.

(** C29: The console of a guest is read as its one frame: parsing succeeds exactly when
    every line fits the scanner and one line, and only one, is a frame; and then it returns
    the decoded bytes, at most 64 KiB, of a result frame with no outcome, or the outcome of
    an error frame with no bytes. *)
Theorem parseGuestOutput_exact output data outcome :
  parseGuestOutput output = Ok (data, outcome) ↔
  (scan_lines 100000 output).2 = true ∧
  ∃ before line after, (scan_lines 100000 output).1 = before ++ line :: after ∧ Forall frameless before ∧ Forall frameless after ∧
    framed line data outcome.
Proof.
  unfold parseGuestOutput. destruct (scan_lines 100000 output) as [lines complete]. cbn [fst snd]. split.
  - intros Hp. do 2 ok_step Hp. apply (inj Ok), pair_equal_spec in Hp as [<- <-]. bool_prop. split; [by destruct complete|].
    destruct (one_frame lines (mkFrameState "" "" 0) r) as (before & line & after & d & o & -> & Hb & Ha & Hf & Hx & Hy); [done|done|].
    exists before, line, after. split; [done|]. split; [done|]. split; [done|]. cbn [fr_result fr_outcome] in Hx, Hy.
    destruct Hf as [d Hp Hd Hl|o Hp Ho Hm].
    + cbn in Hx, Hy. rewrite Hx, Hy. by apply framed_result.
    + assert (o ==s "" = false) as Hne by (rewrite !elem_of_cons, elem_of_nil in Hm; by destruct Hm as [->|[->|[->|[]]]]).
      rewrite Hne in Hx, Hy. rewrite Hx, Hy. by apply framed_error.
  - intros [-> (before & line & after & -> & Hb & Ha & Hf)]. rewrite foldM_app, frameless_skip by done. cbn [foldM].
    assert (frame_step (mkFrameState "" "" 0) line = Ok (mkFrameState data outcome 1)) as ->.
    { apply frame_step_exact. right. exists data, outcome. split; [done|]. destruct Hf as [d|o _ _ Hm]; [done|].
      rewrite !elem_of_cons, elem_of_nil in Hm. by destruct Hm as [->|[->|[->|[]]]]. }
    by rewrite frameless_skip.
Qed.
