(* ===== verification/Builder.v ===== *)
(** Preparation on the host (builder.go, prepare.go, conformance.go and the uploads of the
    daemon's main.go): the build of a challenge with its fixture runs and isolation probes, the
    preparation of an artifact, and the signed receipt of both.

    An operation threads what the source mutates: the report, the files of the workspace, the
    objects found locally, and whether a run's directory exists.  The local mode of the command
    line ([UnsafeLocal]), which has no runtime and no receipt, is left out. *)

From S2P Require Import Prelude Regex GoLib Numbers Types Scores Paths Measurement Evaluation Validate Sha256 GoJson.
From S2P Require Import Canonical Documents Results Artifacts Hidden Signatures Checkpoint History Preparation Snapshots Sources Host Wheels Inventory Executor.
From stdpp Require Import sorting.
From Stdlib Require Import Ascii.
Open Scope Z_scope.

Record Prep := mkPrep {
  pp_report : BuildReport;
  pp_disk : Files;
  pp_objects : gmap string string;
  pp_active : bool
}.
Definition Building (A : Type) : Type := Prep → Prep * result A.

Definition lift {A} (r : result A) : Building A := λ st, (st, r).
Definition bind {A B} (m : Building A) (k : A → Building B) : Building B := λ st,
  match m st with
  | (st, Ok a) => k a st
  | (st, Err e) => (st, Err e)
  end.
Notation "'do!' x := c 'in' k" := (bind c (λ x, k))
  (at level 200, x name, c at level 100, k at level 200, right associativity).
Definition unless (bad : bool) (e : string) : Building unit := lift (if bad then Err e else Ok tt).
Fixpoint each {A} (f : nat → A → Building unit) (i : nat) (l : list A) : Building unit :=
  match l with
  | [] => lift (Ok tt)
  | x :: l => do! _ := f i x in each f (S i) l
  end.
Definition get_report : Building BuildReport := λ st, (st, Ok (pp_report st)).
Definition get_objects : Building (gmap string string) := λ st, (st, Ok (pp_objects st)).
Definition amend (f : BuildReport → BuildReport) : Building unit := λ st,
  (mkPrep (f (pp_report st)) (pp_disk st) (pp_objects st) (pp_active st), Ok tt).
Definition write_file (path : string) (data : Bytes) : Building unit := λ st,
  (mkPrep (pp_report st) (<[path := data]> (pp_disk st)) (pp_objects st) (pp_active st), Ok tt).
Definition local_object (digest path : string) : Building unit := λ st,
  (mkPrep (pp_report st) (pp_disk st) (<[digest := path]> (pp_objects st)) (pp_active st), Ok tt).

(** * The fields of a report that the build sets *)

Definition report_start (manifestDigest source image profile : string) : BuildReport :=
  mkBuildReport 0 None None manifestDigest source "" "" image "" profile false [] false false false [] None None None None.
Definition report_scan (scan : VulnerabilityScan) (sbom : option ObjectRef) (b : BuildReport) : BuildReport :=
  let '(mkBuildReport runs _ _ md sd vd rv vi su ep off fx ho sc pa fi v c s a) := b in
  mkBuildReport runs sbom (Some scan) md sd vd rv vi su ep off fx ho sc pa fi v c s a.
Definition report_scans_passed (passed : bool) (b : BuildReport) : BuildReport :=
  let '(mkBuildReport runs sb vs md sd vd rv vi su ep off fx ho _ pa fi v c s a) := b in
  mkBuildReport runs sb vs md sd vd rv vi su ep off fx ho passed pa fi v c s a.
Definition report_validator (ref : ObjectRef) (b : BuildReport) : BuildReport :=
  let '(mkBuildReport runs sb vs md sd _ rv vi su ep off fx ho sc pa fi _ c s a) := b in
  mkBuildReport runs sb vs md sd (objectRef_Digest ref) rv vi su ep off fx ho sc pa fi (Some ref) c s a.
Definition report_rebuilt (digest : string) (b : BuildReport) : BuildReport :=
  let '(mkBuildReport runs sb vs md sd vd _ vi su ep off fx ho sc pa fi v c s a) := b in
  mkBuildReport runs sb vs md sd vd digest vi su ep off fx ho sc pa fi v c s a.
Definition report_offline (b : BuildReport) : BuildReport :=
  let '(mkBuildReport runs sb vs md sd vd rv vi su ep _ fx ho sc pa fi v c s a) := b in
  mkBuildReport runs sb vs md sd vd rv vi su ep (vd ==s rv) fx ho sc pa fi v c s a.
Definition report_challenge (ref : ObjectRef) (b : BuildReport) : BuildReport :=
  let '(mkBuildReport runs sb vs md sd vd rv vi su ep off fx ho sc pa fi v _ s a) := b in
  mkBuildReport runs sb vs md sd vd rv vi su ep off fx ho sc pa fi v (Some ref) s a.
Definition report_suite_digest (digest : string) (b : BuildReport) : BuildReport :=
  let '(mkBuildReport runs sb vs md sd vd rv vi _ ep off fx ho sc pa fi v c s a) := b in
  mkBuildReport runs sb vs md sd vd rv vi digest ep off fx ho sc pa fi v c s a.
Definition report_suite (ref : ObjectRef) (b : BuildReport) : BuildReport :=
  let '(mkBuildReport runs sb vs md sd vd rv vi su ep off fx ho sc pa fi v c _ a) := b in
  mkBuildReport runs sb vs md sd vd rv vi su ep off fx ho sc pa fi v c (Some ref) a.
Definition report_run (b : BuildReport) : BuildReport :=
  let '(mkBuildReport runs sb vs md sd vd rv vi su ep off fx ho sc pa fi v c s a) := b in
  mkBuildReport (runs + 1) sb vs md sd vd rv vi su ep off fx ho sc pa fi v c s a.
Definition report_fixture (f : FixtureReport) (b : BuildReport) : BuildReport :=
  let '(mkBuildReport runs sb vs md sd vd rv vi su ep off fx ho sc pa fi v c s a) := b in
  mkBuildReport runs sb vs md sd vd rv vi su ep off (fx ++ [f]) ho sc pa fi v c s a.
Definition report_hostile (passed : bool) (b : BuildReport) : BuildReport :=
  let '(mkBuildReport runs sb vs md sd vd rv vi su ep off fx _ sc pa fi v c s a) := b in
  mkBuildReport runs sb vs md sd vd rv vi su ep off fx passed sc pa fi v c s a.
Definition report_passed (passed : bool) (b : BuildReport) : BuildReport :=
  let '(mkBuildReport runs sb vs md sd vd rv vi su ep off fx ho sc _ fi v c s a) := b in
  mkBuildReport runs sb vs md sd vd rv vi su ep off fx ho sc passed fi v c s a.
Definition report_finding (finding : string) (b : BuildReport) : BuildReport :=
  let '(mkBuildReport runs sb vs md sd vd rv vi su ep off fx ho sc pa fi v c s a) := b in
  mkBuildReport runs sb vs md sd vd rv vi su ep off fx ho sc pa (fi ++ [finding]) v c s a.
(** The references of the outputs: validator, challenge, suite, submission and bill. *)
Definition report_refs (v c s a sb : option ObjectRef) (b : BuildReport) : BuildReport :=
  let '(mkBuildReport runs _ vs md sd vd rv vi su ep off fx ho sc pa fi _ _ _ _) := b in
  mkBuildReport runs sb vs md sd vd rv vi su ep off fx ho sc pa fi v c s a.

(** The documents that a preparation decodes. *)
Record ArtifactSnapshot := mkArtifactSnapshot { artifactSnapshot_Tree : ArtifactTree; artifactSnapshot_Files : Files }.
Record HiddenSource := mkHiddenSource { hiddenSource_Files : Files }.

(** * Instants and names *)

(** What a preparation reads of the clock and of random directory names: the instant of its
    checks, those of the runs of a fixture and of a probe, and of its receipt. *)
Record Attempt := mkAttempt {
  at_now : Time;
  at_run : nat → nat → Time;
  at_probe : nat → Time;
  at_done : Time;
  at_suffix : string → string
}.
Definition UnixNano (t : Time) : Z := wrap64 (t_ns t - 719162 * day_ns).
Definition nat_string (n : nat) : string := int_string (Z.of_nat n).
Definition join (directory name : string) : string := directory +:+ "/" +:+ name.

(** * The corpus of hostile inputs *)

Definition dquote : string := String "034" "".
Definition lf : string := String "010" "".

Section Parsers.
Context `{UnicodeLib} `{JsonCanonicalizer}.

Definition hostile_paths : list string :=
  ["../escape.json"; "/absolute.json"; "data/../escape.json"; "data/e" +:+ of_bytes [204; 129] +:+ ".json"; "data/link\escape.json"].
Definition hostile_scores : list string := ["NaN"; "Infinity"; "-0"; "01"; "1e9999"; string_of (repeat "9"%char 101)].
Definition hostile_documents : list string :=
  ["{" +:+ dquote +:+ "x" +:+ dquote +:+ ":1," +:+ dquote +:+ "x" +:+ dquote +:+ ":2}"; "{" +:+ dquote +:+ "x" +:+ dquote +:+ ":1e9999}";
   "{} {}"; string_of (repeat "["%char 40) +:+ "0" +:+ string_of (repeat "]"%char 40)].
Definition hostileParserCorpus (m : Manifest) : bool :=
  forallb (λ name, is_err (ValidatePath name)) hostile_paths
  && forallb (λ score, is_err (NormalizeScore score (manifest_Metric m))) hostile_scores
  && forallb (λ input, is_err (CanonicalJSON input)) hostile_documents.
End Parsers.

(** * The probes *)

(** [hostProbeManifest] of hardware_probe.go *)
Definition hostProbeManifest (digest : string) : Manifest := {|
  manifest_Evaluation := None; manifest_VerificationPolicy := ""; manifest_APIVersion := APIVersion;
  manifest_Kind := "ChallengeManifest"; manifest_ID := "hardware-protocol-fixture";
  manifest_CreatedAt := mkTime (day_number 2026 1 1 * day_ns) 0; manifest_Producer := "science-ladder-platform";
  manifest_Slug := "hardware-protocol-fixture"; manifest_Title := "Internal hardware protocol fixture";
  manifest_Summary := "Fixed platform isolation test; not a scientific challenge.";
  manifest_ScientificQuestion := "No scientific claim; verify hardware boundaries.";
  manifest_Evidence := [mkSource "" "" "https://github.com/matbalez/science-ladder" "First-party protocol fixture"
    "Source of the platform probe, not scientific evidence." "internal/runner/conformance.go" ""];
  manifest_Impact := "No scientific impact claimed.";
  manifest_Limitations := ["Single-host fixed corpus; does not establish security certification or cross-host determinism."];
  manifest_SafetyClassification := "low-risk-computational"; manifest_EconomicMode := "none";
  manifest_Metric := mkMetric "fixture" "maximize" "checks" "1" "0" "1" "0" "" "";
  manifest_HardGates := ["isolation"];
  manifest_Milestones := [mkMilestone [] "fixture" "Protocol test" "1" "Internal conformance only"];
  manifest_Deadline := mkTime (day_number 2030 1 1 * day_ns) 0;
  manifest_Submission := mkSubmissionContract "" ["data/"] [".txt"] (Z.shiftl 1 20) 4 "MIT";
  manifest_Validator := mkValidator "artifact-checker-v1" ["/usr/local/bin/python3"; "/sl/challenge/probe.py"] "requirements.lock" digest;
  manifest_Suite := mkSuite "public" "suite" "" None; manifest_Resources := mkResources "cpu-small" 1 256 3 4096;
  manifest_Fixtures := [mkFixture "baseline" "fixtures/baseline" "valid" "0"; mkFixture "valid" "fixtures/valid" "valid" "1";
    mkFixture "invalid" "fixtures/invalid" "hard_gate_failed" ""; mkFixture "malformed" "fixtures/malformed" "invalid_output" ""] |}.
Definition isolationManifest (parent : Manifest) : Manifest := hostProbeManifest (validator_RuntimeImageDigest (manifest_Validator parent)).

Definition isolationProbe : string :=
"import json, os, signal, socket, time
from pathlib import Path
checks = []
for address in [('169.254.169.254', 80), ('1.1.1.1', 53)]:
    try:
        connection = socket.create_connection(address, timeout=0.2)
        connection.close()
        checks.append(False)
    except OSError:
        checks.append(True)
for filename in ['/var/run/docker.sock', '/run/containerd/containerd.sock', '/root/.aws/credentials', '/root/.ssh/id_rsa']:
    checks.append(not Path(filename).exists())
for filename in ['/sl/challenge/escape.txt', '/sl/submission/escape.txt', '/sl/suite/escape.txt']:
    try:
        Path(filename).write_text('must fail')
        checks.append(False)
    except OSError:
        checks.append(True)
checks.append(os.geteuid() == 65534)
status = Path('/proc/self/status').read_text()
checks.append(any(line.startswith('CapEff:') and int(line.split()[1], 16) == 0 for line in status.splitlines()))
checks.append(not any(name in os.environ for name in ['AWS_SECRET_ACCESS_KEY', 'DATABASE_URL', 'SL_API_TOKEN', 'GITHUB_PRIVATE_KEY']))
children = []
denied = False
try:
    for _ in range(80):
        try:
            pid = os.fork()
            if pid == 0:
                time.sleep(10)
                os._exit(0)
            children.append(pid)
        except OSError:
            denied = True
            break
finally:
    for child in children:
        os.kill(child, signal.SIGKILL)
    for child in children:
        os.waitpid(child, 0)
checks.append(denied)
try:
    with open('/sl/work/flood', 'wb') as file:
        file.write(b'x' * 70000)
        file.flush()
    checks.append(False)
except OSError:
    checks.append(True)
Path('/sl/output/result.json').write_text(json.dumps({'apiVersion':'science-ladder/v1','kind':'ValidatorResult','score':'0','gates':{'isolation':all(checks)}}))
".

Definition outputProbe : string :=
"import json
from pathlib import Path
print('SL_HIDDEN_OUTPUT_CANARY_NOT_FOR_PUBLIC_OUTPUT' * 10000)
Path('/sl/output/result.json').write_text(json.dumps({'apiVersion':'science-ladder/v1','kind':'ValidatorResult','score':'0','gates':{'isolation':True}}))
".

(** Each probe: its name, its program, and the outcome expected of it. *)
Definition probes : list (string * string * string) := [
  ("isolation", isolationProbe, "valid");
  ("cpu-limit", "while True: pass" +:+ lf, "resource_limit");
  ("memory-limit", "chunks = []" +:+ lf +:+ "while True: chunks.append(bytearray(16 * 1024 * 1024))" +:+ lf, "resource_limit");
  ("invalid-output", "from pathlib import Path" +:+ lf +:+ "Path('/sl/output/result.json').write_text('{" +:+ dquote +:+ "score" +:+ dquote
     +:+ ": " +:+ dquote +:+ "NaN" +:+ dquote +:+ "}')" +:+ lf, "invalid_output");
  ("output-bound", outputProbe, "valid")].
Definition canary : string := "SL_HIDDEN_OUTPUT_CANARY_NOT_FOR_PUBLIC_OUTPUT".

Section Builder.
Context `{HostOS} `{Workspace} `{Machine} `{Crypto} `{!Pki} `{UnicodeLib} `{UrlLib} `{SourceNet} `{WheelLib} `{JsonCanonicalizer}.
Context `{Aead} `{Curve} `{JsonType SuiteKeyMaterial} `{JsonType RuntimeInventory} `{JsonType Config} `{JsonType HostAttestation}.
Context `{JsonType ExecutorCapabilities} `{JsonType RunnerJob} `{JsonType Manifest} `{JsonType ValidatorResult} `{JsonType RunReceipt}.
Context `{JsonType anyValue} `{JsonType AdvisorySnapshot} `{JsonType (gmap string string)} `{JsonType Envelope} `{JsonType ArtifactTree}.
Context `{JsonType SourceSnapshot} `{JsonType ArtifactSnapshot} `{JsonType HiddenSource} `{YamlLib}.

(** The runtime and the order in which a [range] visits a map of files; an upload. *)
Context (rt : Runtime) (order : Files → list (string * Bytes)).
Definition UploadObject : Type := string → string → Bytes → ObjectRef → result ObjectRef.

(** * Uploads *)

(** [uploader]: [grant] asks the service for the address of an object, [put] sends the bytes
    and gives the status. *)
Definition uploader (grant : string → ObjectRef → result string) (put : string → Bytes → Z → result Z) : UploadObject :=
  λ role _ data ref,
    let! address := grant role ref in
    let! u := UrlParse address or "invalid object upload grant" in
    let '(scheme, host, user) := u in
    if (scheme !=s "https") || (host ==s "") || user then Err "invalid object upload grant" else
    let! status := put address data (objectRef_Size ref) in
    if ((status <? 200) || (status >=? 300)) && negb (status =? 412) then Err "object upload returned HTTP" else
    Ok (mkObjectRef (objectRef_Digest ref) (objectRef_Size ref) "").

(** * Disks *)

(** [writeTree] into a new directory, which then holds [files].  Which invalid name is
    reported depends on the order of the map. *)
Definition write_tree_file (directory name : string) : result unit :=
  let filename := join directory name in
  let! _ := os_do "mkdirall" (Dir filename) in
  let! _ := os_do "write" filename in
  os_do "chtimes" filename.
Definition writeTree (directory : string) (files : Files) : result unit :=
  let! _ := for_each (λ f, ValidatePath f.1) (order files) in
  for_each (write_tree_file directory) (SortStrings (map fst (order files))).

Definition disk_options : list string :=
  ["-noappend"; "-all-root"; "-root-mode"; "0755"; "-action"; "chmod(0755)@type(d)"; "-action"; "chmod(0644)@type(f)"; "-no-xattrs";
   "-no-exports"; "-processors"; "1"; "-mkfs-time"; "0"; "-all-time"; "0"; "-comp"; "gzip"; "-b"; "131072"; "-no-progress"].
(** [disk] of a directory that holds [tree]. *)
Definition builder_disk (tree : Files) (destination : string) : Building ObjectRef :=
  do! _ := lift (verifyPinned (config_MakeSquashFS (rt_Config rt))) in
  do! data := lift (let! d := SquashFS disk_options tree or "deterministic filesystem construction failed" in Ok d) in
  do! _ := write_file destination data in
  lift (Ok (mkObjectRef (DigestBytes data) (len data) "")).
(** A new directory with a tree, and its disk. *)
Definition tree_disk (root : string) (tree : Files) (destination : string) : Building ObjectRef :=
  do! _ := lift (os_do "mkdir" root) in
  do! _ := lift (writeTree root tree) in
  builder_disk tree destination.

(** * Runs of a preparation *)

Definition local_runtime (objects : gmap string string) (material : option SuiteKeyMaterial) : Runtime :=
  mkRuntime _ (rt_Config rt) (rt_Keys rt) (rt_Signer rt) (rt_KeyID rt) objects (rt_EncryptionPrivateKey rt) material.

(** A child of the job, with a manifest and disks of its own. *)
Definition child_job (parentDigest id artifact suiteDigest : string) (m : Manifest) (validator submission suite challenge : ObjectRef)
    (job : RunnerJob) : RunnerJob := {|
  runnerJob_ParentJobDigest := parentDigest; runnerJob_VerificationPolicy := runnerJob_VerificationPolicy job;
  runnerJob_AdvisorySnapshotDigest := runnerJob_AdvisorySnapshotDigest job;
  runnerJob_RuntimeInventoryDigest := runnerJob_RuntimeInventoryDigest job; runnerJob_HiddenSuite := runnerJob_HiddenSuite job;
  runnerJob_AcceptanceReceiptDigest := runnerJob_AcceptanceReceiptDigest job; runnerJob_DeploymentMode := runnerJob_DeploymentMode job;
  runnerJob_OfficialAcceptance := runnerJob_OfficialAcceptance job; runnerJob_APIVersion := runnerJob_APIVersion job;
  runnerJob_Kind := runnerJob_Kind job; runnerJob_ID := id; runnerJob_CreatedAt := runnerJob_CreatedAt job;
  runnerJob_Producer := runnerJob_Producer job; runnerJob_ExpiresAt := runnerJob_ExpiresAt job; runnerJob_Purpose := "preflight";
  runnerJob_SubmissionID := runnerJob_SubmissionID job; runnerJob_ChallengeLockDigest := runnerJob_ChallengeLockDigest job;
  runnerJob_ArtifactDigest := artifact; runnerJob_SuiteDigest := suiteDigest;
  runnerJob_ExecutionProfileDigest := runnerJob_ExecutionProfileDigest job; runnerJob_RunnerEpoch := runnerJob_RunnerEpoch job;
  runnerJob_FencingToken := runnerJob_FencingToken job; runnerJob_RequiredHostGroup := runnerJob_RequiredHostGroup job;
  runnerJob_ExcludedHostIDs := runnerJob_ExcludedHostIDs job; runnerJob_ValidatorDisk := validator;
  runnerJob_SubmissionDisk := submission; runnerJob_SuiteDisk := suite; runnerJob_ChallengeDisk := challenge;
  runnerJob_Manifest := m; runnerJob_SourceSnapshot := runnerJob_SourceSnapshot job |}.

(** [runJob] of the runtime with local objects, its envelope opened under the host's key. *)
Definition run_child (objects : gmap string string) (material : option SuiteKeyMaterial) (now : Time) (child : RunnerJob)
    : Building (Envelope * RunReceipt) := λ st,
  let '(active, r) := runJob (local_runtime objects material) (pp_disk st) now (runnerJob_ExpiresAt child) (pp_active st) child in
  (mkPrep (pp_report st) (pp_disk st) (pp_objects st) active,
   let! envelope := r in
   match rt_Signer rt with
   | None => Err nil_panic
   | Some signer =>
       let! payload := Verify envelope {[rt_KeyID rt := Public signer]} in
       let! run := DecodeStrict payload in
       Ok (envelope, run)
   end).

(** * The isolation corpus (conformance.go) *)

Definition probe_files (m : Manifest) (code : string) : Files :=
  list_to_map [("probe.py", code); ("science-ladder.yaml", encode_or_empty m); ("requirements.lock", "# platform fixture" +:+ lf);
               ("suite/canary.txt", canary)].
Definition artifact_files : Files := {["data/input.txt" := "INTERNAL_CONFORMANCE_ONLY"]}.

(** The disk of a directory with [tree], known to the runs of the corpus. *)
Definition make_disk (root name : string) (tree : Files) (objects : gmap string string) : Building (ObjectRef * gmap string string) :=
  let filename := join root (name +:+ ".squashfs") in
  do! ref := builder_disk tree filename in
  lift (Ok (ref, <[objectRef_Digest ref := filename]> objects)).

(** One probe; the objects known then are returned. *)
Definition run_probe (clock : Attempt) (job : RunnerJob) (m : Manifest) (root artifact : string) (validator submission suite : ObjectRef)
    (objects : gmap string string) (i : nat) (test : string * string * string) : Building (gmap string string) :=
  let '(name, code, expected) := test in
  let source := join root ("probe-" +:+ nat_string i) in
  do! _ := lift (os_do "mkdir" source) in
  do! _ := lift (writeTree source (probe_files m code)) in
  do! challenge := make_disk root ("challenge-" +:+ nat_string i) (probe_files m code) objects in
  do! parentDigest := lift (Digest job) in
  let id := "isolation-" +:+ int_string (UnixNano (at_probe clock i)) +:+ "-" +:+ nat_string i in
  do! run := run_child challenge.2 (rt_suiteMaterial rt) (at_probe clock i)
    (child_job parentDigest id artifact (objectRef_Digest suite) m validator submission suite challenge.1 job) in
  do! _ := unless ((runReceipt_Outcome run.2 !=s expected)
    || (runReceipt_Outcome run.2 ==s "valid") && negb (default false (runReceipt_Gates run.2 !! "isolation")))
    ("hostile corpus " +:+ name +:+ " failed: expected " +:+ expected +:+ ", got " +:+ runReceipt_Outcome run.2) in
  lift (Ok challenge.2).
Fixpoint run_probes (clock : Attempt) (job : RunnerJob) (m : Manifest) (root artifact : string) (validator submission suite : ObjectRef)
    (objects : gmap string string) (i : nat) (tests : list (string * string * string)) : Building unit :=
  match tests with
  | [] => lift (Ok tt)
  | test :: tests =>
      do! objects := run_probe clock job m root artifact validator submission suite objects i test in
      run_probes clock job m root artifact validator submission suite objects (S i) tests
  end.

(** The directory of the corpus is removed when it returns. *)
Definition isolationCorpus (clock : Attempt) (parent : RunnerJob) (outputRoot : string) : Building unit :=
  let root := join outputRoot ("isolation-" +:+ at_suffix clock "isolation-") in
  do! _ := lift (os_do "mkdirtemp" outputRoot) in
  let m := isolationManifest (runnerJob_Manifest parent) in
  let artifact := match ArtifactFromFiles artifact_files (order artifact_files) (manifest_Submission m) with Ok (_, d) => d | Err _ => "" end in
  do! _ := lift (for_each (λ name, os_do "mkdir" (join root name)) ["artifact"; "suite"; "validator"]) in
  do! _ := lift (writeTree (join root "artifact") artifact_files) in
  do! _ := lift (writeTree (join root "suite") {["canary.txt" := canary]}) in
  do! submission := make_disk root "submission" artifact_files ∅ in
  do! suite := make_disk root "suite" {["canary.txt" := canary]} submission.2 in
  do! validator := make_disk root "validator" ∅ suite.2 in
  run_probes clock parent m root artifact validator.1 submission.1 suite.1 validator.2 0 probes.

(** * The build of a challenge *)

(** The documents and bindings checked before anything is built. *)
Definition check_snapshot (job : RunnerJob) (snapshot : SourceSnapshot) (manifestDigest : string) : result unit :=
  let m := runnerJob_Manifest job in
  let! _ := ValidateManifest m in
  let! _ := validateSourceFilesForProfile (order (sourceSnapshot_Files snapshot)) (validator_Profile (manifest_Validator m)) in
  let! sourceManifest := ParseManifest (default "" (sourceSnapshot_Files snapshot !! "science-ladder.yaml")) in
  if match Digest sourceManifest with Ok d => d | Err _ => "" end !=s manifestDigest
  then Err "source manifest does not match signed job" else
  match (e ← manifest_Evaluation m; evaluationContract_Proof e) with
  | None => Ok tt
  | Some p =>
      match sourceSnapshot_Files snapshot !! proofContract_StatementPath p with
      | Some statement => if DigestBytes statement !=s proofContract_StatementDigest p
                          then Err "proof statement differs from frozen digest" else Ok tt
      | None => Err "proof statement differs from frozen digest"
      end
  end.

(** The validator's files: the source with the locked dependencies. *)
Definition merge_step (files : Files) (f : string * Bytes) : result Files :=
  if bool_decide (is_Some (files !! f.1)) then Err "source collides with locked dependency tree" else Ok (<[f.1 := f.2]> files).
Definition validator_files (snapshot : SourceSnapshot) (m : Manifest) : result Files :=
  let files := sourceSnapshot_Files snapshot in
  let! dependencies := lockedWheelFiles files (order files) (validator_DependencyLock (manifest_Validator m)) in
  foldM merge_step files (order dependencies).

(** The scan, whose result is reported even when it fails. *)
Definition scan_build (clock : Attempt) (snapshot : SourceSnapshot) (m : Manifest) (outputRoot : string) : Building unit := λ st,
  let files := sourceSnapshot_Files snapshot in
  let '(disk, scan, sbom, r) := Scan (Some (rt_Config rt)) (at_now clock) files (order files) m (join outputRoot "sbom.json") (pp_disk st) in
  (mkPrep (report_scan scan (if objectRef_Digest sbom ==s "" then None else Some sbom) (pp_report st)) disk (pp_objects st) (pp_active st),
   let! _ := r in Ok tt).
Definition finish_scan (b : BuildReport) : BuildReport :=
  report_scans_passed (match buildReport_VulnerabilityScan b with Some scan => vulnerabilityScan_Status scan ==s "pass" | None => false end) b.

(** The files of the suite, and the key material of a hidden one. *)
Definition private_contract : SubmissionContract :=
  mkSubmissionContract "" ["*"] [".json"; ".csv"; ".tsv"; ".txt"; ".dat"; ".npy"; ".bin"] (Z.shiftl 64 20) 4096 "private-preflight".
Definition suite_files (job : RunnerJob) (snapshot : SourceSnapshot) (workspace : string) (st : Files)
    : result (Files * option SuiteKeyMaterial) :=
  let m := runnerJob_Manifest job in
  let public : Files := list_to_map (subset (sourceSnapshot_Files snapshot) (suite_Path (manifest_Suite m))) in
  if suite_Visibility (manifest_Suite m) !=s "hidden" then Ok (public, None) else
  match runnerJob_HiddenSuite job with
  | None => Err "encrypted hidden-suite grant and recipient host key required"
  | Some grant =>
      if Z.of_nat (size public) >? 0 then Err "hidden suite must not be present in public challenge source" else
      let! material := hiddenMaterial rt job in
      if objectRef_Size (hiddenSuiteGrant_Source grant) >? Z.shiftl 96 20 then Err "hidden source exceeds limit" else
      let! encrypted := fetch rt st (hiddenSuiteGrant_Source grant) (join workspace "hidden-source.enc") in
      let! plain := DecryptSuiteObject material encrypted "source" in
      let! hidden := DecodeStrictBounded (A := HiddenSource) plain (Z.shiftl 96 20) or "hidden suite schema invalid" in
      let files := hiddenSource_Files hidden in
      let! _ := ArtifactFromFiles files (order files) private_contract or "hidden suite contains invalid data artifacts" in
      Ok (files, Some material)
  end.

(** The validator's disk, built twice. *)
Definition build_validator (pass : nat) (files : Files) (workspace outputRoot : string) : Building ObjectRef :=
  tree_disk (join workspace ("validator-" +:+ nat_string pass)) files (join outputRoot ("validator-" +:+ nat_string pass +:+ ".squashfs")).
(** [copyFile] of a file of the workspace. *)
Definition copy_disk (source destination : string) : Building unit := λ st,
  match pp_disk st !! source with
  | None => (st, Err "no such file or directory")
  | Some data => (do! _ := lift (os_do "create" destination) in write_file destination data) st
  end.
(** The disk of a suite: encrypted again when it is hidden. *)
Definition seal_disk (material : option SuiteKeyMaterial) (plain : ObjectRef) (filename : string) : Building (ObjectRef * string) := λ st,
  match material, pp_disk st !! filename with
  | None, _ => (st, Ok (plain, objectRef_Digest plain))
  | Some _, None => (st, Err "no such file or directory")
  | Some material, Some data =>
      (do! encrypted := lift (EncryptSuiteObject material data "disk") in
       do! _ := lift (os_do "write" filename) in
       do! _ := write_file filename encrypted in
       lift (Ok (mkObjectRef (DigestBytes encrypted) (len encrypted) "", suiteKeyMaterial_Commitment material))) st
  end.

(** The disks of the build: validator, challenge and suite. *)
Definition build_disks (snapshot : SourceSnapshot) (validator : Files) (suite : Files) (material : option SuiteKeyMaterial)
    (workspace outputRoot : string) : Building (ObjectRef * ObjectRef * string) :=
  do! first := build_validator 0 validator workspace outputRoot in
  do! _ := amend (report_validator first) in
  do! second := build_validator 1 validator workspace outputRoot in
  do! _ := amend (report_rebuilt (objectRef_Digest second)) in
  do! _ := amend report_offline in
  do! _ := unless (objectRef_Digest first !=s objectRef_Digest second) "offline validator rebuild digest mismatch" in
  do! _ := lift (os_do "mkdir" (join workspace "source")) in
  do! _ := lift (writeTree (join workspace "source") (sourceSnapshot_Files snapshot)) in
  do! _ := copy_disk (join outputRoot "validator-0.squashfs") (join outputRoot "challenge.squashfs") in
  do! _ := amend (report_challenge first) in
  do! _ := unless (Z.of_nat (size suite) =? 0) "declared public suite contains no files" in
  do! plain := tree_disk (join workspace "suite") suite (join outputRoot "suite.squashfs") in
  do! _ := amend (report_suite_digest (objectRef_Digest plain)) in
  do! sealed := seal_disk material plain (join outputRoot "suite.squashfs") in
  do! _ := amend (report_suite_digest sealed.2) in
  do! _ := amend (report_suite sealed.1) in
  do! _ := local_object (objectRef_Digest first) (join outputRoot "validator-0.squashfs") in
  do! _ := local_object (objectRef_Digest first) (join outputRoot "challenge.squashfs") in
  do! _ := local_object (objectRef_Digest sealed.1) (join outputRoot "suite.squashfs") in
  lift (Ok (first, sealed.1, sealed.2)).

(** ** Fixtures *)

(** One of the two runs of a fixture. *)
Definition fixture_run (clock : Attempt) (job : RunnerJob) (material : option SuiteKeyMaterial) (disks : ObjectRef * ObjectRef * string)
    (artifact : string) (submission : ObjectRef) (index repeat : nat) : Building (Envelope * RunReceipt) :=
  let '(validator, suite, suiteDigest) := disks in
  do! parentDigest := lift (Digest job) in
  let now := at_run clock index repeat in
  let id := "preflight-" +:+ int_string (UnixNano now) +:+ "-" +:+ nat_string index +:+ "-" +:+ nat_string repeat in
  do! objects := get_objects in
  do! run := run_child objects material now
    (child_job parentDigest id artifact suiteDigest (runnerJob_Manifest job) validator submission suite validator job) in
  do! _ := unless (negb (runReceipt_Official run.2) || negb (runReceipt_CleanupAttested run.2))
    "fixture run did not attest isolated execution and teardown" in
  do! _ := amend report_run in
  lift (Ok run).

(** The verdict on the two runs of a fixture. *)
Definition fixture_verdict (m : Manifest) (f : Fixture) (one two : Envelope * RunReceipt) : FixtureReport :=
  let a := one.2 in
  let b := two.2 in
  let repeats := (runReceipt_Outcome a ==s fixture_ExpectedOutcome f) && (runReceipt_Outcome b ==s runReceipt_Outcome a)
    && (runReceipt_ScoreTicks b ==s runReceipt_ScoreTicks a)
    && ((fixture_ExpectedTicks f ==s "") || (runReceipt_ScoreTicks a ==s fixture_ExpectedTicks f))
    && negb ((fixture_Name f ==s "baseline") && (runReceipt_ScoreTicks a !=s metric_BaselineTicks (manifest_Metric m))) in
  let '(ticks, passed) :=
    if is_performance m then
      match ValidateMeasuredFixture a b m f with Ok score => (score, true) | Err _ => ("", false) end
    else (runReceipt_ScoreTicks a, repeats) in
  mkFixtureReport "isolated_execution" 2 [one.1; two.1] (fixture_Name f) (fixture_ExpectedOutcome f) (runReceipt_Outcome a) ticks passed.
Definition unparsed_fixture (f : Fixture) : FixtureReport :=
  mkFixtureReport "artifact_parser" 0 [] (fixture_Name f) (fixture_ExpectedOutcome f) "invalid_output" ""
    (fixture_ExpectedOutcome f ==s "invalid_output").

Definition run_fixture (clock : Attempt) (job : RunnerJob) (snapshot : SourceSnapshot) (material : option SuiteKeyMaterial)
    (disks : ObjectRef * ObjectRef * string) (workspace : string) (index : nat) (f : Fixture) : Building unit :=
  let m := runnerJob_Manifest job in
  let files : Files := list_to_map (subset (sourceSnapshot_Files snapshot) (fixture_Path f)) in
  match ArtifactFromFiles files (order files) (manifest_Submission m) with
  | Err _ => amend (report_fixture (unparsed_fixture f))
  | Ok (_, artifact) =>
      let path := join workspace ("submission-" +:+ nat_string index +:+ ".squashfs") in
      do! submission := tree_disk (join workspace ("artifact-" +:+ nat_string index)) files path in
      do! _ := local_object (objectRef_Digest submission) path in
      do! one := fixture_run clock job material disks artifact submission index 0 in
      do! two := fixture_run clock job material disks artifact submission index 1 in
      amend (report_fixture (fixture_verdict m f one two))
  end.

(** ** The end of a build *)

Definition hostile_corpus (clock : Attempt) (job : RunnerJob) (outputRoot : string) : Building unit := λ st,
  if negb (hostileParserCorpus (runnerJob_Manifest job)) then amend (report_hostile false) st else
  match isolationCorpus clock job outputRoot st with
  | (st, Ok _) => amend (report_hostile true) st
  | (st, Err e) => (do! _ := amend (report_hostile false) in amend (report_finding e)) st
  end.
Definition all_passed (b : BuildReport) : bool :=
  forallb fixtureReport_Passed (buildReport_Fixtures b) && buildReport_ScansPassed b && buildReport_OfflineRebuild b
  && buildReport_HostileCorpusPassed b.

(** One output: read from the workspace and sent, when it has a reference. *)
Definition upload_output (upload : UploadObject) (role path : string) (ref : option ObjectRef) : Building (option ObjectRef) := λ st,
  match ref, pp_disk st !! path with
  | None, _ => (st, Err nil_panic)
  | Some _, None => (st, Err "no such file or directory")
  | Some ref, Some data => (st, let! sent := upload role path data ref in Ok (Some sent))
  end.
Definition upload_outputs (upload : UploadObject) (outputRoot : string) : Building unit :=
  do! b := get_report in
  do! v := upload_output upload "validatorDisk" (join outputRoot "validator-0.squashfs") (buildReport_ValidatorDisk b) in
  do! _ := amend (report_refs v (buildReport_ChallengeDisk b) (buildReport_SuiteDisk b) None (buildReport_SBOM b)) in
  do! c := upload_output upload "challengeDisk" (join outputRoot "challenge.squashfs") (buildReport_ChallengeDisk b) in
  do! _ := amend (report_refs v c (buildReport_SuiteDisk b) None (buildReport_SBOM b)) in
  do! s := upload_output upload "suiteDisk" (join outputRoot "suite.squashfs") (buildReport_SuiteDisk b) in
  do! _ := amend (report_refs v c s None (buildReport_SBOM b)) in
  do! sb := upload_output upload "sbom" (join outputRoot "sbom.json") (buildReport_SBOM b) in
  amend (report_refs v c s None sb).

(** [Preflight], after the check of its grant; the workspace is removed when it returns. *)
Definition preflight_body (clock : Attempt) (upload : UploadObject) (job : RunnerJob) (snapshot : SourceSnapshot)
    (manifestDigest outputRoot : string) : Building unit :=
  let m := runnerJob_Manifest job in
  do! _ := lift (check_snapshot job snapshot manifestDigest) in
  do! _ := lift (CheckHost (at_now clock) (rt_Config rt) (rt_Keys rt)) in
  do! validator := lift (validator_files snapshot m) in
  do! _ := lift (os_do "mkdirall" outputRoot) in
  do! _ := scan_build clock snapshot m outputRoot in
  do! _ := amend finish_scan in
  do! _ := lift (os_do "mkdirtemp" outputRoot) in
  let workspace := join outputRoot ("preflight-" +:+ at_suffix clock "preflight-") in
  do! suite := (λ st, (st, suite_files job snapshot workspace (pp_disk st))) in
  do! disks := build_disks snapshot validator suite.1 suite.2 workspace outputRoot in
  do! _ := each (run_fixture clock job snapshot suite.2 disks workspace) 0 (manifest_Fixtures m) in
  do! _ := hostile_corpus clock job outputRoot in
  do! b := get_report in
  do! _ := amend (report_passed (all_passed b)) in
  if all_passed b then upload_outputs upload outputRoot else lift (Ok tt).
Definition empty_report : BuildReport :=
  mkBuildReport 0 None None "" "" "" "" "" "" "" false [] false false false [] None None None None.
Definition Preflight (clock : Attempt) (upload : UploadObject) (job : RunnerJob) (snapshot : SourceSnapshot) (outputRoot : string)
    (disk : Files) (active : bool) : Prep * result unit :=
  let start := λ b, mkPrep b disk ∅ active in
  match runnerJob_SourceSnapshot job with
  | None => (start empty_report, Err "source snapshot grant required")
  | Some source =>
      let begun := report_start "" (objectRef_Digest source) (validator_RuntimeImageDigest (manifest_Validator (runnerJob_Manifest job)))
        (runnerJob_ExecutionProfileDigest job) in
      match Digest (runnerJob_Manifest job) with
      | Err e => (start begun, Err e)
      | Ok manifestDigest =>
          preflight_body clock upload job snapshot manifestDigest outputRoot
            (mkPrep (report_start manifestDigest (objectRef_Digest source)
               (validator_RuntimeImageDigest (manifest_Validator (runnerJob_Manifest job))) (runnerJob_ExecutionProfileDigest job))
               disk ∅ active)
      end
  end.

(** * The preparation of an artifact *)

Definition artifact_body (clock : Attempt) (upload : UploadObject) (job : RunnerJob) (data : Bytes) (outputRoot : string) : Building unit :=
  do! _ := lift (CheckHost (at_now clock) (rt_Config rt) (rt_Keys rt)) in
  do! snapshot := lift (DecodeStrictBounded (A := ArtifactSnapshot) data (Z.shiftl 96 20)) in
  let files := artifactSnapshot_Files snapshot in
  do! built := lift (ArtifactFromFiles files (order files) (manifest_Submission (runnerJob_Manifest job))) in
  do! _ := unless ((encode_or_empty (artifactSnapshot_Tree snapshot) !=s encode_or_empty built.1)
                   || (built.2 !=s runnerJob_ArtifactDigest job)) "canonical artifact binding mismatch" in
  do! _ := lift (os_do "mkdirtemp" outputRoot) in
  do! _ := lift (writeTree (join outputRoot ("artifact-" +:+ at_suffix clock "artifact-")) files) in
  let path := join outputRoot "submission.squashfs" in
  do! ref := builder_disk files path in
  do! sent := upload_output upload "submissionDisk" path (Some ref) in
  do! _ := amend (report_refs None None None sent None) in
  do! _ := amend (report_scans_passed true) in
  amend (report_passed true).
Definition PrepareArtifact (clock : Attempt) (upload : UploadObject) (job : RunnerJob) (data : Bytes) (outputRoot : string)
    (disk : Files) (active : bool) : Prep * result unit :=
  match runnerJob_SourceSnapshot job with
  | None => (mkPrep empty_report disk ∅ active, Err "artifact source grant required")
  | Some source =>
      match Digest (runnerJob_Manifest job) with
      | Err e => (mkPrep empty_report disk ∅ active, Err e)
      | Ok manifestDigest =>
          artifact_body clock upload job data outputRoot
            (mkPrep (report_start manifestDigest (objectRef_Digest source) "" (runnerJob_ExecutionProfileDigest job)) disk ∅ active)
      end
  end.

(** * The receipt of a preparation (prepare.go) *)

(** The checks of a quarantine job. *)
Definition check_quarantine_job (now : Time) (job : RunnerJob) (c : Config) : result ObjectRef :=
  let m := runnerJob_Manifest job in
  match runnerJob_SourceSnapshot job with
  | None => Err "invalid quarantine job binding"
  | Some source =>
      if (runnerJob_APIVersion job !=s APIVersion) || (runnerJob_Kind job !=s "ValidationJob")
         || (runnerJob_Purpose job !=s "preflight") && (runnerJob_Purpose job !=s "artifact_prepare")
         || negb (After (runnerJob_ExpiresAt job) now) || (runnerJob_FencingToken job <? 1)
         || (runnerJob_ExecutionProfileDigest job !=s config_ExecutionProfileDigest c)
         || (runnerJob_RunnerEpoch job !=s config_RunnerEpoch c)
      then Err "invalid quarantine job binding" else
      if (runnerJob_RequiredHostGroup job !=s "") && (runnerJob_RequiredHostGroup job !=s config_HostGroup c)
      then Err "quarantine host group mismatch" else
      if negb (ValidVerificationPolicy (JobVerificationPolicy job)) then Err "quarantine job must bind verification policy" else
      let! _ := ValidateManifest m in
      if validator_RuntimeImageDigest (manifest_Validator m) !=s config_RuntimeImageDigest c
      then Err "quarantine runtime image differs from job" else
      if match config_Capabilities c with Some cap => negb (MatchJobLease m (runnerJob_Purpose job) cap) | None => false end
      then Err "preflight schedule exceeds enrolled authorization envelope" else
      if Sub (runnerJob_ExpiresAt job) now >? wrap64 (JobLeaseDuration m (runnerJob_Purpose job) + Minute)
      then Err "preflight lease exceeds declared schedule" else
      let! _ := matchConfiguredEvaluation m c in
      if (runnerJob_Purpose job ==s "preflight")
         && ((runnerJob_AdvisorySnapshotDigest job !=s pinnedFile_Digest (config_AdvisorySnapshot c))
             || (runnerJob_RuntimeInventoryDigest job !=s pinnedFile_Digest (config_RuntimeInventory c))
             || negb (ValidDigest (runnerJob_AdvisorySnapshotDigest job)) || negb (ValidDigest (runnerJob_RuntimeInventoryDigest job)))
      then Err "quarantine advisory policy differs from signed job" else Ok source
  end.

(** The source fetched into the workspace. *)
Definition fetch_source (source : ObjectRef) (workspace : string) : result Bytes :=
  if objectRef_Size source >? Z.shiftl 96 20 then Err "source object exceeds quarantine limit" else
  fetch rt ∅ source (join workspace "source.json").

(** The build that the job asks for. *)
Definition run_build (clock : Attempt) (upload : UploadObject) (job : RunnerJob) (data : Bytes) (workspace : string) (active : bool)
    : result (Prep * result unit) :=
  if runnerJob_Purpose job ==s "preflight" then
    let! snapshot := readSourceSnapshotForProfile order data (validator_Profile (manifest_Validator (runnerJob_Manifest job))) in
    Ok (Preflight clock upload job snapshot workspace ∅ active)
  else Ok (PrepareArtifact clock upload job data workspace ∅ active).

Definition build_receipt (job : RunnerJob) (finished : Time) (millis : Z) (b : BuildReport) : RunReceipt := {|
  runReceipt_ValidatorResult := None; runReceipt_ParentJobDigest := "";
  runReceipt_VerificationPolicy := runnerJob_VerificationPolicy job; runReceipt_AcceptanceReceiptDigest := "";
  runReceipt_DeploymentMode := runnerJob_DeploymentMode job; runReceipt_OfficialAcceptance := runnerJob_OfficialAcceptance job;
  runReceipt_APIVersion := APIVersion; runReceipt_Kind := "ValidationRunReceipt"; runReceipt_ID := runnerJob_ID job +:+ "-build";
  runReceipt_CreatedAt := UTC finished; runReceipt_Producer := config_HostID (rt_Config rt); runReceipt_JobID := runnerJob_ID job;
  runReceipt_JobDigest := match Digest job with Ok d => d | Err _ => "" end;
  runReceipt_ChallengeLockDigest := runnerJob_ChallengeLockDigest job; runReceipt_ArtifactDigest := runnerJob_ArtifactDigest job;
  runReceipt_SuiteDigest := runnerJob_SuiteDigest job; runReceipt_ExecutionProfileDigest := runnerJob_ExecutionProfileDigest job;
  runReceipt_RunnerEpoch := runnerJob_RunnerEpoch job; runReceipt_FencingToken := runnerJob_FencingToken job;
  runReceipt_HostID := config_HostID (rt_Config rt); runReceipt_HostGroup := config_HostGroup (rt_Config rt);
  runReceipt_Official := true; runReceipt_Outcome := if buildReport_Passed b then "valid" else "invalid_output";
  runReceipt_ScoreTicks := ""; runReceipt_Gates := ∅; runReceipt_DurationMillis := millis; runReceipt_CleanupAttested := true;
  runReceipt_BuildReport := Some b |}.

(** The report that is signed: one that failed grants no object. *)
Definition signed_report (built : Prep * result unit) : BuildReport :=
  let b := match built.2 with
           | Ok _ => pp_report built.1
           | Err e => report_finding e (report_passed false (pp_report built.1))
           end in
  if buildReport_Passed b then b else report_refs None None None None None b.

(** [Prepare]; [active] is the directory of runs, [millis] the duration. *)
Definition prepare_job (clock : Attempt) (upload : UploadObject) (active : bool) (millis : Z) (job : RunnerJob) : bool * result RunReceipt :=
  let c := rt_Config rt in
  let workspace := join (config_WorkRoot c) ("quarantine-" +:+ at_suffix clock "quarantine-") in
  match (let! source := check_quarantine_job (at_now clock) job c in
         let! _ := os_do "mkdirtemp" (config_WorkRoot c) in
         let! data := fetch_source source workspace in
         run_build clock upload job data workspace active) with
  | Err e => (active, Err e)
  | Ok built =>
      (pp_active built.1,
       let! _ := os_do "removeall" workspace or "quarantine teardown failed; host requires intervention" in
       Ok (build_receipt job (at_done clock) millis (signed_report built)))
  end.
Definition open_quarantine_job (now : Time) (envelope : Envelope) : result RunnerJob :=
  let! _ := CheckHost now (rt_Config rt) (rt_Keys rt) in
  match rt_Signer rt with
  | None => Err "certified quarantine signer required"
  | Some _ => let! payload := Verify envelope (rt_Keys rt) in DecodeStrict payload
  end.
Definition Prepare (clock : Attempt) (upload : UploadObject) (active : bool) (millis : Z) (envelope : Envelope) : bool * result Envelope :=
  match open_quarantine_job (at_now clock) envelope with
  | Err e => (active, Err e)
  | Ok job =>
      let '(active, r) := prepare_job clock upload active millis job in
      (active, let! receipt := r in Sign (rt_KeyID rt) (rt_Signer rt) receipt)
  end.
End Builder.
