(* ===== verification/BuilderProofs.v ===== *)
(** A build that passes on the host is one that the service accepts: its bindings, its
    disks, its scan, its fixtures and the signed runs that they come from. *)

From S2P Require Import Prelude Regex GoLib Numbers Types Scores Paths Measurement Evaluation Validate ValidateProofs Sha256 GoJson.
From S2P Require Import Canonical Documents Results ResultsProofs Artifacts Hidden Signatures Checkpoint History Store Platform Preparation.
From S2P Require Import Suites Runners Snapshots Sources Host Wheels Inventory InventoryProofs Executor ExecutorProofs Builder.
From Stdlib Require Import Ascii.
Open Scope Z_scope.

(** * Names *)

Lemma last_sep_inj (c : ascii) (a b x y : list ascii) : c ∉ x → c ∉ y → a ++ c :: x = b ++ c :: y → a = b ∧ x = y.
Proof.
  intros Hx Hy E%(f_equal (@rev ascii)). rewrite !rev_app_distr in E. cbn in E. rewrite <-!app_assoc in E. cbn in E.
  apply sep_inj in E as [Ex%(f_equal (@rev ascii)) Ea%(f_equal (@rev ascii))]; [|by rewrite list_elem_of_In, <-in_rev, <-list_elem_of_In..].
  by rewrite !rev_involutive in Ex, Ea.
Qed.
Lemma nat_string_digits n : "-"%char ∉ list_of (nat_string n).
Proof.
  unfold nat_string. rewrite int_string_nonneg by lia. destruct (nat_digits_spec (Z.of_nat n)) as [_ [Hf _]]; [lia|].
  rewrite Forall_forall in Hf. intros Hc%Hf. done.
Qed.
Lemma nat_string_inj n k : nat_string n = nat_string k → n = k.
Proof. intros E%int_string_inj. lia. Qed.

(** A digest of a document. *)
Lemma Digest_valid `{UnicodeLib} `{JsonCanonicalizer} {A} `{JsonType A} (value : A) d : Digest value = Ok d → ValidDigest d = true.
Proof. unfold Digest. intros Hd. do 2 ok_step Hd. apply (inj Ok) in Hd as <-. apply DigestBytes_valid. Qed.

(** * Steps of a build *)

Section Steps.
Context {A B : Type}.

Lemma bind_ok (m : Building A) (k : A → Building B) st st' b :
  bind m k st = (st', Ok b) ↔ ∃ st1 a, m st = (st1, Ok a) ∧ k a st1 = (st', Ok b).
Proof.
  unfold bind. destruct (m st) as [st1 [a|e]]; split.
  - intros Hk. by exists st1, a.
  - by intros (? & ? & [= <- <-] & Hk).
  - done.
  - by intros (? & ? & ? & ?).
Qed.
Lemma lift_ok (r : result A) st st' a : lift r st = (st', Ok a) ↔ st' = st ∧ r = Ok a.
Proof. unfold lift. split; [by intros [= <- <-]|by intros [-> ->]]. Qed.
End Steps.
Lemma unless_ok bad e st st' u : unless bad e st = (st', Ok u) → st' = st ∧ bad = false.
Proof. unfold unless. intros [-> Hu]%lift_ok. by destruct bad. Qed.

(** The first step of a build that returned. *)
Ltac build_step H :=
  lazymatch type of H with
  | bind _ _ _ = _ =>
      let st := fresh "st" in let x := fresh "x" in let E := fresh "E" in
      apply bind_ok in H as (st & x & E & H); build_step E
  | lift _ _ = _ => apply lift_ok in H as [? H]; subst
  | unless _ _ _ = _ => apply unless_ok in H as [? H]; subst
  | _ => idtac
  end.
Ltac build_steps H :=
  repeat lazymatch type of H with
  | bind _ _ _ = _ => build_step H
  | lift _ _ = _ => build_step H
  | unless _ _ _ = _ => build_step H
  end.

(** What leaves the report as it is. *)
Definition silent {A} (m : Building A) : Prop := ∀ st, pp_report (m st).1 = pp_report st.

Create HintDb silent.
Section Silence.
Context {A B : Type}.

Lemma silent_lift (r : result A) : silent (lift r).
Proof. done. Qed.
Lemma silent_bind (m : Building A) (k : A → Building B) : silent m → (∀ a, silent (k a)) → silent (bind m k).
Proof.
  intros Hm Hk st. unfold bind. specialize (Hm st). destruct (m st) as [st1 [a|e]]; [|done]. cbn [fst] in Hm. by rewrite Hk, Hm.
Qed.
Lemma silent_ok (m : Building A) st st' a : silent m → m st = (st', Ok a) → pp_report st' = pp_report st.
Proof. intros Hm Hs. specialize (Hm st). by rewrite Hs in Hm. Qed.
End Silence.
Lemma silent_unless bad e : silent (unless bad e).
Proof. done. Qed.
Lemma silent_write path data : silent (write_file path data).
Proof. done. Qed.
Lemma silent_local digest path : silent (local_object digest path).
Proof. done. Qed.
Lemma silent_objects : silent get_objects.
Proof. done. Qed.
Lemma amend_ok f st st' u : amend f st = (st', Ok u) → pp_report st' = f (pp_report st).
Proof. unfold amend. by intros [= <- _]. Qed.
#[export] Hint Resolve silent_lift silent_unless silent_write silent_local silent_objects : silent.
#[export] Hint Resolve silent_bind : silent.

(** The report after each step. *)
Ltac reported :=
  repeat match goal with
  | E : amend _ _ = (?st', Ok _) |- context [pp_report ?st'] => rewrite (amend_ok _ _ _ _ E); clear E
  | E : ?m _ = (?st', Ok _) |- context [pp_report ?st'] =>
      let Hs := fresh in assert (silent m) as Hs by eauto 10 with silent; rewrite (silent_ok _ _ _ _ Hs E); clear Hs E
  end.

Section Prepared.
Context `{HostOS} `{Workspace} `{Machine} `{Crypto} `{!Pki} `{UnicodeLib} `{UrlLib} `{SourceNet} `{WheelLib} `{JsonCanonicalizer}.
Context `{Aead} `{Curve} `{JsonType SuiteKeyMaterial} `{JsonType RuntimeInventory} `{JsonType Config} `{JsonType HostAttestation}.
Context `{JsonType ExecutorCapabilities} `{JsonType RunnerJob} `{JsonType Manifest} `{JsonType ValidatorResult} `{JsonType RunReceipt}.
Context `{JsonType anyValue} `{JsonType AdvisorySnapshot} `{JsonType (gmap string string)} `{JsonType Envelope} `{JsonType ArtifactTree}.
Context `{JsonType SourceSnapshot} `{JsonType ArtifactSnapshot} `{JsonType HiddenSource} `{YamlLib}.
Context (rt : Runtime) (order : Files → list (string * Bytes)).

(** * Disks *)

Lemma silent_disk tree destination : silent (builder_disk rt tree destination).
Proof. unfold builder_disk. eauto 10 with silent. Qed.
#[local] Hint Resolve silent_disk : silent.
Lemma silent_tree_disk root tree destination : silent (tree_disk rt order root tree destination).
Proof. unfold tree_disk. eauto 10 with silent. Qed.
Lemma silent_make_disk root name tree objects : silent (make_disk rt root name tree objects).
Proof. unfold make_disk. eauto 10 with silent. Qed.
Lemma silent_run_child objects material now child : silent (run_child rt objects material now child).
Proof. intros st. unfold run_child. by destruct (runJob _ _ _ _ _ _). Qed.
Lemma silent_copy source destination : silent (copy_disk source destination).
Proof.
  intros st. unfold copy_disk. destruct (pp_disk st !! source) as [data|]; [|done].
  assert (silent (do! _ := lift (os_do "create" destination) in write_file destination data)) as Hs by eauto with silent. apply Hs.
Qed.
Lemma silent_seal material plain filename : silent (seal_disk material plain filename).
Proof.
  intros st. unfold seal_disk. destruct material as [material|]; [|done]. destruct (pp_disk st !! filename) as [data|]; [|done].
  match goal with |- pp_report (?m st).1 = _ => assert (silent m) as Hs by eauto 10 with silent end. apply Hs.
Qed.
#[local] Hint Resolve silent_tree_disk silent_make_disk silent_run_child silent_copy silent_seal : silent.

Lemma silent_probe clock job m root artifact validator submission suite objects i test :
  silent (run_probe rt order clock job m root artifact validator submission suite objects i test).
Proof. unfold run_probe. destruct test as [[name code] expected]. eauto 20 with silent. Qed.
#[local] Hint Resolve silent_probe : silent.
Lemma silent_probes clock job m root artifact validator submission suite objects i tests :
  silent (run_probes rt order clock job m root artifact validator submission suite objects i tests).
Proof. revert i objects. induction tests; intros i objects; cbn [run_probes]; eauto with silent. Qed.
#[local] Hint Resolve silent_probes : silent.
Lemma silent_isolation clock parent outputRoot : silent (isolationCorpus rt order clock parent outputRoot).
Proof. unfold isolationCorpus. cbv zeta. eauto 20 with silent. Qed.

(** What the disks of a build leave in its report. *)
Definition report_disks (first sealed : ObjectRef) (suiteDigest : string) (b : BuildReport) : BuildReport :=
  report_suite sealed (report_suite_digest suiteDigest (report_challenge first (report_offline
    (report_rebuilt (objectRef_Digest first) (report_validator first b))))).

Lemma seal_disk_ok material plain filename st st' sealed : seal_disk material plain filename st = (st', Ok sealed) →
  sealed.2 = match material with None => objectRef_Digest sealed.1 | Some material => suiteKeyMaterial_Commitment material end.
Proof.
  unfold seal_disk. destruct material as [material|]; [|by intros [= <- <-]]. destruct (pp_disk st !! filename); [|done].
  intros Hs. build_steps Hs. by apply (inj Ok) in Hs as <-.
Qed.

Lemma build_disks_ok snapshot validator suite material workspace outputRoot st st' disks :
  build_disks rt order snapshot validator suite material workspace outputRoot st = (st', Ok disks) →
  pp_report st' = report_disks disks.1.1 disks.1.2 disks.2 (pp_report st) ∧
  disks.2 = match material with None => objectRef_Digest disks.1.2 | Some material => suiteKeyMaterial_Commitment material end.
Proof.
  unfold build_disks. intros Hd. build_steps Hd. apply (inj Ok) in Hd as <-. cbn [fst snd].
  split; [|by eapply seal_disk_ok].
  unfold build_validator in *. reported. bool_prop. unfold report_disks.
  repeat match goal with Hx : objectRef_Digest _ = objectRef_Digest _ |- _ => rewrite <-Hx; clear Hx end. by destruct (pp_report st).
Qed.


(** * Fixtures *)

(** A signed run of a fixture: an executor's receipt of a child of the job, under the
    parent's digest, the suite of the build and the fixture's artifact. *)
Definition run_id (nano : Z) (index repeat : nat) : string :=
  "preflight-" +:+ int_string nano +:+ "-" +:+ nat_string index +:+ "-" +:+ nat_string repeat.
Record ran (job : RunnerJob) (parentDigest suiteDigest artifact : string) (index repeat : nat) (run : Envelope * RunReceipt) : Prop := {
  ran_signed : ∃ signer payload, rt_Signer rt = Some signer ∧ Verify run.1 {[rt_KeyID rt := Public signer]} = Ok payload ∧
    DecodeStrict payload = Ok run.2;
  ran_receipt : ∃ nano validator submission suite challenge args root assets deadline,
    run.2 = run_receipt rt (child_job parentDigest (run_id nano index repeat) artifact suiteDigest (runnerJob_Manifest job)
      validator submission suite challenge job) (Jail args root assets deadline)
}.

(** What is signed reads back. *)
Context (Hcodec : ∀ (r : RunReceipt) data canonical, Marshal r = Ok data → CanonicalJSON data = Ok canonical → DecodeStrict canonical = Ok r).

Lemma run_child_ok objects material now child st st' run : run_child rt objects material now child st = (st', Ok run) →
  ∃ signer payload args root assets deadline, rt_Signer rt = Some signer ∧ Verify run.1 {[rt_KeyID rt := Public signer]} = Ok payload ∧
    DecodeStrict payload = Ok run.2 ∧ run.2 = run_receipt rt child (Jail args root assets deadline).
Proof.
  unfold run_child. destruct (runJob _ _ _ _ _ _) as [active r] eqn:Hr. intros Hs. injection Hs as _ Hs. ok_step Hs.
  destruct (rt_Signer rt) as [signer|] eqn:Hk; [|done]. do 2 ok_step Hs. apply (inj Ok) in Hs as <-. subst r. cbn [fst snd].
  unfold runJob in Hr. case_match; [done|]. case_match; [done|]. injection Hr as _ Hr. unfold execute in Hr. ok_step Hr.
  unfold finish_run in Hr. do 2 ok_step Hr. change (rt_Signer (local_runtime rt objects material)) with (rt_Signer rt) in Hr. rewrite Hk in Hr.
  change (rt_KeyID (local_runtime rt objects material)) with (rt_KeyID rt) in Hr.
  change (run_receipt (local_runtime rt objects material)) with (run_receipt rt) in Hr.
  destruct (Sign_payload _ _ _ _ Hr) as (data & canonical & Hm & Hc & Hp).
  assert (r1 = canonical) as ->.
  { unfold Verify in E0. rewrite Hp in E0. ok_steps E0. by apply (inj Ok) in E0. }
  eexists signer, canonical, _, _, _, _. split_and!; [done..|]. apply (Hcodec _ _ _ Hm) in Hc. rewrite E1 in Hc. by apply (inj Ok) in Hc.
Qed.

Lemma fixture_run_ok clock job material disks artifact submission index repeat parentDigest st st' run :
  fixture_run rt clock job material disks artifact submission index repeat st = (st', Ok run) → Digest job = Ok parentDigest →
  pp_report st' = report_run (pp_report st) ∧ ran job parentDigest disks.2 artifact index repeat run.
Proof.
  unfold fixture_run. destruct disks as [[validator suite] suiteDigest]. cbn [snd]. intros Hf Hd. build_step Hf. rewrite Hd in E.
  apply (inj Ok) in E as <-. build_steps Hf. apply (inj Ok) in Hf as <-. split; [by reported|].
  destruct (run_child_ok _ _ _ _ _ _ _ E0) as (signer & payload & args & root & assets & deadline & ? & ? & ? & Hr).
  split; [by exists signer, payload|]. by eexists _, _, _, _, _, args, root, assets, deadline.
Qed.

(** What a fixture leaves in the report, with the number of its runs. *)
Inductive fixture_done (job : RunnerJob) (parentDigest suiteDigest : string) (index : nat) (f : Fixture) : FixtureReport → Z → Prop :=
| done_parsed : fixture_done job parentDigest suiteDigest index f (unparsed_fixture f) 0
| done_ran artifact one two : ValidDigest artifact = true → ran job parentDigest suiteDigest artifact index 0 one →
    ran job parentDigest suiteDigest artifact index 1 two →
    fixture_done job parentDigest suiteDigest index f (fixture_verdict (runnerJob_Manifest job) f one two) 2.
Inductive fixtures_done (job : RunnerJob) (parentDigest suiteDigest : string) : nat → list Fixture → list FixtureReport → Z → Prop :=
| no_fixtures index : fixtures_done job parentDigest suiteDigest index [] [] 0
| more_fixtures index f fs r rs n k : fixture_done job parentDigest suiteDigest index f r n →
    fixtures_done job parentDigest suiteDigest (S index) fs rs k →
    fixtures_done job parentDigest suiteDigest index (f :: fs) (r :: rs) (n + k).

Definition report_fixtures (n : Z) (rs : list FixtureReport) (b : BuildReport) : BuildReport :=
  let '(mkBuildReport runs sb vs md sd vd rv vi su ep off fx ho sc pa fi v c s a) := b in
  mkBuildReport (runs + n) sb vs md sd vd rv vi su ep off (fx ++ rs) ho sc pa fi v c s a.
Lemma report_no_fixtures b : report_fixtures 0 [] b = b.
Proof. destruct b. cbn. by rewrite Z.add_0_r, app_nil_r. Qed.
Lemma report_fixtures_app n k rs rs' b : report_fixtures k rs' (report_fixtures n rs b) = report_fixtures (n + k) (rs ++ rs') b.
Proof. destruct b. cbn. by rewrite <-Z.add_assoc, <-app_assoc. Qed.

Lemma treeFor_digest files ranged c tree digest : ArtifactFromFiles files ranged c = Ok (tree, digest) → ValidDigest digest = true.
Proof.
  unfold ArtifactFromFiles, treeFor, tree_digest. intros Ha. do 4 ok_step Ha. ok_steps E1. apply (inj Ok) in E1 as <-, Ha. injection Ha as _ <-.
  apply DigestBytes_valid.
Qed.

Lemma run_fixture_ok clock job snapshot material disks workspace index f parentDigest st st' u :
  run_fixture rt order clock job snapshot material disks workspace index f st = (st', Ok u) → Digest job = Ok parentDigest →
  ∃ r n, fixture_done job parentDigest disks.2 index f r n ∧ pp_report st' = report_fixtures n [r] (pp_report st).
Proof.
  unfold run_fixture. intros Hf Hd. destruct (ArtifactFromFiles _ _ _) as [[tree artifact]|] eqn:Ha.
  - build_steps Hf. apply (fixture_run_ok _ _ _ _ _ _ _ _ parentDigest) in E1 as [E1 R1], E2 as [E2 R2]; [|done..].
    eexists _, 2. split; [apply (done_ran _ _ _ _ _ artifact x1 x2); [by eapply treeFor_digest|done|done]|].
    rewrite (amend_ok _ _ _ _ Hf), E2, E1. reported. destruct (pp_report st). cbn. f_equal. lia.
  - eexists _, 0. split; [apply done_parsed|]. rewrite (amend_ok _ _ _ _ Hf). destruct (pp_report st). cbn. f_equal. lia.
Qed.

Lemma each_fixture_ok clock job snapshot material disks workspace parentDigest fs index st st' u :
  each (run_fixture rt order clock job snapshot material disks workspace) index fs st = (st', Ok u) → Digest job = Ok parentDigest →
  ∃ rs n, fixtures_done job parentDigest disks.2 index fs rs n ∧ pp_report st' = report_fixtures n rs (pp_report st).
Proof.
  intros Hf Hd. revert index st Hf. induction fs as [|f fs IH]; intros index st Hf; cbn [each] in Hf.
  { build_steps Hf. exists [], 0. split; [constructor|]. by rewrite report_no_fixtures. }
  build_step Hf. destruct (run_fixture_ok _ _ _ _ _ _ _ _ parentDigest _ _ _ E Hd) as (r & n & Hr & E1).
  destruct (IH _ _ Hf) as (rs & k & Hrs & E2). exists (r :: rs), (n + k). split; [by constructor|].
  rewrite E2, E1. apply report_fixtures_app.
Qed.

(** ** The evidence of the runs *)

Lemma run_id_inj n i r n' i' r' : run_id n i r = run_id n' i' r' → i = i' ∧ r = r'.
Proof.
  intros E%(f_equal list_of). unfold run_id in E. rewrite !list_of_app in E. change (list_of "-") with ["-"%char] in E. cbn [app] in E.
  rewrite !(app_comm_cons _ _ "-"%char), !app_assoc in E.
  apply last_sep_inj in E as [E Er]; [|apply nat_string_digits..]. apply last_sep_inj in E as [_ Ei]; [|apply nat_string_digits..].
  split; by apply nat_string_inj, list_of_inj.
Qed.
Lemma run_id_prefixed n i r : HasPrefix (run_id n i r) "preflight-" = true.
Proof. done. Qed.
(** The receipt of a run is not that of the build. *)
Lemma run_not_build id id' : id +:+ "-run" ≠ id' +:+ "-build".
Proof.
  intros E%(f_equal list_of). rewrite !list_of_app in E. change (list_of "-run") with (["-"; "r"; "u"] ++ ["n"])%char in E.
  change (list_of "-build") with (["-"; "b"; "u"; "i"; "l"] ++ ["d"])%char in E. rewrite !app_assoc in E.
  by apply app_inj_tail in E as [_ ?].
Qed.
Lemma run_receipt_id id id' : id +:+ "-run" = id' +:+ "-run" → id = id'.
Proof. intros E%(f_equal list_of). rewrite !list_of_app in E. by apply app_inv_tail, list_of_inj in E. Qed.

Section Evidence.
Context (job : RunnerJob) (parent : RunReceipt) (b : BuildReport) (host : runnerIdentity) (signer : Signer) (parentDigest : string) (done_ : Time).
Context (Hsigner : rt_Signer rt = Some signer) (Hkey : host_ID host = rt_KeyID rt) (Hid : host_ID host = config_HostID (rt_Config rt)).
Context (Hgroup : host_Group host = config_HostGroup (rt_Config rt)) (Hparent : runReceipt_ID parent = runnerJob_ID job +:+ "-build").
Context (Hdone : runReceipt_CreatedAt parent = UTC done_) (Hname : HasPrefix (runnerJob_ID job) "preflight-" = false).
Context (Htimes : ∀ args root assets deadline, t_ns (runnerJob_CreatedAt job) ≤ t_ns (vm_finished (Jail args root assets deadline)) ≤ t_ns done_).
Context (Hchildren : ∀ child : RunnerJob, runnerJob_Manifest child = runnerJob_Manifest job → ∃ d, Digest child = Ok d).
Context (Htyped : ∀ data res ticks, ValidateResult data (runnerJob_Manifest job) = Ok (res, ticks) → reads_back res).

(** The attempts seen are those of earlier runs. *)
Definition earlier (index repeat : nat) (ev : evidence) : Prop :=
  ∀ n i r, run_id n i r ∈ ev_jobs ev ∨ run_id n i r +:+ "-run" ∈ ev_receipts ev → (i < index ∨ i = index ∧ r < repeat)%nat.

Lemma attempt_accepted fixture st run artifact index repeat :
  ran job parentDigest (buildReport_SuiteDigest b) artifact index repeat run → ValidDigest artifact = true →
  earlier index repeat (at_evidence st) → at_artifact st = "" ∨ at_artifact st = artifact →
  runReceipt_Outcome run.2 = fixtureReport_Outcome fixture → runReceipt_Outcome run.2 ≠ "infrastructure_fault" →
  (is_performance (runnerJob_Manifest job) = false → runReceipt_ScoreTicks run.2 = fixtureReport_ScoreTicks fixture) →
  ∃ ev, attempt_step job parent b host (Public signer) parentDigest fixture st run.1 = Ok (mkAttempts ev artifact (at_runs st ++ [run.2])) ∧
    ev_total ev = ev_total (at_evidence st) + 1 ∧ earlier index (S repeat) ev.
Proof.
  intros [(k & payload & Hk & Hv & Hp) (nano & vd & sb & su & ch & args & root & assets & deadline & Hr)] Ha Hev Hart Ho Hnf Hticks.
  unfold attempt_step. rewrite Hk in Hsigner. apply (inj Some) in Hsigner as ->. rewrite Hkey, Hv, Hp.
  set (child := child_job _ _ _ _ _ _ _ _ _ _) in Hr. set (vm := Jail _ _ _ _) in Hr.
  destruct (outcome_evidence (runnerJob_Manifest job) run.2) as [|(_ & He & Hval)]; [rewrite Hr; apply (run_receipt_outcome rt child)|done|done|].
  destruct (run_receipt_shape rt child vm) as (o & t & g & v & Hs). rewrite Hs in Hr.
  destruct (Hchildren child eq_refl) as [d Hd].
  assert (attempt_identity job parent (at_evidence st) run.2 = true) as ->.
  { unfold attempt_identity. rewrite Hr. cbn. rewrite Hparent.
    pose proof (run_id_prefixed nano index repeat) as Hpre.
    rewrite (proj2 (String.eqb_neq _ (runnerJob_ID job +:+ "-build"))) by apply run_not_build.
    rewrite (proj2 (String.eqb_neq (run_id _ _ _) (runnerJob_ID job))) by (intros Hx; rewrite Hx in Hpre; congruence).
    rewrite !bool_decide_eq_false_2; [done|intros Hx; destruct (Hev nano index repeat); [by right|lia..]|
      intros Hx; destruct (Hev nano index repeat); [by left|lia..]]. }
  assert (attempt_bindings job parent b host parentDigest run.2 = true) as ->.
  { unfold attempt_bindings. rewrite Hr. cbn. rewrite Hdone, Hid, Hgroup, Hd, Ha, !String.eqb_refl, eqb_reflx, Z.eqb_refl.
    specialize (Htimes args root assets deadline). fold vm in Htimes. unfold Before, After, UTC. cbn [t_ns andb negb].
    rewrite !(proj2 (Z.ltb_ge _ _)) by lia. cbn [andb negb]. rewrite andb_true_r. exact (Digest_valid child d Hd). }
  rewrite Ho, String.eqb_refl. cbn [negb orb].
  assert (runReceipt_ArtifactDigest run.2 = artifact) as -> by by rewrite Hr.
  assert (negb (is_performance (runnerJob_Manifest job)) && (runReceipt_ScoreTicks run.2 !=s fixtureReport_ScoreTicks fixture) = false) as ->.
  { destruct (is_performance _); [done|]. by rewrite Hticks, String.eqb_refl. }
  assert ((at_artifact st !=s "") && (at_artifact st !=s artifact) = false) as ->.
  { destruct Hart as [->| ->]; [done|]. by rewrite String.eqb_refl, andb_false_r. }
  cbn [orb]. assert ((fixtureReport_Outcome fixture ==s "valid") && negb (gates_pass (runReceipt_Gates run.2) (runnerJob_Manifest job)) = false) as ->.
  { rewrite <-Ho. destruct (String.eqb_spec (runReceipt_Outcome run.2) "valid") as [Hx|]; [|done]. by destruct (Hval Hx) as [-> _]. }
  rewrite He. eexists. split; [reflexivity|]. split; [done|]. unfold earlier. cbn [ev_jobs ev_receipts].
  assert (runReceipt_JobID run.2 = run_id nano index repeat ∧ runReceipt_ID run.2 = run_id nano index repeat +:+ "-run") as [-> ->] by by rewrite Hr.
  intros n i r. rewrite !elem_of_union, !elem_of_singleton. intros [[[-> ->]%run_id_inj|Hx]|[[-> ->]%run_receipt_id%run_id_inj|Hx]]; [lia| |lia|].
  - destruct (Hev n i r); [by left|lia..].
  - destruct (Hev n i r); [by right|lia..].
Qed.

(** What a passed verdict says of its two runs. *)
Lemma verdict_passed m f one two : fixtureReport_Passed (fixture_verdict m f one two) = true →
  runReceipt_Outcome one.2 = fixture_ExpectedOutcome f ∧ runReceipt_Outcome two.2 = fixture_ExpectedOutcome f ∧
  if is_performance m then ValidateMeasuredFixture one.2 two.2 m f = Ok (fixtureReport_ScoreTicks (fixture_verdict m f one two))
  else runReceipt_ScoreTicks one.2 = fixtureReport_ScoreTicks (fixture_verdict m f one two) ∧
       runReceipt_ScoreTicks two.2 = fixtureReport_ScoreTicks (fixture_verdict m f one two) ∧
       (fixture_ExpectedTicks f = "" ∨ fixtureReport_ScoreTicks (fixture_verdict m f one two) = fixture_ExpectedTicks f).
Proof.
  unfold fixture_verdict. destruct (is_performance m).
  - destruct (ValidateMeasuredFixture _ _ _ _) as [score|] eqn:Hv; cbn; [|done]. intros _.
    unfold ValidateMeasuredFixture in Hv. ok_step Hv. bool_prop. split; [done|]. split; [congruence|done].
  - cbn. intros Hp. bool_prop. split_and!; [done|congruence|done..|].
    match goal with Hx : (_ || _) = true |- _ => apply orb_true_iff in Hx as [Hx%String.eqb_eq|Hx%String.eqb_eq] end; [by left|by right].
Qed.

(** A declared fixture of a valid manifest. *)
Record declared (m : Manifest) (f : Fixture) : Prop := {
  dc_outcome : fixture_ExpectedOutcome f ≠ "infrastructure_fault";
  dc_required : fixture_Name f = "baseline" ∨ fixture_Name f = "valid" → fixture_ExpectedOutcome f = "valid";
  dc_measured : is_performance m = true → fixture_ExpectedTicks f = "";
  dc_found : declared_fixture m (fixture_Name f) = Some f
}.

Lemma fixture_accepted index f r n ev : fixture_done job parentDigest (buildReport_SuiteDigest b) index f r n →
  fixtureReport_Passed r = true → declared (runnerJob_Manifest job) f → earlier index 0 ev →
  ∃ ev', fixture_evidence_step job parent b host (Public signer) parentDigest ev r = Ok ev' ∧
    ev_total ev' = ev_total ev + n ∧ earlier (S index) 0 ev'.
Proof.
  intros [|artifact one two Ha R1 R2] Hp [Ho Hreq _ Hfound] Hev.
  - cbn in Hp. apply String.eqb_eq in Hp. exists ev. split; [|split; [lia|intros n' i k Hx; destruct (Hev n' i k Hx); lia]].
    unfold fixture_evidence_step. assert (parsed_only (unparsed_fixture f) = true) as ->; [|done].
    unfold parsed_only, unparsed_fixture. cbn. rewrite !(proj2 (String.eqb_neq _ _)); [done|intros Hx..]; rewrite Hreq in Hp by eauto; done.
  - apply verdict_passed in Hp as (O1 & O2 & Hticks). unfold fixture_evidence_step.
    set (rep := fixture_verdict (runnerJob_Manifest job) f one two) in *.
    assert (parsed_only rep = false ∧ fixtureReport_Stage rep = "isolated_execution" ∧ fixtureReport_FreshVMRuns rep = 2 ∧
      fixtureReport_RunReceipts rep = [one.1; two.1] ∧ fixtureReport_Outcome rep = runReceipt_Outcome one.2 ∧
      fixtureReport_Name rep = fixture_Name f) as (-> & -> & -> & -> & Hout & Hn).
    { unfold rep, fixture_verdict, parsed_only. destruct (is_performance _); [destruct (ValidateMeasuredFixture _ _ _ _)|]; done. }
    cbn [foldM]. change ((lenl [one.1; two.1] =? 2)) with true. cbn iota beta.
    destruct (attempt_accepted rep (mkAttempts ev "" []) one artifact index 0) as (ev1 & -> & T1 & V1); [done..|by left|congruence|congruence| |].
    { intros Hnp. rewrite Hnp in Hticks. apply Hticks. }
    destruct (attempt_accepted rep (mkAttempts ev1 artifact ([] ++ [one.2])) two artifact index 1) as (ev2 & Hs & T2 & V2); [done..|by right|congruence|congruence| |].
    { intros Hnp. rewrite Hnp in Hticks. apply Hticks. }
    cbn [at_runs app] in Hs |- *. rewrite Hs. exists ev2. cbn [at_evidence at_runs] in *. split; [|split; [lia|]].
    + unfold check_measured_fixture. destruct (is_performance _); cbn [negb]; [|done]. by rewrite Hn, Hfound, Hticks, !String.eqb_refl.
    + intros z i k Hx. destruct (V2 z i k Hx); lia.
Qed.

Lemma fixtures_accepted index fs rs n ev : fixtures_done job parentDigest (buildReport_SuiteDigest b) index fs rs n →
  Forall (λ r, fixtureReport_Passed r = true) rs → Forall (declared (runnerJob_Manifest job)) fs → earlier index 0 ev →
  ∃ ev', foldM (fixture_evidence_step job parent b host (Public signer) parentDigest) ev rs = Ok ev' ∧ ev_total ev' = ev_total ev + n.
Proof.
  intros Hd. revert ev. induction Hd as [index|index f fs r rs n k Hf _ IH]; intros ev Hp Hfs Hev.
  { exists ev. split; [done|lia]. }
  apply Forall_cons in Hp as [Hp Hps], Hfs as [Hdf Hfs]. destruct (fixture_accepted _ _ _ _ _ Hf Hp Hdf Hev) as (ev1 & Hs & T1 & V1).
  destruct (IH ev1 Hps Hfs V1) as (ev2 & Hs2 & T2). exists ev2. cbn [foldM]. rewrite Hs. split; [exact Hs2|lia].
Qed.
End Evidence.

(** The reports carry the names of the fixtures. *)
Lemma fixture_done_name job parentDigest suiteDigest index f r n : fixture_done job parentDigest suiteDigest index f r n →
  fixtureReport_Name r = fixture_Name f.
Proof.
  intros [|artifact one two _ _ _]; [done|]. unfold fixture_verdict. destruct (is_performance _); [destruct (ValidateMeasuredFixture _ _ _ _)|]; done.
Qed.
Lemma fixtures_done_names job parentDigest suiteDigest index fs rs n : fixtures_done job parentDigest suiteDigest index fs rs n →
  map fixtureReport_Name rs = map fixture_Name fs.
Proof. induction 1 as [|index f fs r rs n k Hf _ IH]; [done|]. cbn [map]. by rewrite (fixture_done_name _ _ _ _ _ _ _ Hf), IH. Qed.

(** The service finds each declared fixture with the outcome and the score it expects. *)
Lemma fixture_checked job parentDigest suiteDigest index f r n fixtures : fixture_done job parentDigest suiteDigest index f r n →
  fixtureReport_Passed r = true → fixtures !! fixture_Name f = Some r → declared (runnerJob_Manifest job) f →
  (fixture_ExpectedOutcome f = "invalid_output" → fixture_ExpectedTicks f = "") → check_build_fixture fixtures f = Ok tt.
Proof.
  intros Hd Hp Hf [_ _ Hm _] Hu. unfold check_build_fixture. rewrite Hf, Hp. destruct Hd as [|artifact one two _ _ _].
  - cbn in *. apply String.eqb_eq in Hp. rewrite Hp, (Hu Hp). done.
  - apply verdict_passed in Hp as (O1 & _ & Hticks).
    assert (fixtureReport_ExpectedOutcome (fixture_verdict (runnerJob_Manifest job) f one two) = fixture_ExpectedOutcome f ∧
      fixtureReport_Outcome (fixture_verdict (runnerJob_Manifest job) f one two) = fixture_ExpectedOutcome f) as [-> ->].
    { unfold fixture_verdict. destruct (is_performance _); [destruct (ValidateMeasuredFixture _ _ _ _)|]; done. }
    rewrite String.eqb_refl. cbn [negb orb]. destruct (is_performance _); [by rewrite Hm|].
    destruct Hticks as (_ & _ & [-> | ->]); [done|]. by rewrite String.eqb_refl, andb_false_r.
Qed.
Lemma fixtures_checked job parentDigest suiteDigest index fs rs n fixtures : fixtures_done job parentDigest suiteDigest index fs rs n →
  Forall (λ r, fixtureReport_Passed r = true) rs → (∀ r, r ∈ rs → fixtures !! fixtureReport_Name r = Some r) →
  Forall (declared (runnerJob_Manifest job)) fs → Forall (λ f, fixture_ExpectedOutcome f = "invalid_output" → fixture_ExpectedTicks f = "") fs →
  for_each (check_build_fixture fixtures) fs = Ok tt.
Proof.
  intros Hd. induction Hd as [|index f fs r rs n k Hf _ IH]; intros Hp Hall Hfs Hu; [done|].
  apply Forall_cons in Hp as [Hp Hps], Hfs as [Hdf Hfs], Hu as [Hu Hus]. cbn [for_each].
  rewrite (fixture_checked _ _ _ _ _ _ _ fixtures Hf Hp); [|rewrite <-(fixture_done_name _ _ _ _ _ _ _ Hf); apply Hall; by left|done..].
  apply IH; [done| |done..]. intros x Hx. apply Hall. by right.
Qed.

(** Fixtures that must be valid are executed, twice each. *)
Lemma fixtures_executed job parentDigest suiteDigest index fs rs n : fixtures_done job parentDigest suiteDigest index fs rs n →
  Forall (λ r, fixtureReport_Passed r = true) rs → 2 * lenl (filter (λ f, fixture_ExpectedOutcome f = "valid") fs) ≤ n.
Proof.
  induction 1 as [|index f fs r rs n k Hf _ IH]; intros Hp; [done|]. apply Forall_cons in Hp as [Hp Hps]. specialize (IH Hps).
  rewrite filter_cons. unfold lenl in *. case_decide as Hv; [cbn [length]|]; destruct Hf; try lia.
  cbn in Hp. apply String.eqb_eq in Hp. congruence.
Qed.
End Prepared.

(** * The fixtures of a valid manifest *)

Section Declared.
Context `{UnicodeLib} `{UrlLib} `{JsonCanonicalizer}.

(** What the check of a fixture assures. *)
Definition expected (m : Manifest) (f : Fixture) : Prop :=
  fixture_ExpectedOutcome f ≠ "infrastructure_fault" ∧
  (fixture_Name f = "baseline" ∨ fixture_Name f = "valid" → fixture_ExpectedOutcome f = "valid") ∧
  (is_performance m = true → fixture_ExpectedTicks f = "").

Lemma is_performance_mode m : is_performance m = (evaluation_mode m ==s "performance").
Proof. unfold is_performance, evaluation_mode. by destruct (manifest_Evaluation m). Qed.

Lemma fixture_step_inv m names f names1 : fixture_step m names f = Ok names1 →
  fixture_Name f ∉ names ∧ names1 = {[fixture_Name f]} ∪ names ∧ expected m f.
Proof.
  unfold fixture_step. intros Hs. ok_step Hs. apply once_ok in E as (_ & Hnew & ->). split; [done|]. do 4 ok_step Hs.
  do 4 ok_step Hs. apply (inj Ok) in Hs as <-. split; [done|]. split_and!.
  - intros Hx. by rewrite Hx in G.
  - intros [Hb|Hv].
    + rewrite Hb in G1. cbn in G1. by bool_prop.
    + rewrite Hv in G2. cbn in G2. by bool_prop.
  - rewrite is_performance_mode. intros Hm. rewrite Hm in G0. cbn in G0. by bool_prop.
Qed.

Lemma fixture_steps m names fs names' : foldM (fixture_step m) names fs = Ok names' →
  NoDup (map fixture_Name fs) ∧ (∀ x, x ∈ names' ↔ x ∈ names ∨ x ∈ map fixture_Name fs) ∧ (∀ f, f ∈ fs → fixture_Name f ∉ names) ∧
  Forall (expected m) fs.
Proof.
  revert names. induction fs as [|f fs IH]; intros names Hf; cbn [foldM] in Hf.
  { apply (inj Ok) in Hf as <-. split_and!; [constructor|set_solver|set_solver|done]. }
  destruct (fixture_step m names f) as [names1|] eqn:Hs; [|done]. destruct (IH _ Hf) as (Hn & Hin & Hout & Hall). clear IH Hf.
  apply fixture_step_inv in Hs as (Hnew & -> & He). cbn [map]. split_and!.
  - constructor; [|done]. intros (g & Hg & Hi)%list_elem_of_fmap. apply Hout in Hi. set_solver.
  - intros x. rewrite Hin. set_solver.
  - intros g [->|Hg]%elem_of_cons; [done|]. apply Hout in Hg. set_solver.
  - by constructor.
Qed.

(** The last declaration of a name is the only one. *)
Lemma declared_only m f : NoDup (map fixture_Name (manifest_Fixtures m)) → f ∈ manifest_Fixtures m → declared_fixture m (fixture_Name f) = Some f.
Proof.
  unfold declared_fixture. generalize (@None Fixture). induction (manifest_Fixtures m) as [|g fs IH]; intros acc Hn Hf; [by apply elem_of_nil in Hf|].
  cbn [map] in Hn. apply NoDup_cons in Hn as [Hg Hn]. cbn [foldl]. apply elem_of_cons in Hf as [->|Hf]; [|by apply IH].
  rewrite String.eqb_refl. clear IH. induction fs as [|x fs IH]; [done|]. cbn [foldl map] in *. apply not_elem_of_cons in Hg as [Hx Hg].
  apply NoDup_cons in Hn as [_ Hn]. rewrite (proj2 (String.eqb_neq _ _)) by congruence. by apply IH.
Qed.

(** The fixtures of a valid manifest are declared once each, and two of them are valid. *)
Lemma ValidateManifest_fixtures m : ValidateManifest m = Ok tt →
  NoDup (map fixture_Name (manifest_Fixtures m)) ∧ Forall (declared m) (manifest_Fixtures m) ∧
  2 ≤ lenl (filter (λ f, fixture_ExpectedOutcome f = "valid") (manifest_Fixtures m)).
Proof.
  intros (_ & _ & _ & _ & _ & _ & _ & _ & Hf)%ValidateManifest_inv. unfold validateFixtures in Hf. ok_step Hf.
  apply fixture_steps in E as (Hn & Hin & _ & He). split; [done|]. split.
  - apply Forall_forall. intros f Hi. rewrite Forall_forall in He. destruct (He f Hi) as (? & ? & ?). split; [done..|]. by apply declared_only.
  - apply for_each_ok in Hf. rewrite Forall_forall in He.
    assert (∀ name, name = "baseline" ∨ name = "valid" → ∃ f, f ∈ manifest_Fixtures m ∧ fixture_Name f = name ∧ fixture_ExpectedOutcome f = "valid") as Hreq.
    { intros name Hname. rewrite Forall_forall in Hf. specialize (Hf name). cbv beta in Hf. case_bool_decide as Hr.
      - apply Hin in Hr as [Hr|(f & -> & Hi)%list_elem_of_fmap]; [set_solver|]. exists f. split; [done|]. split; [done|].
        by apply (He f Hi).
      - assert (name ∈ ["baseline"; "valid"; "invalid"; "malformed"]) as Hx by (destruct Hname as [->| ->]; [by left|by right; left]).
        by apply Hf in Hx. }
    destruct (Hreq "baseline") as (f & F1 & F2 & F3); [by left|]. destruct (Hreq "valid") as (g & G1 & G2 & G3); [by right|].
    assert ([f; g] ⊆+ filter (λ f, fixture_ExpectedOutcome f = "valid") (manifest_Fixtures m)) as Hs.
    { apply NoDup_submseteq.
      - apply NoDup_cons. split; [|apply NoDup_singleton]. rewrite list_elem_of_singleton. congruence.
      - intros x [->| ->%list_elem_of_singleton]%elem_of_cons; by apply list_elem_of_filter. }
    apply submseteq_length in Hs. unfold lenl. cbn in Hs. lia.
Qed.

(** ** The fixtures of a report *)

Lemma fixture_map_all rs acc : NoDup (map fixtureReport_Name rs) → (∀ r, r ∈ rs → acc !! fixtureReport_Name r = None) →
  ∃ final, foldM fixture_map_step acc rs = Ok final ∧ (∀ r, r ∈ rs → final !! fixtureReport_Name r = Some r) ∧
    ∀ name r, acc !! name = Some r → final !! name = Some r.
Proof.
  revert acc. induction rs as [|r rs IH]; intros acc Hn Hacc; cbn [foldM].
  { exists acc. split; [done|]. split; [by intros r Hr%elem_of_nil|done]. }
  cbn [map] in Hn. apply NoDup_cons in Hn as [Hr Hn]. unfold fixture_map_step at 1. rewrite (Hacc r) by by left.
  rewrite bool_decide_eq_false_2 by by intros []. destruct (IH (<[fixtureReport_Name r := r]> acc)) as (final & Hf & Hall & Hkeep); [done| |].
  { intros x Hx. rewrite lookup_insert_ne; [apply Hacc; by right|]. intros Heq. apply Hr. rewrite Heq. by apply list_elem_of_fmap_2. }
  exists final. split; [done|]. split.
  - intros x [->|Hx]%elem_of_cons; [apply Hkeep, lookup_insert_eq|by apply Hall].
  - intros name x Hx. apply Hkeep. rewrite lookup_insert_ne; [done|]. intros <-. rewrite (Hacc r) in Hx by by left. done.
Qed.
End Declared.

(** * Uploads *)

(** An upload changes where an object is, not what it is. *)
Definition keeps_digest (upload : UploadObject) : Prop :=
  ∀ role path data ref sent, upload role path data ref = Ok sent → objectRef_Digest sent = objectRef_Digest ref.
Lemma uploader_digest `{UrlLib} grant put : keeps_digest (uploader grant put).
Proof.
  intros role path data ref sent. unfold uploader. intros Hu. do 2 ok_step Hu. destruct r0 as [[scheme address] user]. do 3 ok_step Hu.
  by apply (inj Ok) in Hu as <-.
Qed.

(** The reference of an output that was sent. *)
Definition sent_as (ref : option ObjectRef) (r : option ObjectRef) : Prop :=
  ∃ kept sent, ref = Some kept ∧ r = Some sent ∧ objectRef_Digest sent = objectRef_Digest kept.
Lemma upload_output_ok upload role path ref st st' r : keeps_digest upload → upload_output upload role path ref st = (st', Ok r) →
  st' = st ∧ sent_as ref r.
Proof.
  intros Hk. unfold upload_output. destruct ref as [ref|]; [|done]. destruct (pp_disk st !! path) as [data|]; [|done].
  intros Hu. injection Hu as <- Hu. ok_step Hu. apply (inj Ok) in Hu as <-. split; [done|]. exists ref, r0. split_and!; [done..|].
  by eapply Hk.
Qed.
Lemma upload_outputs_ok upload outputRoot st st' u : keeps_digest upload → upload_outputs upload outputRoot st = (st', Ok u) →
  ∃ v c s sb, pp_report st' = report_refs v c s None sb (pp_report st) ∧ sent_as (buildReport_ValidatorDisk (pp_report st)) v ∧
    sent_as (buildReport_ChallengeDisk (pp_report st)) c ∧ sent_as (buildReport_SuiteDisk (pp_report st)) s ∧
    sent_as (buildReport_SBOM (pp_report st)) sb.
Proof.
  intros Hk. unfold upload_outputs. intros Hu. build_steps Hu. injection E as <- <-.
  repeat match goal with E : upload_output _ _ _ _ _ = _ |- _ => apply (upload_output_ok _ _ _ _ _ _ _ Hk) in E as [-> E] end.
  eexists _, _, _, _. split; [|done]. reported. by destruct (pp_report st).
Qed.

(** * The service accepts a build that passes *)

Section Accepted.
Context `{Env} `{HostOS} `{Workspace} `{Machine} `{Crypto} `{!Pki} `{UnicodeLib} `{UrlLib} `{SourceNet} `{WheelLib} `{JsonCanonicalizer}.
Context `{Aead} `{Curve} `{JsonType SuiteKeyMaterial} `{JsonType RuntimeInventory} `{JsonType Config} `{JsonType HostAttestation}.
Context `{JsonType ExecutorCapabilities} `{JsonType RunnerJob} `{JsonType Manifest} `{JsonType ValidatorResult} `{JsonType RunReceipt}.
Context `{JsonType anyValue} `{JsonType AdvisorySnapshot} `{JsonType (gmap string string)} `{JsonType Envelope} `{JsonType ArtifactTree}.
Context `{JsonType SourceSnapshot} `{JsonType ArtifactSnapshot} `{JsonType HiddenSource} `{YamlLib}.
Context (rt : Runtime) (order : Files → list (string * Bytes)).
Context (Hcodec : ∀ (r : RunReceipt) data canonical, Marshal r = Ok data → CanonicalJSON data = Ok canonical → DecodeStrict canonical = Ok r).

(** What a passed report says of its build. *)
Record passing (clock : Attempt) (job : RunnerJob) (parentDigest : string) (b : BuildReport) : Prop := {
  ps_passed : buildReport_Passed b = true ∧ buildReport_ScansPassed b = true;
  ps_valid : ValidateManifest (runnerJob_Manifest job) = Ok tt;
  ps_manifest : Digest (runnerJob_Manifest job) = Ok (buildReport_ManifestDigest b);
  ps_source : ∃ source, runnerJob_SourceSnapshot job = Some source ∧ buildReport_SourceSnapshotDigest b = objectRef_Digest source;
  ps_profile : buildReport_ExecutionProfileDigest b = runnerJob_ExecutionProfileDigest job;
  ps_image : buildReport_ValidatorImageDigest b = validator_RuntimeImageDigest (manifest_Validator (runnerJob_Manifest job));
  ps_reproducible : reproducible job b = true;
  ps_scan : ∃ files path disk disk' scan ref sbom,
    Scan (Some (rt_Config rt)) (at_now clock) files (order files) (runnerJob_Manifest job) path disk = (disk', scan, ref, Ok tt) ∧
    buildReport_VulnerabilityScan b = Some scan ∧ buildReport_SBOM b = Some sbom ∧ objectRef_Digest sbom = objectRef_Digest ref;
  ps_fixtures : fixtures_done rt job parentDigest (buildReport_SuiteDigest b) 0 (manifest_Fixtures (runnerJob_Manifest job))
    (buildReport_Fixtures b) (buildReport_FreshVMRuns b);
  ps_verdicts : Forall (λ r, fixtureReport_Passed r = true) (buildReport_Fixtures b)
}.

Lemma suite_files_ok job snapshot workspace st files material : suite_files rt order job snapshot workspace st = Ok (files, material) →
  match material with
  | None => suite_Visibility (manifest_Suite (runnerJob_Manifest job)) ==s "hidden" = false
  | Some material => suiteKeyMaterial_Commitment material = suite_Commitment (manifest_Suite (runnerJob_Manifest job)) ∧
      suite_Visibility (manifest_Suite (runnerJob_Manifest job)) = "hidden"
  end.
Proof.
  unfold suite_files. destruct (String.eqb_spec (suite_Visibility (manifest_Suite (runnerJob_Manifest job))) "hidden") as [Hh|Hh]; cbn [negb].
  - intros Hs. do 8 ok_step Hs. apply (inj Ok) in Hs. injection Hs as _ <-. split; [by eapply hiddenMaterial_commitment|done].
  - intros Hs. apply (inj Ok) in Hs. by injection Hs as _ <-.
Qed.

Lemma scan_build_ok clock snapshot m outputRoot st st' u : scan_build rt order clock snapshot m outputRoot st = (st', Ok u) →
  ∃ files path disk disk' scan ref, Scan (Some (rt_Config rt)) (at_now clock) files (order files) m path disk = (disk', scan, ref, Ok tt) ∧
    pp_report st' = report_scan scan (Some ref) (pp_report st).
Proof.
  unfold scan_build. destruct (Scan _ _ _ _ _ _ _) as [[[disk' scan] ref] r] eqn:Hs. intros Hb. injection Hb as <- Hb. ok_step Hb. destruct r0.
  eexists _, _, _, _, _, _. split; [exact Hs|]. cbn [pp_report].
  destruct (Scan_ok _ _ _ _ _ _ _ _ _ _ Hs) as (inventory & packages & sbom & advisories & _ & _ & _ & -> & _). cbn [objectRef_Digest].
  pose proof (DigestBytes_valid sbom) as Hv. destruct (String.eqb_spec (DigestBytes sbom) "") as [Hx|]; [by rewrite Hx in Hv|done].
Qed.

Lemma hostile_ok clock job outputRoot st st' u : hostile_corpus rt order clock job outputRoot st = (st', Ok u) →
  all_passed (pp_report st') = true → pp_report st' = report_hostile true (pp_report st).
Proof.
  unfold hostile_corpus. assert (∀ b, all_passed b = true → buildReport_HostileCorpusPassed b = true) as Hp by by intros b [_ ?]%andb_true_iff.
  destruct (negb (hostileParserCorpus _)).
  { intros ->%amend_ok Ha%Hp. by destruct (pp_report st). }
  pose proof (silent_isolation rt order clock job outputRoot st) as Hs. destruct (isolationCorpus _ _ _ _ _ st) as [st1 [?|e]]; cbn [fst] in Hs.
  - intros ->%amend_ok _. by rewrite Hs.
  - intros Hb Ha%Hp. build_steps Hb. apply amend_ok in E, Hb. rewrite Hb, E in Ha. by destruct (pp_report st1).
Qed.
Lemma preflight_passing clock upload job snapshot outputRoot disk active st u parentDigest : keeps_digest upload →
  Preflight rt order clock upload job snapshot outputRoot disk active = (st, Ok u) → buildReport_Passed (pp_report st) = true →
  Digest job = Ok parentDigest → passing clock job parentDigest (pp_report st).
Proof.
  intros Hk. unfold Preflight. destruct (runnerJob_SourceSnapshot job) as [source|] eqn:Hsource; [|done].
  destruct (Digest (runnerJob_Manifest job)) as [md|] eqn:Hmd; [|done]. unfold preflight_body. cbv zeta. intros Hb Hp Hd.
  build_steps Hb. injection E10 as <- <-. injection E6 as <- E6. destruct x7 as [[first sealed] suiteDigest], x6 as [suite material].
  apply build_disks_ok in E7 as [R3 Hsuite]. apply suite_files_ok in E6.
  destruct (each_fixture_ok _ _ Hcodec _ _ _ _ _ _ parentDigest _ _ _ _ _ E8 Hd) as (rs & n & Hrs & R4). cbn [fst snd] in *.
  destruct (scan_build_ok _ _ _ _ _ _ _ E3) as (files & path & sd & sd' & scan & ref & Hscan & R0). cbn [pp_report] in R0.
  apply amend_ok in E4, E11. destruct (all_passed (pp_report st5)) eqn:Hall; [|build_steps Hb; rewrite E11 in Hp; by destruct (pp_report st5)].
  pose proof (hostile_ok _ _ _ _ _ _ E9 Hall) as R5. apply upload_outputs_ok in Hb as (v & c & s & sb & -> & Hv & Hc & Hs & Hsb); [|done].
  rewrite E11 in *. rewrite R5, R4, R3, E4, R0 in *. clear R5 R4 R3 E4 R0 E11 E8 E9 E3.
  unfold report_start, report_scan, finish_scan, report_scans_passed, report_disks, report_fixtures, all_passed, report_validator, report_rebuilt,
    report_challenge, report_suite_digest, report_suite, report_hostile, report_offline in *.
  cbn in Hall, Hv, Hc, Hs, Hsb, Hp |- *.
  destruct Hv as (? & v' & [= <-] & -> & Dv), Hc as (? & c' & [= <-] & -> & Dc), Hs as (? & s' & [= <-] & -> & Ds), Hsb as (? & sb' & [= <-] & -> & Dsb).
  rewrite String.eqb_refl, !andb_true_r in Hall. apply andb_true_iff in Hall as [Hall Hpass].
  split; cbn; try done.
  - unfold check_snapshot in E. cbv zeta in E. ok_step E. by match goal with Hx : ValidateManifest _ = Ok ?u |- _ => destruct u end.
  - by exists source.
  - unfold reproducible. cbn. rewrite Dv, !String.eqb_refl, !andb_true_r. destruct material as [material|].
    + destruct E6 as [Hm Hh]. rewrite Hh, Hsuite, Hm, !String.eqb_refl. done.
    + rewrite Hsuite, Ds, String.eqb_refl, andb_false_r, E6. done.
  - by eexists _, _, _, _, _, _, _.
  - apply Forall_forall. intros r Hr. rewrite forallb_forall in Hall. by apply Hall, list_elem_of_In.
Qed.

(** The host as the service knows it. *)
Record enrolled (host : runnerIdentity) (signer : Signer) : Prop := {
  er_signer : rt_Signer rt = Some signer;
  er_public : parseRunnerKey (host_PublicKey host) = Ok (Public signer);
  er_key : host_ID host = rt_KeyID rt;
  er_id : host_ID host = config_HostID (rt_Config rt);
  er_group : host_Group host = config_HostGroup (rt_Config rt)
}.

Section Job.
Context (clock : Attempt) (job : RunnerJob) (receipt : RunReceipt) (host : runnerIdentity) (signer : Signer) (parentDigest : string) (b : BuildReport).
Context (Hreport : runReceipt_BuildReport receipt = Some b) (Hpassing : passing clock job parentDigest b).

Lemma passing_validated : runnerJob_Purpose job = "preflight" →
  runnerJob_AdvisorySnapshotDigest job = pinnedFile_Digest (config_AdvisorySnapshot (rt_Config rt)) →
  runnerJob_RuntimeInventoryDigest job = pinnedFile_Digest (config_RuntimeInventory (rt_Config rt)) →
  After (at_now clock) (AddNs Now (5 * Minute)) = false → Before (at_now clock) (AddNs Now (- (7 * 24 * Hour))) = false →
  (separated_toolchain (runnerJob_Manifest job) = true → manifest_APIVersion (runnerJob_Manifest job) = ManifestV2 ∧
     validator_Profile (manifest_Validator (runnerJob_Manifest job)) = "native-evaluator-v2") →
  Forall (λ f, fixture_ExpectedOutcome f = "invalid_output" → fixture_ExpectedTicks f = "") (manifest_Fixtures (runnerJob_Manifest job)) →
  validateBuild job receipt = Ok tt.
Proof.
  intros Hpre Ha Hi Ht1 Ht2 Hsep Hu. destruct Hpassing as [[P1 P2] Hv Hm (source & Hs & Hsd) Hprof Himg Hrep Hsc Hfx Hall].
  unfold validateBuild. rewrite Hreport, P1, P2. cbn [negb orb]. rewrite Hm, Hs, Hsd, Hprof, !String.eqb_refl. cbn [negb orb].
  rewrite Hpre. change ("preflight" ==s "artifact_prepare") with false. cbn iota. rewrite Hrep, Himg, String.eqb_refl. cbn [negb].
  destruct Hsc as (files & path & disk & disk' & scan & ref & sbom & Hsc & B1 & B2 & B3).
  destruct (passing_scan_accepted _ _ _ _ _ _ _ _ _ job b sbom Hsc Ha Hi B1 B2 B3 Ht1 Ht2 Hsep) as (-> & -> & _).
  destruct (ValidateManifest_fixtures _ Hv) as (Hnames & Hdecl & _).
  destruct (fixture_map_all (buildReport_Fixtures b) ∅) as (final & -> & Hfinal & _).
  - by rewrite (fixtures_done_names _ _ _ _ _ _ _ _ Hfx).
  - intros r _. apply lookup_empty.
  - by eapply fixtures_checked.
Qed.

Lemma passing_evidence : enrolled host signer → Digest job = Ok parentDigest →
  runReceipt_ID receipt = runnerJob_ID job +:+ "-build" → runReceipt_CreatedAt receipt = UTC (at_done clock) →
  HasPrefix (runnerJob_ID job) "preflight-" = false →
  (∀ args root assets deadline, t_ns (runnerJob_CreatedAt job) ≤ t_ns (vm_finished (Jail args root assets deadline)) ≤ t_ns (at_done clock)) →
  (∀ child : RunnerJob, runnerJob_Manifest child = runnerJob_Manifest job → ∃ d, Digest child = Ok d) →
  (∀ data res ticks, ValidateResult data (runnerJob_Manifest job) = Ok (res, ticks) → reads_back res) →
  validateFixtureEvidence job receipt host = Ok tt.
Proof.
  intros [E1 E2 E3 E4 E5] Hd Hid Ht Hname Htimes Hch Hty. destruct Hpassing as [_ Hv _ _ _ _ _ _ Hfx Hall].
  destruct (ValidateManifest_fixtures _ Hv) as (_ & Hdecl & Hcount). apply fixtures_executed in Hfx as Hn; [|done].
  unfold validateFixtureEvidence. rewrite E2, Hd, Hreport.
  destruct (fixtures_accepted rt job receipt b host signer parentDigest (at_done clock) E1 E3 E4 E5 Hid Ht Hname Htimes Hch Hty
    0 _ _ _ (mkEvidence ∅ ∅ 0) Hfx Hall Hdecl) as (ev & -> & Htotal).
  { intros z i k. cbn. set_solver. }
  cbn [ev_total] in Htotal. rewrite Htotal, Z.add_0_l, Z.eqb_refl, (proj2 (Z.ltb_ge _ _)) by lia. done.
Qed.
End Job.

(** A signed report that passed is the report of a build that returned. *)
Lemma signed_passed built : buildReport_Passed (signed_report built) = true →
  ∃ st u, built = (st, Ok u) ∧ signed_report built = pp_report st ∧ buildReport_Passed (pp_report st) = true.
Proof.
  destruct built as [st [u|e]]; unfold signed_report; cbn [fst snd].
  - destruct (buildReport_Passed (pp_report st)) eqn:Hp; [intros _; by exists st, u|]. destruct (pp_report st). cbn in *. congruence.
  - destruct (pp_report st). by cbn.
Qed.

(** What a preparation that formed a receipt has checked and built. *)
Lemma prepare_job_ok clock upload active millis job a receipt : prepare_job rt order clock upload active millis job = (a, Ok receipt) →
  ∃ source data workspace built, check_quarantine_job (at_now clock) job (rt_Config rt) = Ok source ∧
    run_build rt order clock upload job data workspace active = Ok built ∧
    receipt = build_receipt rt job (at_done clock) millis (signed_report built).
Proof.
  unfold prepare_job. cbv zeta. set (workspace := join _ _).
  destruct (let! source := check_quarantine_job (at_now clock) job (rt_Config rt) in _) as [built|] eqn:Hb; [|done].
  intros Hp. injection Hp as _ Hp. ok_step Hp. apply (inj Ok) in Hp. do 3 ok_step Hb. by eexists _, _, workspace, built.
Qed.

Lemma check_quarantine_job_ok now job c source : check_quarantine_job now job c = Ok source →
  ValidVerificationPolicy (JobVerificationPolicy job) = true ∧ (runnerJob_Purpose job = "preflight" ∨ runnerJob_Purpose job = "artifact_prepare") ∧
  (runnerJob_Purpose job = "preflight" → runnerJob_AdvisorySnapshotDigest job = pinnedFile_Digest (config_AdvisorySnapshot c) ∧
     runnerJob_RuntimeInventoryDigest job = pinnedFile_Digest (config_RuntimeInventory c)).
Proof.
  unfold check_quarantine_job. destruct (runnerJob_SourceSnapshot job); [|done]. intros Hc. do 9 ok_step Hc. clear Hc.
  bool_prop. split; [done|]. split.
  - destruct (String.eqb_spec (runnerJob_Purpose job) "preflight"); [by left|]. destruct (String.eqb_spec (runnerJob_Purpose job) "artifact_prepare"); [by right|done].
  - intros Hp. rewrite Hp in G5. cbn in G5. by bool_prop.
Qed.

(** A prepared artifact names its disk. *)
Lemma artifact_passing clock upload job data outputRoot disk active st u : keeps_digest upload →
  PrepareArtifact rt order clock upload job data outputRoot disk active = (st, Ok u) →
  ∃ source md kept image, runnerJob_SourceSnapshot job = Some source ∧ Digest (runnerJob_Manifest job) = Ok md ∧
    objectRef_Digest kept = DigestBytes image ∧
    pp_report st = report_passed true (report_scans_passed true (report_refs None None None (Some kept) None
      (report_start md (objectRef_Digest source) "" (runnerJob_ExecutionProfileDigest job)))).
Proof.
  intros Hk. unfold PrepareArtifact. destruct (runnerJob_SourceSnapshot job) as [source|]; [|done].
  destruct (Digest (runnerJob_Manifest job)) as [md|]; [|done]. unfold artifact_body. cbv zeta. intros Hb. build_steps Hb.
  apply (upload_output_ok _ _ _ _ _ _ _ Hk) in E6 as [-> (? & sent & [= <-] & -> & Hd)].
  assert (∃ image, objectRef_Digest x5 = DigestBytes image) as [image Hi].
  { pose proof E5 as Hx. unfold builder_disk in Hx. build_steps Hx. apply (inj Ok) in Hx as <-. by eexists. }
  exists source, md, sent, image. split_and!; [done..|congruence|].
  by rewrite (amend_ok _ _ _ _ Hb), (amend_ok _ _ _ _ E8), (amend_ok _ _ _ _ E7), (silent_ok _ _ _ _ (silent_disk rt _ _) E5).
Qed.

Lemma artifact_validated clock upload job data outputRoot disk active st u receipt : keeps_digest upload →
  PrepareArtifact rt order clock upload job data outputRoot disk active = (st, Ok u) → runReceipt_BuildReport receipt = Some (pp_report st) →
  runnerJob_Purpose job = "artifact_prepare" → validateBuild job receipt = Ok tt.
Proof.
  intros Hk Ha Hr Hp. destruct (artifact_passing _ _ _ _ _ _ _ _ _ Hk Ha) as (source & md & kept & image & Hs & Hm & Hd & Hb).
  unfold validateBuild. rewrite Hr, Hb, Hm, Hs, Hp. cbn. rewrite !String.eqb_refl, Hd. cbn.
  pose proof (DigestBytes_valid image) as Hv. destruct (String.eqb_spec (DigestBytes image) "") as [Hx|]; [by rewrite Hx in Hv|done].
Qed.

End Accepted.

(** A fixture that does not parse passes on the host whatever score it declares; the service
    refuses one that declares any. *)
Lemma unparsed_score_refused f : fixture_ExpectedOutcome f = "invalid_output" → fixture_ExpectedTicks f ≠ "" →
  fixtureReport_Passed (unparsed_fixture f) = true ∧
  check_build_fixture {[fixture_Name f := unparsed_fixture f]} f = Err "fixture_score_mismatch".
Proof.
  intros He Ht. unfold check_build_fixture, unparsed_fixture. rewrite lookup_singleton_eq. cbn. rewrite He. cbn.
  destruct (String.eqb_spec (fixture_ExpectedTicks f) "") as [|Hn]; [done|]. by destruct (fixture_ExpectedTicks f).
Qed.
