(* ===== verification/Daemon.v ===== *)
(** The runner daemon around the executor (internal/runner and cmd/runnerd).

    First its admission: the window in which it claims work, its renewal and the guarded claim
    (admission.go, authorization.go), and the service's side of the renewal
    (runner_authorization.go of internal/platform).

    Then the spool of its results (spool.go, and the delivery of the loop of [serve] in
    main.go): a signed result is written to a directory before it is sent, and is removed when
    the service has acknowledged it; what is left is sent again at the next start.  The
    directory is modelled with crashes.  A version of it is a map from names to files; after a
    crash each name shows one of the versions since the directory was last synced, and the data
    of a file that was not synced is arbitrary.  Every state an operation passes through is
    recorded, since the process can be killed, or the machine can crash, at any of them.  The
    service's result route is a step [request] on a state of its own; [Outcomes] says what each
    system call of one run returns. *)

From S2P Require Import Prelude Regex GoLib Numbers Types Scores Paths Measurement Evaluation Validate Sha256 GoJson.
From S2P Require Import Canonical Documents Results Artifacts Hidden Store Signatures Checkpoint History Platform Preparation.
From S2P Require Import Snapshots Sources Host Wheels Inventory Executor.
From Stdlib Require Import Ascii.
Open Scope Z_scope.

(** * Admission *)

Definition AdmissionSafetyWindow : Z := 20 * Minute.

Record AdmissionWindow := mkAdmissionWindow {
  aw_verified : bool;
  aw_safetyWindow : Z;
  aw_validFrom : Time;
  aw_hostExpires : Time;
  aw_advisoryExpires : Time
}.

Definition margin (w : AdmissionWindow) : Z :=
  if aw_safetyWindow w >? AdmissionSafetyWindow then aw_safetyWindow w else AdmissionSafetyWindow.

(** The method [Check]. *)
Definition CheckWindow (w : AdmissionWindow) (now : Time) : result unit :=
  if negb (aw_verified w) then Err "runner trust renewal required before new claims: unverified trust window" else
  if Before now (aw_validFrom w)
  then Err "runner trust renewal required before new claims: signed advisory is not yet valid" else
  if negb (After (aw_hostExpires w) (AddNs now (margin w)))
  then Err "runner trust renewal required before new claims: host authorization expires" else Ok tt.

Definition Purposes (w : AdmissionWindow) (now : Time) : result (list string) :=
  let! _ := CheckWindow w now in
  let purposes := ["artifact_prepare"; "submission"; "confirmation"] in
  Ok (if After (aw_advisoryExpires w) (AddNs now (margin w)) then purposes ++ ["preflight"] else purposes).

Definition NeedsRenewal (w : AdmissionWindow) (now : Time) : bool :=
  let renewBefore := if margin w + Hour >? 6 * Hour then margin w + Hour else 6 * Hour in
  negb (aw_verified w) || negb (After (aw_hostExpires w) (AddNs now renewBefore)).

Section Admission.
Context `{HostOS} `{Workspace} `{Crypto} `{!Pki} `{UnicodeLib} `{WheelLib} `{UrlLib} `{SourceNet} `{JsonCanonicalizer}.
Context `{JsonType RuntimeInventory} `{JsonType AdvisorySnapshot} `{JsonType (gmap string string)} `{JsonType Envelope}.
Context `{JsonType Config} `{JsonType HostAttestation} `{JsonType ExecutorCapabilities}.

(** The advisory file and the inventory, at the time the advisory was made. *)
Definition approved_advisory (c : Config) : result AdvisorySnapshot :=
  let! _ := for_each verifyPinned [config_AdvisoryKeys c; config_AdvisorySnapshot c] in
  let! advisoryKeys := ReadPublicKeys (pinnedFile_Path (config_AdvisoryKeys c)) in
  let! data := ReadFile (pinnedFile_Path (config_AdvisorySnapshot c)) in
  let! envelope := DecodeStrictBounded (A := Envelope) data (2 * MaxDocumentBytes) in
  let! payload := Verify envelope advisoryKeys or "admission advisory lacks a trusted signature" in
  let! advisory := DecodeStrict (A := AdvisorySnapshot) payload in
  let! inventory := ReadRuntimeInventory (config_RuntimeInventory c) in
  if (runtimeInventory_APIVersion inventory !=s "science-ladder-runtime-inventory/v1")
     || (lenl (runtimeInventory_Packages inventory) =? 0)
     || (runtimeInventory_RuntimeImageDigest inventory !=s config_RuntimeImageDigest c)
  then Err "admission inventory does not bind the configured runtime" else
  let! _ := validateAssetInventory c inventory in
  if (ScanAdvisoriesForDomains (runtimeInventory_Packages inventory) advisory (advisorySnapshot_GeneratedAt advisory)
        (separatedToolchain c inventory)).2 !=s "pass"
  then Err "admission advisory coverage is not approved" else Ok advisory.

(** The safety window of the enrolled capabilities. *)
Definition safety_window (c : Config) : result Z :=
  match config_Capabilities c with
  | Some capabilities =>
      let seconds := executorCapabilities_MaxJobSeconds capabilities in
      if seconds >? 0 then
        if (seconds <? 900) || (seconds >? MaximumJobLease / Second) then Err "invalid enrolled maximum job lease" else
        Ok (wrap64 (seconds * Second) + 5 * Minute)
      else Ok AdmissionSafetyWindow
  | None => Ok AdmissionSafetyWindow
  end.

Definition LoadAdmissionWindow (c : Config) (keys : gmap string PublicKey) : result AdmissionWindow :=
  let! payload := Verify (config_Attestation c) keys in
  let! host := DecodeStrict (A := HostAttestation) payload in
  let! binding := ConfigBindingDigest c or "admission trust does not bind the configured host" in
  if (binding !=s hostAttestation_ConfigDigest host) || negb (attestation_authorizes c host)
  then Err "admission trust does not bind the configured host" else
  let! _ := validateCapabilitiesBinding c host in
  let! advisory := approved_advisory c in
  let! safety := safety_window c in
  Ok (mkAdmissionWindow true safety (AddNs (advisorySnapshot_GeneratedAt advisory) (- Minute))
        (hostAttestation_ExpiresAt host) (advisorySnapshot_ExpiresAt advisory)).

(** ** Renewal *)

Definition set_expires (at_ : Time) (a : HostAttestation) : HostAttestation :=
  mkHostAttestation (hostAttestation_Capabilities a) (hostAttestation_HostID a) (hostAttestation_PhysicalHostID a)
    (hostAttestation_HostGroup a) at_ (hostAttestation_ExclusivePhysicalHost a) (hostAttestation_EgressPolicyVerified a)
    (hostAttestation_ExecutionProfileDigest a) (hostAttestation_RunnerEpoch a) (hostAttestation_ConfigDigest a).
Definition set_attestation (e : Envelope) (c : Config) : Config := {|
  config_Assets := config_Assets c; config_Capabilities := config_Capabilities c; config_HostID := config_HostID c;
  config_HostGroup := config_HostGroup c; config_RunnerEpoch := config_RunnerEpoch c;
  config_ExecutionProfileDigest := config_ExecutionProfileDigest c; config_Kernel := config_Kernel c;
  config_RootFS := config_RootFS c; config_Firecracker := config_Firecracker c; config_Jailer := config_Jailer c;
  config_MakeSquashFS := config_MakeSquashFS c; config_CPUConfig := config_CPUConfig c;
  config_RuntimeInventory := config_RuntimeInventory c; config_AdvisorySnapshot := config_AdvisorySnapshot c;
  config_AdvisoryKeys := config_AdvisoryKeys c; config_RuntimeImageDigest := config_RuntimeImageDigest c;
  config_EncryptionPublicKey := config_EncryptionPublicKey c; config_WorkRoot := config_WorkRoot c;
  config_ResultSpool := config_ResultSpool c; config_NetworkNamespace := config_NetworkNamespace c;
  config_CPUSet := config_CPUSet c; config_UID := config_UID c; config_GID := config_GID c;
  config_Attestation := e |}.

Definition decode_attestation (keys : gmap string PublicKey) (e : Envelope) : result HostAttestation :=
  let! payload := Verify e keys in
  DecodeStrict payload.

Definition RenewAuthorization (c : Config) (keys : gmap string PublicKey) (envelope : Envelope) (now : Time)
    : result (Config * AdmissionWindow) :=
  let! old := decode_attestation keys (config_Attestation c) in
  let! fresh := decode_attestation keys envelope in
  if negb (After (hostAttestation_ExpiresAt fresh) (AddNs now AdmissionSafetyWindow))
     || After (hostAttestation_ExpiresAt fresh) (AddNs now (25 * Hour))
  then Err "renewed host authorization has an invalid lease duration" else
  let! oldDigest := Digest (set_expires (hostAttestation_ExpiresAt fresh) old) or "renewal changes the approved host enrollment" in
  let! freshDigest := Digest fresh or "renewal changes the approved host enrollment" in
  if oldDigest !=s freshDigest then Err "renewal changes the approved host enrollment" else
  let proposed := set_attestation envelope c in
  let! window := LoadAdmissionWindow proposed keys in
  Ok (proposed, window).

(** [hostAuthorization], and one [refresh]; [respond] is the answer of the service to the
    digest of the configuration. *)
Record hostAuthorization := mkHostAuthorization {
  ha_config : Config;
  ha_window : AdmissionWindow;
  ha_keys : gmap string PublicKey;
  ha_nextAttempt : Time
}.
Definition refresh_due (a : hostAuthorization) (now : Time) : bool :=
  IsZero (ha_nextAttempt a) || negb (Before now (ha_nextAttempt a)) && NeedsRenewal (ha_window a) now.
Definition refresh (respond : string → result Envelope) (a : hostAuthorization) (now : Time) : hostAuthorization * result bool :=
  if negb (refresh_due a now) then (a, Ok false) else
  let tried := mkHostAuthorization (ha_config a) (ha_window a) (ha_keys a) (AddNs now Minute) in
  match (let! binding := ConfigBindingDigest (ha_config a) in
         let! attestation := respond binding in
         RenewAuthorization (ha_config a) (ha_keys a) attestation now) with
  | Err e => (tried, Err e)
  | Ok (c, w) => (mkHostAuthorization c w (ha_keys a) (AddNs now Minute), Ok true)
  end.

(** *** The service's side (runner_authorization.go) *)

Definition runnerAuthorizationLifetime : Z := 24 * Hour.

(** The enrolled template is for this host and profile. *)
Definition template_matches (identity : runnerIdentity) (configDigest group profile : string) (a : HostAttestation) : bool :=
  (hostAttestation_HostID a ==s host_ID identity) && (hostAttestation_HostGroup a ==s group)
  && (hostAttestation_ExecutionProfileDigest a ==s profile) && ValidDigest profile
  && (hostAttestation_ConfigDigest a ==s configDigest) && (hostAttestation_RunnerEpoch a ==s "1")
  && (hostAttestation_PhysicalHostID a !=s "") && hostAttestation_ExclusivePhysicalHost a
  && hostAttestation_EgressPolicyVerified a.

(** [renewRunnerAuthorization] up to the renewal it stores and answers; [enrolled] is the
    row of the query, with the host's group and profile. *)
Definition issue_authorization (sv : Server) (identity : runnerIdentity) (configDigest : string)
    (enrolled : option (Bytes * string * string)) (now : Time) : result (HostAttestation * Envelope) :=
  if negb (ValidDigest configDigest) then Err "invalid_config_digest" else
  let! _ := verifyHostDelegation sv identity (UTC now) in
  match s_signer sv with
  | None => Err "signing_unavailable"
  | Some _ =>
      match enrolled with
      | None => Err "runner_authorization_unenrolled"
      | Some (template, group, profile) =>
          let! attestation := DecodeStrict (A := HostAttestation) template or "runner_authorization_mismatch" in
          if negb (template_matches identity configDigest group profile attestation)
          then Err "runner_authorization_mismatch" else
          let attestation := set_expires (AddNs (UTC now) runnerAuthorizationLifetime) attestation in
          let! envelope := Sign (s_ReceiptKeyID sv) (s_signer sv) attestation in
          Ok (attestation, envelope)
      end
  end.
End Admission.

(** [claimIfAdmitted]: no request is made outside the window; [claim] is the request. *)
Definition claimIfAdmitted {A} (w : AdmissionWindow) (now : Time) (claim : list string → result (option A)) : result (option A) :=
  let! purposes := Purposes w now in
  match purposes with [] => Ok None | _ => claim purposes end.

(** * The directory *)

(** [node_data] is what [os.ReadFile] of the name gives. *)
Record Node := mkNode {
  node_data : result Bytes;
  node_synced : bool;
  node_info : FileInfo
}.
Notation Versions := (gmap string Node).
Record Spool := mkSpool {
  sp_live : Versions;
  sp_past : list Versions
}.

Definition spool_versions (s : Spool) : list Versions := sp_live s :: sp_past s.
Definition change (f : Versions → Versions) (s : Spool) : Spool := mkSpool (f (sp_live s)) (spool_versions s).
Definition sync (s : Spool) : Spool := mkSpool (sp_live s) [].

(** What a name may show after a crash, given a version of it. *)
Inductive survives : option Node → option Node → Prop :=
| survives_none : survives None None
| survives_synced n : node_synced n = true → survives (Some n) (Some n)
| survives_torn n n' : node_synced n = false → node_synced n' = true → survives (Some n) (Some n').
Definition after_crash (s : Spool) (m : Versions) : Prop :=
  ∀ name, ∃ v, v ∈ spool_versions s ∧ survives (v !! name) (m !! name).

(** * Deliveries *)

Record delivery := mkDelivery {
  delivery_JobID : string;
  delivery_Envelope : Envelope;
  delivery_ResultToken : string
}.

Inductive SpoolCall :=
| CreateTemp | ChmodTemp | WriteTemp | SyncTemp | CloseTemp | RenameTemp | RemoveTemp
| SyncDirectory (after : string) | ReadDirectory | ReadEntry (name : string) | RemoveEntry (name : string).

(** A call that failed may still have happened. *)
Inductive CallOutcome := Done | Failed (happened : bool).

(** The outcomes of one run; the random part of the temporary's name, what a write that
    failed has left, and whether the context allows another attempt. *)
Record Outcomes := mkOutcomes {
  os_outcome : SpoolCall → CallOutcome;
  os_random : string;
  os_short : Bytes → Bytes;
  os_pause : nat → bool
}.

Definition pending_prefix : string := ".pending-".
Definition spool_separators : string := "./\" +:+ String "013" (String "010" " ").
Definition owner_only (size : Z) : FileInfo := mkFileInfo false true false 384 size (Some 0).
Definition spool_limit : Z := Z.shiftl 2 20.

Section Spool.
Context `{JsonCanonicalizer} `{UnicodeLib} `{JsonType delivery} {Service : Type}.
(** The request that posts a result: the address, the envelope and the token. *)
Context (request : Service → string → Envelope → string → Service * result unit).

(** What the daemon and its surroundings keep.  The last three fields are the model's own
    record: the results the executor produced, those [persistResult] returned for, and those
    the service has acknowledged. *)
Record World := mkWorld {
  w_spool : Spool;
  w_service : Service;
  w_produced : list delivery;
  w_promised : list delivery;
  w_acknowledged : list delivery
}.
Definition on_spool (f : Spool → Spool) (w : World) : World :=
  mkWorld (f (w_spool w)) (w_service w) (w_produced w) (w_promised w) (w_acknowledged w).
Definition note_produced (d : delivery) (w : World) : World :=
  mkWorld (w_spool w) (w_service w) (d :: w_produced w) (w_promised w) (w_acknowledged w).
Definition note_promised (d : delivery) (w : World) : World :=
  mkWorld (w_spool w) (w_service w) (w_produced w) (d :: w_promised w) (w_acknowledged w).

(** ** Operations that pass through states *)

Definition SpoolM (A : Type) : Type := World → list World * World * result A.
Definition answer {A} (r : result A) : SpoolM A := λ w, ([], w, r).
Definition observe {A} (f : Versions → result A) : SpoolM A := λ w, ([], w, f (sp_live (w_spool w))).
Definition note (f : World → World) : SpoolM unit := λ w, ([w], f w, Ok tt).
Definition then_do {A B} (m : SpoolM A) (k : A → SpoolM B) : SpoolM B := λ w,
  let '(ws, w1, r) := m w in
  match r with
  | Ok a => let '(ws', w2, r') := k a w1 in (ws ++ ws', w2, r')
  | Err e => (ws, w1, Err e)
  end.
(** A deferred call: what it returns is ignored. *)
Definition finally {A} (m : SpoolM A) (cleanup : SpoolM unit) : SpoolM A := λ w,
  let '(ws, w1, r) := m w in
  let '(ws', w2, _) := cleanup w1 in (ws ++ ws', w2, r).
Notation "'let*' x := c 'in' k" := (then_do c (λ x, k))
  (at level 200, x name, c at level 100, k at level 200, right associativity).

Definition call (os : Outcomes) (c : SpoolCall) (f : Versions → Versions) : SpoolM unit := λ w,
  match os_outcome os c with
  | Done => ([w], on_spool (change f) w, Ok tt)
  | Failed true => ([w], on_spool (change f) w, Err "i/o error")
  | Failed false => ([], w, Err "i/o error")
  end.

(** [os.ReadFile] and [os.Lstat] of a name of the directory. *)
Definition read_name (name : string) (m : Versions) : result Bytes :=
  match m !! name with Some n => node_data n | None => Err "not found" end.
Definition stat_name (name : string) (m : Versions) : result FileInfo :=
  match m !! name with Some n => Ok (node_info n) | None => Err "not found" end.

Definition syncDirectory (os : Outcomes) (after : string) : SpoolM unit := λ w,
  match os_outcome os (SyncDirectory after) with
  | Done => ([w], on_spool sync w, Ok tt)
  | Failed true => ([w], on_spool sync w, Err "i/o error")
  | Failed false => ([], w, Err "i/o error")
  end.

(** ** Persisting *)

Definition spool_name (d : delivery) : string := delivery_JobID d +:+ ".json".
Definition temp_name (os : Outcomes) : string := pending_prefix +:+ os_random os.

(** The calls on the temporary. *)
Definition create_temp (os : Outcomes) : SpoolM unit :=
  let* taken := observe (λ m, Ok (bool_decide (is_Some (m !! temp_name os)))) in
  if taken : bool then answer (Err "i/o error") else
  call os CreateTemp <[temp_name os := mkNode (Ok "") false (owner_only 0)]>.
Definition write_temp (os : Outcomes) (data : Bytes) : SpoolM unit := λ w,
  let holds (b : Bytes) := on_spool (change <[temp_name os := mkNode (Ok b) false (owner_only (len b))]>) w in
  match os_outcome os WriteTemp with
  | Done => ([w], holds data, Ok tt)
  | Failed _ => ([w], holds (os_short os data), Err "i/o error")
  end.
Definition mark_synced (n : Node) : Node := mkNode (node_data n) true (node_info n).
Definition move (old new : string) (m : Versions) : Versions :=
  match m !! old with Some n => <[new := n]> (delete old m) | None => m end.

Definition write_and_rename (os : Outcomes) (filename : string) (data : Bytes) : SpoolM string :=
  let* _ := call os ChmodTemp id in
  let* _ := write_temp os data in
  let* _ := call os SyncTemp (alter mark_synced (temp_name os)) in
  let* _ := call os CloseTemp id in
  let* _ := call os RenameTemp (move (temp_name os) filename) in
  let* _ := syncDirectory os filename in
  answer (Ok filename).

Definition valid_job_id (id : string) : bool := negb ((id ==s "") || ContainsAny id spool_separators).

Definition persistResult (os : Outcomes) (value : delivery) : SpoolM string :=
  if negb (valid_job_id (delivery_JobID value)) then answer (Err "invalid spool job ID") else
  let* data := answer (Marshal value) in
  let filename := spool_name value in
  let* existing := observe (λ m, Ok (match os_outcome os (ReadEntry filename) with
                                     | Done => read_name filename m
                                     | Failed _ => Err "i/o error" end)) in
  match existing with
  | Ok existing =>
      if existing !=s data then answer (Err "conflicting result already persisted") else answer (Ok filename)
  | Err _ =>
      let* _ := create_temp os in
      finally (write_and_rename os filename data) (call os RemoveTemp (delete (temp_name os)))
  end.

Definition removePersisted (os : Outcomes) (filename : string) : SpoolM unit :=
  let* _ := call os (RemoveEntry filename) (delete filename) in
  syncDirectory os filename.

(** ** Delivering *)

Definition result_address (d : delivery) : string :=
  "/internal/v1/runner/jobs/" +:+ PathEscape (delivery_JobID d) +:+ "/result".
Definition post (d : delivery) : SpoolM unit := λ w,
  let '(service, r) := request (w_service w) (result_address d) (delivery_Envelope d) (delivery_ResultToken d) in
  ([w], mkWorld (w_spool w) service (w_produced w) (w_promised w)
    (if is_ok r then d :: w_acknowledged w else w_acknowledged w), r).

(** One entry of the loop of [replayResults]. *)
Definition unsafe_entry (info : FileInfo) : bool :=
  negb (fi_IsRegular info) || has_bits info group_or_other || (fi_Size info >? spool_limit).
Definition spool_entry (name : string) (m : Versions) : result FileInfo :=
  match m !! name with
  | Some n =>
      if fi_IsDir (node_info n) || negb (HasSuffix name ".json")
      then Err "unexpected result-spool entry; operator review required" else
      if unsafe_entry (node_info n) then Err "unsafe result-spool entry" else Ok (node_info n)
  | None => Err "unsafe result-spool entry"
  end.
Definition replay_entry (os : Outcomes) (name : string) : SpoolM unit :=
  if HasPrefix name pending_prefix then answer (Ok tt) else
  let* _ := observe (spool_entry name) in
  let* _ := call os (ReadEntry name) id in
  let* data := observe (read_name name) in
  let* value := answer (DecodeStrictBounded (A := delivery) data spool_limit) in
  let* sent := λ w, let '(ws, w1, r) := post value w in (ws, w1, Ok r) in
  if is_err sent then answer (Err "persisted result needs reconciliation before accepting new work") else
  removePersisted os name.

Fixpoint replay_entries (os : Outcomes) (names : list string) : SpoolM unit :=
  match names with
  | [] => answer (Ok tt)
  | name :: names => let* _ := replay_entry os name in replay_entries os names
  end.
(** [os.ReadDir] lists the directory in the order of the names. *)
Definition replayResults (os : Outcomes) : SpoolM unit :=
  let* _ := call os ReadDirectory id in
  let* names := observe (λ m, Ok (SortStrings (elements (dom m)))) in
  replay_entries os names.

(** The part of the loop of [serve] that follows the execution of a job: at most three
    attempts, with a pause after each. *)
Fixpoint send_attempts (os : Outcomes) (attempts : nat) (attempt : nat) (d : delivery) (last : result unit) : SpoolM (result unit) :=
  match attempts with
  | O => answer (Ok last)
  | S attempts =>
      let* sent := λ w, let '(ws, w1, r) := post d w in (ws, w1, Ok r) in
      if is_ok sent || negb (os_pause os attempt) then answer (Ok sent)
      else send_attempts os attempts (S attempt) d sent
  end.
Definition deliver_job (os : Outcomes) (d : delivery) : SpoolM unit :=
  let* _ := note (note_produced d) in
  let* spoolFile := persistResult os d in
  let* _ := note (note_promised d) in
  let* sent := send_attempts os 3 0 d (Ok tt) in
  if is_err sent
  then answer (Err "could not deliver signed result; persisted receipt requires reconciliation before new work") else
  removePersisted os spoolFile.

(** * Runs of the daemon *)

Definition outcome {A} (run : list World * World * result A) : World := run.1.2.
Definition run_completed {A} (run : list World * World * result A) : bool := is_ok run.2.
Definition passed {A} (run : list World * World * result A) (w : World) : Prop := w ∈ run.1.1 ∨ w = run.1.2.

(** The worlds the daemon reaches, and whether it is in its loop: it starts with a replay,
    leaves at the first error, can be killed in the middle of any operation, and the machine
    can crash at any moment. *)
Inductive daemon_reachable (start : Service) : bool → World → Prop :=
| reach_start : daemon_reachable start false (mkWorld (mkSpool ∅ []) start [] [] [])
| reach_replay b w os : daemon_reachable start b w → daemon_reachable start (run_completed (replayResults os w)) (outcome (replayResults os w))
| reach_job w os d : daemon_reachable start true w → daemon_reachable start (run_completed (deliver_job os d w)) (outcome (deliver_job os d w))
| reach_kill_replay b w os w' : daemon_reachable start b w → passed (replayResults os w) w' → daemon_reachable start false w'
| reach_kill_job w os d w' : daemon_reachable start true w → passed (deliver_job os d w) w' → daemon_reachable start false w'
| reach_crash b w m : daemon_reachable start b w → after_crash (w_spool w) m →
    daemon_reachable start false (on_spool (λ _, mkSpool m []) w).
End Spool.
