(* ===== verification/DaemonProofs.v ===== *)
(** Properties of the runner daemon: a window that admits a claim covers the lease of what is
    claimed, a renewed authorization is the enrolled one with a later end, and the spool
    loses no result. *)

From S2P Require Import Prelude Regex GoLib Numbers Types Scores Paths Measurement Evaluation Validate Sha256 GoJson.
From S2P Require Import Canonical Documents Results Artifacts Hidden Signatures Checkpoint History Store Platform Preparation.
From S2P Require Import Snapshots Sources Host Wheels Inventory Executor Daemon ValidateProofs ArtifactsProofs.
From Stdlib Require Import Ascii.
Open Scope Z_scope.

(** * Admission *)

Section Admission.
Context `{HostOS} `{Workspace} `{Crypto} `{!Pki} `{UnicodeLib} `{WheelLib} `{UrlLib} `{SourceNet} `{JsonCanonicalizer}.
Context `{JsonType RuntimeInventory} `{JsonType AdvisorySnapshot} `{JsonType (gmap string string)} `{JsonType Envelope}.
Context `{JsonType Config} `{JsonType HostAttestation} `{JsonType ExecutorCapabilities}.

(** What a loaded window says of the attestation. *)
Lemma LoadAdmissionWindow_ok c keys w : LoadAdmissionWindow c keys = Ok w ↔
  ∃ host binding advisory safety, decode_attestation keys (config_Attestation c) = Ok host ∧
    ConfigBindingDigest c = Ok binding ∧ hostAttestation_ConfigDigest host = binding ∧
    attestation_authorizes c host = true ∧ validateCapabilitiesBinding c host = Ok tt ∧
    approved_advisory c = Ok advisory ∧ safety_window c = Ok safety ∧
    w = mkAdmissionWindow true safety (AddNs (advisorySnapshot_GeneratedAt advisory) (- Minute))
          (hostAttestation_ExpiresAt host) (advisorySnapshot_ExpiresAt advisory).
Proof.
  unfold LoadAdmissionWindow, decode_attestation. split.
  - intros Hl. ok_steps Hl. bool_prop. injection Hl as <-. destruct r2.
    exists r0, r1, r3, r4. split_and!; try done.
  - intros (host & binding & advisory & safety & Hd & Hb & Hc & Ha & Hv & Had & Hs & ->).
    destruct (Verify _ _) as [payload|]; [|done]. rewrite Hd, Hb, Hc, Ha, Hv, Had, Hs.
    by rewrite String.eqb_refl.
Qed.

(** The margin covers any lease the capabilities allow, with five minutes to spare. *)
Lemma margin_covers c m purpose safety w : safety_window c = Ok safety → aw_safetyWindow w = safety →
  (∀ cap, config_Capabilities c = Some cap → 0 ≤ executorCapabilities_MaxJobSeconds cap) →
  (config_Capabilities c = None → manifest_APIVersion m ≠ ManifestV2) →
  match config_Capabilities c with Some cap => MatchJobLease m purpose cap = true | None => True end →
  JobLeaseDuration m purpose + 5 * Minute ≤ margin w.
Proof.
  intros Hs Hw Hn Hv Hm. unfold safety_window in Hs. unfold margin. rewrite Hw.
  assert (MaximumJobLease / Second = 64800) as Hmax by reflexivity.
  assert (AdmissionSafetyWindow = 1200000000000) as Ha by reflexivity.
  assert (Minute = 60000000000) as Hmin by reflexivity.
  destruct (config_Capabilities c) as [cap|] eqn:Ec.
  - specialize (Hn cap eq_refl). unfold MatchJobLease in Hm. apply Z.leb_le in Hm.
    set (seconds := executorCapabilities_MaxJobSeconds cap) in *.
    assert (∀ z, 0 ≤ z ≤ 64800 → wrap64 (z * Second) = z * 1000000000) as Hwrap.
    { intros z Hz. unfold Second. apply wrap64_id. unfold int64_range. lia. }
    destruct (seconds >? 0) eqn:G.
    + rewrite Hmax in Hs. ok_steps Hs. bool_prop. apply (inj Ok) in Hs.
      assert (seconds =? 0 = false) as E by lia. rewrite E, Hwrap in Hm by lia. rewrite Hwrap in Hs by lia.
      rewrite Ha, Hmin in *. destruct (safety >? 1200000000000) eqn:E2; lia.
    + apply (inj Ok) in Hs. assert (seconds = 0) as E by lia. rewrite E in Hm. cbn [Z.eqb] in Hm.
      rewrite Hwrap in Hm by lia. rewrite <-Hs, Ha, Hmin. cbn. lia.
  - apply (inj Ok) in Hs. rewrite <-Hs, Ha, Hmin. cbn. unfold JobLeaseDuration.
    rewrite (proj2 (String.eqb_neq _ _) (Hv eq_refl)). cbn. lia.
Qed.

(** What a valid job says of its deadline. *)
Lemma ValidateJob_lease later job c : ValidateJob later job c = Ok tt →
  let lease := JobLeaseDuration (runnerJob_Manifest job) (runnerJob_Purpose job) in
  t_ns (runnerJob_ExpiresAt job) ≤ t_ns later + lease + Minute ∧
  (config_Capabilities c = None → manifest_APIVersion (runnerJob_Manifest job) ≠ ManifestV2) ∧
  match config_Capabilities c with
  | Some cap => MatchJobLease (runnerJob_Manifest job) (runnerJob_Purpose job) cap = true
  | None => True
  end.
Proof.
  unfold ValidateJob. intros Hj. ok_steps Hj. bool_prop. cbn zeta. split_and!.
  - match goal with Hsub : Sub _ _ <= _ |- _ => rename Hsub into Hs end.
    pose proof (JobLeaseDuration_bounded (runnerJob_Manifest job) (runnerJob_Purpose job)) as Hb.
    rewrite wrap64_id in Hs
      by (unfold int64_range, MaximumJobLease, Hour, Minute, Second in *; lia).
    unfold Sub, int64_max, MaximumJobLease, Hour, Minute, Second in *. lia.
  - intros Hc Hv. apply ValidateManifest_inv in Hj as (_ & Hver & _). unfold validateManifestVersion in Hver.
    rewrite Hv in Hver. cbn in Hver.
    match goal with Hm : matchConfiguredEvaluation _ _ = _ |- _ => unfold matchConfiguredEvaluation in Hm; rewrite Hc in Hm end.
    by destruct (manifest_Evaluation _).
  - destruct (config_Capabilities c); bool_prop; done.
Qed.

(** ** Renewal *)

(** Nothing but the attestation and its end changes in what a window is loaded from. *)
Lemma LoadAdmissionWindow_renewed c keys w old at_ e :
  LoadAdmissionWindow c keys = Ok w → decode_attestation keys (config_Attestation c) = Ok old →
  decode_attestation keys e = Ok (set_expires at_ old) →
  LoadAdmissionWindow (set_attestation e c) keys =
    Ok (mkAdmissionWindow true (aw_safetyWindow w) (aw_validFrom w) at_ (aw_advisoryExpires w)).
Proof.
  intros (host & binding & advisory & safety & Hd & Hb & Hc & Ha & Hv & Had & Hs & ->)%LoadAdmissionWindow_ok Hold Hnew.
  rewrite Hold in Hd. injection Hd as <-. apply LoadAdmissionWindow_ok.
  exists (set_expires at_ old), binding, advisory, safety. by split_and!.
Qed.

Lemma Sign_digest {A} `{JsonType A} keyID key (value : A) envelope :
  Sign keyID key value = Ok envelope → ∃ d, Digest value = Ok d.
Proof.
  unfold Sign, Digest. destruct key as [key|]; [|done]. intros Hs. do 4 ok_step Hs. eauto.
Qed.

Lemma set_expires_again at1 at2 a : set_expires at1 (set_expires at2 a) = set_expires at1 a.
Proof. done. Qed.

(** C28: A renewal succeeds.  The authorization the service issues for the enrolled template
    of a running host is accepted by the daemon of that host, if their clocks differ by less
    than an hour (or the answer is used within 23 hours): the configuration changes in its
    attestation only, and the window in its end only, which is 24 hours after the issue. *)
Theorem renewal_refreshes sv identity binding template group profile key c keys w old enrolled issued now fresh e :
  (∀ data d, CanonicalJSON data = Ok d → CanonicalJSON d = Ok d) →
  (∀ k hash sig, SignHash k hash = Ok sig → VerifyASN1 (Public k) hash sig = true) →
  (∀ data payload, Marshal fresh = Ok data → CanonicalJSON data = Ok payload → DecodeStrict payload = Ok fresh) →
  s_signer sv = Some key → keys !! s_ReceiptKeyID sv = Some (Public key) →
  LoadAdmissionWindow c keys = Ok w → decode_attestation keys (config_Attestation c) = Ok old →
  DecodeStrict template = Ok enrolled → set_expires (hostAttestation_ExpiresAt old) enrolled = old →
  issue_authorization sv identity binding (Some (template, group, profile)) issued = Ok (fresh, e) →
  t_ns issued ≤ t_ns now + Hour → t_ns now ≤ t_ns issued + 23 * Hour →
  RenewAuthorization c keys e now =
    Ok (set_attestation e c, mkAdmissionWindow true (aw_safetyWindow w) (aw_validFrom w)
          (AddNs (UTC issued) runnerAuthorizationLifetime) (aw_advisoryExpires w)).
Proof.
  intros Hidem Hsig Hcodec Hkey Htrust Hload Hold Htemplate Henrolled Hissue Hbehind Hlate.
  unfold issue_authorization in Hissue. rewrite Hkey, Htemplate in Hissue.
  ok_step Hissue. ok_step Hissue. ok_step Hissue. destruct (Sign _ _ _) as [e'|] eqn:Hs in Hissue; [|done].
  apply (inj Ok), pair_equal_spec in Hissue as [Hf <-]. rewrite Hf in Hs.
  assert (fresh = set_expires (AddNs (UTC issued) runnerAuthorizationLifetime) old) as Hfo.
  { by rewrite <-Hf, <-Henrolled, set_expires_again. }
  destruct (Sign_digest _ _ _ _ Hs) as [d Hdig].
  destruct (Sign_trusted _ _ keys _ _ Hidem Hsig Htrust Hs) as (data & payload & Hm & Hcan & Hver).
  assert (decode_attestation keys e' = Ok fresh) as Hdec.
  { unfold decode_attestation. rewrite Hver. by apply (Hcodec data). }
  unfold RenewAuthorization. rewrite Hold, Hdec.
  assert (hostAttestation_ExpiresAt fresh = AddNs (UTC issued) runnerAuthorizationLifetime) as Hexp by by rewrite Hfo.
  rewrite Hexp. unfold After, AddNs, UTC, runnerAuthorizationLifetime, AdmissionSafetyWindow, Hour, Minute, Second in *.
  cbn [t_ns] in *. rewrite (proj2 (Z.ltb_lt _ _)) by lia. cbn [negb orb]. rewrite (proj2 (Z.ltb_ge _ _)) by lia.
  rewrite <-Hfo, Hdig, String.eqb_refl. cbn [negb].
  erewrite LoadAdmissionWindow_renewed; [done|done|done|]. by rewrite Hdec, Hfo.
Qed.
End Admission.

(** * The spool *)

(** What is written reads back, within the limit of the replay. *)
Class SpoolCodec `{JsonCanonicalizer} `{UnicodeLib} `{JsonType delivery} : Prop := {
  spool_reads (d v : delivery) data :
    Marshal d = Ok data → DecodeStrictBounded (A := delivery) data spool_limit = Ok v → v = d }.

Section Safety.
Context `{JsonCanonicalizer} `{UnicodeLib} `{JsonType delivery} `{!SpoolCodec} {Service : Type}.
Context (request : Service → string → Envelope → string → Service * result unit).
Implicit Types (w : World (Service := Service)) (I : World (Service := Service) → Prop) (d : delivery) (os : Outcomes).

(** Every world an operation passes through satisfies [I], and so does its outcome; when it
    succeeds, its answer and outcome satisfy [Q]. *)
Definition safely {A} I (m : SpoolM A) (Q : A → World → Prop) w : Prop :=
  Forall I (m w).1.1 ∧ I (m w).1.2 ∧ ∀ a, (m w).2 = Ok a → Q a (m w).1.2.

Lemma safely_bind {A B} I (m : SpoolM A) (k : A → SpoolM B) R Q w :
  safely I m R w → (∀ a w', I w' → R a w' → safely I (k a) Q w') → safely I (then_do m k) Q w.
Proof.
  unfold safely, then_do. intros (Hp & Hi & Hr) Hk. destruct (m w) as [[ws w1] [a|e]]; cbn in *; [|naive_solver].
  specialize (Hk a w1 Hi (Hr a eq_refl)). destruct (k a w1) as [[ws' w2] r']; cbn in *.
  destruct Hk as (? & ? & ?). split; [by apply Forall_app|done].
Qed.

Lemma safely_answer {A} I (r : result A) Q w : I w → (∀ a, r = Ok a → Q a w) → safely I (answer r) Q w.
Proof. done. Qed.

Lemma safely_observe {A} I (f : Versions → result A) Q w :
  I w → (∀ a, f (sp_live (w_spool w)) = Ok a → Q a w) → safely I (observe f) Q w.
Proof. done. Qed.

Lemma safely_note I f Q w : I w → I (f w) → Q tt (f w) → safely I (note f) Q w.
Proof.
  intros ? ? ?. repeat split; [by constructor|done|]. by intros [] _.
Qed.

Lemma safely_call I os c f Q w :
  I w → I (on_spool (change f) w) → Q tt (on_spool (change f) w) → safely I (call os c f) Q w.
Proof.
  intros ? ? ?. unfold safely, call. destruct (os_outcome os c) as [ | [ | ] ]; cbn; repeat split; auto; by intros [].
Qed.

Lemma safely_sync I os after Q w :
  I w → I (on_spool sync w) → Q tt (on_spool sync w) → safely I (syncDirectory os after) Q w.
Proof.
  intros ? ? ?. unfold safely, syncDirectory. destruct (os_outcome os _) as [ | [ | ] ]; cbn; repeat split; auto; by intros [].
Qed.

Lemma safely_finally {A} I (m : SpoolM A) os c f Q w :
  safely I m Q w → (∀ w', I w' → I (on_spool (change f) w')) →
  (∀ a w', Q a w' → Q a (on_spool (change f) w')) → safely I (finally m (call os c f)) Q w.
Proof.
  unfold safely, finally, call. intros (Hp & Hi & Hr) HI HQ. destruct (m w) as [[ws w1] r]; cbn in *.
  destruct (os_outcome os c) as [ | [ | ] ]; cbn; rewrite ?Forall_app, ?Forall_singleton; repeat split; eauto.
Qed.

Lemma safely_weaken {A} I (m : SpoolM A) Q Q' w : safely I m Q w → (∀ a w', I w' → Q a w' → Q' a w') → safely I m Q' w.
Proof. intros (? & ? & ?) ?. repeat split; auto. Qed.

(** ** The invariant *)

Definition pending_name (name : string) : bool := HasPrefix name pending_prefix.

Definition exact d name (n : Node) : Prop :=
  name = spool_name d ∧ ∃ data, Marshal d = Ok data ∧ n = mkNode (Ok data) true (owner_only (len data)).

Definition stored w d (v : Versions) : Prop := ∃ n, v !! spool_name d = Some n ∧ exact d (spool_name d) n.

Definition entries_exact w : Prop := ∀ v name n,
  v ∈ spool_versions (w_spool w) → v !! name = Some n → pending_name name = false → ∃ d, d ∈ w_produced w ∧ exact d name n.
Definition promises_kept w : Prop := ∀ d,
  d ∈ w_promised w → d ∈ w_acknowledged w ∨ ∀ v, v ∈ spool_versions (w_spool w) → stored w d v.
Definition spool_inv w : Prop :=
  entries_exact w ∧ promises_kept w ∧ (∀ d, d ∈ w_promised w → pending_name (spool_name d) = false).

(** The directory holds nothing to deliver, or nothing but the names given. *)
Definition only (names : list string) w : Prop := ∀ name n,
  sp_live (w_spool w) !! name = Some n → pending_name name = false → name ∈ names.
Definition all_acknowledged w : Prop := ∀ d, d ∈ w_promised w → d ∈ w_acknowledged w.

(** ** What keeps it *)

Lemma temp_name_pending os : pending_name (temp_name os) = true.
Proof. unfold pending_name, HasPrefix, temp_name. rewrite list_of_app. apply is_prefix_app. Qed.

Lemma spool_name_not_pending d : valid_job_id (delivery_JobID d) = true → pending_name (spool_name d) = false.
Proof.
  unfold valid_job_id, pending_name, HasPrefix, spool_name. rewrite list_of_app.
  destruct d as [[|c id] e t]; [done|]. cbn [delivery_JobID]. intros G. bool_prop.
  destruct (ascii_dec c ".") as [->|Hc].
  { by match goal with G : ContainsAny _ _ = false |- _ => vm_compute in G end. }
  change (list_of (String c id)) with (c :: list_of id). cbn [pending_prefix list_of app is_prefix].
  by rewrite (proj2 (Ascii.eqb_neq "." c)) by congruence.
Qed.

Definition only_pending (f : Versions → Versions) : Prop := ∀ m name, pending_name name = false → f m !! name = m !! name.

Lemma insert_pending os n : only_pending <[temp_name os := n]>.
Proof.
  intros m name G. apply lookup_insert_ne. intros <-. by rewrite temp_name_pending in G.
Qed.
Lemma delete_pending os : only_pending (delete (temp_name os)).
Proof.
  intros m name G. apply lookup_delete_ne. intros <-. by rewrite temp_name_pending in G.
Qed.
Lemma alter_pending os g : only_pending (alter g (temp_name os)).
Proof.
  intros m name G. apply lookup_alter_ne. intros <-. by rewrite temp_name_pending in G.
Qed.
Lemma id_pending : only_pending id.
Proof. done. Qed.

(** A change of the directory that adds exact entries only, and keeps what is promised and
    not acknowledged. *)
Lemma inv_change f w : spool_inv w →
  (∀ name n, f (sp_live (w_spool w)) !! name = Some n → pending_name name = false →
     sp_live (w_spool w) !! name = Some n ∨ ∃ d, d ∈ w_produced w ∧ exact d name n) →
  (∀ d, d ∈ w_promised w → d ∈ w_acknowledged w ∨
     f (sp_live (w_spool w)) !! spool_name d = sp_live (w_spool w) !! spool_name d) →
  spool_inv (on_spool (change f) w).
Proof.
  intros (He & Hk & Hn) Hf Ha. split_and!; [|intros d Hd|done].
  - intros v name n [-> | Hv]%elem_of_cons Hl G; [|by eapply He].
    destruct (Hf name n Hl G); [|done]. eapply He; eauto. apply list_elem_of_here.
  - destruct (Hk d Hd) as [|Hv]; [by left|]. destruct (Ha d Hd) as [|Heq]; [by left|right].
    intros v [-> |Hv']%elem_of_cons; [|by apply Hv].
    destruct (Hv (sp_live (w_spool w))) as (n & Hl & Hx); [apply list_elem_of_here|].
    exists n. split; [|done]. cbn [w_spool on_spool change sp_live]. by rewrite Heq.
Qed.

Lemma inv_pending f w : only_pending f → spool_inv w → spool_inv (on_spool (change f) w).
Proof.
  intros Hf Hi. apply inv_change; [done| |].
  - intros name n Hl G. left. by rewrite <-Hf.
  - intros d Hd. right. by apply Hf, Hi.
Qed.

Lemma inv_sync w : spool_inv w → spool_inv (on_spool sync w).
Proof.
  intros (He & Hk & Hn). split_and!; [|intros d Hd|done].
  - intros v name n ->%list_elem_of_singleton. apply He, list_elem_of_here.
  - destruct (Hk d Hd) as [|Hv]; [by left|right]. intros v ->%list_elem_of_singleton. apply Hv, list_elem_of_here.
Qed.

Lemma inv_crash w m : spool_inv w → after_crash (w_spool w) m → spool_inv (on_spool (λ _, mkSpool m []) w).
Proof.
  intros (He & Hk & Hn) Hm. split_and!; [|intros d Hd|done].
  - intros v name n ->%list_elem_of_singleton. cbn. intros Hl G. destruct (Hm name) as (v & Hv & Hs).
    rewrite Hl in Hs. inversion Hs as [|n0 Hsy Hv0 Hn0|n0 n' Hsy Hsy' Hv0 Hn0]; subst; [by eapply He|].
    destruct (He v name n0 Hv (eq_sym Hv0) G) as (d & _ & _ & data & _ & ->). done.
  - destruct (Hk d Hd) as [|Hv]; [by left|right]. intros v ->%list_elem_of_singleton. cbn.
    destruct (Hm (spool_name d)) as (v & Hin & Hs). destruct (Hv v Hin) as (n & Hl & Hx).
    rewrite Hl in Hs. destruct Hx as (_ & data & Hd' & ->). inversion Hs; subst; [|done].
    exists (mkNode (Ok data) true (owner_only (len data))). split; [done|]. split; [done|]. by exists data.
Qed.

(** ** Persisting *)

(** Operations on the directory alone. *)
Definition within w0 w : Prop :=
  spool_inv w ∧ w_produced w = w_produced w0 ∧ w_promised w = w_promised w0 ∧ w_acknowledged w = w_acknowledged w0.

Lemma within_change f w0 w : spool_inv (on_spool (change f) w) → within w0 w → within w0 (on_spool (change f) w).
Proof. by intros ? (? & ? & ? & ?). Qed.
Lemma within_pending f w0 w : only_pending f → within w0 w → within w0 (on_spool (change f) w).
Proof. intros Hf Hw. apply within_change; [|done]. apply inv_pending; [done|apply Hw]. Qed.
Lemma within_sync w0 w : within w0 w → within w0 (on_spool sync w).
Proof. intros (? & ? & ? & ?). split; [by apply inv_sync|done]. Qed.

Lemma only_change f names w : only_pending f → only names w → only names (on_spool (change f) w).
Proof.
  intros Hf Hw name n. cbn [w_spool on_spool change sp_live]. intros Hl G. rewrite Hf in Hl by done. by eapply Hw.
Qed.

Definition temporary os n w : Prop := sp_live (w_spool w) !! temp_name os = Some n.
Definition file_of (data : Bytes) (synced : bool) : Node := mkNode (Ok data) synced (owner_only (len data)).

Lemma call_pending os c f R w0 w : only_pending f → within w0 w → only [] w → R (on_spool (change f) w) →
  safely (within w0) (call os c f) (λ _ w', only [] w' ∧ R w') w.
Proof.
  intros Hf Hw Ho HR. apply safely_call; [done|by apply within_pending|].
  split; [by apply only_change|done].
Qed.

Lemma write_temp_safe os data w0 w : within w0 w → only [] w →
  safely (within w0) (write_temp os data) (λ _ w', only [] w' ∧ temporary os (file_of data false) w') w.
Proof.
  intros Hw Ho. unfold safely, write_temp.
  assert (∀ b, within w0 (on_spool (change <[temp_name os := mkNode (Ok b) false (owner_only (len b))]>) w)) as Hb
    by (intros b; apply within_pending; [apply insert_pending|done]).
  destruct (os_outcome os WriteTemp); cbn [fst snd]; (split; [by constructor|split; [by apply Hb|]]); [|done].
  intros _ _. split; [apply only_change; [apply insert_pending|done]|].
  unfold temporary. cbn [w_spool on_spool change sp_live]. apply lookup_insert_eq.
Qed.

Lemma rename_safe os d data w0 w : within w0 w → only [] w → all_acknowledged w0 → d ∈ w_produced w0 →
  Marshal d = Ok data → valid_job_id (delivery_JobID d) = true → temporary os (file_of data true) w →
  safely (within w0) (call os RenameTemp (move (temp_name os) (spool_name d)))
    (λ _ w', only [spool_name d] w' ∧ stored w' d (sp_live (w_spool w'))) w.
Proof.
  intros Hw Ho Ha Hd Hm Hv Ht. pose proof (spool_name_not_pending d Hv) as G.
  assert (exact d (spool_name d) (file_of data true)) as Hx by (split; [done|by exists data]).
  assert (∀ name n, move (temp_name os) (spool_name d) (sp_live (w_spool w)) !! name = Some n → pending_name name = false →
            name = spool_name d ∧ n = file_of data true) as Hl.
  { intros name n. unfold move. rewrite Ht. destruct (decide (name = spool_name d)) as [->|Hne].
    - rewrite lookup_insert_eq. intros [=<-]. done.
    - rewrite lookup_insert_ne by congruence. intros [_ Hl]%lookup_delete_Some Gn.
      pose proof (Ho name n Hl Gn) as Hin. inversion Hin. }
  apply safely_call; [done| |split].
  - apply within_change; [|done]. destruct Hw as (Hi & Hp & Hm' & Hk). apply inv_change; [done| |].
    + intros name n Hln Gn. right. destruct (Hl name n Hln Gn) as [-> ->]. exists d. split; [by rewrite Hp|done].
    + intros d' Hd'. left. rewrite Hk. apply Ha. by rewrite <-Hm'.
  - intros name n Hln Gn. destruct (Hl name n Hln Gn) as [-> _]. apply list_elem_of_here.
  - exists (file_of data true). split; [|done]. cbn [w_spool on_spool change sp_live]. unfold move. rewrite Ht.
    apply lookup_insert_eq.
Qed.

Definition persisted d (file : string) w : Prop :=
  file = spool_name d ∧ pending_name file = false ∧ only [file] w ∧ ∀ v, v ∈ spool_versions (w_spool w) → stored w d v.

Lemma write_and_rename_safe os d data w0 w : within w0 w → only [] w → all_acknowledged w0 → d ∈ w_produced w0 →
  Marshal d = Ok data → valid_job_id (delivery_JobID d) = true → temporary os (file_of "" false) w →
  safely (within w0) (write_and_rename os (spool_name d) data) (persisted d) w.
Proof.
  intros Hw Ho Ha Hd Hm Hv Ht. unfold write_and_rename.
  eapply safely_bind; [by apply (call_pending os ChmodTemp id (λ _, True)); auto using id_pending|].
  intros _ w1 Hw1 [Ho1 _]. eapply safely_bind; [by apply write_temp_safe|].
  intros _ w2 Hw2 [Ho2 Ht2]. eapply safely_bind.
  { apply (call_pending os SyncTemp _ (temporary os (file_of data true))); [apply alter_pending|done|done|].
    unfold temporary. cbn [w_spool on_spool change sp_live]. by rewrite lookup_alter_eq, Ht2. }
  intros _ w3 Hw3 [Ho3 Ht3]. eapply safely_bind.
  { apply (call_pending os CloseTemp id (temporary os (file_of data true))); auto using id_pending. }
  intros _ w4 Hw4 [Ho4 Ht4]. eapply safely_bind; [by apply (rename_safe os d data)|].
  intros _ w5 Hw5 [Ho5 Hs5]. eapply safely_bind.
  { apply (safely_sync _ os (spool_name d) (λ _ w', only [spool_name d] w' ∧ ∀ v, v ∈ spool_versions (w_spool w') → stored w' d v));
      [done|by apply within_sync|]. split; [done|]. by intros v ->%list_elem_of_singleton. }
  intros _ w6 Hw6 [Ho6 Hs6]. apply safely_answer; [done|]. intros a [= <-].
  split_and!; [done|by apply spool_name_not_pending|done|done].
Qed.

Lemma persisted_cleanup os d file w : persisted d file w →
  persisted d file (on_spool (change (delete (temp_name os))) w).
Proof.
  intros (-> & G & Ho & Hs). split_and!; [done|done|by apply only_change; [apply delete_pending|]|].
  intros v [-> |Hv]%elem_of_cons; [|by apply Hs].
  destruct (Hs (sp_live (w_spool w))) as (n & Hl & Hx); [apply list_elem_of_here|].
  exists n. split; [|done]. cbn [w_spool on_spool change sp_live]. by rewrite delete_pending.
Qed.

Lemma persistResult_safe os d w : spool_inv w → only [] w → all_acknowledged w → d ∈ w_produced w →
  safely (within w) (persistResult os d) (persisted d) w.
Proof.
  intros Hi Ho Ha Hd. unfold persistResult. assert (within w w) as Hw by done.
  destruct (valid_job_id (delivery_JobID d)) eqn:Hv; cbn [negb]; [|by apply safely_answer].
  pose proof (spool_name_not_pending d Hv) as G.
  destruct (Marshal d) as [data|e] eqn:Hm; [|by apply safely_answer].
  eapply (safely_bind _ _ _ (λ a w', a = data ∧ w' = w)).
  { apply safely_answer; [done|]. by intros a [= <-]. }
  intros ? ? _ [-> ->].
  eapply (safely_bind _ _ _ (λ a w', is_err a = true ∧ w' = w)).
  { apply safely_observe; [done|]. intros a [= <-]. split; [|done]. destruct (os_outcome os _); [|done].
    unfold read_name. destruct (sp_live (w_spool w) !! spool_name d) as [n|] eqn:E; [|done].
    pose proof (Ho _ _ E G) as Hin. inversion Hin. }
  intros [existing|e] ? _ [He ->]; [done|].
  eapply (safely_bind _ _ _ (λ _ w', only [] w' ∧ temporary os (file_of "" false) w')).
  { unfold create_temp. eapply (safely_bind _ _ _ (λ _ w', w' = w)); [by apply safely_observe|].
    intros [] ? _ ->; [by apply safely_answer|].
    apply call_pending; [apply insert_pending|done|done|].
    unfold temporary. cbn [w_spool on_spool change sp_live]. apply lookup_insert_eq. }
  intros _ w1 Hw1 [Ho1 Ht1]. apply safely_finally.
  - by apply write_and_rename_safe.
  - intros w' Hw'. apply within_pending; [apply delete_pending|done].
  - intros file w'. apply persisted_cleanup.
Qed.

(** ** Delivering *)

Lemma safely_mono {A} I J (m : SpoolM A) Q w :
  (∀ w', I w' → J w') → safely I m Q w → safely J m (λ a w', I w' ∧ Q a w') w.
Proof. intros HJ (Hp & Hi & Hr). split_and!; [by eapply Forall_impl|by apply HJ|auto]. Qed.

Lemma nothing_left w : spool_inv w → only [] w → all_acknowledged w.
Proof.
  intros (He & Hk & Hn) Ho d Hd. destruct (Hk d Hd) as [|Hv]; [done|].
  destruct (Hv (sp_live (w_spool w))) as (n & Hl & _); [apply list_elem_of_here|].
  pose proof (Ho _ _ Hl (Hn d Hd)) as Hin. inversion Hin.
Qed.

(** The directory is untouched, and at most more is acknowledged. *)
Definition acknowledges w w' : Prop :=
  w_spool w' = w_spool w ∧ w_produced w' = w_produced w ∧ w_promised w' = w_promised w ∧
  ∀ d, d ∈ w_acknowledged w → d ∈ w_acknowledged w'.

Lemma acknowledges_inv w w' : acknowledges w w' → spool_inv w → spool_inv w'.
Proof.
  intros (Hs & Hp & Hm & Ha) (He & Hk & Hn). unfold spool_inv, entries_exact, promises_kept.
  rewrite Hs, Hp, Hm. split_and!; [done| |done]. intros d Hd. destruct (Hk d Hd); auto.
Qed.
Lemma acknowledges_trans w1 w2 w3 : acknowledges w1 w2 → acknowledges w2 w3 → acknowledges w1 w3.
Proof. intros (? & ? & ? & ?) (? & ? & ? & ?). repeat split; [congruence..|auto]. Qed.

Lemma post_safe d w : spool_inv w →
  safely spool_inv (λ w, let '(ws, w1, r) := post request d w in (ws, w1, Ok r))
    (λ r w', acknowledges w w' ∧ (is_ok r = true → d ∈ w_acknowledged w')) w.
Proof.
  intros Hi. unfold safely, post. destruct (request _ _ _ _) as [service r]. cbn [fst snd].
  assert (∀ l, (∀ d, d ∈ w_acknowledged w → d ∈ l) →
            acknowledges w (mkWorld (w_spool w) service (w_produced w) (w_promised w) l)) as Hack by done.
  assert (∀ x, x ∈ w_acknowledged w → x ∈ (if is_ok r then d :: w_acknowledged w else w_acknowledged w)) as Hl.
  { intros x Hx. destruct (is_ok r); [by apply list_elem_of_further|done]. }
  split; [by constructor|split; [by apply (acknowledges_inv w); [apply Hack|]|]].
  intros a [= <-]. split; [by apply Hack|]. cbn. intros ->. apply list_elem_of_here.
Qed.

Lemma send_attempts_safe os d attempts attempt last w : spool_inv w →
  (is_ok last = true → attempts = O → d ∈ w_acknowledged w) →
  safely spool_inv (send_attempts request os attempts attempt d last)
    (λ r w', acknowledges w w' ∧ (is_ok r = true → d ∈ w_acknowledged w')) w.
Proof.
  revert attempt last w. induction attempts as [|attempts IH]; intros attempt last w Hi Hl; cbn [send_attempts].
  { apply safely_answer; [done|]. intros a [= <-]. split; [done|auto]. }
  eapply safely_bind; [by apply post_safe|]. intros r w1 Hi1 [Ha Hr].
  destruct (is_ok r || negb (os_pause os attempt)) eqn:G.
  { apply safely_answer; [done|]. by intros a [= <-]. }
  eapply safely_weaken; [apply IH; [done|]|].
  - intros Hok. rewrite Hok in G. done.
  - intros a w' _ [Ha' Hr']. split; [by eapply acknowledges_trans|done].
Qed.

Lemma removePersisted_safe os names file w : spool_inv w → only (file :: names) w →
  (∀ d, d ∈ w_promised w → d ∈ w_acknowledged w ∨ spool_name d ≠ file) →
  safely spool_inv (removePersisted os file) (λ _ w', only names w') w.
Proof.
  intros Hi Ho Ha.
  assert (∀ name n, delete file (sp_live (w_spool w)) !! name = Some n →
            name ≠ file ∧ sp_live (w_spool w) !! name = Some n) as Hd.
  { intros name n [? ?]%lookup_delete_Some. done. }
  eapply (safely_bind _ _ _ (λ _ w', only names w')).
  - apply safely_call; [done| |].
    + apply inv_change; [done| |].
      * intros name n Hl _. left. by apply Hd.
      * intros d Hp. destruct (Ha d Hp); [by left|right]. by apply lookup_delete_ne.
    + intros name n Hl G. destruct (Hd name n Hl) as [Hne Hl'].
      by destruct (proj1 (elem_of_cons _ _ _) (Ho name n Hl' G)).
  - intros _ w1 Hi1 Ho1. apply safely_sync; [done|by apply inv_sync|done].
Qed.

Lemma deliver_job_safe os d w : spool_inv w → only [] w →
  safely spool_inv (deliver_job request os d) (λ _ w', only [] w') w.
Proof.
  intros Hi Ho. unfold deliver_job. pose proof (nothing_left w Hi Ho) as Ha.
  assert (spool_inv (note_produced d w)) as Hi'.
  { destruct Hi as (He & Hk & Hn). split_and!; [|done|done]. intros v name n Hv Hl G.
    destruct (He v name n Hv Hl G) as (d' & Hd' & Hx). exists d'. split; [by apply list_elem_of_further|done]. }
  eapply (safely_bind _ _ _ (λ _ w', w' = note_produced d w)); [by apply safely_note|]. intros _ ? _ ->.
  eapply safely_bind.
  { apply (safely_mono (within (note_produced d w))); [by intros w' [? _]|].
    apply persistResult_safe; [done|done|done|apply list_elem_of_here]. }
  intros file w2 Hi2 [(_ & Hp2 & Hm2 & Ha2) Hper]. pose proof Hper as (-> & G & Ho2 & Hs2).
  assert (spool_inv (note_promised d w2)) as Hi3.
  { destruct Hi2 as (He & Hk & Hn). split_and!; [done| |].
    - intros d' [-> |Hd']%elem_of_cons; [by right|by apply Hk].
    - intros d' [-> |Hd']%elem_of_cons; [done|by apply Hn]. }
  eapply (safely_bind _ _ _ (λ _ w', w' = note_promised d w2)); [by apply safely_note|]. intros _ ? _ ->.
  eapply safely_bind; [by apply send_attempts_safe|]. intros r w3 Hi4 [(Hs & _ & Hm & Hack) Hr].
  destruct (is_err r) eqn:E; [by apply safely_answer|].
  apply removePersisted_safe; [done| |].
  - intros name n. rewrite Hs. apply Ho2.
  - intros d' Hd'. left. rewrite Hm in Hd'. apply elem_of_cons in Hd' as [-> |Hd'].
    + apply Hr. by destruct r.
    + apply Hack. cbn [note_promised w_acknowledged]. rewrite Ha2. apply Ha. by rewrite Hm2 in Hd'.
Qed.

(** ** Replaying *)

Lemma exact_inj d1 d2 name n data : exact d1 name n → exact d2 name n → node_data n = Ok data →
  DecodeStrictBounded (A := delivery) data spool_limit = Ok d1 → d1 = d2.
Proof.
  intros (_ & b1 & Hm1 & ->) (_ & b2 & Hm2 & Hn) [= <-] Hd. apply (f_equal node_data) in Hn. injection Hn as <-.
  by eapply spool_reads.
Qed.

Lemma replay_entry_safe os name names w : spool_inv w → only (name :: names) w →
  safely spool_inv (replay_entry request os name) (λ _ w', only names w') w.
Proof.
  intros Hi Ho. unfold replay_entry. destruct (HasPrefix name pending_prefix) eqn:G.
  { apply safely_answer; [done|]. intros _ _ name' n Hl G'. 
    destruct (proj1 (elem_of_cons _ _ _) (Ho name' n Hl G')) as [-> |]; [|done]. unfold pending_name in G'. congruence. }
  eapply (safely_bind _ _ _ (λ _ w', w' = w)); [by apply safely_observe|]. intros info ? _ ->.
  eapply (safely_bind _ _ _ (λ _ w', w' = on_spool (change id) w)).
  { apply safely_call; [done|by apply inv_pending|done]. }
  intros _ w1 Hi1 Hw1. assert (only (name :: names) w1) as Ho1 by by subst w1.
  clear dependent w. rename w1 into w, Hi1 into Hi, Ho1 into Ho.
  eapply (safely_bind _ _ _ (λ data w', w' = w ∧ ∃ n, sp_live (w_spool w) !! name = Some n ∧ node_data n = Ok data)).
  { apply safely_observe; [done|]. intros data. unfold read_name.
    destruct (sp_live (w_spool w) !! name) as [n|] eqn:E; [|done]. intros Hn. split; [done|]. by exists n. }
  intros data ? _ [-> (n & Hl & Hn)].
  destruct (proj1 Hi (sp_live (w_spool w)) name n) as (d & Hd & Hx); [apply list_elem_of_here|done|done|].
  eapply (safely_bind _ _ _ (λ v w', w' = w ∧ v = d ∧ DecodeStrictBounded (A := delivery) data spool_limit = Ok v)).
  { apply safely_answer; [done|]. intros v Hv. split_and!; [done| |done].
    destruct Hx as (_ & b & Hm & ->). injection Hn as <-. by eapply spool_reads. }
  intros v ? _ (-> & -> & Hdec).
  eapply safely_bind; [by apply post_safe|]. intros r w1 Hi1 [(Hs & _ & Hp & Hack) Hr].
  destruct (is_err r) eqn:E; [by apply safely_answer|].
  apply removePersisted_safe; [done| |].
  - intros name' n'. rewrite Hs. apply Ho.
  - intros d' Hd'. rewrite Hp in Hd'. destruct (decide (spool_name d' = name)) as [<-|]; [left|by right].
    destruct (proj1 (proj2 Hi) d' Hd') as [|Hk]; [by apply Hack|].
    destruct (Hk (sp_live (w_spool w))) as (n' & Hl' & Hx'); [apply list_elem_of_here|].
    rewrite Hl in Hl'. injection Hl' as <-.
    rewrite <-(exact_inj d d' (spool_name d') n data) by done. apply Hr. by destruct r.
Qed.

Lemma replay_entries_safe os names w : spool_inv w → only names w →
  safely spool_inv (replay_entries request os names) (λ _ w', only [] w') w.
Proof.
  revert w. induction names as [|name names IH]; intros w Hi Ho; cbn [replay_entries]; [by apply safely_answer|].
  eapply (safely_bind _ _ _ (λ _ w', only names w')); [by apply replay_entry_safe|]. intros _ w' Hi' Ho'. by apply IH.
Qed.

Lemma replayResults_safe os w : spool_inv w → safely spool_inv (replayResults request os) (λ _ w', only [] w') w.
Proof.
  intros Hi. unfold replayResults.
  eapply (safely_bind _ _ _ (λ _ _, True)); [apply safely_call; [done|by apply inv_pending|done]|].
  intros _ w1 Hi1 _.
  eapply (safely_bind _ _ _ (λ names w', only names w')).
  { apply safely_observe; [done|]. intros names [= <-] name n Hl _.
    rewrite SortStrings_perm. apply elem_of_elements, elem_of_dom. by exists n. }
  intros names w2 Hi2 Ho2. by apply replay_entries_safe.
Qed.

(** ** Every world the daemon reaches *)

Lemma reachable_inv start b w : daemon_reachable request start b w → spool_inv w ∧ (b = true → only [] w).
Proof.
  assert (∀ A (m : SpoolM A) Q w w', safely spool_inv m Q w → passed (m w) w' → spool_inv w') as Hpassed.
  { intros A m Q w1 w' (Hp & Hi & _) [Hin| ->]; [by eapply Forall_forall in Hp|done]. }
  assert (∀ A (m : SpoolM A) Q w, safely spool_inv m (λ _ w', Q w') w →
            spool_inv (outcome (m w)) ∧ (run_completed (m w) = true → Q (outcome (m w)))) as Hdone.
  { intros A m Q w1 (_ & Hi & Hr). unfold outcome, run_completed. split; [done|].
    destruct (m w1).2 as [a|]; [|done]. intros _. by apply (Hr a). }
  induction 1 as [|b w os Hr [IH IHb]|w os d Hr [IH IHb]|b w os w' Hr [IH IHb] Hp|w os d w' Hr [IH IHb] Hp|b w m Hr [IH IHb] Hm].
  - split; [|done]. split_and!; [|by intros d Hd; inversion Hd|by intros d Hd; inversion Hd].
    intros v name n ->%list_elem_of_singleton. cbn. by rewrite lookup_empty.
  - apply (Hdone unit). by apply replayResults_safe.
  - apply (Hdone unit). apply deliver_job_safe; auto.
  - split; [|done]. eapply (Hpassed unit (replayResults request os) _ w); [by apply replayResults_safe|done].
  - split; [|done]. eapply (Hpassed unit (deliver_job request os d) _ w); [|done]. apply deliver_job_safe; [done|by apply IHb].
  - split; [|done]. by apply inv_crash.
Qed.

(** ** A replay without faults *)

Definition fault_free os : Prop := ∀ c, os_outcome os c = Done.
(** The service acknowledges what the executor has produced, and it fits the spool. *)
Definition accepting w : Prop := ∀ d, d ∈ w_produced w →
  (∃ data, Marshal d = Ok data ∧ DecodeStrictBounded (A := delivery) data spool_limit = Ok d) ∧
  ∀ service, (request service (result_address d) (delivery_Envelope d) (delivery_ResultToken d)).2 = Ok tt.

Definition finishes {A} (m : SpoolM A) w (a : A) w' : Prop := ∃ ws, m w = (ws, w', Ok a).

Lemma finishes_bind {A B} (m : SpoolM A) (k : A → SpoolM B) w a w1 b w2 :
  finishes m w a w1 → finishes (k a) w1 b w2 → finishes (then_do m k) w b w2.
Proof. intros [ws Hm] [ws' Hk]. exists (ws ++ ws'). unfold then_do. by rewrite Hm, Hk. Qed.
Lemma finishes_observe {A} (f : Versions → result A) w a : f (sp_live (w_spool w)) = Ok a → finishes (observe f) w a w.
Proof. intros Hf. exists []. unfold observe. by rewrite Hf. Qed.
Lemma finishes_call os c f w : fault_free os → finishes (call os c f) w tt (on_spool (change f) w).
Proof. intros Hos. exists [w]. unfold call. by rewrite Hos. Qed.
Lemma finishes_sync os after w : fault_free os → finishes (syncDirectory os after) w tt (on_spool sync w).
Proof. intros Hos. exists [w]. unfold syncDirectory. by rewrite Hos. Qed.
Lemma finishes_completed {A} (m : SpoolM A) w a w' : finishes m w a w' → run_completed (m w) = true ∧ outcome (m w) = w'.
Proof. intros [ws Hm]. unfold run_completed, outcome. by rewrite Hm. Qed.

Lemma spool_name_suffix d : HasSuffix (spool_name d) ".json" = true.
Proof.
  unfold HasSuffix, spool_name. rewrite list_of_app, rev_app_distr. apply is_prefix_app.
Qed.

Lemma spool_entry_exact d (m : Versions) data : Marshal d = Ok data →
  DecodeStrictBounded (A := delivery) data spool_limit = Ok d → m !! spool_name d = Some (file_of data true) →
  spool_entry (spool_name d) m = Ok (owner_only (len data)).
Proof.
  intros Hm Hd Hl. unfold spool_entry. rewrite Hl. cbn [file_of node_info]. rewrite spool_name_suffix.
  unfold DecodeStrictBounded in Hd. destruct (_ || _) eqn:G in Hd; [done|]. bool_prop.
  unfold unsafe_entry. cbn [owner_only fi_IsDir fi_IsRegular fi_Size has_bits fi_Perm negb orb].
  assert (len data >? spool_limit = false) as -> by lia. done.
Qed.

Lemma replay_entry_completes os name n w : fault_free os → accepting w → spool_inv w →
  sp_live (w_spool w) !! name = Some n →
  ∃ w', finishes (replay_entry request os name) w tt w' ∧ w_produced w' = w_produced w ∧
    ∀ other, other ≠ name → sp_live (w_spool w') !! other = sp_live (w_spool w) !! other.
Proof.
  intros Hos Hacc Hi Hl. unfold replay_entry. destruct (HasPrefix name pending_prefix) eqn:G.
  { exists w. split; [by exists []|done]. }
  destruct (proj1 Hi (sp_live (w_spool w)) name n) as (d & Hd & -> & data & Hm & ->); [apply list_elem_of_here|done|done|].
  destruct (Hacc d Hd) as [(data' & Hm' & Hdec) Hreq]. rewrite Hm in Hm'. injection Hm' as <-.
  set (w1 := on_spool (change id) w).
  destruct (request (w_service w1) (result_address d) (delivery_Envelope d) (delivery_ResultToken d)) as [service r] eqn:Er.
  assert (r = Ok tt) as -> by (by rewrite <-(Hreq (w_service w1)), Er).
  eexists. split.
  - eapply finishes_bind; [by apply finishes_observe, (spool_entry_exact d _ data)|].
    eapply finishes_bind; [by apply finishes_call|].
    eapply finishes_bind; [apply (finishes_observe _ w1 data); unfold read_name; cbn; by rewrite Hl|].
    eapply finishes_bind; [exists []; unfold answer; by rewrite Hdec|].
    eapply finishes_bind; [eexists; unfold post; rewrite Er; done|].
    eapply finishes_bind; [by apply finishes_call|by apply finishes_sync].
  - split; [done|]. intros other Hne. by apply lookup_delete_ne.
Qed.

Lemma replay_entries_complete os names w : fault_free os → accepting w → spool_inv w → NoDup names →
  (∀ name, name ∈ names → is_Some (sp_live (w_spool w) !! name)) →
  ∃ w', finishes (replay_entries request os names) w tt w'.
Proof.
  intros Hos. revert w. induction names as [|name names IH]; intros w Hacc Hi Hnd Hin; [by exists w, []|].
  apply NoDup_cons in Hnd as [Hni Hnd]. destruct (Hin name) as [n Hl]; [apply list_elem_of_here|].
  destruct (replay_entry_completes os name n w Hos Hacc Hi Hl) as (w1 & Hf & Hp & Ho).
  destruct (IH w1) as [w' Hf']; [|  |done| |by exists w'; eapply finishes_bind].
  - intros d. rewrite Hp. apply Hacc.
  - apply finishes_completed in Hf as [_ <-].
    eapply (replay_entry_safe os name (elements (dom (sp_live (w_spool w))))); [done|].
    intros name' n' Hl' _. apply list_elem_of_further, elem_of_elements, elem_of_dom. by exists n'.
  - intros other Hother. rewrite Ho by (by intros ->). apply Hin. by apply list_elem_of_further.
Qed.

(** ** Properties *)

(** C12: A result is kept until it is acknowledged.  Whatever calls fail, wherever the daemon
    is killed or the machine crashes, and however often it is restarted: a result that
    [persistResult] has returned for and the service has not acknowledged is in the
    directory after the next crash, in a file of its own that holds exactly it and only the
    owner can read. *)
Theorem persisted_result_survives start b w d m :
  daemon_reachable request start b w → d ∈ w_promised w → d ∉ w_acknowledged w → after_crash (w_spool w) m →
  ∃ data, Marshal d = Ok data ∧ m !! spool_name d = Some (mkNode (Ok data) true (owner_only (len data))).
Proof.
  intros [Hi _]%reachable_inv Hd Hna Hm. pose proof (inv_crash w m Hi Hm) as (_ & Hk & _).
  destruct (Hk d Hd) as [|Hv]; [done|].
  destruct (Hv m) as (n & Hl & _ & data & Hdata & ->); [apply list_elem_of_here|]. by exists data.
Qed.

(** C20: A restart recovers.  From every world the daemon reaches, a start whose calls succeed
    and whose service acknowledges what the executor produced ends in the loop: no entry is
    refused for review, nothing is left in the directory to deliver, and every result that
    was persisted is acknowledged. *)
Theorem restart_delivers start b w os :
  daemon_reachable request start b w → fault_free os → accepting w →
  run_completed (replayResults request os w) = true ∧ only [] (outcome (replayResults request os w)) ∧
  all_acknowledged (outcome (replayResults request os w)).
Proof.
  intros [Hi _]%reachable_inv Hos Hacc.
  assert (run_completed (replayResults request os w) = true) as Hc.
  { destruct (replay_entries_complete os (SortStrings (elements (dom (sp_live (w_spool w))))) (on_spool (change id) w))
      as [w' Hf]; [done|done|by apply inv_pending| | |].
    - rewrite SortStrings_perm. apply NoDup_elements.
    - intros name. rewrite SortStrings_perm, elem_of_elements, elem_of_dom. done.
    - eapply (finishes_completed _ _ tt). eapply finishes_bind; [by apply finishes_call|].
      by eapply finishes_bind; [by apply finishes_observe|]. }
  destruct (replayResults_safe os w Hi) as (_ & Hi' & Hr). unfold run_completed, outcome in *.
  destruct (replayResults request os w).2 as [[]|e]; [|done]. specialize (Hr tt eq_refl).
  split_and!; [done|done|by apply nothing_left].
Qed.

End Safety.
