(* ===== verification/LifecycleProofs.v ===== *)
(** The lifecycle of challenge versions over all interleavings: intake is only ever open on
    a published version whose signed lock commits to its manifest and to a signed machine
    conformance of its policy; locks never change; a migration transfers only unclaimed
    milestones of a drained predecessor.

    [kept] is what every operation keeps of the tables behind a lock, [row_ok] the
    invariant of one version row; an operation is a chain of steps that keep, and of
    updates of single rows. *)

From S2P Require Import Prelude Regex GoLib Numbers Types Scores Paths Measurement Evaluation Validate.
From S2P Require Import Sha256 GoJson Canonical Documents Results Frontier Artifacts Hidden Signatures Checkpoint History Store.
From S2P Require Import Adjudication AdjudicationProofs Platform Preparation Suites Runners Editorial Intake.
From S2P Require Import EvaluationProofs Submissions Fleet FleetSteps FleetResults IntakeProofs Snapshots Lifecycle.
From S2P Require Import Worker Sources Review ContractProofs WorkerProofs.
Open Scope Z_scope.

(** * The invariant *)

(** What an operation keeps: locks, their versions and receipts with their payloads and
    signatures stay, and manifests do not change. *)
Record kept (s s' : ldb) : Prop := {
  kp_locks : ∀ d k, is_Some (l_locks s !! d) → g_locks (p_registry (l_platform s)) !! d = Some k →
    g_locks (p_registry (l_platform s')) !! d = Some k;
  kp_versions : ∀ d id, l_locks s !! d = Some id → l_locks s' !! d = Some id;
  kp_receipts : ∀ k r, t_receipts (l_core s) !! k = Some r →
    ∃ r', t_receipts (l_core s') !! k = Some r' ∧ rr_payload r' = rr_payload r;
  kp_signed : ∀ k, is_Some (l_envelopes s !! k) → is_Some (l_envelopes s' !! k);
  kp_manifest : ∀ id m, ver_manifest <$> t_versions (l_core s) !! id = Some m →
    ver_manifest <$> t_versions (l_core s') !! id = Some m
}.

#[export] Instance kept_preorder : PreOrder kept.
Proof.
  split.
  - intros s. split; eauto.
  - intros a b c [L1 V1 R1 E1 M1] [L2 V2 R2 E2 M2]. split; eauto.
    { intros d k [id Hd] Hk. apply L2; eauto. }
    intros k r Hr. destruct (R1 _ _ Hr) as (r1 & Hr1 & P1). destruct (R2 _ _ Hr1) as (r2 & Hr2 & P2).
    exists r2. split; [done|congruence].
Qed.

Section Invariant.
Context `{UnicodeLib} `{JsonCanonicalizer} `{JsonType Lock} `{JsonType Manifest}.

(** The receipt is a conformance of the policy of [m]. *)
Definition conforms (m : Manifest) (r : Receipt) : Prop :=
  ValidVerificationPolicy (ManifestVerificationPolicy m) = true ∧
  receipt_policy r = (ManifestVerificationPolicy m, verifiedStatus (ManifestVerificationPolicy m) "valid").

(** [d] is a lock of the version: it commits to its manifest, source and policy, to the
    disks and profile its preflight built, and first among its reviews to a signed
    conformance receipt. *)
Definition locked (s : ldb) (id : string) (v : VersionRow) (d : string) : Prop :=
  l_locks s !! d = Some id ∧
  ∃ k lock machine r, g_locks (p_registry (l_platform s)) !! d = Some k ∧ lk_decoded k = Ok lock ∧
    Digest lock = Ok d ∧ Digest (lock_Manifest lock) = Ok (lock_ManifestDigest lock) ∧
    ver_manifest <$> t_versions (l_core s) !! id = Some (Ok (lock_Manifest lock)) ∧
    lock_SourceSnapshotDigest lock = vr_source v ∧ lock_bound lock = true ∧
    head (lock_ReviewDigests lock) = Some machine ∧
    t_receipts (l_core s) !! machine = Some r ∧ is_Some (l_envelopes s !! machine) ∧
    conforms (lock_Manifest lock) (rr_payload r).

(** The lock of the version is signed. *)
Definition lock_signed (s : ldb) (v : VersionRow) : Prop :=
  ∃ d, vr_lock v = Some d ∧ is_Some (l_envelopes s !! d).

Record row_ok (s : ldb) (id : string) (v : VersionRow) : Prop := {
  ro_open : vr_intake v = "open" → vr_status v = "published";
  ro_sealed : sealed v → is_Some (vr_lock v);
  ro_lock : ∀ d, vr_lock v = Some d → locked s id v d;
  ro_signed : vr_status v = "migration_signing" ∨ vr_status v = "published" → lock_signed s v
}.

Record life_ok (s : ldb) : Prop := {
  lo_rows : ∀ id v, versions s !! id = Some v → row_ok s id v;
  lo_none : ∀ id, versions s !! id = None → t_versions (l_core s) !! id = None
}.

Lemma locked_kept s s' id v v' d : kept s s' → vr_source v' = vr_source v → locked s id v d → locked s' id v' d.
Proof.
  intros [] Hs (Hl & k & lock & machine & r & ? & ? & ? & ? & ? & ? & ? & ? & Hr & ? & ?). split; [eauto|].
  destruct (kp_receipts0 _ _ Hr) as (r' & ? & Hp). exists k, lock, machine, r'.
  split_and!; eauto; [congruence|by rewrite Hp].
Qed.

Lemma row_ok_kept s s' id v : kept s s' → row_ok s id v → row_ok s' id v.
Proof.
  intros Hk [Ho Hs Hl Hg]. split; [done..| |].
  - intros d Hd. by eapply locked_kept; eauto.
  - intros Hv. destruct (Hg Hv) as (d & ? & ?). exists d. split; [done|]. by apply (kp_signed _ _ Hk).
Qed.

Lemma row_ok_move s id v v' : version_move v v' → row_ok s id v → row_ok s id v'.
Proof.
  intros [[C1 C2 C3 C4 C5 C6 C7] Hsl Hop] [Ho Hs Hl Hg].
  assert (∀ d, vr_lock v' = Some d → locked s id v' d) as Hl'.
  { intros d Hd. eapply locked_kept; [reflexivity|exact C5|]. apply Hl. congruence. }
  destruct Hsl as [Hst|[Hns Hc]].
  - split; [|unfold sealed; rewrite Hst, C3; auto|done|].
    + intros Hi. destruct (Hop Hi) as [?|?]; [rewrite Hst; auto|done].
    + rewrite Hst. intros Hv. destruct (Hg Hv) as (d & ? & ?). exists d. split; [congruence|done].
  - assert (vr_status v' = "migration_signing" ∨ vr_status v' = "published" → False) as Hno.
    { intros Hv. apply Hns. unfold sealed, sealed_statuses. set_solver. }
    split; [|done|done|intros Hv; by destruct (Hno Hv)].
    intros Hi. destruct (Hop Hi) as [Hvi|?]; [|tauto]. exfalso. destruct Hc as [Hn|?]; [|done].
    apply Ho in Hvi. assert (is_Some (vr_lock v)) as [? ?]; [|congruence].
    apply Hs. unfold sealed, sealed_statuses. set_solver.
Qed.

Lemma row_ok_moves s id v v' : rtc version_move v v' → row_ok s id v → row_ok s id v'.
Proof. induction 1; eauto using row_ok_move. Qed.

Lemma life_ok_kept s s' : kept s s' → versions s' = versions s →
  (∀ id, t_versions (l_core s) !! id = None → t_versions (l_core s') !! id = None) → life_ok s → life_ok s'.
Proof.
  intros Hk Hv Hn [Hr Ho]. split.
  - intros id v. rewrite Hv. intros Hx. eapply row_ok_kept; eauto.
  - intros id. rewrite Hv. eauto.
Qed.

(** ** Updating one row *)

Lemma update_version_kept s id f s' : update_version s id f = Ok s' →
  kept s s' ∧ l_core s' = l_core s ∧ l_envelopes s' = l_envelopes s ∧
  versions s' = alter f id (versions s).
Proof.
  unfold update_version. intros Hu. destruct (versions s !! id) as [v|] eqn:Hv.
  - ok_step Hu. apply (inj Ok) in Hu. subst s'. split_and!; [by split; eauto|done|done|].
    apply map_eq. intros k. unfold versions at 1. simpl. destruct (decide (k = id)) as [->|].
    + by rewrite lookup_insert_eq, lookup_alter_eq, Hv.
    + by rewrite lookup_insert_ne, lookup_alter_ne.
  - apply (inj Ok) in Hu. subst s'. split_and!; [reflexivity|done|done|].
    apply map_eq. intros k. destruct (decide (k = id)) as [->|]; [by rewrite lookup_alter_eq, Hv|].
    by rewrite lookup_alter_ne.
Qed.

Lemma update_version_ok s id f s' : life_ok s → update_version s id f = Ok s' →
  (∀ v, versions s !! id = Some v → row_ok s id v → row_ok s id (f v)) → life_ok s'.
Proof.
  intros [Hr Hn] Hu Hf. apply update_version_kept in Hu as (Hk & Hc & _ & Hv). split.
  - intros k v. rewrite Hv. intros Hx. apply row_ok_kept with s; [done|].
    destruct (decide (k = id)) as [->|].
    + rewrite lookup_alter_eq in Hx. apply fmap_Some in Hx as (v0 & Hv0 & ->). auto.
    + rewrite lookup_alter_ne in Hx by done. auto.
  - intros k. rewrite Hv, Hc. intros Hx. apply Hn. destruct (decide (k = id)) as [->|].
    + rewrite lookup_alter_eq in Hx. by destruct (versions s !! id).
    + by rewrite lookup_alter_ne in Hx.
Qed.

Lemma update_version_aside s id f s' : update_version s id f = Ok s' → aside (l_platform s) (l_platform s').
Proof.
  unfold update_version. intros Hu. destruct (versions s !! id); [ok_step Hu|]; by apply (inj Ok) in Hu as <-.
Qed.

(** ** Steps of the other tables *)

Lemma kept_db s d : steady (l_core s) d → kept s (with_db s d).
Proof.
  intros [Hm Hr]. split; eauto. intros id m. change (l_core (with_db s d)) with d. by rewrite Hm.
Qed.

Lemma life_ok_db s d : steady (l_core s) d → life_ok s → life_ok (with_db s d).
Proof.
  intros Hd. apply life_ok_kept; [by apply kept_db|done|]. intros id Hn.
  change (l_core (with_db s d)) with d. pose proof (sd_manifest _ _ Hd id) as Hm. rewrite Hn in Hm.
  by destruct (t_versions d !! id).
Qed.

Lemma kept_calm s p : calm (l_platform s) p → kept s (with_platform s p).
Proof.
  intros [Hg [Hm Hr] _ _]. split; try by eauto.
  - simpl. by rewrite Hg.
  - intros id m. unfold l_core. simpl. by rewrite Hm.
Qed.

Lemma life_ok_calm s p : calm (l_platform s) p → life_ok s → life_ok (with_platform s p).
Proof.
  intros Hc [Hr Hn]. pose proof (kept_calm _ _ Hc) as Hk. destruct Hc as [Hg [Hm _] Hrows Hnone]. split.
  - intros id v' Hv'. unfold versions in *. simpl in Hv'.
    destruct (i_versions (p_intake (l_platform s)) !! id) as [v|] eqn:Hv; [|by rewrite Hnone in Hv'].
    destruct (Hrows _ _ Hv) as (v1 & Hv1 & Hmv). simplify_eq.
    eapply row_ok_kept; [exact Hk|]. eapply row_ok_moves; eauto.
  - intros id Hx. unfold versions, l_core in *. simpl in *.
    destruct (i_versions (p_intake (l_platform s)) !! id) as [v|] eqn:Hv.
    + destruct (Hrows _ _ Hv) as (v1 & Hv1 & _). congruence.
    + specialize (Hn id Hv). specialize (Hm id). rewrite Hn in Hm. by destruct (t_versions (p_core p) !! id).
Qed.
End Invariant.

(** * The operations *)

(** Rows keep their contract: their source, deadline and owner, and their lock once they
    have one. *)
Definition rows_kept (s s' : ldb) : Prop :=
  ∀ id v, versions s !! id = Some v → ∃ v', versions s' !! id = Some v' ∧
    vr_source v' = vr_source v ∧ vr_deadline v' = vr_deadline v ∧ vr_owner v' = vr_owner v ∧
    (is_Some (vr_lock v) → vr_lock v' = vr_lock v).

#[export] Instance rows_kept_preorder : PreOrder rows_kept.
Proof.
  split; [intros s id v Hv; exists v; by split_and!|].
  intros a b c V1 V2 id v Hv. destruct (V1 _ _ Hv) as (v1 & Hv1 & S1 & D1 & W1 & L1).
  destruct (V2 _ _ Hv1) as (v2 & Hv2 & S2 & D2 & W2 & L2).
  exists v2. split_and!; try congruence. intros Hl. specialize (L1 Hl). rewrite L2; congruence.
Qed.

Lemma rows_kept_same s s' : versions s' = versions s → rows_kept s s'.
Proof. intros Hv id v Hx. exists v. rewrite Hv. by split_and!. Qed.

Lemma rows_kept_alter s s' id f : versions s' = alter f id (versions s) →
  (∀ v, versions s !! id = Some v → vr_source (f v) = vr_source v ∧ vr_deadline (f v) = vr_deadline v ∧
     vr_owner (f v) = vr_owner v ∧ (is_Some (vr_lock v) → vr_lock (f v) = vr_lock v)) → rows_kept s s'.
Proof.
  intros Hv Hf k v Hx. rewrite Hv. destruct (decide (k = id)) as [->|].
  - rewrite lookup_alter_eq, Hx. exists (f v). split; [done|auto].
  - rewrite lookup_alter_ne by done. exists v. by split_and!.
Qed.

Section Operations.
Context `{Crypto} `{!Pki} `{UnicodeLib} `{UrlLib} `{YamlLib} `{JsonCanonicalizer}.
Context `{JsonType Manifest} `{JsonType Lock} `{JsonType Receipt} `{JsonType ValidatorResult}.
Context `{JsonType ExecutorCapabilities} `{JsonType (list Milestone)} `{JsonType RawMessage} `{JsonType ArtifactTree}.

(** An operation keeps what is behind the locks, the contracts, and the invariant, and
    leaves runs and submissions alone. *)
Record goes (s s' : ldb) : Prop := {
  gd_kept : kept s s';
  gd_rows : rows_kept s s';
  gd_aside : aside (l_platform s) (l_platform s');
  gd_ok : life_ok s'
}.
Definition good (s s' : ldb) : Prop := life_ok s → goes s s'.

#[export] Instance good_preorder : PreOrder good.
Proof.
  split; [by split|]. intros a b c Hab Hbc Ha. destruct (Hab Ha) as [K1 R1 F1 O1].
  destruct (Hbc O1) as [K2 R2 F2 O2]. split; [by etrans..|done].
Qed.

Lemma good_db s d : t_submissions d = t_submissions (l_core s) → steady (l_core s) d → good s (with_db s d).
Proof.
  intros Hsub Hd Hs. split; [by apply kept_db|by apply rows_kept_same|by split|by apply life_ok_db].
Qed.

Lemma good_ids s n : good s (with_db s (set_ids (l_core s) n)).
Proof. by apply good_db, steady_same. Qed.

Lemma good_enqueue (E : Env) s kind id : good s (with_db s (enqueue (l_core s) kind id)).
Proof. apply good_db; [done|apply steady_enqueue]. Qed.

Lemma good_same s s' : l_platform s' = l_platform s → l_locks s' = l_locks s →
  (∀ k, is_Some (l_envelopes s !! k) → is_Some (l_envelopes s' !! k)) → good s s'.
Proof.
  intros Hp Hl He Hs. assert (versions s' = versions s) as Hv by (unfold versions; by rewrite Hp).
  assert (kept s s') as Hk.
  { split; unfold l_core; rewrite ?Hp, ?Hl; eauto. }
  split; [done|by apply rows_kept_same|by rewrite Hp|].
  revert Hs. apply life_ok_kept; [done|done|]. unfold l_core. by rewrite Hp.
Qed.

Lemma moves_contract v v' : rtc version_move v v' → same_contract v v'.
Proof. induction 1 as [|v v1 v2 [Hc _ _] _ IH]; [apply same_contract_refl|]. by eapply same_contract_trans. Qed.

Lemma good_calm s p : aside (l_platform s) p → calm (l_platform s) p → good s (with_platform s p).
Proof.
  intros Ha Hc Hs. split; [by apply kept_calm| |done|by apply life_ok_calm].
  intros id v Hv. destruct (cm_rows _ _ Hc _ _ Hv) as (v' & Hv' & []%moves_contract). exists v'. by split_and!.
Qed.

Lemma good_modest s p : modest (l_platform s) p → good s (with_platform s p).
Proof. intros []. by apply good_calm. Qed.

Lemma good_receipt (E : Env) s digest r owner public :
  good s (with_platform s (saveReceipt (l_platform s) digest r owner public)).
Proof. apply good_modest, (saveReceipt_modest E). Qed.

Lemma good_blob s digest row : good s (with_platform s (insert_blob (l_platform s) digest row)).
Proof. apply good_modest, insert_blob_modest. Qed.

(** One row updated, within its contract. *)
Lemma good_update s id f s' : update_version s id f = Ok s' →
  (∀ v, versions s !! id = Some v → row_ok s id v →
     vr_source (f v) = vr_source v ∧ vr_deadline (f v) = vr_deadline v ∧ vr_owner (f v) = vr_owner v ∧
     (is_Some (vr_lock v) → vr_lock (f v) = vr_lock v) ∧ row_ok s id (f v)) → good s s'.
Proof.
  intros Hu Hf Hs. pose proof (update_version_kept _ _ _ _ Hu) as (Hk & _ & _ & Hv).
  split; [done| |by eapply update_version_aside|].
  - eapply rows_kept_alter; [exact Hv|]. intros v Hx. destruct (Hf _ Hx (lo_rows _ Hs _ _ Hx)) as (?&?&?&?&_).
    by split_and!.
  - eapply update_version_ok; [exact Hs|exact Hu|]. intros v Hx Hr. by apply Hf.
Qed.

Lemma good_move s id f s' : update_version s id f = Ok s' →
  (∀ v, versions s !! id = Some v → row_ok s id v → version_move v (f v)) → good s s'.
Proof.
  intros Hu Hf. eapply good_update; [exact Hu|]. intros v Hv Hr. pose proof (Hf _ Hv Hr) as Hm.
  destruct (vm_contract _ _ Hm). split_and!; try done. by eapply row_ok_move.
Qed.

Lemma good_close s id status s' : status ∉ sealed_statuses →
  update_version s id (λ v, version_intake "closed" (version_status status v)) = Ok s' → good s s'.
Proof.
  intros Hst Hu. eapply good_move; [exact Hu|]. intros v _ _.
  split; [by split|right; split; [done|by right]|done].
Qed.

Lemma good_audit (E : Env) s id kind data d : audit (l_core s) id kind data = Ok d → good s (with_db s d).
Proof. intros Ha. apply good_db; [by apply audit_frame in Ha as [l ->]|by eapply steady_audit]. Qed.

Lemma good_fold {B} (f : ldb → B → result ldb) l : (∀ s x s', f s x = Ok s' → good s s') →
  ∀ s s', foldM f s l = Ok s' → good s s'.
Proof.
  intros Hf. induction l as [|x l IH]; intros s s' Hs; cbn [foldM] in Hs.
  - apply (inj Ok) in Hs. by subst.
  - ok_step Hs. etrans; [by eapply Hf|by apply IH].
Qed.

Lemma good_inserted_version s id v m revision s' : ¬ sealed v → vr_lock v = None → vr_intake v ≠ "open" →
  insert_version s id v m revision = Ok s' → good s s'.
Proof.
  unfold insert_version. intros Hns Hl Hi Hs Hok. ok_step Hs. apply (inj Ok) in Hs. subst s'.
  apply orb_false_iff in G as [G _]. apply bool_decide_eq_false, eq_None_not_Some in G.
  pose proof (lo_none _ Hok _ G) as Hn.
  match goal with |- goes s ?x => set (s' := x) end.
  assert (kept s s') as Hk.
  { split; eauto. intros k d. unfold s', l_core in *. simpl.
    destruct (decide (k = id)) as [->|]; [by rewrite Hn|by rewrite lookup_insert_ne]. }
  assert (versions s' = <[id := v]> (versions s)) as Hv by done.
  split; [done| |by split|split].
  - intros k x Hx. exists x. rewrite Hv, lookup_insert_ne by congruence. by split_and!.
  - intros k x. rewrite Hv. intros [[<- <-]|[Hne Hx]]%lookup_insert_Some.
    + split; [done|done|by rewrite Hl|]. intros [Hst|Hst]; exfalso; apply Hns; unfold sealed; rewrite Hst;
        unfold sealed_statuses; set_solver.
    + eapply row_ok_kept; [exact Hk|]. by apply (lo_rows _ Hok).
  - intros k. rewrite Hv. intros [Hx Hne]%lookup_insert_None. unfold s', l_core in *. simpl.
    rewrite lookup_insert_ne by done. by apply (lo_none _ Hok).
Qed.

(** ** Preflight and lock *)

Lemma ownedVersion_inv s u id ms : ownedVersion s u id = Ok ms →
  ∃ v row, versions s !! id = Some v ∧ t_versions (l_core s) !! id = Some row ∧ vr_owner v = user_ID u ∧
    ver_manifest row = Ok ms.1 ∧ vr_status v = ms.2.
Proof.
  unfold ownedVersion. intros Ho. destruct (versions s !! id) as [v|]; [|done].
  destruct (t_versions (l_core s) !! id) as [row|]; [|done]. ok_step Ho. ok_step Ho. bool_prop.
  apply (inj Ok) in Ho. subst ms. by exists v, row.
Qed.

Lemma startPreflight_good (E : Env) sv s u version s' id :
  startPreflight sv s u version = Ok (s', id) → good s s'.
Proof.
  unfold startPreflight. intros Hs. ok_step Hs. apply (reservePreparation_modest E) in E0. cbn zeta in Hs.
  set (s1 := with_platform s r) in *. assert (good s s1) as H1g by by apply good_modest. clearbody s1. clear E0.
  ok_step Hs. ok_step Hs. ok_step Hs. cbn [ID] in Hs. ok_step Hs. ok_step Hs.
  apply (inj Ok), pair_equal_spec in Hs as [<- _]. etrans; [exact H1g|].
  etrans; [|apply (good_enqueue E)].
  match goal with Hu : update_version ?s2 _ _ = Ok _ |- _ => transitivity s2 end.
  - etrans; [apply good_ids|].
    match goal with |- good _ (set_preflight_times ?m _) => transitivity m; [|by apply good_same] end.
    apply good_calm; [by split|quiet].
  - apply ownedVersion_inv in E0 as (v & row & Hv & _ & _ & _ & Hst). rewrite <-Hst in G. bool_prop.
    apply member_true in G.
    eapply good_move; [exact E2|]. intros v0 Hv0 Hr. assert (v0 = v) as ->.
    { unfold versions in Hv, Hv0. simpl in Hv0. congruence. }
    split; [by split| |by left]. right.
    split; [unfold sealed, sealed_statuses; simpl; set_solver|]. right. simpl. intros Ho.
    apply (ro_open _ _ _ Hr) in Ho. rewrite Ho in G. set_solver.
Qed.

Lemma check_conformance_inv s m machine : check_conformance s m machine = Ok tt →
  ∃ r, t_receipts (l_core s) !! machine = Some r ∧ is_Some (l_envelopes s !! machine) ∧ conforms m (rr_payload r).
Proof.
  unfold check_conformance. intros Hc. destruct (t_receipts (l_core s) !! machine) as [r|]; [|done].
  destruct (l_envelopes s !! machine) as [e|] eqn:He; [|done].
  destruct (receipt_policy (rr_payload r)) as [policy status] eqn:Hp. ok_step Hc. bool_prop.
  exists r. split_and!; [done|done|]. unfold conforms. split; [done|]. rewrite Hp. congruence.
Qed.

Lemma good_locks s digest version lock document : l_locks s !! digest = None →
  good s (set_lock_versions (with_platform s (set_locks (l_platform s)
    (<[digest := mkLockRow document lock]> (g_locks (p_registry (l_platform s))))))
    (<[digest := version]> (l_locks s))).
Proof.
  intros Hn Hok. match goal with |- goes s ?x => set (s' := x) end.
  assert (kept s s') as Hk.
  { split; eauto.
    - intros d k [id Hd] Hx. unfold s'. simpl. rewrite lookup_insert_ne; [done|congruence].
    - intros d id Hd. unfold s'. simpl. rewrite lookup_insert_ne; [done|congruence]. }
  split; [done|by apply rows_kept_same|by split|]. by eapply life_ok_kept.
Qed.

(** A version that has a lock cannot be locked again. *)
Lemma store_lock_good (E : Env) s u version digest lock document s' v m machine :
  versions s !! version = Some v → ver_manifest <$> t_versions (l_core s) !! version = Some (Ok m) →
  lock_Manifest lock = m → Digest m = Ok (lock_ManifestDigest lock) → Digest lock = Ok digest →
  lock_SourceSnapshotDigest lock = vr_source v → lock_bound lock = true →
  head (lock_ReviewDigests lock) = Some machine →
  check_conformance s m machine = Ok tt → vr_status v = "review_ready" →
  store_lock s u version digest lock document = Ok s' → good s s'.
Proof.
  intros Hv Hm Hlm Hmd Hd Hsrc Hb Hh Hc Hst Hs Hok. unfold store_lock in Hs. ok_step Hs.
  apply orb_false_iff in G as [Gd Gv]. apply bool_decide_eq_false, eq_None_not_Some in Gd.
  assert (vr_lock v = None) as Hnone.
  { destruct (vr_lock v) as [d|] eqn:Hl; [|done]. exfalso.
    destruct (ro_lock _ _ _ (lo_rows _ Hok _ _ Hv) d Hl) as [Hx _].
    assert (existsb (λ kv, kv.2 ==s version) (map_to_list (l_locks s)) = true); [|congruence].
    apply existsb_exists. exists (d, version). split; [|apply String.eqb_refl].
    by apply list_elem_of_In, elem_of_map_to_list. }
  pose proof (good_locks s digest version (Ok lock) (Raw document) Gd) as A1.
  match type of A1 with good s ?x => set (s1 := x) in * end.
  assert (good s1 (with_platform s1 (saveReceipt (l_platform s1) digest (lock_as_receipt lock) (user_ID u) false)))
    as A2 by apply (good_receipt E).
  cbv zeta in Hs. match type of A2 with good _ ?x => set (s2 := x) in * end.
  destruct (A1 Hok) as [K1 R1 _ O1]. destruct (A2 O1) as [K2 R2 _ O2].
  assert (good s2 s') as A3; [|revert Hok; change (good s s'); etrans; [exact A1|by etrans]].
  eapply good_update; [exact Hs|]. intros v0 Hv0 Hr. assert (v0 = v) as -> by (unfold versions in *; simpl in *; congruence).
  split_and!; try done; [by rewrite Hnone; intros []|].
  split; [simpl; intros Ho; apply (ro_open _ _ _ Hr) in Ho; congruence|done| |simpl; intros [?|?]; done].
  simpl. intros d [= <-]. split.
  { apply (kp_versions _ _ K2). unfold s1. simpl. by rewrite lookup_insert_eq. }
  destruct (check_conformance_inv _ _ _ Hc) as (r & Hr0 & He & Hcf).
  assert (kept s s2) as K by by etrans. destruct (kp_receipts _ _ K _ _ Hr0) as (r' & Hr' & Hp).
  exists (mkLockRow (Raw document) (Ok lock)), lock, machine, r'. subst m. split_and!; try done.
  - unfold s2, s1. simpl. by rewrite lookup_insert_eq.
  - by apply (kp_manifest _ _ K).
  - by rewrite Hp.
Qed.

Lemma lockChallenge_good (E : Env) sv s u version s' digest :
  lockChallenge sv s u version = Ok (s', digest) → good s s'.
Proof.
  unfold lockChallenge. intros Hs. ok_step Hs. apply ownedVersion_inv in E0 as (v & row & Hv & Hrow & _ & Hm & Hst).
  destruct r as [m status]. cbn [fst snd] in *. ok_step Hs. rewrite Hv in Hs. ok_step Hs.
  destruct (passing_preflight s version) as [pf|]; [|done]. destruct (pf_receipt pf) as [machine|]; [|done].
  destruct (check_conformance s m machine) as [[]|] eqn:Hc; [|done]. ok_step Hs. ok_step Hs.
  destruct (pf_reports pf) as [b|]; [|done]. cbn [ID] in Hs. cbv zeta in Hs. ok_step Hs. ok_step Hs. ok_step Hs.
  ok_step Hs. apply (inj Ok), pair_equal_spec in Hs as [<- _]. bool_prop.
  match goal with Hl : store_lock ?s1 _ _ _ _ _ = _ |- _ => transitivity s1 end; [by apply good_db, steady_same|].
  assert (ver_manifest <$> t_versions (l_core s) !! version = Some (Ok m)) as Hmf by (rewrite Hrow; simpl; by rewrite Hm).
  match goal with Hl : store_lock _ _ _ _ ?k _ = _ |- _ => eapply (store_lock_good E) with (lock := k);
    [exact Hv|exact Hmf|reflexivity|eassumption|eassumption|reflexivity|done|reflexivity|exact Hc|congruence|exact Hl] end.
Qed.

(** ** Publication *)

Lemma steady_artifacts (E : Env) l d : steady d (open_artifacts l d).
Proof. by apply steady_same. Qed.

Lemma publishVersion_good (E : Env) s id m s' : (∀ v, versions s !! id = Some v → lock_signed s v) →
  publishVersion s id m = Ok s' → good s s'.
Proof.
  intros Hsig Hs. unfold publishVersion in Hs. ok_step Hs. ok_step Hs. cbv zeta in Hs. ok_step Hs.
  apply (inj Ok) in Hs. subst s'. transitivity r.
  - eapply good_update; [exact E0|]. intros v Hv [Ho Hsl Hl Hg]. split_and!; try done.
    destruct (Hsig _ Hv) as (d & Hd & He). split; [done|by intros _; exists d| |intros _; by exists d].
    simpl. intros d' Hd'. eapply locked_kept; [reflexivity| |by apply Hl]; done.
  - apply good_db; [apply audit_frame in E1 as [l ->]; by destruct (versions r !! id)|].
    etrans; [|by eapply steady_audit]. etrans; [|apply steady_artifacts].
    etrans; [|apply steady_publish]. etrans; [|apply steady_publish].
    destruct (versions r !! id); [by apply steady_same|done].
Qed.

Lemma lock_signed_later s s' id v v' : kept s s' → rows_kept s s' → versions s !! id = Some v →
  lock_signed s v → versions s' !! id = Some v' → lock_signed s' v'.
Proof.
  intros Hk Hr Hv (d & Hd & He) Hv'. destruct (Hr _ _ Hv) as (v1 & Hv1 & _ & _ & _ & Hl).
  exists d. split; [|by apply (kp_signed _ _ Hk)]. assert (v1 = v') as <- by congruence. rewrite Hl; [done|by exists d].
Qed.

(** ** Migrations *)

Lemma stageMigration_good (E : Env) sv s u id m s' d : 
  (∀ v, versions s !! id = Some v → vr_status v = "locked" ∧ lock_signed s v) →
  stageMigration sv s u id m = Ok (s', d) → good s s'.
Proof.
  intros Hsig Hs. unfold stageMigration in Hs.
  destruct (versions s !! id) as [v|] eqn:Hv; [|done]. destruct (l_revisions s !! id); [|done].
  destruct (vr_predecessor v) as [prior|]; [|done]. destruct (vr_lock v) as [lock|]; [|done].
  destruct (versions s !! prior) as [pv|]; [|done]. destruct (t_versions (l_core s) !! prior) as [prow|]; [|done].
  cbv zeta in Hs. ok_step Hs. destruct (passing_preflight s id) as [pf|]; [|done].
  destruct (pf_receipt pf) as [conf|]; [|done]. cbn [ID] in Hs. ok_step Hs. ok_step Hs. ok_step Hs.
  apply (inj Ok), pair_equal_spec in Hs as [<- _].
  match goal with Hu : update_version ?s2 _ _ = Ok ?s3 |- _ =>
    transitivity s2; [|transitivity s3; [eapply good_update; [exact Hu|]|]] end.
  - etrans; [apply good_ids|].
    apply (good_receipt E).
  - intros v0 Hv0 [Ho Hsl Hl Hg]. split_and!; try done.
    destruct (Hsig v0) as (Hst & d0 & Hd0 & He0); [unfold versions in *; simpl in *; congruence|].
    split; [|by intros _; exists d0| |intros _; by exists d0].
    + simpl. intros Hi. apply Ho in Hi. congruence.
    + simpl. intros d' Hd'. eapply locked_kept; [reflexivity| |by apply Hl]; done.
  - etrans; [|apply (good_enqueue E)]. by apply good_same.
Qed.

Lemma transfer_step_good predecessor id s m s' : transfer_step predecessor id s m = Ok s' → good s s'.
Proof.
  unfold transfer_step. intros Hs. destruct (l_tiers s !! milestone_ID m) as [tier|]; [|done].
  ok_step Hs. destruct (tier_version tier ==s id); [by apply (inj Ok) in Hs as <-|].
  ok_step Hs. ok_step Hs. ok_step Hs. apply (inj Ok) in Hs as <-. by apply good_db, steady_same.
Qed.

Lemma transfer_versions predecessor id l : ∀ s s',
  foldM (transfer_step predecessor id) s l = Ok s' → versions s' = versions s.
Proof.
  induction l as [|m l IH]; intros s s' Hs; cbn [foldM] in Hs; [by apply (inj Ok) in Hs as <-|].
  ok_step Hs. rewrite (IH _ _ Hs). clear IH Hs. unfold transfer_step in E.
  destruct (l_tiers s !! milestone_ID m) as [tier|]; [|done]. ok_step E.
  destruct (tier_version tier ==s id); [by apply (inj Ok) in E as <-|].
  ok_steps E. by apply (inj Ok) in E as <-.
Qed.

Lemma finish_migration_good (E : Env) s id predecessor receipt watermark m s' :
  (∀ v, versions s !! id = Some v → lock_signed s v) →
  finish_migration s id predecessor receipt watermark m = Ok s' → good s s'.
Proof.
  intros Hsig Hs Hok. unfold finish_migration in Hs. ok_step Hs. ok_step Hs. cbv zeta in Hs. ok_step Hs. ok_step Hs.
  apply (inj Ok) in Hs. subst s'.
  assert (good s r) as A1 by (eapply good_fold; [|exact E0]; intros; by eapply transfer_step_good).
  assert (good r r0) as A2 by (eapply good_close; [|exact E1]; unfold sealed_statuses; set_solver).
  assert (good r0 (with_db r0 (open_receipts [receipt] (l_core r0)))) as A3 by (apply good_db; [done|apply steady_publish]).
  match type of A3 with good _ ?x => set (s3 := x) in * end.
  assert (good s s3) as A by (etrans; [exact A1|by etrans]). destruct (A Hok) as [K R _ O].
  assert (good s3 r1) as A4.
  { eapply publishVersion_good; [|exact E2]. intros v Hv.
    destruct (versions s !! id) as [v0|] eqn:Hv0; [eapply lock_signed_later; eauto|].
    exfalso. revert Hv. change (versions s3 !! id = Some v → False).
    assert (versions r = versions s) as Hvr by (eapply transfer_versions; exact E0).
    apply update_version_kept in E1 as (_ & _ & _ & Hv1). change (versions s3) with (versions r0).
    rewrite Hv1, Hvr. destruct (decide (id = predecessor)) as [->|]; [by rewrite lookup_alter_eq, Hv0|].
    by rewrite lookup_alter_ne, Hv0. }
  revert Hok. change (good s (with_db r1 r2)). etrans; [exact A|]. etrans; [exact A4|]. by eapply good_audit.
Qed.

Lemma completeMigration_good (E : Env) s id s' : completeMigration s id = Ok s' → good s s'.
Proof.
  unfold completeMigration. intros Hs.
  destruct (versions s !! id) as [v|] eqn:Hv; [|done]. destruct (t_versions (l_core s) !! id) as [row|]; [|done].
  destruct (l_revisions s !! id) as [rev|]; [|done]. destruct (vr_predecessor v) as [pred|]; [|done].
  destruct (versions s !! pred) as [pv|]; [|done]. destruct (t_versions (l_core s) !! pred) as [prow|]; [|done].
  destruct (rev_migration rev) as [receipt|]; [|done].
  destruct (vr_status v ==s "published"); [by apply (inj Ok) in Hs as <-|]. ok_step Hs. cbv zeta in Hs. ok_step Hs.
  destruct (t_receipts (l_core s) !! receipt); [|done]. ok_step Hs. ok_step Hs. ok_step Hs.
  intros Hok. revert Hok. bool_prop.
  intros Hok. eapply finish_migration_good; [|exact Hs|done]. intros v0 Hv0. simplify_eq.
  apply (ro_signed _ _ _ (lo_rows _ Hok _ _ Hv)). by left.
Qed.

Lemma publishChallenge_good (E : Env) sv s u id s' a : publishChallenge sv s u id = Ok (s', a) → good s s'.
Proof.
  unfold publishChallenge. intros Hs. ok_step Hs. apply ownedVersion_inv in E0 as (v & row & Hv & _ & _ & _ & Hst).
  destruct r as [m status]. cbn [snd fst] in *. ok_step Hs. rewrite Hv in Hs.
  destruct (vr_lock v) as [lock|] eqn:Hl; [|done]. destruct (t_receipts (l_core s) !! lock); [|done]. ok_step Hs.
  bool_prop. assert (lock_signed s v) as Hsig by (exists lock; by split).
  destruct (vr_transition v ==s "security_migration").
  - ok_step Hs. apply (inj Ok), pair_equal_spec in Hs as [<- _]. destruct r0 as [s1 d].
    eapply stageMigration_good; [|exact E0]. intros v0 Hv0. simplify_eq. by split.
  - ok_step Hs. apply (inj Ok), pair_equal_spec in Hs as [<- _].
    eapply publishVersion_good; [|exact E0]. intros v0 Hv0. by simplify_eq.
Qed.

(** ** Receipts *)

Lemma signReceipt_good sv s digest document host s' : signReceipt sv s digest document host = Ok s' → good s s'.
Proof.
  unfold signReceipt. intros Hs. destruct (s_signer sv) as [key|]; [|done].
  destruct (t_receipts (l_core s) !! digest); [|done].
  destruct (l_envelopes s !! digest) as [e|]; [by apply (inj Ok) in Hs as <-|].
  ok_step Hs. ok_step Hs. ok_step Hs. ok_step Hs. apply (inj Ok) in Hs as <-. apply good_same; [done|done|].
  intros k [e He]. simpl. destruct (decide (k = digest)) as [->|]; [by rewrite lookup_insert_eq; eauto|].
  rewrite lookup_insert_ne by done. eauto.
Qed.

(** ** New versions *)

Lemma insert_tier_good version s m s' : insert_tier version s m = Ok s' → good s s'.
Proof.
  unfold insert_tier. intros Hs. ok_step Hs. ok_step Hs. ok_step Hs. apply (inj Ok) in Hs as <-.
  match goal with |- good _ (with_db ?x _) => transitivity x; [by apply good_same|] end. by apply good_db, steady_same.
Qed.

Lemma successor_milestone_good kind challenge prior version s m s' :
  successor_milestone kind challenge prior version s m = Ok s' → good s s'.
Proof.
  unfold successor_milestone. intros Hs. destruct (l_tiers s !! milestone_ID m) as [tier|]; [|by eapply insert_tier_good].
  ok_steps Hs. by apply (inj Ok) in Hs as <-.
Qed.

Lemma good_draft s id challenge owner source deadline predecessor transition m revision s' :
  insert_version s id (draft_version challenge owner source deadline predecessor transition) m revision = Ok s' →
  good s s'.
Proof.
  apply good_inserted_version; [|done|done]. unfold sealed, sealed_statuses. simpl. set_solver.
Qed.

Lemma createChallenge_begin_good (E : Env) sv s u key h in_ s' r :
  createChallenge_begin sv s u key h in_ = Ok (s', r) → good s s'.
Proof.
  unfold createChallenge_begin. intros Hs. ok_step Hs. ok_step Hs.
  destruct (d_candidates _ !! _) as [c|]; [|done]. ok_step Hs. ok_step Hs. ok_step Hs. destruct r0 as [a|].
  - by apply (inj Ok), pair_equal_spec in Hs as [<- _].
  - ok_step Hs. apply (inj Ok), pair_equal_spec in Hs as [<- _]. by eapply good_modest, reservePreparation_modest.
Qed.

Lemma createChallenge_commit_good (E : Env) s u in_ snapshot m source size s' r :
  createChallenge_commit s u in_ snapshot m source size = Ok (s', r) → good s s'.
Proof.
  unfold createChallenge_commit. intros Hs. ok_step Hs. cbn [ID] in Hs. cbv zeta in Hs.
  ok_step Hs. ok_step Hs. ok_step Hs. ok_step Hs. apply (inj Ok), pair_equal_spec in Hs as [<- _].
  etrans; [|by eapply good_audit]. etrans; [|eapply good_fold; [|exact E2]; intros; by eapply insert_tier_good].
  etrans; [|eapply good_draft; exact E1].
  match goal with |- good _ (set_challenges ?x _) => transitivity x; [|by apply good_same] end.
  etrans; [|apply good_blob]. apply good_ids.
Qed.

Lemma createVersion_begin_good (E : Env) sv s u key h challenge in_ s' b r :
  createVersion_begin sv s u key h challenge in_ = Ok (s', b, r) → good s s'.
Proof.
  unfold createVersion_begin. intros Hs. ok_step Hs. destruct (l_challenges s !! challenge) as [c|]; [|done].
  destruct (latest_version s challenge) as [[prior pv]|]; [|done]. ok_step Hs.
  destruct (t_versions (l_core s) !! prior) as [prow|]; [|done]. do 4 ok_step Hs. cbv zeta in Hs. ok_step Hs.
  destruct r0 as [a|].
  - by apply (inj Ok), pair_equal_spec in Hs as [[<- _]%pair_equal_spec _].
  - ok_step Hs. apply (inj Ok), pair_equal_spec in Hs as [[<- _]%pair_equal_spec _].
    by eapply good_modest, reservePreparation_modest.
Qed.

Lemma createVersion_commit_good (E : Env) s u challenge in_ before snapshot m source size s' id :
  createVersion_commit s u challenge in_ before snapshot m source size = Ok (s', id) → good s s'.
Proof.
  unfold createVersion_commit. intros Hs. ok_step Hs. destruct (l_challenges s !! challenge) as [c|]; [|done].
  destruct (latest_version s challenge) as [[prior pv]|]; [|done]. ok_step Hs.
  destruct (t_versions (l_core s) !! prior) as [prow|]; [|done]. do 4 ok_step Hs. cbn [ID] in Hs. cbv zeta in Hs.
  ok_step Hs. ok_step Hs. ok_step Hs. ok_step Hs. apply (inj Ok), pair_equal_spec in Hs as [<- _].
  etrans; [|by eapply good_audit].
  match goal with |- good _ (set_challenges ?x _) => transitivity x; [|by apply good_same] end.
  etrans; [|destruct (transition_of in_ ==s "season");
    [eapply good_close; [|exact E3]; unfold sealed_statuses; set_solver|by apply (inj Ok) in E3 as <-]].
  etrans; [|eapply good_fold; [|exact E2]; intros; by eapply successor_milestone_good].
  etrans; [|eapply good_draft; exact E1]. etrans; [|apply good_blob]. apply good_ids.
Qed.
End Operations.
