(* ===== verification/System.v ===== *)
(** The whole platform as one transition system: the runner fleet, the requests of solvers,
    creators and editors, the worker's jobs, reviews, and the life of challenge versions, in
    any order.  It is a refinement of the fleet system of Fleet.v, so what Fleet.v's theorems
    say of a run holds of a run of the platform; and the contract of a version stands from
    its lock on.

    A request is the body of its transaction; [mutate] around it adds a row of the
    idempotency table, which [served_idempotency] may do at any time. *)

From S2P Require Import Prelude Regex GoLib Numbers Types Scores Paths Measurement Evaluation Validate.
From S2P Require Import Sha256 GoJson Canonical Documents Results Frontier Artifacts Hidden Signatures Checkpoint History Store.
From S2P Require Import Adjudication AdjudicationProofs Platform Preparation Suites Runners Editorial Intake.
From S2P Require Import Submissions Fleet FleetSteps FleetResults RunnersProofs IntakeProofs Snapshots Lifecycle.
From S2P Require Import Worker Sources Review ContractProofs WorkerProofs LifecycleProofs.
From stdpp Require Import relations.
Open Scope Z_scope.

(** [ls_pending] and [ls_granted] are those of [sys]. *)
Record lsys := mkLsys {
  ls_db : ldb;
  ls_pending : list (pending * runnerIdentity);
  ls_granted : list (string * Z)
}.

Definition fleet_of (l : lsys) : sys := mkSys (l_platform (ls_db l)) (ls_pending l) (ls_granted l).
Definition on_fleet (l : lsys) (y : sys) : lsys :=
  mkLsys (with_platform (ls_db l) (y_db y)) (y_pending y) (y_granted y).
Definition on_ldb (l : lsys) (s : ldb) : lsys := mkLsys s (ls_pending l) (ls_granted l).
Definition on_platform (l : lsys) (p : pdb) : lsys := on_ldb l (with_platform (ls_db l) p).

Definition with_registry (s : pdb) (g : registry) : pdb := mkPdb (p_core s) (p_fleet s) (p_intake s) (p_desk s) g.

(** * The steps *)

Section System.
Context `{Crypto} `{!Pki} `{UnicodeLib} `{UrlLib} `{YamlLib} `{JsonCanonicalizer} `{ObjectStore} `{SecretSealer}.
Context `{Aead} `{Curve} `{HtmlLib} `{SourceNet} `{Rsa} `{GitHub} `{ReviewProvider}.
Context `{JsonType Manifest} `{JsonType ValidatorResult} `{JsonType RunnerJob} `{JsonType RunReceipt}.
Context `{JsonType Receipt} `{JsonType BuildReport} `{JsonType ExecutorCapabilities} `{JsonType RawMessage}.
Context `{JsonType SuiteKeyMaterial} `{JsonType FrontierClaim} `{EqDecision FrontierClaim} `{JsonType History}.
Context `{JsonType ReleaseAttestation} `{JsonType Candidate} `{JsonType ReviewReport} `{JsonType SnapshotDocument}.
Context `{JsonType reviewEvidence} `{JsonType Lock} `{JsonType (list Milestone)} `{JsonType ArtifactTree}.

(** What runs beside the fleet and the versions' own requests. *)
Inductive served : pdb → pdb → Prop :=
| served_business (E : Env) s s' : business s s' → served s s'
| served_import (E : Env) s sv u document s' a : importCandidate sv s u document = Ok (s', a) → served s s'
| served_resolve (E : Env) s id s' : resolveCandidate s id = Ok s' → served s s'
| served_review (E : Env) s key model store before version requestID reason get machine prior s' :
    scientificReviewAttempt key model store before s version requestID reason get machine prior = Ok s' → served s s'
| served_rereview (E : Env) s sv key u version reason s' id :
    requestScientificReview sv key s u version reason = Ok (s', id) → served s s'
| served_claim_job (E : Env) s locked lease d p :
    work_claim (p_core s) locked lease = Ok (d, p) → served s (with_core s d)
| served_finish_job (E : Env) s p lease outcome :
    served s (with_core s (work_finish (p_core s) p lease outcome).1)
| served_idempotency s rows : served s (set_idempotency s rows).

(** The worker's jobs that queue a preparation. *)
Inductive prepares (E : Env) : pdb → pdb → Prop :=
| prepares_submission s sv id p put outcome s' : record_fetch sv s id p put outcome = Ok s' → prepares E s s'
| prepares_preflight s sv id s' : preflight sv s id = Ok s' → prepares E s s'.

(** The requests and jobs of challenge versions. *)
Inductive life_op (E : Env) : ldb → ldb → Prop :=
| life_preflight s sv u version s' id : startPreflight sv s u version = Ok (s', id) → life_op E s s'
| life_lock s sv u version s' digest : lockChallenge sv s u version = Ok (s', digest) → life_op E s s'
| life_sign s sv digest document host s' : signReceipt sv s digest document host = Ok s' → life_op E s s'
| life_publish s sv u id s' a : publishChallenge sv s u id = Ok (s', a) → life_op E s s'
| life_migrate s id s' : completeMigration s id = Ok s' → life_op E s s'
| life_create_begin s sv u key h in_ s' r : createChallenge_begin sv s u key h in_ = Ok (s', r) → life_op E s s'
| life_create s u in_ snapshot m source size s' r :
    createChallenge_commit s u in_ snapshot m source size = Ok (s', r) → life_op E s s'
| life_version_begin s sv u key h challenge in_ s' b r :
    createVersion_begin sv s u key h challenge in_ = Ok (s', b, r) → life_op E s s'
| life_version s u challenge in_ before snapshot m source size s' id :
    createVersion_commit s u challenge in_ before snapshot m source size = Ok (s', id) → life_op E s s'.

(** Hosts, profiles, suites, roles and checkpoints change as they like; locks do not. *)
Inductive life_step : lsys → lsys → Prop :=
| life_fleet l y : step_of served (fleet_of l) y → life_step l (on_fleet l y)
| life_prepares (E : Env) l p : prepares E (l_platform (ls_db l)) p → life_step l (on_platform l p)
| life_version_op (E : Env) l s : life_op E (ls_db l) s → life_step l (on_ldb l s)
| life_registry l g : g_locks g = g_locks (p_registry (l_platform (ls_db l))) →
    life_step l (on_platform l (with_registry (l_platform (ls_db l)) g)).

(** A platform that has not run anything, with sound versions; one without versions, for
    instance. *)
Definition initial (s : ldb) : Prop := life_ok s ∧ idle (l_platform s).

Inductive life_reachable : lsys → Prop :=
| life_initial s : initial s → life_reachable (mkLsys s [] [])
| life_next l l' : life_reachable l → life_step l l' → life_reachable l'.


(** * Every step is a step of the fleet, or none of its business *)

Lemma served_others s s' : served s s' → others s s'.
Proof.
  intros [E s1 s2 Hb|E s1 sv u document s2 a Hi|E s1 id s2 Hr|E s1 key model store before version requestID reason get
    machine prior s2 Hr|E s1 sv key u version reason s2 id Hr|E s1 locked lease d p Hc|E s1 p lease outcome|s1 rows].
  - by apply business_others.
  - by eapply aside_others, importCandidate_modest.
  - by eapply aside_others, resolveCandidate_modest.
  - by eapply aside_others, scientificReviewAttempt_modest.
  - by eapply aside_others, requestScientificReview_modest.
  - by eapply aside_others, work_claim_modest.
  - by eapply aside_others, work_finish_modest.
  - by apply aside_others.
Qed.

Lemma served_calm s s' : served s s' → calm s s'.
Proof.
  intros [E s1 s2 Hb|E s1 sv u document s2 a Hi|E s1 id s2 Hr|E s1 key model store before version requestID reason get
    machine prior s2 Hr|E s1 sv key u version reason s2 id Hr|E s1 locked lease d p Hc|E s1 p lease outcome|s1 rows].
  - destruct Hb as [u in_ s2 a Hc|sv u in_ s2 a Hc|sv u id salt s2 a Ha|u id s2 a Hp|version d Ha].
    + by eapply createFrontierTicket_calm.
    + by eapply createIntent_calm.
    + by eapply acceptIntent_calm.
    + by eapply publishSubmission_calm.
    + by eapply adjudicate_calm.
  - by eapply importCandidate_modest.
  - by eapply resolveCandidate_modest.
  - by eapply scientificReviewAttempt_modest.
  - by eapply requestScientificReview_modest.
  - by eapply work_claim_modest.
  - by eapply work_finish_modest.
  - quiet.
Qed.

Lemma step_calm y y' : step_of served y y' → calm (y_db y) (y_db y').
Proof.
  destruct 1 as [E y id s' Hq|E y sv purpose id version source artifact m s' Hp Hq
    |E y sv locked cert profile body p Hb|E y sv p host token re rn s' env Hin Hf|E y
    |E y sv cert id req s' url Ho|E y sv order cert id token env s' r Hr|E y sv u d s' id He|y s' Hs]; simpl.
  - by eapply queueSubmission_calm.
  - by eapply queuePreparation_calm.
  - done.
  - by eapply claim_finish_calm.
  - apply recover_calm.
  - by eapply post_object_calm.
  - by eapply post_result_calm.
  - by eapply editorDecision_calm.
  - by apply served_calm.
Qed.

Lemma prepares_split (E : Env) s s' : prepares E s s' → ∃ s1, modest s s1 ∧
  (s' = s1 ∨ ∃ sv purpose id version source artifact m, (purpose = "preflight" ∨ purpose = "artifact_prepare") ∧
     queuePreparation sv s1 purpose id version source artifact m = Ok s').
Proof.
  intros [s1 sv id p put outcome s2 Hr|s1 sv id s2 Hp].
  - unfold record_fetch in Hr. destruct outcome as [snapshot content digest|cause].
    + ok_step Hr. unfold store_artifact in Hr. cbv zeta in Hr. eexists. split; [apply fetched_modest|].
      right. eexists _, _, _, _, _, _, _. split; [by right|exact Hr].
    + apply (inj Ok) in Hr as <-. eexists. split; [apply failIntent_modest|by left].
  - unfold preflight in Hp. destruct (f_preflights _ !! id) as [pf|]; [|done].
    destruct (i_versions _ !! _) as [v|]; [|done]. destruct (t_versions _ !! _) as [row|]; [|done]. ok_step Hp.
    eexists. split; [apply waiting_modest|]. right. eexists _, _, _, _, _, _, _. split; [by left|exact Hp].
Qed.

Lemma prepares_calm (E : Env) s s' : prepares E s s' → calm s s'.
Proof.
  intros (s1 & [_ Hc] & [->|(sv & purpose & id & version & source & artifact & m & _ & Hq)])%prepares_split; [done|].
  etrans; [exact Hc|]. by eapply queuePreparation_calm.
Qed.

Lemma life_op_good (E : Env) s s' : life_op E s s' → good s s'.
Proof.
  destruct 1.
  - by eapply startPreflight_good.
  - by eapply lockChallenge_good.
  - by eapply signReceipt_good.
  - by eapply publishChallenge_good.
  - by eapply completeMigration_good.
  - by eapply createChallenge_begin_good.
  - by eapply createChallenge_commit_good.
  - by eapply createVersion_begin_good.
  - by eapply createVersion_commit_good.
Qed.

(** * The invariant *)

Lemma calm_sound s p : life_ok s → calm (l_platform s) p →
  kept s (with_platform s p) ∧ rows_kept s (with_platform s p) ∧ life_ok (with_platform s p).
Proof.
  intros Hs Hc. split_and!; [by apply kept_calm| |by apply life_ok_calm].
  intros id v Hv. destruct (cm_rows _ _ Hc _ _ Hv) as (v' & Hv' & []%moves_contract). exists v'. by split_and!.
Qed.

Lemma life_step_sound l l' : life_ok (ls_db l) → life_step l l' →
  kept (ls_db l) (ls_db l') ∧ rows_kept (ls_db l) (ls_db l') ∧ life_ok (ls_db l').
Proof.
  intros Hs Hst. destruct Hst as [l0 y Hy|E l0 p Hp|E l0 s Ho|l0 g Hg].
  - apply (calm_sound _ (y_db y) Hs). by apply (step_calm (fleet_of l0)).
  - apply (calm_sound _ p Hs). by eapply prepares_calm.
  - destruct (life_op_good _ _ _ Ho Hs). by split_and!.
  - assert (kept (ls_db l0) (ls_db (on_platform l0 (with_registry (l_platform (ls_db l0)) g)))) as Hk.
    { split; simpl; eauto. by rewrite Hg. }
    split_and!; [done|by apply rows_kept_same|]. by eapply life_ok_kept; [exact Hk|..|exact Hs].
Qed.

Lemma empty_initial s : versions s = ∅ → t_versions (l_core s) = ∅ → idle (l_platform s) → initial s.
Proof. intros Hv Ht Hi. split; [|done]. split; intros id; [by rewrite Hv|by rewrite Ht]. Qed.

Lemma life_reachable_ok l : life_reachable l → life_ok (ls_db l).
Proof. induction 1 as [s [Hs _]|l l' _ IH Hst]; [done|]. by apply (life_step_sound _ _ IH Hst). Qed.

Lemma life_steps_sound l l' : life_ok (ls_db l) → rtc life_step l l' →
  kept (ls_db l) (ls_db l') ∧ rows_kept (ls_db l) (ls_db l') ∧ life_ok (ls_db l').
Proof.
  intros Hs Hr. revert Hs. induction Hr as [l|l l1 l2 Hst _ IH]; intros Hs; [by split_and!|].
  destruct (life_step_sound _ _ Hs Hst) as (K1 & R1 & O1). destruct (IH O1) as (K2 & R2 & O2).
  split_and!; [by etrans..|done].
Qed.
End System.
