(* ===== verification/SystemProofs.v ===== *)
(** The theorems on the whole platform: it implements the fleet system, solvers are only
    ever let in to a locked contract, a lock stands for ever, and what a security migration
    transfers. *)

From S2P Require Import Prelude Regex GoLib Numbers Types Scores Paths Measurement Evaluation Validate.
From S2P Require Import Sha256 GoJson Canonical Documents Results Frontier Artifacts Hidden Signatures Checkpoint History Store.
From S2P Require Import Adjudication AdjudicationProofs Platform Preparation Suites Runners Editorial Intake.
From S2P Require Import EvaluationProofs Submissions Fleet FleetSteps FleetResults RunnersProofs IntakeProofs Snapshots Lifecycle.
From S2P Require Import Worker Sources Review ContractProofs WorkerProofs LifecycleProofs System.
From stdpp Require Import relations.
Open Scope Z_scope.

Section SystemProofs.
Context `{Crypto} `{!Pki} `{UnicodeLib} `{UrlLib} `{YamlLib} `{JsonCanonicalizer} `{ObjectStore} `{SecretSealer}.
Context `{Aead} `{Curve} `{HtmlLib} `{SourceNet} `{Rsa} `{GitHub} `{ReviewProvider}.
Context `{JsonType Manifest} `{JsonType ValidatorResult} `{JsonType RunnerJob} `{JsonType RunReceipt}.
Context `{JsonType Receipt} `{JsonType BuildReport} `{JsonType ExecutorCapabilities} `{JsonType RawMessage}.
Context `{JsonType SuiteKeyMaterial} `{JsonType FrontierClaim} `{EqDecision FrontierClaim} `{JsonType History}.
Context `{JsonType ReleaseAttestation} `{JsonType Candidate} `{JsonType ReviewReport} `{JsonType SnapshotDocument}.
Context `{JsonType reviewEvidence} `{JsonType Lock} `{JsonType (list Milestone)} `{JsonType ArtifactTree}.

(** * The fleet *)

Lemma step_of_mono (rest rest' : pdb → pdb → Prop) y y' : (∀ s s', rest s s' → rest' s s') →
  step_of rest y y' → step_of rest' y y'.
Proof. intros Hr. destruct 1; by econstructor; eauto. Qed.

Lemma reachable_steps y y' : reachable y → rtc step y y' → reachable y'.
Proof. intros Hy Hr. induction Hr as [|y1 y2 y3 Hst _ IH]; [done|]. by eapply IH, reachable_step. Qed.

Lemma prepares_steps (E : Env) s s' p g : prepares E s s' → rtc step (mkSys s p g) (mkSys s' p g).
Proof.
  intros (s1 & [Ha _] & Hs)%prepares_split.
  assert (step (mkSys s p g) (mkSys s1 p g)) as H1s.
  { apply (step_other _ (mkSys s p g)), aside_others, Ha. }
  destruct Hs as [->|(sv & purpose & id & version & source & artifact & m & Hp & Hq)]; [by apply rtc_once|].
  etrans; [by apply rtc_once|]. apply rtc_once. by eapply (step_preparation _ E (mkSys s1 p g)).
Qed.

Lemma life_step_fleet l l' : life_ok (ls_db l) → life_step l l' → rtc step (fleet_of l) (fleet_of l').
Proof.
  intros Hs Hst. destruct Hst as [l0 y Hy|E l0 p Hp|E l0 s Ho|l0 g Hg].
  - replace (fleet_of (on_fleet l0 y)) with y by by destruct y.
    apply rtc_once. eapply step_of_mono; [|exact Hy]. apply served_others.
  - by eapply prepares_steps.
  - apply rtc_once. apply (step_other _ (fleet_of l0)), aside_others. by apply (life_op_good _ _ _ Ho).
  - apply rtc_once. by apply (step_other _ (fleet_of l0)), aside_others.
Qed.

(** C5: the platform is the fleet system.  Whatever requests, jobs, reviews, editorial
    decisions, locks, publications, migrations and enrolments happen, in any order and at
    any time, every state of the platform is a reachable state of the fleet system: each
    operation is one of its operations or leaves runner jobs, run results and the verdicts
    of submissions alone, so all that holds of the fleet (leases granted once, permanent
    results, validity only by two agreeing runs) holds of the platform. *)
Theorem platform_runs_fleet l : life_reachable l → reachable (fleet_of l).
Proof.
  induction 1 as [s [_ Hs]|l l' Hl IH Hst]; [by apply reachable_idle|].
  eapply reachable_steps; [exact IH|]. apply life_step_fleet; [by apply life_reachable_ok|done].
Qed.

(** * Locks *)



(** * Migrations *)

(** What no part of a migration touches but the mappings. *)
Record unclaimed_kept (s s' : ldb) : Prop := {
  uk_claims : t_claims (l_core s') = t_claims (l_core s);
  uk_tiers : l_tiers s' = l_tiers s
}.

#[export] Instance unclaimed_kept_preorder : PreOrder unclaimed_kept.
Proof. split; [by split|]. intros a b c [] []. split; congruence. Qed.

(** The milestones [l] transferred: old mappings stay, each new one is the threshold of a
    milestone the predecessor had, and each milestone is free and mapped to the version. *)
Record transferred (predecessor id : string) (l : list Milestone) (s s' : ldb) : Prop := {
  tr_kept : unclaimed_kept s s';
  tr_old : ∀ k z, t_mappings (l_core s) !! k = Some z → t_mappings (l_core s') !! k = Some z;
  tr_new : ∀ k z, t_mappings (l_core s') !! k = Some z → t_mappings (l_core s) !! k = Some z ∨
    k.2 = id ∧ id ≠ predecessor ∧ is_Some (t_mappings (l_core s) !! (k.1, predecessor)) ∧
    ∃ m, m ∈ l ∧ milestone_ID m = k.1 ∧ ParseTicks (milestone_ThresholdTicks m) = Ok z;
  tr_all : ∀ m, m ∈ l → claimed s (milestone_ID m) = false ∧
    ∃ tier, l_tiers s !! milestone_ID m = Some tier ∧
      (tier_version tier = id ∨
       ∃ z, ParseTicks (milestone_ThresholdTicks m) = Ok z ∧ t_mappings (l_core s') !! (milestone_ID m, id) = Some z)
}.

Lemma transfer_step_transferred predecessor id s m s' :
  transfer_step predecessor id s m = Ok s' → transferred predecessor id [m] s s'.
Proof.
  unfold transfer_step. intros Hs. destruct (l_tiers s !! milestone_ID m) as [tier|] eqn:Ht; [|done]. ok_step Hs.
  destruct (tier_version tier ==s id) eqn:Ev; bool_prop.
  - apply (inj Ok) in Hs as <-. split; [done|done|by left|].
    intros x Hx%list_elem_of_singleton. subst x. split; [done|]. exists tier. split; [done|by left].
  - do 2 ok_step Hs. apply negb_false_iff, bool_decide_eq_true in G0 as Ep.
    apply bool_decide_eq_false, eq_None_not_Some in G1. ok_step Hs. apply (inj Ok) in Hs as <-.
    assert (id ≠ predecessor) as Hne by (intros ->; rewrite G1 in Ep; by destruct Ep).
    split; [by split| | |].
    + intros k z Hk. simpl. rewrite lookup_insert_ne; [done|congruence].
    + intros k z. simpl. intros [[<- <-]|[_ Hk]]%lookup_insert_Some; [right|by left]. simpl.
      split_and!; [done..|]. exists m. split_and!; [by apply list_elem_of_singleton|done|done].
    + intros x Hx%list_elem_of_singleton. subst x. split; [done|]. exists tier. split; [done|]. right.
      exists r. split; [done|]. simpl. by rewrite lookup_insert_eq.
Qed.

Lemma transferred_app predecessor id l1 l2 a b c :
  transferred predecessor id l1 a b → transferred predecessor id l2 b c → transferred predecessor id (l1 ++ l2) a c.
Proof.
  intros [[Kc Kt] O1 N1 A1] [K2 O2 N2 A2]. split.
  - etrans; [by split|exact K2].
  - eauto.
  - intros k z Hk. destruct (N2 _ _ Hk) as [Hb|(E & Hne & [z0 Hp] & m & Hm & He & Hz)].
    + destruct (N1 _ _ Hb) as [?|(E & Hne & Hp & m & Hm & He & Hz)]; [by left|]. right. split_and!; [done..|].
      exists m. split_and!; [set_solver|done..].
    + right. split_and!; [done..| |exists m; split_and!; [set_solver|done..]].
      destruct (N1 _ _ Hp) as [?|(E' & _)]; [by eexists|]. simpl in E'. congruence.
  - intros m [Hm|Hm]%elem_of_app.
    + destruct (A1 _ Hm) as (Hf & tier & Ht & Hor). split; [done|]. exists tier. split; [done|].
      destruct Hor as [?|(z & Hz & Hb)]; [by left|right]. exists z. split; [done|]. eauto.
    + destruct (A2 _ Hm) as (Hf & tier & Ht & Hor). split; [by revert Hf; unfold claimed; rewrite Kc|].
      exists tier. split; [by rewrite <-Kt|done].
Qed.

Lemma transfer_all predecessor id l : ∀ s s',
  foldM (transfer_step predecessor id) s l = Ok s' → transferred predecessor id l s s'.
Proof.
  induction l as [|m l IH]; intros s s' Hs; cbn [foldM] in Hs.
  - apply (inj Ok) in Hs as <-. split; [done|done|by left|]. intros m Hm. by apply not_elem_of_nil in Hm.
  - ok_step Hs. apply transfer_step_transferred in E. apply (transferred_app _ _ [m] l _ r); eauto.
Qed.

Lemma update_version_fields s id f s' : update_version s id f = Ok s' →
  l_core s' = l_core s ∧ unclaimed_kept s s' ∧ versions s' = alter f id (versions s).
Proof.
  intros Hu. destruct (update_version_kept _ _ _ _ Hu) as (_ & Hc & _ & Hv). split_and!; [done| |done].
  split; [by rewrite Hc|]. revert Hu. unfold update_version. destruct (versions s !! id); intros Hu; [ok_step Hu|];
    by apply (inj Ok) in Hu as <-.
Qed.

Lemma publishVersion_fields (E : Env) s id m s' : publishVersion s id m = Ok s' →
  After (manifest_Deadline m) Now = true ∧ unclaimed_kept s s' ∧ t_mappings (l_core s') = t_mappings (l_core s) ∧
  versions s' = alter (λ v, version_intake "open" (version_status "published" v)) id (versions s).
Proof.
  unfold publishVersion. intros Hs. ok_step Hs. ok_step Hs. cbv zeta in Hs. ok_step Hs. apply (inj Ok) in Hs. subst s'.
  apply update_version_fields in E0 as (Hc & [Kc Kt] & Hv). apply audit_frame in E1 as [a ->]. bool_prop.
  split_and!; [done|split; [|exact Kt]| |exact Hv]; simpl; destruct (versions r !! id); simpl; congruence.
Qed.

Lemma finish_migration_fields (E : Env) s id predecessor receipt watermark m s' : id ≠ predecessor →
  finish_migration s id predecessor receipt watermark m = Ok s' →
  After (manifest_Deadline m) Now = true ∧ transferred predecessor id (manifest_Milestones m) s s' ∧
  versions s' = alter (λ v, version_intake "open" (version_status "published" v)) id
    (alter (λ v, version_intake "closed" (version_status "superseded" v)) predecessor (versions s)).
Proof.
  intros Hne Hs. unfold finish_migration in Hs. ok_step Hs. ok_step Hs. cbv zeta in Hs. ok_step Hs. ok_step Hs.
  apply (inj Ok) in Hs. subst s'. apply transfer_all in E0 as Ht. apply transfer_versions in E0 as Hv0.
  apply update_version_fields in E1 as (Hc1 & K1 & Hv1).
  apply publishVersion_fields in E2 as (Ha & K2 & Hm2 & Hv2). apply audit_frame in E3 as [a ->].
  split_and!; [done| |].
  - destruct Ht as [K O N A]. assert (t_mappings (l_core r1) = t_mappings (l_core r)) as Hm.
    { rewrite Hm2. simpl. by rewrite Hc1. }
    split.
    + etrans; [exact K|]. etrans; [exact K1|]. destruct K2 as [Kc Kt]. split; [exact Kc|exact Kt].
    + intros k z. simpl. rewrite Hm. eauto.
    + intros k z. simpl. rewrite Hm. eauto.
    + intros x Hx. simpl. rewrite Hm. eauto.
  - change (versions r1 = alter (λ v, version_intake "open" (version_status "published" v)) id
      (alter (λ v, version_intake "closed" (version_status "superseded" v)) predecessor (versions s))).
    rewrite Hv2. change (versions (with_db r0 _)) with (versions r0). by rewrite Hv1, Hv0.
Qed.

(** C30: what a security migration transfers.  When the job that completes a migration
    succeeds on a version that is not published yet, the version was waiting for the
    signature, its predecessor was drained with intake shut and its public frontier is the
    one the version was created from; the migration receipt is signed and names exactly
    this version, predecessor, frontier and final watermark.  Then the predecessor is
    closed and superseded, the version published and open, before its deadline; each of its
    milestones is one nobody had claimed, either its own or one the predecessor had, now
    mapped to it at its threshold; every mapping there was stays as it was, none but these
    is added, and claims are untouched. *)
Theorem completeMigration_exact (E : Env) s id v s' : completeMigration s id = Ok s' →
  versions s !! id = Some v → vr_status v ≠ "published" → vr_predecessor v ≠ Some id →
  ∃ predecessor pv prow revision receipt r m,
    vr_status v = "migration_signing" ∧ vr_predecessor v = Some predecessor ∧
    versions s !! predecessor = Some pv ∧ t_versions (l_core s) !! predecessor = Some prow ∧
    ver_next_sequence prow = ver_watermark prow ∧ (vr_intake pv = "paused" ∨ vr_intake pv = "closed") ∧
    l_revisions s !! id = Some revision ∧ frontier_artifact s prow = rev_prior_frontier revision ∧
    rev_migration revision = Some receipt ∧ t_receipts (l_core s) !! receipt = Some r ∧
    is_Some (l_envelopes s !! receipt) ∧
    data_string (rr_payload r) "versionId" = Some id ∧
    data_string (rr_payload r) "previousVersionId" = Some predecessor ∧
    data_string (rr_payload r) "priorFrontierDigest" = Some (frontier_artifact s prow) ∧
    data_string (rr_payload r) "oldFinalWatermark" = Some (int_string (ver_watermark prow)) ∧
    ver_manifest <$> t_versions (l_core s) !! id = Some (Ok m) ∧ After (manifest_Deadline m) Now = true ∧
    transferred predecessor id (manifest_Milestones m) s s' ∧
    versions s' = <[id := version_intake "open" (version_status "published" v)]>
      (<[predecessor := version_intake "closed" (version_status "superseded" pv)]> (versions s)).
Proof.
  unfold completeMigration. intros Hs Hv Hst Hpred. rewrite Hv in Hs.
  destruct (t_versions (l_core s) !! id) as [row|] eqn:Hrow; [|done].
  destruct (l_revisions s !! id) as [rev|] eqn:Hrev; [|done]. destruct (vr_predecessor v) as [pred|] eqn:Hp; [|done].
  destruct (versions s !! pred) as [pv|] eqn:Hpv; [|done].
  destruct (t_versions (l_core s) !! pred) as [prow|] eqn:Hprow; [|done].
  destruct (rev_migration rev) as [receipt|] eqn:Hmig; [|done].
  destruct (vr_status v ==s "published") eqn:Epub; [by bool_prop|]. ok_step Hs. cbv zeta in Hs. ok_step Hs.
  destruct (t_receipts (l_core s) !! receipt) as [r|] eqn:Hr; [|done]. ok_step Hs. ok_step Hs. ok_step Hs.
  apply orb_false_iff in G0 as [Gd Gf]. apply negb_false_iff in Gd. unfold drained in Gd.
  apply negb_false_iff, bool_decide_eq_true in G1. bool_prop.
  assert (id ≠ pred) as Hne by congruence.
  destruct (finish_migration_fields _ _ _ _ _ _ _ _ Hne Hs) as (Ha & Ht & Hvs).
  unfold evidence_holds in E0. destruct (data_string _ "oldFinalWatermark") as [w|] eqn:Ew; [|done].
  destruct (data_string _ "previousVersionId") as [p|] eqn:Epv; [|done].
  destruct (data_string _ "versionId") as [vid|] eqn:Evi; [|done].
  destruct (data_string _ "priorFrontierDigest") as [f|] eqn:Ef; [|done]. ok_step E0. bool_prop. subst.
  exists pred, pv, prow, rev, receipt, r, r1.
  match goal with Hm : member _ _ = true |- _ => apply member_true in Hm; rename Hm into Hin end.
  split_and!; try done.
  - set_solver.
  - simpl. by rewrite E1.
  - rewrite Hvs. apply map_eq. intros k. destruct (decide (k = id)) as [->|].
    + rewrite lookup_alter_eq, lookup_insert_eq, lookup_alter_ne, Hv by done. done.
    + rewrite lookup_alter_ne, lookup_insert_ne by done. destruct (decide (k = pred)) as [->|].
      * by rewrite lookup_alter_eq, lookup_insert_eq, Hpv.
      * by rewrite lookup_alter_ne, lookup_insert_ne.
Qed.
End SystemProofs.
