(* ===== verification/ReviewProofs.v ===== *)
(** Reviews: a review passes only on grounds the code can name, the reviewer is only shown
    fit files of the pinned snapshot, quotations are looked for in visible text, and
    sources are only fetched from public addresses. *)

From S2P Require Import Prelude Regex GoLib Numbers Types Scores Paths Measurement Evaluation Validate.
From S2P Require Import Sha256 GoJson Canonical Documents Artifacts Signatures Checkpoint History Store Adjudication.
From S2P Require Import Platform Preparation Suites Runners Editorial Intake Submissions Snapshots Lifecycle Sources.
From S2P Require Import Review EvaluationProofs.
From Stdlib Require Import Ascii.
Open Scope Z_scope.

(** * The outcome *)

(** A review that passes after a step is the review before it. *)
Definition holds_back (r r' : ScienceReview) : Prop := sr_Outcome r' = "automated_pass" → r' = r.

Lemma holds_back_trans a b c : holds_back a b → holds_back b c → holds_back a c.
Proof. intros H1 H2 Hc. pose proof (H2 Hc) as ->. auto. Qed.

(** Every step keeps the outcome in the contract, the findings, and a demand for changes. *)
Record firm (r r' : ScienceReview) : Prop := {
  fi_back : holds_back r r';
  fi_outcome : sr_Outcome r ∈ review_outcomes → sr_Outcome r' ∈ review_outcomes;
  fi_changes : sr_Outcome r = "changes_required" → sr_Outcome r' = "changes_required";
  fi_findings : sr_Findings r `prefix_of` sr_Findings r'
}.

#[export] Instance firm_preorder : PreOrder firm.
Proof.
  split; [by split|]. intros a b c [B1 O1 C1 F1] [B2 O2 C2 F2].
  split; [by eapply holds_back_trans|auto|auto|by etrans].
Qed.

Lemma firm_changes r f : firm r (add_finding f (set_outcome "changes_required" r)).
Proof. split; [done|intros _; unfold review_outcomes; simpl; set_solver|done|by apply prefix_app_r]. Qed.

Lemma firm_human r f : sr_Outcome r = "automated_pass" →
  firm r (add_finding f (set_outcome "human_review_required" r)).
Proof.
  intros Ho. split; [done|intros _; unfold review_outcomes; simpl; set_solver|by rewrite Ho|by apply prefix_app_r].
Qed.

(** ** The metric *)

(** A v2 manifest needs an accepted assessment. *)
Definition metric_supported (m : Manifest) (r : ScienceReview) : Prop :=
  manifest_APIVersion m = ManifestV2 → ∃ a, sr_MetricAssessment r = Some a ∧
    validateMetricAssessment (Some a) = Ok tt ∧ assessment_Decision a = "accepted".

Lemma applyMetricAssessment_firm m r : firm r (applyMetricAssessment m r).
Proof.
  unfold applyMetricAssessment. destruct (_ !=s _); [done|].
  destruct (validateMetricAssessment _) as [[]|]; [|apply firm_changes].
  destruct (sr_MetricAssessment r) as [a|]; [|done]. destruct (_ ==s _); [done|apply firm_changes].
Qed.

Lemma applyMetricAssessment_pass m r :
  sr_Outcome (applyMetricAssessment m r) = "automated_pass" → metric_supported m r.
Proof.
  unfold applyMetricAssessment, metric_supported. destruct (manifest_APIVersion m !=s ManifestV2) eqn:Ev; bool_prop.
  { done. }
  destruct (sr_MetricAssessment r) as [a|]; [|done].
  destruct (validateMetricAssessment (Some a)) as [[]|] eqn:Eva; [|done].
  destruct (assessment_Decision a ==s "accepted") eqn:Ea; bool_prop; [|done]. intros _ _. by exists a.
Qed.

Lemma applyMetricAssessment_id m r : metric_supported m r → applyMetricAssessment m r = r.
Proof.
  unfold applyMetricAssessment, metric_supported. intros Hm.
  destruct (manifest_APIVersion m !=s ManifestV2) eqn:Ev; bool_prop; [done|].
  destruct (Hm Ev) as (a & -> & -> & ->). done.
Qed.

(** ** The findings *)

Lemma weigh_finding_firm r f r' : weigh_finding r f = Ok r' → firm r r' ∧ sr_Findings r' = sr_Findings r ∧
  (sr_Outcome r' = "automated_pass" → rf_Severity f = "info").
Proof.
  unfold weigh_finding. intros Hw. ok_step Hw. apply (inj Ok) in Hw. subst r'. apply negb_false_iff, member_true in G.
  set (r1 := if (rf_Severity f ==s "review") && (sr_Outcome r ==s "automated_pass")
             then set_outcome "human_review_required" r else r).
  assert (firm r r1 ∧ sr_Findings r1 = sr_Findings r ∧ (sr_Outcome r1 = "automated_pass" → rf_Severity f ≠ "review"))
    as (F1 & E1 & P1).
  { unfold r1. destruct (rf_Severity f ==s "review") eqn:Er; bool_prop; simpl.
    - destruct (sr_Outcome r ==s "automated_pass") eqn:Eo; bool_prop; [|by split_and!].
      split_and!; [|done|done]. split; [done|intros _; unfold review_outcomes; simpl; set_solver|by rewrite Eo|done].
    - by split_and!. }
  destruct (rf_Severity f ==s "error") eqn:Ee; bool_prop.
  - split_and!; [|done|done]. etrans; [exact F1|].
    split; [done|intros _; unfold review_outcomes; simpl; set_solver|done|done].
  - split_and!; [done|done|]. intros Hp. specialize (P1 Hp). set_solver.
Qed.

Lemma weigh_findings_firm l : ∀ r r', foldM weigh_finding r l = Ok r' → firm r r' ∧
  (sr_Outcome r' = "automated_pass" → Forall (λ f, rf_Severity f = "info") l).
Proof.
  induction l as [|f l IH]; intros r r' Hl; cbn [foldM] in Hl; [apply (inj Ok) in Hl as <-; by split|].
  ok_step Hl. apply weigh_finding_firm in E as (F1 & _ & P1). apply IH in Hl as [F2 P2].
  split; [by etrans|]. intros Hp. constructor; [|auto]. apply P1.
  by rewrite <-(fi_back _ _ F2 Hp).
Qed.

Lemma weigh_findings_info l r : Forall (λ f, rf_Severity f = "info") l → foldM weigh_finding r l = Ok r.
Proof.
  induction 1 as [|f l Hf _ IH]; cbn [foldM]; [done|]. unfold weigh_finding at 1. rewrite Hf. simpl. exact IH.
Qed.

(** C19: a review passes only on grounds the code can name.  Whatever the provider answers,
    the review that is recorded passes exactly when the provider passed it and nothing
    holds it back: the manifest does not ask for a human safety decision, a v2 metric has
    a valid accepted assessment, the candidate explains its frontier and significance,
    every finding of the provider is informational, and all sources resolved; then it is
    recorded unchanged.  Otherwise the outcome is one of the other two of the contract, a
    demand for changes is never softened, and no finding of the provider is dropped. *)
Theorem conclude_review_exact m candidate status r r' : conclude_review m candidate status r = Ok r' →
  (sr_Outcome r' = "automated_pass" ↔
     sr_Outcome r = "automated_pass" ∧ manifest_SafetyClassification m ≠ "review-required" ∧ metric_supported m r ∧
     validateCandidateEducation candidate = Ok tt ∧ Forall (λ f, rf_Severity f = "info") (sr_Findings r) ∧
     status = "ready") ∧
  (sr_Outcome r' = "automated_pass" → r' = r) ∧ sr_Outcome r' ∈ review_outcomes ∧
  (sr_Outcome r = "changes_required" → sr_Outcome r' = "changes_required") ∧
  sr_Findings r `prefix_of` sr_Findings r'.
Proof.
  unfold conclude_review. intros Hc. ok_step Hc. apply negb_false_iff, member_true in G. cbv zeta in Hc.
  match type of Hc with context [applyMetricAssessment m ?x] => set (r1 := x) in Hc end.
  match type of Hc with context [foldM weigh_finding ?x] => set (r3 := x) in Hc end.
  ok_step Hc. set (r2 := applyMetricAssessment m r1) in *.
  match type of Hc with Ok (if _ && (sr_Outcome ?x ==s _) then _ else _) = _ => set (r5 := x) in Hc end.
  apply (inj Ok) in Hc.
  assert (firm r r1 ∧ (sr_Outcome r1 = "automated_pass" → manifest_SafetyClassification m ≠ "review-required")) as [F1 P1].
  { unfold r1. destruct (_ ==s "review-required") eqn:Es; bool_prop; [|done]. simpl.
    destruct (sr_Outcome r ==s "automated_pass") eqn:Eo; bool_prop; [by split; [apply firm_human|]|by split]. }
  assert (firm r1 r2) as F2 by apply applyMetricAssessment_firm.
  assert (firm r2 r3 ∧ (sr_Outcome r3 = "automated_pass" → validateCandidateEducation candidate = Ok tt)) as [F3 P3].
  { unfold r3. destruct (validateCandidateEducation candidate) as [[]|e]; [done|]. split; [apply firm_changes|done]. }
  apply weigh_findings_firm in E as E'. destruct E' as [F4 P4].
  assert (firm r0 r5 ∧ (sr_Outcome r5 = "automated_pass" → status ≠ "failed")) as [F5 P5].
  { unfold r5. destruct (status ==s "failed") eqn:Es; bool_prop; [split; [apply firm_changes|done]|done]. }
  assert (firm r5 r' ∧ (sr_Outcome r' = "automated_pass" → status = "ready")) as [F6 P6].
  { subst r'. destruct (status ==s "ready") eqn:Es; bool_prop; simpl; [done|].
    destruct (sr_Outcome r5 ==s "automated_pass") eqn:Eo; bool_prop; [by split; [apply firm_human|]|by split]. }
  assert (firm r r') as [B O C F] by (do 5 (etrans; [eassumption|]); eassumption).
  split_and!; [|exact B|auto|exact C|exact F]. split.
  - intros Hp. pose proof (fi_back _ _ F6 Hp) as E6. pose proof (B Hp) as Er. subst r'.
    assert (r5 = r0) as E5 by (apply (fi_back _ _ F5); congruence).
    assert (r0 = r3) as E4 by (apply (fi_back _ _ F4); congruence).
    assert (r3 = r2) as E3 by (apply (fi_back _ _ F3); congruence).
    assert (r2 = r1) as E2 by (apply (fi_back _ _ F2); congruence).
    assert (r1 = r) as E1 by congruence.
    assert (sr_Outcome r = "automated_pass") as Hr by congruence.
    split_and!; [done|apply P1; congruence| |apply P3; congruence| |apply P6; congruence].
    + rewrite <-E1. apply applyMetricAssessment_pass. fold r2. congruence.
    + assert (r3 = r) as Er3 by congruence. rewrite Er3 in P4. apply P4. congruence.
  - intros (Ho & Hs & Hm & He & Hf & ->).
    assert (r1 = r) as E1.
    { unfold r1. destruct (_ ==s "review-required") eqn:Es; bool_prop; done. }
    assert (r2 = r) as E2 by (unfold r2; rewrite E1; by apply applyMetricAssessment_id).
    assert (r3 = r) as E3 by (unfold r3; by rewrite He).
    rewrite E3, weigh_findings_info in E by done. apply (inj Ok) in E.
    subst r' r0. unfold r5. simpl. done.
Qed.

(** * Addresses *)

(** The IPv4 addresses that are not public, by their octets. *)
Definition reserved_v4 (a b c : Z) : Prop :=
  a = 0 ∨ a = 10 ∨ a = 127 ∨ (a = 100 ∧ 64 ≤ b ≤ 127) ∨ (a = 169 ∧ b = 254) ∨ (a = 172 ∧ 16 ≤ b ≤ 31)
  ∨ (a = 192 ∧ b = 168) ∨ (a = 192 ∧ b = 0 ∧ (c = 0 ∨ c = 2)) ∨ (a = 198 ∧ (b = 18 ∨ b = 19))
  ∨ (a = 198 ∧ b = 51 ∧ c = 100) ∨ (a = 203 ∧ b = 0 ∧ c = 113) ∨ 224 ≤ a.

Definition octet (b : Z) : Prop := 0 ≤ b < 256.

Lemma in_prefix_v4 x k n : 0 ≤ k ≤ 32 → in_prefix (V4 x, k) (V4 n) = (n / 2 ^ (32 - k) =? x / 2 ^ (32 - k)).
Proof. intros Hk. unfold in_prefix. cbn [fst snd]. by rewrite !Z.shiftr_div_pow2 by lia. Qed.

Lemma in_prefix_mixed x k n : in_prefix (V6 x, k) (V4 n) = false.
Proof. done. Qed.

Lemma v4_eqb x y : bool_decide (V4 x = V4 y) = (x =? y).
Proof. apply eq_iff_eq_true. rewrite bool_decide_eq_true, Z.eqb_eq. split; [by intros [= ->]|by intros ->]. Qed.

(** The prefixes of the two tables, octet by octet. *)
Lemma prefixes_octets a b c : octet a → octet b → octet c →
  (a / 16 ≠ 14 ∧ a / 16 ≠ 15 ↔ ¬ 224 ≤ a) ∧ (a * 256 + b ≠ 43518 ↔ ¬ (a = 169 ∧ b = 254)) ∧
  (a * 16 + b / 16 ≠ 2753 ↔ ¬ (a = 172 ∧ 16 ≤ b ≤ 31)) ∧ (a * 256 + b ≠ 49320 ↔ ¬ (a = 192 ∧ b = 168)) ∧
  (a * 4 + b / 64 ≠ 401 ↔ ¬ (a = 100 ∧ 64 ≤ b ≤ 127)) ∧
  ((a * 256 + b) * 256 + c ≠ 12582912 ↔ ¬ (a = 192 ∧ b = 0 ∧ c = 0)) ∧
  ((a * 256 + b) * 256 + c ≠ 12582914 ↔ ¬ (a = 192 ∧ b = 0 ∧ c = 2)) ∧
  (a * 128 + b / 2 ≠ 25353 ↔ ¬ (a = 198 ∧ (b = 18 ∨ b = 19))) ∧
  ((a * 256 + b) * 256 + c ≠ 12989284 ↔ ¬ (a = 198 ∧ b = 51 ∧ c = 100)) ∧
  ((a * 256 + b) * 256 + c ≠ 13303921 ↔ ¬ (a = 203 ∧ b = 0 ∧ c = 113)).
Proof. unfold octet. intros Ha Hb Hc. split_and!; Z.to_euclidean_division_equations; lia. Qed.

Lemma public_v4 a b c d : octet a → octet b → octet c → octet d →
  public_addr (v4 a b c d) = true ↔ ¬ reserved_v4 a b c.
Proof.
  unfold octet. intros Ha Hb Hc Hd. unfold v4 at 1. set (n := big_endian [a; b; c; d]).
  assert (n = ((a * 256 + b) * 256 + c) * 256 + d) as Hn by (unfold n, big_endian; simpl; lia). clearbody n.
  assert (n / 16777216 = a ∧ n / 65536 = a * 256 + b ∧ n / 256 = (a * 256 + b) * 256 + c ∧ n / 268435456 = a / 16
    ∧ n / 4194304 = a * 4 + b / 64 ∧ n / 1048576 = a * 16 + b / 16 ∧ n / 131072 = a * 128 + b / 2)
    as (D8 & D16 & D24 & D4 & D10 & D12 & D15) by (repeat split; Z.to_euclidean_division_equations; lia).
  unfold public_addr, IsGlobalUnicast, IsPrivate, IsLoopback, IsMulticast, IsLinkLocalUnicast, reserved_prefixes.
  unfold v4, v6. cbn [existsb]. rewrite !in_prefix_v4 by lia. rewrite !in_prefix_mixed, !v4_eqb.
  rewrite !(bool_decide_eq_false_2 (V4 n = V6 _)) by done.
  repeat match goal with |- context [2 ^ ?e] => let v := eval vm_compute in (2 ^ e) in change (2 ^ e) with v end.
  repeat match goal with |- context [big_endian [?w; ?x; ?y; ?z] / ?m] =>
    let v := eval vm_compute in (big_endian [w; x; y; z] / m) in change (big_endian [w; x; y; z] / m) with v end.
  change (big_endian [0; 0; 0; 0]) with 0. change (big_endian [255; 255; 255; 255]) with 4294967295.
  rewrite D8, D16, D24, D4, D10, D12, D15. rewrite !orb_false_r.
  match goal with |- (if ?x then false else negb ?y) = true ↔ _ =>
    transitivity (x = false ∧ y = false); [destruct x, y; simpl; intuition congruence|] end.
  rewrite !orb_false_iff, !negb_false_iff, !negb_true_iff, !orb_false_iff, !Z.eqb_neq.
  destruct (prefixes_octets a b c) as (E1 & E2 & E3 & E4 & E5 & E6 & E7 & E8 & E9 & E10); [done..|].
  clear D8 D16 D24 D4 D10 D12 D15. unfold reserved_v4. split.
  - intros Hall. destruct_and! Hall.
    repeat match goal with
    | He : ?x ≠ ?y ↔ _, Hx : ?x ≠ ?y |- _ => apply He in Hx; clear He
    end.
    assert (¬ 224 ≤ a) by (apply E1; by split). clear E1.
    clear dependent n. clear Ha Hb Hc Hd. intros Hr. tauto.
  - intros Hr. assert (¬ 224 ≤ a ∧ a ≠ 0) as [Hlo Hzero] by tauto. apply E1 in Hlo as Hlo'.
    assert (n ≠ 0 ∧ n ≠ 4294967295) as [Hn0 Hn1]
      by (clear - Hlo Hzero Hn Ha Hb Hc Hd; lia). clear Hn Ha Hb Hc Hd. tauto.
Qed.

Lemma big_endian_range a b c d : octet a → octet b → octet c → octet d → 0 ≤ big_endian [a; b; c; d] < 2 ^ 32.
Proof. unfold octet, big_endian. simpl. lia. Qed.

(** The IPv4 addresses among the IPv6 ones. *)
Lemma mapped_v4 a b c d : octet a → octet b → octet c → octet d →
  publicIP (repeat 0 10 ++ [255; 255; a; b; c; d]) = public_addr (v4 a b c d).
Proof.
  intros Ha Hb Hc Hd. pose proof (big_endian_range a b c d Ha Hb Hc Hd) as Hr.
  unfold publicIP, AddrFromSlice. cbn [repeat app lenl length].
  change (lenl [0; 0; 0; 0; 0; 0; 0; 0; 0; 0; 255; 255; a; b; c; d]) with 16. simpl (16 =? _). cbv iota.
  replace (big_endian [0; 0; 0; 0; 0; 0; 0; 0; 0; 0; 255; 255; a; b; c; d])
    with (65535 * 2 ^ 32 + big_endian [a; b; c; d]) by (unfold big_endian; simpl; lia).
  unfold v4. set (n := big_endian _) in *. clearbody n. unfold Unmap.
  rewrite Z.shiftr_div_pow2 by lia. rewrite Z.add_comm, Z.div_add, Z.div_small by lia. simpl (0 + 65535 =? 65535). cbv iota.
  change (2 ^ 32 - 1) with (Z.ones 32). rewrite Z.land_ones by lia. rewrite Z.mod_add, Z.mod_small by lia. done.
Qed.

(** Sources are fetched from public addresses only.  When a connection is dialled, the
    address is the first the resolver returned, and every address it returned is public: an
    IPv4 address, given as such or mapped into IPv6, lies in none of the loopback, private,
    shared, link-local, documentation, benchmarking, multicast and reserved ranges; one
    such address among the answers refuses the connection. *)
Theorem dial_public ips ip : dial_address ips = Ok ip →
  head ips = Some ip ∧ ∀ a b c d, octet a → octet b → octet c → octet d →
    [a; b; c; d] ∈ ips ∨ repeat 0 10 ++ [255; 255; a; b; c; d] ∈ ips → ¬ reserved_v4 a b c.
Proof.
  unfold dial_address. destruct ips as [|ip0 ips]; [done|]. intros Hd. ok_step Hd. apply (inj Ok) in Hd as ->.
  split; [done|]. intros a b c d Ha Hb Hc Hdd Hin. rewrite forallb_forall in G.
  apply (public_v4 a b c d); [done..|]. destruct Hin as [Hin|Hin]; apply list_elem_of_In, G in Hin; [exact Hin|].
  by rewrite mapped_v4 in Hin.
Qed.

(** * The evidence *)

Section EvidenceProofs.
Context `{UnicodeLib} `{UrlLib} `{YamlLib} `{JsonCanonicalizer} `{JsonType Manifest} `{JsonType SnapshotDocument}.

(** A file the reviewer may see, as it is in the snapshot. *)
Record fit_file (files : Files) (m : Manifest) (f : reviewEvidenceFile) : Prop := {
  ff_pinned : files !! ef_Path f = Some (ef_Text f);
  ff_digest : ef_Digest f = DigestBytes (ef_Text f);
  ff_path : ValidatePath (ef_Path f) = Ok tt;
  ff_public : ∀ c, c ∈ Split (ToLower (ef_Path f)) "/" → private_component c = false;
  ff_suite : suite_Visibility (manifest_Suite m) = "hidden" → under (suite_Path (manifest_Suite m)) (ef_Path f) = false;
  ff_kind : text_extension (ef_Path f) = true;
  ff_size : len (ef_Text f) ≤ 32768;
  ff_text : ValidString (ef_Text f) = true ∧ ContainsByte (ef_Text f) "000" = false;
  ff_secret : reviewSecretMarker (ef_Text f) = false
}.

Lemma unfit_fit e files m name data : files !! name = Some data → unfit e m name data = false →
  fit_file files m (mkEvidenceFile name (DigestBytes data) data) ∧ lenl (se_Files e) < 24.
Proof.
  unfold unfit, safeReviewPath. intros Hf Hu. bool_prop.
  destruct (is_err (ValidatePath name)) eqn:Hp; [done|]. destruct (existsb _ _) eqn:Hc; [done|].
  destruct (_ && under _ _) eqn:Hs; [done|]. split; [|lia]. split; simpl; try done.
  - destruct (ValidatePath name) as [[]|]; done.
  - intros c Hin. destruct (private_component c) eqn:Hpc; [|done].
    assert (existsb private_component (Split (ToLower name) "/") = true); [|congruence].
    apply existsb_exists. exists c. by rewrite <-list_elem_of_In.
  - intros Hv. rewrite Hv in Hs. done.
Qed.

(** After the names [l]. *)
Record selecting (files : Files) (m : Manifest) (start : reviewSourceEvidence) (l : list string)
    (st : reviewSourceEvidence * gset string) : Prop := {
  sl_seen : st.2 = list_to_set l;
  sl_fit : Forall (fit_file files m) (se_Files st.1);
  sl_once : NoDup (map ef_Path (se_Files st.1));
  sl_seen_files : ∀ f, f ∈ se_Files st.1 → ef_Path f ∈ l;
  sl_most : lenl (se_Files st.1) ≤ 24;
  sl_count : lenl (se_Files st.1) + se_Omitted st.1 = Z.of_nat (size (st.2 ∩ dom files));
  sl_bound : (se_SourceCommit st.1, se_SourceDigest st.1, se_ManifestDigest st.1)
    = (se_SourceCommit start, se_SourceDigest start, se_ManifestDigest start)
}.

Lemma size_seen (files : Files) name (seen : gset string) : name ∉ seen →
  size (({[name]} ∪ seen) ∩ dom files)
  = (size (seen ∩ dom files) + if files !! name is Some _ then 1 else 0)%nat.
Proof.
  intros Hn. destruct (files !! name) as [data|] eqn:Hf.
  - assert (name ∈ dom files) as Hd by (apply elem_of_dom; eauto). rewrite intersection_union_r_L.
    replace ({[name]} ∩ dom files) with ({[name]} : gset string) by (symmetry; by apply subseteq_intersection_1_L, singleton_subseteq_l).
    rewrite size_union, size_singleton; [lia|]. apply disjoint_singleton_l. by intros [? _]%elem_of_intersection.
  - apply not_elem_of_dom in Hf. rewrite intersection_union_r_L.
    replace ({[name]} ∩ dom files) with (∅ : gset string); [by rewrite union_empty_l_L, Nat.add_0_r|].
    symmetry. apply disjoint_intersection_L. by apply disjoint_singleton_l.
Qed.

Lemma select_step_sound files m start l st name : selecting files m start l st →
  selecting files m start (l ++ [name]) (select_step files m st name).
Proof.
  intros [Hs Hf Ho Hsf Hm Hc Hb]. destruct st as [e seen].
  cbn [fst snd] in Hs, Hf, Ho, Hsf, Hm, Hc, Hb. unfold select_step.
  assert (list_to_set (C := gset string) (l ++ [name]) = {[name]} ∪ seen) as Hl.
  { rewrite Hs, list_to_set_app_L. simpl. by rewrite union_empty_r_L, union_comm_L. }
  destruct (bool_decide_reflect (name ∈ seen)) as [Hin|Hin].
  { split; cbn [fst snd se_Files se_Omitted omit_file add_file]; try done; [by rewrite Hl, subseteq_union_1_L by by apply singleton_subseteq_l|].
    intros f Hff. apply elem_of_app. left. by apply Hsf. }
  assert (∀ f, f ∈ se_Files e → ef_Path f ∈ l ++ [name]) as Hsf'.
  { intros f Hff. apply elem_of_app. left. by apply Hsf. }
  pose proof (size_seen files name seen Hin) as Hz. symmetry in Hl.
  destruct (files !! name) as [data|] eqn:Hd; cbv iota in Hz.
  2:{ split; cbn [fst snd se_Files se_Omitted omit_file add_file]; try done; lia. }
  destruct (unfit e m name data) eqn:Hu.
  { split; cbn [fst snd se_Files se_Omitted omit_file add_file]; try done; lia. }
  destruct (len _ >? reviewEvidenceLimit).
  { split; cbn [fst snd se_Files se_Omitted omit_file add_file]; try done; lia. }
  destruct (unfit_fit e files m name data Hd Hu) as [Hfit Hlt]. split; cbn [fst snd se_Files se_Omitted omit_file add_file]; try done.
  - apply Forall_app. by split; [|apply Forall_singleton].
  - rewrite map_app. apply NoDup_app. split; [done|]. split; [|apply NoDup_singleton].
    intros x Hx Hn. apply list_elem_of_singleton in Hn as ->. apply list_elem_of_fmap in Hx as (f & Hff & Hfi).
    change (name = ef_Path f) in Hff.
    apply Hin. rewrite Hs, Hff. by apply elem_of_list_to_set, Hsf.
  - intros f [Hff|Hff%list_elem_of_singleton]%elem_of_app; [by apply Hsf'|]. subst f. simpl.
    apply elem_of_app. right. by apply list_elem_of_singleton.
  - unfold lenl in *. rewrite length_app. simpl. lia.
  - unfold lenl in *. rewrite length_app. simpl. lia.
Qed.

Lemma select_all_sound files m start l : selecting files m start [] (start, ∅) →
  selecting files m start l (foldl (select_step files m) (start, ∅) l).
Proof.
  intros H0s. induction l as [|x l IH] using rev_ind; [done|]. rewrite foldl_app. by apply select_step_sound.
Qed.

(** The reviewer sees only fit files of the pinned snapshot.  The evidence of a review
    comes from the document with the version's digest, for its commit and repository, whose
    own manifest has the digest of the manifest under review.  Every file shown is one of
    the selected ones with its bytes and digest in that snapshot, at most once and at most
    24 of them: a valid path outside hidden files, private directories, agent instructions
    and a hidden suite, of a text type, at most 32 KiB of valid UTF-8 without NUL and
    without a secret marker; and the selected files of the snapshot that are not shown are
    counted exactly. *)
Theorem selectReviewEvidence_safe document sourceDigest commit repositoryID m e :
  selectReviewEvidence document sourceDigest commit repositoryID m = Ok e →
  DigestBytes document = sourceDigest ∧
  (se_SourceCommit e, se_SourceDigest e) = (commit, sourceDigest) ∧ Digest m = Ok (se_ManifestDigest e) ∧
  ∃ snapshot, DecodeStrictBounded document snapshot_limit = Ok snapshot ∧
    (sd_SourceCommit snapshot, sd_RepositoryID snapshot) = (commit, repositoryID) ∧
    (∃ own, ParseManifest (default "" (sd_Files snapshot !! "science-ladder.yaml")) = Ok own ∧
       Digest own = Ok (se_ManifestDigest e)) ∧
    Forall (λ f, fit_file (sd_Files snapshot) m f ∧ ef_Path f ∈ selected_names (sd_Files snapshot) m) (se_Files e) ∧
    NoDup (map ef_Path (se_Files e)) ∧ lenl (se_Files e) ≤ 24 ∧
    lenl (se_Files e) + se_Omitted e
      = Z.of_nat (size (list_to_set (C := gset string) (selected_names (sd_Files snapshot) m) ∩ dom (sd_Files snapshot))).
Proof.
  unfold selectReviewEvidence. intros He. do 7 ok_step He. bool_prop. subst r2. apply (inj Ok) in He.
  set (start := mkSourceEvidence commit sourceDigest r1 [] 0) in *.
  assert (selecting (sd_Files r) m start [] (start, ∅)) as H0s.
  { split; cbn; first [done|apply Forall_nil_2|apply NoDup_nil_2|by intros f Hf%elem_of_nil|idtac].
    by rewrite intersection_empty_l_L, size_empty. }
  destruct (select_all_sound _ _ _ (selected_names (sd_Files r) m) H0s) as [Hs Hf Hn Hsf Hl Hc Hb].
  rewrite He in *. apply pair_equal_spec in Hb as [Hcs Hmd]. rewrite Hs in Hc. change (se_ManifestDigest start) with r1 in Hmd.
  rewrite Hmd. split_and!; [done|exact Hcs|done|]. exists r. split; [done|]. split; [by f_equal|].
  split; [by exists r0|]. split_and!; [|done..]. rewrite Forall_forall in Hf |- *. intros f Hfi. split; auto.
Qed.
End EvidenceProofs.

(** * Documents *)

Lemma string_app_nil_r s : s +:+ "" = s.
Proof. induction s as [|c s IH]; [done|]. exact (f_equal (String c) IH). Qed.
Lemma string_app_assoc s t u : s +:+ (t +:+ u) = (s +:+ t) +:+ u.
Proof. induction s as [|c s IH]; [done|]. exact (f_equal (String c) IH). Qed.

Section DocumentProofs.
Context `{UnicodeLib} `{HtmlLib}.

(** The text of a tree outside skipped elements and hidden subtrees, in document order. *)
Fixpoint visible_text (n : htmlNode) : string :=
  match n with
  | ElementNode name attrs children =>
      if skipped_element name || existsb hides attrs then "" else foldr String.append "" (map visible_text children)
  | TextNode text => text +:+ " "
  | OtherNode children => foldr String.append "" (map visible_text children)
  end.

(** The dates of the citation metadata of a tree, in document order. *)
Fixpoint citation_dates (n : htmlNode) : list Time :=
  option_list (meta_date n) ++
  match n with
  | ElementNode _ _ children | OtherNode children => concat (map citation_dates children)
  | TextNode _ => []
  end.

Definition pending_size (l : list htmlNode) : nat := list_sum (map node_size l).
Definition text_of (l : list htmlNode) : string := foldr String.append "" (map visible_text l).

Lemma text_of_app l1 l2 : text_of (l1 ++ l2) = text_of l1 +:+ text_of l2.
Proof. unfold text_of. induction l1 as [|n l1 IH]; simpl; [done|]. by rewrite IH, string_app_assoc. Qed.

Lemma visit_text_spec n : visible_text n = (visit_text n).1 +:+ text_of (visit_text n).2.
Proof.
  destruct n as [name attrs children|text|children]; simpl; [|by rewrite string_app_nil_r|done].
  by destruct (skipped_element name || existsb hides attrs).
Qed.

Lemma pending_size_app l1 l2 : pending_size (l1 ++ l2) = (pending_size l1 + pending_size l2)%nat.
Proof. unfold pending_size. by rewrite map_app, list_sum_app. Qed.

Lemma visit_text_size n : (pending_size (visit_text n).2 < node_size n)%nat.
Proof.
  destruct n as [name attrs children|text|children]; simpl; [|unfold pending_size; simpl; lia..].
  destruct (skipped_element name || existsb hides attrs); unfold pending_size; simpl; lia.
Qed.

(** Fuel for every pending node is enough. *)
Lemma text_loop_exact fuel : ∀ pending text, (pending_size pending ≤ fuel)%nat →
  text_loop fuel pending text = Some (text +:+ text_of pending).
Proof.
  induction fuel as [|fuel IH]; intros [|n pending] text Hf; simpl; [by rewrite string_app_nil_r| |by rewrite string_app_nil_r|].
  - exfalso. unfold pending_size in Hf. simpl in Hf. destruct n; simpl in Hf; lia.
  - pose proof (visit_text_spec n) as Hs. pose proof (visit_text_size n) as Hz.
    destruct (visit_text n) as [t children]. simpl in Hs, Hz. rewrite IH.
    + change (text_of (n :: pending)) with (visible_text n +:+ text_of pending).
      by rewrite Hs, text_of_app, !string_app_assoc.
    + rewrite pending_size_app. unfold pending_size in Hf at 1. simpl in Hf. fold (pending_size pending) in Hf. lia.
Qed.

Lemma citation_dates_unfold n :
  citation_dates n = option_list (meta_date n) ++ concat (map citation_dates (children_of n)).
Proof. by destruct n. Qed.

Lemma children_size n : S (pending_size (children_of n)) = node_size n.
Proof. by destruct n. Qed.

Lemma date_loop_exact fuel : ∀ pending, (pending_size pending ≤ fuel)%nat →
  date_loop fuel pending = Some (head (concat (map citation_dates pending))).
Proof.
  induction fuel as [|fuel IH]; intros [|n pending] Hf; [done| |done|].
  - exfalso. unfold pending_size in Hf. simpl in Hf. destruct n; simpl in Hf; lia.
  - cbn [date_loop map concat]. rewrite citation_dates_unfold. destruct (meta_date n) as [t|]; [done|].
    rewrite IH; [by rewrite map_app, concat_app|]. pose proof (children_size n) as Hz. rewrite pending_size_app.
    unfold pending_size in Hf at 1. simpl in Hf. fold (pending_size pending) in Hf. lia.
Qed.

End DocumentProofs.
