(* ===== verification/PreparationProofs.v ===== *)
(** Preparation builds and the claim query: fixture runs are separate signed attempts that
    agree, which job a host is offered, that the SQL selection agrees with the checks of
    pkg/protocol, and that a published build output was uploaded and verified for its job. *)

From S2P Require Import Prelude Regex GoLib Numbers Types Scores Paths Measurement Evaluation Validate EvaluationProofs.
From S2P Require Import Sha256 GoJson Canonical Documents Results Hidden Store Signatures Checkpoint History Platform.
From S2P Require Import Preparation Suites Runners FleetSteps.
Open Scope Z_scope.

Section Evidence.
Context `{Crypto} `{!Pki} `{UnicodeLib} `{JsonCanonicalizer}.
Context `{JsonType ValidatorResult} `{JsonType RunnerJob} `{JsonType RunReceipt}.

(** A signed envelope of the host that opens to a run bound to the parent job. *)
Definition opened (job : RunnerJob) (parent : RunReceipt) (b : BuildReport) (host : runnerIdentity)
    (key : PublicKey) (parentDigest : string) (envelope : Envelope) (run : RunReceipt) : Prop :=
  (∃ payload, Verify envelope {[host_ID host := key]} = Ok payload ∧ DecodeStrict payload = Ok run)
  ∧ runReceipt_Official run = true ∧ runReceipt_CleanupAttested run = true
  ∧ runReceipt_JobID run ≠ runnerJob_ID job ∧ runReceipt_ID run ≠ runReceipt_ID parent
  ∧ attempt_bindings job parent b host parentDigest run = true
  ∧ ValidateRunMeasurementEvidence run (runnerJob_Manifest job) = Ok tt
  ∧ (runReceipt_Outcome run = "valid" → gates_pass (runReceipt_Gates run) (runnerJob_Manifest job) = true).

(** A run reproduces what its fixture reports. *)
Definition reproduces (job : RunnerJob) (fixture : FixtureReport) (artifact : string) (run : RunReceipt) : Prop :=
  runReceipt_Outcome run = fixtureReport_Outcome fixture
  ∧ (is_performance (runnerJob_Manifest job) = false →
     runReceipt_ScoreTicks run = fixtureReport_ScoreTicks fixture)
  ∧ runReceipt_ArtifactDigest run = artifact.

Definition jobs_of (runs : list RunReceipt) : list string := runReceipt_JobID <$> runs.
Definition ids_of (runs : list RunReceipt) : list string := runReceipt_ID <$> runs.

(** The runs recorded by a loop, on top of what it started from. *)
Record recorded_runs (ev ev' : evidence) (runs : list RunReceipt) : Prop := {
  rr_total : ev_total ev' = ev_total ev + lenl runs;
  rr_jobs : ev_jobs ev' = list_to_set (jobs_of runs) ∪ ev_jobs ev;
  rr_ids : ev_receipts ev' = list_to_set (ids_of runs) ∪ ev_receipts ev;
  rr_new : ∀ r, r ∈ runs → runReceipt_JobID r ∉ ev_jobs ev ∧ runReceipt_ID r ∉ ev_receipts ev;
  rr_distinct : NoDup (jobs_of runs) ∧ NoDup (ids_of runs)
}.

Lemma recorded_nil ev : recorded_runs ev ev [].
Proof. constructor; unfold lenl, jobs_of, ids_of; simpl; [lia|set_solver..|split; constructor]. Qed.

Lemma recorded_app ev ev1 ev2 r1 r2 : recorded_runs ev ev1 r1 → recorded_runs ev1 ev2 r2 →
  recorded_runs ev ev2 (r1 ++ r2).
Proof.
  intros [T1 J1 I1 N1 [DJ1 DI1]] [T2 J2 I2 N2 [DJ2 DI2]]. unfold jobs_of, ids_of in *. constructor.
  - rewrite T2, T1. unfold lenl. rewrite length_app. lia.
  - unfold jobs_of. rewrite J2, J1, fmap_app, list_to_set_app_L. set_solver.
  - unfold ids_of. rewrite I2, I1, fmap_app, list_to_set_app_L. set_solver.
  - intros r [Hr|Hr]%elem_of_app; [by apply N1|]. destruct (N2 r Hr). rewrite J1, I1 in *. set_solver.
  - unfold jobs_of, ids_of. rewrite !fmap_app, !NoDup_app. split_and!; try done.
    + intros j Hj (r & -> & Hr)%list_elem_of_fmap. destruct (N2 r Hr) as [HJ _]. apply HJ.
      rewrite J1. apply elem_of_union_l, elem_of_list_to_set. done.
    + intros j Hj (r & -> & Hr)%list_elem_of_fmap. destruct (N2 r Hr) as [_ HI]. apply HI.
      rewrite I1. apply elem_of_union_l, elem_of_list_to_set. done.
Qed.

Lemma attempt_identity_inv job parent ev run : attempt_identity job parent ev run = true →
  runReceipt_Official run = true ∧ runReceipt_CleanupAttested run = true
  ∧ runReceipt_JobID run ≠ runnerJob_ID job ∧ runReceipt_ID run ≠ runReceipt_ID parent
  ∧ runReceipt_JobID run ∉ ev_jobs ev ∧ runReceipt_ID run ∉ ev_receipts ev.
Proof. unfold attempt_identity. intros. by bool_prop. Qed.

Lemma attempt_step_ok job parent b host key pd fixture st envelope st' :
  attempt_step job parent b host key pd fixture st envelope = Ok st' →
  ∃ run, opened job parent b host key pd envelope run
    ∧ reproduces job fixture (at_artifact st') run ∧ ValidDigest (at_artifact st') = true
    ∧ (at_artifact st = "" ∨ at_artifact st = at_artifact st')
    ∧ at_runs st' = at_runs st ++ [run]
    ∧ recorded_runs (at_evidence st) (at_evidence st') [run].
Proof.
  unfold attempt_step. intros H'. do 7 ok_step H'. apply (inj Ok) in H'. subst st'. rename r0 into run.
  exists run. apply negb_false_iff in G, G0. destruct r1.
  apply attempt_identity_inv in G as (Ho & Hc & Hj & Hi & Hnj & Hni).
  apply orb_false_iff in G1 as [G1 G3]. apply orb_false_iff in G1 as [G1 G4].
  apply negb_false_iff, String.eqb_eq in G1. cbn [at_artifact at_runs at_evidence].
  split_and!; [| | | |done|].
  - split_and!; try done; [by exists r|]. intros Hv. rewrite Hv in G2. simpl in G2. by apply negb_false_iff in G2.
  - split_and!; [done| |done]. intros Hp. rewrite Hp in G4. simpl in G4.
    by apply negb_false_iff, String.eqb_eq in G4.
  - unfold attempt_bindings in G0. by apply andb_true_iff in G0 as [_ ?].
  - apply andb_false_iff in G3 as [G3|G3]; apply negb_false_iff, String.eqb_eq in G3; auto.
  - constructor; unfold jobs_of, ids_of, lenl; simpl; [done|set_solver|set_solver| |].
    + by intros r1 ->%list_elem_of_singleton.
    + split; apply NoDup_singleton.
Qed.

Lemma attempts_ok job parent b host key pd fixture l st st' :
  foldM (attempt_step job parent b host key pd fixture) st l = Ok st' →
  ∃ runs, Forall2 (opened job parent b host key pd) l runs
    ∧ Forall (reproduces job fixture (at_artifact st')) runs
    ∧ (at_artifact st = "" ∨ at_artifact st = at_artifact st')
    ∧ at_runs st' = at_runs st ++ runs
    ∧ recorded_runs (at_evidence st) (at_evidence st') runs.
Proof.
  revert st. induction l as [|envelope l IH]; intros st H'; simpl in H'.
  { simplify_eq. exists []. split_and!; eauto using recorded_nil. by rewrite app_nil_r. }
  ok_step H'. apply attempt_step_ok in E as (run & Hop & Hre & Hv & Ha & Hr & Hrec).
  destruct (IH _ H') as (runs & Hops & Hres & Ha' & Hr' & Hrec').
  assert (at_artifact r = at_artifact st') as Heq by (destruct Ha' as [Ha'|]; [by rewrite Ha' in Hv|done]).
  exists (run :: runs). split_and!.
  - by constructor.
  - constructor; [by rewrite <-Heq|done].
  - by rewrite <-Heq.
  - by rewrite Hr', Hr, <-app_assoc.
  - apply (recorded_app _ _ _ [run] runs Hrec Hrec').
Qed.

(** ** The whole report *)

(** The runs of one fixture: two agreeing attempts, or none for a fixture the parser
    refused. *)
Definition fixture_runs (job : RunnerJob) (parent : RunReceipt) (b : BuildReport) (host : runnerIdentity)
    (key : PublicKey) (pd : string) (fixture : FixtureReport) (runs : list RunReceipt) : Prop :=
  if parsed_only fixture then runs = [] else
  lenl runs = 2 ∧ Forall2 (opened job parent b host key pd) (fixtureReport_RunReceipts fixture) runs
  ∧ ∃ artifact, Forall (reproduces job fixture artifact) runs.

Lemma fixture_step_ok job parent b host key pd ev fixture ev' :
  fixture_evidence_step job parent b host key pd ev fixture = Ok ev' →
  ∃ runs, fixture_runs job parent b host key pd fixture runs ∧ recorded_runs ev ev' runs.
Proof.
  unfold fixture_evidence_step, fixture_runs. destruct (parsed_only fixture) eqn:Hp; intros H'.
  { simplify_eq. exists []. split; [done|apply recorded_nil]. }
  ok_step H'. ok_step H'. ok_step H'. simplify_eq.
  apply attempts_ok in E as (runs & Hops & Hres & _ & _ & Hrec). exists runs. bool_prop.
  split; [|done]. pose proof (Forall2_length _ _ _ Hops) as Hlen. unfold lenl in *.
  split_and!; [lia|done|by eexists].
Qed.

Lemma fixtures_ok job parent b host key pd l ev ev' :
  foldM (fixture_evidence_step job parent b host key pd) ev l = Ok ev' →
  ∃ groups, Forall2 (fixture_runs job parent b host key pd) l groups ∧ recorded_runs ev ev' (concat groups).
Proof.
  revert ev. induction l as [|fixture l IH]; intros ev H'; simpl in H'.
  { simplify_eq. exists []. split; [constructor|apply recorded_nil]. }
  ok_step H'. apply fixture_step_ok in E as (runs & Hf & Hrec). destruct (IH _ H') as (groups & Hg & Hrec').
  exists (runs :: groups). split; [by constructor|]. simpl. by eapply recorded_app.
Qed.

End Evidence.

(** * The oldest eligible job *)

Definition offerable (s : pdb) (locked : gset string) (purposes : list string) (host : runnerIdentity)
    (id : string) (j : JobRow) : Prop :=
  rjobs s !! id = Some j ∧ claimable purposes host j = true ∧ id ∉ locked.

(** A claim takes an eligible job no other eligible job is older than, and finds none
    exactly when none is eligible, so a queued job is not overtaken for ever by younger
    ones a host could also run. *)
Theorem pick_job_exact s locked purposes host :
  match pick_job s locked purposes host with
  | Some (id, j) => offerable s locked purposes host id j ∧
      ∀ id' j', offerable s locked purposes host id' j' → Before (j_created j') (j_created j) = false
  | None => ∀ id j, ¬ offerable s locked purposes host id j
  end.
Proof.
  unfold pick_job. match goal with |- context [first_least ?ok ?key None ?l] =>
    pose proof (first_least_spec ok key l None) as Hs; destruct (first_least ok key None l) as [[id j]|] end.
  - destruct Hs as ([?|[Hin%elem_of_map_to_list Hok]] & _ & Hl); [done|]. simpl in *. bool_prop.
    split; [by split_and!|]. intros id' j' (Hj & Hc & Hn).
    specialize (Hl (id', j') (proj2 (elem_of_map_to_list _ _ _) Hj)). simpl in Hl.
    rewrite Hc, (bool_decide_eq_false_2 _ Hn) in Hl. unfold Before. apply Z.ltb_ge, Hl. done.
  - destruct Hs as [_ Hl]. intros id j (Hj & Hc & Hn).
    specialize (Hl (id, j) (proj2 (elem_of_map_to_list _ _ _) Hj)). simpl in Hl.
    by rewrite Hc, (bool_decide_eq_false_2 _ Hn) in Hl.
Qed.

(** * The query against the checks *)

Lemma asset_contained_eq a b : evaluationAsset_Domain a ≠ "" → asset_contained a b = true → a = b.
Proof.
  unfold asset_contained. intros Hd Hc. bool_prop. destruct a, b; simpl in *.
  apply orb_true_iff in H as [?|?]; bool_prop; [done|congruence].
Qed.

(** What an accepted manifest bounds (validateResources). *)
Definition schedule_bounded (m : Manifest) : Prop :=
  0 ≤ resources_TimeoutSeconds (manifest_Resources m) ≤ 7200 ∧ lenl (manifest_Fixtures m) ≤ 100.

(** The lease never exceeds the schedule the query computes. *)
Lemma lease_within_query m purpose : schedule_bounded m →
  JobLeaseDuration m purpose ≤ query_seconds purpose m * Second.
Proof.
  intros [Ht Hf]. unfold JobLeaseDuration, query_seconds, MaximumJobLease, Hour, Minute, Second.
  set (t := resources_TimeoutSeconds _) in *. set (f := lenl _) in *.
  assert (0 ≤ f) by (unfold f, lenl; lia). clearbody t f.
  destruct (manifest_APIVersion m !=s ManifestV2); [lia|].
  assert (∀ x, 0 ≤ x ≤ 10 ^ 7 → wrap64 x = x) as W by (intros; apply wrap64_id; unfold int64_range; lia).
  rewrite (W (t + 60)), (W (2 * f)) by lia.
  destruct (purpose ==s "artifact_prepare").
  { vm_compute (wrap64 (wrap64 (300 + 600) * 1000000000)). simpl. lia. }
  set (d := if purpose ==s "preflight" then _ else t + 60).
  assert (d = if purpose ==s "preflight" then 2 * f * (t + 60) else t + 60) as ->.
  { subst d. destruct (_ ==s _); [|done]. rewrite W by nia. ring. }
  set (d := if purpose ==s "preflight" then _ else t + 60).
  assert (0 ≤ d ≤ 2 * 10 ^ 6) by (subst d; destruct (_ ==s _); nia).
  rewrite (W (d + 600)) by lia. rewrite wrap64_id by (unfold int64_range; lia).
  assert (d + 600 ≤ Z.max 900 (if purpose ==s "preflight" then 600 + 2 * f * (t + 60) else 660 + t)).
  { subst d. destruct (_ ==s _); lia. }
  set (q := Z.max 900 _) in *. assert (900 ≤ q) by lia. clearbody q d.
  destruct (_ <? _); destruct (_ || _) eqn:Hm; bool_prop; try lia;
    apply orb_true_iff in Hm as [?|?]; bool_prop; lia.
Qed.

Lemma query_capabilities_inv purpose m c : query_capabilities purpose m (Some c) = true →
  ∃ e, manifest_Evaluation m = Some e
    ∧ (ValidDigest (validator_RuntimeImageDigest (manifest_Validator m)) = true →
       (∀ a, a ∈ evaluationContract_Assets e → evaluationAsset_Domain a ≠ "") →
       MatchExecutor e (manifest_Resources m) (validator_RuntimeImageDigest (manifest_Validator m)) c = Ok tt)
    ∧ query_seconds purpose m ≤ (if executorCapabilities_MaxJobSeconds c =? 0 then 900
                                 else executorCapabilities_MaxJobSeconds c).
Proof.
  unfold query_capabilities. destruct (manifest_Evaluation m) as [e|]; [|done].
  rewrite !andb_true_iff. intros ((((((((((Himg & Hos) & Harch) & Hacc) & Hcl) & Hf) & Ha) & Hv) & Hm) & Ht) & Hs).
  apply String.eqb_eq in Himg, Hos, Harch, Hacc. apply Z.leb_le in Hv, Hm, Ht, Hs.
  exists e. split_and!; [done| |done]. intros Hd Hdom. unfold MatchExecutor.
  rewrite Hos, Harch, Hacc, Hd, Himg, !String.eqb_refl. cbn [negb orb].
  replace (_ && _) with false by (symmetry; apply andb_false_iff; apply orb_true_iff in Hcl as [->| ->]; auto).
  rewrite !Z.gtb_ltb, !(proj2 (Z.ltb_ge _ _)) by done. cbn [orb].
  rewrite (proj2 (for_each_ok _ _)).
  - apply for_each_ok, Forall_forall. intros f Hin. rewrite forallb_forall in Hf.
    by rewrite Hf by by apply list_elem_of_In.
  - apply Forall_forall. intros a Hin. rewrite forallb_forall in Ha.
    specialize (Ha a (proj1 (list_elem_of_In _ _) Hin)). apply existsb_exists in Ha as (b & Hb & Hab).
    apply asset_contained_eq in Hab as ->; [|by apply Hdom].
    rewrite (proj2 (existsb_exists _ _)); [done|]. exists b. split; [done|]. by apply bool_decide_eq_true_2.
Qed.

(** The SQL selection is no laxer than the Go checks that follow it: a job the query
    offers to an enrolled executor passes [MatchExecutor] and its lease fits the
    executor's longest job, for a manifest within the validated bounds whose assets
    declare their domains (without the last condition see [claim_query_ignores_domain]). *)
Theorem claim_query_sound purposes host row c :
  let m := runnerJob_Manifest (j_payload row) in
  host_Capabilities host = Some c → claimable purposes host row = true → schedule_bounded m →
  ValidDigest (validator_RuntimeImageDigest (manifest_Validator m)) = true →
  0 ≤ executorCapabilities_MaxJobSeconds c ≤ 10 ^ 9 →
  (∀ e a, manifest_Evaluation m = Some e → a ∈ evaluationContract_Assets e → evaluationAsset_Domain a ≠ "") →
  check_executor (j_payload row) host = Ok tt ∧ MatchJobLease m (j_purpose row) c = true.
Proof.
  intros m Hc Hq Hb Hd Hmax Hdom. unfold claimable in Hq. rewrite Hc in Hq.
  apply andb_true_iff in Hq as [Hq _]. apply andb_true_iff in Hq as [Hq _]. apply andb_true_iff in Hq as [_ Hq].
  apply query_capabilities_inv in Hq as (e & He & Hex & Hs). fold m in He, Hex, Hs. split.
  - unfold check_executor. fold m. rewrite He, Hc, Hex; eauto.
  - unfold MatchJobLease. apply Z.leb_le. pose proof (lease_within_query _ (j_purpose row) Hb).
    rewrite wrap64_id; unfold Second in *; [case_match; bool_prop; lia|].
    unfold int64_range. case_match; bool_prop; lia.
Qed.

(** * Build outputs *)

Section Outputs.
Context `{Env} `{Crypto} `{!Pki} `{UnicodeLib} `{JsonCanonicalizer} `{ObjectStore}.
Context `{JsonType Manifest} `{JsonType ValidatorResult} `{JsonType RunnerJob} `{JsonType RunReceipt}.
Context `{JsonType Receipt} `{JsonType BuildReport}.

(** The upload behind an output, declared for this job and verified in the store. *)
Definition uploaded (s : pdb) (id role : string) (ref : ObjectRef) : Prop :=
  StoreVerify (objectRef_Digest ref) (objectRef_Size ref) = Ok tt
  ∧ f_uploads (p_fleet s) !! (id, role) = Some (mkUpload (objectRef_Digest ref) (objectRef_Size ref) true).

Lemma verify_object_ok id b s role s' : verify_object id b s role = (s', Ok tt) →
  (∀ ref, build_ref b role = Some ref → uploaded s' id role ref)
  ∧ (∀ r ref, uploaded s id r ref → uploaded s' id r ref)
  ∧ ∀ k u, f_uploads (p_fleet s') !! k = Some u →
      ∃ v, f_uploads (p_fleet s) !! k = Some (mkUpload (up_digest u) (up_size u) v).
Proof.
  unfold verify_object, uploaded. destruct (build_ref b role) as [ref|].
  2:{ intros [= <-]. split_and!; [done|done|]. intros k [d z v] ?. by exists v. }
  destruct (f_uploads (p_fleet s) !! (id, role)) as [u|] eqn:Hu; [|done].
  case_match eqn:Hm; [done|]. destruct (StoreVerify _ _) as [[]|] eqn:Hv; [|done]. intros [= <-]. bool_prop.
  destruct u as [d z v]. simpl in *. subst. split_and!.
  - intros ref' [= <-]. simpl. by rewrite lookup_insert_eq.
  - intros r ref' [? Hr]. split; [done|]. simpl. destruct (decide ((id, role) = (id, r))) as [[= ->]|].
    + rewrite lookup_insert_eq. rewrite Hu in Hr. injection Hr as Hr1 Hr2 _. by rewrite Hr1, Hr2.
    + by rewrite lookup_insert_ne.
  - intros k u. simpl. destruct (decide ((id, role) = k)) as [<-|].
    + rewrite lookup_insert_eq. intros [= <-]. by exists v.
    + rewrite lookup_insert_ne by done. destruct u as [d' z' v']. by exists v'.
Qed.

Lemma verifyBuildObjects_ok id b order s s' : verifyBuildObjects id b order s = (s', Ok tt) →
  (∀ role ref, role ∈ order → build_ref b role = Some ref → uploaded s' id role ref)
  ∧ (∀ r ref, uploaded s id r ref → uploaded s' id r ref)
  ∧ ∀ k u, f_uploads (p_fleet s') !! k = Some u →
      ∃ v, f_uploads (p_fleet s) !! k = Some (mkUpload (up_digest u) (up_size u) v).
Proof.
  revert s. induction order as [|role order IH]; intros s Hv; simpl in Hv.
  { simplify_eq. split_and!; [set_solver|done|]. intros k [d z v] ?. by exists v. }
  destruct (verify_object id b s role) as [s1 [[]|]] eqn:Ho; [|done].
  apply verify_object_ok in Ho as (Ho & Hk & Hb). apply IH in Hv as (Hv & Hk' & Hb'). split_and!; [|by eauto|].
  - intros r ref [->|Hr]%elem_of_cons Href; eauto.
  - intros k u Hu. destruct (Hb' _ _ Hu) as (v & Hv'). by destruct (Hb _ _ Hv') as (v' & ?); exists v'.
Qed.

Lemma insert_blob_lookup s k row d : is_Some (i_blobs (p_intake s) !! d) ∨ d = k →
  is_Some (i_blobs (p_intake (insert_blob s k row)) !! d).
Proof.
  unfold insert_blob. intros Hd. destruct (i_blobs (p_intake s) !! k) eqn:Hk.
  - destruct Hd as [?| ->]; [done|]. by rewrite Hk.
  - simpl. destruct (decide (d = k)) as [->|]; [by rewrite lookup_insert_eq|].
    rewrite lookup_insert_ne by done. by destruct Hd.
Qed.

Lemma commit_refs_blobs id owner l s s' : foldM (commit_ref id owner) s l = Ok s' →
  ∀ d, (∃ ref media, (Some ref, media) ∈ l ∧ objectRef_Digest ref = d) ∨ is_Some (i_blobs (p_intake s) !! d) →
    is_Some (i_blobs (p_intake s') !! d).
Proof.
  revert s. induction l as [|[[ref|] media] l IH]; intros s Hf d Hd; simpl in Hf.
  - simplify_eq. destruct Hd as [(? & ? & Hin & _)|]; [set_solver|done].
  - ok_step Hf. unfold commit_ref in E. destruct (verified_upload s id ref) as [[]|]; simplify_eq.
    apply (IH _ Hf). destruct Hd as [(r & m & Hin & <-)|Hd].
    + apply elem_of_cons in Hin as [[= -> ->]|Hin]; [right; apply insert_blob_lookup; by right|left; eauto].
    + right. apply insert_blob_lookup. by left.
  - simplify_eq. apply (IH _ Hf). destruct Hd as [(r & m & Hin & <-)|Hd]; [|by right].
    left. exists r, m. split; [|done]. apply elem_of_cons in Hin as [?|?]; [done|done].
Qed.

Lemma record_conformance_blobs sv s job b owner pf version policy status runs groups s' :
  record_conformance sv s job b owner pf version policy status runs groups = Ok s' →
  i_blobs (p_intake s') = i_blobs (p_intake s).
Proof.
  unfold record_conformance. cbn [ID]. intros Hr. ok_step Hr. ok_step Hr. ok_step Hr.
  apply (inj Ok) in Hr. by subst s'.
Qed.

Lemma commit_preflight_blobs sv s job run b digest version owner pf s' :
  commit_preflight sv s job run b digest version owner pf = Ok s' →
  i_blobs (p_intake s') = i_blobs (p_intake s).
Proof.
  unfold commit_preflight. intros Hc. ok_step Hc. case_match; [|by eapply record_conformance_blobs].
  case_match; [ok_step Hc; by eapply record_conformance_blobs|]. cbn [ID] in Hc. ok_step Hc.
  apply (inj Ok) in Hc. subst s'. unfold insert_job in E. ok_step E. by simplify_eq.
Qed.

Lemma build_ref_output b role ref : build_ref b role = Some ref →
  role ∈ object_roles ∧ ∃ media, (Some ref, media) ∈ build_outputs b.
Proof.
  unfold build_ref, object_roles, build_outputs. intros Href.
  repeat (case_match; [bool_prop; split; [set_solver|eexists; rewrite <-Href, !elem_of_cons; by eauto 10]|]).
  done.
Qed.

Lemma commitBuild_blobs sv s job run digest version b s' :
  commitBuild sv s job run digest version = Ok s' → runReceipt_BuildReport run = Some b →
  buildReport_Passed b = true → runReceipt_Outcome run = "valid" →
  ∀ role ref, build_ref b role = Some ref → is_Some (i_blobs (p_intake s') !! objectRef_Digest ref).
Proof.
  intros Hc Hb Hp Hv role ref Href. unfold commitBuild in Hc. rewrite Hb in Hc. ok_step Hc.
  rewrite Hp, Hv in Hc. cbn [negb orb] in Hc. rewrite String.eqb_refl in Hc. cbn [negb] in Hc.
  ok_step Hc. ok_step Hc. ok_step Hc. ok_step Hc.
  assert (is_Some (i_blobs (p_intake r3) !! objectRef_Digest ref)) as Hblob.
  { eapply commit_refs_blobs; [done|]. left. apply build_ref_output in Href as (_ & media & ?).
    by exists ref, media. }
  case_match.
  - destruct (j_intent r), (buildReport_SubmissionDisk b); try done. apply (inj Ok) in Hc. by subst s'.
  - destruct (j_preflight r); [|done]. by rewrite (commit_preflight_blobs _ _ _ _ _ _ _ _ _ _ Hc).
Qed.

Lemma commit_run_build sv s run digest token host s' final b j :
  commit_run sv s run digest token host = Ok (s', Accepted final) →
  rjobs s !! runReceipt_JobID run = Some j → isBuild (j_payload j) = true →
  runReceipt_BuildReport run = Some b → buildReport_Passed b = true → runReceipt_Outcome run = "valid" →
  ∀ role ref, build_ref b role = Some ref → is_Some (i_blobs (p_intake s') !! objectRef_Digest ref).
Proof.
  intros Hc Hj Hbuild Hb Hp Hv. unfold commit_run in Hc. rewrite Hj in Hc. ok_step Hc. ok_step Hc.
  destruct (j_status j ==s "complete"); [ok_steps Hc; by simplify_eq|].
  ok_step Hc. ok_step Hc. ok_step Hc. rewrite Hv in Hc. simpl in Hc. ok_step Hc. ok_step Hc.
  rewrite Hbuild in Hc. ok_step Hc. simplify_eq. by eapply commitBuild_blobs.
Qed.

(** C33: when a passed build is accepted, every output its report names (validator,
    challenge, suite and submission disks, the bill of materials) had been declared by
    this job with that digest and size, was verified against the object store in this
    request, and is registered as an artifact. *)
Theorem accepted_build_outputs_verified sv order s id token envelope host run digest b j s' final :
  open_run sv host id envelope = Ok (run, digest) → runReceipt_BuildReport run = Some b →
  buildReport_Passed b = true → runReceipt_Outcome run = "valid" →
  rjobs s !! id = Some j → isBuild (j_payload j) = true → order ≡ₚ object_roles →
  runnerResult sv order s id token envelope host = (s', Ok (Accepted final)) →
  ∀ role ref, build_ref b role = Some ref →
    StoreVerify (objectRef_Digest ref) (objectRef_Size ref) = Ok tt
    ∧ (∃ v, f_uploads (p_fleet s) !! (id, role) = Some (mkUpload (objectRef_Digest ref) (objectRef_Size ref) v))
    ∧ is_Some (i_blobs (p_intake s') !! objectRef_Digest ref).
Proof.
  intros Ho Hb Hp Hv Hj Hbuild Hord Hr role ref Href. unfold runnerResult in Hr. rewrite Ho, Hb in Hr.
  unfold open_run in Ho. ok_steps Ho. simplify_eq. bool_prop.
  destruct (verifyBuildObjects (runReceipt_JobID run) b order s) as [s1 [[]|]] eqn:Hver; [|done].
  destruct (commit_run sv s1 run digest token host) as [[s2 rs]|] eqn:Hc; simplify_eq.
  apply verifyBuildObjects_ok in Hver as Hok. destruct Hok as (Hu & _ & Hback).
  assert (role ∈ order) as Hin.
  { rewrite Hord. by apply build_ref_output in Href as [? _]. }
  destruct (Hu _ _ Hin Href) as [Hsv Hup]. split_and!; [done| |].
  - by destruct (Hback _ _ Hup) as (v & ?); exists v.
  - apply verifyBuildObjects_advance in Hver as (Hjobs & _). rewrite <-Hjobs in Hj.
    by eapply commit_run_build.
Qed.
End Outputs.
