(* ===== verification/HistoryProofs.v ===== *)
(** Key histories only grow: revocations are permanent, delegations are never
    dropped or rewritten, past witness membership is immutable. *)

From S2P Require Import Prelude Regex GoLib Numbers Types Paths Validate Sha256 GoJson Canonical.
From S2P Require Import Documents Signatures Checkpoint History.
Open Scope Z_scope.

Section HistoryProofs.
Context `{Crypto} `{!Pki} `{JsonCanonicalizer} `{JsonType History} `{JsonType Delegation}.

Lemma delegation_step_inv issuedAt st d st' :
  delegation_step issuedAt st d = Ok st' →
  ∃ key own, ParsePublicKey (delegation_PublicKeyPEM d) = Ok key ∧
    delegation_KeyID d ∉ st.1.1 ∧ fingerprint_of key ∉ st.1.2 ∧
    foldM role_step ∅ (delegation_Roles d) = Ok own ∧
    ("audit-witness" ∈ own → lenl (delegation_Roles d) = 1) ∧
    st' = ({[delegation_KeyID d]} ∪ st.1.1, {[fingerprint_of key]} ∪ st.1.2,
           <[delegation_KeyID d := own]> st.2).
Proof.
  destruct st as [[keys fps] roles]. unfold delegation_step. intros Hd. ok_step Hd.
  do 2 ok_step Hd. ok_step Hd. do 2 ok_step Hd. bool_prop. injection Hd as <-. exists r, r0.
  split_and!; try done. intros Hin. rewrite bool_decide_eq_true_2 in * by done. simpl in *.
  by bool_prop.
Qed.

Lemma delegations_distinct issuedAt l st st' :
  foldM (delegation_step issuedAt) st l = Ok st' → NoDup (delegation_KeyID <$> l).
Proof.
  intros Hf.
  destruct (foldM_distinct (delegation_step issuedAt) (λ st, st.1.1) delegation_KeyID st l st')
    as [? _]; try done.
  intros s d s' (key & own & _ & ? & _ & _ & _ & ->)%delegation_step_inv. done.
Qed.

(** Everything [VerifyHistory] has checked of the history it returns. *)
Lemma VerifyHistory_inv envelope rootID root previous now h :
  VerifyHistory envelope rootID root previous now = Ok h →
  ∃ fingerprint keys fps roles ops,
    Fingerprint (Some root) = Ok fingerprint ∧ lenl (history_Witnesses h) = 3 ∧
    check_link h previous = Ok tt ∧
    foldM (delegation_step (history_IssuedAt h)) (∅, {[fingerprint]}, ∅) (history_Delegations h)
      = Ok (keys, fps, roles) ∧
    foldM (witness_step roles) (∅, ∅) (history_Witnesses h) = Ok ops ∧
    match previous with
    | None => history_priorWitnesses h = []
    | Some p =>
        for_each (check_retained (foldl (λ m d, <[delegation_KeyID d := d]> m) ∅
          (history_Delegations h))) (history_Delegations p) = Ok tt ∧
        history_priorWitnesses h =
          mkWitnessMembership (history_IssuedAt p) (history_Witnesses p)
            (history_PreviousDigest p ==s Genesis) :: history_priorWitnesses p
    end.
Proof.
  unfold VerifyHistory. intros Hv. do 6 ok_step Hv. destruct r3 as [[keys fps] roles].
  ok_step Hv. bool_prop. destruct r2. destruct previous as [p|].
  - ok_step Hv. injection Hv as <-. destruct r2. exists r1, keys, fps, roles, r3. by split_and!.
  - injection Hv as <-. exists r1, keys, fps, roles, r3. by split_and!.
Qed.

(** The map built from delegations with distinct identifiers. *)
Lemma current_lookup l (m : gmap string Delegation) d :
  NoDup (delegation_KeyID <$> l) →
  foldl (λ m d, <[delegation_KeyID d := d]> m) m l !! delegation_KeyID d = Some d →
  d ∈ l ∨ m !! delegation_KeyID d = Some d.
Proof.
  revert m. induction l as [|x l IH]; intros m Hnd Hl; [by right|]. cbn [foldl] in Hl.
  apply NoDup_cons in Hnd as [_ Hnd].
  apply IH in Hl as [Hin|Hl]; [left; by right| |done].
  destruct (decide (delegation_KeyID x = delegation_KeyID d)) as [E|E].
  - rewrite E, lookup_insert_eq in Hl. injection Hl as ->. left. by left.
  - rewrite lookup_insert_ne in Hl by done. by right.
Qed.
Lemma current_key l (m : gmap string Delegation) id d :
  foldl (λ m d, <[delegation_KeyID d := d]> m) m l !! id = Some d →
  (∀ x, m !! id = Some x → delegation_KeyID x = id) → delegation_KeyID d = id.
Proof.
  revert m. induction l as [|x l IH]; intros m Hl Hm; [by apply Hm|]. apply IH in Hl; [done|].
  intros y Hy. destruct (decide (delegation_KeyID x = id)) as [<-|E].
  - rewrite lookup_insert_eq in Hy. by injection Hy as <-.
  - rewrite lookup_insert_ne in Hy by done. by apply Hm.
Qed.

(** ** Succession *)

Definition succeeds (rootID : string) (root : PublicKey) (h h' : History) : Prop :=
  ∃ envelope now, VerifyHistory envelope rootID root (Some h) now = Ok h'.

(** [d] carries [old] on: same identifier and content, revocation kept. *)
Definition retains (old d : Delegation) : Prop :=
  delegation_KeyID d = delegation_KeyID old ∧
  mustDigest (set_revoked d None) = mustDigest (set_revoked old None) ∧
  ∀ r, delegation_RevokedAt old = Some r →
    ∃ r', delegation_RevokedAt d = Some r' ∧ t_ns r' = t_ns r.

Lemma retains_refl d : retains d d.
Proof. split_and!; eauto. Qed.
Lemma retains_trans a b c : retains a b → retains b c → retains a c.
Proof.
  intros (K1 & D1 & R1) (K2 & D2 & R2). split_and!; try congruence.
  intros r (r1 & Hr1 & E1)%R1. destruct (R2 r1 Hr1) as (r2 & ? & ?). exists r2. split; [done|lia].
Qed.

Lemma succeeds_retains rootID root h h' :
  succeeds rootID root h h' →
  NoDup (delegation_KeyID <$> history_Delegations h') ∧
  ∀ old, old ∈ history_Delegations h → ∃ d, d ∈ history_Delegations h' ∧ retains old d.
Proof.
  intros (envelope & now & (f & keys & fps & roles & ops & _ & _ & _ & Hd & _ & Hr & _)%VerifyHistory_inv).
  pose proof (delegations_distinct _ _ _ _ Hd) as Hnd. split; [done|]. intros old Hold.
  apply for_each_ok in Hr. rewrite Forall_forall in Hr. specialize (Hr old Hold).
  unfold check_retained in Hr. destruct (foldl _ _ _ !! _) as [d|] eqn:El; [|done].
  assert (delegation_KeyID d = delegation_KeyID old) as Hk by (eapply current_key; [exact El|done]).
  ok_step Hr. bool_prop. exists d. split.
  - rewrite <-Hk in El. apply current_lookup in El as [?|?]; [done|done|done].
  - split_and!; try done. intros r Hr'. rewrite Hr' in Hr.
    destruct (delegation_RevokedAt d) as [r'|]; [|done]. exists r'. split; [done|].
    unfold TimeEqual in Hr. destruct (Z.eqb_spec (t_ns r) (t_ns r')); [lia|done].
Qed.

Lemma chain_retains rootID root h h' :
  rtc (succeeds rootID root) h h' →
  ∀ old, old ∈ history_Delegations h → ∃ d, d ∈ history_Delegations h' ∧ retains old d.
Proof.
  induction 1 as [h|h h1 h' Hs _ IH]; intros old Hold; [exists old; by split; [|apply retains_refl]|].
  destruct (succeeds_retains _ _ _ _ Hs) as [_ Hr]. destruct (Hr old Hold) as (d & Hd & R).
  destruct (IH d Hd) as (d' & ? & ?). exists d'. split; [done|by eapply retains_trans].
Qed.

(** ** Keys in force *)

Lemma keys_fold role at_ l (m : gmap string PublicKey) id :
  foldl (λ keys d,
    if delegation_active d at_ && existsb (λ r, r ==s role) (delegation_Roles d) then
      match ParsePublicKey (delegation_PublicKeyPEM d) with
      | Ok key => <[delegation_KeyID d := key]> keys
      | Err _ => keys
      end
    else keys) m l !! id = None ↔
  m !! id = None ∧ ∀ d, d ∈ l → delegation_KeyID d = id → delegation_active d at_ = true →
    role ∈ delegation_Roles d → is_err (ParsePublicKey (delegation_PublicKeyPEM d)) = true.
Proof.
  revert m. induction l as [|x l IH]; intros m; cbn [foldl]; [set_solver|]. rewrite IH.
  setoid_rewrite elem_of_cons.
  destruct (delegation_active x at_) eqn:Ea; cbn [andb];
    [destruct (existsb (λ r, r ==s role) (delegation_Roles x)) eqn:Er|].
  - apply existsb_exists in Er as (r & Hin%list_elem_of_In & ->%String.eqb_eq).
    destruct (ParsePublicKey (delegation_PublicKeyPEM x)) as [key|e] eqn:Ep.
    + destruct (decide (delegation_KeyID x = id)) as [<-|Hne].
      * rewrite lookup_insert_eq. split; [naive_solver|]. intros [_ Hall].
        specialize (Hall x (or_introl eq_refl) eq_refl Ea Hin). by rewrite Ep in Hall.
      * rewrite lookup_insert_ne by done. naive_solver.
    + split; [|naive_solver]. intros [? Hall]. split; [done|]. intros d [->|Hd]; [by rewrite Ep|by apply Hall].
  - split; [|naive_solver]. intros [? Hall]. split; [done|]. intros d [->|Hd] Hi Ha Hin; [|by apply Hall].
    exfalso. assert (existsb (λ r, r ==s role) (delegation_Roles x) = true); [|congruence].
    apply existsb_exists. exists role. rewrite <-list_elem_of_In, String.eqb_refl. done.
  - split; [|naive_solver]. intros [? Hall]. split; [done|]. intros d [->|Hd]; [congruence|by apply Hall].
Qed.

Lemma KeysAt_None h role at_ id :
  KeysAt h role at_ !! id = None ↔
  ∀ d, d ∈ history_Delegations h → delegation_KeyID d = id → delegation_active d at_ = true →
    role ∈ delegation_Roles d → is_err (ParsePublicKey (delegation_PublicKeyPEM d)) = true.
Proof. unfold KeysAt. rewrite keys_fold, lookup_empty. naive_solver. Qed.

(** Revocation is permanent.  Once a verified key history revokes a delegation
    as of instant [r], no history that follows it through any number of verified
    rotations makes that key identifier valid at [r] or later, in any role. *)
Theorem revocation_permanent envelope rootID root previous now h h' d r role at_ :
  VerifyHistory envelope rootID root previous now = Ok h →
  rtc (succeeds rootID root) h h' →
  d ∈ history_Delegations h → delegation_RevokedAt d = Some r → t_ns r ≤ t_ns at_ →
  KeysAt h' role at_ !! delegation_KeyID d = None.
Proof.
  intros Hv Hchain Hd Hr Hat.
  assert (NoDup (delegation_KeyID <$> history_Delegations h')) as Hnd.
  { apply rtc_inv_r in Hchain as [<-|(h1 & _ & Hs)]; [|by apply succeeds_retains in Hs as [? _]].
    apply VerifyHistory_inv in Hv as (f & keys & fps & roles & ops & _ & _ & _ & Hf & _).
    by eapply delegations_distinct. }
  destruct (chain_retains _ _ _ _ Hchain d Hd) as (d' & Hd' & Hk & _ & Hrev).
  destruct (Hrev r Hr) as (r' & Hr' & Er'). apply KeysAt_None. intros x Hx Hxk Ha _. exfalso.
  assert (x = d') as ->.
  { apply list_elem_of_lookup in Hx as [i Hi], Hd' as [j Hj].
    assert (i = j) as <-; [|congruence].
    apply (NoDup_lookup (delegation_KeyID <$> history_Delegations h') i j (delegation_KeyID d));
      [done|..]; rewrite list_lookup_fmap; [rewrite Hi|rewrite Hj]; simpl; congruence. }
  unfold delegation_active in Ha. rewrite Hr' in Ha. bool_prop. unfold Before in *. bool_prop. lia.
Qed.

(** A verified rotation cannot rewrite the past: at every instant before the new
    history was issued, the witness membership is the one the previous history
    gave. *)
Theorem membership_immutable envelope rootID root h now h' at_ :
  VerifyHistory envelope rootID root (Some h) now = Ok h' →
  Before at_ (history_IssuedAt h') = true →
  WitnessOperatorsAt h' at_ = WitnessOperatorsAt h at_.
Proof.
  intros (f & keys & fps & roles & ops & _ & _ & _ & _ & _ & _ & Hp)%VerifyHistory_inv Hb.
  unfold WitnessOperatorsAt. rewrite Hp. cbn [epoch_at]. by rewrite Hb.
Qed.

(** ** Registered witnesses *)

Lemma roles_fold l own : foldM role_step ∅ l = Ok own → own = list_to_set l.
Proof.
  intros Hf. destruct (foldM_distinct role_step id id ∅ l own) as (_ & _ & Hs); [|done|].
  - intros s x s' Hs. unfold role_step in Hs. do 2 ok_step Hs. bool_prop. by simplify_eq.
  - unfold id in Hs. rewrite list_fmap_id, union_empty_r_L in Hs. exact Hs.
Qed.

Lemma roles_registered issuedAt l st keys fps roles id own :
  foldM (delegation_step issuedAt) st l = Ok (keys, fps, roles) → roles !! id = Some own →
  st.2 !! id = Some own ∨ ∃ d, d ∈ l ∧ delegation_KeyID d = id ∧
    own = list_to_set (delegation_Roles d) ∧
    ("audit-witness" ∈ own → lenl (delegation_Roles d) = 1).
Proof.
  revert st. induction l as [|d l IH]; intros st Hf Hl; cbn [foldM] in Hf.
  { injection Hf as ->. by left. }
  ok_step Hf. apply delegation_step_inv in E as (key & own' & _ & _ & _ & Hown & Hw & ->).
  apply (IH _ Hf) in Hl as [Hl|(d' & ? & ?)]; [|right; exists d'; by split; [right|]].
  cbn [snd] in Hl. destruct (decide (delegation_KeyID d = id)) as [E|E].
  - rewrite E, lookup_insert_eq in Hl. injection Hl as ->. right. exists d.
    split_and!; [left|done|by apply roles_fold|done].
  - rewrite lookup_insert_ne in Hl by done. by left.
Qed.

(** The fingerprint of a delegation's key. *)
Definition delegation_fingerprint (d : Delegation) : string :=
  match ParsePublicKey (delegation_PublicKeyPEM d) with
  | Ok key => fingerprint_of key
  | Err _ => ""
  end.

(** A verified history registers three witnesses that are independent on
    paper: distinct operators, distinct key identifiers, each a delegation whose
    only role is the witness role; and all delegated keys are different keys, none
    of them the root's. *)
Theorem VerifyHistory_witnesses envelope rootID root previous now h :
  VerifyHistory envelope rootID root previous now = Ok h →
  length (history_Witnesses h) = 3%nat ∧
  NoDup (witnessIdentity_Operator <$> history_Witnesses h) ∧
  NoDup (witnessIdentity_KeyID <$> history_Witnesses h) ∧
  (∀ w, w ∈ history_Witnesses h → ∃ d, d ∈ history_Delegations h ∧
     delegation_KeyID d = witnessIdentity_KeyID w ∧ delegation_Roles d = ["audit-witness"]) ∧
  NoDup (delegation_fingerprint <$> history_Delegations h) ∧
  ∀ d, d ∈ history_Delegations h → delegation_fingerprint d ≠ fingerprint_of root.
Proof.
  intros (f & keys & fps & roles & ops & Hroot & Hlen & _ & Hd & Hw & _)%VerifyHistory_inv.
  assert (∀ st w st', witness_step roles st w = Ok st' →
    witnessIdentity_Operator w ∉ st.1 ∧ st'.1 = {[witnessIdentity_Operator w]} ∪ st.1 ∧
    witnessIdentity_KeyID w ∉ st.2 ∧ st'.2 = {[witnessIdentity_KeyID w]} ∪ st.2 ∧
    has_role roles (witnessIdentity_KeyID w) "audit-witness" = true) as Hstep.
  { intros [o i] w st' Hs. unfold witness_step in Hs. ok_step Hs. bool_prop. by simplify_eq. }
  assert (∀ st d st', delegation_step (history_IssuedAt h) st d = Ok st' →
    delegation_fingerprint d ∉ st.1.2 ∧ st'.1.2 = {[delegation_fingerprint d]} ∪ st.1.2) as Hfp.
  { intros st d st' (key & own & Hk & _ & Hn & _ & _ & ->)%delegation_step_inv.
    unfold delegation_fingerprint. by rewrite Hk. }
  destruct (foldM_distinct _ (λ st, st.1.2) delegation_fingerprint _ _ _ Hfp Hd) as (Hnd & Hfresh & _).
  split_and!; [unfold lenl in Hlen; lia| | | |done|].
  - by destruct (foldM_distinct (witness_step roles) fst witnessIdentity_Operator _ _ _
      ltac:(intros; edestruct Hstep as (? & ? & _); eauto) Hw) as [? _].
  - by destruct (foldM_distinct (witness_step roles) snd witnessIdentity_KeyID _ _ _
      ltac:(intros; edestruct Hstep as (_ & _ & ? & ? & _); eauto) Hw) as [? _].
  - intros w Hin. assert (has_role roles (witnessIdentity_KeyID w) "audit-witness" = true) as Hr.
    { eapply (foldM_Forall _ (λ w, has_role roles (witnessIdentity_KeyID w) "audit-witness" = true))
        in Hw; [|by intros ? ? ? (_ & _ & _ & _ & ?)%Hstep].
      rewrite Forall_forall in Hw. by apply Hw. }
    unfold has_role in Hr. bool_prop. destruct (roles !! _) as [own|] eqn:Er; [|set_solver].
    destruct (roles_registered _ _ _ _ _ _ _ _ Hd Er) as [Habs|(d & Hin' & Hid & -> & Hone)];
      [by cbn [snd] in Habs; rewrite lookup_empty in Habs|].
    exists d. split_and!; try done. specialize (Hone Hr). simpl in Hr.
    apply elem_of_list_to_set in Hr. unfold lenl in Hone.
    destruct (delegation_Roles d) as [|x [|]]; simpl in Hone; try lia.
    by apply list_elem_of_singleton in Hr as <-.
  - intros d Hin Heq. apply (Hfresh d Hin). cbn. apply elem_of_singleton. rewrite Heq.
    unfold fingerprint_of. by rewrite Hroot.
Qed.
End HistoryProofs.

Section ReleaseProofs.
Context `{Crypto} `{JsonCanonicalizer} `{UrlLib} `{JsonType ReleaseAttestation}.

(** An accepted release attestation is bound to this source commit, key history
    and time window, and carries exactly the six required pieces of evidence, each
    once, with a digest, an assessor and a completion no later than the
    attestation. *)
Theorem VerifyRelease_complete envelope rootID root historyDigest sourceCommit now r :
  VerifyRelease envelope rootID root historyDigest sourceCommit now = Ok r →
  releaseAttestation_SourceCommit r = sourceCommit ∧
  releaseAttestation_KeyHistoryDigest r = historyDigest ∧
  t_ns (releaseAttestation_IssuedAt r) ≤ t_ns now < t_ns (releaseAttestation_ExpiresAt r) ∧
  releaseEvidence_Kind <$> releaseAttestation_Evidence r ≡ₚ required_evidence ∧
  Forall (λ ev, validDigest (releaseEvidence_Digest ev) false = true ∧
    releaseEvidence_Assessor ev ≠ "" ∧
    t_ns (releaseEvidence_CompletedAt ev) ≤ t_ns (releaseAttestation_IssuedAt r))
    (releaseAttestation_Evidence r).
Proof.
  unfold VerifyRelease. intros Hv. do 5 ok_step Hv. injection Hv as <-. bool_prop.
  assert (∀ s ev s', evidence_step (releaseAttestation_IssuedAt r1) s ev = Ok s' →
    (releaseEvidence_Kind ev ∉ s ∧ s' = {[releaseEvidence_Kind ev]} ∪ s) ∧
    releaseEvidence_Kind ev ∈ required_evidence ∧
    validDigest (releaseEvidence_Digest ev) false = true ∧ releaseEvidence_Assessor ev ≠ "" ∧
    t_ns (releaseEvidence_CompletedAt ev) ≤ t_ns (releaseAttestation_IssuedAt r1)) as Hstep.
  { intros s ev s' Hs. unfold evidence_step in Hs. do 2 ok_step Hs. destruct r as [[scheme host] user].
    ok_step Hs. bool_prop. injection Hs as <-. unfold After in *. bool_prop. split_and!; try done.
    match goal with Hx : existsb _ required_evidence = true |- _ =>
      apply existsb_exists in Hx as (k & Hk & ->%String.eqb_eq) end. by apply list_elem_of_In. }
  destruct (foldM_distinct (evidence_step (releaseAttestation_IssuedAt r1)) id releaseEvidence_Kind
    _ _ _ ltac:(by intros ? ? ? [? _]%Hstep) E1) as (Hnd & _ & Hset). unfold id in Hset.
  rewrite union_empty_r_L in Hset. unfold After, Before in *. bool_prop. split_and!; try done.
  - apply NoDup_Permutation; [done| |].
    { unfold required_evidence. repeat (constructor; [set_solver|]). constructor. }
    intros k. split.
    + intros (ev & -> & Hev)%list_elem_of_fmap.
      eapply (foldM_Forall _ (λ ev, releaseEvidence_Kind ev ∈ required_evidence)) in E1;
        [|by intros ? ? ? (_ & ? & _)%Hstep].
      rewrite Forall_forall in E1. by apply E1.
    + intros Hk. match goal with Hf : forallb _ required_evidence = true |- _ =>
        rewrite forallb_forall in Hf; specialize (Hf k (proj1 (list_elem_of_In _ _) Hk)) end.
      bool_prop. rewrite Hset in *.
      match goal with Hx : k ∈ list_to_set _ |- _ => by apply elem_of_list_to_set in Hx end.
  - eapply foldM_Forall in E1; [exact E1|]. by intros ? ? ? (_ & _ & ?)%Hstep.
Qed.
End ReleaseProofs.

(** Intake is open exactly within one hour after the last verified quorum (and
    not before one ever existed), tolerating a quorum time at most five minutes in
    the future; saturation of the time difference never opens it. *)
Theorem IntakeAllowed_exact lastQuorum now :
  IntakeAllowed lastQuorum now = true ↔
  t_ns lastQuorum ≠ 0 ∧ t_ns now - Hour ≤ t_ns lastQuorum ≤ t_ns now + 5 * Minute.
Proof.
  unfold IntakeAllowed, IsZero, After, AddNs, Sub, int64_max.
  rewrite !andb_true_iff, !negb_true_iff, Z.eqb_neq, Z.ltb_ge, Z.leb_le. cbn [t_ns].
  unfold Hour, Minute, Second. lia.
Qed.
