(* ===== verification/Witness.v ===== *)
(** The witness: internal/audit/witness.go.  A witness keeps an append-only journal
    and releases a signature only after the record that pins its predecessor is on
    stable storage.  The journal file is modelled as the bytes on stable storage
    plus the written bytes that a power loss may still lose. *)

From S2P Require Import Prelude Regex GoLib Numbers Types Paths Sha256 GoJson Canonical Documents.
From S2P Require Import Signatures Checkpoint History.
From Stdlib Require Import Ascii.
Open Scope Z_scope.

Definition MaxBundleBytes : Z := Z.shiftl 8 20.

Record witnessedRecord := mkWitnessedRecord {
  wr_Bundle : Bundle;
  wr_Signature : option Envelope;
  wr_Historical : bool
}.

(** The journal file. *)
Record disk := mkDisk { dk_durable : list ascii; dk_pending : list ascii }.
Definition visible (d : disk) : list ascii := dk_durable d ++ dk_pending d.
Definition synced (d : disk) : disk := mkDisk (visible d) [].

(** Outcomes of the system calls of one operation. *)
Record open_env := mkOpenEnv {
  oe_mkdir : bool;       (* MkdirAll succeeded *)
  oe_private : bool;     (* absent, or a regular file without group/other access *)
  oe_open : bool;        (* OpenFile succeeded *)
  oe_lock : bool;        (* the exclusive lock was taken *)
  oe_sync : bool;        (* the journal was synced *)
  oe_dirs : bool         (* every directory up to the root was synced *)
}.
Record write_env := mkWriteEnv {
  we_written : nat;      (* bytes the write call accepted *)
  we_ok : bool;          (* it reported no error *)
  we_sync : bool         (* the sync reported no error *)
}.

Section Witness.
Context `{Crypto} `{!Pki} `{JsonCanonicalizer}.
Context `{JsonType History} `{JsonType Delegation} `{JsonType Checkpoint} `{JsonType witnessedRecord}.

Record Witness := mkWitness {
  w_open : bool;
  w_keyID : string;
  w_key : Signer;
  w_history : History;
  w_last : option Checkpoint;
  w_lastRecord : option witnessedRecord;
  w_poisoned : bool
}.

Definition set_last (w : Witness) (cp : Checkpoint) (r : witnessedRecord) : Witness :=
  mkWitness (w_open w) (w_keyID w) (w_key w) (w_history w) (Some cp) (Some r) (w_poisoned w).
Definition poison (w : Witness) : Witness :=
  mkWitness (w_open w) (w_keyID w) (w_key w) (w_history w) (w_last w) (w_lastRecord w) true.

(** [Close] *)
Definition Close (w : Witness) : Witness :=
  mkWitness false (w_keyID w) (w_key w) (w_history w) (w_last w) (w_lastRecord w) (w_poisoned w).

Definition validate (h : History) (last : option Checkpoint) (bundle : Bundle) (now : Time)
    : result Checkpoint :=
  match DecodeString (envelope_Payload (bundle_Checkpoint bundle)) with
  | None => Err "illegal base64 data"
  | Some payload =>
      let! untrusted := @DecodeStrict _ Checkpoint _ payload in
      let! cp := VerifyCheckpoint (bundle_Checkpoint bundle)
        (KeysAt h "audit-checkpoint" (checkpoint_IssuedAt untrusted)) (bundle_Events bundle) last now in
      if negb (bool_decide (is_Some last))
         && (mustDigest cp !=s history_GenesisCheckpointDigest h)
      then Err "first checkpoint does not match externally pinned genesis" else Ok cp
  end.

(** * Opening the journal *)

(** [bufio.ScanLines] drops one trailing carriage return. *)
Definition drop_cr (l : list ascii) : list ascii :=
  match rev l with
  | c :: r => if Ascii.eqb c "013" then rev r else l
  | [] => []
  end.

(** The lines of a newline-terminated file. *)
Definition journal_lines (l : list ascii) : list (list ascii) :=
  removelast (split_list "010" l).

(** The checks of one journal record against the previous checkpoint. *)
Definition check_record (h : History) (last : option Checkpoint) (record : witnessedRecord)
    (now : Time) : result Checkpoint :=
  let! cp := validate h last (wr_Bundle record) now in
  if wr_Historical record then
    if bool_decide (is_Some (wr_Signature record))
    then Err "historical observation cannot claim a witness signature" else Ok cp
  else
    match wr_Signature record with
    | Some ({| envelope_Signatures := [sig] |} as signature) =>
        let! payload := Verify signature (KeysAt h "audit-witness" (checkpoint_IssuedAt cp))
          or "witness journal signature does not match checkpoint" in
        if (default "" (WitnessOperatorsAt h (checkpoint_IssuedAt cp) !! signature_KeyID sig) ==s "")
           || (Hash payload !=s mustDigest cp)
           || (envelope_Payload signature !=s envelope_Payload (bundle_Checkpoint (wr_Bundle record)))
        then Err "witness journal signature does not match checkpoint" else Ok cp
    | _ => Err "witness journal signature missing"
    end.

(** One line of the journal; the state is [last] and [lastRecord]. *)
Definition load_line (h : History) (now : Time)
    (st : option Checkpoint * option witnessedRecord) (line : list ascii)
    : result (option Checkpoint * option witnessedRecord) :=
  if lenl line + 1 >? MaxBundleBytes then Err "bufio.Scanner: token too long" else
  let! record := DecodeStrictBounded (string_of (drop_cr line)) MaxBundleBytes
    or "invalid witness journal record" in
  let! cp := check_record h st.1 record now in
  Ok (Some cp, Some record).

Definition tail_ok (l : list ascii) : bool :=
  match rev l with c :: _ => Ascii.eqb c "010" | [] => true end.

Definition openWitness (d : disk) (env : open_env) (keyID : string) (key : option Signer)
    (h : History) (now : Time) : disk * result Witness :=
  match key with
  | None => (d, Err "witness signing key required")
  | Some key =>
      if default "" (WitnessOperatorsAt h now !! keyID) ==s ""
      then (d, Err "active registered witness identity required") else
      match Fingerprint (KeysAt h "audit-witness" now !! keyID) with
      | Err _ => (d, Err "active witness delegation required")
      | Ok a =>
          match Fingerprint (Some (Public key)) with
          | Err _ => (d, Err "witness key does not match root delegation")
          | Ok b =>
              if a !=s b then (d, Err "witness key does not match root delegation") else
              if negb (oe_mkdir env) then (d, Err "mkdir") else
              if negb (oe_private env)
              then (d, Err "witness journal must be a private regular file") else
              if negb (oe_open env) then (d, Err "open") else
              if negb (oe_lock env)
              then (d, Err "another witness process owns this journal") else
              if negb (oe_sync env)
              then (d, Err "cannot persist witness journal initialization") else
              let d := synced d in
              if negb (oe_dirs env)
              then (d, Err "cannot persist witness journal directory chain") else
              if negb (tail_ok (visible d))
              then (d, Err "partial witness journal tail") else
              (d, let! st := foldM (load_line h now) (None, None) (journal_lines (visible d)) in
                  Ok (mkWitness true keyID key h st.1 st.2 false))
          end
      end
  end.

(** * Observing a checkpoint *)

Definition encodeWitnessRecord (record : witnessedRecord) : result (list ascii) :=
  let! encoded := Marshal record or "witness journal entry exceeds bound" in
  if len encoded + 1 >? MaxBundleBytes then Err "witness journal entry exceeds bound" else
  Ok (list_of encoded ++ ["010"%char]).

Definition same_event_step (left right : Event) : bool :=
  (event_Sequence left ==s event_Sequence right) && (event_Kind left ==s event_Kind right)
  && (event_PreviousDigest left ==s event_PreviousDigest right)
  && (event_Digest left ==s event_Digest right)
  && match EventDigest (event_PreviousDigest left) (event_Kind left) (event_Payload left) with
     | Ok d => d ==s event_Digest left | Err _ => false end
  && match EventDigest (event_PreviousDigest right) (event_Kind right) (event_Payload right) with
     | Ok d => d ==s event_Digest right | Err _ => false end.

Fixpoint sameAuditEvents (a b : list Event) : bool :=
  match a, b with
  | [], [] => true
  | x :: a, y :: b => same_event_step x y && sameAuditEvents a b
  | _, _ => false
  end.

Definition eligible (w : Witness) (at_ : Time) : bool :=
  bool_decide (is_Some (KeysAt (w_history w) "audit-witness" at_ !! w_keyID w))
  && (default "" (WitnessOperatorsAt (w_history w) at_ !! w_keyID w) !=s "").

(** An exact retry of the last record: the persisted answer. *)
Definition observe_retry (w : Witness) (bundle : Bundle) (last : witnessedRecord)
    : result (option Envelope) :=
  if negb (sameAuditEvents (bundle_Events bundle) (bundle_Events (wr_Bundle last)))
  then Err "checkpoint retry changed its interval events" else
  match w_last w with
  | None => Err "panic: nil pointer dereference"
  | Some cp =>
      let! _ := Verify (bundle_Checkpoint bundle)
        (KeysAt (w_history w) "audit-checkpoint" (checkpoint_IssuedAt cp)) in
      Ok (wr_Signature last)
  end.

(** The record to persist for a new checkpoint, signed unless it is historical. *)
Definition observe_record (w : Witness) (bundle : Bundle) (now : Time)
    : result (Checkpoint * witnessedRecord) :=
  let! cp := validate (w_history w) (w_last w) bundle now in
  if negb (eligible w now) then Err "witness delegation is not active at observation time" else
  let historical := negb (eligible w (checkpoint_IssuedAt cp)) in
  if historical && negb (Before (checkpoint_IssuedAt cp) now)
  then Err "unsigned catch-up is permitted only for historical checkpoints" else
  let bundle := mkBundle (bundle_Checkpoint bundle) [] (bundle_Events bundle) in
  if historical then Ok (cp, mkWitnessedRecord bundle None true) else
  let estimate := mkEnvelope PayloadType (envelope_Payload (bundle_Checkpoint bundle))
    [mkSignature (w_keyID w) (string_of (repeat "A"%char 96))] in
  let! _ := encodeWitnessRecord (mkWitnessedRecord bundle (Some estimate) false) in
  let! signature := Sign (w_keyID w) (Some (w_key w)) cp in
  Ok (cp, mkWitnessedRecord bundle (Some signature) false).

(** A checkpoint that is not a retry: append the record, sync it, and only then
    retain it and release its signature. *)
Definition observe_fresh (d : disk) (w : Witness) (bundle : Bundle) (now : Time) (env : write_env)
    : disk * Witness * result (option Envelope) :=
  match observe_record w bundle now with
  | Err e => (d, w, Err e)
  | Ok (cp, record) =>
      match encodeWitnessRecord record with
      | Err e => (d, w, Err e)
      | Ok encoded =>
          let d := mkDisk (dk_durable d) (dk_pending d ++ take (we_written env) encoded) in
          if negb (we_ok env) || negb (Z.of_nat (we_written env) =? lenl encoded)
          then (d, poison w, Err "durable witness journal write failed; signing paused") else
          if negb (we_sync env)
          then (d, poison w, Err "durable witness journal sync failed; signing paused") else
          (synced d, set_last w cp record, Ok (wr_Signature record))
      end
  end.

(** [Observe]; the empty envelope of the source is [None]. *)
Definition Observe (d : disk) (w : Witness) (bundle : Bundle) (now : Time) (env : write_env)
    : disk * Witness * result (option Envelope) :=
  if w_poisoned w || negb (w_open w)
  then (d, w, Err "witness journal unavailable; signing paused") else
  match w_lastRecord w with
  | Some last =>
      if envelope_Payload (bundle_Checkpoint bundle)
         ==s envelope_Payload (bundle_Checkpoint (wr_Bundle last))
      then (d, w, observe_retry w bundle last) else observe_fresh d w bundle now env
  | None => observe_fresh d w bundle now env
  end.

(** [Latest] *)
Definition Latest (w : Witness) : option Bundle :=
  match w_lastRecord w with
  | None => None
  | Some r =>
      Some (mkBundle (bundle_Checkpoint (wr_Bundle r))
              (match wr_Signature r with Some s => [s] | None => [] end)
              (bundle_Events (wr_Bundle r)))
  end.

(** * The witness over time *)

(** The machine: the journal, the running process, and every signature an
    [Observe] call or [Latest] has handed out. *)
Record machine := mkMachine {
  mc_disk : disk;
  mc_process : option Witness;
  mc_released : list Envelope
}.

Definition released_by (r : result (option Envelope)) : list Envelope :=
  match r with Ok (Some s) => [s] | _ => [] end.

Inductive step : machine → machine → Prop :=
| step_open d rel env keyID key h now :
    step (mkMachine d None rel)
      (mkMachine (openWitness d env keyID key h now).1
         (match (openWitness d env keyID key h now).2 with Ok w => Some w | Err _ => None end) rel)
| step_observe d w rel bundle now env :
    step (mkMachine d (Some w) rel)
      (mkMachine (Observe d w bundle now env).1.1 (Some (Observe d w bundle now env).1.2)
         (released_by (Observe d w bundle now env).2 ++ rel))
| step_latest d w rel b :
    Latest w = Some b → step (mkMachine d (Some w) rel) (mkMachine d (Some w) (bundle_Witnesses b ++ rel))
| step_close d w rel : step (mkMachine d (Some w) rel) (mkMachine d (Some (Close w)) rel)
(* the process exits or is killed; written bytes stay in the file *)
| step_exit d w rel : step (mkMachine d (Some w) rel) (mkMachine d None rel)
(* power loss: any part of the unsynced tail is lost *)
| step_crash d p rel n :
    step (mkMachine d p rel)
      (mkMachine (mkDisk (dk_durable d ++ take n (dk_pending d)) []) None rel).

Definition initial : machine := mkMachine (mkDisk [] []) None [].
End Witness.
Arguments Witness {_}.
Arguments machine {_}.
