(* ===== verification/WitnessProofs.v ===== *)
(** The witness never votes for two competing successors, across failed writes,
    restarts and power loss. *)

From S2P Require Import Prelude Regex GoLib Numbers Types Paths Sha256 GoJson Canonical Documents.
From S2P Require Import Signatures Checkpoint History Witness.
From Stdlib Require Import Ascii.
Open Scope Z_scope.

(** * Plain text *)

Definition plain (l : list ascii) : Prop := Forall (λ c, byte_val c < 128) l.

Lemma b64_val_plain c v : b64_val c = Some v → byte_val c < 128.
Proof. unfold b64_val, inr. repeat case_match; intros; bool_prop; try done; lia. Qed.

Lemma list_four_ind {A} (P : list A → Prop) :
  P [] → (∀ a, P [a]) → (∀ a b, P [a; b]) → (∀ a b c, P [a; b; c]) →
  (∀ a b c d l, P l → P (a :: b :: c :: d :: l)) → ∀ l, P l.
Proof.
  intros H0 H1 H2 H3 H4. fix IH 1.
  intros [|a [|b [|c [|d l]]]]; [exact H0|exact (H1 a)|exact (H2 a b)|exact (H3 a b c)|].
  apply H4, IH.
Qed.

Lemma b64_decode_plain l r : b64_decode l = Some r → plain l.
Proof.
  revert r. induction l as [|a|a b|a b c|a b c d l IH] using list_four_ind; intros r Hd; try done;
    [constructor|]. cbn [b64_decode] in Hd.
  destruct (b64_val a) as [va|] eqn:Ea; [|done]. destruct (b64_val b) as [vb|] eqn:Eb; [|done].
  apply b64_val_plain in Ea, Eb.
  destruct (b64_val c) as [vc|] eqn:Ec; [apply b64_val_plain in Ec; destruct (b64_val d) as [vd|] eqn:Ed|].
  - apply b64_val_plain in Ed. destruct (b64_decode l) as [r'|] eqn:El; [|done].
    repeat constructor; try done. by eapply IH.
  - case_match eqn:G; [|done]. bool_prop. apply Ascii.eqb_eq in H as ->. 
    destruct l; [|done]. repeat constructor; done.
  - case_match eqn:G; [|done]. bool_prop. apply Ascii.eqb_eq in H, H2. subst.
    destruct l; [|done]. repeat constructor; done.
Qed.

(** Base64 text is plain: its alphabet, the padding and skipped line breaks. *)
Lemma DecodeString_plain s payload : DecodeString s = Some payload → plain (list_of s).
Proof.
  unfold DecodeString. destruct (b64_decode _) as [r|] eqn:E; [|done]. intros _.
  apply b64_decode_plain in E. unfold plain in *. rewrite Forall_forall in E |- *.
  intros c Hc. destruct (Ascii.eqb c "010" || Ascii.eqb c "013") eqn:G.
  - apply orb_true_iff in G as [->%Ascii.eqb_eq| ->%Ascii.eqb_eq]; done.
  - apply E. apply list_elem_of_In, filter_In. rewrite G. split; [by apply list_elem_of_In|done].
Qed.

(** * The journal as lines *)

Definition newline : ascii := "010".
Definition unlines (lines : list (list ascii)) : list ascii :=
  concat (map (λ l, l ++ [newline]) lines).

Lemma unlines_app a b : unlines (a ++ b) = unlines a ++ unlines b.
Proof. unfold unlines. by rewrite map_app, concat_app. Qed.
Lemma unlines_one l : unlines [l] = l ++ [newline].
Proof. unfold unlines. simpl. by rewrite app_nil_r. Qed.

Lemma journal_lines_unlines lines :
  Forall (λ l, newline ∉ l) lines → journal_lines (unlines lines) = lines.
Proof.
  intros Hn. unfold journal_lines.
  assert (split_list newline (unlines lines) = lines ++ [[]]) as E.
  { induction Hn as [|l lines Hl Hn IH]; [done|]. change (unlines (l :: lines))
      with ((l ++ [newline]) ++ unlines lines). rewrite <-app_assoc. simpl.
    by rewrite split_list_app_sep, IH. }
  fold newline. rewrite E. apply removelast_last.
Qed.

(** What an interrupted append can leave behind: a prefix of one line. *)
Definition torn (extra : list ascii) : Prop :=
  ∃ l n, newline ∉ l ∧ extra = take n (l ++ [newline]).

Lemma torn_nil : torn [].
Proof. exists [], O. split; [set_solver|done]. Qed.

Lemma torn_take extra n : torn extra → torn (take n extra).
Proof.
  intros (l & m & Hl & ->). exists l, (n `min` m)%nat. by rewrite take_take.
Qed.

Lemma take_snoc_cases (l : list ascii) n :
  take n (l ++ [newline]) = l ++ [newline] ∨ ∃ m, take n (l ++ [newline]) = take m l.
Proof.
  destruct (decide (n ≤ length l)%nat).
  - right. exists n. by rewrite take_app_le.
  - left. apply take_ge. rewrite length_app. simpl. lia.
Qed.

(** A torn end that passes the tail check is empty or a whole line. *)
Lemma torn_tail lines extra :
  torn extra → tail_ok (unlines lines ++ extra) = true →
  extra = [] ∨ ∃ l, newline ∉ l ∧ extra = l ++ [newline].
Proof.
  intros (l & n & Hl & ->) Ht. destruct (take_snoc_cases l n) as [E|[m E]].
  - right. exists l. by rewrite E.
  - left. rewrite E in *. destruct (take m l) as [|c t _] eqn:Et using rev_ind; [done|].
    exfalso. apply Hl. unfold tail_ok in Ht. rewrite app_assoc, rev_app_distr in Ht. simpl in Ht.
    apply Ascii.eqb_eq in Ht as ->. rewrite <-(take_drop m l), Et. apply elem_of_app. left.
    apply elem_of_app. right. left.
Qed.

Section Safety.
Context `{Crypto} `{!Pki} `{JsonCanonicalizer}.
Context `{JsonType History} `{JsonType Delegation} `{JsonType Checkpoint} `{JsonType witnessedRecord}.

Definition payload_of (r : witnessedRecord) : string :=
  envelope_Payload (bundle_Checkpoint (wr_Bundle r)).

(** What the journal needs of encoding/json for a record: the text is one line,
    and reading it back keeps a plain payload string (other strings are repaired
    to valid UTF-8 when written). *)
Class JournalCodec : Prop := {
  Marshal_one_line r data : Marshal r = Ok data →
    newline ∉ list_of data ∧ "013"%char ∉ list_of data;
  Marshal_payload r data r' : Marshal r = Ok data → DecodeKnown data = Ok r' →
    plain (list_of (payload_of r)) → payload_of r' = payload_of r
}.

(** A checkpoint is a valid successor of the one retained before it (or the
    pinned genesis). *)
Definition successor (last : option Checkpoint) (cp : Checkpoint) : Prop :=
  ∃ h bundle now, validate h last bundle now = Ok cp.
Fixpoint linked (last : option Checkpoint) (chain : list Checkpoint) : Prop :=
  match chain with
  | [] => True
  | cp :: chain => successor last cp ∧ linked (Some cp) chain
  end.

(** The envelope carries exactly this checkpoint's canonical bytes. *)
Definition votes_for (signature : Envelope) (cp : Checkpoint) : Prop :=
  ∃ payload, DecodeString (envelope_Payload signature) = Some payload ∧
    Hash payload = mustDigest cp.
Definition votes_in (chain : list Checkpoint) (signature : Envelope) : Prop :=
  ∃ cp, cp ∈ chain ∧ votes_for signature cp.

Lemma linked_snoc last chain cp :
  linked last (chain ++ [cp]) ↔
  linked last chain ∧ successor (match list.last chain with Some c => Some c | None => last end) cp.
Proof.
  revert last. induction chain as [|c chain IH]; intros last; simpl; [naive_solver|].
  rewrite IH, last_cons. destruct (list.last chain); naive_solver.
Qed.

(** ** Records and the checkpoints they carry *)

Definition carries (r : witnessedRecord) (cp : Checkpoint) : Prop :=
  ∃ payload, DecodeString (payload_of r) = Some payload ∧ DecodeStrict payload = Ok cp.
Definition read_line (line : list ascii) : result witnessedRecord :=
  DecodeStrictBounded (string_of (drop_cr line)) MaxBundleBytes.
(** The line can only be read back as this checkpoint. *)
Definition pins (line : list ascii) (cp : Checkpoint) : Prop :=
  ∀ r, read_line line = Ok r → carries r cp.

Lemma carries_det r cp cp' : carries r cp → carries r cp' → cp = cp'.
Proof. intros (p & E1 & D1) (p' & E2 & D2). congruence. Qed.

Lemma validate_inv h last bundle now cp :
  validate h last bundle now = Ok cp →
  ∃ payload, DecodeString (envelope_Payload (bundle_Checkpoint bundle)) = Some payload ∧
    DecodeStrict payload = Ok cp.
Proof.
  unfold validate, VerifyCheckpoint. intros Hv. ok_step Hv. ok_step Hv. ok_step Hv.
  ok_step Hv. simplify_eq. ok_step E1. ok_step E1. ok_step E1. ok_step E1. ok_step E1.
  simplify_eq. apply Verify_ok in E2 as E2'. eexists. split; [done|].
  naive_solver.
Qed.

Lemma check_record_inv h last r now cp :
  check_record h last r now = Ok cp →
  successor last cp ∧ carries r cp ∧
  (∀ signature, wr_Signature r = Some signature → votes_for signature cp).
Proof.
  unfold check_record. intros Hc. ok_step Hc.
  destruct (wr_Historical r); [ok_step Hc|].
  - injection Hc as ->. split_and!; [by do 3 eexists|by eapply validate_inv|].
    intros s Hs. bool_prop. destruct G. by rewrite Hs.
  - destruct (wr_Signature r) as [[ty p [|sig [|]]]|] eqn:Es; try done. do 2 ok_step Hc.
    injection Hc as ->. split_and!; [by do 3 eexists|by eapply validate_inv|].
    intros s [= <-]. bool_prop. apply Verify_ok in E0 as (_ & _ & _ & E0 & _). by eexists.
Qed.

(** ** Loading the journal *)

Lemma load_chain h now st lines st' :
  foldM (load_line h now) st lines = Ok st' →
  ∃ cps, Forall2 (λ l cp, ∃ r, read_line l = Ok r ∧ carries r cp) lines cps ∧ linked st.1 cps ∧
    st'.1 = (match list.last cps with Some c => Some c | None => st.1 end) ∧
    (st' = st ∨ ∃ r cp, st'.2 = Some r ∧ cp ∈ cps ∧
      ∀ signature, wr_Signature r = Some signature → votes_for signature cp).
Proof.
  revert st. induction lines as [|l lines IH]; intros st Hf; cbn [foldM] in Hf.
  { injection Hf as <-. exists []. split_and!; [constructor|done|done|by left]. }
  ok_step Hf. unfold load_line in E. ok_step E. ok_step E. ok_step E. injection E as <-.
  apply check_record_inv in E1 as (Hs & Hc & Hv).
  destruct (IH _ Hf) as (cps & HF & Hl & Hlast & Hrec). simpl in *.
  exists (r1 :: cps). split_and!; [constructor; [by exists r0|done]|done| |].
  - rewrite Hlast, last_cons. by destruct (list.last cps).
  - right. destruct Hrec as [->|(r & cp & Hr & Hin & Hv')].
    + exists r0, r1. split_and!; [done|left|done].
    + exists r, cp. split_and!; [done|by right|done].
Qed.

Lemma pins_loaded lines cps chain :
  Forall2 (λ l cp, ∃ r, read_line l = Ok r ∧ carries r cp) lines cps →
  Forall2 pins lines chain → cps = chain.
Proof.
  intros HF. revert chain. induction HF as [|l cp lines cps (r & Hr & Hc) _ IH];
    intros chain HG; inversion HG as [|? cp' ? chain' Hp Hps]; subst; [done|].
  f_equal; [|by apply IH]. eapply carries_det; [done|by apply Hp].
Qed.

Lemma loaded_pins lines cps :
  Forall2 (λ l cp, ∃ r, read_line l = Ok r ∧ carries r cp) lines cps → Forall2 pins lines cps.
Proof.
  intros Hf. eapply Forall2_impl; [exact Hf|]. intros l cp (r & Hr & Hc) r' Hr'. congruence.
Qed.

(** ** The invariant *)

(** The journal holds exactly the lines of the chain, all on stable storage,
    followed by what one interrupted append may have left. *)
Definition journal_of (chain : list Checkpoint) (extra : list ascii) (d : disk) : Prop :=
  ∃ lines e, Forall (λ l, newline ∉ l) lines ∧ Forall2 pins lines chain ∧
    dk_durable d = unlines lines ++ e ∧ e ++ dk_pending d = extra ∧ torn extra.
Definition process_of (chain : list Checkpoint) (extra : list ascii) (w : Witness) : Prop :=
  (∀ r signature, w_lastRecord w = Some r → wr_Signature r = Some signature →
     votes_in chain signature) ∧
  (w_open w = true → w_poisoned w = false → extra = [] ∧ w_last w = list.last chain).
Definition coherent (chain : list Checkpoint) (s : machine) : Prop :=
  linked None chain ∧ Forall (votes_in chain) (mc_released s) ∧
  ∃ extra, journal_of chain extra (mc_disk s) ∧
    match mc_process s with Some w => process_of chain extra w | None => True end.

Lemma votes_in_mono chain chain' signature :
  (∀ cp, cp ∈ chain → cp ∈ chain') → votes_in chain signature → votes_in chain' signature.
Proof. intros Hs (cp & Hin & Hv). exists cp. auto. Qed.

Lemma journal_synced chain extra d : journal_of chain extra d → journal_of chain extra (synced d).
Proof.
  intros (lines & e & Hn & Hp & Hd & He & Ht). exists lines, (e ++ dk_pending d).
  split_and!; try done; simpl; [|by rewrite app_nil_r].
  unfold visible. by rewrite Hd, app_assoc.
Qed.

Lemma journal_crash chain extra d n :
  journal_of chain extra d →
  ∃ extra', journal_of chain extra' (mkDisk (dk_durable d ++ take n (dk_pending d)) []).
Proof.
  intros (lines & e & Hn & Hp & Hd & He & Ht). eexists. exists lines, (e ++ take n (dk_pending d)).
  split_and!; try done; simpl; [by rewrite Hd, app_assoc|]. rewrite app_nil_r.
  replace (e ++ take n (dk_pending d)) with (take (length e + n) extra); [by apply torn_take|].
  rewrite <-He. by rewrite take_app_add.
Qed.

Lemma visible_synced d : visible (synced d) = visible d.
Proof. unfold visible, synced. simpl. by rewrite app_nil_r. Qed.

Lemma openWitness_cases d env keyID key h now :
  let '(d', r) := openWitness d env keyID key h now in
  (is_err r = true ∧ (d' = d ∨ d' = synced d)) ∨
  (d' = synced d ∧ tail_ok (visible d) = true ∧
   ∃ signer st, foldM (load_line h now) (None, None) (journal_lines (visible d)) = Ok st ∧
     r = Ok (mkWitness true keyID signer h st.1 st.2 false)).
Proof.
  unfold openWitness. destruct key as [key|]; [|by left; auto].
  repeat (case_match; simplify_eq; [by left; auto|]).
  repeat (case_match; simplify_eq; try by left; auto).
  all: rewrite visible_synced in *; bool_prop; right; eauto 6.
Qed.

(** Opening either fails, leaving the journal as it was, or yields a process that
    has retained a chain extending the old one. *)
Lemma open_coherent chain extra d env keyID key h now :
  linked None chain → journal_of chain extra d →
  let '(d', r) := openWitness d env keyID key h now in
  match r with
  | Err _ => journal_of chain extra d'
  | Ok w => ∃ more, linked None (chain ++ more) ∧ journal_of (chain ++ more) [] d' ∧
      process_of (chain ++ more) [] w
  end.
Proof.
  intros Hl Hj. pose proof (openWitness_cases d env keyID key h now) as Hcases.
  destruct (openWitness _ _ _ _ _ _) as [d' r].
  destruct Hcases as [[Hr [-> | ->]]|(-> & Ht & signer & st & Hf & ->)];
    [destruct r; [done|by auto using journal_synced]..|].
  destruct Hj as (lines & e & Hn & Hp & Hd & He & Htorn).
  assert (∃ lines', visible d = unlines lines' ∧ Forall (λ l, newline ∉ l) lines' ∧
    ∃ extra, lines' = lines ++ extra) as (lines' & Hvis & Hn' & extra' & El).
  { unfold visible in *. rewrite Hd, <-app_assoc, He in *.
    destruct (torn_tail _ _ Htorn Ht) as [->|(l & Hnl & ->)].
    - exists lines. rewrite app_nil_r. split_and!; [done..|]. exists []. by rewrite app_nil_r.
    - exists (lines ++ [l]). rewrite unlines_app, unlines_one. split_and!; [done| |by exists [l]].
      apply Forall_app. by repeat constructor. }
  rewrite Hvis, journal_lines_unlines in Hf by done.
  apply load_chain in Hf as (cps & HF & Hlink & Hlast & Hrec). simpl in *.
  assert (∃ more, cps = chain ++ more) as [more ->].
  { rewrite El in HF. apply Forall2_app_inv_l in HF as (c1 & c2 & HF1 & HF2 & ->).
    exists c2. f_equal. by eapply pins_loaded. }
  exists more. split_and!; [done| |].
  - exists lines', []. apply loaded_pins in HF.
    split_and!; try done; [by rewrite app_nil_r|apply torn_nil].
  - split; simpl; [|intros _ _; split; [done|]; rewrite Hlast; by destruct (list.last _)].
    intros r signature Hr Hs. destruct Hrec as [->|(r' & cp & Hr' & Hin & Hv)]; [done|].
    rewrite Hr in Hr'. injection Hr' as <-. exists cp. auto.
Qed.

(** ** Observing *)

Lemma Sign_votes keyID key cp signature :
  Sign keyID key cp = Ok signature → votes_for signature cp.
Proof.
  unfold Sign. intros Hs. destruct key as [key|]; [|done]. do 5 ok_step Hs. injection Hs as <-.
  exists r0. simpl. split; [apply DecodeString_encode|].
  unfold mustDigest, CanonicalDigest. by rewrite E, E0.
Qed.

Lemma observe_record_inv w bundle now cp r :
  observe_record w bundle now = Ok (cp, r) →
  successor (w_last w) cp ∧ carries r cp ∧
  (∀ signature, wr_Signature r = Some signature → votes_for signature cp).
Proof.
  unfold observe_record. intros Ho. do 3 ok_step Ho.
  assert (successor (w_last w) r0) as Hsucc by (by do 3 eexists).
  apply validate_inv in E as (payload & Ep & Ed). case_match.
  - injection Ho as <- <-. split_and!; [done|by exists payload|done].
  - do 2 ok_step Ho. injection Ho as <- <-. split_and!; [done|by exists payload|].
    intros s [= <-]. by eapply Sign_votes.
Qed.

Lemma drop_cr_id l : "013"%char ∉ l → drop_cr l = l.
Proof.
  intros Hl. unfold drop_cr. destruct (rev l) as [|c t] eqn:E.
  - apply (f_equal (@rev _)) in E. by rewrite rev_involutive in E.
  - destruct (Ascii.eqb_spec c "013"); [|done]. subst. exfalso. apply Hl.
    apply list_elem_of_In, in_rev. rewrite E. by left.
Qed.

Lemma encode_pins `{!JournalCodec} r encoded cp :
  encodeWitnessRecord r = Ok encoded → carries r cp →
  ∃ line, encoded = line ++ [newline] ∧ newline ∉ line ∧ pins line cp.
Proof.
  unfold encodeWitnessRecord. intros He (payload & Ep & Ed). do 2 ok_step He. injection He as <-.
  destruct (Marshal_one_line r r0 E) as [Hnl Hcr]. exists (list_of r0). split_and!; [done..|].
  intros r' Hr'. unfold read_line in Hr'. rewrite drop_cr_id, string_of_list_of in Hr' by done.
  unfold DecodeStrictBounded in Hr'. do 2 ok_step Hr'.
  exists payload. by rewrite (Marshal_payload r r0 r' E Hr') by (by eapply DecodeString_plain).
Qed.

(** A signature that the process already holds, or a new record: appended but not
    released, or released after it is on stable storage. *)
Definition observe_outcome (w : Witness) (d : disk) (bundle : Bundle) (now : Time)
    (env : write_env) (out : disk * Witness * result (option Envelope)) : Prop :=
  let '(d', w', r) := out in
  (d' = d ∧ w' = w ∧
    ∀ s, r = Ok (Some s) → ∃ rec, w_lastRecord w = Some rec ∧ wr_Signature rec = Some s) ∨
  (w_open w = true ∧ w_poisoned w = false ∧ ∃ cp record encoded,
    observe_record w bundle now = Ok (cp, record) ∧ encodeWitnessRecord record = Ok encoded ∧
    ((w' = poison w ∧ is_err r = true ∧
      d' = mkDisk (dk_durable d) (dk_pending d ++ take (we_written env) encoded)) ∨
     (w' = set_last w cp record ∧ r = Ok (wr_Signature record) ∧
      d' = mkDisk (dk_durable d ++ dk_pending d ++ encoded) []))).

Lemma fresh_cases w d bundle now env :
  w_poisoned w = false → w_open w = true →
  observe_outcome w d bundle now env (observe_fresh d w bundle now env).
Proof.
  intros Hp Ho. unfold observe_fresh, observe_outcome.
  destruct (observe_record w bundle now) as [[cp record]|] eqn:Eo; [|by left].
  destruct (encodeWitnessRecord record) as [encoded|] eqn:Ee; [|by left]. cbv zeta.
  destruct (negb (we_ok env) || _) eqn:G; [|destruct (negb (we_sync env)) eqn:G'].
  1,2: right; split_and!; try done; exists cp, record, encoded; by auto 6.
  right. split_and!; try done. exists cp, record, encoded. split_and!; try done. right.
  split_and!; try done. bool_prop. unfold synced, visible. simpl.
  rewrite take_ge by (unfold lenl in *; lia). done.
Qed.

Lemma observe_cases w d bundle now env :
  observe_outcome w d bundle now env (Observe d w bundle now env).
Proof.
  unfold Observe. destruct (w_poisoned w || negb (w_open w)) eqn:G; [by left|].
  apply orb_false_iff in G as [G Gopen%negb_false_iff].
  pose proof (fresh_cases w d bundle now env G Gopen) as Hfresh.
  destruct (w_lastRecord w) as [lastr|] eqn:El; [|exact Hfresh]. case_match; [|exact Hfresh].
  left. split_and!; try done. intros s. unfold observe_retry. repeat case_match; intros; simplify_eq.
  eauto.
Qed.

Lemma observe_coherent `{!JournalCodec} chain extra d w bundle now env :
  linked None chain → journal_of chain extra d → process_of chain extra w →
  let '(d', w', r) := Observe d w bundle now env in
  ∃ more extra', linked None (chain ++ more) ∧ journal_of (chain ++ more) extra' d' ∧
    process_of (chain ++ more) extra' w' ∧ Forall (votes_in (chain ++ more)) (released_by r).
Proof.
  intros Hl Hj Hw. pose proof (observe_cases w d bundle now env) as Hcases.
  destruct (Observe _ _ _ _ _) as [[d' w'] r].
  destruct Hcases as [(-> & -> & Hr)|(Ho & Hp & cp & record & encoded & Erec & Eenc & Hcases)].
  { exists [], extra. rewrite app_nil_r. split_and!; try done.
    destruct r as [[s|]|]; simpl; [|constructor..]. apply Forall_singleton.
    destruct (Hr s eq_refl) as (rec & Hrec & Hs). by eapply Hw. }
  destruct Hw as [Hv Hrun]. destruct (Hrun Ho Hp) as [-> Hlast].
  destruct (observe_record_inv _ _ _ _ _ Erec) as (Hsucc & Hcar & Hvotes).
  destruct (encode_pins _ _ _ Eenc Hcar) as (line & -> & Hnl & Hpin).
  destruct Hj as (lines & e & Hn & Hps & Hd & [-> Hpend]%app_nil & _). rewrite app_nil_r in Hd.
  destruct Hcases as [(-> & Hr & ->)|(-> & -> & ->)].
  - exists [], (take (we_written env) (line ++ [newline])). rewrite app_nil_r. split_and!; try done.
    + exists lines, []. rewrite app_nil_r, Hpend. split_and!; try done. by exists line, (we_written env).
    + destruct r; [done|constructor].
  - exists [cp], []. split_and!.
    + rewrite linked_snoc. split; [done|]. rewrite <-Hlast. by destruct (w_last w).
    + exists (lines ++ [line]), []. rewrite app_nil_r, unlines_app, unlines_one, Hpend, Hd.
      split_and!; try done; [apply Forall_app|apply Forall2_app|apply torn_nil]; try done;
        by repeat constructor.
    + split; simpl; [|intros _ _; by rewrite last_snoc].
      intros r s [= <-] Hs. exists cp. split; [set_solver|auto].
    + destruct (wr_Signature record) as [s|] eqn:Es; simpl; repeat constructor.
      exists cp. split; [set_solver|auto].
Qed.

Lemma step_coherent `{!JournalCodec} chain s s' :
  coherent chain s → step s s' → ∃ more, coherent (chain ++ more) s'.
Proof.
  intros (Hl & Hrel & extra & Hj & Hp) Hstep.
  assert (∀ more, Forall (votes_in (chain ++ more)) (mc_released s)) as Hrel'.
  { intros more. eapply Forall_impl; [exact Hrel|]. intros sig. apply votes_in_mono. set_solver. }
  destruct Hstep as [d rel env keyID key h now|d w rel bundle now env|d w rel b Hb|d w rel|d w rel|d p rel n];
    simpl in *.
  - pose proof (open_coherent chain extra d env keyID key h now Hl Hj) as Ho.
    destruct (openWitness _ _ _ _ _ _) as [d' [w|e]]; simpl.
    + destruct Ho as (more & Hl' & Hj' & Hp'). exists more. split_and!; [done..|]. by exists [].
    + exists []. rewrite app_nil_r. split_and!; [done..|]. by exists extra.
  - pose proof (observe_coherent chain extra d w bundle now env Hl Hj Hp) as Ho.
    destruct (Observe _ _ _ _ _) as [[d' w'] r]. destruct Ho as (more & extra' & Hl' & Hj' & Hp' & Hr).
    exists more. split_and!; simpl; eauto. by apply Forall_app.
  - exists []. rewrite app_nil_r. split_and!; eauto. simpl. apply Forall_app. split; [|done].
    unfold Latest in Hb. destruct (w_lastRecord w) as [r|] eqn:El; [|done]. injection Hb as <-. simpl.
    destruct (wr_Signature r) as [sg|] eqn:Es; [|constructor]. apply Forall_singleton. by eapply Hp.
  - exists []. rewrite app_nil_r. split_and!; eauto. exists extra. split; [done|].
    destruct Hp as [Hv _]. by split.
  - exists []. rewrite app_nil_r. split_and!; [done..|]. by exists extra.
  - exists []. rewrite app_nil_r. split_and!; [done..|]. simpl.
    destruct (journal_crash _ _ _ n Hj) as [extra' ?]. by exists extra'.
Qed.

(** C14: a witness never votes for two competing successors.  Starting from an
    absent journal and after any sequence of process starts, observations, failed
    or partial writes, failed syncs, exits and power losses, and under any signing
    key and history each start was given, every signature ever handed out is for
    a checkpoint of one chain, in which each checkpoint was validated as the
    successor of the one before it. *)
Theorem witness_single_chain `{!JournalCodec} s :
  rtc step initial s →
  ∃ chain, linked None chain ∧ Forall (votes_in chain) (mc_released s).
Proof.
  intros Hs. assert (∃ chain, coherent chain s) as (chain & ? & ? & _); [|by exists chain].
  revert s Hs. apply rtc_ind_r.
  - exists []. split_and!; [done|constructor|]. exists []. split; [|done].
    exists [], []. split_and!; try done; [constructor..|apply torn_nil].
  - intros s s' _ Hstep [chain Hc]. destruct (step_coherent _ _ _ Hc Hstep) as [more ?]. eauto.
Qed.

(** ** Payload text *)

Lemma EncodeToString_no_newline data : newline ∉ list_of (EncodeToString data).
Proof.
  unfold EncodeToString. rewrite list_of_string_of. intros Hin.
  rewrite <-(b64_no_newline (bytes_of data) (bytes_of_range data)) in Hin.
  apply list_elem_of_In, filter_In in Hin as [_ Hf]. done.
Qed.

Lemma Sign_payload_text keyID key (cp : Checkpoint) signature :
  Sign keyID key cp = Ok signature → newline ∉ list_of (envelope_Payload signature).
Proof.
  unfold Sign. intros Hs. destruct key; [|done]. do 5 ok_step Hs. injection Hs as <-.
  apply EncodeToString_no_newline.
Qed.

End Safety.
