(* ===== verification/Publication.v ===== *)
(** Publication of the audit log: the checkpoints the worker seals and signs, the bundles it
    serves and the votes it takes (audit.go of internal/platform), and one round of a witness
    that follows them (observe.go of cmd/witness).

    Sealing and signing are two transactions, between which others run.  What the
    database gives back of a stored document and of an instant, which it prints and rounds in a
    way of its own, are parameters. *)

From S2P Require Import Prelude Regex GoLib Numbers Types Scores Paths Measurement Evaluation Validate Sha256 GoJson.
From S2P Require Import Canonical Documents Results Store Signatures Checkpoint History Platform Artifacts Witness.
From stdpp Require Import sorting.
From Stdlib Require Import Ascii.
Open Scope Z_scope.

(** * The tables *)

(** audit_checkpoints, in the order of its identifiers, and witness_receipts. *)
Record PublicRow := mkPublicRow {
  pr_digest : string;
  pr_payload : Checkpoint;
  pr_envelope : option Envelope;
  pr_from : Z;
  pr_to : Z;
  pr_issued : Time;
  pr_verified : option Time
}.
Record publication := mkPublication {
  pub_events : list AuditRow;
  pub_rows : list PublicRow;
  pub_receipts : gmap (string * string) Envelope
}.

(** What the production gate reads of a row. *)
Definition admission_row (r : PublicRow) : CheckpointRow := mkCheckpointRow (pr_digest r) (pr_issued r) (pr_verified r).

Definition set_envelope (e : Envelope) (r : PublicRow) : PublicRow :=
  mkPublicRow (pr_digest r) (pr_payload r) (Some e) (pr_from r) (pr_to r) (pr_issued r) (pr_verified r).
Definition set_verified (at_ : Time) (r : PublicRow) : PublicRow :=
  mkPublicRow (pr_digest r) (pr_payload r) (pr_envelope r) (pr_from r) (pr_to r) (pr_issued r)
    (Some (default at_ (pr_verified r))).
Definition is_signed (r : PublicRow) : bool := bool_decide (is_Some (pr_envelope r)).

(** The columns of types jsonb and timestamptz. *)
Class Columns := { jsonb : Bytes → Bytes; timestamptz : Time → Time }.

(** * The trust the platform starts with *)

(** The pinned root, the last history of the chain, the chain, and the release attestation. *)
Record Trust `{Crypto} := mkTrust {
  tr_root : PublicKey;
  tr_history : History;
  tr_chain : list Envelope;
  tr_release : option Envelope
}.

Section Trust.
Context `{Crypto} `{!Pki} `{JsonCanonicalizer} `{JsonType History} `{JsonType Delegation} `{JsonType Envelope}.

(** [loadTrust]: [ReadFile] gives the bytes of a file, and [envelopes_of] reads a JSON array of
    envelopes; the pinned files are optional together. *)
Definition loadTrust (KeyHistoryFile RootPublicKeyFile ReleaseAttestationFile RootKeyID : string)
    (ReadFile : string → option Bytes) (envelopes_of : Bytes → option (list Envelope)) (now : Time) : result (option Trust) :=
  if (KeyHistoryFile ==s "") && (RootPublicKeyFile ==s "") then Ok None else
  match ReadFile RootPublicKeyFile with
  | None => Err "cannot load pinned audit root public key"
  | Some rootBytes =>
      let! root := ParsePublicKey rootBytes in
      match ReadFile KeyHistoryFile with
      | None => Err "cannot load signed key history"
      | Some b =>
          match envelopes_of b with
          | None => Err "key history file must be an array of signed history envelopes"
          | Some envelopes =>
              if (lenl envelopes =? 0) || (lenl envelopes >? 100) then Err "key history chain length invalid" else
              let! previous := foldM (λ previous envelope,
                let! h := VerifyHistory envelope RootKeyID root previous now in Ok (Some h)) None envelopes in
              let! release := (if ReleaseAttestationFile ==s "" then Ok None else
                match ReadFile ReleaseAttestationFile with
                | None => Err "cannot load root-signed release attestation"
                | Some b => let! env := DecodeStrict b in Ok (Some env)
                end) in
              match previous with
              | None => Ok None
              | Some history => Ok (Some (mkTrust _ root history envelopes release))
              end
          end
      end
  end.
End Trust.

Section Publication.
Context `{Crypto} `{!Pki} `{JsonCanonicalizer} `{JsonType Checkpoint} `{Columns}.

(** * Reading the log *)

Definition event_of (r : AuditRow) : Event :=
  mkEvent (int_string (au_sequence r)) (au_kind r) (jsonb (au_payload r)) (au_previous r) (au_digest r).
Definition sequence_le (a b : AuditRow) : Prop := au_sequence a ≤ au_sequence b.
#[export] Instance sequence_le_dec a b : Decision (sequence_le a b).
Proof. unfold sequence_le. apply _. Defined.
Definition readAuditEvents (events : list AuditRow) (after limit : Z) : list Event :=
  map event_of (take (Z.to_nat limit) (merge_sort sequence_le (filter (λ r, after < au_sequence r) events))).

(** [n, _ := strconv.ParseInt(s, 10, 64)] *)
Definition int_or_zero (s : string) : Z := default 0 (ParseInt64 s).

(** * The worker's tick *)

(** The row after which the events are not sealed yet. *)
Definition sealed_through (previous : option PublicRow) : result Z :=
  match previous with
  | None => Ok 0
  | Some row =>
      match ParseInt64 (checkpoint_ToSequence (pr_payload row)) with
      | Some n => Ok n
      | None => Err "strconv.ParseInt: invalid syntax"
      end
  end.
Definition too_early (previous : option PublicRow) (now : Time) (events : list Event) : bool :=
  match previous with
  | Some row => (Sub now (pr_issued row) <? Minute) && (lenl events <? 100)
  | None => false
  end.

(** The first transaction: the checkpoint to sign, when there is one; [origin] is
    [PublicOrigin]. *)
Definition seal_checkpoint (origin : string) (now : Time) (p : publication) : result (publication * option (Checkpoint * string)) :=
  let previous := last (pub_rows p) in
  match previous with
  | Some (mkPublicRow digest payload None _ _ _ _) => Ok (p, Some (payload, digest))
  | _ =>
      let! after := sealed_through previous in
      let events := readAuditEvents (pub_events p) after 1000 in
      if too_early previous now events then Ok (p, None) else
      let! checkpoint := Build origin events (pr_payload <$> previous) (UTC now) in
      let! digest := CanonicalDigest checkpoint in
      if existsb (λ r, pr_digest r ==s digest) (pub_rows p) then Err unique_violation else
      Ok (mkPublication (pub_events p)
            (pub_rows p ++ [mkPublicRow digest checkpoint None (int_or_zero (checkpoint_FromSequence checkpoint))
                              (int_or_zero (checkpoint_ToSequence checkpoint)) (timestamptz (checkpoint_IssuedAt checkpoint)) None])
            (pub_receipts p), Some (checkpoint, digest))
  end.

(** The signer of a production checkpoint is the delegated one. *)
Definition check_signer (sv : Server) (key : Signer) (issued : Time) : result unit :=
  if s_DeploymentMode sv !=s "production" then Ok tt else
  match s_TrustHistory sv with
  | None => Err "production checkpoints require root-signed key delegation"
  | Some history =>
      let! configured := Fingerprint (Some (Public key)) in
      let! delegated := Fingerprint (KeysAt history "audit-checkpoint" issued !! s_ReceiptKeyID sv)
        or "checkpoint signer has no valid root delegation" in
      if configured !=s delegated then Err "checkpoint signer has no valid root delegation" else Ok tt
  end.

(** The signature and the update that stores it. *)
Definition sign_checkpoint (sv : Server) (key : Signer) (sealed : Checkpoint * string) (p : publication) : result publication :=
  let! _ := check_signer sv key (checkpoint_IssuedAt sealed.1) in
  let! envelope := Sign (s_ReceiptKeyID sv) (Some key) sealed.1 in
  Ok (mkPublication (pub_events p)
        (map (λ r, if (pr_digest r ==s sealed.2) && negb (is_signed r) then set_envelope envelope r else r) (pub_rows p))
        (pub_receipts p)).

(** [checkpointTick], when nothing runs between its transactions. *)
Definition checkpointTick (sv : Server) (origin : string) (now : Time) (p : publication) : publication * result unit :=
  match s_signer sv with
  | None => (p, Ok tt)
  | Some key =>
      match seal_checkpoint origin now p with
      | Err e => (p, Err e)
      | Ok (p, None) => (p, Ok tt)
      | Ok (p, Some sealed) =>
          match sign_checkpoint sv key sealed p with
          | Err e => (p, Err e)
          | Ok p => (p, Ok tt)
          end
      end
  end.

(** * What is served *)

Record Published := mkPublished {
  pb_id : Z;
  pb_digest : string;
  pb_bundle : Bundle;
  pb_verified : bool;
  pb_issued : Time
}.

(** [publicAuditEvents]: the events after a cursor, both parameters as texts. *)
Definition publicAuditEvents (events : list AuditRow) (after limit : string) : result (list Event) :=
  match (if after ==s "" then Some 0 else ParseInt64 after) with
  | Some cursor =>
      if cursor <? 0 then Err "cursor_invalid" else
      Ok (readAuditEvents events cursor
            (match ParseInt64 limit with Some n => if (n >? 0) && (n <=? 10000) then n else 1000 | None => 1000 end))
  | None => Err "cursor_invalid"
  end.

(** The rows with their identifiers. *)
Definition row_ids (rows : list PublicRow) : list (Z * PublicRow) := imap (λ i r, (Z.of_nat i + 1, r)) rows.
Definition receipts_for (p : publication) (digest : string) : list Envelope :=
  snd <$> filter (λ kv, kv.1.1 = digest) (map_to_list (pub_receipts p)).
(** ORDER BY key_id *)
Definition key_le (a b : string * string * Envelope) : Prop := string_le a.1.2 b.1.2.
#[export] Instance key_le_dec a b : Decision (key_le a b).
Proof. unfold key_le. apply _. Defined.
Definition served_votes (p : publication) (digest : string) : list Envelope :=
  snd <$> merge_sort key_le (filter (λ kv, kv.1.1 = digest) (map_to_list (pub_receipts p))).
Definition publish_row (p : publication) (row : Z * PublicRow) : option Published :=
  match pr_envelope row.2 with
  | None => None
  | Some envelope =>
      let events := if pr_to row.2 >=? pr_from row.2
        then readAuditEvents (pub_events p) (pr_from row.2 - 1) (pr_to row.2 - pr_from row.2 + 1) else [] in
      Some (mkPublished row.1 (pr_digest row.2) (mkBundle envelope (served_votes p (pr_digest row.2)) events)
              (bool_decide (is_Some (pr_verified row.2))) (pr_issued row.2))
  end.

(** The three parameters of the query, as texts. *)
Definition publicCheckpoints (p : publication) (after afterDigest limit : string) : result (list Published) :=
  if (after !=s "") && match ParseInt64 after with Some n => n <? 0 | None => true end then Err "cursor_invalid" else
  if (afterDigest !=s "") && (after !=s "") then Err "cursor_ambiguous" else
  let! cursor := (if afterDigest ==s "" then Ok (int_or_zero after) else
                  match List.find (λ r, (pr_digest r.2 ==s afterDigest) && is_signed r.2) (row_ids (pub_rows p)) with
                  | Some r => Ok r.1
                  | None => Err no_rows
                  end) in
  let! count := (if limit ==s "" then Ok 20 else
                 match ParseInt64 limit with
                 | Some n => if (n <? 1) || (n >? 20) then Err "limit_invalid" else Ok n
                 | None => Err "limit_invalid"
                 end) in
  Ok (take (Z.to_nat count) (omap (publish_row p) (filter (λ r, cursor < r.1) (row_ids (pub_rows p))))).

(** * Votes *)

Definition witnessReceipt (sv : Server) (digest : string) (envelope : Envelope) (now : Time) (p : publication)
    : result (publication * bool) :=
  match s_TrustHistory sv with
  | None => Err "witness_trust_unconfigured"
  | Some history =>
      match List.find (λ r, (pr_digest r ==s digest) && is_signed r) (pub_rows p) with
      | Some (mkPublicRow _ _ (Some platform) _ _ issued _) =>
          if (envelope_Payload envelope !=s envelope_Payload platform)
             || (envelope_PayloadType envelope !=s envelope_PayloadType platform)
             || negb (lenl (envelope_Signatures envelope) =? 1)
          then Err "checkpoint_mismatch" else
          let keys := KeysAt history "audit-witness" issued in
          let! _ := Verify envelope keys or "witness_signature_invalid" in
          let id := match envelope_Signatures envelope with s :: _ => signature_KeyID s | [] => "" end in
          let operators := WitnessOperatorsAt history issued in
          if default "" (operators !! id) ==s "" then Err "witness_not_registered" else
          let receipts := match pub_receipts p !! (digest, id) with
                          | Some _ => pub_receipts p
                          | None => <[(digest, id) := envelope]> (pub_receipts p)
                          end in
          let stored := mkPublication (pub_events p) (pub_rows p) receipts in
          let quorum := is_ok (VerifyQuorum platform (receipts_for stored digest) keys operators 2) in
          Ok (mkPublication (pub_events p)
                (map (λ r, if quorum && (pr_digest r ==s digest) then set_verified now r else r) (pub_rows p)) receipts, quorum)
      | _ => Err no_rows
      end
  end.

(** * A round of a witness (observe.go) *)

(** What the witness asks for: the vote to send again, and the digest after which it reads. *)
Definition observe_cursor (latest : option Bundle) : result (option (string * list Envelope)) :=
  match latest with
  | None => Ok None
  | Some bundle =>
      match DecodeString (envelope_Payload (bundle_Checkpoint bundle)) with
      | None => Err "illegal base64 data"
      | Some payload =>
          if lenl (bundle_Witnesses bundle) >? 1 then Err "unexpected local witness signatures" else
          Ok (Some (Hash payload, bundle_Witnesses bundle))
      end
  end.

Context `{JsonType History} `{JsonType Delegation} `{JsonType witnessedRecord}.

(** [observeOne]: [send] posts a vote to the platform, and [page] reads its checkpoints. *)
Definition observeOne {P} (send : P → string → Envelope → P * result unit)
    (page : P → string → string → string → result (list Published))
    (p : P) (d : disk) (w : Witness) (now : Time) (env : write_env) : P * disk * Witness * result unit :=
  match observe_cursor (Latest w) with
  | Err e => (p, d, w, Err e)
  | Ok cursor =>
      let '(p, sent) := match cursor with Some (digest, [vote]) => send p digest vote | _ => (p, Ok tt) end in
      match sent with
      | Err e => (p, d, w, Err e)
      | Ok _ =>
          match (match cursor with Some (digest, _) => page p "" digest "1" | None => page p "0" "" "1" end) with
          | Err e => (p, d, w, Err e)
          | Ok [] => (p, d, w, Ok tt)
          | Ok [item] =>
              match DecodeString (envelope_Payload (bundle_Checkpoint (pb_bundle item))) with
              | Some payload =>
                  if Hash payload !=s pb_digest item then (p, d, w, Err "platform checkpoint digest mismatch") else
                  let '(d, w, r) := Observe d w (pb_bundle item) now env in
                  (p, d, w, match r with Ok _ => Ok tt | Err e => Err e end)
              | None => (p, d, w, Err "platform checkpoint digest mismatch")
              end
          | Ok _ => (p, d, w, Err "platform exceeded requested checkpoint page size")
          end
      end
  end.

(** * The publication over time *)

(** The log grows, the worker seals and signs (a row may be signed by any later tick), and
    votes arrive. *)
Inductive publishing (sv : Server) (key : Signer) (origin : string) : publication → Prop :=
| publish_start : publishing sv key origin (mkPublication [] [] ∅)
| publish_append p d d' version kind payload : publishing sv key origin p → t_audit d = pub_events p →
    audit d version kind payload = Ok d' →
    publishing sv key origin (mkPublication (t_audit d') (pub_rows p) (pub_receipts p))
| publish_seal p now p' sealed : publishing sv key origin p → seal_checkpoint origin now p = Ok (p', sealed) →
    publishing sv key origin p'
| publish_sign p row p' : publishing sv key origin p → row ∈ pub_rows p →
    sign_checkpoint sv key (pr_payload row, pr_digest row) p = Ok p' → publishing sv key origin p'
| publish_vote p digest envelope now p' quorum : publishing sv key origin p →
    witnessReceipt sv digest envelope now p = Ok (p', quorum) → publishing sv key origin p'.
End Publication.
