(* ===== verification/PublicationProofs.v ===== *)
(** Properties of the publication of the audit log: the checkpoints partition the log, what is
    served of one verifies after its predecessor, a quorum is recorded only on votes of two
    operators, and a witness that follows the platform keeps its next checkpoint. *)

From S2P Require Import Prelude Regex GoLib Numbers Types Scores Paths Measurement Evaluation Validate Sha256 GoJson.
From S2P Require Import Canonical Documents Results Store LedgerProofs Signatures Checkpoint CheckpointProofs HiddenProofs History HistoryProofs Platform.
From S2P Require Import Artifacts Witness WitnessProofs Publication.
From stdpp Require Import sorting.
From Stdlib Require Import Ascii.
Open Scope Z_scope.

(** * Trust *)

Section Trust.
Context `{Crypto} `{!Pki} `{JsonCanonicalizer} `{JsonType History} `{JsonType Delegation} `{JsonType Envelope}.

Lemma history_chain rootID root now envelopes : ∀ h h',
  foldM (λ previous envelope, let! h := VerifyHistory envelope rootID root previous now in Ok (Some h)) (Some h) envelopes = Ok h' →
  ∃ last, h' = Some last ∧ rtc (succeeds rootID root) h last.
Proof.
  induction envelopes as [|e l IH]; intros h h' Hf; cbn [foldM] in Hf.
  { injection Hf as <-. exists h. by split; [|apply rtc_refl]. }
  destruct (VerifyHistory e rootID root (Some h) now) as [h1|] eqn:E; [|done]. destruct (IH _ _ Hf) as (last & -> & Hr).
  exists last. split; [done|]. eapply rtc_l; [by exists e, now|done].
Qed.

(** The history the platform trusts is the last of a chain that starts at a genesis history
    signed by the pinned root and advances by verified rotations only; a revocation anywhere in
    the chain therefore binds it. *)
Theorem loadTrust_chain KeyHistoryFile RootPublicKeyFile ReleaseAttestationFile RootKeyID ReadFile envelopes_of now tr :
  loadTrust KeyHistoryFile RootPublicKeyFile ReleaseAttestationFile RootKeyID ReadFile envelopes_of now = Ok (Some tr) →
  (∃ b, ReadFile RootPublicKeyFile = Some b ∧ ParsePublicKey b = Ok (tr_root tr)) ∧ 1 ≤ lenl (tr_chain tr) ≤ 100 ∧
  ∃ first h, head (tr_chain tr) = Some first ∧ VerifyHistory first RootKeyID (tr_root tr) None now = Ok h ∧
    rtc (succeeds RootKeyID (tr_root tr)) h (tr_history tr).
Proof.
  unfold loadTrust. intros Ht. destruct (_ && _); [done|]. do 4 (ok_step Ht). ok_step Ht. ok_step Ht. ok_step Ht.
  destruct r3 as [h'|]; [|done]. injection Ht as <-. cbn [tr_root tr_chain tr_history]. bool_prop.
  split; [by eexists|]. destruct r2 as [|e l]; [done|]. split; [unfold lenl in *; cbn [length] in *; lia|].
  cbn [foldM] in E3. destruct (VerifyHistory e RootKeyID r0 None now) as [h|] eqn:Ev; [|done].
  apply history_chain in E3 as (last & [= <-] & Hr). exists e, h. by split_and!.
Qed.
End Trust.

(** * Reading the log *)

Lemma chain_sequences previous sequence l i r : chain_from previous sequence l → l !! i = Some r →
  au_sequence r = sequence + 1 + Z.of_nat i.
Proof.
  revert previous sequence i. induction l as [|x l IH]; intros previous sequence i Hc Hl; [done|].
  destruct Hc as (Hs & _ & _ & Hc). destruct i as [|i]; [injection Hl as ->; lia|].
  rewrite (IH _ _ i Hc Hl). lia.
Qed.

Lemma chain_filter previous sequence l after : chain_from previous sequence l → sequence ≤ after →
  filter (λ r, after < au_sequence r) l = drop (Z.to_nat (after - sequence)) l.
Proof.
  revert previous sequence. induction l as [|x l IH]; intros previous sequence Hc Ha; [by rewrite drop_nil|].
  destruct Hc as (Hs & _ & _ & Hc). rewrite filter_cons. destruct (decide (after < au_sequence x)) as [Hlt|Hge].
  - assert (after = sequence) as -> by lia. rewrite Z.sub_diag. change (drop (Z.to_nat 0) (x :: l)) with (x :: l). f_equal.
    clear IH Hs. assert (∀ y, y ∈ l → sequence < au_sequence y) as Hall.
    { intros y [i Hi]%list_elem_of_lookup. rewrite (chain_sequences _ _ _ _ _ Hc Hi). lia. }
    clear Hc. induction l as [|y l IHl]; [done|]. rewrite filter_cons_True by (apply Hall; left).
    f_equal. apply IHl. intros z Hz. apply Hall. by right.
  - rewrite (IH _ _ Hc) by lia. replace (Z.to_nat (after - sequence)) with (S (Z.to_nat (after - au_sequence x))) by lia.
    done.
Qed.

Lemma chain_sorted previous sequence l : chain_from previous sequence l → StronglySorted sequence_le l.
Proof.
  revert previous sequence. induction l as [|x l IH]; intros previous sequence Hc; [constructor|].
  destruct Hc as (Hs & _ & _ & Hc). constructor; [by eapply IH|]. apply Forall_forall. intros y [i Hi]%list_elem_of_lookup.
  unfold sequence_le. rewrite (chain_sequences _ _ _ _ _ Hc Hi). lia.
Qed.

Lemma chain_drop previous sequence l n : chain_from previous sequence l → ∃ previous' sequence', chain_from previous' sequence' (drop n l).
Proof.
  revert previous sequence l. induction n as [|n IH]; intros previous sequence l Hc; [by exists previous, sequence|].
  destruct l as [|x l]; [by exists previous, sequence|]. destruct Hc as (_ & _ & _ & Hc). by eapply IH.
Qed.

Lemma merge_sort_chain previous sequence l : chain_from previous sequence l → merge_sort sequence_le l = l.
Proof.
  intros Hc. assert (Total sequence_le) as Htot by (intros a b; unfold sequence_le; lia).
  assert (Transitive sequence_le) as Htr by (intros a b c; unfold sequence_le; lia).
  pose proof (merge_sort_Permutation sequence_le l) as Hp.
  eapply (StronglySorted_unique_strong sequence_le); [|apply StronglySorted_merge_sort; apply _|by eapply chain_sorted|done].
  intros a b Ha [j Hj]%list_elem_of_lookup. rewrite Hp in Ha. apply list_elem_of_lookup in Ha as [i Hi].
  unfold sequence_le. rewrite (chain_sequences _ _ _ _ _ Hc Hi), (chain_sequences _ _ _ _ _ Hc Hj). intros ? ?.
  assert (i = j) as <- by lia. congruence.
Qed.

Section Reading.
Context `{Columns}.

(** What is read of a chained log is the interval asked for. *)
Lemma read_interval events after limit : chain_ok events → 0 ≤ after →
  readAuditEvents events after limit = map event_of (take (Z.to_nat limit) (drop (Z.to_nat after) events)).
Proof.
  intros Hc Ha. unfold readAuditEvents. rewrite (chain_filter _ _ _ after Hc) by done. rewrite Z.sub_0_r.
  destruct (chain_drop _ _ _ (Z.to_nat after) Hc) as (previous & sequence & Hd). by rewrite (merge_sort_chain _ _ _ Hd).
Qed.

(** A read that stays within the log is the same after an append. *)
Lemma read_stable events more after limit : chain_ok events → chain_ok (events ++ more) → 0 ≤ after →
  after + limit ≤ lenl events → readAuditEvents (events ++ more) after limit = readAuditEvents events after limit.
Proof.
  intros Hc Hc' Ha Hl. rewrite !read_interval by done. f_equal. unfold lenl in Hl. destruct (Z.le_gt_cases limit 0).
  { by rewrite (Z2Nat.nonpos limit). }
  rewrite drop_app_le by lia. rewrite take_app_le; [done|]. rewrite length_drop. lia.
Qed.

(** What a read returned is found again by its length. *)
Lemma read_length events after limit : chain_ok events → 0 ≤ after →
  let read := readAuditEvents events after limit in
  readAuditEvents events after (lenl read) = read ∧ after + lenl read ≤ Z.max after (lenl events).
Proof.
  intros Hc Ha. cbn zeta. rewrite !read_interval by done. unfold lenl. rewrite length_map, Nat2Z.id.
  split; [f_equal|]; rewrite ?length_take, ?length_drop; [|lia].
  destruct (decide (Z.to_nat limit ≤ length events - Z.to_nat after)%nat).
  - by rewrite Nat.min_l by lia.
  - rewrite Nat.min_r by lia. rewrite !take_ge; rewrite ?length_drop; (done || lia).
Qed.
End Reading.

(** * The state of the publication *)

Section Publishing.
Context `{Crypto} `{!Pki} `{JsonCanonicalizer} `{JsonType Checkpoint} `{Columns}.

(** A row without its signature and its quorum, which later transactions add. *)
Definition core (r : PublicRow) : PublicRow :=
  mkPublicRow (pr_digest r) (pr_payload r) None (pr_from r) (pr_to r) (pr_issued r) None.
Definition row_before (rows : list PublicRow) (i : nat) : option PublicRow :=
  match i with O => None | S j => rows !! j end.

(** Row [i] is the checkpoint of exactly the events of its interval, which begins where the
    row before it ends. *)
Record sealed_row (origin : string) (events : list AuditRow) (rows : list PublicRow) (i : nat) (r : PublicRow) : Prop := mkSealedRow {
  row_built : ∃ now, Build origin (readAuditEvents events (pr_from r - 1) (pr_to r - pr_from r + 1))
                       (pr_payload <$> row_before rows i) (UTC now) = Ok (pr_payload r);
  row_digest : CanonicalDigest (pr_payload r) = Ok (pr_digest r);
  row_from : pr_from r = match row_before rows i with Some q => pr_to q + 1 | None => 1 end;
  row_to : 1 ≤ pr_from r ≤ pr_to r + 1 ∧ pr_to r ≤ lenl events;
  row_texts : checkpoint_FromSequence (pr_payload r) = int_string (pr_from r) ∧
              checkpoint_ToSequence (pr_payload r) = int_string (pr_to r) ∧ pr_to r < 2 ^ 63;
  row_issued : pr_issued r = timestamptz (checkpoint_IssuedAt (pr_payload r))
}.

(** Only the newest row may wait for its signature. *)
Definition signature_ok (sv : Server) (key : Signer) (rows : list PublicRow) (i : nat) (r : PublicRow) : Prop :=
  match pr_envelope r with
  | Some envelope => Sign (s_ReceiptKeyID sv) (Some key) (pr_payload r) = Ok envelope
  | None => S i = length rows
  end.
Definition quorum_ok (sv : Server) (p : publication) (r : PublicRow) : Prop :=
  is_Some (pr_verified r) → ∃ history platform votes, s_TrustHistory sv = Some history ∧ pr_envelope r = Some platform ∧
    votes ⊆ receipts_for p (pr_digest r) ∧
    VerifyQuorum platform votes (KeysAt history "audit-witness" (pr_issued r)) (WitnessOperatorsAt history (pr_issued r)) 2 = Ok tt.

Record publication_ok (sv : Server) (key : Signer) (origin : string) (p : publication) : Prop := mkPublicationOk {
  pub_chain : chain_ok (pub_events p);
  pub_digests : NoDup (pr_digest <$> pub_rows p);
  pub_sealed : ∀ i r, core <$> pub_rows p !! i = Some r → sealed_row origin (pub_events p) (core <$> pub_rows p) i r;
  pub_signed : ∀ i r, pub_rows p !! i = Some r → signature_ok sv key (pub_rows p) i r;
  pub_quorum : ∀ r, r ∈ pub_rows p → quorum_ok sv p r
}.

Lemma sealed_row_append origin events more rows i r : chain_ok events → chain_ok (events ++ more) →
  sealed_row origin events rows i r → sealed_row origin (events ++ more) rows i r.
Proof.
  intros Hc Hc' [(now & Hb) Hd Hf Ht Hx Hi]. split; try done.
  - exists now. rewrite read_stable; [done|done|done|lia|lia].
  - unfold lenl in *. rewrite length_app. lia.
Qed.

Lemma sealed_row_seal origin events rows i r x : (i ≤ length rows)%nat →
  sealed_row origin events rows i r → sealed_row origin events (rows ++ [x]) i r.
Proof.
  intros Hi. assert (row_before (rows ++ [x]) i = row_before rows i) as Hb.
  { destruct i as [|j]; [done|]. cbn [row_before]. by rewrite lookup_app_l by lia. }
  intros []. split; rewrite ?Hb; done.
Qed.

(** ** Sealing *)

Lemma int_or_zero_string n : - 2 ^ 63 ≤ n < 2 ^ 63 → int_or_zero (int_string n) = n.
Proof.
  intros Hn. unfold int_or_zero, ParseInt64. rewrite bigint_of_int_string.
  by rewrite (proj2 (Z.leb_le _ _)), (proj2 (Z.ltb_lt _ _)) by lia.
Qed.

(** The row a seal adds. *)
Definition sealed_new (cp : Checkpoint) (digest : string) : PublicRow :=
  mkPublicRow digest cp None (int_or_zero (checkpoint_FromSequence cp)) (int_or_zero (checkpoint_ToSequence cp))
    (timestamptz (checkpoint_IssuedAt cp)) None.
Lemma not_pending {A} p (a : A) f : (∀ r, last (pub_rows p) = Some r → is_Some (pr_envelope r)) →
  match last (pub_rows p) with Some (mkPublicRow digest payload None _ _ _ _) => f payload digest | _ => a end = a.
Proof.
  intros Hlast. destruct (last (pub_rows p)) as [[d pl [env|] ? ? ? ?]|] eqn:E; [done| |done]. by destruct (Hlast _ eq_refl).
Qed.
Lemma seal_inv origin now p p' sealed : seal_checkpoint origin now p = Ok (p', sealed) →
  p' = p ∨ ∃ after cp digest, (∀ r, last (pub_rows p) = Some r → is_Some (pr_envelope r)) ∧
    sealed_through (last (pub_rows p)) = Ok after ∧
    Build origin (readAuditEvents (pub_events p) after 1000) (pr_payload <$> last (pub_rows p)) (UTC now) = Ok cp ∧
    CanonicalDigest cp = Ok digest ∧ digest ∉ pr_digest <$> pub_rows p ∧
    p' = mkPublication (pub_events p) (pub_rows p ++ [sealed_new cp digest]) (pub_receipts p).
Proof.
  intros Hs.
  assert ((∀ r, last (pub_rows p) = Some r → is_Some (pr_envelope r)) ∨ p' = p) as [Hlast|]; [|
    |by left].
  { unfold seal_checkpoint in Hs. destruct (last (pub_rows p)) as [[d pl [env|] f t iss v]|]; [left|right|by left].
    - intros r [= <-]. by eexists.
    - by injection Hs as <- _. }
  unfold seal_checkpoint in Hs.
  rewrite (not_pending p) in Hs by done. ok_step Hs. destruct (too_early _ _ _); [left; by injection Hs as <- _|]. do 3 ok_step Hs. right.
  exists r, r0, r1. split_and!; try done; [|by injection Hs as <- _].
  intros (x & -> & Hx)%list_elem_of_fmap. rewrite (proj2 (existsb_exists _ _)) in G; [done|].
  exists x. rewrite <-list_elem_of_In, String.eqb_refl. done.
Qed.

Lemma last_before {A} (l : list A) : match length l with O => None | S j => l !! j end = last l.
Proof. rewrite last_lookup. by destruct l. Qed.

(** The interval of the checkpoint built on the rows so far. *)
Lemma build_interval origin events rows now after cp : chain_ok events →
  (∀ i r, rows !! i = Some r → sealed_row origin events rows i r) → sealed_through (last rows) = Ok after →
  Build origin (readAuditEvents events after 1000) (pr_payload <$> last rows) (UTC now) = Ok cp →
  let read := readAuditEvents events after 1000 in
  after = match last rows with Some q => pr_to q | None => 0 end ∧ 0 ≤ after ≤ lenl events ∧
  checkpoint_FromSequence cp = int_string (after + 1) ∧ checkpoint_ToSequence cp = int_string (after + lenl read) ∧
  after + 1 < 2 ^ 63 ∧ after + lenl read < 2 ^ 63.
Proof.
  intros Hc Hr Hs Hb. cbn zeta.
  assert (after = match last rows with Some q => pr_to q | None => 0 end ∧ 0 ≤ after ≤ lenl events) as [Ha Hr'].
  { destruct (last rows) as [q|] eqn:El; cbn [sealed_through] in Hs; [|injection Hs as <-; unfold lenl; lia].
    rewrite last_lookup in El. destruct (Hr _ _ El) as [_ _ _ ? (_ & Ht & ?) _].
    rewrite Ht in Hs. unfold ParseInt64 in Hs. rewrite bigint_of_int_string in Hs.
    rewrite (proj2 (Z.leb_le _ _)), (proj2 (Z.ltb_lt _ _)) in Hs by lia. injection Hs as <-. by split; [|lia]. }
  pose proof (Build_inv _ _ _ _ _ Hb) as (from & to0 & prior & pe & Hp & Hto0 & Hf & _ & Hmax & _ & _ & Hfrom & Hto & _).
  assert (to0 = after ∧ to0 < 2 ^ 63 - 1) as [-> Hmax'].
  { unfold build_prior in Hp. destruct (last rows) as [q|] eqn:El; cbn [fmap option_fmap option_map] in Hp.
    - rewrite last_lookup in El. destruct (Hr _ _ El) as [_ _ _ ? (_ & Ht & ?) _]. ok_step Hp. do 3 ok_step Hp.
      apply sequence_ok in E as [E _]. rewrite Ht in E. apply int_string_inj in E. injection Hp as _ <- _ _. bool_prop.
      unfold int64_max in *. lia.
    - injection Hp as _ <- _ _. lia. }
  subst from. split_and!; (done || lia).
Qed.

Lemma seal_row origin events rows now after cp digest : chain_ok events →
  (∀ i r, rows !! i = Some r → sealed_row origin events rows i r) → sealed_through (last rows) = Ok after →
  Build origin (readAuditEvents events after 1000) (pr_payload <$> last rows) (UTC now) = Ok cp →
  CanonicalDigest cp = Ok digest → sealed_row origin events rows (length rows) (sealed_new cp digest).
Proof.
  intros Hc Hr Hs Hb Hd. assert (row_before rows (length rows) = last rows) as Hl by apply last_before.
  destruct (build_interval _ _ _ _ _ _ Hc Hr Hs Hb) as (Ha & Hr' & Hfrom & Hto & Hm & Hm').
  destruct (read_length events after 1000 Hc) as [Hread Hle]; [lia|].
  assert (pr_from (sealed_new cp digest) = after + 1) as Ef by (cbn [pr_from sealed_new]; rewrite Hfrom, int_or_zero_string; (done || lia)).
  assert (pr_to (sealed_new cp digest) = after + lenl (readAuditEvents events after 1000)) as Et.
  { cbn [pr_to sealed_new]. rewrite Hto, int_or_zero_string; [done|]. unfold lenl in *. lia. }
  split; rewrite ?Ef, ?Et, ?Hl; try done.
  - exists now. replace (after + 1 - 1) with after by lia.
    replace (after + _ - (after + 1) + 1) with (lenl (readAuditEvents events after 1000)) by lia. by rewrite Hread.
  - rewrite Ha. by destruct (last rows).
  - unfold lenl in *. lia.
Qed.

Lemma sealed_rows_snoc origin events rows x : (∀ i r, rows !! i = Some r → sealed_row origin events rows i r) →
  sealed_row origin events rows (length rows) x →
  ∀ i r, (rows ++ [x]) !! i = Some r → sealed_row origin events (rows ++ [x]) i r.
Proof.
  intros Hr Hx i r [Hi|[? Hi]]%lookup_app_Some.
  - apply sealed_row_seal; [|by apply Hr]. apply lookup_lt_Some in Hi. lia.
  - apply list_lookup_singleton_Some in Hi as [? <-]. replace i with (length rows) by lia. by apply sealed_row_seal.
Qed.

Lemma seal_preserves sv key origin now p p' sealed : publication_ok sv key origin p →
  seal_checkpoint origin now p = Ok (p', sealed) → publication_ok sv key origin p'.
Proof.
  intros [Hc Hn Hr Hs Hq] [->|(after & cp & digest & Hlast & Ha & Hb & Hd & Hnew & ->)]%seal_inv; [by split|].
  split; cbn [pub_events pub_rows pub_receipts]; [done| | | |].
  - rewrite fmap_app. apply NoDup_app. split_and!; [done|set_solver|apply NoDup_singleton].
  - rewrite fmap_app. change (core <$> [sealed_new cp digest]) with [sealed_new cp digest].
    assert (∀ i r, (core <$> pub_rows p) !! i = Some r → sealed_row origin (pub_events p) (core <$> pub_rows p) i r) as Hr'.
    { intros i r. rewrite list_lookup_fmap. apply Hr. }
    intros i r. rewrite <-list_lookup_fmap, fmap_app. apply sealed_rows_snoc; [done|].
    eapply seal_row; try done; rewrite fmap_last; by destruct (last (pub_rows p)).
  - intros i r [Hi|[? Hi]]%lookup_app_Some; unfold signature_ok; rewrite length_app; simpl.
    + specialize (Hs _ _ Hi). unfold signature_ok in Hs. destruct (pr_envelope r) eqn:E; [done|].
      destruct (Hlast r) as [? ?]; [|congruence]. rewrite last_lookup. by rewrite <-Hs.
    + apply list_lookup_singleton_Some in Hi as [? <-]. simpl. lia.
  - intros r [Hi| ->%list_elem_of_singleton]%elem_of_app; [by apply Hq|by intros [? ?]].
Qed.

(** ** Signing and voting leave the sealed part alone *)

Lemma same_core sv key origin p f receipts :
  publication_ok sv key origin p → (∀ r, core (f r) = core r) →
  (∀ i r, pub_rows p !! i = Some r → signature_ok sv key (pub_rows p) i (f r)) →
  (∀ r, r ∈ pub_rows p → quorum_ok sv (mkPublication (pub_events p) (map f (pub_rows p)) receipts) (f r)) →
  publication_ok sv key origin (mkPublication (pub_events p) (map f (pub_rows p)) receipts).
Proof.
  intros [Hc Hn Hr _ _] Hf Hs Hq.
  assert (core <$> map f (pub_rows p) = core <$> pub_rows p) as Hcore.
  { change (map f (pub_rows p)) with (f <$> pub_rows p). rewrite <-list_fmap_compose. apply list_fmap_ext. intros i x _. apply Hf. }
  split; cbn [pub_events pub_rows pub_receipts]; [done| | | |].
  - replace (pr_digest <$> map f (pub_rows p)) with (pr_digest <$> (core <$> map f (pub_rows p))) by (by rewrite <-list_fmap_compose).
    rewrite Hcore, <-list_fmap_compose. done.
  - intros i r. rewrite <-list_lookup_fmap, Hcore, list_lookup_fmap. apply Hr.
  - intros i r Hi. change (map f (pub_rows p)) with (f <$> pub_rows p) in *. rewrite list_lookup_fmap in Hi.
    destruct (pub_rows p !! i) as [x|] eqn:E; [|done]. injection Hi as <-. specialize (Hs _ _ E).
    unfold signature_ok in *. by rewrite length_fmap.
  - intros r (x & -> & Hx)%list_elem_of_fmap. by apply Hq.
Qed.

Lemma sign_ok sv key origin p row p' : publication_ok sv key origin p → row ∈ pub_rows p →
  sign_checkpoint sv key (pr_payload row, pr_digest row) p = Ok p' → publication_ok sv key origin p'.
Proof.
  intros Hp Hrow Hs. unfold sign_checkpoint in Hs. do 2 ok_step Hs. injection Hs as <-. cbn [fst snd] in *.
  pose proof Hp as [_ Hn _ Hsig Hq]. apply same_core; [done| | |].
  - intros x. by destruct (_ && _).
  - intros i x Hx. specialize (Hsig _ _ Hx). destruct ((pr_digest x ==s pr_digest row) && negb (is_signed x)) eqn:Ex; [|done].
    bool_prop. unfold signature_ok. cbn [pr_envelope set_envelope pr_payload].
    apply list_elem_of_lookup in Hrow as [j Hj]. assert (i = j) as <-; [|congruence].
    eapply NoDup_lookup; [exact Hn| |]; rewrite list_lookup_fmap; [by rewrite Hx|by rewrite Hj; simpl; congruence].
  - intros x Hx. specialize (Hq _ Hx). destruct ((pr_digest x ==s pr_digest row) && negb (is_signed x)) eqn:Ex; [|done].
    bool_prop. intros Hv. destruct (Hq Hv) as (h & platform & votes & _ & He & _). exfalso.
    assert (is_signed x = true) by (apply bool_decide_eq_true; by rewrite He). congruence.
Qed.

Lemma votes_grow p digest id envelope rows : pub_receipts p !! (digest, id) = None →
  ∀ d, receipts_for p d ⊆ receipts_for (mkPublication (pub_events p) rows (<[(digest, id) := envelope]> (pub_receipts p))) d.
Proof.
  intros Hn d e. unfold receipts_for. cbn [pub_receipts]. rewrite !list_elem_of_fmap.
  intros (kv & -> & [Hk Hkv]%list_elem_of_filter). exists kv. split; [done|]. apply list_elem_of_filter. split; [done|].
  destruct kv as [k v]. apply elem_of_map_to_list in Hkv. apply elem_of_map_to_list. rewrite lookup_insert_ne; congruence.
Qed.

Lemma find_row p digest r : NoDup (pr_digest <$> pub_rows p) →
  List.find (λ r, (pr_digest r ==s digest) && is_signed r) (pub_rows p) = Some r →
  r ∈ pub_rows p ∧ pr_digest r = digest ∧ ∀ x, x ∈ pub_rows p → pr_digest x = digest → x = r.
Proof.
  intros Hn [Hr Hd]%find_some. apply list_elem_of_In in Hr. bool_prop. split_and!; [done|done|].
  intros x [i Hi]%list_elem_of_lookup Hx. apply list_elem_of_lookup in Hr as [j Hj]. assert (i = j) as <-; [|congruence].
  eapply NoDup_lookup; [exact Hn| |]; rewrite list_lookup_fmap; [by rewrite Hi|by rewrite Hj; simpl; congruence].
Qed.

(** What a vote does: it is kept unless its key has voted, and counted with the others. *)
Lemma vote_inv sv digest envelope now p p' quorum : witnessReceipt sv digest envelope now p = Ok (p', quorum) →
  ∃ history row platform receipts, s_TrustHistory sv = Some history ∧
    List.find (λ r, (pr_digest r ==s digest) && is_signed r) (pub_rows p) = Some row ∧
    pr_envelope row = Some platform ∧
    (∀ d, receipts_for p d ⊆ receipts_for (mkPublication (pub_events p) (pub_rows p) receipts) d) ∧
    quorum = is_ok (VerifyQuorum platform (receipts_for (mkPublication (pub_events p) (pub_rows p) receipts) digest)
      (KeysAt history "audit-witness" (pr_issued row)) (WitnessOperatorsAt history (pr_issued row)) 2) ∧
    p' = mkPublication (pub_events p)
      (map (λ r, if quorum && (pr_digest r ==s digest) then set_verified now r else r) (pub_rows p)) receipts.
Proof.
  unfold witnessReceipt. intros Hw. destruct (s_TrustHistory sv) as [history|]; [|done].
  destruct (List.find _ _) as [[d pl [platform|] f t iss v]|] eqn:Ef; [|done|done]. do 3 ok_step Hw.
  injection Hw as <- Hq. eexists history, _, platform, _. split_and!; [done|done|done| |by rewrite <-Hq|by rewrite <-Hq].
  intros d'. destruct (pub_receipts p !! _) eqn:E'; [done|]. by apply votes_grow.
Qed.

Lemma vote_ok sv key origin digest envelope now p p' quorum : publication_ok sv key origin p →
  witnessReceipt sv digest envelope now p = Ok (p', quorum) → publication_ok sv key origin p'.
Proof.
  intros Hp (history & row & platform & receipts & Hh & Hf & He & Hg & -> & ->)%vote_inv.
  pose proof Hp as [_ Hn _ Hsig Hq]. destruct (find_row _ _ _ Hn Hf) as (Hrow & Hd & Huniq).
  apply same_core; [done| | |].
  - intros x. by destruct (_ && _).
  - intros i x Hx. specialize (Hsig _ _ Hx). by destruct (_ && _).
  - intros x Hx. specialize (Hq _ Hx). destruct (is_ok _ && (pr_digest x ==s digest)) eqn:E.
    + bool_prop. intros _. rewrite (Huniq x Hx) by done. exists history, platform. eexists.
      split_and!; [done|done|reflexivity|]. cbn [pr_digest set_verified pr_issued].
      rewrite Hd. match goal with H : is_ok ?v = true |- _ => destruct v as [[]|] eqn:Ev; [exact Ev|done] end.
    + intros Hv. destruct (Hq Hv) as (h & pl & votes & Hh' & Hpl & Hsub & Hv'). exists h, pl, votes. split_and!; try done.
      etrans; [exact Hsub|apply Hg].
Qed.

(** ** Serving *)

Lemma row_ids_after rows n k :
  filter (λ r : Z * PublicRow, Z.of_nat n < r.1) (imap (λ i r, (Z.of_nat (k + i) + 1, r)) rows)
  = drop (n - k) (imap (λ i r, (Z.of_nat (k + i) + 1, r)) rows).
Proof.
  revert k. induction rows as [|r rows IH]; intros k; [symmetry; apply drop_nil|]. cbn [imap].
  assert (imap ((λ i r, (Z.of_nat (k + i) + 1, r)) ∘ S) rows = imap (λ i r, (Z.of_nat (S k + i) + 1, r)) rows) as E.
  { apply imap_ext. intros i x _. simpl. do 2 f_equal. lia. }
  rewrite E, filter_cons. destruct (decide _) as [Hlt|Hge]; cbn [fst] in *; rewrite IH.
  - replace (n - k)%nat with O by lia. by replace (n - S k)%nat with O by lia.
  - by replace (n - k)%nat with (S (n - S k)) by lia.
Qed.
Lemma row_ids_lookup rows i r : rows !! i = Some r → row_ids rows !! i = Some (Z.of_nat i + 1, r).
Proof. intros Hi. unfold row_ids. by rewrite list_lookup_imap, Hi. Qed.

Lemma find_unique {A} (f : A → bool) l i x : l !! i = Some x → f x = true →
  (∀ j y, l !! j = Some y → f y = true → j = i) → List.find f l = Some x.
Proof.
  revert i. induction l as [|y l IH]; intros i Hi Hx Hu; [done|]. cbn [List.find]. destruct (f y) eqn:Ey.
  - assert (O = i) as <- by by apply (Hu O y). by injection Hi as ->.
  - destruct i as [|i]; [injection Hi as ->; congruence|]. apply (IH i Hi Hx).
    intros j z Hj Hz. by injection (Hu (S j) z Hj Hz).
Qed.

(** What is served of a signed row. *)
Definition served_item (p : publication) (i : nat) (row : PublicRow) (envelope : Envelope) : Published :=
  mkPublished (Z.of_nat i + 1) (pr_digest row)
    (mkBundle envelope (served_votes p (pr_digest row))
       (readAuditEvents (pub_events p) (pr_from row - 1) (pr_to row - pr_from row + 1)))
    (bool_decide (is_Some (pr_verified row))) (pr_issued row).
Lemma publish_row_served p i row envelope : pr_envelope row = Some envelope →
  publish_row p (Z.of_nat i + 1, row) = Some (served_item p i row envelope).
Proof.
  intros He. unfold publish_row. cbn [fst snd]. rewrite He. unfold served_item. do 3 f_equal.
  destruct (pr_to row >=? pr_from row) eqn:G; [done|]. bool_prop. unfold readAuditEvents.
  by rewrite Z2Nat.nonpos by lia.
Qed.

(** The page after a row is the first signed row that follows it. *)
Lemma page_after sv key origin p i prev : publication_ok sv key origin p →
  pub_rows p !! i = Some prev → is_Some (pr_envelope prev) →
  publicCheckpoints p "" (pr_digest prev) "1" = Ok (take 1 (omap (publish_row p) (drop (S i) (row_ids (pub_rows p))))).
Proof.
  intros [_ Hn Hr Hs _] Hp Hsig. assert (is_signed prev = true) as Hsigned by by apply bool_decide_eq_true.
  assert (pr_digest prev ≠ "") as Hne.
  { destruct (Hr i (core prev)) as [_ Hd _ _ _ _]; [by rewrite Hp|]. unfold CanonicalDigest in Hd. do 2 ok_step Hd.
    injection Hd as Hd. cbn in Hd. by rewrite <-Hd. }
  assert (List.find (λ r, (pr_digest r.2 ==s pr_digest prev) && is_signed r.2) (row_ids (pub_rows p)) = Some (Z.of_nat i + 1, prev)) as Hf.
  { apply (find_unique _ _ i); [by apply row_ids_lookup|by cbn [snd]; rewrite String.eqb_refl|].
    intros j y Hj Hy. unfold row_ids in Hj. rewrite list_lookup_imap in Hj.
    destruct (pub_rows p !! j) as [x|] eqn:Ej; [|done]. injection Hj as <-. cbn [snd] in Hy. bool_prop.
    eapply NoDup_lookup; [exact Hn| |]; rewrite list_lookup_fmap; [by rewrite Ej|by rewrite Hp; simpl; congruence]. }
  unfold publicCheckpoints. rewrite (proj2 (String.eqb_neq _ _) Hne). cbn [negb andb String.eqb]. rewrite Hf.
  change (ParseInt64 "1") with (Some 1). cbn [fst Z.ltb Z.compare orb].
  change (row_ids (pub_rows p)) with (imap (λ i r, (Z.of_nat (0 + i) + 1, r)) (pub_rows p)).
  replace (Z.of_nat i + 1) with (Z.of_nat (S i)) by lia. by rewrite row_ids_after, Nat.sub_0_r.
Qed.
Lemma signed_before sv key origin p i prev row : publication_ok sv key origin p →
  pub_rows p !! i = Some prev → pub_rows p !! S i = Some row → is_Some (pr_envelope prev).
Proof.
  intros [_ _ _ Hs _] Hp Hr. specialize (Hs _ _ Hp). unfold signature_ok in Hs. destruct (pr_envelope prev); [done|].
  apply lookup_lt_Some in Hr. lia.
Qed.
Lemma served_after sv key origin p i prev row envelope : publication_ok sv key origin p →
  pub_rows p !! i = Some prev → pub_rows p !! S i = Some row → pr_envelope row = Some envelope →
  publicCheckpoints p "" (pr_digest prev) "1" = Ok [served_item p (S i) row envelope].
Proof.
  intros Hok Hp Hr He. rewrite (page_after _ _ _ _ _ _ Hok Hp) by by eapply signed_before.
  rewrite (drop_S _ (Z.of_nat (S i) + 1, row)) by (by apply row_ids_lookup).
  cbn [omap list_omap]. by rewrite (publish_row_served _ _ _ _ He).
Qed.
Lemma served_end sv key origin p i prev : publication_ok sv key origin p →
  pub_rows p !! i = Some prev → is_Some (pr_envelope prev) →
  (∀ row, pub_rows p !! S i = Some row → pr_envelope row = None) → publicCheckpoints p "" (pr_digest prev) "1" = Ok [].
Proof.
  intros Hok Hp Hsig Hnext. rewrite (page_after _ _ _ _ _ _ Hok Hp Hsig).
  assert (length (row_ids (pub_rows p)) = length (pub_rows p)) as Hlen by apply length_imap.
  destruct (pub_rows p !! S i) as [row|] eqn:Hr.
  - pose proof (Hnext _ eq_refl) as Hnone. pose proof (pub_signed _ _ _ _ Hok _ _ Hr) as Hs. unfold signature_ok in Hs.
    rewrite Hnone in Hs. rewrite (drop_S _ (Z.of_nat (S i) + 1, row)) by (by apply row_ids_lookup).
    rewrite drop_ge by lia. cbn [omap list_omap]. unfold publish_row. cbn [snd]. by rewrite Hnone.
  - apply lookup_ge_None in Hr. by rewrite drop_ge by lia.
Qed.
End Publishing.

(** * The worker can always seal *)

Section Progress.
Context `{Crypto} `{!Pki} `{JsonCanonicalizer} `{JsonType Checkpoint} `{Columns}.

(** The digest at which the first [n] events end. *)
Definition digest_at (events : list AuditRow) (n : Z) : string := (head_of "genesis" 0 (take (Z.to_nat n) events)).1.

(** An event that the platform logs: its kind fits the chain's format, and the database prints a
    payload that canonicalises to the one digested. *)
Definition kind_ok (kind : string) : bool :=
  negb (kind ==s "") && (len kind <=? 128) && negb (ContainsByte kind "013") && negb (ContainsByte kind "010").
Definition logged (r : AuditRow) : Prop := kind_ok (au_kind r) = true ∧ CanonicalJSON (jsonb (au_payload r)) = Ok (au_payload r).

Lemma chain_at previous sequence l n : chain_from previous sequence l → (n ≤ length l)%nat →
  chain_from (head_of previous sequence (take n l)).1 (sequence + Z.of_nat n) (drop n l).
Proof.
  revert previous sequence l. induction n as [|n IH]; intros previous sequence l Hc Hn.
  { rewrite Z.add_0_r. by destruct l. }
  destruct l as [|x l]; [simpl in Hn; lia|]. destruct Hc as (Hs & _ & _ & Hc). cbn [take drop].
  replace (sequence + Z.of_nat (S n)) with (au_sequence x + Z.of_nat n) by lia.
  replace (head_of previous sequence (x :: take n l)) with (head_of (au_digest x) (au_sequence x) (take n l)).
  { apply IH; [done|]. simpl in Hn. lia. }
  unfold head_of. rewrite last_cons. by destruct (last (take n l)).
Qed.

Lemma head_of_app previous sequence l l' : head_of previous sequence (l ++ l') = head_of (head_of previous sequence l).1 (head_of previous sequence l).2 l'.
Proof. unfold head_of. rewrite last_app. by destruct (last l'), (last l). Qed.
Lemma head_digest previous sequence sequence' l : (head_of previous sequence l).1 = (head_of previous sequence' l).1.
Proof. unfold head_of. by destruct (last l). Qed.
Lemma last_event previous sequence l : last_digest previous (map event_of l) = (head_of previous sequence l).1.
Proof.
  unfold last_digest, head_of. change (map event_of l) with (event_of <$> l). rewrite fmap_last. by destruct (last l).
Qed.

(** Reading [n] events from [after] moves the last digest as far. *)
Lemma digest_move events after n : 0 ≤ after → 0 ≤ n →
  last_digest (digest_at events after) (map event_of (take (Z.to_nat n) (drop (Z.to_nat after) events))) = digest_at events (after + n).
Proof.
  intros Ha Hn. rewrite (last_event _ 0). unfold digest_at. rewrite Z2Nat.inj_add by done.
  rewrite <-(take_take_drop events), head_of_app. apply head_digest.
Qed.

(** Every row ends at the digest of the last event of its interval. *)
Lemma row_last origin events rows i r : chain_ok events → (∀ i r, rows !! i = Some r → sealed_row origin events rows i r) →
  rows !! i = Some r → checkpoint_LastEventDigest (pr_payload r) = digest_at events (pr_to r) ∧ checkpoint_LogID (pr_payload r) = origin.
Proof.
  intros Hc Hrows. revert r. induction i as [|i IH]; intros r Hi;
    destruct (Hrows _ _ Hi) as [(now & Hb) _ Hf [Ht _] _ _];
    pose proof (Build_inv _ _ _ _ _ Hb) as (from & to0 & prior & pe & Hp & _ & _ & _ & _ & _ & Hl & _ & _ & _ & _ & Hlast);
    (split; [|done]); rewrite read_interval in Hlast by (done || lia); rewrite Hlast.
  - injection Hp as _ _ _ <-. cbn [row_before] in Hf. change Genesis with (digest_at events 0). rewrite Hf.
    rewrite (digest_move events (1 - 1)) by lia. f_equal. lia.
  - cbn [row_before] in Hf, Hp. destruct (rows !! i) as [q|] eqn:Eq.
    2: { apply lookup_ge_None in Eq. apply lookup_lt_Some in Hi. lia. }
    cbn in Hp. do 4 ok_step Hp. injection Hp as _ _ _ <-. destruct (IH _ eq_refl) as [-> _].
    rewrite Hf. replace (pr_to q + 1 - 1) with (pr_to q) by lia. rewrite digest_move by lia. f_equal. lia.
Qed.

Lemma chain_prefix previous sequence l l' : chain_from previous sequence (l ++ l') → chain_from previous sequence l.
Proof.
  revert previous sequence. induction l as [|x l IH]; intros previous sequence Hc; [done|].
  destruct Hc as (? & ? & ? & Hc). split_and!; try done. by apply IH.
Qed.
Lemma chain_digests previous sequence l r : chain_from previous sequence l → r ∈ l → validDigest (au_digest r) false = true.
Proof.
  revert previous sequence. induction l as [|x l IH]; intros previous sequence Hc Hr; [by apply not_elem_of_nil in Hr|].
  destruct Hc as (_ & _ & Hd & Hc). apply elem_of_cons in Hr as [->|Hr]; [|by eapply IH].
  rewrite Hd. apply ValidDigest_validDigest, DigestBytes_valid.
Qed.
Lemma valid_or_genesis d : validDigest d false = true → validDigest d true = true.
Proof. unfold validDigest. cbn [andb]. by destruct (d ==s Genesis). Qed.
Lemma digest_at_valid events n : chain_ok events → validDigest (digest_at events n) true = true.
Proof.
  intros Hc. unfold digest_at, head_of. destruct (last (take (Z.to_nat n) events)) as [r|] eqn:E; [|done].
  rewrite last_lookup in E. apply lookup_take_Some in E as [E _]. apply list_elem_of_lookup_2 in E.
  by eapply valid_or_genesis, chain_digests.
Qed.

(** The fold over a logged interval succeeds. *)
Lemma build_fold_ok l : ∀ previous from i to digests, chain_from previous (from + i - 1) l → validDigest previous true = true →
  Forall logged l → 1 ≤ from → 0 ≤ i → from + i + lenl l < 2 ^ 63 →
  is_ok (foldM (build_step from) (i, previous, to, digests) (map event_of l)) = true.
Proof.
  induction l as [|r l IH]; intros previous from i to digests Hc Hv Hl Hf Hi Hb; [done|].
  destruct Hc as (Hs & Hp & Hd & Hc). apply Forall_cons in Hl as [[Hk Hj] Hl]. unfold lenl in Hb. cbn [length] in Hb.
  assert (sequence (event_Sequence (event_of r)) = Ok (from + i)) as Hseq.
  { apply sequence_ok. cbn [event_of event_Sequence]. split; [f_equal; lia|lia]. }
  assert (EventDigest previous (au_kind r) (jsonb (au_payload r)) = Ok (au_digest r)) as Hdig.
  { unfold EventDigest. rewrite Hv, Hj. unfold kind_ok in Hk. bool_prop. cbn [negb orb].
    repeat match goal with H : ?b = false |- _ => rewrite H; clear H end.
    rewrite (proj2 (String.eqb_neq _ _)) by done. rewrite Z.gtb_ltb, (proj2 (Z.ltb_ge _ _)) by lia. cbn [orb]. by rewrite Hd. }
  cbn [map foldM]. unfold build_step at 1. rewrite Hseq. cbn [event_of event_Kind event_Payload event_PreviousDigest event_Digest].
  rewrite wrap64_id by (unfold int64_range; lia). rewrite Z.eqb_refl, (proj2 (Z.ltb_ge _ _)) by lia. cbn [negb orb].
  rewrite Hdig, Hp, !String.eqb_refl. cbn [negb orb]. apply IH; try done; [|  |lia|unfold lenl; lia].
  - replace (from + (i + 1) - 1) with (au_sequence r) by lia. done.
  - rewrite Hd. apply valid_or_genesis, ValidDigest_validDigest, DigestBytes_valid.
Qed.

Lemma sealed_to origin events rows i r : sealed_row origin events rows i r → sequence (checkpoint_ToSequence (pr_payload r)) = Ok (pr_to r).
Proof. intros [_ _ _ ? (_ & -> & ?) _]. apply sequence_ok. split; [done|lia]. Qed.

(** The next checkpoint builds. *)
Lemma Build_next origin events rows now : chain_ok events → Forall logged events → lenl events < 2 ^ 63 - 1 →
  (∀ i r, rows !! i = Some r → sealed_row origin events rows i r) → origin ≠ "" → len origin ≤ 128 → IsZero now = false →
  (∀ r, last rows = Some r → Before now (checkpoint_IssuedAt (pr_payload r)) = false) →
  let after := match last rows with Some r => pr_to r | None => 0 end in
  sealed_through (last rows) = Ok after ∧ 0 ≤ after ≤ lenl events ∧
  is_ok (Build origin (readAuditEvents events after 1000) (pr_payload <$> last rows) (UTC now)) = true.
Proof.
  intros Hc Hl Hlen Hrows Ho Ho' Hz Hb. cbn zeta.
  assert (∃ after, match last rows with Some r => pr_to r | None => 0 end = after ∧ sealed_through (last rows) = Ok after ∧
    0 ≤ after ≤ lenl events ∧ ∃ prior, build_prior origin (pr_payload <$> last rows) (UTC now)
      = Ok (after + 1, after, prior, digest_at events after)) as (after & -> & Hs & Ha & prior & Hp).
  { destruct (last rows) as [q|] eqn:El; [|exists 0; split_and!; [done|done|unfold lenl; lia|unfold lenl; lia|by eexists]].
    pose proof El as Hq. rewrite last_lookup in Hq. specialize (Hrows _ _ Hq) as Hrow. exists (pr_to q).
    destruct (row_last _ _ _ _ _ Hc Hrows Hq) as [Hlast Hlog]. pose proof (sealed_to _ _ _ _ _ Hrow) as Hto.
    destruct Hrow as [_ Hd _ ? (_ & Ht & ?) Hi]. split_and!; [done| |lia|lia|].
    - cbn [sealed_through]. rewrite Ht. unfold ParseInt64. rewrite bigint_of_int_string.
      by rewrite (proj2 (Z.leb_le _ _)), (proj2 (Z.ltb_lt _ _)) by lia.
    - exists (pr_digest q). cbn. rewrite Hto, Hd, Hlog, Hlast, String.eqb_refl. 
      specialize (Hb _ eq_refl). unfold Before in Hb |- *. cbn [UTC t_ns] in *. rewrite Hb. cbn [negb orb].
      unfold int64_max. by rewrite (proj2 (Z.eqb_neq _ _)) by (unfold lenl in *; lia). }
  split_and!; [done|lia|lia|]. unfold Build. rewrite (proj2 (String.eqb_neq _ _) Ho), Z.gtb_ltb, (proj2 (Z.ltb_ge _ _) Ho').
  replace (IsZero (UTC now)) with false by done. cbn [orb]. rewrite Hp.
  rewrite read_interval by (done || lia). set (l := take _ _).
  assert (length l ≤ 1000 ∧ length l ≤ length events - Z.to_nat after)%nat as [Hn Hn'].
  { subst l. rewrite length_take, length_drop. lia. }
  assert (chain_from (digest_at events after) (after + 1 + 0 - 1) l) as Hcl.
  { eapply (chain_prefix _ _ l (drop (Z.to_nat 1000) (drop (Z.to_nat after) events))). subst l. rewrite take_drop.
    replace (after + 1 + 0 - 1) with (0 + Z.of_nat (Z.to_nat after)) by lia. apply chain_at; [done|unfold lenl in *; lia]. }
  pose proof (build_fold_ok l (digest_at events after) (after + 1) 0 (int_string after) [] Hcl (digest_at_valid _ _ Hc)
    (Forall_take _ _ _ (Forall_drop _ _ _ Hl)) ltac:(lia) ltac:(lia) ltac:(unfold lenl in *; lia)) as Hfold.
  destruct (foldM _ _ _) as [st|e] eqn:Ef; [|done]. apply build_fold in Ef as (_ & _ & ->); [|unfold lenl in *; lia..].
  unfold MerkleRoot. cbn [app]. rewrite Z.gtb_ltb, (proj2 (Z.ltb_ge _ _)).
  2: { unfold lenl, MaxEvents. rewrite !length_map. lia. }
  rewrite (proj2 (for_each_ok _ _)); [done|]. rewrite map_map. apply Forall_map, Forall_forall. intros r Hr. cbn [event_of event_Digest].
  by rewrite (chain_digests _ _ _ _ Hcl Hr).
Qed.
End Progress.

Section Published.
Context `{Env} `{UnicodeLib} `{Crypto} `{!Pki} `{JsonCanonicalizer} `{JsonType Checkpoint} `{Columns}.

Lemma published_ok sv key origin p : publishing sv key origin p → publication_ok sv key origin p.
Proof.
  induction 1 as [|p d d' version kind payload _ IH Hd Ha|p now p' sealed _ IH Hs|p row p' _ IH Hr Hs|p digest e now p' q _ IH Hv].
  - split; cbn; [done|by apply NoDup_nil|by intros i r|by intros i r|by intros r [i Hi]%list_elem_of_lookup].
  - destruct IH as [Hc Hn Hr Hs Hq]. rewrite <-Hd in Hc. apply audit_extends in Ha as [Hc' (row & Hrow & _)]; [|done].
    rewrite Hd in Hrow, Hc. rewrite Hrow in *. split; try done. intros i r Hi. apply sealed_row_append; [done|done|by apply Hr].
  - by eapply seal_preserves.
  - by eapply sign_ok.
  - by eapply vote_ok.
Qed.

(** C8: the published log is the whole truth about the log so far.  In every state that the
    worker, the witnesses and the rest of the platform reach, the sealed intervals follow each
    other from the first event without a gap or an overlap, each checkpoint is the one built on
    exactly the events its interval reads today from the row before it, digests are unique,
    only the newest row can be unsigned, every signature is one of the platform's key over the
    row's own payload, and a row is marked verified only with a quorum of kept votes. *)
Theorem published_log_ok sv key origin p : publishing sv key origin p → publication_ok sv key origin p.
Proof. apply published_ok. Qed.


(** A row is marked verified only when two different operators have signed the row's exact
    payload with distinct keys that were witnesses when it was issued. *)
Theorem verified_two_operators sv key origin p r : publishing sv key origin p → r ∈ pub_rows p → is_Some (pr_verified r) →
  ∃ history platform votes op1 op2 id1 id2 k1 k2, s_TrustHistory sv = Some history ∧ pr_envelope r = Some platform ∧
    votes ⊆ receipts_for p (pr_digest r) ∧ op1 ≠ op2 ∧ Fingerprint (Some k1) ≠ Fingerprint (Some k2) ∧
    voted platform votes (KeysAt history "audit-witness" (pr_issued r)) (WitnessOperatorsAt history (pr_issued r)) op1 id1 k1 ∧
    voted platform votes (KeysAt history "audit-witness" (pr_issued r)) (WitnessOperatorsAt history (pr_issued r)) op2 id2 k2.
Proof.
  intros Hp Hr Hv. destruct (published_ok _ _ _ _ Hp) as [_ _ _ _ Hq].
  destruct (Hq _ Hr Hv) as (h & platform & votes & Hh & He & Hsub & Hquorum).
  apply VerifyQuorum_independent in Hquorum as (op1 & op2 & id1 & id2 & k1 & k2 & ? & ? & ? & ? & ?).
  by exists h, platform, votes, op1, op2, id1, id2, k1, k2.
Qed.
End Published.

(** * A witness that follows the platform *)

Section Following.
Context `{Env} `{UnicodeLib} `{Crypto} `{!Pki} `{JsonCanonicalizer} `{JsonType Checkpoint} `{Columns}.
Context `{JsonType History} `{JsonType Delegation} `{JsonType witnessedRecord}.

(** The payload of a signed row decodes to bytes whose hash is the row's digest. *)
Lemma signed_payload sv key origin p i r envelope : publication_ok sv key origin p → pub_rows p !! i = Some r →
  pr_envelope r = Some envelope →
  ∃ data payload, Marshal (pr_payload r) = Ok data ∧ CanonicalJSON data = Ok payload ∧
    DecodeString (envelope_Payload envelope) = Some payload ∧ Hash payload = pr_digest r.
Proof.
  intros [_ _ Hr Hs _] Hi He. specialize (Hs _ _ Hi). unfold signature_ok in Hs. rewrite He in Hs.
  destruct (Sign_payload _ _ _ _ Hs) as (data & payload & Hm & Hc & Hd). exists data, payload. split_and!; try done.
  assert (core <$> pub_rows p !! i = Some (core r)) as Hcore by by rewrite Hi.
  destruct (Hr _ _ Hcore) as [_ Hdig _ _ _ _]. unfold CanonicalDigest in Hdig. cbn [core pr_payload pr_digest] in Hdig.
  rewrite Hm, Hc in Hdig. by injection Hdig.
Qed.

(** C9: what the platform serves, a witness accepts.  The page after a row is the next signed
    row, and its bundle passes the witness's own verification against that row: the signature
    under the delegated key, the interval of events, the link to the predecessor and the Merkle
    root.  Assumed: canonicalisation is idempotent, a P-256 signature verifies under its key,
    the published checkpoints read back from their canonical form, and the history that the
    witness holds delegates the platform's key. *)
Theorem served_validates sv key origin p i prev row envelope h now :
  publishing sv key origin p → pub_rows p !! i = Some prev → pub_rows p !! S i = Some row → pr_envelope row = Some envelope →
  (∀ data c, CanonicalJSON data = Ok c → CanonicalJSON c = Ok c) →
  (∀ k hash sig, SignHash k hash = Ok sig → VerifyASN1 (Public k) hash sig = true) →
  (∀ r data c, r ∈ pub_rows p → Marshal (pr_payload r) = Ok data → CanonicalJSON data = Ok c → DecodeKnown c = Ok (pr_payload r)) →
  KeysAt h "audit-checkpoint" (checkpoint_IssuedAt (pr_payload row)) !! s_ReceiptKeyID sv = Some (Public key) →
  After (checkpoint_IssuedAt (pr_payload row)) (AddNs now (5 * Minute)) = false →
  publicCheckpoints p "" (pr_digest prev) "1" = Ok [served_item p (S i) row envelope] ∧
  validate h (Some (pr_payload prev)) (pb_bundle (served_item p (S i) row envelope)) now = Ok (pr_payload row).
Proof.
  intros Hp%published_ok Hi Hr He Hidem Hsig Hcodec Hkey Htime. split.
  { by eapply served_after. }
  destruct (signed_payload _ _ _ _ _ _ _ Hp Hr He) as (data & payload & Hm & Hc & Hd & Hh).
  pose proof Hp as [_ _ Hrows Hs _]. pose proof (Hs _ _ Hr) as Hsign. unfold signature_ok in Hsign. rewrite He in Hsign.
  assert (DecodeStrict payload = Ok (pr_payload row)) as Hdec.
  { unfold DecodeStrict. rewrite (Hidem _ _ Hc). eapply Hcodec; try done. by apply list_elem_of_lookup_2 in Hr. }
  destruct (Sign_trusted _ _ _ _ _ Hidem Hsig Hkey Hsign) as (data' & payload' & Hm' & Hc' & Hv).
  assert (payload' = payload) as -> by congruence.
  destruct (Hrows (S i) (core row)) as [(t & Hb) _ _ _ _ _]; [by rewrite Hr|].
  cbn [core pr_payload pr_from pr_to row_before] in Hb. rewrite list_lookup_fmap, Hi in Hb. cbn in Hb.
  pose proof (Build_inv _ _ _ _ _ Hb) as (_ & _ & _ & _ & _ & _ & _ & _ & _ & _ & Hlog & _).
  assert (checkpoint_APIVersion (pr_payload row) = APIVersion ∧ checkpoint_Kind (pr_payload row) = "AuditCheckpoint" ∧
    checkpoint_IssuedAt (pr_payload row) = UTC t) as (Ha & Hk & Hiss).
  { clear -Hb. unfold Build in Hb. do 2 ok_step Hb. destruct r as [[[from to0] pc] pe]. ok_step Hb.
    destruct r as [[[i l] to] ds]. ok_step Hb. injection Hb as <-. done. }
  unfold validate, VerifyCheckpoint. cbn [served_item pb_bundle bundle_Checkpoint bundle_Events]. rewrite Hd, Hdec, Hv, Hdec.
  rewrite Ha, Hk, Htime, !String.eqb_refl. cbn [negb orb]. rewrite Hlog, Hiss.
  rewrite Hb. by rewrite String.eqb_refl.
Qed.

(** The witness holds row [i] as its last checkpoint. *)
Definition follows (w : Witness) (p : publication) (i : nat) : Prop :=
  ∃ r record envelope, pub_rows p !! i = Some r ∧ pr_envelope r = Some envelope ∧ w_last w = Some (pr_payload r) ∧
    w_lastRecord w = Some record ∧ bundle_Checkpoint (wr_Bundle record) = envelope.

(** The platform at the other end of the witness's connection. *)
Definition post_vote (sv : Server) (now : Time) (p : publication) (digest : string) (vote : Envelope) : publication * result unit :=
  match witnessReceipt sv digest vote now p with
  | Ok (p, _) => (p, Ok tt)
  | Err e => (p, Err e)
  end.

(** What a vote leaves of the rows. *)
Lemma vote_rows sv digest vote now p p' quorum : witnessReceipt sv digest vote now p = Ok (p', quorum) →
  ∃ f, pub_rows p' = map f (pub_rows p) ∧ ∀ r, core (f r) = core r ∧ pr_envelope (f r) = pr_envelope r.
Proof.
  intros (h & row & pl & receipts & _ & _ & _ & _ & _ & ->)%vote_inv. eexists. split; [reflexivity|].
  intros r. cbv beta. by destruct (_ && _).
Qed.
Lemma mapped_row f (rows : list PublicRow) i r : (∀ r, core (f r) = core r ∧ pr_envelope (f r) = pr_envelope r) → rows !! i = Some r →
  ∃ r', map f rows !! i = Some r' ∧ pr_envelope r' = pr_envelope r ∧ pr_payload r' = pr_payload r ∧ pr_digest r' = pr_digest r.
Proof.
  intros Hf Hi. exists (f r). change (map f rows) with (f <$> rows). rewrite list_lookup_fmap, Hi. destruct (Hf r) as [Hc He].
  split_and!; [done|done|by injection Hc|by injection Hc].
Qed.
Lemma post_rows sv now p digest vote p' : post_vote sv now p digest vote = (p', Ok tt) →
  ∃ f, pub_rows p' = map f (pub_rows p) ∧ ∀ r, core (f r) = core r ∧ pr_envelope (f r) = pr_envelope r.
Proof.
  unfold post_vote. intros Hp. destruct (witnessReceipt _ _ _ _ _) as [[q quorum]|] eqn:E; [|done]. injection Hp as <-.
  by eapply vote_rows.
Qed.

(** Observing the row after the witness's last one advances it by one row. *)
Lemma observe_next sv key origin p w i row envelope d now env d' w' s : publication_ok sv key origin p → follows w p i →
  pub_rows p !! S i = Some row → pr_envelope row = Some envelope →
  (∀ data c, CanonicalJSON data = Ok c → CanonicalJSON c = Ok c) →
  (∀ r data c, r ∈ pub_rows p → Marshal (pr_payload r) = Ok data → CanonicalJSON data = Ok c → DecodeKnown c = Ok (pr_payload r)) →
  Observe d w (pb_bundle (served_item p (S i) row envelope)) now env = (d', w', Ok s) → follows w' p (S i).
Proof.
  intros Hok (prev & record & pe & Hi & Hpe & Hlast & Hrec & Hbundle) Hr He Hidem Hcodec Ho.
  destruct (signed_payload _ _ _ _ _ _ _ Hok Hi Hpe) as (data0 & payload0 & _ & _ & Hd0 & Hh0).
  destruct (signed_payload _ _ _ _ _ _ _ Hok Hr He) as (data & payload & Hm & Hc & Hd & Hh).
  unfold Observe in Ho. destruct (w_poisoned w || negb (w_open w)); [done|]. rewrite Hrec, Hbundle in Ho.
  cbn [served_item pb_bundle bundle_Checkpoint] in Ho. destruct (String.eqb_spec (envelope_Payload envelope) (envelope_Payload pe)) as [E|_].
  { exfalso. rewrite E, Hd0 in Hd. assert (pr_digest prev = pr_digest row) as Heq by congruence.
    assert (i = S i); [|lia]. eapply (NoDup_lookup (pr_digest <$> pub_rows p)); [apply Hok| |]; rewrite list_lookup_fmap;
      [by rewrite Hi|by rewrite Hr; simpl; congruence]. }
  unfold observe_fresh in Ho. destruct (observe_record _ _ _) as [[cp rec]|] eqn:Erec; [|done].
  destruct (encodeWitnessRecord rec); [|done]. cbv zeta in Ho.
  destruct (negb (we_ok env) || _); [done|]. destruct (negb (we_sync env)); [done|]. injection Ho as _ <- _.
  unfold observe_record in Erec. ok_step Erec. apply validate_inv in E as (payload' & Hd' & Hdec).
  assert (payload' = payload) as -> by (cbn in Hd'; congruence).
  assert (r = pr_payload row) as ->.
  { unfold DecodeStrict in Hdec. rewrite (Hidem _ _ Hc), (Hcodec row data) in Hdec; [by injection Hdec| |done|done].
    by apply list_elem_of_lookup_2 in Hr. }
  exists row, rec, envelope. split_and!; [done|done| |done|].
  all: cbv zeta in Erec; do 2 ok_step Erec; case_match; [|do 2 ok_step Erec]; by injection Erec as <- <-.
Qed.

End Following.
