(* ===== verification/Samples.v ===== *)
(** Concrete libraries and documents: the published Quiet Echoes manifest of
    web/public/examples, a paired-timing manifest in the v2 format, on which the protocol
    theorems are instantiated, and a stored challenge with four submissions: the Quiet Echoes
    version with two valid scores, one failed run and one submission that is still running. *)

From S2P Require Import Prelude Regex GoLib Numbers Types Scores Paths Measurement Evaluation Validate ValidateProofs.
From S2P Require Import EvaluationProofs Sha256 GoJson Canonical Documents Results ResultsProofs Frontier Store Adjudication.
From S2P Require Import AdjudicationProofs LedgerProofs.
From Stdlib Require Import Ascii QArith.
Open Scope Z_scope.

(** * Libraries *)

#[export] Instance sample_unicode : UnicodeLib := {
  IsNormalString := λ _, true; Fold := ToLowerASCII; ToLowerRune := λ r, r }.
#[export] Instance sample_url : UrlLib := {
  UrlParse := λ s, if HasPrefix s "https://"
    then Ok ("https", nth 2 (Split s "/") "", false) else Err "unsupported scheme" }.
#[export] Instance sample_canonicalizer : JsonCanonicalizer := { Transform := Ok }.

(** A codec for the documents of a table: pairs of a text and the value it
    denotes. *)
Definition table_codec {A} `{EqDecision A} (table : list (string * A)) : JsonType A := {|
  Marshal := λ v,
    match List.find (λ e, bool_decide (e.2 = v)) table with
    | Some e => Ok e.1 | None => Err "unsupported value" end;
  DecodeKnown := λ s,
    match List.find (λ e, e.1 ==s s) table with
    | Some e => Ok e.2 | None => Err "unknown document" end
|}.

(** * Quiet Echoes *)

Definition day : Z := 24 * Hour.

Definition quiet_echoes_source : Source := {|
  source_PublicationDate := "2024-09-11";
  source_Identifier := "arXiv:2409.07222v1";
  source_URL := "https://arxiv.org/abs/2409.07222v1";
  source_Title := "Dual-Step Optimization for Binary Sequences with High Merit Factors";
  source_Evidence := "our approach has successfully identified new best-known binary sequences";
  source_Location := "Abstract, final paragraph";
  source_AccessedAt := "2026-09-04"
|}.

Definition quiet_echoes_milestone (id title ticks : string) : Milestone :=
  mkMilestone [] id title ticks "At least this much below the reproduced reference.".

Definition quiet_echoes : Manifest := {|
  manifest_Evaluation := None;
  manifest_VerificationPolicy := "platform";
  manifest_APIVersion := "science-ladder/v1";
  manifest_Kind := "ChallengeManifest";
  manifest_ID := "quiet-echoes-labs512-v1";
  manifest_CreatedAt := mkTime (1000 * day) 0;
  manifest_Producer := "MatBalez via Codex";
  manifest_Slug := "quiet-echoes-labs512";
  manifest_Title := "Quiet Echoes: the 512-bit signal challenge";
  manifest_Summary := "Lower exact sidelobe energy of a 512-chip binary pulse.";
  manifest_ScientificQuestion :=
    "Can a length 512 sequence of +1 and -1 achieve aperiodic sidelobe energy E below 17996?";
  manifest_Evidence := [quiet_echoes_source];
  manifest_Impact := "Low-autocorrelation sequence design.";
  manifest_Limitations := ["The literature search is bounded."];
  manifest_SafetyClassification := "low-risk-computational";
  manifest_EconomicMode := "none";
  manifest_Metric := {|
    metric_Name := "Aperiodic sidelobe energy";
    metric_Direction := "minimize";
    metric_Unit := "sum of squared correlations";
    metric_Quantum := "1";
    metric_BaselineTicks := "17996";
    metric_MinimumDeltaTicks := "4";
    metric_ToleranceTicks := "0";
    metric_DomainMinTicks := "256";
    metric_DomainMaxTicks := "44608256" |};
  manifest_HardGates := ["one_canonical_sequence"; "binary_length_512"];
  manifest_Milestones := [
    quiet_echoes_milestone "first-lower-energy" "One real step beyond the reference" "17992";
    quiet_echoes_milestone "one-percent" "1% less sidelobe energy" "17816";
    quiet_echoes_milestone "two-point-five-percent" "2.5% less sidelobe energy" "17544";
    quiet_echoes_milestone "five-percent" "5% less sidelobe energy" "17096"];
  manifest_Deadline := mkTime (1180 * day) 0;
  manifest_Submission := mkSubmissionContract "" ["sequence.txt"] [".txt"] 513 1 "CC-BY-4.0";
  manifest_Validator := mkValidator "artifact-checker-v1"
    ["/usr/local/bin/python3"; "/sl/challenge/checker.py"] "requirements.lock"
    "sha256:a8136bf6f5082a72776f2565f279a6c336b462da483aa54cfa81586ad20705fa";
  manifest_Suite := mkSuite "public" "suite" "" None;
  manifest_Resources := mkResources "cpu-small" 1 128 5 4096;
  manifest_Fixtures := [
    mkFixture "baseline" "fixtures/baseline" "valid" "17996";
    mkFixture "valid" "fixtures/valid" "valid" "43776";
    mkFixture "invalid" "fixtures/invalid" "hard_gate_failed" "";
    mkFixture "malformed" "fixtures/malformed" "invalid_output" "";
    mkFixture "empty" "fixtures/empty" "hard_gate_failed" "";
    mkFixture "oversized" "fixtures/oversized" "invalid_output" "";
    mkFixture "maximum" "fixtures/maximum" "valid" "44608256"]
|}.

Lemma quiet_echoes_valid : ValidateManifest quiet_echoes = Ok tt.
Proof. vm_compute. reflexivity. Qed.

(** * A paired-timing challenge *)

Definition sample_digest : string := DigestBytes "baseline".

Definition timing_policy : MeasurementPolicy := {|
  measurementPolicy_Estimator := "paired-median-ratio";
  measurementPolicy_Warmups := 2;
  measurementPolicy_Repetitions := 9;
  measurementPolicy_Order := "alternating";
  measurementPolicy_ConfidencePPM := 950000;
  measurementPolicy_MaxRelativeWidth := "0.1";
  measurementPolicy_MinimumSpeedup := "1.02";
  measurementPolicy_BaselineDigest := sample_digest;
  measurementPolicy_BaselinePath := "baseline/source";
  measurementPolicy_BaselineBuild := ["/usr/bin/gcc"; "main.c"; "-o"; "main"];
  measurementPolicy_BaselineRun := ["/work/main"];
  measurementPolicy_TimerBoundary := "Process start through complete output and synchronization.";
  measurementPolicy_Population := "The locked workload cases on this exact enrolled hardware."
|}.

Definition sample_budget : StageBudget := mkStageBudget 60 1024 65536 32 1048576.
Definition timing_program : CandidateProgram := {|
  candidateProgram_Build := ["/usr/bin/gcc"; "main.c"; "-o"; "main"];
  candidateProgram_Run := ["/work/main"];
  candidateProgram_BuildBudget := sample_budget;
  candidateProgram_RunBudget := sample_budget;
  candidateProgram_MaxRuns := 22;
  candidateProgram_MinRuns := 1;
  candidateProgram_ScratchMB := 64;
  candidateProgram_Products := [mkBuildProduct "main" 1048576; mkBuildProduct "lib/table.bin" 2097152]
|}.

Definition timing_rationale : MetricRationale := {|
  metricRationale_Objective := "Run the same locked workload faster.";
  metricRationale_ImprovementMeaning := "A larger ratio is a faster program.";
  metricRationale_EvidenceURLs := ["https://arxiv.org/abs/2409.07222v1"];
  metricRationale_PreservedConditions := ["Outputs stay identical."];
  metricRationale_BaselineReason := "The published reference program.";
  metricRationale_MeaningfulDelta := "Two percent exceeds the timer noise.";
  metricRationale_ProxyAttacks := ["Caching results between runs."];
  metricRationale_PermittedClaim := "Faster on this enrolled hardware.";
  metricRationale_ExcludedClaims := ["No claim about other hardware."]
|}.

Definition timing_contract : EvaluationContract := {|
  evaluationContract_Version := EvaluationVersion;
  evaluationContract_Mode := "performance";
  evaluationContract_ComparisonID := "paired-test-v2";
  evaluationContract_Executor := mkExecutorRequirements "linux" "amd64" "none" "bench-1"
    ["isolated-checker"; "isolated-candidate"; "trusted-timing"; "sealed-products"];
  evaluationContract_Measurements :=
    [mkMeasurementDefinition "speedup" "rational" "ratio" "primary" "direct"
       "Lower confidence bound of the paired ratio." "" ""];
  evaluationContract_Rationale := timing_rationale;
  evaluationContract_Program := Some timing_program;
  evaluationContract_Measurement := Some timing_policy;
  evaluationContract_Proof := None;
  evaluationContract_Assets := []
|}.

Definition timing_manifest : Manifest := {|
  manifest_Evaluation := Some timing_contract;
  manifest_VerificationPolicy := "independent";
  manifest_APIVersion := ManifestV2;
  manifest_Kind := "ChallengeManifest";
  manifest_ID := "paired-speed-v2";
  manifest_CreatedAt := mkTime (1000 * day) 0;
  manifest_Producer := "science-ladder";
  manifest_Slug := "paired-speed";
  manifest_Title := "A faster reference program";
  manifest_Summary := "Run the locked workload faster than the reference.";
  manifest_ScientificQuestion := "How fast can the workload run?";
  manifest_Evidence := [quiet_echoes_source];
  manifest_Impact := "A faster tool.";
  manifest_Limitations := ["One machine."];
  manifest_SafetyClassification := "low-risk-computational";
  manifest_EconomicMode := "none";
  manifest_Metric := {|
    metric_Name := "speedup";
    metric_Direction := "maximize";
    metric_Unit := "ratio";
    metric_Quantum := "0.001";
    metric_BaselineTicks := "1000";
    metric_MinimumDeltaTicks := "20";
    metric_ToleranceTicks := "0";
    metric_DomainMinTicks := "";
    metric_DomainMaxTicks := "" |};
  manifest_HardGates := ["quality"];
  manifest_Milestones := [
    mkMilestone [mkMeasurementPredicate "speedup" "ge" "3/2"] "half-again" "Half again as fast" "1500" "r";
    mkMilestone [] "double" "Twice as fast" "2000" "r"];
  manifest_Deadline := mkTime (1180 * day) 0;
  manifest_Submission := mkSubmissionContract "source-v2" ["src/"] [".c"] 65536 16 "MIT";
  manifest_Validator := mkValidator "native-evaluator-v2"
    ["/usr/local/bin/python3"; "/sl/challenge/checker.py"] "requirements.lock" sample_digest;
  manifest_Suite := mkSuite "public" "suite" "" None;
  manifest_Resources := mkResources "cpu-large" 4 4096 600 4096;
  manifest_Fixtures := [
    mkFixture "baseline" "fixtures/baseline" "valid" "";
    mkFixture "valid" "fixtures/valid" "valid" "";
    mkFixture "invalid" "fixtures/invalid" "hard_gate_failed" "";
    mkFixture "malformed" "fixtures/malformed" "invalid_output" ""]
|}.

Lemma timing_manifest_valid : ValidateManifest timing_manifest = Ok tt.
Proof. vm_compute. reflexivity. Qed.

(** * Timed runs *)

#[export] Instance TimingTrial_eq_dec : EqDecision TimingTrial.
Proof. solve_decision. Defined.
#[export] Instance TimingEvidence_eq_dec : EqDecision TimingEvidence.
Proof. solve_decision. Defined.
#[export] Instance ValidatorResult_eq_dec : EqDecision ValidatorResult.
Proof. solve_decision. Defined.

Definition timing_trial (baseline : Z) (i : nat) : TimingTrial :=
  mkTimingTrial (baseline + Z.of_nat i) 100 (Nat.even i) true.
Definition timing_evidence (baseline : Z) : TimingEvidence :=
  let trials := map (timing_trial baseline) (seq 0 9) in
  mkTimingEvidence sample_digest (map (timing_trial 200) (seq 0 2)) trials
    (match SummarizeTimings trials timing_policy with
     | Ok s => s | Err _ => mkTimingSummary "" "" "" 0 0 "" false end).
Definition timing_result (baseline : Z) : ValidatorResult :=
  let evidence := timing_evidence baseline in
  let score := timingSummary_LowerRatio (timingEvidence_Summary evidence) in
  mkValidatorResult (Some evidence) "paired-test-v2" {["speedup" := score]} ManifestV2
    "ValidatorResult" score {["quality" := true]}.
Definition quiet_echoes_result : ValidatorResult :=
  mkValidatorResult None "" ∅ APIVersion "ValidatorResult" "17800"
    {["one_canonical_sequence" := true; "binary_length_512" := true]}.

(** Three validator outputs, by their document text. *)
Definition result_table : list (string * ValidatorResult) :=
  [("1", timing_result 200); ("2", timing_result 201); ("3", quiet_echoes_result)].
#[export] Instance sample_results : JsonType ValidatorResult := table_codec result_table.

Lemma table_codec_text {A} `{EqDecision A} (table : list (string * A)) v data :
  @Marshal _ (table_codec table) v = Ok data → data ∈ table.*1.
Proof.
  simpl. destruct (List.find _ table) as [e|] eqn:E; [|done]. intros [= <-].
  apply find_some in E as [Hin _]. by apply list_elem_of_fmap_2, list_elem_of_In.
Qed.
Lemma table_codec_round_trip {A} `{EqDecision A} (table : list (string * A)) v data r :
  NoDup table.*1 → @Marshal _ (table_codec table) v = Ok data →
  @DecodeKnown _ (table_codec table) data = Ok r → r = v.
Proof.
  intros Hnd Hm Hd. simpl in *.
  destruct (List.find _ table) as [[t v']|] eqn:E1 in Hm; [|done]. injection Hm as <-.
  destruct (List.find _ table) as [[t' r']|] eqn:E2 in Hd; [|done]. injection Hd as <-.
  apply find_some in E1 as [I1 G1]. apply find_some in E2 as [I2 G2]. simpl in *. bool_prop. subst.
  clear -Hnd I1 I2. induction table as [|[t0 v0] table IH]; [done|].
  apply NoDup_cons in Hnd as [Hn Hnd].
  assert (∀ x : A, In (t, x) table → t0 = t → False) as Hout.
  { intros x Hx ->. apply Hn. apply list_elem_of_In, in_map_iff. by exists (t, x). }
  destruct I1 as [E1|I1], I2 as [E2|I2]; [congruence| | |by apply IH]; exfalso; simplify_eq; eauto.
Qed.

Definition timing_run (baseline : Z) (job : string) : RunReceipt := {|
  runReceipt_ValidatorResult := Some (timing_result baseline);
  runReceipt_ParentJobDigest := ""; runReceipt_VerificationPolicy := "";
  runReceipt_AcceptanceReceiptDigest := ""; runReceipt_DeploymentMode := "";
  runReceipt_OfficialAcceptance := false; runReceipt_APIVersion := ManifestV2;
  runReceipt_Kind := "RunReceipt"; runReceipt_ID := job; runReceipt_CreatedAt := mkTime 1 0;
  runReceipt_Producer := ""; runReceipt_JobID := job; runReceipt_JobDigest := "";
  runReceipt_ChallengeLockDigest := ""; runReceipt_ArtifactDigest := sample_digest;
  runReceipt_SuiteDigest := ""; runReceipt_ExecutionProfileDigest := "";
  runReceipt_RunnerEpoch := ""; runReceipt_FencingToken := 1; runReceipt_HostID := job;
  runReceipt_HostGroup := ""; runReceipt_Official := true; runReceipt_Outcome := "valid";
  runReceipt_ScoreTicks :=
    match result_ticks (timing_result baseline) timing_manifest with Ok t => t | Err _ => "" end;
  runReceipt_Gates := {["quality" := true]}; runReceipt_DurationMillis := 1;
  runReceipt_CleanupAttested := true; runReceipt_BuildReport := None
|}.

(** * Instances of the protocol theorems *)

Lemma ValidateManifest_milestone_ladder_witness :
  ValidateManifest quiet_echoes = Ok tt ∧
  NoDup (milestone_ID <$> manifest_Milestones quiet_echoes).
Proof.
  split; [vm_compute; reflexivity|].
  destruct (ValidateManifest_milestone_ladder quiet_echoes) as (b & d & _ & _ & _ & _ & Hnd & _).
  { vm_compute. reflexivity. }
  exact Hnd.
Defined.

Lemma JobLeaseDuration_covers_schedule_witness :
  JobLeaseDuration timing_manifest "preflight" = 5880 * Second.
Proof.
  destruct (JobLeaseDuration_covers_schedule timing_manifest "preflight") as [E _].
  1, 2: vm_compute; reflexivity.
  { discriminate. }
  rewrite E. vm_compute. reflexivity.
Defined.

Lemma validateBuildProducts_within_scratch_witness :
  total_product_bytes timing_program <= 64 * 2 ^ 20.
Proof.
  apply (validateBuildProducts_within_scratch timing_program); [vm_compute; reflexivity|].
  vm_compute. discriminate.
Defined.

Lemma ValidateResult_primary_authoritative_witness :
  ∃ t p s, validatorResult_Timing (timing_result 200) = Some t ∧
    evaluationContract_Measurement timing_contract = Some p ∧
    SummarizeTimings (timingEvidence_Trials t) p = Ok s ∧
    validatorResult_Score (timing_result 200) = timingSummary_LowerRatio s.
Proof.
  destruct (ValidateResult_primary_authoritative "1" timing_manifest timing_contract
    (timing_result 200) "2010") as (_ & Ht & _).
  - vm_compute. reflexivity.
  - reflexivity.
  - reflexivity.
  - apply Ht. reflexivity.
Defined.

Lemma ConfirmMeasuredRuns_answers_witness :
  (∃ s, ConfirmMeasuredRuns (timing_run 200 "a") (timing_run 201 "b") timing_manifest = Ok s) ∨
  ConfirmMeasuredRuns (timing_run 200 "a") (timing_run 201 "b") timing_manifest
    = Err "fresh timing intervals do not overlap".
Proof.
  apply ConfirmMeasuredRuns_answers; [|vm_compute; reflexivity..].
  intros v data r Hm Hd. unfold DecodeStrict in Hd.
  destruct (CanonicalJSON data) as [c|] eqn:Ec; [|discriminate].
  assert (c = data) as ->.
  { unfold CanonicalJSON in Ec. do 2 ok_step Ec. by injection Ec. }
  apply (table_codec_round_trip result_table v data r); [|exact Hm|exact Hd].
  apply (bool_decide_unpack _). vm_compute. exact I.
Defined.

Definition sample_claim : FrontierClaim := {|
  frontierClaim_APIVersion := FrontierClaimVersion;
  frontierClaim_VersionID := "version-1";
  frontierClaim_LockDigest := sample_digest;
  frontierClaim_ArtifactDigest := sample_digest;
  frontierClaim_Mode := "frontier";
  frontierClaim_Result := Some quiet_echoes_result;
  frontierClaim_Qualification := None
|}.

Lemma ValidateClaim_evidence_witness :
  ∃ res, frontierClaim_Result sample_claim = Some res ∧ Marshal res = Ok "3".
Proof.
  destruct (ValidateClaim_evidence sample_claim quiet_echoes "17800")
    as [(_ & _ & res & data & r & E & Em & _)|[E _]].
  - vm_compute. reflexivity.
  - exists res. split; [exact E|]. injection E as <-. vm_compute. reflexivity.
  - discriminate E.
Defined.

#[export] Instance sample_env : Env := {
  Now := mkTime (1010 * day) 0; NewID := λ n, "id-" +:+ int_string (Z.of_N n) }.

(** Receipts by their identifier and data; nothing reads them back. *)
#[export] Instance sample_receipts : JsonType Receipt := {
  Marshal := λ r, Ok (MarshalAny (AMap
    [("data", any_of_map (receipt_Data r)); ("id", AString (receipt_ID r))]));
  DecodeKnown := λ _, Err "not decoded" }.

Definition sample_acceptance (policy : string) : ReceiptRow :=
  mkReceiptRow {| receipt_VerificationPolicy := policy; receipt_VerificationStatus := "";
    receipt_DeploymentMode := "production"; receipt_OfficialAcceptance := true;
    receipt_APIVersion := APIVersion; receipt_Kind := "AcceptanceReceipt"; receipt_ID := "accept";
    receipt_CreatedAt := mkTime (1005 * day) 0; receipt_Producer := "science-ladder";
    receipt_SubjectDigest := sample_digest; receipt_EconomicMode := "none"; receipt_Data := ∅ |}
    "owner" false.

Definition sample_submission (sequence : Z) (outcome status : string) (score : option Z)
    (publish : bool) : Submission :=
  mkSubmission "version-1" sequence "owner" ("artifact-" +:+ int_string sequence)
    ("disk-" +:+ int_string sequence) outcome score publish "commitment" status
    ("accept-" +:+ int_string sequence) false None.

Definition sample_db : db := {|
  t_versions := {["version-1" := mkVersion 0 4 (Ok quiet_echoes) None None]};
  t_submissions := list_to_map [
    ("sub-1", sample_submission 1 "valid" "validated" (Some 17990) false);
    ("sub-2", sample_submission 2 "valid" "validated" (Some 17800) true);
    ("sub-3", sample_submission 3 "hard_gate_failed" "validated" None true);
    ("sub-4", sample_submission 4 "pending" "running" None true)];
  t_receipts := list_to_map [
    ("accept-1", sample_acceptance "platform"); ("accept-2", sample_acceptance "");
    ("accept-3", sample_acceptance "platform"); ("accept-4", sample_acceptance "platform")];
  t_runs := [];
  t_mappings := list_to_map [
    (("first-lower-energy", "version-1"), 17992); (("one-percent", "version-1"), 17816);
    (("five-percent", "version-1"), 17096)];
  t_claims := ∅;
  t_reservations := list_to_map [
    ("sub-1", None); ("sub-2", None); ("sub-3", None); ("sub-4", None)];
  t_reserved := 8;
  t_jobs := ∅;
  t_outbox := [];
  t_audit := [];
  t_artifacts := ∅;
  t_ids := 0
|}.

Definition sample_version : Version := mkVersion 0 4 (Ok quiet_echoes) None None.

Definition sample_standing (d : db) : bool :=
  (lenl (t_audit d) =? 3) && (t_reserved d =? 2)
  && bool_decide (cl_submission <$> t_claims d !! "first-lower-energy" = Some "sub-1")
  && bool_decide (cl_submission <$> t_claims d !! "one-percent" = Some "sub-2")
  && bool_decide (t_claims d !! "five-percent" = None).

(** Three submissions are finalised; the first and the second hold the milestones
    they were first to reach. *)
Lemma sample_run :
  match adjudicate sample_db "version-1" with
  | Some (Ok d) => sample_standing d | _ => false end = true.
Proof. vm_compute. reflexivity. Qed.

Lemma sample_after :
  ∃ d, adjudicate sample_db "version-1" = Some (Ok d) ∧ sample_standing d = true.
Proof.
  pose proof sample_run as E. destruct (adjudicate sample_db "version-1") as [[d|]|]; [|discriminate..].
  by exists d.
Qed.

Lemma sample_stored : t_versions sample_db !! "version-1" = Some sample_version.
Proof. reflexivity. Qed.

Lemma adjudicate_in_order_witness :
  ∃ d v', adjudicate sample_db "version-1" = Some (Ok d) ∧
    t_versions d !! "version-1" = Some v' ∧ ver_watermark v' ≤ 4.
Proof.
  destruct sample_after as (d & Hd & _).
  destruct (adjudicate_in_order sample_db "version-1" d Hd)
    as (v & v' & entries & Ev & Ev' & _ & _ & Hle & _).
  exists d, v'. split; [exact Hd|]. split; [exact Ev'|]. rewrite sample_stored in Ev.
  injection Ev as <-. exact Hle.
Defined.

Lemma adjudicate_refines_ladder_witness :
  ∃ d entries v', adjudicate sample_db "version-1" = Some (Ok d) ∧
    t_versions d !! "version-1" = Some v' ∧
    finalized_run sample_db "version-1" 0 (ver_watermark v') entries d.
Proof.
  destruct sample_after as (d & Hd & _).
  destruct (adjudicate_refines_ladder sample_db "version-1" d sample_version
    quiet_echoes 17996 4 Hd sample_stored) as (entries & v' & Hv & Hrun & _); [vm_compute; reflexivity..|].
  exists d, entries, v'. split; [exact Hd|]. split; [exact Hv|exact Hrun].
Defined.

Lemma adjudicate_best_unbeaten_witness :
  ∃ d v', adjudicate sample_db "version-1" = Some (Ok d) ∧ t_versions d !! "version-1" = Some v' ∧
    beats "minimize" 17996 (stored_score d (ver_best v') 17996) = false.
Proof.
  destruct sample_after as (d & Hd & _).
  destruct (adjudicate_best_unbeaten sample_db "version-1" d sample_version
    quiet_echoes 17996 4 Hd sample_stored) as (v' & entries & Hv & _ & Hbest & _); [vm_compute; reflexivity..|].
  exists d, v'. split; [exact Hd|]. split; [exact Hv|exact Hbest].
Defined.

Lemma adjudicate_first_claim_witness :
  ∃ d v' entries, cl_submission <$> t_claims d !! "first-lower-energy" = Some "sub-1" ∧
    t_versions d !! "version-1" = Some v' ∧
    finalized_run sample_db "version-1" 0 (ver_watermark v') entries d.
Proof.
  destruct sample_after as (d & Hd & Hs).
  destruct (adjudicate_first_claim sample_db "version-1" d sample_version
    quiet_echoes 17996 4 "first-lower-energy" "sub-1" Hd sample_stored)
    as (v' & entries & Hv & Hrun & _); [vm_compute; reflexivity..|].
  exists d, v', entries. unfold sample_standing in Hs. bool_prop.
  split; [assumption|]. split; [exact Hv|exact Hrun].
Defined.

Lemma adjudicate_audit_chain_witness :
  ∃ d, adjudicate sample_db "version-1" = Some (Ok d) ∧ chain_ok (t_audit d) ∧ lenl (t_audit d) = 3.
Proof.
  destruct sample_after as (d & Hd & Hs). exists d. unfold sample_standing in Hs. bool_prop.
  split; [exact Hd|]. split; [|assumption].
  destruct (adjudicate_audit_chain sample_db "version-1" d sample_version Hd sample_stored)
    as (v' & rows & _ & Hc & _); [exact I|]. exact Hc.
Defined.

Lemma adjudicate_capacity_witness :
  ∃ d, adjudicate sample_db "version-1" = Some (Ok d) ∧ capacity_ok d ∧ t_reserved d = 2.
Proof.
  destruct sample_after as (d & Hd & Hs). exists d. unfold sample_standing in Hs. bool_prop.
  split; [exact Hd|]. split; [|assumption].
  destruct (adjudicate_capacity sample_db "version-1" d sample_version Hd sample_stored)
    as (v' & entries & _ & _ & Hc & _); [vm_compute; reflexivity|]. exact Hc.
Defined.
