(* ===== verification/AuditSamples.v ===== *)
(** A small log with a root, an issuer and three witnesses, on which the theorems on
    signatures, checkpoints, key histories, releases and the witness journal are
    instantiated.  Keys are single bytes and a signature is the key followed by the
    hash. *)

From S2P Require Import Prelude Regex GoLib Numbers Types Paths Validate Sha256 GoJson Canonical.
From S2P Require Import Documents Signatures Checkpoint CheckpointProofs History HistoryProofs.
From S2P Require Import Witness WitnessProofs Samples.
From Stdlib Require Import Ascii.
Open Scope Z_scope.

#[export] Instance sample_crypto : Crypto := {
  PublicKey := Z; Signer := Z; IsP256 := λ _, true;
  VerifyASN1 := λ k hash sig, sig ==s of_bytes (k :: hash);
  Public := λ k, k;
  SignHash := λ k hash, Ok (of_bytes (k :: hash));
  MarshalPKIX := λ k, Ok (of_bytes [k]) }.
#[export] Instance sample_pki : Pki := {
  PemDecode := λ s, Some ("PUBLIC KEY", s, "");
  ParsePKIX := λ s, match bytes_of s with [k] => Some k | _ => None end }.

Definition root_key : Signer := 82.
Definition log_key : Signer := 76.
Definition witness_key (c : Z) : Signer := c.

#[export] Instance Event_eq_dec : EqDecision Event.
Proof. solve_decision. Defined.
#[export] Instance Checkpoint_eq_dec : EqDecision Checkpoint.
Proof. solve_decision. Defined.
#[export] Instance Signature_eq_dec : EqDecision Signature.
Proof. solve_decision. Defined.
#[export] Instance Envelope_eq_dec : EqDecision Envelope.
Proof. solve_decision. Defined.
#[export] Instance Bundle_eq_dec : EqDecision Bundle.
Proof. solve_decision. Defined.
#[export] Instance witnessedRecord_eq_dec : EqDecision witnessedRecord.
Proof. solve_decision. Defined.
#[export] Instance Delegation_eq_dec : EqDecision Delegation.
Proof. solve_decision. Defined.
#[export] Instance WitnessIdentity_eq_dec : EqDecision WitnessIdentity.
Proof. solve_decision. Defined.
#[export] Instance witnessMembership_eq_dec : EqDecision witnessMembership.
Proof. solve_decision. Defined.
#[export] Instance History_eq_dec : EqDecision History.
Proof. solve_decision. Defined.

(** * A checkpoint over two events *)

Definition sample_event (sequence kind payload previous : string) : Event :=
  mkEvent sequence kind payload previous
    (match EventDigest previous kind payload with Ok d => d | Err _ => "" end).
Definition event_1 : Event := sample_event "1" "challenge.published" "[1]" Genesis.
Definition event_2 : Event := sample_event "2" "submission.adjudicated" "[2]" (event_Digest event_1).

Definition sample_now : Time := mkTime (1020 * day) 0.
Definition checkpoint_1 : Checkpoint :=
  match @Build _ (table_codec []) "log" [event_1; event_2] None (mkTime (1010 * day) 0) with
  | Ok c => c
  | Err _ => mkCheckpoint "" "" "" "" "" "" "" "" "" (mkTime 0 0)
  end.
#[export] Instance sample_checkpoints : JsonType Checkpoint := table_codec [("21", checkpoint_1)].

Definition platform_envelope : Envelope :=
  match Sign "log-key" (Some log_key) checkpoint_1 with
  | Ok e => e | Err _ => mkEnvelope "" "" [] end.
Definition witness_envelope (id : string) (key : Signer) : Envelope :=
  match Sign id (Some key) checkpoint_1 with Ok e => e | Err _ => mkEnvelope "" "" [] end.

Lemma sample_canonical data c : CanonicalJSON data = Ok c → CanonicalJSON c = Ok c.
Proof.
  intros Hc. assert (c = data) as ->; [|done]. unfold CanonicalJSON in Hc. do 2 ok_step Hc.
  by injection Hc.
Qed.

Lemma Sign_Verify_witness :
  ∃ envelope payload, Sign "log-key" (Some log_key) checkpoint_1 = Ok envelope ∧
    Verify envelope {["log-key" := Public log_key]} = Ok payload.
Proof.
  assert (is_ok (Sign "log-key" (Some log_key) checkpoint_1) = true) as E
    by (vm_compute; reflexivity).
  destruct (Sign "log-key" (Some log_key) checkpoint_1) as [envelope|] eqn:Es; [|discriminate].
  destruct (Sign_Verify "log-key" log_key checkpoint_1 envelope sample_canonical)
    as (data & payload & _ & _ & Hv).
  - intros k hash sig Hs. injection Hs as <-. apply String.eqb_refl.
  - exact Es.
  - exists envelope, payload. split; [reflexivity|exact Hv].
Defined.

Lemma Build_tamper_evident_witness :
  ∃ c, Build "log" [event_1; event_2] None sample_now = Ok c ∧
    Forall2 same_event [event_1; event_2] [event_1; event_2].
Proof.
  assert (is_ok (Build "log" [event_1; event_2] None sample_now) = true) as E
    by (vm_compute; reflexivity).
  destruct (Build "log" [event_1; event_2] None sample_now) as [c|] eqn:Eb; [|discriminate].
  exists c. split; [reflexivity|].
  apply (Build_tamper_evident "log" "log" _ _ None sample_now sample_now c c Eb Eb eq_refl eq_refl).
  apply collision_freeb_ok. vm_compute. reflexivity.
Defined.

(** * A quorum *)

Definition sample_keys : gmap string PublicKey :=
  list_to_map 
    [("witness-a", Public (witness_key 97)); ("witness-b", Public (witness_key 98));
     ("witness-c", Public (witness_key 99))].
Definition sample_operators : gmap string string :=
  list_to_map [("witness-a", "Alpha"); ("witness-b", "Beta"); ("witness-c", "Gamma")].

Lemma VerifyQuorum_independent_witness :
  ∃ op1 op2 id1 id2 k1 k2, op1 ≠ op2 ∧ id1 ≠ id2 ∧
    Fingerprint (Some k1) ≠ Fingerprint (Some k2) ∧
    voted platform_envelope [witness_envelope "witness-a" (witness_key 97); witness_envelope "witness-c" (witness_key 99)]
      sample_keys sample_operators op1 id1 k1 ∧
    voted platform_envelope [witness_envelope "witness-a" (witness_key 97); witness_envelope "witness-c" (witness_key 99)]
      sample_keys sample_operators op2 id2 k2.
Proof. apply (VerifyQuorum_independent _ _ _ _ 2). vm_compute. reflexivity. Defined.

(** * Key histories *)

Definition sample_delegation (id pem role host : string) (revoked : option Time) : Delegation :=
  mkDelegation id pem [role] (mkTime (900 * day) 0) (mkTime (2000 * day) 0) revoked host "hsm".
Definition sample_delegations : list Delegation := [
  sample_delegation "log-key" "L" "audit-checkpoint" "" None;
  sample_delegation "witness-a" "a" "audit-witness" "" None;
  sample_delegation "witness-b" "b" "audit-witness" "" None;
  sample_delegation "witness-c" "c" "audit-witness" "" None;
  sample_delegation "runner-1" "r" "validation-run" "host-1" (Some (mkTime (950 * day) 0))].

Definition sample_history (previous : string) (at_ : Z) (third : string) : History := {|
  history_APIVersion := APIVersion;
  history_Kind := "KeyHistory";
  history_RootFingerprint := fingerprint_of (Public root_key);
  history_PreviousDigest := previous;
  history_GenesisCheckpointDigest := mustDigest checkpoint_1;
  history_IssuedAt := mkTime (at_ * day) 0;
  history_Delegations := sample_delegations;
  history_Witnesses := [mkWitnessIdentity "witness-a" "Alpha"; mkWitnessIdentity "witness-b" "Beta";
    mkWitnessIdentity "witness-c" third];
  history_WitnessQuorum := 2;
  history_OutageGraceSeconds := 3600;
  history_priorWitnesses := []
|}.
Definition history_1 : History := sample_history Genesis 1000 "Gamma".
Definition history_2 : History := sample_history (Hash "11") 1015 "Delta".

#[export] Instance sample_histories : JsonType History :=
  table_codec [("11", history_1); ("12", history_2)].
(** Delegations are only digested. *)
#[export] Instance sample_delegation_codec : JsonType Delegation := {
  Marshal := λ d, Ok (MarshalAny (AMap [
    ("keyId", AString (delegation_KeyID d)); ("pem", AString (delegation_PublicKeyPEM d));
    ("roles", AList (map AString (delegation_Roles d)));
    ("notBefore", AInt (t_ns (delegation_NotBefore d)));
    ("notAfter", AInt (t_ns (delegation_NotAfter d)));
    ("hostId", AString (delegation_HostID d)); ("custody", AString (delegation_Custody d))]));
  DecodeKnown := λ _, Err "not decoded" }.

Definition history_envelope (h : History) : Envelope :=
  match Sign "root" (Some root_key) h with Ok e => e | Err _ => mkEnvelope "" "" [] end.

(** The witness membership of the first epoch, as the second one records it. *)
Definition verified_2 : History :=
  set_prior history_2 [mkWitnessMembership (history_IssuedAt history_1) (history_Witnesses history_1) true].

Lemma history_1_verifies :
  VerifyHistory (history_envelope history_1) "root" (Public root_key) None sample_now = Ok history_1.
Proof. vm_compute. reflexivity. Qed.
Lemma history_2_verifies :
  VerifyHistory (history_envelope history_2) "root" (Public root_key) (Some history_1) sample_now
  = Ok verified_2.
Proof. vm_compute. reflexivity. Qed.

Lemma revocation_permanent_witness :
  KeysAt verified_2 "validation-run" sample_now !! "runner-1" = None.
Proof.
  apply (revocation_permanent (history_envelope history_1) "root" (Public root_key) None sample_now
    history_1 verified_2 (sample_delegation "runner-1" "r" "validation-run" "host-1"
      (Some (mkTime (950 * day) 0))) (mkTime (950 * day) 0) "validation-run" sample_now).
  - exact history_1_verifies.
  - apply rtc_once. exists (history_envelope history_2), sample_now. exact history_2_verifies.
  - do 4 right. left.
  - reflexivity.
  - vm_compute. discriminate.
Defined.

Lemma membership_immutable_witness :
  WitnessOperatorsAt verified_2 (mkTime (1005 * day) 0)
  = WitnessOperatorsAt history_1 (mkTime (1005 * day) 0).
Proof.
  apply (membership_immutable (history_envelope history_2) "root" (Public root_key) history_1
    sample_now verified_2).
  - exact history_2_verifies.
  - vm_compute. reflexivity.
Defined.

Lemma VerifyHistory_witnesses_witness :
  NoDup (witnessIdentity_Operator <$> history_Witnesses verified_2).
Proof.
  exact (proj1 (proj2 (VerifyHistory_witnesses (history_envelope history_2) "root" (Public root_key)
    (Some history_1) sample_now verified_2 history_2_verifies))).
Defined.

(** * A release *)

Definition sample_evidence (kind : string) : ReleaseEvidence :=
  mkReleaseEvidence kind (Hash kind) "https://evidence.example/report" "Assessor"
    (mkTime (1001 * day) 0).
Definition sample_commit : string := "0123456789abcdef0123456789abcdef01234567".
Definition sample_release : ReleaseAttestation := {|
  releaseAttestation_APIVersion := APIVersion;
  releaseAttestation_Kind := "OfficialReleaseAttestation";
  releaseAttestation_SourceCommit := sample_commit;
  releaseAttestation_IssuedAt := mkTime (1010 * day) 0;
  releaseAttestation_ExpiresAt := mkTime (1100 * day) 0;
  releaseAttestation_KeyHistoryDigest := mustDigest history_1;
  releaseAttestation_Evidence := map sample_evidence required_evidence
|}.
#[export] Instance sample_releases : JsonType ReleaseAttestation := {
  Marshal := λ _, Ok "31"; DecodeKnown := λ _, Ok sample_release }.

Lemma VerifyRelease_complete_witness :
  releaseEvidence_Kind <$> releaseAttestation_Evidence sample_release ≡ₚ required_evidence.
Proof.
  destruct (VerifyRelease_complete
    (match Sign "root" (Some root_key) sample_release with
     | Ok e => e | Err _ => mkEnvelope "" "" [] end) "root" (Public root_key)
    (mustDigest history_1) sample_commit sample_now sample_release) as (_ & _ & _ & Hp & _).
  { vm_compute. reflexivity. }
  exact Hp.
Defined.

(** * A witness that signs, loses power and restarts *)

Definition sample_bundle (payload : string → string) : Bundle :=
  mkBundle (mkEnvelope PayloadType (payload (envelope_Payload platform_envelope))
    (envelope_Signatures platform_envelope)) [] [event_1; event_2].
Definition sample_record (payload : string → string) (signature : Envelope) : witnessedRecord :=
  mkWitnessedRecord (sample_bundle payload) (Some signature) false.
(** The size estimate the witness encodes before it asks its key to sign. *)
Definition sample_estimate (payload : string → string) : witnessedRecord :=
  sample_record payload (mkEnvelope PayloadType (payload (envelope_Payload platform_envelope))
    [mkSignature "witness-a" (string_of (repeat "A"%char 96))]).
Definition broken (payload : string) : string := String newline payload.

Definition record_table : list (string * witnessedRecord) := [
  ("41", sample_record id (witness_envelope "witness-a" (witness_key 97)));
  ("42", sample_estimate id); ("43", sample_estimate broken)].
#[export] Instance sample_records : JsonType witnessedRecord := table_codec record_table.

#[export] Instance sample_journal : JournalCodec.
Proof.
  split.
  - intros r data Hm. apply (table_codec_text record_table) in Hm.
    assert (Forall (λ t, newline ∉ list_of t ∧ "013"%char ∉ list_of t) ["41"; "42"; "43"]) as Hall.
    { repeat constructor; apply (bool_decide_unpack _); vm_compute; exact I. }
    rewrite Forall_forall in Hall. by apply Hall.
  - intros r data r' Hm Hd _. f_equal. apply (table_codec_round_trip record_table r data r').
    + apply (bool_decide_unpack _). vm_compute. exact I.
    + exact Hm.
    + exact Hd.
Qed.

Definition sample_open (d : disk) : disk * result Witness :=
  openWitness d (mkOpenEnv true true true true true true) "witness-a" (Some (witness_key 97))
    history_1 sample_now.
Definition sample_observe (d : disk) (w : Witness) : disk * Witness * result (option Envelope) :=
  Observe d w (sample_bundle id) sample_now (mkWriteEnv 3 true true).

(** The vote is released, and after a power loss the restarted witness hands out
    the same vote. *)
Lemma sample_votes :
  match sample_open (mkDisk [] []) with
  | (d, Ok w) =>
      match sample_observe d w with
      | (d, _, Ok (Some _)) =>
          match sample_open (mkDisk (dk_durable d ++ take 0 (dk_pending d)) []) with
          | (_, Ok w) =>
              bool_decide (bundle_Witnesses <$> Latest w
                = Some [witness_envelope "witness-a" (witness_key 97)])
          | _ => false
          end
      | _ => false
      end
  | _ => false
  end = true.
Proof. vm_compute. reflexivity. Qed.

Lemma witness_single_chain_witness :
  ∃ s, rtc step initial s ∧
    witness_envelope "witness-a" (witness_key 97) ∈ mc_released s ∧
    ∃ chain, linked None chain ∧ Forall (votes_in chain) (mc_released s).
Proof.
  pose proof sample_votes as E. destruct (sample_open (mkDisk [] [])) as [d [w|]] eqn:E1; [|done].
  destruct (sample_observe d w) as [[d' w'] [[v|]|]] eqn:E2; [|done..].
  destruct (sample_open (mkDisk (dk_durable d' ++ take 0 (dk_pending d')) [])) as [d'' [w''|]] eqn:E3; [|done].
  apply bool_decide_eq_true in E. destruct (Latest w'') as [b|] eqn:E4; [|done]. injection E as E.
  pose (s := mkMachine d'' (Some w'') (bundle_Witnesses b ++ [v])).
  assert (rtc step initial s) as Hs.
  { eapply rtc_l; [apply (step_open (mkDisk [] []) [] (mkOpenEnv true true true true true true)
      "witness-a" (Some (witness_key 97)) history_1 sample_now)|].
    fold (sample_open (mkDisk [] [])). rewrite E1.
    eapply rtc_l; [apply (step_observe d w [] (sample_bundle id) sample_now (mkWriteEnv 3 true true))|].
    fold (sample_observe d w). rewrite E2.
    eapply rtc_l; [apply (step_crash d' _ _ 0)|].
    eapply rtc_l; [apply (step_open _ _ (mkOpenEnv true true true true true true)
      "witness-a" (Some (witness_key 97)) history_1 sample_now)|].
    fold (sample_open (mkDisk (dk_durable d' ++ take 0 (dk_pending d')) [])). rewrite E3.
    eapply rtc_l; [apply (step_latest d'' w'' _ b E4)|apply rtc_refl]. }
  exists s. split; [exact Hs|]. split; [unfold s; simpl; rewrite E; left|].
  exact (witness_single_chain s Hs).
Defined.

Definition sample_witness : Witness :=
  mkWitness true "witness-a" (witness_key 97) history_1 None None false.

