(* ===== verification/ArtifactSamples.v ===== *)
(** A contract, a set of two files, the archive and the directory that carry it, and a
    hidden suite sealed with a toy cipher: the artifact and hidden-suite theorems at
    concrete inputs. *)

From S2P Require Import Prelude GoLib Numbers Types Paths Scores Validate Sha256 GoJson Canonical.
From S2P Require Import Documents Checkpoint CheckpointProofs Artifacts ArtifactsProofs Hidden HiddenProofs Samples.
From Stdlib Require Import Ascii.
Open Scope Z_scope.

Definition sample_contract : SubmissionContract := {|
  submissionContract_Format := "";
  submissionContract_AllowedPaths := ["solution.json"; "data/"];
  submissionContract_AllowedExtensions := [".json"; ".csv"];
  submissionContract_MaxBytes := 64; submissionContract_MaxFiles := 2;
  submissionContract_License := "CC0-1.0" |}.

Definition sample_files : Files := {["solution.json" := "[1,2]"; "data/a.csv" := "x,y"]}.

Definition sample_order (files : Files) : list (string * Bytes) := rev (map_to_list files).

Lemma sample_order_ok : map_order sample_order.
Proof. intros files. unfold sample_order. by rewrite <-Permutation_rev. Qed.

Definition sample_tree : ArtifactTree := Eval vm_compute in
  tree_of sample_files ["solution.json"; "data/a.csv"].

Definition sample_tree_text : string := "[1]".

#[export] Instance ArtifactEntry_eq_dec : EqDecision ArtifactEntry.
Proof. solve_decision. Defined.
#[export] Instance ArtifactTree_eq_dec : EqDecision ArtifactTree.
Proof. solve_decision. Defined.

#[export] Instance sample_tree_codec : JsonType ArtifactTree := table_codec [(sample_tree_text, sample_tree)].
#[export] Instance sample_TreeCodec : TreeCodec.
Proof.
  split. intros tree data _. unfold encode_or_empty.
  destruct (decide (tree = sample_tree)) as [->|Hn].
  - assert (CanonicalJSON (match Marshal sample_tree with Ok d => d | Err _ => "" end) = Ok sample_tree_text)
      as -> by (vm_compute; reflexivity).
    intros [= <-]. reflexivity.
  - simpl. rewrite bool_decide_eq_false_2 by congruence. discriminate.
Qed.

Lemma sample_addressable : addressable sample_files.
Proof.
  intros n d Hd. unfold sample_files in Hd.
  apply lookup_insert_Some in Hd as [[_ <-]|[_ Hd]]; [reflexivity|].
  apply lookup_singleton_Some in Hd as [_ <-]. reflexivity.
Qed.

Definition sample_digest : string := Eval vm_compute in
  match treeFor sample_files (sample_order sample_files) sample_contract with Ok (_, d) => d | Err _ => "" end.

Lemma sample_treeFor :
  treeFor sample_files (sample_order sample_files) sample_contract = Ok (sample_tree, sample_digest).
Proof. vm_compute. reflexivity. Qed.

Lemma treeFor_exact_witness :
  accepted_files sample_contract sample_files ∧ sample_tree = canonical_tree sample_files.
Proof.
  destruct (proj1 (treeFor_exact sample_contract sample_files (sample_order sample_files) sample_tree sample_digest
    (sample_order_ok sample_files) sample_addressable) sample_treeFor) as (_ & HA & HT & _).
  split; [exact HA|exact HT].
Defined.

Lemma artifact_digest_binds_witness : sample_files = sample_files ∧ sample_tree = sample_tree.
Proof.
  apply (artifact_digest_binds sample_contract sample_contract sample_files sample_files
    (sample_order sample_files) (sample_order sample_files) sample_tree sample_tree sample_digest
    (sample_order_ok _) (sample_order_ok _) sample_addressable sample_addressable
    sample_treeFor sample_treeFor).
  apply collision_freeb_ok. vm_compute. reflexivity.
Defined.

Definition sample_archive : Archive := {|
  ar_magic := [115; 111]; ar_gzip := Ok tt;
  ar_members := (Ok ∘ pack_member) <$> [("data/a.csv", "x,y"); ("solution.json", "[1,2]")];
  ar_padding := [String "000" (String "000" "")]; ar_last := ("", None);
  ar_decoded := 3072; ar_counted := 3072 |}.

Definition sample_walk : list (result WalkEntry) :=
  (Ok ∘ walk_entry) <$> [DirItem "data"; FileItem "data/a.csv" "x,y"; FileItem "solution.json" "[1,2]"].

Lemma sample_read :
  ReadArtifactArchive sample_archive sample_order sample_contract
  = Ok (sample_files, sample_tree, sample_digest).
Proof. vm_compute. reflexivity. Qed.

Lemma ReadArtifactArchive_safe_witness : accepted_files sample_contract sample_files.
Proof.
  destruct (ReadArtifactArchive_safe sample_archive sample_order sample_contract sample_files sample_tree
    sample_digest sample_order_ok sample_read) as (_ & HA & _). exact HA.
Defined.

Lemma sample_packs : packs sample_archive [("data/a.csv", "x,y"); ("solution.json", "[1,2]")].
Proof. split_and!; try (vm_compute; congruence); reflexivity. Qed.

Lemma sample_walks : walks sample_walk [("data/a.csv", "x,y"); ("solution.json", "[1,2]")].
Proof.
  eexists. split_and!; [reflexivity|reflexivity|].
  repeat constructor.
Qed.

Lemma sample_listing : [("data/a.csv", "x,y"); ("solution.json", "[1,2]")] ≡ₚ map_to_list sample_files.
Proof.
  unfold sample_files. rewrite map_to_list_insert, map_to_list_singleton by reflexivity. constructor.
Qed.

Lemma archive_directory_agree_witness :
  ReadArtifactArchive sample_archive sample_order sample_contract
  = Ok (sample_files, sample_tree, sample_digest) ∧
  CanonicalArtifact (Ok (true, false)) sample_walk sample_order sample_contract
  = Ok (sample_tree, sample_digest).
Proof.
  apply (archive_directory_agree sample_archive sample_walk
    [("data/a.csv", "x,y"); ("solution.json", "[1,2]")]).
  - exact sample_order_ok.
  - exact sample_addressable.
  - exact sample_listing.
  - exact sample_packs.
  - exact sample_walks.
  - exact sample_treeFor.
Defined.

Lemma CanonicalArtifact_safe_witness : ∃ entries, sample_walk = Ok <$> entries.
Proof.
  destruct (CanonicalArtifact_safe (Ok (true, false)) sample_walk sample_order sample_contract sample_tree
    sample_digest) as (_ & es & Hes & _); [vm_compute; reflexivity|].
  exists es. exact Hes.
Defined.

(** * Hidden suites *)

(** A keyed tag before the plaintext: it satisfies the laws, and hides nothing. *)
Definition toy_tag (key nonce p aad : Bytes) : list ascii :=
  map byte_of (take 16 (HMAC (bytes_of key) (bytes_of (nonce +:+ aad +:+ p)))).

#[export] Instance toy_aead : Aead := {
  GcmSeal key nonce p aad := string_of (toy_tag key nonce p aad ++ list_of p);
  GcmOpen key nonce c aad :=
    let p := string_of (drop 16 (list_of c)) in
    if bool_decide (take 16 (list_of c) = toy_tag key nonce p aad) then Ok p else Err "tag" }.

Lemma toy_tag_length key nonce p aad : length (toy_tag key nonce p aad) = 16%nat.
Proof. unfold toy_tag, HMAC. by rewrite length_map, length_take, Sum256_length. Qed.

#[export] Instance toy_aead_laws : AeadLaws.
Proof.
  split; intros; unfold GcmSeal, GcmOpen, toy_aead in *; cbv zeta in *.
  - rewrite list_of_string_of, drop_app_length', take_app_length' by (by rewrite toy_tag_length).
    rewrite string_of_list_of. by rewrite bool_decide_eq_true_2.
  - case_bool_decide as Ht; [|done]. simplify_eq. rewrite <-Ht, list_of_string_of, take_drop.
    by rewrite string_of_list_of.
  - rewrite len_string_of. unfold lenl, len. rewrite length_app, toy_tag_length, length_list_of. lia.
Qed.

#[export] Instance toy_curve : Curve := {
  NewPublicKey := λ b, if len b =? 32 then Ok b else Err "crypto/ecdh: invalid public key";
  NewPrivateKey := λ b, if len b =? 32 then Ok b else Err "crypto/ecdh: invalid private key";
  PublicOf := id;
  ECDH := λ a b, Ok (of_bytes (zip_with Z.lxor (bytes_of a) (bytes_of b))) }.

#[export] Instance toy_curve_laws : CurveLaws.
Proof.
  split.
  - intros k private. simpl. destruct (len k =? 32) eqn:E; [|done]. intros [= ->]. by rewrite E.
  - intros a b. simpl. do 2 f_equal. generalize (bytes_of a) (bytes_of b).
    induction l as [|x l IH]; intros [|y k]; simpl; try done. by rewrite Z.lxor_comm, IH.
Qed.

Definition key32 (c : ascii) : Bytes := string_of (repeat c 32).

#[export] Instance sample_any_type : JsonType anyValue := {
  Marshal := λ _, Err "unused"; DecodeKnown := λ _, Ok ANull }.

Definition sample_suite : string := "[7]".

Definition sample_material : SuiteKeyMaterial := Eval vm_compute in
  match SealHiddenSuite (Ok (key32 "k")) (Ok (key32 "s")) sample_suite with
  | Ok (_, m) => m | Err _ => mkSuiteKeyMaterial "" "" "" "" end.
Definition sample_object : Bytes := Eval vm_compute in
  match SealHiddenSuite (Ok (key32 "k")) (Ok (key32 "s")) sample_suite with
  | Ok (c, _) => c | Err _ => "" end.

#[export] Instance SuiteKeyMaterial_eq_dec : EqDecision SuiteKeyMaterial.
Proof. solve_decision. Defined.
#[export] Instance sample_material_type : JsonType SuiteKeyMaterial := table_codec [("[2]", sample_material)].

#[export] Instance sample_material_codec : MaterialCodec.
Proof.
  split; intros m doc _ HM; simpl in HM; destruct (decide (sample_material = m)) as [<-|Hn].
  - rewrite bool_decide_eq_true_2 in HM by done. injection HM as <-. vm_compute. reflexivity.
  - by rewrite bool_decide_eq_false_2 in HM.
  - rewrite bool_decide_eq_true_2 in HM by done. injection HM as <-. vm_compute. discriminate.
  - by rewrite bool_decide_eq_false_2 in HM.
Qed.

Definition sample_job_context : string :=
  HiddenSuiteContext "job-1" (suiteKeyMaterial_Commitment sample_material).
Definition sample_capsule : KeyCapsule := Eval vm_compute in
  match WrapSuiteKey (Ok (key32 "e")) (Ok (string_of (repeat "n"%char 12))) (key32 "h") sample_material
          sample_job_context with
  | Ok c => c | Err _ => mkKeyCapsule "" "" "" "" "" end.

Lemma sample_sealed :
  SealHiddenSuite (Ok (key32 "k")) (Ok (key32 "s")) sample_suite = Ok (sample_object, sample_material).
Proof. vm_compute. reflexivity. Qed.

Lemma sample_wrapped :
  WrapSuiteKey (Ok (key32 "e")) (Ok (string_of (repeat "n"%char 12))) (PublicOf (key32 "h"))
    sample_material sample_job_context = Ok sample_capsule.
Proof. vm_compute. reflexivity. Qed.

Lemma hidden_suite_roundtrip_witness :
  ∃ m canonical, UnwrapSuiteKey (key32 "h") sample_capsule sample_job_context = Ok m ∧
    Transform sample_suite = Ok canonical ∧ DecryptSuiteObject m sample_object "source" = Ok canonical.
Proof.
  apply (hidden_suite_roundtrip (Ok (key32 "k")) (Ok (key32 "s")) sample_suite sample_object
    sample_material (key32 "h") (key32 "h") (key32 "e") (key32 "e")
    (Ok (string_of (repeat "n"%char 12))) "job-1" sample_capsule).
  - exact sample_sealed.
  - intros canonical [= <-]. vm_compute. discriminate.
  - reflexivity.
  - reflexivity.
  - exact sample_wrapped.
Defined.

Lemma sample_unwrapped : ∃ m, UnwrapSuiteKey (key32 "h") sample_capsule sample_job_context = Ok m.
Proof. eexists. vm_compute. reflexivity. Qed.

Lemma capsule_binds_job_witness : "job-1" = "job-1".
Proof.
  destruct sample_unwrapped as [m Hm].
  refine (proj1 (capsule_binds_job (key32 "h") (key32 "h") sample_capsule "job-1" "job-1"
    (suiteKeyMaterial_Commitment sample_material) (suiteKeyMaterial_Commitment sample_material) m m
    _ _ Hm Hm _)).
  - unfold no_nul. apply (bool_decide_eq_true_1 ("000"%char ∉ list_of "job-1")). vm_compute. reflexivity.
  - unfold no_nul. apply (bool_decide_eq_true_1 ("000"%char ∉ list_of "job-1")). vm_compute. reflexivity.
  - apply collision_freeb_ok. vm_compute. reflexivity.
Defined.

Lemma SuiteCommitment_binds_witness : key32 "s" = key32 "s".
Proof.
  refine (proj2 (SuiteCommitment_binds (DigestBytes "[7]") (DigestBytes "[7]") (key32 "s") (key32 "s")
    (suiteKeyMaterial_Commitment sample_material) _ _ _)).
  - vm_compute. reflexivity.
  - vm_compute. reflexivity.
  - apply collision_freeb_ok. vm_compute. reflexivity.
Defined.

Lemma suite_nonces_distinct_witness : sample_suite = sample_suite ∧ "disk" = "disk".
Proof.
  apply (suite_nonces_distinct sample_material sample_suite sample_suite "disk" "disk").
  - right. reflexivity.
  - right. reflexivity.
  - intros x y [->|[->|[]%not_elem_of_nil]%elem_of_cons]%elem_of_cons
      [->|[->|[]%not_elem_of_nil]%elem_of_cons]%elem_of_cons _; reflexivity.
  - apply collision_freeb_ok. vm_compute. reflexivity.
  - reflexivity.
Defined.
