(* ===== verification/RunnerSamples.v ===== *)
(** A submission verified by two hosts: it is queued, claimed by host a, taken back when
    the lease lapses, run by host b under the next fence, confirmed by host a, and
    decided.  The theorems of the fleet are instantiated on this run. *)

From S2P Require Import Prelude Regex GoLib Numbers Types Scores Paths Measurement Evaluation.
From S2P Require Import Validate Sha256 GoJson Canonical Documents Results Frontier Hidden Signatures Checkpoint History.
From S2P Require Import Store Adjudication Platform Preparation Suites Runners Editorial Intake Submissions.
From S2P Require Import AdjudicationProofs LedgerProofs Fleet FleetSteps RunnersProofs.
From S2P Require Import Samples AuditSamples ArtifactSamples.
From stdpp Require Import relations.
From Stdlib Require Import Ascii.
Open Scope Z_scope.

(** * Codecs *)

#[export] Instance toy_store : ObjectStore := {
  SignedRead := λ d _, Ok ("https://objects/" +:+ d);
  SignedWrite := λ d _ _, Ok ("https://uploads/" +:+ d);
  StoreVerify := λ _ _, Ok tt }.
#[export] Instance toy_sealer : SecretSealer := {
  SealerSeal := λ b _, Ok b; SealerOpen := λ b _, Ok b }.

Definition text (l : list (string * string)) : Bytes := MarshalAny (AMap (map (λ kv, (kv.1, AString kv.2)) l)).

#[export] Instance toy_manifests : JsonType Manifest := {
  Marshal := λ m, Ok (text [("id", manifest_ID m)]); DecodeKnown := λ _, Err "unused" }.
#[export] Instance toy_jobs : JsonType RunnerJob := {
  Marshal := λ j, Ok (text [("fence", int_string (runnerJob_FencingToken j));
    ("group", runnerJob_RequiredHostGroup j); ("id", runnerJob_ID j)]);
  DecodeKnown := λ _, Err "unused" }.
#[export] Instance toy_reports : JsonType BuildReport := {
  Marshal := λ _, Ok "[6]"; DecodeKnown := λ _, Err "unused" }.
#[export] Instance toy_capabilities : JsonType ExecutorCapabilities := {
  Marshal := λ c, Ok (text [("image", executorCapabilities_RuntimeImageDigest c)]);
  DecodeKnown := λ _, Err "unused" }.
#[export] Instance toy_raw : JsonType RawMessage := {
  Marshal := λ r, Ok (raw_bytes r); DecodeKnown := λ b, Ok (Raw b) }.
#[export] Instance LocalQualification_eq_dec : EqDecision LocalQualification.
Proof. solve_decision. Defined.
#[export] Instance FrontierClaim_eq_dec : EqDecision FrontierClaim.
Proof. solve_decision. Defined.

(** * The platform *)

Definition sample_server : Server := mkServer "staging" 3 20 "control" (Some 80) None true "" "" 82 None "".

Definition sample_host (id group key : string) : HostRow :=
  mkHostRow id group key (hash ("cert-" +:+ id)) true ["submission"; "confirmation"] "profile" "" "" "".

Definition sample_lock_text : Bytes := "[5]".
Definition sample_lock_digest : string := Eval vm_compute in DigestBytes sample_lock_text.
Definition sample_lock : Lock :=
  mkLock "independent" "suite-disk" "staging" false APIVersion "ChallengeLock" "lock-1" (mkTime (1001 * day) 0)
    "science-ladder" "" "" "" "validator-disk" "suite" "profile" [] "none" quiet_echoes.

Definition sample_row : VersionRow :=
  mkVersionRow "challenge-1" "creator" "published" "accepted" "open" [] (Some sample_lock_digest)
    (mkTime (1180 * day) 0) "source" None "".

Definition sample_ticks : Submission :=
  mkSubmission "version-1" 1 "owner" "artifact" "disk" "pending" None true "commitment" "accepted" "accept" false None.

Definition sample_accepted : ReceiptRow := sample_acceptance "independent".

Definition sample_blob (d : string) : string * BlobRow := (d, mkBlobRow d 4096 "application/octet-stream" "owner").

Definition sample_core : db := {|
  t_versions := {["version-1" := mkVersion 0 1 (Ok quiet_echoes) None None]};
  t_submissions := {["sub-1" := sample_ticks]};
  t_receipts := {["accept" := sample_accepted]};
  t_runs := []; t_mappings := ∅; t_claims := ∅; t_reservations := {["sub-1" := None]}; t_reserved := 2;
  t_jobs := ∅; t_outbox := []; t_audit := []; t_artifacts := ∅; t_ids := 0 |}.

Definition sample_platform : pdb := {|
  p_core := sample_core;
  p_fleet := mkFleet ∅ ∅ ∅ ∅ ∅;
  p_intake := mkIntake {["version-1" := sample_row]} ∅ {["grant-1" := mkGrantRow "owner" "version-1" "artifact" "cpu-small" "reserved"]}
    {["sub-1" := mkEntryRow "intent-1" "grant-1" "salt" [] (mkTime (1009 * day) 0)]} ∅ ∅
    (list_to_map (map sample_blob ["validator-disk"; "disk"; "suite-disk"]));
  p_desk := mkDesk [] [] ∅ ∅ ∅;
  p_registry := mkRegistry [sample_host "host-a" "group-a" "a"; sample_host "host-b" "group-b" "b"] []
    {[sample_lock_digest := mkLockRow (Raw sample_lock_text) (Ok sample_lock)]} [] {["owner" := "creator"]} 100 [] |}.

(** Two hours after [sample_env]. *)
Definition later_env : Env := {|
  Now := AddNs (@Now sample_env) (2 * Hour); NewID := @NewID sample_env |}.

Definition fixed : result Bytes := Ok "random".

(** ** The runs *)

(** The run of job [job] (whose digest is [digest]) under [fence], by a host. *)
Definition sample_run_of (id job digest host group score : string) (fence : Z) : RunReceipt := {|
  runReceipt_ValidatorResult := None; runReceipt_ParentJobDigest := "";
  runReceipt_VerificationPolicy := "independent"; runReceipt_AcceptanceReceiptDigest := "accept";
  runReceipt_DeploymentMode := "production"; runReceipt_OfficialAcceptance := true;
  runReceipt_APIVersion := APIVersion; runReceipt_Kind := "ValidationRunReceipt"; runReceipt_ID := id;
  runReceipt_CreatedAt := mkTime (1010 * day + 2 * Hour) 0; runReceipt_Producer := "runner";
  runReceipt_JobID := job; runReceipt_JobDigest := digest;
  runReceipt_ChallengeLockDigest := sample_lock_digest; runReceipt_ArtifactDigest := "artifact";
  runReceipt_SuiteDigest := "suite"; runReceipt_ExecutionProfileDigest := "profile";
  runReceipt_RunnerEpoch := "1"; runReceipt_FencingToken := fence; runReceipt_HostID := host;
  runReceipt_HostGroup := group; runReceipt_Official := true; runReceipt_Outcome := "valid";
  runReceipt_ScoreTicks := score;
  runReceipt_Gates := {["one_canonical_sequence" := true; "binary_length_512" := true]};
  runReceipt_DurationMillis := 10; runReceipt_CleanupAttested := true; runReceipt_BuildReport := None |}.

(** The digests of the two jobs as they are claimed. *)
Definition toy_job_digest (id group : string) (fence : Z) : string :=
  DigestBytes (text [("fence", int_string fence); ("group", group); ("id", id)]).
Definition primary_digest : string := Eval vm_compute in toy_job_digest "id-0" "group-b" 2.
Definition confirm_digest : string := Eval vm_compute in toy_job_digest "id-2" "group-a" 1.

Definition lapsed_run : RunReceipt := sample_run_of "run-0" "id-0" primary_digest "host-a" "group-a" "17000" 1.
Definition primary_run : RunReceipt := sample_run_of "run-1" "id-0" primary_digest "host-b" "group-b" "17800" 2.
Definition confirm_run : RunReceipt := sample_run_of "run-2" "id-2" confirm_digest "host-a" "group-a" "17800" 1.

#[export] Instance toy_runs : JsonType RunReceipt := {
  Marshal := λ r, Ok (text [("id", runReceipt_ID r)]);
  DecodeKnown := λ b, match List.find (λ r, text [("id", runReceipt_ID r)] ==s b)
                              [lapsed_run; primary_run; confirm_run] with
                      | Some r => Ok r | None => Err "unknown document" end }.

(** * The steps *)

(** One claim of the host, with nothing between its two transactions. *)
Definition claim (E : Env) (s : pdb) (id : string) : result (pdb * (pending * runnerIdentity)) :=
  let! o := claim_begin sample_server s ∅ (Some ("cert-" +:+ id)) "" Omitted in
  match o with
  | None => Err "no job"
  | Some (p, host) =>
      let! se := claim_finish sample_server s p host ("token-" +:+ id) fixed fixed in
      Ok (se.1, (p, host))
  end.

Definition report (E : Env) (s : pdb) (id job : string) (key : Signer) (run : RunReceipt)
    : pdb * result response :=
  match Sign id (Some key) run with
  | Ok envelope => post_result sample_server [] s (Some ("cert-" +:+ id)) job ("token-" +:+ id) envelope
  | Err e => (s, Err e)
  end.
Definition submit (E : Env) (s : pdb) (id job : string) (key : Signer) (run : RunReceipt) : result pdb :=
  match report E s id job key run with
  | (s, Ok _) => Ok s
  | (_, Err e) => Err e
  end.

(** The whole run: the states after the lapsed claim and at the end. *)
Definition sample_history_of_runs : result (pdb * pdb) :=
  let! s := queueSubmission (H := sample_env) sample_platform "sub-1" in
  let! c1 := claim sample_env s "host-a" in
  let lapsed := recoverRunnerLeases (H := later_env) c1.1 in
  let! c2 := claim later_env lapsed "host-b" in
  let! s := submit later_env c2.1 "host-b" "id-0" 98 primary_run in
  let! c3 := claim later_env s "host-a" in
  let! s := submit later_env c3.1 "host-a" "id-2" 97 confirm_run in
  Ok (lapsed, s).

Lemma claim_steps (E : Env) y id s' p :
  claim E (y_db y) id = Ok (s', p) →
  rtc step y (mkSys s' (p :: y_pending y) ((pd_id p.1, pd_fence p.1) :: y_granted y)).
Proof.
  unfold claim. intros Hc. ok_step Hc. destruct r as [[q host]|]; [|done]. ok_step Hc.
  injection Hc as <- <-. destruct r as [s1 envelope]. cbn [fst] in *. eapply rtc_l; [by eapply step_begin|].
  apply rtc_once. apply (step_finish others E (mkSys (y_db y) ((q, host) :: y_pending y) (y_granted y)) _ q host _ _ _ _ _)
    with (2 := E1). set_solver.
Qed.

Lemma submit_step (E : Env) y id job key run s' :
  submit E (y_db y) id job key run = Ok s' → rtc step y (set_db y s').
Proof.
  unfold submit, report. intros Hs. destruct (Sign id (Some key) run) as [envelope|]; [|done].
  destruct (post_result _ _ _ _ _ _ _) as [s1 [r|]] eqn:Hr; [|done]. simplify_eq. apply rtc_once.
  by eapply step_result.
Qed.

Lemma sample_idle : idle sample_platform.
Proof.
  split_and!; [done..|]. intros id x Hx.
  change (({["sub-1" := sample_ticks]} : gmap string Submission) !! id = Some x) in Hx.
  apply lookup_singleton_Some in Hx as [_ <-]. done.
Qed.

(** What the run leaves, where the theorems are applied. *)
Definition sample_decided (lapsed final : pdb) : bool :=
  match rjobs lapsed !! "id-0", submissions final !! "sub-1" with
  | Some j, Some x => (j_fence j =? 2) && (sub_outcome x ==s "valid") && bool_decide (sub_score x = Some 17800)
  | _, _ => false
  end
  && bool_decide (is_Some (results final !! "id-0")) && bool_decide (is_Some (results final !! "id-2")).

Lemma sample_runs_decide :
  match sample_history_of_runs with Ok (lapsed, final) => sample_decided lapsed final | Err _ => false end = true.
Proof. vm_compute. reflexivity. Qed.

Lemma reachable_rtc y y' : reachable y → rtc step y y' → reachable y'.
Proof. intros Hr Hs. induction Hs as [|y y1 y' Hst _ IH]; [done|]. apply IH. by eapply reachable_step. Qed.

Lemma sample_reached : ∃ yl yf, reachable yl ∧ rtc step yl yf ∧ sample_decided (y_db yl) (y_db yf) = true
  ∧ length (y_granted yf) = 3%nat.
Proof.
  pose proof sample_runs_decide as Hd. destruct sample_history_of_runs as [[lapsed final]|] eqn:Hr; [|done].
  unfold sample_history_of_runs in Hr. ok_step Hr. ok_step Hr. destruct r0 as [s1 c1].
  cbv zeta in Hr. ok_step Hr. destruct r0 as [s2 c2]. ok_step Hr. ok_step Hr. destruct r1 as [s4 c4].
  ok_step Hr. injection Hr as <- <-. cbn [fst] in *.
  set (y0 := mkSys sample_platform [] []). assert (reachable y0) as R0 by (constructor; apply sample_idle).
  pose proof (rtc_once _ _ (step_submission others sample_env y0 _ _ E)) as P1.
  pose proof (claim_steps _ (set_db y0 r) _ _ _ E0) as P2.
  set (y2 := mkSys s1 _ _) in P2. pose proof (rtc_once _ _ (step_recover others later_env y2)) as P3.
  set (y3 := set_db y2 _) in P3. pose proof (claim_steps _ y3 _ _ _ E1) as P4.
  set (y4 := mkSys s2 _ _) in P4. pose proof (submit_step _ y4 _ _ _ _ _ E2) as P5.
  pose proof (claim_steps _ (set_db y4 r0) _ _ _ E3) as P6.
  set (y6 := mkSys s4 _ _) in P6. pose proof (submit_step _ y6 _ _ _ _ _ E4) as P7.
  exists y3, (set_db y6 r1). split_and!; [| |exact Hd|done].
  - eapply reachable_rtc; [exact R0|]. etrans; [exact P1|]. etrans; [exact P2|exact P3].
  - etrans; [exact P4|]. etrans; [exact P5|]. etrans; [exact P6|exact P7].
Qed.

(** * The theorems *)

Lemma runner_implements_lease_witness : ∃ y y', reachable y ∧ step y y' ∧
  rtc lease_step (phase_of (rjobs (y_db y) !! "id-0")) (phase_of (rjobs (y_db y') !! "id-0")).
Proof.
  destruct sample_reached as (yl & yf & Hr & _).
  exists yl, (set_db yl (recoverRunnerLeases (H := later_env) (y_db yl))).
  assert (step yl (set_db yl (recoverRunnerLeases (H := later_env) (y_db yl)))) as Hs by apply step_recover.
  split; [exact Hr|]. split; [exact Hs|]. exact (runner_implements_lease _ _ "id-0" Hr Hs).
Defined.

Lemma lease_granted_once_witness : ∃ y, length (y_granted y) = 3%nat ∧ NoDup (y_granted y).
Proof.
  destruct sample_reached as (yl & yf & Hr & Hs & _ & Hg). exists yf. split; [exact Hg|].
  apply lease_granted_once. exact (reachable_rtc _ _ Hr Hs).
Defined.

Lemma runner_tables_well_formed_witness : ∃ y, is_Some (results (y_db y) !! "id-2") ∧ fleet_ok (y_db y).
Proof.
  destruct sample_reached as (yl & yf & Hr & Hs & Hd & _). exists yf. split.
  - unfold sample_decided in Hd. by bool_prop.
  - apply runner_tables_well_formed. exact (reachable_rtc _ _ Hr Hs).
Defined.

Lemma results_permanent_witness : ∃ y y' r, rtc step y y' ∧ results (y_db y) !! "id-0" = Some r
  ∧ results (y_db y') !! "id-0" = Some r.
Proof.
  destruct sample_reached as (yl & yf & Hr & Hs & Hd & _).
  assert (is_Some (results (y_db yf) !! "id-0")) as [r Hres] by (unfold sample_decided in Hd; by bool_prop).
  set (y' := set_db yf (recoverRunnerLeases (H := later_env) (y_db yf))).
  assert (rtc step yf y') as Hst by (apply rtc_once, step_recover).
  exists yf, y', r. split; [exact Hst|]. split; [exact Hres|].
  apply (results_permanent yf y' "id-0" r (reachable_rtc _ _ Hr Hs) Hst Hres).
Defined.


