(* ===== verification/IntakeSamples.v ===== *)
(** Requests and builds at concrete inputs.  A second submission enters the platform of
    RunnerSamples: a ticket, an intent, its acceptance; and the first one is adjudicated and
    published.  Then a preflight report with two fixtures, an accepted preparation build, a
    job the claim query offers, and two places where the queries are laxer than the code
    around them. *)

From S2P Require Import Prelude Regex GoLib Numbers Types Scores Paths Measurement Evaluation Validate Sha256.
From S2P Require Import GoJson Canonical Documents Results Frontier Hidden Store Adjudication AdjudicationProofs LedgerProofs.
From S2P Require Import Signatures Checkpoint History Platform Preparation PreparationProofs Suites Runners Editorial.
From S2P Require Import Intake Submissions Fleet IntakeProofs Samples.
From S2P Require Import AuditSamples ArtifactSamples RunnerSamples.
From Stdlib Require Import Ascii.
Open Scope Z_scope.

#[export] Instance toy_claims : JsonType FrontierClaim := {
  Marshal := λ c, Ok (text [("artifact", frontierClaim_ArtifactDigest c)]);
  DecodeKnown := λ _, Err "unused" }.

Definition sample_user : User := mkUser "owner" "owner-login" "creator".

(** * Requests *)

Definition sample_handler (s : pdb) : result (pdb * (Z * string)) := Ok (s, (201, "{}")).

Lemma mutate_runs_once_witness : ∃ s',
  mutate sample_platform sample_user "request-1" "hash-1" sample_handler = Ok (s', (201, "{}")) ∧
  mutate s' sample_user "request-1" "hash-2" sample_handler = Err "idempotency_conflict".
Proof.
  eexists. split; [vm_compute; reflexivity|].
  apply (mutate_runs_once sample_platform sample_user "request-1" "hash-1" sample_handler) with (r := (201, "{}"));
    [|vm_compute; reflexivity|discriminate].
  intros s s' r Hs. injection Hs as <- <-. reflexivity.
Defined.

Lemma reservePreparation_exact_witness : ∃ s',
  reservePreparation sample_server sample_platform sample_user = Ok s' ∧
  i_budgets (p_intake s') !! ("owner", day_of Now) = Some 1.
Proof.
  assert (is_ok (reservePreparation sample_server sample_platform sample_user) = true) as E by (vm_compute; reflexivity).
  destruct (reservePreparation sample_server sample_platform sample_user) as [s'|] eqn:Hs; [|discriminate].
  exists s'. split; [reflexivity|].
  destruct (reservePreparation_exact _ _ _ _ Hs) as (role & _ & _ & -> & _). vm_compute. reflexivity.
Defined.

(** * A ticket and an intent *)

Definition entry_claim : FrontierClaim :=
  mkFrontierClaim FrontierClaimVersion "version-1" sample_lock_digest sample_digest "frontier"
    (Some quiet_echoes_result) None.
Definition entry_commit : string := "0123456789abcdef0123456789abcdef01234567".
Definition entry_request : claimRequest := mkClaimRequest "owner/entry" entry_commit entry_claim.

Definition intent_request (ticket : string) : IntentRequest :=
  mkIntentRequest ticket "version-1" "owner/entry" entry_commit sample_digest "" "CC-BY-4.0"
    [("model", SString "none")] true.

(** The worker has fetched and quarantined the intent. *)
Definition prepared (i : IntentRow) : IntentRow :=
  mkIntentRow (in_version i) (in_owner i) (in_repository i) (in_ref i) entry_commit sample_digest "disk-2"
    "ready" (in_request i) [] None.

Definition answer_id (a : ticket_answer) : string :=
  match a with Resumed id _ _ | Reissued id _ _ | Issued id _ _ => id end.
Definition intent_id (a : intent_answer) : string :=
  match a with IntentExists id _ | IntentCreated id => id end.

Definition sample_entry : result (pdb * ticket_answer * pdb * intent_answer * pdb * acceptance) :=
  let! t := createFrontierTicket sample_platform sample_user entry_request in
  let! i := createIntent sample_server t.1 sample_user (intent_request (answer_id t.2)) in
  let s := set_intents i.1 (prepared <$> i_intents (p_intake i.1)) in
  let! a := acceptIntent sample_server s sample_user (intent_id i.2) "salt" in
  Ok (t.1, t.2, i.1, i.2, a.1, a.2).

Definition sample_entered : bool :=
  match sample_entry with
  | Ok (_, Issued _ _ _, _, IntentCreated _, _, AcceptedAs _ n _) => n =? 2
  | _ => false
  end.

(** The chain of the entry, step by step. *)
Lemma sample_entry_steps : ∃ s1 id expires mode s2 intent s3 sub digest,
  createFrontierTicket sample_platform sample_user entry_request = Ok (s1, Issued id expires mode)
  ∧ createIntent sample_server s1 sample_user (intent_request id) = Ok (s2, IntentCreated intent)
  ∧ acceptIntent sample_server (set_intents s2 (prepared <$> i_intents (p_intake s2))) sample_user intent "salt"
    = Ok (s3, AcceptedAs sub 2 digest).
Proof.
  assert (sample_entered = true) as E by (vm_compute; reflexivity).
  unfold sample_entered, sample_entry in E.
  destruct (createFrontierTicket sample_platform sample_user entry_request) as [[s1 t]|]; [|discriminate].
  cbn [fst snd] in E.
  destruct (createIntent sample_server s1 sample_user (intent_request (answer_id t))) as [[s2 i]|] eqn:Hi; [|discriminate].
  cbn [fst snd] in E. destruct (acceptIntent _ _ _ _ _) as [[s3 a]|] eqn:Ha; [|discriminate]. cbn [fst snd] in E.
  destruct t as [| |id expires mode]; [discriminate..|]. destruct i as [|intent]; [discriminate|].
  destruct a as [|sub n digest]; [discriminate|]. apply Z.eqb_eq in E as ->.
  exists s1, id, expires, mode, s2, intent, s3, sub, digest. split_and!; [reflexivity|exact Hi|exact Ha].
Qed.

Lemma createFrontierTicket_exact_witness : ∃ s' id expires mode,
  createFrontierTicket sample_platform sample_user entry_request = Ok (s', Issued id expires mode)
  ∧ recent s' (λ t, tk_owner t ==s "owner") ≤ 5 ∧ expires = AddNs Now (15 * Minute).
Proof.
  destruct sample_entry_steps as (s1 & id & expires & mode & _ & _ & _ & _ & _ & Ht & _).
  exists s1, id, expires, mode. split; [exact Ht|].
  destruct (createFrontierTicket_exact _ _ _ _ _ _ _ Ht)
    as (p & t & _ & _ & _ & _ & _ & _ & _ & _ & _ & He & _ & Hr & _).
  split; [exact Hr|exact He].
Defined.

Lemma intent_costs_one_ticket_witness : ∃ s1 id s2 intent,
  createIntent sample_server s1 sample_user (intent_request id) = Ok (s2, IntentCreated intent)
  ∧ others s1 s2
  ∧ ∀ s3 i, createIntent (H := later_env) sample_server s2 sample_user (intent_request id) ≠ Ok (s3, IntentCreated i).
Proof.
  destruct sample_entry_steps as (s1 & id & expires & mode & s2 & intent & _ & _ & _ & _ & Hi & _).
  exists s1, id, s2, intent. split; [exact Hi|].
  destruct (intent_costs_one_ticket _ _ _ _ _ _ _ Hi)
    as (t & p & i & b & _ & _ & _ & _ & _ & _ & _ & _ & _ & _ & _ & _ & Ho & Hl).
  split; [exact Ho|]. intros s3 k. apply Hl; reflexivity.
Defined.

Lemma sample_numbered s : t_versions (p_core s) = t_versions sample_core →
  submissions s = submissions sample_platform → sequenced s.
Proof.
  intros Hv Hs version row Hrow. rewrite Hv in Hrow.
  change (({["version-1" := mkVersion 0 1 (Ok quiet_echoes) None None]} : gmap string Version) !! version = Some row) in Hrow.
  apply lookup_singleton_Some in Hrow as [<- <-]. split; [done|].
  assert (∀ k x, submissions s !! k = Some x → k = "sub-1" ∧ x = sample_ticks) as Hone.
  { intros k x Hx. rewrite Hs in Hx. change (({["sub-1" := sample_ticks]} : gmap string Submission) !! k = Some x) in Hx.
    by apply lookup_singleton_Some in Hx as [<- <-]. }
  split.
  - intros k x [_ ->]%Hone _. done.
  - intros n Hn. simpl in Hn. exists "sub-1", sample_ticks. split; [by rewrite Hs|]. split; [done|]. simpl. lia.
  - intros a b x y [-> _]%Hone [-> _]%Hone. done.
Qed.

(** A platform with an intent that is ready. *)
Definition ready_platform : pdb := set_intents sample_platform
  {["intent-2" := prepared (mkIntentRow "version-1" "owner" "owner/entry" entry_commit "" "" "" "github_fetch"
      (intent_request "") [] None)]}.


(** * Publication *)

Definition finalised : Submission :=
  mkSubmission "version-1" 1 "owner" "artifact" "disk" "valid" (Some 17800) false "commitment" "finalized"
    "accept" false None.
Definition finalised_platform : pdb :=
  with_core sample_platform (set_submissions sample_core {["sub-1" := finalised]}).

Lemma publishSubmission_exact_witness : ∃ s',
  publishSubmission finalised_platform sample_user "sub-1" = Ok (s', true)
  ∧ publishSubmission s' sample_user "sub-1" = Ok (s', false)
  ∧ ver_frontier <$> t_versions (p_core s') !! "version-1" = Some (Some "sub-1").
Proof.
  assert (match publishSubmission finalised_platform sample_user "sub-1" with
          | Ok (s', true) => bool_decide (ver_frontier <$> t_versions (p_core s') !! "version-1" = Some (Some "sub-1"))
          | _ => false end = true) as E by (vm_compute; reflexivity).
  destruct (publishSubmission _ _ _) as [[s' []]|] eqn:Hp; [|discriminate..].
  exists s'. split; [reflexivity|].
  destruct (publishSubmission_exact _ _ _ _ Hp)
    as (x & row & m & frontier & _ & _ & _ & _ & _ & _ & _ & _ & _ & _ & _ & _ & _ & _ & _ & Hagain).
  split; [exact Hagain|exact (bool_decide_eq_true_1 _ E)].
Defined.

(** * The claim query *)

Definition bench_capabilities (assets : list EvaluationAsset) : ExecutorCapabilities :=
  mkExecutorCapabilities "linux" "amd64" "none" "bench-1"
    (validator_RuntimeImageDigest (manifest_Validator timing_manifest))
    ["isolated-checker"; "isolated-candidate"; "trusted-timing"; "sealed-products"] 8 8192 3600 7200 assets.
Definition bench_host (assets : list EvaluationAsset) : runnerIdentity :=
  mkIdentity "host-a" "group-a" "a" "profile" "" "" "" ["submission"] (Some (bench_capabilities assets)).

Definition bench_job (m : Manifest) : RunnerJob :=
  submission_job (H := sample_env) "sub-1" "job-1" "accept" sample_lock_digest sample_ticks
    (rr_payload sample_accepted)
    (mkLock "independent" "suite-disk" "staging" false APIVersion "ChallengeLock" "lock-1" (mkTime 0 0)
       "science-ladder" "" "" "" "validator-disk" "suite" "profile" [] "none" m).
Definition bench_row (m : Manifest) : JobRow :=
  fresh_row (H := sample_env) "submission" "version-1" (Some "sub-1") None None (bench_job m) None.

Lemma claim_query_sound_witness :
  check_executor (bench_job timing_manifest) (bench_host []) = Ok tt
  ∧ MatchJobLease timing_manifest "submission" (bench_capabilities []) = true.
Proof.
  apply (claim_query_sound ["submission"] (bench_host []) (bench_row timing_manifest) (bench_capabilities []));
    [reflexivity|vm_compute; reflexivity|vm_compute; repeat split; discriminate|vm_compute; reflexivity| |].
  - vm_compute. repeat split; discriminate.
  - intros e a [= <-] Ha. simpl in Ha. set_solver.
Defined.

(** ** The query ignores an omitted domain *)

(** An asset without a domain, which no stage mounts. *)
Definition inert_asset (domain : string) : EvaluationAsset :=
  mkEvaluationAsset domain "table" sample_digest 10 "public" "dataset".
Definition inert_manifest : Manifest :=
  let e := timing_contract in let m := timing_manifest in
  mkManifest (Some (mkEvaluationContract (evaluationContract_Version e) (evaluationContract_Mode e)
      (evaluationContract_ComparisonID e) (evaluationContract_Executor e) (evaluationContract_Measurements e)
      (evaluationContract_Rationale e) (evaluationContract_Program e) (evaluationContract_Measurement e)
      (evaluationContract_Proof e) [inert_asset ""]))
    (manifest_VerificationPolicy m) (manifest_APIVersion m) (manifest_Kind m) (manifest_ID m)
    (manifest_CreatedAt m) (manifest_Producer m) (manifest_Slug m) (manifest_Title m) (manifest_Summary m)
    (manifest_ScientificQuestion m) (manifest_Evidence m) (manifest_Impact m) (manifest_Limitations m)
    (manifest_SafetyClassification m) (manifest_EconomicMode m) (manifest_Metric m) (manifest_HardGates m)
    (manifest_Milestones m) (manifest_Deadline m) (manifest_Submission m) (manifest_Validator m)
    (manifest_Suite m) (manifest_Resources m) (manifest_Fixtures m).

(** The query offers the job to a host that has the asset under some domain; the check
    after it compares whole assets and refuses, so the host's claim fails for as long as
    this job is the oldest. *)
Lemma claim_query_ignores_domain :
  ValidateManifest inert_manifest = Ok tt
  ∧ claimable ["submission"] (bench_host [inert_asset "candidate"]) (bench_row inert_manifest) = true
  ∧ check_executor (bench_job inert_manifest) (bench_host [inert_asset "candidate"]) = Err "executor_mismatch".
Proof. vm_compute. repeat split. Qed.

(** * A voided submission queued again *)

(** An editor voids a submission whose validation is still to be queued; the pending job
    then queues a runner job for it all the same, and takes its status back: the check
    for an existing job reads no status. *)
Definition voided_platform : pdb :=
  with_core sample_platform (set_submissions sample_core (void_submission "version-1" <$> t_submissions sample_core)).

Definition standing (s : pdb) (id : string) : option (string * string) :=
  (λ x, (sub_status x, sub_outcome x)) <$> submissions s !! id.

Lemma queue_reopens_voided :
  standing voided_platform "sub-1" = Some ("validated", "challenge_unscorable")
  ∧ match queueSubmission (H := sample_env) voided_platform "sub-1" with
    | Ok s => (standing s "sub-1", size (rjobs s)) = (Some ("queued", "challenge_unscorable"), 1%nat)
    | Err _ => False
    end.
Proof. vm_compute. repeat split. Qed.

(** * An accepted build *)

Definition build_job : RunnerJob :=
  job_ExecutionProfileDigest "profile" (job_RequiredHostGroup "group-a"
    (preparation_job (H := sample_env) sample_server "job-9" "artifact_prepare" "source-9" "artifact-9" quiet_echoes)).
Definition build_ref_9 : ObjectRef := mkObjectRef "disk-9" 4096 "".
Definition manifest_digest_9 : string := Eval vm_compute in DigestBytes (text [("id", "quiet-echoes-labs512-v1")]).
Definition build_report : BuildReport := {|
  buildReport_FreshVMRuns := 0; buildReport_SBOM := None; buildReport_VulnerabilityScan := None;
  buildReport_ManifestDigest := manifest_digest_9; buildReport_SourceSnapshotDigest := "source-9";
  buildReport_ValidatorDiskDigest := ""; buildReport_RebuiltValidatorDiskDigest := "";
  buildReport_ValidatorImageDigest := ""; buildReport_SuiteDigest := "";
  buildReport_ExecutionProfileDigest := "profile"; buildReport_OfflineRebuild := true;
  buildReport_Fixtures := []; buildReport_HostileCorpusPassed := true; buildReport_ScansPassed := true;
  buildReport_Passed := true; buildReport_Findings := []; buildReport_ValidatorDisk := None;
  buildReport_ChallengeDisk := None; buildReport_SuiteDisk := None;
  buildReport_SubmissionDisk := Some build_ref_9 |}.

Definition build_job_digest : string := Eval vm_compute in
  match Digest build_job with Ok d => d | Err _ => "" end.

(** A run of a job on host a. *)
Definition run_for (job : RunnerJob) (id jobID digest parent artifact suite outcome score : string)
    (b : option BuildReport) : RunReceipt := {|
  runReceipt_ValidatorResult := None; runReceipt_ParentJobDigest := parent;
  runReceipt_VerificationPolicy := runnerJob_VerificationPolicy job;
  runReceipt_AcceptanceReceiptDigest := ""; runReceipt_DeploymentMode := runnerJob_DeploymentMode job;
  runReceipt_OfficialAcceptance := false; runReceipt_APIVersion := APIVersion;
  runReceipt_Kind := "ValidationRunReceipt"; runReceipt_ID := id;
  runReceipt_CreatedAt := mkTime (1010 * day) 0; runReceipt_Producer := "runner"; runReceipt_JobID := jobID;
  runReceipt_JobDigest := digest; runReceipt_ChallengeLockDigest := ""; runReceipt_ArtifactDigest := artifact;
  runReceipt_SuiteDigest := suite; runReceipt_ExecutionProfileDigest := "profile";
  runReceipt_RunnerEpoch := "1"; runReceipt_FencingToken := 1; runReceipt_HostID := "host-a";
  runReceipt_HostGroup := "group-a"; runReceipt_Official := true; runReceipt_Outcome := outcome;
  runReceipt_ScoreTicks := score;
  runReceipt_Gates := {["one_canonical_sequence" := true; "binary_length_512" := true]};
  runReceipt_DurationMillis := 10; runReceipt_CleanupAttested := true; runReceipt_BuildReport := b |}.

Definition build_run : RunReceipt :=
  run_for build_job "run-9" "job-9" build_job_digest "" "artifact-9" "" "valid" "" (Some build_report).

(** ** A preflight with two fixtures *)

Definition preflight_job : RunnerJob := job_Purpose "preflight" build_job.
Definition attempt (n score : string) : RunReceipt :=
  run_for preflight_job ("attempt-" +:+ n) ("trial-" +:+ n) sample_lock_digest build_job_digest sample_lock_digest
    "suite-9" "valid" score None.
Definition all_attempts : list RunReceipt :=
  [attempt "1" "17996"; attempt "2" "17996"; attempt "3" "43776"; attempt "4" "43776"].

#[export] Instance build_runs : JsonType RunReceipt := {
  Marshal := λ r, Ok (text [("id", runReceipt_ID r)]);
  DecodeKnown := λ b, match List.find (λ r, text [("id", runReceipt_ID r)] ==s b) (build_run :: all_attempts) with
                      | Some r => Ok r | None => Err "unknown document" end }.

Definition signed (run : RunReceipt) : Envelope :=
  match Sign "host-a" (Some (97 : Signer)) run with Ok e => e | Err _ => mkEnvelope "" "" [] end.

Definition fixture_report (name score : string) (runs : list RunReceipt) : FixtureReport :=
  mkFixtureReport "isolated_execution" 2 (map signed runs) name "valid" "valid" score true.
Definition preflight_report : BuildReport :=
  mkBuildReport 4 None None manifest_digest_9 "source-9" "" "" "" "suite-9" "profile" true
    [fixture_report "baseline" "17996" (take 2 all_attempts); fixture_report "valid" "43776" (drop 2 all_attempts)]
    true true true [] None None None None.
Definition preflight_run : RunReceipt :=
  run_for preflight_job "run-8" "job-9" build_job_digest "" "" "suite-9" "valid" "" (Some preflight_report).
Definition build_host : runnerIdentity :=
  mkIdentity "host-a" "group-a" "a" "profile" "" "" "" ["preflight"; "artifact_prepare"] None.


(** ** The build *)

Definition build_row : JobRow := {|
  j_purpose := "artifact_prepare"; j_version := "version-1"; j_submission := None; j_preflight := None;
  j_intent := Some "intent-9"; j_payload := build_job; j_status := "running"; j_host := Some "host-a";
  j_excluded_group := None; j_token := Some (hash "token-9"); j_fence := 1;
  j_lease := Some (mkTime (1011 * day) 0); j_attempts := 1; j_created := mkTime (1010 * day) 0 |}.
Definition build_platform : pdb :=
  set_intents (set_uploads (set_rjobs sample_platform {["job-9" := build_row]})
      {[("job-9", "submissionDisk") := mkUpload "disk-9" 4096 false]})
    {["intent-9" := mkIntentRow "version-1" "owner" "owner/entry" "ref" "commit" "artifact-9" ""
        "quarantine_pending" (mkIntentRequest "" "version-1" "owner/entry" "ref" "artifact-9" "" "MIT" [] false) [] None]}.

Lemma accepted_build_outputs_verified_witness : ∃ s',
  runnerResult (H := sample_env) sample_server object_roles build_platform "job-9" "token-9" (signed build_run) build_host
    = (s', Ok (Accepted true))
  ∧ is_Some (i_blobs (p_intake s') !! "disk-9").
Proof.
  assert (match runnerResult (H := sample_env) sample_server object_roles build_platform "job-9" "token-9"
            (signed build_run) build_host with (_, Ok (Accepted b)) => b | _ => false end = true) as E
    by (vm_compute; reflexivity).
  destruct (runnerResult _ _ _ _ _ _ _) as [s' [[[]| | |]|]] eqn:Hr; [|discriminate..].
  exists s'. split; [reflexivity|].
  assert (is_ok (open_run (H := sample_env) sample_server build_host "job-9" (signed build_run)) = true) as Eo
    by (vm_compute; reflexivity).
  destruct (open_run _ _ _ _) as [[run digest]|] eqn:Ho; [|discriminate].
  assert (run = build_run) as ->.
  { revert Ho. vm_compute. congruence. }
  destruct (accepted_build_outputs_verified sample_server object_roles build_platform _ "token-9" (signed build_run)
      build_host _ _ build_report build_row s' true Ho)
    with (role := "submissionDisk") (ref := build_ref_9) as (_ & _ & Hb); try reflexivity; [exact Hr|exact Hb].
Defined.
