(* ===== verification/LifecycleSamples.v ===== *)
(** A repository with one small file, fetched through its installation, and a challenge whose
    compromised version is replaced by a security migration: the theorems on snapshots and on
    the whole platform are instantiated here, and the places shown where the code and the
    documents on editorial decisions part.  Then the worker, its queue and the reviews. *)

From S2P Require Import Prelude Regex GoLib Numbers Types Scores Paths Measurement Evaluation Validate Sha256.
From S2P Require Import GoJson Canonical Documents Artifacts Store Adjudication Signatures Checkpoint History Platform.
From S2P Require Import Preparation Suites Runners Editorial Intake Submissions Fleet Snapshots SnapshotProofs Lifecycle.
From S2P Require Import Worker Sources Review ContractProofs WorkerProofs LifecycleProofs System SystemProofs.
From S2P Require Import ReviewProofs Samples AuditSamples ArtifactSamples RunnerSamples IntakeSamples.
From Stdlib Require Import Ascii.
Open Scope Z_scope.

(** * A snapshot *)

(** No manifest is parsed here. *)
#[export] Instance no_yaml : YamlLib := { YamlDecode := λ _ _, YamlError "unused" }.

(** No key is needed: the repository answers without a token. *)
#[export] Instance toy_rsa : Rsa := {
  RsaKey := unit; ParsePKCS1 := λ _, None; ParsePKCS8 := λ _, None; SignPKCS1v15 := λ _ _, Err "unused" }.

Definition entry_blob : string := Eval vm_compute in git_blob_id "hello".

#[export] Instance toy_github : GitHub := {
  GetRepository := λ _ _, Ok (mkRepoInfo 7 9 true "private" "owner/entry");
  GetInstallation := λ _ _, Err "unused";
  CreateAccessToken := λ _ _ _, Err "unused";
  GetCommit := λ _ _ commit, Ok (commit, "tree");
  GetTree := λ _ _ _, Ok (false, [mkTreeEntry "sequence.txt" "100644" "blob" entry_blob 5]);
  GetBlob := λ _ _ _, Ok ("aGVsbG8=", "base64");
  Codeload := λ _ _, Err "unused";
  NewZipReader := λ _, Err "unused" }.


(** * A migration *)

#[export] Instance toy_locks : JsonType Lock := {
  Marshal := λ l, Ok (text [("manifest", lock_ManifestDigest l); ("source", lock_SourceSnapshotDigest l)]);
  DecodeKnown := λ _, Err "unused" }.
#[export] Instance toy_milestones : JsonType (list Milestone) := {
  Marshal := λ _, Ok "[]"; DecodeKnown := λ _, Err "unused" }.

Definition life_manifest_digest : string := Eval vm_compute in DigestBytes (text [("id", manifest_ID quiet_echoes)]).
Definition life_lock : Lock :=
  mkLock "platform" "suite-disk" "staging" false APIVersion "ChallengeLockReceipt" "lock-1" (mkTime (1001 * day) 0)
    "science-ladder" life_manifest_digest "source" "" "validator-disk" "suite" "profile" ["machine"] "none" quiet_echoes.
Definition life_lock_digest : string := Eval vm_compute in
  DigestBytes (text [("manifest", life_manifest_digest); ("source", "source")]).

Definition life_receipt (status : string) (data : list (string * Json)) : ReceiptRow :=
  mkReceiptRow {| receipt_VerificationPolicy := "platform"; receipt_VerificationStatus := status;
    receipt_DeploymentMode := "staging"; receipt_OfficialAcceptance := false; receipt_APIVersion := APIVersion;
    receipt_Kind := "Receipt"; receipt_ID := "receipt"; receipt_CreatedAt := mkTime (1005 * day) 0;
    receipt_Producer := "science-ladder"; receipt_SubjectDigest := ""; receipt_EconomicMode := "none";
    receipt_Data := list_to_map data |} "creator" false.

Definition life_row (status intake : string) (lock predecessor : option string) (transition : string) : VersionRow :=
  mkVersionRow "challenge-1" "creator" status "automated_pass" intake [] lock (mkTime (1180 * day) 0) "source"
    predecessor transition.

(** The version "old" was compromised; "new" has been staged and awaits its signed receipt,
    which is there. *)
Definition life_state (old new : VersionRow) : ldb := {|
  l_platform := {|
    p_core := {|
      t_versions := {["old" := mkVersion 3 3 (Ok quiet_echoes) None None; "new" := mkVersion 0 0 (Ok quiet_echoes) None None]};
      t_submissions := ∅;
      t_receipts := {[life_lock_digest := life_receipt "" []; "machine" := life_receipt "platform_verified" [];
        "migration" := life_receipt "" [("versionId", JString "new"); ("previousVersionId", JString "old");
          ("oldFinalWatermark", JString "3"); ("priorFrontierDigest", JString "")]]};
      t_runs := []; t_mappings := list_to_map (map (λ m, ((milestone_ID m, "old"), 1)) (manifest_Milestones quiet_echoes));
      t_claims := ∅; t_reservations := ∅; t_reserved := 0; t_jobs := ∅; t_outbox := []; t_audit := [];
      t_artifacts := {["source" := None]}; t_ids := 0 |};
    p_fleet := mkFleet ∅ ∅ ∅ ∅ ∅;
    p_intake := mkIntake {["old" := old; "new" := new]} ∅ ∅ ∅ ∅ ∅ ∅;
    p_desk := mkDesk [] [mkReviewRow "review-1" "new" "scientific-legibility" "automated_pass" "" "" "review" (mkTime 0 0)] ∅ ∅ ∅;
    p_registry := mkRegistry [] [] {[life_lock_digest := mkLockRow (Raw "lock") (Ok life_lock)]} [] {["creator" := "creator"]} 100 [] |};
  l_challenges := {["challenge-1" := mkChallengeRow "quiet-echoes-labs512" "creator" "candidate" "adopted"]};
  l_revisions := {["old" := mkRevisionRow "owner/entry" 9 entry_commit "" None (mkTime (1000 * day) 0);
    "new" := mkRevisionRow "owner/entry" 9 entry_commit "" (Some "migration") (mkTime (1004 * day) 0)]};
  l_tiers := list_to_map (map (λ m, (milestone_ID m, mkTierRow "old" (milestone_Title m) 1)) (manifest_Milestones quiet_echoes));
  l_envelopes := {[life_lock_digest := mkEnvelope "" "" []; "machine" := mkEnvelope "" "" []; "migration" := mkEnvelope "" "" []]};
  l_locks := {[life_lock_digest := "new"]};
  l_preflights := ∅ |}.

Definition compromised_row : VersionRow := life_row "compromised" "closed" None None "season".
Definition staged_row : VersionRow :=
  life_row "migration_signing" "unavailable" (Some life_lock_digest) (Some "old") "security_migration".
Definition migrating : ldb := life_state compromised_row staged_row.

Lemma life_digests : Digest life_lock = Ok life_lock_digest ∧ Digest quiet_echoes = Ok life_manifest_digest.
Proof. split; vm_compute; reflexivity. Qed.

Lemma life_state_ok : life_ok migrating.
Proof.
  assert (Hl : locked migrating "new" staged_row life_lock_digest).
  { split; [reflexivity|]. destruct life_digests as [Hd Hm].
    exists (mkLockRow (Raw "lock") (Ok life_lock)), life_lock, "machine", (life_receipt "platform_verified" []).
    do 2 (split; [reflexivity|]). split; [exact Hd|]. split; [exact Hm|].
    do 5 (split; [reflexivity|]). split; [by eexists|]. split; reflexivity. }
  split.
  - intros id v. change (versions migrating) with ({["old" := compromised_row; "new" := staged_row]} : gmap string VersionRow).
    intros [[<- <-]|[_ [<- <-]%lookup_singleton_Some]]%lookup_insert_Some.
    + split; [done| |done|intros [?|?]; done].
      unfold sealed, sealed_statuses. simpl. set_solver.
    + split; [done|by eexists|intros d [= <-]; exact Hl|].
      intros _. exists life_lock_digest. split; [done|by eexists].
  - intros id. unfold versions, l_core, migrating, life_state. simpl.
    intros [Ho Hn]%lookup_insert_None. rewrite lookup_insert_ne by done.
    apply lookup_singleton_None in Ho. by apply lookup_singleton_None.
Qed.

(** ** The platform around it *)

#[export] Instance no_html : HtmlLib := { HtmlParse := λ _, Err "unused" }.
#[export] Instance no_net : SourceNet := { UrlHostname := λ _, ""; UrlPort := λ _, ""; SourceGet := λ _, Err "unused" }.
#[export] Instance no_provider : ReviewProvider := { ProviderSend := λ _ _, Err "unused"; DecodeReview := λ _, Err "unused" }.
Definition no_codec (A : Type) : JsonType A := {| Marshal := λ _, Err "unused"; DecodeKnown := λ _, Err "unused" |}.
#[export] Instance no_candidates : JsonType Candidate := no_codec _.
#[export] Instance toy_review_reports : JsonType ReviewReport := {
  Marshal := λ _, Ok "[7]"; DecodeKnown := λ _, Err "unused" }.
#[export] Instance no_documents : JsonType SnapshotDocument := no_codec _.
#[export] Instance no_evidence : JsonType reviewEvidence := no_codec _.

Lemma migrating_initial : initial migrating.
Proof. split; [exact life_state_ok|]. split_and!; [done|done|]. intros id x Hx. done. Qed.

Lemma migration_completes : ∃ s', completeMigration migrating "new" = Ok s' ∧
  (vr_intake <$> versions s' !! "new" = Some "open").
Proof.
  assert (match completeMigration migrating "new" with
    | Ok s => bool_decide (vr_intake <$> versions s !! "new" = Some "open") | Err _ => false end = true) as Hc
    by (vm_compute; reflexivity).
  destruct (completeMigration migrating "new") as [s'|]; [|discriminate]. exists s'.
  split; [done|]. by apply bool_decide_eq_true in Hc.
Qed.

Lemma migration_step s' : completeMigration migrating "new" = Ok s' →
  life_step (mkLsys migrating [] []) (mkLsys s' [] []).
Proof. intros Hc. apply (life_version_op sample_env (mkLsys migrating [] [])). by apply (life_migrate _ _ "new"). Qed.

Lemma completeMigration_exact_witness : ∃ s', completeMigration migrating "new" = Ok s' ∧
  versions s' = <["new" := version_intake "open" (version_status "published" staged_row)]>
    (<["old" := version_intake "closed" (version_status "superseded" compromised_row)]> (versions migrating)).
Proof.
  destruct migration_completes as (s' & Hc & _). exists s'. split; [exact Hc|].
  destruct (completeMigration_exact sample_env migrating "new" staged_row s' Hc) as
    (pred & pv & prow & rev & receipt & r & m & _ & Hp & Hpv & _ & _ & _ & _ & _ & _ & _ & _ & _ & _ & _ & _ & _ & _ & _ & Hv).
  - reflexivity.
  - discriminate.
  - discriminate.
  - injection Hp as <-. injection Hpv as <-. exact Hv.
Defined.

Lemma platform_runs_fleet_witness : ∃ l, life_reachable l ∧ reachable (fleet_of l)
  ∧ vr_intake <$> versions (ls_db l) !! "new" = Some "open".
Proof.
  destruct migration_completes as (s' & Hc & Ho). exists (mkLsys s' [] []).
  assert (life_reachable (mkLsys s' [] [])) as Hl.
  { eapply life_next; [apply life_initial, migrating_initial|by apply migration_step]. }
  split; [exact Hl|]. split; [exact (platform_runs_fleet _ Hl)|exact Ho].
Defined.



(** * Editorial decisions and the life of a version *)

Definition an_editor : User := mkUser "editor" "editor-login" "editor".
Definition a_creator : User := mkUser "creator" "creator-login" "creator".
Definition reject (version : string) : Decision :=
  mkDecision version "reject" "The reference does not represent the scientific frontier." None.

Definition status_of (s : pdb) (id : string) : option (string * string * string) :=
  (λ v, (vr_status v, vr_review v, vr_intake v)) <$> i_versions (p_intake s) !! id.

(** A version that is locked, as its creator may publish it. *)
Definition locked_state : ldb := life_state compromised_row
  (life_row "locked" "unavailable" (Some life_lock_digest) None "season").

(** The documented review outcome "rejected" has no way out, but the decision leaves the
    status of a locked version, and publication looks at nothing else. *)
Lemma rejected_version_publishes : match editorDecision sample_server (l_platform locked_state) an_editor (reject "new") with
  | Ok (p, _) =>
      bool_decide (status_of p "new" = Some ("locked", "rejected", "closed")) &&
      match publishChallenge sample_server (with_platform locked_state p) a_creator "new" with
      | Ok (s, Published) => bool_decide (status_of (l_platform s) "new" = Some ("published", "rejected", "open"))
      | _ => false
      end
  | Err _ => false
  end = true.
Proof. vm_compute. reflexivity. Qed.

(** A review after a re-review that the creator requested replaces the rejection. *)
Definition rejected_state : ldb :=
  life_state compromised_row (version_review "rejected" (life_row "review_ready" "closed" None None "season")).
Definition passing_report (request : string) : ReviewReport :=
  mkReviewReport "" (mkScienceReview None "automated_pass" "" "" "" "" "" [] []) "model" "response" (mkTime 0 0) "ready" []
    "" (mkSourceEvidence "" "" "" [] 0) request.

Lemma rereview_lifts_rejection :
  match requestScientificReview sample_server "key" (l_platform rejected_state) a_creator "new"
          "The corrected evidence is in the repository." with
  | Ok (p, request) =>
      bool_decide (status_of p "new" = Some ("review_ready", "pending", "closed")) &&
      match record_review p "new" request (passing_report request) with
      | Ok p => bool_decide (status_of p "new" = Some ("review_ready", "automated_pass", "closed"))
      | Err _ => false
      end
  | Err _ => false
  end = true.
Proof. vm_compute. reflexivity. Qed.

(** No decision gives a version the status "rejected" that the guard of "resume" and the
    unique index wait for. *)
Definition staged_state : ldb := life_state (life_row "published" "paused" None None "season")
  (life_row "locked" "unavailable" (Some life_lock_digest) (Some "old") "security_migration").

Lemma rejected_migration_stays_pending :
  match editorDecision sample_server (l_platform staged_state) an_editor (reject "new") with
  | Ok (p, _) =>
      match editorDecision sample_server p an_editor
              (mkDecision "old" "resume" "The migration has been rejected by the editors." None) with
      | Err e => e ==s "migration_pending"
      | Ok _ => false
      end
  | Err _ => false
  end = true.
Proof. vm_compute. reflexivity. Qed.

(** A withdrawn version is not listed; a superseded one is.  A draft of a new season
    supersedes its predecessor whatever its status. *)
Definition withdrawn_state : ldb := life_state compromised_row
  (life_row "withdrawn" "closed" (Some life_lock_digest) None "season").
Definition next_season : VersionRequest := mkVersionRequest "owner/entry" entry_commit "I adopt the next season of it." "".
Definition next_source : Snapshot := mkSnapshot 7 9 entry_commit false ∅ "snapshot".

Lemma season_restores_withdrawn :
  match createVersion_commit withdrawn_state a_creator "challenge-1" next_season (mkPrior "new" "") next_source
          timing_manifest "source-2" 10 with
  | Ok (s, _) => bool_decide (vr_status <$> versions s !! "new" = Some "superseded")
  | Err _ => false
  end = true.
Proof. vm_compute. reflexivity. Qed.

(** * The queue *)

Definition clock (t : Z) : Env := {| Now := mkTime t 0; NewID := λ _, "job" |}.

Definition first_job : QueueRow := mkQueueRow "1" "queued" 0 (mkTime 5 0) None None None.
Definition second_job : QueueRow := mkQueueRow "2" "retry" 3 (mkTime 10 0) None (Some "old") (Some "failed").
Definition second_key : string * string := ("preflight", "p").

Definition two_jobs : workers :=
  mkWorkers (set_jobs sample_db {[("sign_receipt", "r") := first_job; second_key := second_job]}) [].

Lemma two_jobs_ok : workers_ok two_jobs.
Proof.
  split; [by intros p lease k r Hin%elem_of_nil|apply NoDup_nil_2|]. intros k r.
  cbn [two_jobs wk_db t_jobs set_jobs]. intros [[_ <-]|[_ [_ <-]%lookup_singleton_Some]]%lookup_insert_Some; by vm_compute.
Qed.

Lemma two_jobs_run : ∃ w, queue_run 100 [Claimed ("sign_receipt", "r") false ∅; Unclaimed] two_jobs w.
Proof.
  eexists. eapply (run_cons _ (clock 100)); [done| |].
  { refine (step_claim (clock 100) two_jobs ∅ "lease" ("sign_receipt", "r") first_job _ _ _ _ _);
      [|vm_compute; reflexivity|reflexivity]. split; [|apply not_elem_of_nil].
    intros k r. cbn [two_jobs wk_db t_jobs set_jobs].
    intros [[_ <-]|[_ [_ <-]%lookup_singleton_Some]]%lookup_insert_Some; discriminate. }
  eapply (run_cons _ (clock 101)); [done| |apply run_nil].
  eapply (step_finish (clock 101) _ [] [] _ "lease" (Ok tt)). reflexivity.
Qed.

Lemma queue_serves_witness : ∃ w, queue_run 100 [Claimed ("sign_receipt", "r") false ∅; Unclaimed] two_jobs w ∧
  t_jobs (wk_db w) !! second_key = Some second_job ∧
  (1 ≤ size (ahead second_key second_job (wk_db two_jobs)))%nat.
Proof.
  destruct two_jobs_run as [w Hw]. exists w. split; [exact Hw|].
  destruct (queue_serves _ _ _ _ second_key second_job two_jobs_ok Hw) as [Hc|(Hq & Hn & _)].
  - repeat constructor. apply not_elem_of_empty.
  - vm_compute. reflexivity.
  - right. reflexivity.
  - reflexivity.
  - repeat (apply Exists_cons in Hc as [Hc|Hc]; [discriminate || destruct Hc|]). by apply Exists_nil in Hc.
  - split; [exact Hq|]. cbn in Hn. rewrite Nat.add_0_r in Hn. exact Hn.
Defined.

Lemma job_attempts_bounded_witness :
  ∃ w l, queue_run 100 l two_jobs w ∧ (attempts_at second_key l ≤ 8)%nat.
Proof.
  destruct two_jobs_run as [w Hw]. eexists w, _. split; [exact Hw|].
  exact (proj1 (job_attempts_bounded _ _ _ _ second_key two_jobs_ok Hw)).
Defined.

(** * A review *)

Definition quiet_review : ScienceReview :=
  mkScienceReview None "automated_pass" "" "" "" "" "" [mkReviewFinding "info" "rights" "Licence stated" ""] [].

Lemma conclude_review_exact_witness : ∃ r,
  conclude_review quiet_echoes (Err "no candidate") "human_review_required" quiet_review = Ok r ∧
  sr_Outcome r ≠ "automated_pass" ∧ sr_Findings quiet_review `prefix_of` sr_Findings r.
Proof.
  destruct (conclude_review quiet_echoes (Err "no candidate") "human_review_required" quiet_review) as [r|] eqn:Hr;
    [|vm_compute in Hr; discriminate].
  exists r. destruct (conclude_review_exact _ _ _ _ _ Hr) as (Hp & _ & _ & _ & Hf). split; [reflexivity|].
  split; [|exact Hf]. intros Ho. apply Hp in Ho as (_ & _ & _ & _ & _ & Hs). discriminate.
Defined.

Lemma dial_public_witness : dial_address [[93; 184; 216; 34]; [1; 1; 1; 1]] = Ok [93; 184; 216; 34] ∧ ¬ reserved_v4 1 1 1.
Proof.
  assert (dial_address [[93; 184; 216; 34]; [1; 1; 1; 1]] = Ok [93; 184; 216; 34]) as Hd by (vm_compute; reflexivity).
  split; [exact Hd|]. destruct (dial_public _ _ Hd) as [_ Hp].
  apply (Hp 1 1 1 1); [unfold octet; lia..|]. left. right. left.
Defined.

(** A repository with a text, and a file that holds a password. *)
Definition evidence_files : Files :=
  {["science-ladder.yaml" := "{}"; "docs/science.md" := "# Energy"; "LICENSE" := "password=12345678"]}.
Definition evidence_commit : string := string_of (replicate 40 "c"%char).
Definition evidence_digest : string := Eval vm_compute in DigestBytes "{}".

#[export] Instance evidence_manifests : JsonType Manifest := { Marshal := λ _, Ok "{}"; DecodeKnown := λ _, Ok quiet_echoes }.
#[export] Instance evidence_snapshots : JsonType SnapshotDocument := {
  Marshal := λ _, Err "unused"; DecodeKnown := λ _, Ok (mkSnapshotDocument 7 evidence_commit evidence_files) }.
#[export] Instance plain_yaml : YamlLib := { YamlDecode := λ _ _, YamlError "unused" }.

Lemma evidence_manifest : ParseManifest "{}" = Ok quiet_echoes.
Proof.
  assert (AuthoringJSON "{}" = Ok "{}") as E1 by (vm_compute; reflexivity).
  assert (DecodeStrict "{}" = Ok quiet_echoes) as E2 by (vm_compute; reflexivity).
  unfold ParseManifest. rewrite E1, E2, quiet_echoes_valid. reflexivity.
Qed.

Lemma selectReviewEvidence_safe_witness : ∃ e,
  selectReviewEvidence "{}" evidence_digest evidence_commit 7
    quiet_echoes = Ok e ∧ lenl (se_Files e) ≤ 24 ∧ Digest quiet_echoes = Ok (se_ManifestDigest e).
Proof.
  destruct (selectReviewEvidence "{}" evidence_digest
    evidence_commit 7 quiet_echoes) as [e|err] eqn:He.
  - exists e. destruct (selectReviewEvidence_safe _ _ _ _ _ _ He) as (_ & _ & Hd & _ & _ & _ & _ & _ & _ & Hl & _).
    split; [reflexivity|]. split; [exact Hl|exact Hd].
  - exfalso. revert He. unfold selectReviewEvidence.
    assert (DecodeStrictBounded "{}" snapshot_limit = Ok (mkSnapshotDocument 7 evidence_commit evidence_files)) as E1
      by (vm_compute; reflexivity).
    assert (evidence_files !! "science-ladder.yaml" = Some "{}") as E2 by (vm_compute; reflexivity).
    assert (Digest quiet_echoes = Ok evidence_digest) as E3 by (vm_compute; reflexivity).
    assert ((len "{}" >? snapshot_limit) || (DigestBytes "{}" !=s evidence_digest) = false) as E4 by (vm_compute; reflexivity).
    rewrite E4, E1. cbn [sd_SourceCommit sd_RepositoryID sd_Files]. rewrite E2. cbn [default from_option id].
    rewrite evidence_manifest, E3, !String.eqb_refl. discriminate.
Defined.

(** * A page *)

Definition sample_page : htmlNode :=
  OtherNode [ElementNode "html" [] [
    ElementNode "head" [] [ElementNode "meta" [("name", "citation_date"); ("content", "2024/09/11")] []];
    ElementNode "body" [] [
      ElementNode "p" [("style", "display : none")] [TextNode "hidden"];
      ElementNode "p" [] [TextNode "new best-known"; ElementNode "script" [] [TextNode "code"]; TextNode "sequences"]]]].
#[export] Instance sample_html : HtmlLib := { HtmlParse := λ _, Ok sample_page }.


(** * The attempts limit *)

(** Eight failures, within minutes, end an initial review for ever: the job is not claimed
    again, the next passing preflight finds its row and leaves it, and a re-review is
    refused because there is no initial one. *)
Lemma exhausted_review_is_final `{!Env} `{!Crypto} (sv : Server) (key : string) (s : pdb) (u : User)
    (version reason : string) (r : QueueRow) :
  t_jobs (p_core s) !! ("scientific_review", version) = Some r → qu_status r = "attention_required" →
  reviewed s version = false →
  ready r = false ∧ t_jobs (enqueue (p_core s) "scientific_review" version) = t_jobs (p_core s) ∧
  is_ok (requestScientificReview sv key s u version reason) = false.
Proof.
  intros Hr Hs Hn. split; [unfold ready; by rewrite Hs|]. split.
  - unfold enqueue, ID. cbn [t_jobs set_jobs set_ids]. by rewrite Hr.
  - unfold requestScientificReview. rewrite Hn. repeat case_match; done.
Qed.

(** An error text cut within a character cannot be stored: the row stays as it is, and is
    claimed again whenever its lease expires, without an end. *)
Definition long_error : string := string_of (replicate 999 "x"%char) +:+ "é".
Lemma cut_error_is_not_recorded `{!Env} (d : db) (p : picked) (lease : string) :
  pg_text long_error = true ∧ (work_finish d p lease (Err long_error)).1 = d.
Proof.
  split; [vm_compute; reflexivity|]. unfold work_finish.
  assert (pg_text (truncated long_error) = false) as -> by (vm_compute; reflexivity). reflexivity.
Qed.
