(* ===== verification/ExecutorSamples.v ===== *)
(** Concrete instances of the theorems on the runner and its daemon: a result that the service
    does not take at once, an authorization that is renewed, a run of a leased job, and the
    scan of a build with one vendored wheel. *)

From S2P Require Import Prelude Regex GoLib Numbers Types Scores Paths Measurement Evaluation Validate Sha256.
From S2P Require Import GoJson Canonical Documents Results Artifacts Hidden Signatures Checkpoint History Store Platform.
From S2P Require Import Preparation Suites Runners Snapshots Sources Host Wheels Inventory InventoryProofs.
From S2P Require Import Executor ExecutorProofs Daemon DaemonProofs.
From S2P Require Import Samples AuditSamples ArtifactSamples RunnerSamples.
From Stdlib Require Import Ascii.
Open Scope Z_scope.

(** * The spool *)

#[export] Instance delivery_eq_dec : EqDecision delivery.
Proof. solve_decision. Defined.
Definition sample_delivery : delivery := mkDelivery "job-1" (mkEnvelope "t" "p" []) "token".
Definition delivery_table : list (Bytes * delivery) := [("61", sample_delivery)].
#[export] Instance sample_deliveries : JsonType delivery := table_codec delivery_table.
#[export] Instance sample_spool_codec : SpoolCodec.
Proof.
  split. intros d v data Hm Hd. unfold DecodeStrictBounded in Hd. ok_step Hd. ok_step Hd.
  apply (table_codec_round_trip delivery_table d data v); [|exact Hm|exact Hd].
  apply (bool_decide_unpack _). vm_compute. exact I.
Qed.

(** A service that counts the requests and refuses the first three; one that never refuses. *)
Definition late_service (served : nat) (_ : string) (_ : Envelope) (_ : string) : nat * result unit :=
  (S served, if (served <? 3)%nat then Err "HTTP 503" else Ok tt).
Definition ready_service (served : nat) (_ : string) (_ : Envelope) (_ : string) : nat * result unit := (S served, Ok tt).

Definition calm : Outcomes := mkOutcomes (λ _, Done) "7" id (λ _, true).
(** The sync of the directory fails. *)
Definition stormy : Outcomes :=
  mkOutcomes (λ c, match c with SyncDirectory _ => Failed false | _ => Done end) "8" id (λ _, true).

Definition first_start : World := mkWorld (mkSpool ∅ []) 0%nat [] [] [].
Definition undelivered : World :=
  outcome (deliver_job late_service calm sample_delivery (outcome (replayResults late_service calm first_start))).
Definition unsynced : World :=
  outcome (deliver_job ready_service stormy sample_delivery (outcome (replayResults ready_service calm first_start))).

(** A crash that keeps the latest version of every file. *)
Lemma after_crash_live s : map_Forall (λ _ n, node_synced n = true) (sp_live s) → after_crash s (sp_live s).
Proof.
  intros Hs name. exists (sp_live s). split; [apply list_elem_of_here|].
  destruct (sp_live s !! name) as [n|] eqn:E; constructor. by apply (Hs name).
Qed.

(** One job after an empty start. *)
Lemma one_job service os b : let w := outcome (replayResults service calm first_start) in
  run_completed (replayResults service calm first_start) = true →
  run_completed (deliver_job service os sample_delivery w) = b →
  daemon_reachable service 0%nat b (outcome (deliver_job service os sample_delivery w)).
Proof.
  intros w Hs <-. apply reach_job. pose proof (reach_replay service 0%nat false first_start calm) as Hr.
  rewrite Hs in Hr. apply Hr, reach_start.
Qed.

Lemma persisted_result_survives_witness :
  sp_live (w_spool undelivered) !! "job-1.json" = Some (mkNode (Ok "61") true (owner_only 2)).
Proof.
  destruct (persisted_result_survives late_service 0%nat false undelivered sample_delivery (sp_live (w_spool undelivered)))
    as (data & Hd & Hl).
  - apply (one_job late_service calm false); vm_compute; reflexivity.
  - apply (bool_decide_unpack _). vm_compute. exact I.
  - apply (bool_decide_unpack _). vm_compute. exact I.
  - apply after_crash_live. apply (bool_decide_unpack _). vm_compute. exact I.
  - injection Hd as <-. exact Hl.
Defined.

Lemma restart_delivers_witness :
  daemon_reachable ready_service 0%nat false unsynced ∧
  run_completed (replayResults ready_service calm unsynced) = true.
Proof.
  assert (daemon_reachable ready_service 0%nat false unsynced) as Hr.
  { apply (one_job ready_service stormy false); vm_compute; reflexivity. }
  split; [exact Hr|]. apply (restart_delivers ready_service 0%nat false unsynced calm Hr).
  - intros c. reflexivity.
  - intros d Hd. assert (d = sample_delivery) as ->.
    { apply list_elem_of_singleton. vm_compute in Hd |- *. exact Hd. }
    split; [|reflexivity]. exists "61". split; vm_compute; reflexivity.
Defined.

(** * A host *)

(** Every pinned file holds the same small document, which each type reads as its own. *)
Definition pin_digest : string := Eval vm_compute in DigestBytes "{}".
Definition pin (name : string) : PinnedFile := mkPinnedFile ("/opt/" +:+ name) pin_digest.
Definition lab_image : string := validator_RuntimeImageDigest (manifest_Validator quiet_echoes).

Definition lab_directory : FileInfo := mkFileInfo true false false 448 0 (Some 0).
Definition lab_file : FileInfo := mkFileInfo false true false 292 2 (Some 0).
#[export] Instance lab_os : HostOS := {
  GOOS := "linux"; GOARCH := "amd64"; Geteuid := 0;
  Lstat := λ name, Ok (if HasPrefix name "/opt/" then lab_file else lab_directory);
  Stat := λ name, Ok (if HasPrefix name "/opt/" then lab_file else lab_directory);
  ReadFile := λ name,
    if HasPrefix name "/sys/" then Ok "0" else
    if name ==s "/proc/swaps" then Ok "Filename" else
    if name ==s "/proc/mounts" then Ok "tmpfs /work tmpfs rw 0 0" else Ok "{}" }.
#[export] Instance lab_workspace : Workspace := { OsFault := λ _ _, None }.
#[export] Instance lab_net : SourceNet := {
  UrlHostname := λ s, nth 2 (Split s "/") ""; UrlPort := λ _, ""; SourceGet := λ _, Err "unused" }.

Definition lab_now : Time := mkTime (1010 * day) 0.
Definition expires_hours (a : HostAttestation) : string := int_string (t_ns (hostAttestation_ExpiresAt a) / Hour).
Definition lab_binding : string := Eval vm_compute in DigestBytes "[8]".
Definition lab_attestation (at_ : Time) : HostAttestation :=
  mkHostAttestation None "lab-1" "machine-1" "lab" at_ true true pin_digest "1" lab_binding.
Definition lab_old : HostAttestation := lab_attestation (AddNs lab_now (12 * Hour)).
Definition lab_fresh : HostAttestation := lab_attestation (AddNs (UTC lab_now) runnerAuthorizationLifetime).
#[export] Instance lab_attestations : JsonType HostAttestation := {
  Marshal := λ a, Ok (expires_hours a);
  DecodeKnown := λ s, Ok (if s ==s expires_hours lab_old then lab_old else lab_fresh) }.
Definition lab_keys : gmap string PublicKey := {["control" := 80]}.
Definition lab_envelope : Envelope :=
  match Sign "control" (Some 80) lab_old with Ok e => e | Err _ => no_envelope end.

Definition lab_config : Config := {|
  config_Assets := []; config_Capabilities := None; config_HostID := "lab-1"; config_HostGroup := "lab";
  config_RunnerEpoch := "1"; config_ExecutionProfileDigest := pin_digest; config_Kernel := pin "kernel";
  config_RootFS := pin "rootfs"; config_Firecracker := pin "firecracker"; config_Jailer := pin "jailer";
  config_MakeSquashFS := pin "mksquashfs"; config_CPUConfig := pin "cpu"; config_RuntimeInventory := pin "inventory";
  config_AdvisorySnapshot := pin "advisories"; config_AdvisoryKeys := pin "keys"; config_RuntimeImageDigest := lab_image;
  config_EncryptionPublicKey := ""; config_WorkRoot := "/work"; config_ResultSpool := "/spool";
  config_NetworkNamespace := "/netns"; config_CPUSet := "2-3"; config_UID := 10000; config_GID := 10000;
  config_Attestation := lab_envelope |}.
#[export] Instance lab_configs : JsonType Config := { Marshal := λ _, Ok "[8]"; DecodeKnown := λ _, Ok lab_config }.

(** ** The inventory and the advisories: an interpreter, and one vendored wheel *)

Definition wheel_bytes : Bytes := "wheel".
Definition wheel_digest : string := Eval vm_compute in DigestBytes wheel_bytes.
Definition wheel_name : string := "wheels/tiny-1.0-py3-none-any.whl".
Definition module_text : Bytes := "x = 1".
Definition metadata_text : Bytes := "Name: tiny".
#[export] Instance lab_wheels : WheelLib := {
  WheelReader := λ _, Ok [mkWheelEntry "tiny.py" false false true 5 5 (Ok (module_text, None));
                          mkWheelEntry "tiny-1.0.dist-info/METADATA" false false true 10 10 (Ok (metadata_text, None))];
  ReadMIMEHeader := λ _, Ok (λ key, if key ==s "Name" then ["tiny"] else if key ==s "Version" then ["1.0"] else []) }.
Definition lab_lock : Bytes := "tiny==1.0 --hash=" +:+ wheel_digest.
Definition lab_files : Files := {["requirements.lock" := lab_lock; wheel_name := wheel_bytes]}.

Definition interpreter : PackageCoordinate := mkPackageCoordinate "" "CPython" "cpython" "3.12.0" "" "" "".
Definition tiny_wheel : PackageCoordinate := mkPackageCoordinate "" "PyPI" "tiny" "1.0" wheel_digest "" "".
Definition lab_inventory : RuntimeInventory :=
  mkRuntimeInventory [] "science-ladder-runtime-inventory/v1" lab_image "" [interpreter].
Definition lab_source : string := "https://api.osv.dev/v1".
Definition lab_advisories : AdvisorySnapshot := mkAdvisorySnapshot "science-ladder-advisories/v1" "AdvisorySnapshot" "week-1"
  (AddNs lab_now (- day)) (AddNs lab_now day) [mkAdvisorySource lab_source (AddNs lab_now (- day)) pin_digest]
  [mkAdvisoryCoverage interpreter "complete" lab_source [mkAdvisory "OSV-1" "low" lab_source];
   mkAdvisoryCoverage tiny_wheel "complete" lab_source []].
#[export] Instance lab_inventories : JsonType RuntimeInventory := { Marshal := λ _, Err "unused"; DecodeKnown := λ _, Ok lab_inventory }.
#[export] Instance lab_snapshots : JsonType AdvisorySnapshot := { Marshal := λ _, Ok "[9]"; DecodeKnown := λ _, Ok lab_advisories }.
Definition advisory_envelope : Envelope :=
  match Sign "advisory" (Some 65) lab_advisories with Ok e => e | Err _ => no_envelope end.
#[export] Instance lab_envelopes : JsonType Envelope := { Marshal := λ _, Err "unused"; DecodeKnown := λ _, Ok advisory_envelope }.
#[export] Instance lab_key_files : JsonType (gmap string string) := {
  Marshal := λ _, Err "unused"; DecodeKnown := λ _, Ok {["advisory" := "A"]} }.

Definition lab_admission : AdmissionWindow :=
  mkAdmissionWindow true AdmissionSafetyWindow (AddNs lab_now (- day - Minute)) (AddNs lab_now (12 * Hour)) (AddNs lab_now day).
Lemma lab_window : LoadAdmissionWindow lab_config lab_keys = Ok lab_admission.
Proof. vm_compute. reflexivity. Qed.

Definition lab_job : RunnerJob :=
  mkRunnerJob "" "platform" pin_digest pin_digest None pin_digest "staging" true APIVersion "ValidationJob" "job-1" lab_now
    "science-ladder" (AddNs lab_now (15 * Minute)) "submission" "sub-1" pin_digest pin_digest pin_digest pin_digest "1" 1 "" []
    (mkObjectRef pin_digest 2 "https://objects/v") (mkObjectRef pin_digest 2 "https://objects/a")
    (mkObjectRef pin_digest 2 "https://objects/s") (mkObjectRef pin_digest 2 "https://objects/c") quiet_echoes None.


Definition lab_renewal : Envelope :=
  match Sign (A := HostAttestation) "control" (Some 80) lab_fresh with Ok e => e | Err _ => no_envelope end.
Lemma renewal_refreshes_witness :
  RenewAuthorization lab_config lab_keys lab_renewal lab_now =
    Ok (set_attestation lab_renewal lab_config,
        mkAdmissionWindow true AdmissionSafetyWindow (AddNs lab_now (- day - Minute)) (AddNs lab_now day) (AddNs lab_now day)).
Proof.
  apply (renewal_refreshes sample_server (mkIdentity "lab-1" "lab" "" "" "" "" "" [] None) lab_binding "24" "lab" pin_digest 80
           lab_config lab_keys lab_admission lab_old lab_fresh lab_now lab_now lab_fresh).
  - exact sample_canonical.
  - intros k hash sig Hs. injection Hs as <-. apply String.eqb_refl.
  - intros data payload Hm Hc. injection Hm as <-. vm_compute in Hc. injection Hc as <-. vm_compute. reflexivity.
  - reflexivity.
  - vm_compute. reflexivity.
  - exact lab_window.
  - vm_compute. reflexivity.
  - vm_compute. reflexivity.
  - reflexivity.
  - vm_compute. reflexivity.
  - vm_compute. discriminate.
  - vm_compute. discriminate.
Defined.

(** * The scan of a build *)

Definition lab_range : list (string * Bytes) := Eval vm_compute in map_to_list lab_files.
Definition lab_installed : Files := {["site-packages/tiny.py" := module_text; "site-packages/tiny-1.0.dist-info/METADATA" := metadata_text]}.
Lemma lab_ranged : lab_range ≡ₚ map_to_list lab_files.
Proof. assert (map_to_list lab_files = lab_range) as -> by (vm_compute; reflexivity). reflexivity. Qed.

Lemma lockedWheelFiles_exact_witness : ∃ path data pin entries entry, lab_files !! path = Some data ∧
  (∃ pins, vendored pins (path, data) pin entries) ∧ entry ∈ entries ∧ installs entry "site-packages/tiny.py" module_text.
Proof.
  destruct (lockedWheelFiles_exact lab_files lab_range "requirements.lock" lab_installed lab_ranged)
    as (lock & pins & _ & _ & _ & _ & Hfrom & _).
  - vm_compute. reflexivity.
  - destruct (Hfrom "site-packages/tiny.py" module_text) as (path & data & pin & entries & entry & Hf & Hv & He & Hi);
      [vm_compute; reflexivity|].
    exists path, data, pin, entries, entry. split; [exact Hf|]. split; [exists pins; exact Hv|]. split; [exact He|exact Hi].
Defined.

Lemma DependencyInventory_complete_witness :
  NoDup (packageKey <$> [interpreter; tiny_wheel]) ∧
  ∃ p q required, wheel_of (wheel_name, wheel_bytes) p required ∧ q ∈ [interpreter; tiny_wheel] ∧ packageKey q = packageKey p.
Proof.
  destruct (DependencyInventory_complete lab_files lab_range "requirements.lock" lab_inventory [interpreter; tiny_wheel] lab_ranged)
    as (Hn & _ & Hw & _).
  - vm_compute. reflexivity.
  - split; [exact Hn|]. destruct (Hw wheel_name wheel_bytes) as (p & q & required & Hof & Hq & Hk & _);
      [vm_compute; reflexivity|vm_compute; reflexivity|].
    exists p, q, required. split; [exact Hof|]. split; [exact Hq|exact Hk].
Defined.

Definition lab_scan : VulnerabilityScan * ObjectRef :=
  match Scan (Some lab_config) lab_now lab_files lab_range quiet_echoes "sbom.json" ∅ with (_, scan, ref, _) => (scan, ref) end.
Definition lab_disk : Files :=
  match Scan (Some lab_config) lab_now lab_files lab_range quiet_echoes "sbom.json" ∅ with (disk, _, _, _) => disk end.
Definition lab_report : BuildReport :=
  mkBuildReport 0 (Some (lab_scan.2)) (Some (lab_scan.1)) "" "" "" "" "" "" "" true [] true true true [] None None None None.

Lemma passing_scan_accepted_witness : check_scan (H := sample_env) lab_job lab_report = Ok lab_scan.1.
Proof.
  apply (passing_scan_accepted lab_config lab_now lab_files lab_range "sbom.json" ∅ lab_disk lab_scan.1 lab_scan.2 lab_job lab_report
           lab_scan.2).
  - vm_compute. reflexivity.
  - reflexivity.
  - reflexivity.
  - reflexivity.
  - reflexivity.
  - reflexivity.
  - vm_compute. reflexivity.
  - vm_compute. reflexivity.
  - intros Hs. vm_compute in Hs. discriminate.
Defined.

(** * A run *)

#[export] Instance lab_machine : Machine := {
  ObjectGet := λ _, Ok (200, ("{}", None));
  SquashFS := λ _ _, Ok "disk";
  Jail := λ _ _ _ _, mkVmRun false false ["SL_RESULT Mw=="] 10 lab_now }.
Definition lab_runtime : Runtime := mkRuntime _ lab_config lab_keys (Some 80) "lab-1" ∅ "" None.
Definition lab_host : runnerIdentity := mkIdentity "lab-1" "lab" "" "" "" "" "" [] None.
Definition lab_row : JobRow :=
  mkJobRow "submission" "version-1" (Some "sub-1") None None lab_job "running" (Some "lab-1") None (Some "token") 1
    (Some (AddNs lab_now (15 * Minute))) 1 lab_now.
Definition lab_run : VmRun := Jail [] ∅ [] lab_now.

(** Every result of the table reads back. *)
Lemma entry_reads_back e : In e result_table → reads_back e.2.
Proof.
  intros [<-|[<-|[<-|[]]]]; (eexists; split; [vm_compute; reflexivity|split; [vm_compute; discriminate|vm_compute; reflexivity]]).
Qed.
Lemma results_read_back res data : DecodeKnown (A := ValidatorResult) data = Ok res → reads_back res.
Proof.
  unfold DecodeKnown, sample_results, table_codec. intros Hd.
  destruct (List.find _ result_table) as [e|] eqn:E; [|discriminate]. apply find_some in E as [Hin _].
  apply (inj Ok) in Hd as <-. by apply entry_reads_back.
Qed.


Lemma lab_checked : CheckHost lab_now (rt_Config lab_runtime) (rt_Keys lab_runtime) = Ok tt.
Proof. vm_compute. reflexivity. Qed.
Definition lab_root : Files :=
  match prepare_root lab_runtime ∅ lab_job "/work/active" "/work/active/firecracker/job-1/root" with Ok (files, _) => files | Err _ => ∅ end.
Lemma launched_inputs_exact_witness : ∃ validator kernel,
  lab_root !! "validator.squashfs" = Some validator ∧ names_object (runnerJob_ValidatorDisk lab_job) validator ∧
  lab_root !! "vmlinux" = Some kernel ∧ DigestBytes kernel = pin_digest.
Proof.
  destruct (launched_inputs_exact lab_now lab_runtime ∅ lab_job "/work/active" "/work/active/firecracker/job-1/root" lab_root []
    lab_checked) as (validator & submission & fetched & suite & challenge & kernel & rootfs & Hv & Hvn & _ & _ & _ & _ & _ & _ & _ & Hk & Hkd & _).
  - vm_compute. reflexivity.
  - exists validator, kernel. split; [exact Hv|]. split; [exact Hvn|]. split; [exact Hk|exact Hkd].
Defined.
