(* ===== verification/PublicationSamples.v ===== *)
(** A log of three events published in two checkpoints, signed, served and taken by a witness
    and a quorum, on which the theorems of PublicationProofs are instantiated. *)

From S2P Require Import Prelude Regex GoLib Numbers Types Paths Validate Sha256 GoJson Canonical Documents Results Store.
From S2P Require Import LedgerProofs Signatures Checkpoint CheckpointProofs History Platform Witness Publication PublicationProofs.
From S2P Require Import Samples AuditSamples RunnerSamples.
From Stdlib Require Import Ascii.
Open Scope Z_scope.

#[export] Instance sample_columns : Columns := { jsonb := λ b, b; timestamptz := λ t, mkTime (t_ns t / 1000 * 1000) 0 }.

Definition publisher : Server :=
  mkServer "production" 3 20 "log-key" (Some log_key) (Some history_1) true "" "" root_key None "".

(** * The two checkpoints *)

Definition at_hour (n : Z) : Time := mkTime (1010 * day + n * Hour) 0.
Definition no_checkpoint : Checkpoint := mkCheckpoint "" "" "" "" "" "" "" "" "" (mkTime 0 0).
Definition built (r : result Checkpoint) : Checkpoint := match r with Ok c => c | Err _ => no_checkpoint end.

Definition with_events (p : publication) (kinds : list string) : publication :=
  match foldM (λ d kind, audit d "version-1" kind ∅) (set_audit sample_core (pub_events p)) kinds with
  | Ok d => mkPublication (t_audit d) (pub_rows p) (pub_receipts p)
  | Err _ => p
  end.
Definition sample_log : list AuditRow :=
  pub_events (with_events (mkPublication [] [] ∅) ["challenge.published"; "submission.accepted"; "submission.adjudicated"]).
Definition first_checkpoint : Checkpoint := built (@Build _ (table_codec []) "log" (map event_of (take 2 sample_log)) None (at_hour 0)).
Definition second_checkpoint : Checkpoint :=
  built (@Build _ (table_codec [("21", first_checkpoint)]) "log" (map event_of (drop 2 sample_log)) (Some first_checkpoint) (at_hour 1)).
Definition publication_table : list (string * Checkpoint) := [("21", first_checkpoint); ("22", second_checkpoint)].
Definition publication_codec : JsonType Checkpoint := table_codec publication_table.
#[local] Existing Instance publication_codec.

(** * The steps *)

Definition pub_seal (now : Time) (p : publication) : publication := match seal_checkpoint "log" now p with Ok (p, _) => p | Err _ => p end.
Definition pub_sign (p : publication) : publication :=
  match last (pub_rows p) with
  | Some r => match sign_checkpoint publisher log_key (pr_payload r, pr_digest r) p with Ok p => p | Err _ => p end
  | None => p
  end.
Definition pub_vote (id : string) (key : Signer) (cp : Checkpoint) (p : publication) : publication :=
  match Sign id (Some key) cp with
  | Ok e => match witnessReceipt publisher (mustDigest cp) e (at_hour 2) p with Ok (p, _) => p | Err _ => p end
  | Err _ => p
  end.

Definition reached : publication → Prop := publishing publisher log_key "log".
Lemma reach_events p kinds : reached p → reached (with_events p kinds).
Proof.
  intros Hp. unfold with_events. destruct (foldM _ _ _) as [d|] eqn:E; [|done].
  assert (∀ kinds d0 q, reached q → t_audit d0 = pub_events q → foldM (λ d kind, audit d "version-1" kind ∅) d0 kinds = Ok d →
    reached (mkPublication (t_audit d) (pub_rows q) (pub_receipts q))) as Hall.
  { clear. induction kinds as [|kind kinds IH]; intros d0 q Hq Hd Hf.
    - injection Hf as <-. rewrite Hd. by destruct q.
    - cbn [foldM] in Hf. destruct (audit d0 "version-1" kind ∅) as [d1|] eqn:Ea; [|done].
      apply (IH d1 (mkPublication (t_audit d1) (pub_rows q) (pub_receipts q))); [|done|done]. by eapply publish_append. }
  by apply (Hall kinds (set_audit sample_core (pub_events p)) p).
Qed.
Lemma reach_seal now p : reached p → reached (pub_seal now p).
Proof. intros Hp. unfold pub_seal. destruct (seal_checkpoint _ _ _) as [[q x]|] eqn:E; [by eapply publish_seal|done]. Qed.
Lemma reach_sign p : reached p → reached (pub_sign p).
Proof.
  intros Hp. unfold pub_sign. destruct (last (pub_rows p)) as [r|] eqn:El; [|done].
  destruct (sign_checkpoint _ _ _ _) eqn:E; [|done]. eapply publish_sign; [done| |done]. rewrite last_lookup in El. by apply list_elem_of_lookup_2 in El.
Qed.
Lemma reach_vote id key cp p : reached p → reached (pub_vote id key cp p).
Proof.
  intros Hp. unfold pub_vote. destruct (Sign _ _ _); [|done]. destruct (witnessReceipt _ _ _ _ _) as [[q x]|] eqn:E; [|done].
  by eapply publish_vote.
Qed.

Definition one_published : publication :=
  pub_sign (pub_seal (at_hour 0) (with_events (mkPublication [] [] ∅) ["challenge.published"; "submission.accepted"])).
Definition two_events : publication := with_events one_published ["submission.adjudicated"].
Definition two_published : publication := pub_sign (pub_seal (at_hour 1) two_events).
Definition two_verified : publication :=
  pub_vote "witness-b" (witness_key 98) first_checkpoint (pub_vote "witness-a" (witness_key 97) first_checkpoint two_published).

Lemma two_events_reached : reached two_events.
Proof. apply reach_events, reach_sign, reach_seal, reach_events, publish_start. Qed.
Lemma two_published_reached : reached two_published.
Proof. apply reach_sign, reach_seal, two_events_reached. Qed.

Example two_verified_rows : (λ r, (pr_from r, pr_to r, is_signed r, bool_decide (is_Some (pr_verified r)))) <$> pub_rows two_verified
  = [(1, 2, true, true); (3, 3, true, false)].
Proof. vm_compute. reflexivity. Qed.

(** * The theorems at these states *)

Definition row_at (p : publication) (i : nat) : PublicRow :=
  default (mkPublicRow "" no_checkpoint None 0 0 (mkTime 0 0) None) (pub_rows p !! i).
Definition envelope_at (p : publication) (i : nat) : Envelope := default (mkEnvelope "" "" []) (pr_envelope (row_at p i)).

Lemma same_some {A} (o : option A) a b : o = Some a → o = Some b → a = b.
Proof. congruence. Qed.
Lemma same_ok {A} (r : result A) a b : r = Ok a → r = Ok b → a = b.
Proof. congruence. Qed.
Lemma publication_reads_back cp data c : Marshal cp = Ok data → CanonicalJSON data = Ok c → DecodeKnown c = Ok cp.
Proof.
  intros Hm Hc. assert (c = data) as -> by (unfold CanonicalJSON in Hc; do 2 ok_step Hc; by injection Hc).
  apply (table_codec_text publication_table) in Hm as Ht. change (publication_table.*1) with ["21"; "22"] in Ht.
  destruct (DecodeKnown data) as [cp'|] eqn:Ed.
  - f_equal. apply (table_codec_round_trip publication_table cp data cp'); [|done|done].
    apply (bool_decide_unpack _). vm_compute. exact I.
  - exfalso. apply elem_of_cons in Ht as [->|Ht%list_elem_of_singleton]; [by vm_compute in Ed|]. subst. by vm_compute in Ed.
Qed.
Lemma sample_signature k hash sig : SignHash k hash = Ok sig → VerifyASN1 (Public k) hash sig = true.
Proof. intros [= <-]. apply String.eqb_refl. Qed.

Lemma published_log_ok_witness : publication_ok publisher log_key "log" two_verified.
Proof. apply published_log_ok. do 2 apply reach_vote. exact two_published_reached. Defined.

Lemma verified_two_operators_witness :
  ∃ history platform votes op1 op2 id1 id2 k1 k2, s_TrustHistory publisher = Some history ∧
    pr_envelope (row_at two_verified 0) = Some platform ∧ votes ⊆ receipts_for two_verified (pr_digest (row_at two_verified 0)) ∧
    op1 ≠ op2 ∧ Fingerprint (Some k1) ≠ Fingerprint (Some k2) ∧
    voted platform votes (KeysAt history "audit-witness" (pr_issued (row_at two_verified 0)))
      (WitnessOperatorsAt history (pr_issued (row_at two_verified 0))) op1 id1 k1 ∧
    voted platform votes (KeysAt history "audit-witness" (pr_issued (row_at two_verified 0)))
      (WitnessOperatorsAt history (pr_issued (row_at two_verified 0))) op2 id2 k2.
Proof.
  apply (verified_two_operators publisher log_key "log" two_verified).
  - do 2 apply reach_vote. exact two_published_reached.
  - apply list_elem_of_lookup. exists 0%nat. vm_compute. reflexivity.
  - apply (bool_decide_unpack _). vm_compute. exact I.
Defined.

Lemma served_validates_witness :
  publicCheckpoints two_published "" (pr_digest (row_at two_published 0)) "1"
    = Ok [served_item two_published 1 (row_at two_published 1) (envelope_at two_published 1)] ∧
  validate history_1 (Some (pr_payload (row_at two_published 0)))
    (pb_bundle (served_item two_published 1 (row_at two_published 1) (envelope_at two_published 1))) (at_hour 2)
    = Ok (pr_payload (row_at two_published 1)).
Proof.
  apply (served_validates publisher log_key "log" two_published 0).
  - exact two_published_reached.
  - vm_compute. reflexivity.
  - vm_compute. reflexivity.
  - vm_compute. reflexivity.
  - exact sample_canonical.
  - exact sample_signature.
  - intros r data c _. apply publication_reads_back.
  - vm_compute. reflexivity.
  - vm_compute. reflexivity.
Defined.


(** Witness A holds the first checkpoint and its vote, which it posts again. *)
#[local] Instance follower_records : JsonType witnessedRecord := { Marshal := λ _, Ok "61"; DecodeKnown := λ _, Err "not decoded" }.
Definition sample_vote : Envelope :=
  match Sign "witness-a" (Some (witness_key 97)) first_checkpoint with Ok e => e | Err _ => mkEnvelope "" "" [] end.
Definition sample_held : witnessedRecord :=
  mkWitnessedRecord (mkBundle (envelope_at two_published 0) [] (map event_of (take 2 sample_log))) (Some sample_vote) false.
Definition follower : Witness :=
  mkWitness true "witness-a" (witness_key 97) history_1 (Some first_checkpoint) (Some sample_held) false.
Definition sample_round : publication * disk * Witness * result unit :=
  observeOne (post_vote publisher (at_hour 2)) publicCheckpoints two_published (mkDisk [] []) follower (at_hour 2) (mkWriteEnv 3 true true).


Example follower_advanced :
  (bool_decide (w_last sample_round.1.2 = Some second_checkpoint), length (receipts_for sample_round.1.1.1 (mustDigest first_checkpoint))) = (true, 1%nat).
Proof. vm_compute. reflexivity. Qed.
