(* ===== verification/BuilderSamples.v ===== *)
(** A preparation on a concrete host: a small challenge with one vendored wheel, whose three
    parsing fixtures are run twice each by a machine that answers by the name of the job. *)

From S2P Require Import Prelude Regex GoLib Numbers Types Scores Paths Measurement Evaluation Validate Sha256.
From S2P Require Import GoJson Canonical Documents Results Artifacts Hidden Signatures Checkpoint History Store Platform.
From S2P Require Import Preparation Suites Runners Snapshots Sources Host Wheels Inventory InventoryProofs.
From S2P Require Import Executor ExecutorProofs Builder BuilderProofs.
From S2P Require Import Samples AuditSamples ArtifactSamples RunnerSamples ExecutorSamples.
From Stdlib Require Import Ascii.
Open Scope Z_scope.

(** * The challenge *)

Definition bench_manifest : Manifest :=
  let m := quiet_echoes in {|
  manifest_Evaluation := None; manifest_VerificationPolicy := "platform"; manifest_APIVersion := manifest_APIVersion m;
  manifest_Kind := manifest_Kind m; manifest_ID := manifest_ID m; manifest_CreatedAt := manifest_CreatedAt m;
  manifest_Producer := manifest_Producer m; manifest_Slug := manifest_Slug m; manifest_Title := manifest_Title m;
  manifest_Summary := manifest_Summary m; manifest_ScientificQuestion := manifest_ScientificQuestion m;
  manifest_Evidence := manifest_Evidence m; manifest_Impact := manifest_Impact m; manifest_Limitations := manifest_Limitations m;
  manifest_SafetyClassification := manifest_SafetyClassification m; manifest_EconomicMode := manifest_EconomicMode m;
  manifest_Metric := manifest_Metric m; manifest_HardGates := manifest_HardGates m; manifest_Milestones := manifest_Milestones m;
  manifest_Deadline := manifest_Deadline m; manifest_Submission := manifest_Submission m; manifest_Validator := manifest_Validator m;
  manifest_Suite := manifest_Suite m; manifest_Resources := manifest_Resources m;
  manifest_Fixtures := [mkFixture "baseline" "fixtures/baseline" "valid" "17996"; mkFixture "valid" "fixtures/valid" "valid" "43776";
    mkFixture "invalid" "fixtures/invalid" "hard_gate_failed" ""; mkFixture "malformed" "fixtures/malformed" "invalid_output" ""] |}.

Definition bench_files : Files := list_to_map [
  ("science-ladder.yaml", "{}"); ("requirements.lock", lab_lock); (wheel_name, wheel_bytes); ("checker.py", "print()");
  ("suite/cases.txt", "512"); ("fixtures/baseline/sequence.txt", "0110"); ("fixtures/valid/sequence.txt", "0101");
  ("fixtures/invalid/sequence.txt", "0000"); ("fixtures/malformed/other.txt", "?")].
Definition bench_commit : string := string_of (replicate 40 "b"%char).
Definition bench_snapshot : SourceSnapshot := mkSourceSnapshot 7 bench_commit bench_files.
Definition bench_order : Files → list (string * Bytes) := map_to_list.

(** * Documents *)

(** Only plain names are taken for normal. *)
#[local] Instance bench_unicode : UnicodeLib := {
  IsNormalString := λ s, forallb (λ b, b <? 128) (bytes_of s); Fold := ToLowerASCII; ToLowerRune := λ r, r }.

Definition bench_result (score : string) (gates : gmap string bool) : ValidatorResult :=
  mkValidatorResult None "" ∅ APIVersion "ValidatorResult" score gates.
Definition bench_gates (binary : bool) : gmap string bool := {["one_canonical_sequence" := true; "binary_length_512" := binary]}.
Definition bench_table : list (string * ValidatorResult) := [
  ("4", bench_result "17996" (bench_gates true)); ("5", bench_result "43776" (bench_gates true));
  ("6", bench_result "43776" (bench_gates false)); ("7", bench_result "0" {["isolation" := true]})].
#[local] Instance bench_results : JsonType ValidatorResult := table_codec bench_table.

#[local] Instance bench_manifests : JsonType Manifest := {
  Marshal := λ m, Ok (text [("id", manifest_ID m)]); DecodeKnown := λ _, Ok bench_manifest }.
#[local] Instance bench_jobs : JsonType RunnerJob := {
  Marshal := λ j, Ok (if runnerJob_ParentJobDigest j ==s "" then "[11]" else "[12]"); DecodeKnown := λ _, Err "unused" }.
#[local] Instance bench_trees : JsonType ArtifactTree := {
  Marshal := λ t, Ok (text (map (λ e, (artifactEntry_Path e, artifactEntry_Digest e)) (artifactTree_Entries t)));
  DecodeKnown := λ _, Err "unused" }.
#[local] Instance bench_snapshots : JsonType SourceSnapshot := {
  Marshal := λ _, Err "unused"; DecodeKnown := λ _, Ok bench_snapshot }.
#[local] Instance no_artifacts : JsonType ArtifactSnapshot := { Marshal := λ _, Err "unused"; DecodeKnown := λ _, Err "unused" }.
#[local] Instance no_hidden : JsonType HiddenSource := { Marshal := λ _, Err "unused"; DecodeKnown := λ _, Err "unused" }.
#[local] Instance bench_yaml : YamlLib := { YamlDecode := λ _ _, YamlError "unused" }.

(** * The machine *)

(** The frame of a run, by the kind and the index in its name. *)
Definition bench_frame (id : string) : string :=
  let words := rev (Split id "-") in
  let number := λ i, Z.to_nat (default 0 (bigint_of_string (nth i words ""))) in
  let value := λ text, "SL_RESULT " +:+ EncodeToString text in
  if HasPrefix id "preflight-" then value (nth (number 1%nat) ["4"; "5"; "6"] "")
  else nth (number 0%nat) [value "7"; "SL_ERROR resource_limit"; "SL_ERROR resource_limit"; "SL_ERROR invalid_output"; value "7"] "".
#[local] Instance bench_machine : Machine := {
  ObjectGet := λ _, Ok (200, ("{}", None));
  SquashFS := λ _ tree, Ok ("squashfs" +:+ fold_right (λ f s, ":" +:+ f.1 +:+ s) "" (map_to_list tree));
  Jail := λ args _ _ _, mkVmRun false false [bench_frame (nth 1 args "")] 10 lab_now }.

Definition bench_runtime : Runtime := mkRuntime _ lab_config lab_keys (Some 80) "lab-1" ∅ "" None.
Definition bench_host : runnerIdentity := mkIdentity "lab-1" "lab" "P" "" "" "" "" [] None.
Definition bench_clock : Attempt := mkAttempt lab_now (λ _ _, lab_now) (λ _, lab_now) lab_now (λ prefix, prefix +:+ "1").

Definition bench_job : RunnerJob :=
  mkRunnerJob "" "platform" pin_digest pin_digest None "" "staging" false APIVersion "ValidationJob" "job-1" lab_now
    "science-ladder" (AddNs lab_now (15 * Minute)) "preflight" "" "" "" "" pin_digest "1" 1 "" []
    (mkObjectRef "" 0 "") (mkObjectRef "" 0 "") (mkObjectRef "" 0 "") (mkObjectRef "" 0 "") bench_manifest
    (Some (mkObjectRef pin_digest 2 "https://objects/source")).
Definition bench_digest : string := Eval vm_compute in DigestBytes "[11]".

(** ** The receipts of the runs *)

Definition suite_digest_of (m : Manifest) (files : Files) : string :=
  match SquashFS disk_options files with Ok d => DigestBytes d | Err _ => "" end.
Definition artifact_of (files : Files) (m : Manifest) : string :=
  match ArtifactFromFiles files (bench_order files) (manifest_Submission m) with Ok (_, d) => d | Err _ => "" end.
Definition bench_run (id artifact suite : string) (m : Manifest) : RunReceipt :=
  let disk := mkObjectRef "" 0 "" in
  run_receipt bench_runtime (child_job bench_digest id artifact suite m disk disk disk disk bench_job) (Jail ["--id"; id] ∅ [] lab_now).
Definition bench_part (path : string) : Files := list_to_map (subset bench_files path).
Definition fixture_receipt (path : string) (i r : nat) : RunReceipt :=
  bench_run (run_id (UnixNano lab_now) i r) (artifact_of (bench_part path) bench_manifest)
    (suite_digest_of bench_manifest (bench_part "suite")) bench_manifest.
Definition probe_receipt (i : nat) : RunReceipt :=
  let m := isolationManifest bench_manifest in
  bench_run ("isolation-" +:+ int_string (UnixNano lab_now) +:+ "-" +:+ nat_string i) (artifact_of artifact_files m)
    (suite_digest_of m {["canary.txt" := canary]}) m.

Definition bench_receipts : list (string * RunReceipt) :=
  imap (λ i r, (int_string (20 + Z.of_nat i), r))
    ([fixture_receipt "fixtures/baseline" 0 0; fixture_receipt "fixtures/baseline" 0 1; fixture_receipt "fixtures/valid" 1 0;
      fixture_receipt "fixtures/valid" 1 1; fixture_receipt "fixtures/invalid" 2 0; fixture_receipt "fixtures/invalid" 2 1]
     ++ map probe_receipt (seq 0 5)).
#[export] Instance ObjectRef_eq_dec : EqDecision ObjectRef.
Proof. solve_decision. Defined.
#[export] Instance FixtureReport_eq_dec : EqDecision FixtureReport.
Proof. solve_decision. Defined.
#[export] Instance VulnerabilityFinding_eq_dec : EqDecision VulnerabilityFinding.
Proof. solve_decision. Defined.
#[export] Instance VulnerabilityScan_eq_dec : EqDecision VulnerabilityScan.
Proof. solve_decision. Defined.
#[export] Instance BuildReport_eq_dec : EqDecision BuildReport.
Proof. solve_decision. Defined.
#[export] Instance RunReceipt_eq_dec : EqDecision RunReceipt.
Proof. solve_decision. Defined.
#[local] Instance bench_codec : JsonType RunReceipt := table_codec bench_receipts.

Definition bench_grant (role : string) (ref : ObjectRef) : result string := Ok ("https://uploads/" +:+ objectRef_Digest ref).
Definition bench_put (address : string) (data : Bytes) (size : Z) : result Z := Ok 200.
Definition bench_prepared : bool * result RunReceipt :=
  prepare_job bench_runtime bench_order bench_clock (uploader bench_grant bench_put) false 1000 bench_job.

Lemma bench_valid : match bench_prepared.2 with Ok r => runReceipt_Outcome r ==s "valid" | Err _ => false end = true.
Proof. vm_compute. reflexivity. Qed.

(** ** What the documents decode to *)

Lemma bench_entries : forallb (λ e, match CanonicalJSON e.1 with Ok c => c ==s e.1 | Err _ => false end
  && match DecodeStrict (A := RunReceipt) e.1 with Ok r => bool_decide (r = e.2) | Err _ => false end) bench_receipts = true.
Proof. vm_compute. reflexivity. Qed.
Lemma bench_reads_back (r : RunReceipt) data canonical : Marshal r = Ok data → CanonicalJSON data = Ok canonical → DecodeStrict canonical = Ok r.
Proof.
  unfold Marshal, bench_codec, table_codec. intros Hm Hc. destruct (List.find _ bench_receipts) as [e|] eqn:E; [|discriminate].
  apply find_some in E as [Hin Heq]. apply bool_decide_eq_true in Heq. apply (inj Ok) in Hm as <-.
  pose proof (proj1 (forallb_forall _ _) bench_entries e Hin) as He. cbv beta in He. rewrite Hc in He. apply andb_true_iff in He as [H1 H2].
  apply String.eqb_eq in H1 as ->. destruct (DecodeStrict e.1) as [r'|]; [|discriminate]. apply bool_decide_eq_true in H2 as ->. congruence.
Qed.

Lemma bench_result_entries : forallb (λ e, match Marshal e.2 with Ok data => (data ==s e.1) | Err _ => false end
  && (len e.1 <=? 65536) && match DecodeStrict (A := ValidatorResult) e.1 with Ok r => bool_decide (r = e.2) | Err _ => false end) bench_table = true.
Proof. vm_compute. reflexivity. Qed.
Lemma bench_results_read_back data res ticks : ValidateResult data bench_manifest = Ok (res, ticks) → reads_back res.
Proof.
  intros Hv. unfold ValidateResult, DecodeStrict in Hv. ok_step Hv. destruct (CanonicalJSON data) as [c|]; [|discriminate].
  destruct (DecodeKnown c) as [known|] eqn:Hk; [|discriminate].
  assert (known = res) as -> by (do 5 ok_step Hv; apply (inj Ok), pair_equal_spec in Hv as [-> _]; reflexivity). clear Hv.
  unfold DecodeKnown, bench_results, table_codec in Hk. destruct (List.find _ bench_table) as [e|] eqn:E; [|discriminate].
  apply find_some in E as [Hin _]. apply (inj Ok) in Hk as <-.
  pose proof (proj1 (forallb_forall _ _) bench_result_entries e Hin) as He. cbv beta in He. apply andb_true_iff in He as [He H3].
  apply andb_true_iff in He as [H1 H2]. destruct (Marshal e.2) as [text'|] eqn:Hm; [|discriminate]. apply String.eqb_eq in H1 as ->.
  exists e.1. split; [exact Hm|]. split; [apply Z.leb_le; exact H2|]. destruct (DecodeStrict e.1) as [r|]; [|discriminate].
  apply bool_decide_eq_true in H3 as ->. reflexivity.
Qed.

Lemma bench_children (child : RunnerJob) : ∃ d, Digest child = Ok d.
Proof. unfold Digest. cbn [Marshal bench_jobs]. destruct (runnerJob_ParentJobDigest child ==s ""); eexists; vm_compute; reflexivity. Qed.

(** ** The preparation *)

Lemma bench_left : bench_prepared.1 = false.
Proof. vm_compute. reflexivity. Qed.
